(* ===== verification/_CoqProject ===== *)
-Q . S2P
Prelude.v
Spinlock.v
Mem.v
CStringFacts.v
Riscv.v
Kalloc.v
Vm.v
VmFacts.v
UserMem.v
UserCopy.v
VmDemo.v
BufCache.v
Bio.v
BioFacts.v
BioSpec.v
Log.v
LogFacts.v
LogSpec.v
LogDemo.v
Ring.v
UserIO.v
Umalloc.v
UmallocFacts.v
Pipe.v
Uart.v
Format.v
Ulib.v
Printf.v
Console.v
Virtio.v
VirtioFacts.v
Proc.v
ProcSpec.v
ProcLife.v
ProcInv.v
ProcSystem.v
ProcLocks.v
ProcBoot.v
ProcDemo.v
SleepRace.v
BlockStore.v
Fs.v
File.v
FileFacts.v
Syscall.v
Trap.v
Boot.v
Sysfile.v
Exec.v
Sh.v
Grep.v
Utils.v
ShLex.v
ShFacts.v
ShMain.v
FsAlloc.v
FsBmap.v
FsData.v
FsDir.v
FsPath.v
FsDemo.v
Mkfs.v
MkfsFacts.v
MkfsImage.v
