(* ===== verification/Prelude.v ===== *)
(** * xv6-internals: a verification library

    The program is xv6 for RISC-V (src/xv6-env): a small Unix kernel, its
    user programs and the tool that builds its disk image.  This library
    translates the kernel's routines, and some of the user programs, into
    executable functions and proves what makes them correct.

    ** How the code is modelled

    A kernel routine is a function of the monad [M S A] below: it runs on a
    state [S] and returns, panics, goes to sleep, spins on a lock that is
    held, or runs out of fuel.  [wp m s Q] says that [m] run from [s] returns
    with [Q]; it rules out the other outcomes, so a theorem stated with it is
    also about termination and the absence of panics.
    Loops carry fuel, computed from their arguments at the loop; [wp_loop]
    needs a measure below the fuel, so that a [wp] theorem shows the fuel to
    be enough.  Machine integers are [Z] with the wrap-around ([u32], [u64],
    [i32], ...) written where the C expression wraps.  Pointers into arrays
    are indices or addresses, null is 0 or [None] as each file says.

    A routine that can block is split at the call of sleep() or swtch(); the
    theorems about interleavings are about step relations on these parts: the
    single memory accesses for spin locks, sleep and wakeup, the iterations of
    the loops for pipes, whole calls up to their end or their sleep for the
    process table, the serial port and the disk driver.  What whole calls on
    several CPUs may rely on is shown for the process table in ProcLocks, for
    states in which other CPUs are anywhere inside their calls.  Components meet
    at type classes: [BufOps] (buffer cache, used by the log), [LogOps] and
    its contract [LogStore] (blocks in a transaction, used by the file
    system), [ProcEnv] with [ProcEnvLaws] (memory and files, used by
    processes), [UserIO] (the caller's memory), [FileEnv] (what an open file
    refers to), [CurProc] (arguments of a system call), [ExecVm], [UartDev],
    [VirtioRegs] (device registers), [TrapEnv] with [TrapLaws] (clock, trap
    registers and devices, used by trap.c), [Sbrk] with [SbrkLaws],
    [KLocal] (a kernel variable that readi() fills), [Sink] (where printed
    characters go), [Terminal] (what the kernel answers
    to the shell).

    ** The files

    - Prelude: machine integers, little-endian bytes, the monad, [wp], lenses.
    - Spinlock: spinlock.c and sleeplock.c; [Spinlock] is one CPU with its
      interrupt nesting, [Race] any number of CPUs interleaved at each memory
      access (mutual exclusion).
    - Mem, CStringFacts: memory and string.c.
    - Riscv, Kalloc: page-table constants of riscv.h, memlayout.h and param.h;
      kalloc.c with the free list threaded through the free pages.
    - Vm, VmFacts, UserMem, UserCopy, VmDemo: vm.c on page tables in memory:
      translation, growing and copying of user memory, copyin and copyout.
    - BufCache, Bio, BioFacts, BioSpec: the interface of the buffer cache and
      bio.c with its doubly linked list, as a refinement of it.
    - Log, LogFacts, LogSpec, LogDemo: log.c over that interface; atomicity of
      commit under crashes and recovery; witnesses.
    - Ring, UserIO, Pipe: circular buffers, the caller's memory, pipe.c.
    - Proc, ProcSpec, ProcLife, ProcInv, ProcSystem, ProcLocks, ProcBoot,
      ProcDemo: proc.c; the invariant of the process table over every state
      that sequences of calls on any number of CPUs reach; the order of the
      locks and what they protect, from any state; fork and wait; witnesses on
      a small environment that keeps a ledger of pages, page tables and files
      and is the one instance of [ProcEnvLaws]; in it fileclose() and iput()
      do not sleep.
    - SleepRace: sleep() and wakeup() interleaved.
    - BlockStore, Fs, FsAlloc, FsBmap, FsData, FsDir, FsPath, FsDemo: fs.c over
      the transactional blocks; block allocator, blocks of a file, reading and
      writing of file contents, directories, path names.
    - File, FileFacts: file.c and pipealloc(); reference counts.
    - Syscall, Sysfile, Exec: syscall.c, sysfile.c, exec.c.
    - Uart, Format, Printf, Console: uart.c, printf.c and console.c; numbers and
      strings as both printf routines print them; the line discipline.
    - Virtio, VirtioFacts: virtio_disk.c; requests, interrupts and the device in
      any interleaving.
    - Trap: trap.c, plic.c and sysproc.c on the process table of Proc.
    - Boot: start.c and main.c; what start() leaves, the harts of main()
      interleaved.
    - Ulib: user/ulib.c and user/printf.c.
    - Sh, ShLex, ShFacts, ShMain: user/sh.c; the parser reads back what is
      printed, a session runs what is typed.
    - Utils: wc(), cat(), ls() and echo of the user programs.
    - Grep: user/grep.c; matcher and line loop.
    - Umalloc, UmallocFacts: user/umalloc.c on headers in memory; malloc() and
      free() tile the heap.
    - Mkfs, MkfsFacts, MkfsImage: mkfs/mkfs.c; the image it builds is a file
      system in the sense of FsData, and the kernel reads the files from it.

    ** What the theorems show

    Locks: interrupt nesting is balanced, the lock excludes, no wakeup is
    lost.  Memory: no page is handed out twice or lost, address spaces are
    grown and copied all or nothing, the kernel reads and writes user memory
    only where it is mapped.  Disk: one copy per block in the cache, a crash
    leaves all or nothing of a transaction, recovery can be repeated.  Files:
    the allocator hands out free blocks once, what is written is read back,
    a name that is linked is found, a path leads where its elements lead and
    resolving it loses no reference, an open file is closed exactly when its
    last reference goes.  Processes:
    the table invariant, shared fields change only under their lock, calls do
    not panic and cannot wait for one another in a circle, what fork and wait
    do, how a system call enters and leaves, how sleep counts ticks.
    Devices: bytes arrive in order, lines are edited as typed, disk requests
    do not interfere, printf prints what its format says.  User programs:
    the shell runs exactly the commands typed, grep prints the matching lines,
    ls lists the entries of a directory inside its buffer, numbers printed are
    read back, malloc (of less than 2^31 - 31 bytes) never hands out a byte
    twice and loses none.  mkfs: the image holds the files, unless their
    entries fill the last block of the root directory exactly.  Start-up: every hart enters main() as the kernel
    expects, and no call of main() runs before those it relies on.  Some
    theorems and lemmas prove that the code goes wrong:
    [reservation_overflow], [kill_zero_poisons], [malloc_huge], [root_hole],
    [poll_race], [library_agrees] (for 2^31 bytes and more), [cd_chops_last].

    ** Not modelled

    Assembly (entry, trampoline, context switch, the timer vector), the test
    programs (usertests, grind, forktest, stressfs), ramdisk.c (no longer part
    of the build), stat() of ulib.c, init and the small programs that only
    call the system (kill, ln, mkdir, rm, ...), and the loops of wc, cat and
    ls over their arguments.
    The messages balloc() and ialloc() print when they find nothing free are
    left out, and uninitialised local arrays start as zeroes.  The block store under
    fs.c ([LogStore]) is an interface that the file system theorems assume,
    with a disk in memory as its instance: a store that gives a block to a
    caller holding at most one other, as the buffer cache does while two
    buffers are free.
    The CPU index and process a routine runs as are arguments ([me], [pid]).
    Reordering of memory accesses is not modelled: the interleavings are
    sequentially consistent.  *)

From Stdlib Require Export ZArith Lia.
From stdpp Require Export base gmap list strings numbers.
#[global] Open Scope Z_scope.

(** ** Machine integers *)

(** C's fixed-width integers are [Z] with the wrap-around written out at the
    places where the C expression wraps. *)
Definition u8 (x : Z) : Z := x mod 2 ^ 8.
Definition u16 (x : Z) : Z := x mod 2 ^ 16.
Definition u32 (x : Z) : Z := x mod 2 ^ 32.
Definition u64 (x : Z) : Z := x mod 2 ^ 64.

(** Conversion to the signed types [char], [short] and [int]. *)
Definition i8 (x : Z) : Z := (x + 2 ^ 7) mod 2 ^ 8 - 2 ^ 7.
Definition i16 (x : Z) : Z := (x + 2 ^ 15) mod 2 ^ 16 - 2 ^ 15.
Definition i32 (x : Z) : Z := (x + 2 ^ 31) mod 2 ^ 32 - 2 ^ 31.

Create HintDb word.

Lemma u8_small x : 0 <= x < 2 ^ 8 -> u8 x = x.
Proof. apply Z.mod_small. Qed.
Lemma u16_small x : 0 <= x < 2 ^ 16 -> u16 x = x.
Proof. apply Z.mod_small. Qed.
Lemma u32_small x : 0 <= x < 2 ^ 32 -> u32 x = x.
Proof. apply Z.mod_small. Qed.
Lemma u64_small x : 0 <= x < 2 ^ 64 -> u64 x = x.
Proof. apply Z.mod_small. Qed.

Lemma u8_range x : 0 <= u8 x < 2 ^ 8.
Proof. apply Z.mod_pos_bound; lia. Qed.
Lemma u16_range x : 0 <= u16 x < 2 ^ 16.
Proof. apply Z.mod_pos_bound; lia. Qed.
Lemma u32_range x : 0 <= u32 x < 2 ^ 32.
Proof. apply Z.mod_pos_bound; lia. Qed.
Lemma u64_range x : 0 <= u64 x < 2 ^ 64.
Proof. apply Z.mod_pos_bound; lia. Qed.

Lemma i32_small x : - 2 ^ 31 <= x < 2 ^ 31 -> i32 x = x.
Proof. intros. unfold i32. rewrite Z.mod_small; lia. Qed.
Lemma i32_range x : - 2 ^ 31 <= i32 x < 2 ^ 31.
Proof. unfold i32. pose proof (Z.mod_pos_bound (x + 2 ^ 31) (2 ^ 32)). lia. Qed.

#[export] Hint Resolve u8_range u16_range u32_range u64_range i32_range : word.

(** A byte, as the values [uchar] takes. *)
Definition is_byte (b : Z) : Prop := 0 <= b < 256.
#[global] Instance is_byte_dec b : Decision (is_byte b).
Proof. unfold is_byte. apply _. Defined.

(** ** Little-endian encoding of integers in byte lists *)

Fixpoint le_bytes (n : nat) (v : Z) : list Z :=
  match n with
  | O => []
  | S n => v mod 256 :: le_bytes n (v / 256)
  end.

Fixpoint le_val (bs : list Z) : Z :=
  match bs with
  | [] => 0
  | b :: bs => b + 256 * le_val bs
  end.

Lemma length_le_bytes n v : length (le_bytes n v) = n.
Proof. revert v; induction n; intros; simpl; auto. Qed.

Lemma le_bytes_is_byte n v : Forall is_byte (le_bytes n v).
Proof.
  revert v; induction n; intros; simpl; constructor; auto.
  apply Z.mod_pos_bound; lia.
Qed.

Lemma le_val_bound bs :
  Forall is_byte bs -> 0 <= le_val bs < 256 ^ Z.of_nat (length bs).
Proof.
  induction 1 as [|b bs Hb _ IH]; [simpl; lia|].
  cbn [le_val length]. rewrite Nat2Z.inj_succ, Z.pow_succ_r by lia.
  unfold is_byte in Hb. lia.
Qed.

Lemma le_val_le_bytes n v : le_val (le_bytes n v) = v mod 256 ^ Z.of_nat n.
Proof.
  revert v; induction n as [|n IH]; intros v; [simpl; by rewrite Z.mod_1_r|].
  cbn [le_val le_bytes]. rewrite IH, Nat2Z.inj_succ, Z.pow_succ_r by lia.
  rewrite Z.rem_mul_r; lia.
Qed.

Lemma le_bytes_le_val bs :
  Forall is_byte bs -> le_bytes (length bs) (le_val bs) = bs.
Proof.
  induction 1 as [|b bs Hb _ IH]; [done|].
  cbn [le_val le_bytes length]. unfold is_byte in Hb.
  rewrite (Z.mul_comm 256), Z.mod_add, Z.mod_small, Z.div_add, Z.div_small by lia.
  by rewrite Z.add_0_l, IH.
Qed.

(** ** The kernel monad

    A kernel routine runs on a state [S] and has one of five outcomes: it
    returns; it calls [panic]; it goes to sleep on a channel (the caller's
    loop is re-entered from its top when the process is woken, see the
    individual components); it spins on a lock another CPU holds, given by its
    name, with the state it spins in; or it does not return (a loop that is
    cut off when its fuel runs out). *)
Inductive outcome (S A : Type) : Type :=
| Ok (a : A) (s : S)
| Panic (msg : string)
| Sleep (chan : Z) (s : S)
| Spin (lk : string) (s : S)
| Hang.
Arguments Ok {S A} a s.
Arguments Panic {S A} msg.
Arguments Sleep {S A} chan s.
Arguments Spin {S A} lk s.
Arguments Hang {S A}.

Definition M (S A : Type) : Type := S -> outcome S A.

Definition ret {S A} (a : A) : M S A := fun s => Ok a s.
Definition bind {S A B} (m : M S A) (k : A -> M S B) : M S B :=
  fun s =>
    match m s with
    | Ok a s' => k a s'
    | Panic e => Panic e
    | Sleep c s' => Sleep c s'
    | Spin l s' => Spin l s'
    | Hang => Hang
    end.
Definition panic {S A} (msg : string) : M S A := fun _ => Panic msg.
Definition hang {S A} : M S A := fun _ => Hang.
Definition spin {S A} (lk : string) : M S A := fun s => Spin lk s.
Definition sleep_on {S A} (chan : Z) : M S A := fun s => Sleep chan s.
Definition gets {S A} (f : S -> A) : M S A := fun s => Ok (f s) s.
Definition modify {S} (f : S -> S) : M S unit := fun s => Ok tt (f s).

Declare Scope kernel_scope.
Delimit Scope kernel_scope with kernel.
#[global] Open Scope kernel_scope.
Notation "'let!' x := m 'in' k" := (bind m (fun x => k))
  (at level 10, x pattern, m at level 200, k at level 200) : kernel_scope.
Notation "m ;; k" := (bind m (fun _ => k))
  (at level 100, k at level 200, right associativity) : kernel_scope.

(** [if(b) m;] *)
Definition when {S} (b : bool) (m : M S unit) : M S unit :=
  if b then m else ret tt.

(** The C loops: [body] maps the loop variables to their next values
    ([inl]) or leaves the loop with a result ([inr]). *)
Fixpoint loop {S A B} (fuel : nat) (body : A -> M S (A + B)) (a : A) : M S B :=
  match fuel with
  | O => hang
  | Datatypes.S fuel =>
      let! r := body a in
      match r with
      | inl a' => loop fuel body a'
      | inr b => ret b
      end
  end.

Lemma loop_S {S A B} fuel (body : A -> M S (A + B)) a :
  loop (Datatypes.S fuel) body a =
    (let! r := body a in
     match r with
     | inl a' => loop fuel body a'
     | inr b => ret b
     end).
Proof. reflexivity. Qed.

(** [for(i = lo; i < lo + n; i++) body(i);] *)
Fixpoint for_range {S} (n : nat) (lo : Z) (body : Z -> M S unit) : M S unit :=
  match n with
  | O => ret tt
  | Datatypes.S n => body lo ;; for_range n (lo + 1) body
  end.

(** ** Total-correctness weakest preconditions

    [wp m s Q]: run from [s], [m] returns, and its result and final state
    satisfy [Q].  It rules out panics, blocking and divergence. *)
Definition wp {S A} (m : M S A) (s : S) (Q : A -> S -> Prop) : Prop :=
  match m s with
  | Ok a s' => Q a s'
  | _ => False
  end.

Section Wp.
Context {S : Type}.
Implicit Types s : S.

Lemma wp_ok {A} (m : M S A) s Q :
  wp m s Q <-> exists a s', m s = Ok a s' /\ Q a s'.
Proof.
  unfold wp. split.
  - destruct (m s); intros; [eauto|done..].
  - by intros (a & s' & -> & ?).
Qed.

Lemma wp_run {A} (m : M S A) s a s' (Q : A -> S -> Prop) : m s = Ok a s' -> wp m s Q -> Q a s'.
Proof. unfold wp. by intros ->. Qed.

Lemma wp_ret {A} (a : A) s (Q : A -> S -> Prop) : Q a s -> wp (ret a) s Q.
Proof. done. Qed.

Lemma wp_bind {A B} (m : M S A) (k : A -> M S B) s Q :
  wp m s (fun a s' => wp (k a) s' Q) -> wp (bind m k) s Q.
Proof. unfold wp, bind. by destruct (m s). Qed.

Lemma wp_gets {A} (f : S -> A) s (Q : A -> S -> Prop) : Q (f s) s -> wp (gets f) s Q.
Proof. done. Qed.

Lemma wp_modify (f : S -> S) s (Q : unit -> S -> Prop) : Q tt (f s) -> wp (modify f) s Q.
Proof. done. Qed.

Lemma wp_mono {A} (m : M S A) s (P Q : A -> S -> Prop) :
  wp m s P -> (forall a s', P a s' -> Q a s') -> wp m s Q.
Proof. unfold wp. destruct (m s); auto. Qed.

Lemma wp_when b (m : M S unit) s Q :
  (b = true -> wp m s Q) -> (b = false -> Q tt s) -> wp (when b m) s Q.
Proof. destruct b; intros H1 H2; [by apply H1|by apply H2]. Qed.

(** The rule for loops: an invariant and a measure that decreases on every
    iteration; any fuel above the measure is enough. *)
Lemma wp_loop {A B} (I : A -> S -> Prop) (mu : A -> nat) (Q : B -> S -> Prop)
    (body : A -> M S (A + B)) :
  (forall a s, I a s ->
     wp (body a) s (fun r s' =>
       match r with
       | inl a' => I a' s' /\ (mu a' < mu a)%nat
       | inr b => Q b s'
       end)) ->
  forall fuel a s, I a s -> (mu a < fuel)%nat -> wp (loop fuel body a) s Q.
Proof.
  intros Hb fuel; induction fuel as [|fuel IH]; intros a s HI Hf; [lia|].
  cbn [loop]. apply wp_bind. eapply wp_mono; [by apply Hb|].
  intros [a'|b] s'; simpl; [|done]. intros [HI' Hmu]. apply IH; [done|lia].
Qed.

(** [m'] does what [m] does, and may go on where [m] is out of fuel. *)
Definition extends_run {A} (m m' : M S A) : Prop := forall s, m s <> Hang -> m' s = m s.

Lemma extends_run_refl {A} (m : M S A) : extends_run m m.
Proof. done. Qed.

Lemma extends_bind {A B} (m m' : M S A) (k k' : A -> M S B) :
  extends_run m m' -> (forall a, extends_run (k a) (k' a)) -> extends_run (bind m k) (bind m' k').
Proof.
  intros Hm Hk s. unfold bind. pose proof (Hm s) as Hs.
  destruct (m s) as [a s'|e|c s'|l s'|]; intros Hne; [|rewrite Hs by done; done..|done].
  rewrite Hs by done. by apply Hk.
Qed.

Lemma extends_loop {A B} f f' (b b' : A -> M S (A + B)) a :
  (f <= f')%nat -> (forall a, extends_run (b a) (b' a)) -> extends_run (loop f b a) (loop f' b' a).
Proof.
  intros Hle Hb. revert f' a Hle. induction f as [|f IH]; intros f' a Hle; [by intros s|].
  destruct f' as [|f']; [lia|]. rewrite !loop_S. apply extends_bind; [done|].
  intros [a'|r]; [apply IH; lia|apply extends_run_refl].
Qed.

(** The rule for counted loops. *)
Lemma wp_for_range (I : Z -> S -> Prop) body lo n s :
  I lo s ->
  (forall i s, lo <= i < lo + Z.of_nat n -> I i s ->
     wp (body i) s (fun _ s' => I (i + 1) s')) ->
  wp (for_range n lo body) s (fun _ s' => I (lo + Z.of_nat n) s').
Proof.
  revert lo s; induction n as [|n IH]; intros lo s HI Hb.
  { cbn. by rewrite Z.add_0_r. }
  cbn [for_range]. apply wp_bind. eapply wp_mono; [apply Hb; [lia|done]|].
  intros [] s' HI'. cbn beta in HI'. replace (lo + Z.of_nat (Datatypes.S n)) with (lo + 1 + Z.of_nat n) by lia.
  apply IH; [done|]. intros; apply Hb; [lia|done].
Qed.
End Wp.

#[global] Arguments wp : simpl never.
#[global] Arguments bind : simpl never.
#[global] Arguments ret : simpl never.
#[global] Arguments gets : simpl never.
#[global] Arguments modify : simpl never.
#[global] Arguments when : simpl never.
#[global] Arguments panic : simpl never.
#[global] Arguments loop : simpl never.
#[global] Arguments for_range : simpl never.

(** One step of symbolic execution. *)
Ltac wp_step :=
  lazymatch goal with
  | |- wp (bind _ _) _ _ => apply wp_bind
  | |- wp (ret _) _ _ => apply wp_ret
  | |- wp (gets _) _ _ => apply wp_gets
  | |- wp (modify _) _ _ => apply wp_modify
  | |- wp (when true ?m) _ _ => change (when true m) with m
  | |- wp (when false _) _ _ => apply wp_ret
  | |- wp (when _ _) _ _ => apply wp_when; intro; try discriminate
  | |- wp (if true then ?m else _) ?s ?Q => change (wp m s Q)
  | |- wp (if false then _ else ?m) ?s ?Q => change (wp m s Q)
  | |- wp (if ?b then _ else _) _ _ => destruct b eqn:?; try discriminate
  | |- wp (match ?x with _ => _ end) _ _ => destruct x eqn:?
  end.
Ltac wp_steps := repeat (wp_step; cbn beta).

(** Boolean tests of the code as propositions. *)
Ltac bool_simpl :=
  repeat match goal with
  | H : (_ && _)%bool = true |- _ => apply andb_true_iff in H as [? ?]
  | H : (_ || _)%bool = false |- _ => apply orb_false_iff in H as [? ?]
  | H : negb _ = true |- _ => apply negb_true_iff in H
  | H : negb _ = false |- _ => apply negb_false_iff in H
  | H : (_ =? _) = true |- _ => apply Z.eqb_eq in H
  | H : (_ =? _) = false |- _ => apply Z.eqb_neq in H
  | H : (_ <? _) = true |- _ => apply Z.ltb_lt in H
  | H : (_ <? _) = false |- _ => apply Z.ltb_ge in H
  | H : (_ <=? _) = true |- _ => apply Z.leb_le in H
  | H : (_ <=? _) = false |- _ => apply Z.leb_gt in H
  end.

(** ** Lists *)

Lemma alter_insert {A} (f : A -> A) (l : list A) i x : l !! i = Some x -> alter f i l = <[i := f x]> l.
Proof.
  intros Hi. apply list_eq. intros j. destruct (decide (i = j)) as [<-|Hne].
  - rewrite list_lookup_alter_eq, Hi, list_lookup_insert_eq by (by eapply lookup_lt_Some). done.
  - by rewrite list_lookup_alter_ne, list_lookup_insert_ne.
Qed.

(** ** Lenses

    A component's routines update one field of a larger state through a
    lens; [zoom] runs a routine of a component on the state that holds it. *)
Record lens (S T : Type) := Lens { view : S -> T; put : T -> S -> S }.
Arguments Lens {S T} _ _.
Arguments view {S T} _ _.
Arguments put {S T} _ _ _.

Class LensLaws {S T} (l : lens S T) : Prop := {
  view_put : forall t s, view l (put l t s) = t;
  put_view : forall s, put l (view l s) s = s;
  put_put : forall t t' s, put l t (put l t' s) = put l t s
}.

Definition zoom {S T A} (l : lens S T) (m : M T A) : M S A :=
  fun s =>
    match m (view l s) with
    | Ok a t => Ok a (put l t s)
    | Panic e => Panic e
    | Sleep c t => Sleep c (put l t s)
    | Spin k t => Spin k (put l t s)
    | Hang => Hang
    end.

#[global] Arguments zoom : simpl never.

Lemma wp_zoom {S T A} (l : lens S T) (m : M T A) s Q :
  wp m (view l s) (fun a t => Q a (put l t s)) -> wp (zoom l m) s Q.
Proof. unfold wp, zoom. by destruct (m (view l s)). Qed.

(** Expose the state passing, to run a routine on a concrete state. *)
Ltac run_unfold := unfold bind, ret, gets, modify, when, zoom, panic, sleep_on, spin, hang.
