(* ===== verification/Spinlock.v ===== *)
(** * Spin locks and sleep locks (kernel/spinlock.c, kernel/sleeplock.c)

    [Spinlock] has the lock record, the interrupt-nesting counters of a CPU
    and the routines [push_off], [pop_off], [holding], [acquire], [release] as
    one CPU runs them.  [Race] is the interleaving semantics of the same code:
    every memory access of [acquire] and [release] is one step of one CPU, and
    mutual exclusion is proved over all interleavings.  [Sleeplock] has the
    locks of kernel/sleeplock.c.  The other components take and drop their own
    lock records through [acquire_at] and [release_at]. *)

From S2P Require Import Prelude.


(** struct spinlock; a [struct cpu *] is the CPU's index, [None] is the null
    pointer. *)
Record spinlock := mkSpinlock { locked : Z; lk_name : string; lk_cpu : option Z }.

Definition initlock (name : string) : spinlock :=
  {| locked := 0; lk_name := name; lk_cpu := None |}.

(** [lk->locked && lk->cpu == mycpu()] *)
Definition holding (me : Z) (lk : spinlock) : bool :=
  negb (locked lk =? 0) && bool_decide (lk_cpu lk = Some me).

Definition lock_free (lk : spinlock) : Prop := locked lk = 0 /\ lk_cpu lk = None.
Definition lock_taken (me : Z) (lk : spinlock) : spinlock :=
  {| locked := 1; lk_name := lk_name lk; lk_cpu := Some me |}.

Module Spinlock.

(** The part of a CPU that interrupt nesting uses: the sstatus register and
    the noff and intena fields of struct cpu. *)
Record hart := mkHart { sstatus : Z; noff : Z; intena : Z }.

Definition SSTATUS_SIE : Z := Z.shiftl 1 1.

Definition set_sstatus (x : Z) (h : hart) : hart :=
  {| sstatus := x; noff := noff h; intena := intena h |}.
Definition intr_on : M hart unit :=
  modify (fun h => set_sstatus (Z.lor (sstatus h) SSTATUS_SIE) h).
Definition intr_off : M hart unit :=
  modify (fun h => set_sstatus (Z.land (sstatus h) (Z.lnot SSTATUS_SIE)) h).
Definition intr_get (h : hart) : Z :=
  if Z.land (sstatus h) SSTATUS_SIE =? 0 then 0 else 1.

Definition push_off : M hart unit :=
  let! old := gets intr_get in
  intr_off ;;
  let! n := gets noff in
  when (n =? 0)
    (modify (fun h => {| sstatus := sstatus h; noff := noff h; intena := old |})) ;;
  modify (fun h => {| sstatus := sstatus h; noff := i32 (noff h + 1); intena := intena h |}).

Definition pop_off : M hart unit :=
  let! i := gets intr_get in
  if negb (i =? 0) then panic "pop_off - interruptible"
  else
    let! n := gets noff in
    if n <? 1 then panic "pop_off"
    else
      modify (fun h => {| sstatus := sstatus h; noff := i32 (noff h - 1); intena := intena h |}) ;;
      let! n := gets noff in
      let! e := gets intena in
      when ((n =? 0) && negb (e =? 0)) intr_on.

(** The state [acquire] and [release] work on: this CPU and the lock. *)
Definition fst_lens {A B} : lens (A * B) A := Lens fst (fun a s => (a, snd s)).
Definition snd_lens {A B} : lens (A * B) B := Lens snd (fun b s => (fst s, b)).

(** A lock that is taken is spun on. *)
Definition acquire (me : Z) : M (hart * spinlock) unit :=
  zoom fst_lens push_off ;;
  let! h := gets (fun s => holding me (snd s)) in
  if h then panic "acquire"
  else
    let! v := gets (fun s => locked (snd s)) in
    if negb (v =? 0) then let! nm := gets (fun s => lk_name (snd s)) in spin nm
    else
      zoom snd_lens (modify (fun lk =>
        {| locked := 1; lk_name := lk_name lk; lk_cpu := lk_cpu lk |})) ;;
      zoom snd_lens (modify (fun lk =>
        {| locked := locked lk; lk_name := lk_name lk; lk_cpu := Some me |})).

Definition release (me : Z) : M (hart * spinlock) unit :=
  let! h := gets (fun s => holding me (snd s)) in
  if negb h then panic "release"
  else
    zoom snd_lens (modify (fun lk =>
      {| locked := locked lk; lk_name := lk_name lk; lk_cpu := None |})) ;;
    zoom snd_lens (modify (fun lk =>
      {| locked := 0; lk_name := lk_name lk; lk_cpu := lk_cpu lk |})) ;;
    zoom fst_lens pop_off.

(** *** Interrupt nesting *)

(** Interrupts are off while any push_off is outstanding, and the counter is
    far from overflowing. *)
Definition hart_ok (h : hart) : Prop :=
  0 <= sstatus h /\ 0 <= noff h /\ (0 < noff h -> intr_get h = 0).

Inductive nest_op := Push | Pop.

Fixpoint run_nest (ops : list nest_op) : M hart unit :=
  match ops with
  | [] => ret tt
  | Push :: ops => push_off ;; run_nest ops
  | Pop :: ops => pop_off ;; run_nest ops
  end.

(** Matched sequences, with their nesting depth. *)
Inductive balanced : nat -> list nest_op -> Prop :=
| bal_nil d : balanced d []
| bal_wrap d w : balanced d w -> balanced (S d) (Push :: w ++ [Pop])
| bal_app d w w' : balanced d w -> balanced d w' -> balanced d (w ++ w').

Lemma run_nest_app w w' h Q :
  wp (run_nest w) h (fun _ h' => wp (run_nest w') h' Q) -> wp (run_nest (w ++ w')) h Q.
Proof.
  revert h; induction w as [|[] w IH]; intros h H; [done|..]; cbn in *;
    apply wp_bind; unfold wp, bind in H |- *;
    match goal with |- context [match ?m h with _ => _ end] => destruct (m h); try done end;
    by apply IH.
Qed.

Lemma sie_cleared x : Z.land (Z.land x (Z.lnot SSTATUS_SIE)) SSTATUS_SIE = 0.
Proof. rewrite <-Z.land_assoc. by rewrite Z.land_0_r. Qed.

Lemma sie_restored x :
  Z.land x SSTATUS_SIE <> 0 -> Z.lor (Z.land x (Z.lnot SSTATUS_SIE)) SSTATUS_SIE = x.
Proof.
  intros H. assert (Hb : Z.testbit x 1 = true).
  { destruct (Z.testbit x 1) eqn:E; [done|]. exfalso. apply H.
    apply Z.bits_inj'. intros n Hn. rewrite Z.land_spec, Z.bits_0.
    change SSTATUS_SIE with (2 ^ 1). rewrite Z.pow2_bits_eqb by lia.
    destruct (Z.eqb_spec 1 n) as [<-|]; [by rewrite E|by rewrite andb_false_r]. }
  apply Z.bits_inj'. intros n Hn.
  rewrite Z.lor_spec, Z.land_spec, Z.lnot_spec by lia.
  change SSTATUS_SIE with (2 ^ 1). rewrite Z.pow2_bits_eqb by lia.
  destruct (Z.eqb_spec 1 n) as [<-|]; [by rewrite Hb|]. cbn [negb].
  by rewrite andb_true_r, orb_false_r.
Qed.

Lemma sie_absent x :
  Z.land x SSTATUS_SIE = 0 -> Z.land x (Z.lnot SSTATUS_SIE) = x.
Proof.
  intros H. rewrite <-(Z.lor_0_r (Z.land x _)), <-H, <-Z.land_lor_distr_r.
  by rewrite Z.lor_comm, Z.lor_lnot_diag, Z.land_m1_r.
Qed.

Lemma intr_get_0 h : intr_get h = 0 <-> Z.land (sstatus h) SSTATUS_SIE = 0.
Proof. unfold intr_get. destruct (Z.eqb_spec (Z.land (sstatus h) SSTATUS_SIE) 0); naive_solver. Qed.

(** The state after push_off. *)
Definition pushed (h : hart) : hart :=
  {| sstatus := Z.land (sstatus h) (Z.lnot SSTATUS_SIE); noff := noff h + 1;
     intena := if noff h =? 0 then intr_get h else intena h |}.

Lemma push_off_eq h : 0 <= noff h < 2 ^ 31 - 1 -> push_off h = Ok tt (pushed h).
Proof.
  intros Hn. unfold push_off, bind, gets, intr_off, modify, when, ret, set_sstatus, pushed. cbn.
  destruct (noff h =? 0); cbn; rewrite i32_small by lia; reflexivity.
Qed.

Lemma pushed_ok h : hart_ok h -> hart_ok (pushed h).
Proof.
  intros (H0 & H1 & H2). unfold hart_ok, pushed; cbn. repeat split.
  - apply Z.land_nonneg. by left.
  - lia.
  - intros _. unfold intr_get; cbn. by rewrite sie_cleared.
Qed.

(** pop_off undoes a push_off, whatever ran in between, provided it left the
    registers as it found them. *)
Lemma pop_pushed h h' :
  hart_ok h -> noff h < 2 ^ 31 - 1 ->
  sstatus h' = sstatus (pushed h) -> noff h' = noff h + 1 ->
  intena h' = intena (pushed h) ->
  exists h'', pop_off h' = Ok tt h'' /\ sstatus h'' = sstatus h /\
    noff h'' = noff h /\ intena h'' = intena (pushed h).
Proof.
  intros (H0 & H1 & H2) Hlt Hs Hn Hi.
  unfold pop_off, bind, gets. rewrite (proj2 (intr_get_0 h')); cbn;
    [|rewrite Hs; apply sie_cleared].
  rewrite Hn. replace (noff h + 1 <? 1) with false by (symmetry; apply Z.ltb_ge; lia).
  unfold modify; cbn. rewrite Hn, Hi, Z.add_simpl_r, i32_small by lia. cbn.
  destruct (Z.eqb_spec (noff h) 0) as [E|E]; cbn.
  - unfold when, intr_get. destruct (Z.eqb_spec (Z.land (sstatus h) SSTATUS_SIE) 0) as [E'|E']; cbn;
      eexists; (split; [reflexivity|]); cbn; rewrite Hs; cbn; (split; [|done]).
    + by apply sie_absent.
    + by apply sie_restored.
  - eexists; (split; [reflexivity|]); cbn; rewrite Hs; cbn; (split; [|done]).
    apply sie_absent, intr_get_0, H2. lia.
Qed.

Lemma wp_balanced d w h :
  balanced d w -> hart_ok h -> noff h + Z.of_nat d < 2 ^ 31 - 1 ->
  wp (run_nest w) h (fun _ h' =>
    sstatus h' = sstatus h /\ noff h' = noff h /\ (0 < noff h -> intena h' = intena h)).
Proof.
  intros Hb; revert h; induction Hb as [d|d w Hb IH|d w w' _ IH _ IH']; intros h Hok Hlt.
  - done.
  - assert (Hok' := Hok). destruct Hok' as (H0 & H1 & H2).
    cbn [run_nest]. apply wp_bind. unfold wp at 1. rewrite push_off_eq by lia.
    apply run_nest_app. eapply wp_mono; [apply IH; [by apply pushed_ok|cbn; lia]|].
    intros _ h1 (Es & En & Ei). cbn beta. cbn [run_nest]. apply wp_bind.
    destruct (pop_pushed h h1) as (h2 & E & Hs & Hn & Hi); try done; [lia|..].
    { apply Ei. cbn. lia. }
    unfold wp at 1. rewrite E. apply wp_ret. repeat split; [done..|].
    intros Hp. rewrite Hi. cbn. by rewrite (proj2 (Z.eqb_neq _ _)) by lia.
  - apply run_nest_app. eapply wp_mono; [by apply IH|].
    intros _ h1 (Es & En & Ei). cbn beta. eapply wp_mono; [apply IH'|].
    + unfold hart_ok, intr_get in *. by rewrite Es, En.
    + lia.
    + intros _ h2 (Es2 & En2 & Ei2). cbn beta. rewrite Es2, En2, Es, En. repeat split; [done..|].
      intros Hp. rewrite Ei2, Ei by lia. done.
Qed.

(** Any matched sequence of push_off()s and pop_off()s runs without a
    panic and leaves the CPU's interrupt-enable bit and nesting depth exactly
    as they were: if interrupts were off they stay off, and only the outermost
    pop_off() turns them back on. *)
Theorem push_pop_balanced d w h :
  balanced d w -> hart_ok h -> noff h + Z.of_nat d < 2 ^ 31 - 1 ->
  exists h', run_nest w h = Ok tt h' /\ sstatus h' = sstatus h /\ noff h' = noff h.
Proof.
  intros Hb Hok Hlt. destruct (proj1 (wp_ok _ _ _) (wp_balanced d w h Hb Hok Hlt))
    as ([] & h' & E & Hs & Hn & _). eauto.
Qed.

Lemma push_pop_balanced_witness :
  exists h', run_nest [Push; Push; Pop; Push; Pop; Pop] (mkHart 2 0 0) = Ok tt h' /\
    sstatus h' = 2 /\ noff h' = 0.
Proof.
  apply (push_pop_balanced 2 _ (mkHart 2 0 0)).
  - apply (bal_wrap 1 ([Push; Pop] ++ [Push; Pop])).
    apply bal_app; apply (bal_wrap 0 []), bal_nil.
  - split; [|split]; cbn; lia.
  - vm_compute. reflexivity.
Defined.

(** acquire() of a free lock followed by release() gives back the lock,
    the interrupt state and the nesting depth unchanged, and neither panics. *)
Theorem acquire_release_roundtrip me h lk :
  hart_ok h -> noff h < 2 ^ 31 - 1 -> lock_free lk ->
  exists h1 h2,
    acquire me (h, lk) = Ok tt (h1, lock_taken me lk) /\
    intr_get h1 = 0 /\ holding me (lock_taken me lk) = true /\
    release me (h1, lock_taken me lk) = Ok tt (h2, lk) /\
    sstatus h2 = sstatus h /\ noff h2 = noff h.
Proof.
  intros Hok Hlt [Hf Hc]. destruct lk as [l n c]; cbn in *; subst.
  exists (pushed h).
  destruct (pop_pushed h (pushed h)) as (h2 & E & Hs & Hn & _); try done.
  exists h2. unfold acquire, release, bind, zoom, gets. cbn -[push_off pop_off pushed].
  rewrite push_off_eq by (destruct Hok; lia).
  unfold modify, holding, lock_taken; cbn -[push_off pop_off pushed].
  rewrite bool_decide_eq_true_2 by done. cbn -[push_off pop_off pushed].
  rewrite E. repeat split; try done.
  unfold intr_get; cbn. by rewrite sie_cleared.
Qed.

Lemma acquire_release_roundtrip_witness :
  exists h1 h2,
    acquire 3 (mkHart 2 0 0, initlock "kmem") = Ok tt (h1, lock_taken 3 (initlock "kmem")) /\
    intr_get h1 = 0 /\ holding 3 (lock_taken 3 (initlock "kmem")) = true /\
    release 3 (h1, lock_taken 3 (initlock "kmem")) = Ok tt (h2, initlock "kmem") /\
    sstatus h2 = 2 /\ noff h2 = 0.
Proof.
  apply (acquire_release_roundtrip 3 (mkHart 2 0 0) (initlock "kmem"));
    [split; [|split]; cbn; lia|vm_compute; reflexivity|split; reflexivity].
Defined.

End Spinlock.

(** ** Locks of the other components *)

(** The effect of [acquire] and [release] on the lock alone, for a lock kept
    in a field of a component's state; [Spinlock.acquire] also nests the CPU's
    interrupt state, which the components do not look at. *)
Definition acquire_at {S} (me : Z) (l : lens S spinlock) : M S unit :=
  fun s =>
    let lk := view l s in
    if holding me lk then Panic "acquire"
    else if negb (locked lk =? 0) then Spin (lk_name lk) s
    else Ok tt (put l (lock_taken me lk) s).

Definition release_at {S} (me : Z) (l : lens S spinlock) : M S unit :=
  fun s =>
    let lk := view l s in
    if negb (holding me lk) then Panic "release"
    else Ok tt (put l {| locked := 0; lk_name := lk_name lk; lk_cpu := None |} s).

Lemma wp_acquire_at {S} me (l : lens S spinlock) s (Q : unit -> S -> Prop) :
  lock_free (view l s) -> Q tt (put l (lock_taken me (view l s)) s) ->
  wp (acquire_at me l) s Q.
Proof.
  intros [Hl Hc] HQ. unfold wp, acquire_at, holding. by rewrite Hl.
Qed.

Lemma wp_release_at {S} me (l : lens S spinlock) s lk (Q : unit -> S -> Prop) :
  view l s = lock_taken me lk -> lock_free lk -> Q tt (put l lk s) ->
  wp (release_at me l) s Q.
Proof.
  intros Hv [Hl Hc] HQ. unfold wp, release_at, holding. rewrite Hv; cbn.
  rewrite bool_decide_eq_true_2 by done. cbn. destruct lk; cbn in *; by subst.
Qed.

Lemma acquire_at_eq {S} me (l : lens S spinlock) s :
  lock_free (view l s) -> acquire_at me l s = Ok tt (put l (lock_taken me (view l s)) s).
Proof. intros [Hl Hc]. unfold acquire_at, holding. by rewrite Hl. Qed.

Lemma release_at_eq {S} me (l : lens S spinlock) s lk :
  view l s = lock_taken me lk -> lock_free lk -> release_at me l s = Ok tt (put l lk s).
Proof.
  intros Hv [Hl Hc]. unfold release_at, holding. rewrite Hv; cbn. rewrite bool_decide_eq_true_2 by done. cbn.
  destruct lk; cbn in *; by subst.
Qed.

(** [wakeup] as a component other than the process table sees it: the
    component's own state does not change (Proc.v has the effect on the
    process table). *)
Definition wakeup {S} (chan : Z) : M S unit := ret tt.

(** ** All interleavings of acquire and release *)

Module Race.

(** Where a CPU is: outside; in holding() called by acquire, before its read
    of lk->locked and before its read of lk->cpu; before the test-and-set;
    before [lk->cpu = mycpu()]; in the critical section; in holding() called
    by release; before [lk->cpu = 0]; before the store that clears
    lk->locked; in panic(). *)
Inductive pc := Out | AcqLocked | AcqCpu | TestAndSet | SetCpu | Crit
  | RelLocked | RelCpu | ClearCpu | ClearLocked | Panicked.

Record world := mkWorld { lk : spinlock; at_pc : Z -> pc }.

Definition goto (w : world) (c : Z) (p : pc) : Z -> pc :=
  fun x => if decide (x = c) then p else at_pc w x.

Definition with_locked (l : spinlock) (v : Z) : spinlock :=
  {| locked := v; lk_name := lk_name l; lk_cpu := lk_cpu l |}.
Definition with_cpu (l : spinlock) (o : option Z) : spinlock :=
  {| locked := locked l; lk_name := lk_name l; lk_cpu := o |}.

(** One memory access of CPU [c]. *)
Inductive step : world -> world -> Prop :=
| step_acquire w c : at_pc w c = Out ->
    step w (mkWorld (lk w) (goto w c AcqLocked))
| step_acq_locked w c : at_pc w c = AcqLocked ->
    step w (mkWorld (lk w) (goto w c (if locked (lk w) =? 0 then TestAndSet else AcqCpu)))
| step_acq_cpu w c : at_pc w c = AcqCpu ->
    step w (mkWorld (lk w)
      (goto w c (if bool_decide (lk_cpu (lk w) = Some c) then Panicked else TestAndSet)))
| step_tas w c : at_pc w c = TestAndSet ->
    step w (mkWorld (with_locked (lk w) 1)
      (goto w c (if locked (lk w) =? 0 then SetCpu else TestAndSet)))
| step_set_cpu w c : at_pc w c = SetCpu ->
    step w (mkWorld (with_cpu (lk w) (Some c)) (goto w c Crit))
| step_release w c : at_pc w c = Crit ->
    step w (mkWorld (lk w) (goto w c RelLocked))
| step_rel_locked w c : at_pc w c = RelLocked ->
    step w (mkWorld (lk w) (goto w c (if locked (lk w) =? 0 then Panicked else RelCpu)))
| step_rel_cpu w c : at_pc w c = RelCpu ->
    step w (mkWorld (lk w)
      (goto w c (if bool_decide (lk_cpu (lk w) = Some c) then ClearCpu else Panicked)))
| step_clear_cpu w c : at_pc w c = ClearCpu ->
    step w (mkWorld (with_cpu (lk w) None) (goto w c ClearLocked))
| step_clear_locked w c : at_pc w c = ClearLocked ->
    step w (mkWorld (with_locked (lk w) 0) (goto w c Out)).

Definition init (name : string) : world := mkWorld (initlock name) (fun _ => Out).

(** A CPU that has won the test-and-set and not yet given the lock back. *)
Definition owns (p : pc) : bool :=
  match p with
  | SetCpu | Crit | RelLocked | RelCpu | ClearCpu | ClearLocked => true
  | _ => false
  end.
(** A CPU whose number is in lk->cpu. *)
Definition recorded (p : pc) : bool :=
  match p with Crit | RelLocked | RelCpu | ClearCpu => true | _ => false end.

Record inv (w : world) : Prop := {
  inv_unique : forall c c', owns (at_pc w c) = true -> owns (at_pc w c') = true -> c = c';
  inv_locked : forall c, owns (at_pc w c) = true -> locked (lk w) = 1;
  inv_cpu_of : forall c, lk_cpu (lk w) = Some c -> recorded (at_pc w c) = true;
  inv_of_cpu : forall c, recorded (at_pc w c) = true -> lk_cpu (lk w) = Some c;
  inv_alive : forall c, at_pc w c <> Panicked
}.

Lemma init_inv name : inv (init name).
Proof. split; cbn; naive_solver. Qed.

Ltac use_goto :=
  cbn in *; unfold goto in *;
  repeat match goal with
  | H : context [decide (?a = ?b)] |- _ => destruct (decide (a = b)); subst
  | |- context [decide (?a = ?b)] => destruct (decide (a = b)); subst
  end.

(** Facts about the CPU that moves, read off the invariant. *)
Lemma inv_rec_owns p : recorded p = true -> owns p = true.
Proof. by destruct p. Qed.

Ltac saturate w c :=
  repeat match goal with
  | x : Z |- _ =>
      lazymatch goal with
      | _ : at_pc w x = at_pc w x -> True |- _ => fail
      | _ => pose proof (fun _ : at_pc w x = at_pc w x => I)
      end;
      match goal with
      | Hu : forall a b, owns _ = true -> owns _ = true -> a = b,
        Hl : forall a, owns _ = true -> locked _ = 1,
        H1 : forall a, lk_cpu _ = Some a -> _,
        H2 : forall a, recorded _ = true -> _,
        Ha : forall a, at_pc _ a <> Panicked |- _ =>
          pose proof (Hu c x); pose proof (Hl x); pose proof (H1 x); pose proof (H2 x);
          pose proof (Ha x); pose proof (inv_rec_owns (at_pc w x))
      end
  end.

Lemma step_inv w w' : step w w' -> inv w -> inv w'.
Proof.
  intros Hs [Hu Hl H1 H2 Ha].
  destruct Hs as [w c H|w c H|w c H|w c H|w c H|w c H|w c H|w c H|w c H|w c H];
    try (destruct (Z.eqb_spec (locked (lk w)) 0) as [E|E]);
    try case_bool_decide;
    split; intros; use_goto; simplify_eq; saturate w c; rewrite ?H in *; cbn in *;
    try solve [intuition (congruence || lia)]; eauto.
Qed.

Lemma reach_inv name w : rtc step (init name) w -> inv w.
Proof.
  intros Hr. assert (H : forall w0, rtc step w0 w -> inv w0 -> inv w).
  { clear. induction 1; eauto using step_inv. }
  eauto using init_inv.
Qed.

(** C13: mutual exclusion of spin locks.  In every interleaving of the memory
    accesses of any number of CPUs that repeatedly acquire() and release() one
    lock, at most one CPU is in the critical section at a time, the lock's
    cpu field names that CPU, and the panics of acquire() and release() are
    never reached. *)
Theorem mutual_exclusion name w :
  rtc step (init name) w ->
  (forall c c', at_pc w c = Crit -> at_pc w c' = Crit -> c = c') /\
  (forall c, at_pc w c = Crit -> locked (lk w) = 1 /\ lk_cpu (lk w) = Some c) /\
  (forall c, at_pc w c <> Panicked).
Proof.
  intros Hr. destruct (reach_inv name w Hr) as [Hu Hl H1 H2 Ha]. repeat split.
  - intros c c' H H'. apply Hu; by rewrite ?H, ?H'.
  - apply (Hl c). by rewrite H.
  - apply H2. by rewrite H.
  - apply Ha.
Qed.

(** One CPU running alone through acquire. *)
Lemma mutual_exclusion_witness :
  exists w, rtc step (init "kmem") w /\ at_pc w 1 = Crit /\
    locked (lk w) = 1 /\ lk_cpu (lk w) = Some 1.
Proof.
  assert (H : exists w, rtc step (init "kmem") w /\ at_pc w 1 = Crit).
  { eexists. split.
    - eapply rtc_l; [apply (step_acquire _ 1); reflexivity|].
      eapply rtc_l; [apply (step_acq_locked _ 1); reflexivity|].
      eapply rtc_l; [apply (step_tas _ 1); reflexivity|].
      eapply rtc_l; [apply (step_set_cpu _ 1); reflexivity|].
      apply rtc_refl.
    - reflexivity. }
  destruct H as (w & Hr & Hc). exists w. split; [exact Hr|]. split; [exact Hc|].
  exact (proj1 (proj2 (mutual_exclusion "kmem" w Hr)) 1 Hc).
Defined.

End Race.

(** ** Sleep locks *)

(** struct sleeplock *)
Record sleeplock := mkSleeplock {
  sl_locked : Z; sl_lk : spinlock; sl_name : string; sl_pid : Z
}.

Definition initsleeplock (name : string) : sleeplock :=
  {| sl_locked := 0; sl_lk := initlock "sleep lock"; sl_name := name; sl_pid := 0 |}.

Definition sl_lk_lens : lens sleeplock spinlock :=
  Lens sl_lk (fun l s => {| sl_locked := sl_locked s; sl_lk := l;
                            sl_name := sl_name s; sl_pid := sl_pid s |}).

(** sleep() gives the spin lock back before the process blocks, and takes it
    again when woken, so that a woken process re-enters the loop here. *)
Definition acquiresleep (me pid chan : Z) : M sleeplock unit :=
  acquire_at me sl_lk_lens ;;
  let! l := gets sl_locked in
  if negb (l =? 0) then release_at me sl_lk_lens ;; sleep_on chan
  else
    modify (fun s => {| sl_locked := 1; sl_lk := sl_lk s; sl_name := sl_name s; sl_pid := sl_pid s |}) ;;
    modify (fun s => {| sl_locked := sl_locked s; sl_lk := sl_lk s; sl_name := sl_name s; sl_pid := pid |}) ;;
    release_at me sl_lk_lens.

Definition releasesleep (me chan : Z) : M sleeplock unit :=
  acquire_at me sl_lk_lens ;;
  modify (fun s => {| sl_locked := 0; sl_lk := sl_lk s; sl_name := sl_name s; sl_pid := sl_pid s |}) ;;
  modify (fun s => {| sl_locked := sl_locked s; sl_lk := sl_lk s; sl_name := sl_name s; sl_pid := 0 |}) ;;
  wakeup chan ;;
  release_at me sl_lk_lens.

Definition holdingsleep (me pid : Z) : M sleeplock bool :=
  acquire_at me sl_lk_lens ;;
  let! r := gets (fun s => negb (sl_locked s =? 0) && (sl_pid s =? pid)) in
  release_at me sl_lk_lens ;;
  ret r.

(** A sleep lock nobody is operating on, free or held by process [pid]. *)
Definition sl_free (name : string) : sleeplock := initsleeplock name.
Definition sl_held (name : string) (pid : Z) : sleeplock :=
  {| sl_locked := 1; sl_lk := initlock "sleep lock"; sl_name := name; sl_pid := pid |}.

Lemma acquiresleep_free me pid chan name :
  acquiresleep me pid chan (sl_free name) = Ok tt (sl_held name pid).
Proof.
  unfold acquiresleep, acquire_at, release_at, wakeup; run_unfold; cbn.
  by rewrite bool_decide_eq_true_2.
Qed.

Lemma acquiresleep_held me pid chan name pid' :
  acquiresleep me pid chan (sl_held name pid') = Sleep chan (sl_held name pid').
Proof.
  unfold acquiresleep, acquire_at, release_at, wakeup; run_unfold; cbn.
  by rewrite bool_decide_eq_true_2.
Qed.

Lemma releasesleep_held me chan name pid :
  releasesleep me chan (sl_held name pid) = Ok tt (sl_free name).
Proof.
  unfold releasesleep, acquire_at, release_at, wakeup; run_unfold; cbn.
  by rewrite bool_decide_eq_true_2.
Qed.

Lemma holdingsleep_held me pid name pid' :
  holdingsleep me pid (sl_held name pid') = Ok (pid' =? pid) (sl_held name pid').
Proof.
  unfold holdingsleep, acquire_at, release_at, wakeup; run_unfold; cbn.
  by rewrite bool_decide_eq_true_2.
Qed.

Lemma holdingsleep_free me pid name :
  holdingsleep me pid (sl_free name) = Ok false (sl_free name).
Proof.
  unfold holdingsleep, acquire_at, release_at, wakeup; run_unfold; cbn.
  by rewrite bool_decide_eq_true_2.
Qed.
