(* ===== verification/Mem.v ===== *)
(** * Memory and the kernel's string routines (kernel/string.c)

    Memory is a finite map from addresses to bytes; a byte that was never
    written reads as 0.  [load64]/[store64] access little-endian 64-bit words,
    as page-table entries and the links of the free list are.  [CString]
    translates the routines of kernel/string.c, each a loop over addresses. *)

From S2P Require Import Prelude.

Abbreviation mem := (gmap Z Z).

Definition load8 (m : mem) (a : Z) : Z := u8 (default 0 (m !! a)).
Definition store8 (m : mem) (a v : Z) : mem := <[a := u8 v]> m.

Fixpoint load_bytes (m : mem) (a : Z) (n : nat) : list Z :=
  match n with
  | O => []
  | S n => load8 m a :: load_bytes m (a + 1) n
  end.

Fixpoint store_bytes (m : mem) (a : Z) (bs : list Z) : mem :=
  match bs with
  | [] => m
  | b :: bs => store_bytes (store8 m a b) (a + 1) bs
  end.

Definition load64 (m : mem) (a : Z) : Z := le_val (load_bytes m a 8).
Definition store64 (m : mem) (a v : Z) : mem := store_bytes m a (le_bytes 8 v).

Module CString.

(** [cdst[i] = c] for [i] from 0 to [n - 1]. *)
Fixpoint memset_loop (n : nat) (i dst c : Z) (m : mem) : mem :=
  match n with
  | O => m
  | S n => memset_loop n (i + 1) dst c (store8 m (dst + i) c)
  end.
Definition memset (dst c n : Z) (m : mem) : mem := memset_loop (Z.to_nat n) 0 dst c m.

Fixpoint memcmp_loop (n : nat) (s1 s2 : Z) (m : mem) : Z :=
  match n with
  | O => 0
  | S n =>
      if negb (load8 m s1 =? load8 m s2) then load8 m s1 - load8 m s2
      else memcmp_loop n (s1 + 1) (s2 + 1) m
  end.
Definition memcmp (v1 v2 n : Z) (m : mem) : Z := memcmp_loop (Z.to_nat n) v1 v2 m.

(** [*--d = *--s] *)
Fixpoint memmove_back (n : nat) (d s : Z) (m : mem) : mem :=
  match n with
  | O => m
  | S n => memmove_back n (d - 1) (s - 1) (store8 m (d - 1) (load8 m (s - 1)))
  end.
(** [*d++ = *s++] *)
Fixpoint memmove_fwd (n : nat) (d s : Z) (m : mem) : mem :=
  match n with
  | O => m
  | S n => memmove_fwd n (d + 1) (s + 1) (store8 m d (load8 m s))
  end.
Definition memmove (dst src n : Z) (m : mem) : mem :=
  if n =? 0 then m
  else if (src <? dst) && (dst <? src + n)
       then memmove_back (Z.to_nat n) (dst + n) (src + n) m
       else memmove_fwd (Z.to_nat n) dst src m.

Definition memcpy (dst src n : Z) (m : mem) : mem := memmove dst src n m.

Fixpoint strncmp_loop (n : nat) (p q : Z) (m : mem) : Z :=
  match n with
  | O => 0
  | S n' =>
      if negb (load8 m p =? 0) && (load8 m p =? load8 m q)
      then strncmp_loop n' (p + 1) (q + 1) m
      else load8 m p - load8 m q
  end.
Definition strncmp (p q n : Z) (m : mem) : Z := strncmp_loop (Z.to_nat n) p q m.

(** [while(n-- > 0) *s++ = 0] *)
Fixpoint zero_fill (n : nat) (s : Z) (m : mem) : mem :=
  match n with
  | O => m
  | S n => zero_fill n (s + 1) (store8 m s 0)
  end.
(** The copying loop of strncpy; it goes on to zero-fill once the NUL has
    been copied. *)
Fixpoint strncpy_loop (n : nat) (s t : Z) (m : mem) : mem :=
  match n with
  | O => m
  | S n =>
      let c := load8 m t in
      let m' := store8 m s c in
      if negb (c =? 0) then strncpy_loop n (s + 1) (t + 1) m'
      else zero_fill n (s + 1) m'
  end.
Definition strncpy (s t n : Z) (m : mem) : mem := strncpy_loop (Z.to_nat n) s t m.

(** The loop of safestrcpy, which has [n] characters left to copy; the
    address it returns is where the final [*s = 0] goes. *)
Fixpoint safestrcpy_loop (n : nat) (s t : Z) (m : mem) : mem * Z :=
  match n with
  | O => (m, s)
  | S n =>
      let c := load8 m t in
      let m' := store8 m s c in
      if negb (c =? 0) then safestrcpy_loop n (s + 1) (t + 1) m' else (m', s + 1)
  end.
Definition safestrcpy (s t n : Z) (m : mem) : mem :=
  if n <=? 0 then m
  else
    let '(m', s') := safestrcpy_loop (Z.to_nat (n - 1)) s t m in
    store8 m' s' 0.

(** [None] when no NUL is found within [fuel] bytes. *)
Fixpoint strlen_loop (fuel : nat) (n s : Z) (m : mem) : option Z :=
  match fuel with
  | O => None
  | S fuel => if load8 m (s + n) =? 0 then Some n else strlen_loop fuel (n + 1) s m
  end.
Definition strlen (fuel : nat) (s : Z) (m : mem) : option Z := strlen_loop fuel 0 s m.

End CString.

(** ** Memory lemmas *)

Lemma load8_byte m a : is_byte (load8 m a).
Proof. apply u8_range. Qed.

Lemma load8_store8_eq m a v : load8 (store8 m a v) a = u8 v.
Proof.
  unfold load8, store8. rewrite lookup_insert_eq; cbn. apply u8_small, u8_range.
Qed.

Lemma load8_store8_ne m a b v : a <> b -> load8 (store8 m a v) b = load8 m b.
Proof. intros. unfold load8, store8. by rewrite lookup_insert_ne. Qed.

Lemma load8_store8 m a b v :
  load8 (store8 m a v) b = if decide (a = b) then u8 v else load8 m b.
Proof.
  case_decide; subst; [apply load8_store8_eq|by apply load8_store8_ne].
Qed.

Lemma length_load_bytes m a n : length (load_bytes m a n) = n.
Proof. revert a; induction n; intros; simpl; auto. Qed.

Lemma load_bytes_is_byte m a n : Forall is_byte (load_bytes m a n).
Proof. revert a; induction n; intros; simpl; constructor; auto using load8_byte. Qed.

Lemma load_bytes_lookup m a n i :
  (i < n)%nat -> load_bytes m a n !! i = Some (load8 m (a + Z.of_nat i)).
Proof.
  revert a i; induction n as [|n IH]; intros a i Hi; [lia|].
  destruct i as [|i]; cbn [load_bytes lookup list_lookup].
  - by rewrite Z.add_0_r.
  - rewrite IH by lia. do 2 f_equal. lia.
Qed.

Lemma load_bytes_ext m m' a n :
  (forall x, a <= x < a + Z.of_nat n -> load8 m x = load8 m' x) ->
  load_bytes m a n = load_bytes m' a n.
Proof.
  revert a; induction n as [|n IH]; intros a H; [done|].
  cbn [load_bytes]. f_equal; [apply H; lia|apply IH; intros; apply H; lia].
Qed.

Lemma load_bytes_app m a n k :
  load_bytes m a (n + k) = load_bytes m a n ++ load_bytes m (a + Z.of_nat n) k.
Proof.
  revert a; induction n as [|n IH]; intros a; cbn [load_bytes Nat.add app].
  - by rewrite Z.add_0_r.
  - rewrite IH. do 3 f_equal. lia.
Qed.

Lemma load8_store_bytes m a bs x :
  load8 (store_bytes m a bs) x =
    if decide (a <= x < a + Z.of_nat (length bs))
    then u8 (bs !!! Z.to_nat (x - a)) else load8 m x.
Proof.
  revert m a; induction bs as [|b bs IH]; intros m a; cbn [store_bytes length].
  - rewrite decide_False by lia. done.
  - rewrite IH, load8_store8. repeat case_decide; try lia; try done.
    + by replace (Z.to_nat (x - a)) with (S (Z.to_nat (x - (a + 1)))) by lia.
    + by replace (Z.to_nat (x - a)) with O by lia.
Qed.

Lemma load8_store_bytes_out m a bs x :
  ~ (a <= x < a + Z.of_nat (length bs)) -> load8 (store_bytes m a bs) x = load8 m x.
Proof. intros. rewrite load8_store_bytes. by rewrite decide_False. Qed.

Lemma load_store_bytes m a bs :
  Forall is_byte bs -> load_bytes (store_bytes m a bs) a (length bs) = bs.
Proof.
  intros Hb. apply list_eq_same_length with (length bs); [done|apply length_load_bytes|].
  intros i x y Hi Hx Hy. rewrite load_bytes_lookup in Hx by done.
  rewrite load8_store_bytes, decide_True in Hx by lia.
  replace (Z.to_nat (a + Z.of_nat i - a)) with i in Hx by lia.
  rewrite (list_lookup_total_correct _ _ _ Hy) in Hx.
  rewrite Forall_lookup in Hb. rewrite u8_small in Hx by (by apply (Hb i)). congruence.
Qed.

Lemma load64_store64_eq m a v : load64 (store64 m a v) a = u64 v.
Proof.
  unfold load64, store64. replace 8%nat with (length (le_bytes 8 v)) at 2 by done.
  rewrite load_store_bytes by apply le_bytes_is_byte. apply le_val_le_bytes.
Qed.

Lemma load64_ext m m' a :
  (forall x, a <= x < a + 8 -> load8 m x = load8 m' x) -> load64 m a = load64 m' a.
Proof. intros. unfold load64. f_equal. by apply load_bytes_ext. Qed.

Lemma load8_store64_out m a v x : ~ (a <= x < a + 8) -> load8 (store64 m a v) x = load8 m x.
Proof. intros. unfold store64. apply load8_store_bytes_out. by rewrite length_le_bytes. Qed.

Lemma load64_store64_ne m a b v :
  a + 8 <= b \/ b + 8 <= a -> load64 (store64 m a v) b = load64 m b.
Proof. intros. apply load64_ext. intros. apply load8_store64_out. lia. Qed.

Lemma load64_range m a : 0 <= load64 m a < 2 ^ 64.
Proof.
  unfold load64. pose proof (le_val_bound _ (load_bytes_is_byte m a 8)) as H.
  by rewrite length_load_bytes in H.
Qed.

(** Two memories that agree outside the range of [n] bytes at [a]. *)
Definition same_outside (a n : Z) (m m' : mem) : Prop :=
  forall x, ~ (a <= x < a + n) -> load8 m' x = load8 m x.

#[global] Instance same_outside_preorder a n : PreOrder (same_outside a n).
Proof. split; unfold same_outside; [done|]. intros m1 m2 m3 H1 H2 x Hx. by rewrite H2, H1. Qed.

Lemma same_outside_weaken a n a' n' m m' :
  same_outside a n m m' -> a' <= a -> a + n <= a' + n' -> same_outside a' n' m m'.
Proof. unfold same_outside. intros H ?? x Hx. apply H. lia. Qed.

Lemma same_outside_load64 a n m m' x :
  same_outside a n m m' -> x + 8 <= a \/ a + n <= x -> load64 m' x = load64 m x.
Proof. intros H Hx. apply load64_ext. intros. symmetry. symmetry. apply H. lia. Qed.

Lemma same_outside_bytes a n m m' x k :
  same_outside a n m m' -> x + Z.of_nat k <= a \/ a + n <= x ->
  load_bytes m' x k = load_bytes m x k.
Proof. intros H Hx. apply load_bytes_ext. intros. apply H. lia. Qed.

Lemma store64_outside m a v : same_outside a 8 m (store64 m a v).
Proof. intros x Hx. by apply load8_store64_out. Qed.

Lemma store8_outside m a v : same_outside a 1 m (store8 m a v).
Proof. intros x Hx. apply load8_store8_ne. lia. Qed.

#[export] Hint Resolve store64_outside store8_outside : word.

#[global] Arguments load8 : simpl never.
#[global] Arguments store8 : simpl never.
#[global] Arguments load64 : simpl never.
#[global] Arguments store64 : simpl never.
#[global] Arguments store_bytes : simpl never.
#[global] Arguments CString.memset : simpl never.
#[global] Arguments CString.memmove : simpl never.
