(* ===== verification/CStringFacts.v ===== *)
(** * Correctness of kernel/string.c

    What each routine of [Mem.CString] leaves in memory and returns, in terms
    of the bytes at its arguments and of the C strings they point to. *)

From S2P Require Import Prelude Mem.
Import CString.

(** The C string at [p], cut off after [n] characters. *)
Fixpoint cstr (m : mem) (p : Z) (n : nat) : list Z :=
  match n with
  | O => []
  | S n => if load8 m p =? 0 then [] else load8 m p :: cstr m (p + 1) n
  end.

Lemma length_cstr m p n : (length (cstr m p n) <= n)%nat.
Proof. revert p; induction n; intros; simpl; [lia|]. case_match; simpl; [lia|]. specialize (IHn (p+1)). lia. Qed.

Lemma cstr_ext m m' p n :
  (forall x, p <= x < p + Z.of_nat n -> load8 m x = load8 m' x) -> cstr m p n = cstr m' p n.
Proof.
  revert p; induction n as [|n IH]; intros p H; [done|]. cbn [cstr].
  rewrite H by lia. case_match; [done|]. f_equal. apply IH. intros; apply H; lia.
Qed.

(** ** memset *)

Lemma load8_memset_loop n i dst c m x :
  load8 (memset_loop n i dst c m) x =
    if decide (dst + i <= x < dst + i + Z.of_nat n) then u8 c else load8 m x.
Proof.
  revert i m; induction n as [|n IH]; intros i m; cbn [memset_loop].
  - by rewrite decide_False by lia.
  - rewrite IH, load8_store8. repeat case_decide; lia || done.
Qed.

Lemma load8_memset dst c n m x :
  0 <= n -> load8 (memset dst c n m) x = if decide (dst <= x < dst + n) then u8 c else load8 m x.
Proof. intros. unfold memset. rewrite load8_memset_loop, Z.add_0_r, Z2Nat.id by lia. done. Qed.

Lemma memset_outside dst c n m : 0 <= n -> same_outside dst n m (memset dst c n m).
Proof. intros Hn x Hx. rewrite load8_memset by done. by rewrite decide_False. Qed.

Lemma load64_memset_0 dst n m x :
  0 <= n -> dst <= x -> x + 8 <= dst + n -> load64 (memset dst 0 n m) x = 0.
Proof.
  intros. unfold load64. rewrite (load_bytes_ext _ ∅); [done|].
  intros y Hy. rewrite load8_memset, decide_True by lia. done.
Qed.

(** ** memmove *)

Lemma load8_memmove_fwd n d s m x :
  d <= s \/ s + Z.of_nat n <= d ->
  load8 (memmove_fwd n d s m) x =
    if decide (d <= x < d + Z.of_nat n) then load8 m (s + (x - d)) else load8 m x.
Proof.
  revert d s m; induction n as [|n IH]; intros d s m H; cbn [memmove_fwd].
  - by rewrite decide_False by lia.
  - rewrite IH by lia. repeat case_decide; try lia.
    + rewrite load8_store8_ne by lia. f_equal. lia.
    + replace x with d by lia. rewrite load8_store8_eq, u8_small by apply load8_byte. f_equal. lia.
    + by rewrite load8_store8_ne by lia.
Qed.

Lemma load8_memmove_back n d s m x :
  s <= d ->
  load8 (memmove_back n d s m) x =
    if decide (d - Z.of_nat n <= x < d) then load8 m (s + (x - d)) else load8 m x.
Proof.
  revert d s m; induction n as [|n IH]; intros d s m H; cbn [memmove_back].
  - by rewrite decide_False by lia.
  - rewrite IH by lia. repeat case_decide; try lia.
    + rewrite load8_store8_ne by lia. f_equal. lia.
    + replace x with (d - 1) by lia.
      rewrite load8_store8_eq, u8_small by apply load8_byte. f_equal. lia.
    + by rewrite load8_store8_ne by lia.
Qed.

Lemma load8_memmove dst src n m x :
  0 <= n ->
  load8 (memmove dst src n m) x =
    if decide (dst <= x < dst + n) then load8 m (src + (x - dst)) else load8 m x.
Proof.
  intros Hn. unfold memmove. destruct (Z.eqb_spec n 0) as [->|H0].
  { by rewrite decide_False by lia. }
  destruct ((src <? dst) && (dst <? src + n)) eqn:E.
  - bool_simpl. rewrite load8_memmove_back, Z2Nat.id, Z.add_simpl_r by lia.
    case_decide; [|done]. f_equal. lia.
  - rewrite load8_memmove_fwd.
    + by rewrite Z2Nat.id by lia.
    + apply andb_false_iff in E as [E|E]; bool_simpl; lia.
Qed.

(** memmove() copies correctly however the two ranges overlap: afterwards
    the [n] bytes at [dst] are the [n] bytes that were at [src] before the
    call, and no other byte of memory has changed. *)
Theorem memmove_correct dst src n m :
  0 <= n ->
  load_bytes (memmove dst src n m) dst (Z.to_nat n) = load_bytes m src (Z.to_nat n) /\
  same_outside dst n m (memmove dst src n m).
Proof.
  intros Hn. split.
  - apply list_eq_same_length with (Z.to_nat n); [apply length_load_bytes..|].
    intros i x y Hi. rewrite !load_bytes_lookup by done.
    rewrite load8_memmove, decide_True by lia.
    replace (src + (dst + Z.of_nat i - dst)) with (src + Z.of_nat i) by lia. congruence.
  - intros x Hx. rewrite load8_memmove by done. by rewrite decide_False.
Qed.

Lemma memmove_correct_witness :
  let m := store_bytes ∅ 100 [1; 2; 3; 4; 5] in
  load_bytes (memmove 102 100 5 m) 102 5 = [1; 2; 3; 4; 5] /\ load8 (memmove 102 100 5 m) 101 = 2.
Proof.
  intros m. destruct (memmove_correct 102 100 5 m) as [H1 H2]; [lia|]. split.
  - change 5%nat with (Z.to_nat 5) at 1. rewrite H1. reflexivity.
  - rewrite H2 by lia. reflexivity.
Defined.

Lemma memmove_outside dst src n m : 0 <= n -> same_outside dst n m (memmove dst src n m).
Proof. intros Hn x Hx. rewrite load8_memmove by done. by rewrite decide_False. Qed.

(** ** memcmp and strncmp *)

Lemma memcmp_loop_zero n s1 s2 m :
  memcmp_loop n s1 s2 m = 0 <-> load_bytes m s1 n = load_bytes m s2 n.
Proof.
  revert s1 s2; induction n as [|n IH]; intros s1 s2; cbn [memcmp_loop load_bytes]; [done|].
  destruct (Z.eqb_spec (load8 m s1) (load8 m s2)) as [E|E]; cbn [negb].
  - rewrite IH, E. split; [by intros ->|congruence].
  - split; [lia|congruence].
Qed.

Lemma strncmp_loop_zero n p q m :
  strncmp_loop n p q m = 0 <-> cstr m p n = cstr m q n.
Proof.
  revert p q; induction n as [|n IH]; intros p q; cbn [strncmp_loop cstr]; [done|].
  destruct (Z.eqb_spec (load8 m p) 0) as [Ep|Ep]; cbn [negb andb].
  - rewrite Ep. destruct (Z.eqb_spec (load8 m q) 0) as [Eq|Eq]; [by rewrite Eq|].
    split; [lia|done].
  - destruct (Z.eqb_spec (load8 m p) (load8 m q)) as [E|E].
    + rewrite IH. rewrite <-E. rewrite (proj2 (Z.eqb_neq _ _) Ep). split; [by intros ->|congruence].
    + split; [lia|]. destruct (load8 m q =? 0); congruence.
Qed.

(** strncmp() and memcmp() decide equality: strncmp(p, q, n) is 0 exactly
    when the strings at [p] and [q], cut at [n] characters, are the same, and
    memcmp is 0 exactly when the two byte ranges are equal. *)
Theorem compare_zero p q n m :
  (strncmp p q n m = 0 <-> cstr m p (Z.to_nat n) = cstr m q (Z.to_nat n)) /\
  (memcmp p q n m = 0 <-> load_bytes m p (Z.to_nat n) = load_bytes m q (Z.to_nat n)).
Proof. split; [apply strncmp_loop_zero|apply memcmp_loop_zero]. Qed.

(** ** strncpy, safestrcpy and strlen *)

Lemma load8_zero_fill n s m x :
  load8 (zero_fill n s m) x =
    if decide (s <= x < s + Z.of_nat n) then 0 else load8 m x.
Proof.
  revert s m; induction n as [|n IH]; intros s m; cbn [zero_fill].
  - by rewrite decide_False by lia.
  - rewrite IH, load8_store8. repeat case_decide; lia || done.
Qed.

(** A name padded with NULs to [n] bytes. *)
Definition padded (n : nat) (name : list Z) : list Z :=
  take n (name ++ replicate n 0).

Lemma zero_fill_bytes n s m : load_bytes (zero_fill n s m) s n = replicate n 0.
Proof.
  apply list_eq_same_length with n; [apply length_replicate|apply length_load_bytes|].
  intros i x y Hi. rewrite load_bytes_lookup, lookup_replicate_2 by done.
  rewrite load8_zero_fill, decide_True by lia. congruence.
Qed.

Lemma strncpy_loop_outside n s t m : same_outside s (Z.of_nat n) m (strncpy_loop n s t m).
Proof.
  revert s t m; induction n as [|n IH]; intros s t m; cbn [strncpy_loop]; [done|].
  transitivity (store8 m s (load8 m t)).
  { eapply same_outside_weaken; [apply store8_outside|lia..]. }
  case_match.
  - eapply same_outside_weaken; [apply IH|lia..].
  - intros x Hx. rewrite load8_zero_fill. by rewrite decide_False by lia.
Qed.

Lemma strncpy_loop_bytes n s t m :
  s + Z.of_nat n <= t \/ t + Z.of_nat n <= s ->
  load_bytes (strncpy_loop n s t m) s n = padded n (cstr m t n).
Proof.
  unfold padded.
  revert s t m; induction n as [|n IH]; intros s t m Hd; cbn [strncpy_loop load_bytes cstr]; [done|].
  destruct (Z.eqb_spec (load8 m t) 0) as [E|E]; cbn [negb].
  - rewrite load8_zero_fill, decide_False, load8_store8_eq, E by lia.
    cbn [app replicate take]. f_equal. rewrite zero_fill_bytes.
    rewrite take_ge; [done|by rewrite length_replicate].
  - rewrite (strncpy_loop_outside _ _ _ _ s) by lia.
    rewrite load8_store8_eq, u8_small by apply load8_byte. cbn [app take]. f_equal.
    rewrite IH by lia. rewrite (cstr_ext (store8 m s (load8 m t)) m).
    + replace (replicate (S n) 0) with (replicate n 0 ++ [0]) by
        (change [0] with (replicate 1 0); rewrite <-replicate_add; f_equal; lia).
      rewrite app_assoc, (take_app_le (_ ++ _) [0]); [done|].
      rewrite length_app, length_replicate. lia.
    + intros x Hx. rewrite load8_store8_ne; [done|lia].
Qed.

(** strncpy() of a directory-entry name: when source and destination do
    not overlap, the [n] bytes written are the characters of the string at
    [t] (cut at [n]) followed by NULs, and nothing else is written. *)
Theorem strncpy_correct s t n m :
  0 <= n -> s + n <= t \/ t + n <= s ->
  load_bytes (strncpy s t n m) s (Z.to_nat n) = padded (Z.to_nat n) (cstr m t (Z.to_nat n)) /\
  same_outside s n m (strncpy s t n m).
Proof.
  intros Hn Hd. unfold strncpy. split.
  - apply strncpy_loop_bytes. rewrite Z2Nat.id; lia.
  - eapply same_outside_weaken; [apply strncpy_loop_outside|lia..].
Qed.

Lemma strncpy_correct_witness :
  let m := store_bytes ∅ 100 [97; 98; 0; 99] in
  load_bytes (strncpy 200 100 6 m) 200 6 = [97; 98; 0; 0; 0; 0].
Proof.
  intros m. destruct (strncpy_correct 200 100 6 m) as [H _]; [lia..|].
  change 6%nat with (Z.to_nat 6). rewrite H. reflexivity.
Defined.

Lemma safestrcpy_loop_spec n s t m :
  s + Z.of_nat n < t \/ t + Z.of_nat n <= s ->
  let '(m', e) := safestrcpy_loop n s t m in
  s <= e <= s + Z.of_nat n /\ same_outside s (Z.of_nat n) m m' /\
  cstr (store8 m' e 0) s (S n) = cstr m t n.
Proof.
  revert s t m; induction n as [|n IH]; intros s t m Hd; cbn [safestrcpy_loop].
  { split; [lia|]. split; [done|]. cbn. by rewrite load8_store8_eq. }
  destruct (Z.eqb_spec (load8 m t) 0) as [E|E]; cbn [negb].
  - split; [lia|]. split.
    + eapply same_outside_weaken; [apply store8_outside|lia..].
    + cbn [cstr]. rewrite load8_store8_ne by lia. rewrite load8_store8_eq, E. done.
  - specialize (IH (s + 1) (t + 1) (store8 m s (load8 m t))).
    destruct (safestrcpy_loop n (s + 1) (t + 1) (store8 m s (load8 m t))) as [m' e].
    destruct IH as (He & Ho & Hc); [lia|]. split; [lia|]. split.
    + transitivity (store8 m s (load8 m t)).
      * eapply same_outside_weaken; [apply store8_outside|lia..].
      * eapply same_outside_weaken; [apply Ho|lia..].
    + change (cstr (store8 m' e 0) s (S (S n))) with
        (if load8 (store8 m' e 0) s =? 0 then []
         else load8 (store8 m' e 0) s :: cstr (store8 m' e 0) (s + 1) (S n)).
      assert (Hs : load8 (store8 m' e 0) s = load8 m t).
      { rewrite load8_store8_ne by lia. rewrite (Ho s) by lia.
        by rewrite load8_store8_eq, u8_small by apply load8_byte. }
      rewrite Hs, (proj2 (Z.eqb_neq _ _) E), Hc. cbn [cstr].
      rewrite (proj2 (Z.eqb_neq _ _) E). f_equal. apply cstr_ext.
      intros x Hx. apply load8_store8_ne. lia.
Qed.

(** safestrcpy() always NUL-terminates inside its buffer: with room for
    [n > 0] bytes at [s], the destination ends up holding the first [n - 1]
    characters of the source string as a C string of at most [n] bytes, and
    nothing outside the buffer is written. *)
Theorem safestrcpy_terminates s t n m :
  0 < n -> s + n <= t \/ t + n <= s ->
  cstr (safestrcpy s t n m) s (Z.to_nat n) = cstr m t (Z.to_nat (n - 1)) /\
  same_outside s n m (safestrcpy s t n m).
Proof.
  intros Hn Hd. unfold safestrcpy. rewrite (proj2 (Z.leb_gt _ _)) by lia.
  pose proof (safestrcpy_loop_spec (Z.to_nat (n - 1)) s t m) as H.
  destruct (safestrcpy_loop (Z.to_nat (n - 1)) s t m) as [m' e].
  destruct H as (He & Ho & Hc); [lia|]. split.
  - rewrite <-Hc. f_equal. lia.
  - transitivity m'; [eapply same_outside_weaken; [apply Ho|lia..]|].
    eapply same_outside_weaken; [apply store8_outside|lia..].
Qed.

Lemma safestrcpy_terminates_witness :
  let m := store_bytes ∅ 100 [105; 110; 105; 116; 99; 111; 100; 101; 0] in
  cstr (safestrcpy 200 100 5 m) 200 5 = [105; 110; 105; 116].
Proof.
  intros m. destruct (safestrcpy_terminates 200 100 5 m) as [H _]; [lia..|].
  change 5%nat with (Z.to_nat 5). rewrite H. reflexivity.
Defined.

Lemma strlen_loop_spec fuel n s m k :
  (0 <= k < Z.of_nat fuel) -> load8 m (s + n + k) = 0 ->
  (forall j, 0 <= j < k -> load8 m (s + n + j) <> 0) ->
  strlen_loop fuel n s m = Some (n + k).
Proof.
  revert n k; induction fuel as [|fuel IH]; intros n k Hk H0 Hne; [lia|].
  cbn [strlen_loop]. destruct (Z.eqb_spec (load8 m (s + n)) 0) as [E|E].
  - destruct (decide (k = 0)) as [->|]; [f_equal; lia|].
    exfalso. apply (Hne 0); [lia|]. by rewrite Z.add_0_r.
  - destruct (decide (k = 0)) as [->|]; [by rewrite Z.add_0_r in H0|].
    rewrite (IH (n + 1) (k - 1)); [f_equal; lia|lia|..].
    + rewrite <-H0. f_equal. lia.
    + intros j Hj. replace (s + (n + 1) + j) with (s + n + (j + 1)) by lia. apply Hne. lia.
Qed.
