(* ===== verification/Riscv.v ===== *)
(** * Machine constants (kernel/riscv.h, kernel/memlayout.h, kernel/param.h)

    Page geometry, page-table-entry macros and the memory layout, with the
    arithmetic reading of the bit-level macros. *)

From S2P Require Import Prelude.

Definition PGSIZE : Z := 4096.
Definition PGSHIFT : Z := 12.

Definition PGROUNDUP (sz : Z) : Z := Z.land (u64 (sz + PGSIZE - 1)) (Z.lnot (PGSIZE - 1)).
Definition PGROUNDDOWN (a : Z) : Z := Z.land a (Z.lnot (PGSIZE - 1)).

Definition PTE_V : Z := Z.shiftl 1 0.
Definition PTE_R : Z := Z.shiftl 1 1.
Definition PTE_W : Z := Z.shiftl 1 2.
Definition PTE_X : Z := Z.shiftl 1 3.
Definition PTE_U : Z := Z.shiftl 1 4.

Definition PA2PTE (pa : Z) : Z := u64 (Z.shiftl (Z.shiftr pa 12) 10).
Definition PTE2PA (pte : Z) : Z := u64 (Z.shiftl (Z.shiftr pte 10) 12).
Definition PTE_FLAGS (pte : Z) : Z := Z.land pte 0x3FF.

Definition PXMASK : Z := 0x1FF.
Definition PXSHIFT (level : Z) : Z := PGSHIFT + 9 * level.
Definition PX (level va : Z) : Z := Z.land (Z.shiftr va (PXSHIFT level)) PXMASK.

Definition MAXVA : Z := Z.shiftl 1 (9 + 9 + 9 + 12 - 1).

Definition SATP_SV39 : Z := Z.shiftl 8 60.
Definition MAKE_SATP (pagetable : Z) : Z := Z.lor SATP_SV39 (Z.shiftr pagetable 12).

Definition GOLDFISH : Z := 0x101000.
Definition UART0 : Z := 0x10000000.
Definition UART0_IRQ : Z := 10.
Definition VIRTIO0 : Z := 0x10001000.
Definition VIRTIO0_IRQ : Z := 1.
Definition PLIC : Z := 0x0c000000.
Definition KERNBASE : Z := 0x80000000.
Definition PHYSTOP : Z := KERNBASE + 128 * 1024 * 1024.
Definition TRAMPOLINE : Z := MAXVA - PGSIZE.
Definition KSTACK (p : Z) : Z := TRAMPOLINE - (p + 1) * 2 * PGSIZE.
Definition TRAPFRAME : Z := TRAMPOLINE - PGSIZE.

Definition NPROC : Z := 64.
Definition NOFILE : Z := 16.
Definition NFILE : Z := 100.
Definition NINODE : Z := 50.
Definition NDEV : Z := 10.
Definition ROOTDEV : Z := 1.
Definition MAXARG : Z := 32.
Definition MAXOPBLOCKS : Z := 10.
Definition LOGSIZE : Z := MAXOPBLOCKS * 3.
Definition NBUF : Z := MAXOPBLOCKS * 3.
Definition FSSIZE : Z := 2000.
Definition MAXPATH : Z := 128.

(** ** Arithmetic reading of the macros *)

Lemma land_page_mask a : Z.land a (Z.lnot (PGSIZE - 1)) = a / PGSIZE * PGSIZE.
Proof.
  change (PGSIZE - 1) with (Z.ones 12). rewrite <-Z.ldiff_land, Z.ldiff_ones_r by lia.
  by rewrite Z.shiftl_mul_pow2, Z.shiftr_div_pow2 by lia.
Qed.

Lemma PGROUNDDOWN_eq a : PGROUNDDOWN a = a / PGSIZE * PGSIZE.
Proof. apply land_page_mask. Qed.

Lemma PGROUNDUP_eq sz :
  0 <= sz < 2 ^ 64 - PGSIZE -> PGROUNDUP sz = (sz + 4095) / PGSIZE * PGSIZE.
Proof.
  intros. unfold PGROUNDUP, PGSIZE in *. rewrite u64_small by lia.
  change 4096 with PGSIZE. rewrite land_page_mask. f_equal. f_equal. unfold PGSIZE. lia.
Qed.

Definition page_aligned (a : Z) : Prop := a mod PGSIZE = 0.
#[global] Instance page_aligned_dec a : Decision (page_aligned a).
Proof. unfold page_aligned. apply _. Defined.

Lemma PGROUNDDOWN_aligned a : page_aligned (PGROUNDDOWN a).
Proof. rewrite PGROUNDDOWN_eq. unfold page_aligned, PGSIZE. apply Z.mod_mul. lia. Qed.

Lemma PGROUNDUP_spec sz :
  0 <= sz < 2 ^ 64 - PGSIZE ->
  page_aligned (PGROUNDUP sz) /\ sz <= PGROUNDUP sz < sz + PGSIZE.
Proof.
  intros H. rewrite PGROUNDUP_eq by done. unfold page_aligned, PGSIZE in *.
  split; [apply Z.mod_mul; lia|].
  pose proof (Z.div_mod (sz + 4095) 4096). pose proof (Z.mod_pos_bound (sz + 4095) 4096). lia.
Qed.

Lemma PGROUNDDOWN_spec a : PGROUNDDOWN a <= a < PGROUNDDOWN a + PGSIZE.
Proof.
  rewrite PGROUNDDOWN_eq. unfold PGSIZE.
  pose proof (Z.div_mod a 4096). pose proof (Z.mod_pos_bound a 4096). lia.
Qed.

Lemma PGROUNDDOWN_id a : page_aligned a -> PGROUNDDOWN a = a.
Proof.
  intros H. rewrite PGROUNDDOWN_eq. unfold page_aligned, PGSIZE in *.
  pose proof (Z.div_mod a 4096). lia.
Qed.

Lemma PX_eq level va :
  0 <= level -> PX level va = va / 2 ^ (12 + 9 * level) mod 512.
Proof.
  intros. unfold PX, PXSHIFT, PGSHIFT. change PXMASK with (Z.ones 9).
  rewrite Z.land_ones, Z.shiftr_div_pow2 by lia. done.
Qed.

Lemma PX_range level va : 0 <= level -> 0 <= PX level va < 512.
Proof. intros. rewrite PX_eq by done. apply Z.mod_pos_bound. lia. Qed.

(** The three indices determine the page. *)
Lemma PX_inj va va' :
  0 <= va < MAXVA -> 0 <= va' < MAXVA ->
  PX 2 va = PX 2 va' -> PX 1 va = PX 1 va' -> PX 0 va = PX 0 va' ->
  PGROUNDDOWN va = PGROUNDDOWN va'.
Proof.
  intros Hv Hv'. rewrite !PX_eq, !PGROUNDDOWN_eq by lia.
  change MAXVA with 274877906944 in *. unfold PGSIZE.
  change (2 ^ (12 + 9 * 0)) with 4096. change (2 ^ (12 + 9 * 1)) with (4096 * 512).
  change (2 ^ (12 + 9 * 2)) with (4096 * 512 * 512).
  rewrite <-!Z.div_div by lia.
  assert (0 <= va / 4096 < 512 * 512 * 256) by (split; [apply Z.div_pos; lia|apply Z.div_lt_upper_bound; lia]).
  assert (0 <= va' / 4096 < 512 * 512 * 256) by (split; [apply Z.div_pos; lia|apply Z.div_lt_upper_bound; lia]).
  generalize dependent (va / 4096); generalize dependent (va' / 4096).
  intros x Hx y Hy. rewrite (Z.mod_small (y / 512 / 512)), (Z.mod_small (x / 512 / 512)).
  - intros H2 H1 H0. f_equal.
    rewrite (Z.div_mod y 512), (Z.div_mod x 512), H0 by lia.
    rewrite (Z.div_mod (y / 512) 512), (Z.div_mod (x / 512) 512), H1, H2 by lia. done.
  - split; [apply Z.div_pos; [apply Z.div_pos|]; lia|].
    apply Z.div_lt_upper_bound; [lia|]. apply Z.div_lt_upper_bound; lia.
  - split; [apply Z.div_pos; [apply Z.div_pos|]; lia|].
    apply Z.div_lt_upper_bound; [lia|]. apply Z.div_lt_upper_bound; lia.
Qed.

(** A page-aligned physical address that a PTE can hold. *)
Definition pa_ok (pa : Z) : Prop := page_aligned pa /\ 0 <= pa < 2 ^ 56.

Lemma PA2PTE_eq pa : pa_ok pa -> PA2PTE pa = pa / 4.
Proof.
  intros [Ha Hb]. unfold PA2PTE, page_aligned, PGSIZE in *.
  rewrite Z.shiftl_mul_pow2, Z.shiftr_div_pow2 by lia.
  change (2 ^ 12) with 4096. change (2 ^ 10) with 1024.
  assert (pa = 4096 * (pa / 4096)) as E by (pose proof (Z.div_mod pa 4096); lia).
  rewrite u64_small by lia. rewrite E at 2.
  replace (4096 * (pa / 4096)) with (pa / 4096 * 1024 * 4) by lia. by rewrite Z.div_mul.
Qed.

(** Flags live in the low ten bits of a PTE. *)
Lemma pte_low_bits pa k : 0 <= k < 1024 -> Z.land (PA2PTE pa) k = 0.
Proof.
  intros Hk. apply Z.bits_inj'; intros n Hn; rewrite Z.land_spec, Z.bits_0.
  destruct (Z.ltb_spec n 10).
  - unfold PA2PTE, u64. rewrite Z.mod_pow2_bits_low by lia.
    by rewrite Z.shiftl_spec_low by lia.
  - rewrite (Z.bits_above_log2 k n); [by rewrite andb_false_r|lia|].
    destruct (decide (k = 0)) as [->|]; [simpl; lia|].
    apply Z.lt_le_trans with 10; [apply Z.log2_lt_pow2; lia|lia].
Qed.

Lemma pte_flags_disjoint pa fl :
  0 <= fl < 1024 -> Z.lor (PA2PTE pa) fl = PA2PTE pa + fl.
Proof.
  intros Hf. pose proof (pte_low_bits pa fl Hf) as H.
  by rewrite Z.add_nocarry_lxor, Z.lxor_lor.
Qed.

Lemma PTE2PA_pte pa fl :
  pa_ok pa -> 0 <= fl < 1024 -> PTE2PA (Z.lor (PA2PTE pa) fl) = pa.
Proof.
  intros Hp Hf. rewrite pte_flags_disjoint, PA2PTE_eq by done.
  destruct Hp as [Ha Hb]. unfold PTE2PA, page_aligned, PGSIZE in *.
  rewrite Z.shiftl_mul_pow2, Z.shiftr_div_pow2 by lia.
  change (2 ^ 10) with 1024. change (2 ^ 12) with 4096.
  assert ((pa / 4 + fl) / 1024 * 4096 = pa) as ->.
  { assert (pa / 4 = pa / 4096 * 1024) as -> by
      (pose proof (Z.div_mod pa 4096); pose proof (Z.div_mod pa 4);
       pose proof (Z.mod_pos_bound pa 4); lia).
    rewrite Z.add_comm, Z.div_add, Z.div_small by lia. pose proof (Z.div_mod pa 4096). lia. }
  apply u64_small. lia.
Qed.

Lemma pte_flags_read pa fl k :
  0 <= k < 1024 -> Z.land (Z.lor (PA2PTE pa) fl) k = Z.land fl k.
Proof.
  intros Hk. rewrite Z.land_lor_distr_l.
  by rewrite pte_low_bits, Z.lor_0_l.
Qed.

(** Linear arithmetic with the page size known. *)
Ltac pg_lia := unfold PGSIZE in *; lia.
