(* ===== verification/Kalloc.v ===== *)
(** * The physical page allocator (kernel/kalloc.c)

    The free list is threaded through the free pages themselves: the first
    eight bytes of a free page hold the address of the next one.  [kmem_ok]
    says that this chain, read from memory, is a list of distinct pages of
    [\[end, PHYSTOP)]; every routine is specified by its effect on that list.
    [Client] is the allocator seen from its users: any sequence of kalloc(),
    kfree() and writes into allocated pages. *)

From S2P Require Import Prelude Spinlock Mem CStringFacts Riscv.
Import CString.

(** struct kmem, with the RAM its pages live in. *)
Record kmem := mkKmem { kmem_lock : spinlock; freelist : Z; ram : mem }.

Definition kmem_lock_lens : lens kmem spinlock :=
  Lens kmem_lock (fun l s => mkKmem l (freelist s) (ram s)).
Definition set_freelist (v : Z) : M kmem unit :=
  modify (fun s => mkKmem (kmem_lock s) v (ram s)).
Definition set_ram (f : mem -> mem) : M kmem unit :=
  modify (fun s => mkKmem (kmem_lock s) (freelist s) (f (ram s))).

Section Kalloc.
(** [kend] is the linker symbol [end], the first address after the kernel;
    [me] is the CPU that runs. *)
Variable kend : Z.
Variable me : Z.

(** kfree(): the page is filled with 1s, linked in front of the free list. *)
Definition kfree (pa : Z) : M kmem unit :=
  if negb (pa mod PGSIZE =? 0) || (pa <? kend) || (PHYSTOP <=? pa) then panic "kfree"
  else
    set_ram (memset pa 1 PGSIZE) ;;
    acquire_at me kmem_lock_lens ;;
    let! next := gets freelist in
    set_ram (fun m => store64 m pa next) ;;
    set_freelist pa ;;
    release_at me kmem_lock_lens.

Definition kalloc : M kmem Z :=
  acquire_at me kmem_lock_lens ;;
  let! r := gets freelist in
  when (negb (r =? 0))
    (let! next := gets (fun s => load64 (ram s) r) in set_freelist next) ;;
  release_at me kmem_lock_lens ;;
  when (negb (r =? 0)) (set_ram (memset r 5 PGSIZE)) ;;
  ret r.

(** [for(; p + PGSIZE <= pa_end; p += PGSIZE) kfree(p);] *)
Definition freerange_body (pa_end p : Z) : M kmem (Z + unit) :=
  if p + PGSIZE <=? pa_end then kfree p ;; ret (inl (u64 (p + PGSIZE))) else ret (inr tt).
Definition freerange (pa_start pa_end : Z) : M kmem unit :=
  loop (Z.to_nat (pa_end / PGSIZE) + 1) (freerange_body pa_end) (PGROUNDUP pa_start).

Definition kinit : M kmem unit :=
  modify (fun s => mkKmem (initlock "kmem") (freelist s) (ram s)) ;;
  freerange kend PHYSTOP.

(** ** The free list in memory *)

Inductive chain (m : mem) : Z -> list Z -> Prop :=
| chain_nil : chain m 0 []
| chain_cons p ps : p <> 0 -> chain m (load64 m p) ps -> chain m p (p :: ps).

Definition page_ok (p : Z) : Prop := page_aligned p /\ kend <= p /\ p < PHYSTOP.

Record kmem_ok (s : kmem) (pages : list Z) : Prop := {
  ok_lock : lock_free (kmem_lock s);
  ok_chain : chain (ram s) (freelist s) pages;
  ok_nodup : NoDup pages;
  ok_pages : Forall page_ok pages
}.

Lemma chain_frame m m' p ps :
  (forall q, q ∈ ps -> load64 m' q = load64 m q) -> chain m p ps -> chain m' p ps.
Proof.
  intros Hq Hc; induction Hc as [|p ps Hp Hc IH]; [constructor|].
  constructor; [done|]. rewrite Hq by set_solver. apply IH. intros q ?; apply Hq; set_solver.
Qed.

Lemma page_apart p q :
  page_aligned p -> page_aligned q -> p <> q -> p + PGSIZE <= q \/ q + PGSIZE <= p.
Proof.
  unfold page_aligned, PGSIZE. intros Hp Hq Hne.
  pose proof (Z.div_mod p 4096). pose proof (Z.div_mod q 4096). lia.
Qed.

(** Writes confined to one page leave a chain of other pages alone. *)
Lemma chain_same_outside m m' pa p ps :
  same_outside pa PGSIZE m m' -> page_aligned pa -> pa ∉ ps -> Forall page_ok ps ->
  chain m p ps -> chain m' p ps.
Proof.
  intros Ho Ha Hn Hf. apply chain_frame. intros q Hq.
  assert (page_aligned q) by (rewrite Forall_forall in Hf; by apply (Hf q), list_elem_of_In).
  apply (same_outside_load64 pa PGSIZE); [done|].
  destruct (page_apart pa q) as [|]; try done; [by intros ->|right; done|left; pg_lia].
Qed.

Hypothesis kend_pos : 0 < kend.

(** ** kfree and kalloc *)

Lemma wp_kfree s pages pa :
  kmem_ok s pages -> page_ok pa -> pa ∉ pages ->
  wp (kfree pa) s (fun _ s' =>
    kmem_ok s' (pa :: pages) /\ same_outside pa PGSIZE (ram s) (ram s')).
Proof.
  intros [Hl Hc Hn Hp] (Ha & Hlo & Hhi) Hni. unfold kfree.
  rewrite (proj2 (Z.eqb_eq _ _) Ha), (proj2 (Z.ltb_ge _ _) Hlo), (proj2 (Z.leb_gt _ _) Hhi).
  cbn [negb orb]. unfold set_ram, set_freelist. do 2 wp_step. cbn beta. wp_step.
  apply wp_acquire_at; [done|]. do 2 wp_step. do 2 wp_step. wp_step. wp_step.
  eapply (wp_release_at _ _ _ (kmem_lock s)); [done|done|]. cbn.
  assert (Ho : same_outside pa PGSIZE (ram s) (store64 (memset pa 1 PGSIZE (ram s)) pa (freelist s))).
  { transitivity (memset pa 1 PGSIZE (ram s)); [apply memset_outside; pg_lia|].
    eapply same_outside_weaken; [apply store64_outside|lia|pg_lia]. }
  split; [|done]. split; cbn; [done| |by constructor|by constructor].
  constructor; [lia|]. rewrite load64_store64_eq.
  assert (Hf : u64 (freelist s) = freelist s).
  { inversion Hc as [|p ps Hp0 Hc']; subst; [done|]. apply Forall_inv in Hp as (_ & ? & ?).
    apply u64_small. unfold PHYSTOP, KERNBASE in *. lia. }
  rewrite Hf. by apply (chain_same_outside (ram s) _ pa).
Qed.

Lemma wp_kalloc s pages :
  kmem_ok s pages ->
  wp kalloc s (fun r s' =>
    match pages with
    | [] => r = 0 /\ s' = s
    | p :: ps => r = p /\ kmem_ok s' ps /\ same_outside p PGSIZE (ram s) (ram s') /\
        (forall x, p <= x < p + PGSIZE -> load8 (ram s') x = 5)
    end).
Proof.
  intros [Hl Hc Hn Hp]. destruct s as [lk fl m]; cbn in *.
  unfold kalloc, set_freelist, set_ram.
  wp_step. apply wp_acquire_at; [done|]. do 2 wp_step. wp_step. cbn.
  destruct Hc as [|p ps Hp0 Hc].
  - cbn. wp_step. wp_step. eapply (wp_release_at _ _ _ lk); [done|done|].
    wp_step. wp_step. by wp_step.
  - assert (E : negb (p =? 0) = true) by (by apply negb_true_iff, Z.eqb_neq). rewrite E.
    do 4 wp_step. wp_step. cbn. eapply (wp_release_at _ _ _ lk); [done|done|].
    do 3 wp_step. wp_step. cbn.
    apply list.NoDup_cons in Hn as [Hni Hn]. apply list.Forall_cons in Hp as [Hp Hps].
    assert (Ho : same_outside p PGSIZE m (memset p 5 PGSIZE m))
      by (apply memset_outside; pg_lia).
    repeat split; try done; try apply Hl.
    + cbn. apply (chain_same_outside m _ p); try done. apply Hp.
    + intros x Hx. rewrite load8_memset, decide_True by pg_lia. done.
Qed.

Lemma kfree_panics pa s : ~ page_ok pa -> kfree pa s = Panic "kfree".
Proof.
  intros Hb. unfold kfree. case_match eqn:E; [done|]. exfalso. apply Hb. bool_simpl.
  split; [|split]; [|done..]. done.
Qed.

(** ** Initialisation *)

(** The pages [p0], [p0 + PGSIZE], ..., last first: the order in which
    freerange leaves them on the free list. *)
Fixpoint pages_down (p0 : Z) (k : nat) : list Z :=
  match k with
  | O => []
  | S k => p0 + Z.of_nat k * PGSIZE :: pages_down p0 k
  end.

Lemma elem_pages_down p0 k p :
  p ∈ pages_down p0 k <-> exists i, (i < k)%nat /\ p = p0 + Z.of_nat i * PGSIZE.
Proof.
  induction k as [|k IH]; cbn [pages_down]; [split; [set_solver|naive_solver lia]|].
  rewrite elem_of_cons, IH. split.
  - intros [->|(i & ? & ->)]; eauto with lia.
  - intros (i & Hi & ->). destruct (decide (i = k)) as [->|]; [by left|right].
    exists i. split; [lia|done].
Qed.

Lemma wp_freerange s pa_end :
  kmem_ok s [] -> kend <= PHYSTOP -> 0 <= pa_end <= PHYSTOP ->
  wp (freerange kend pa_end) s (fun _ s' => exists pages,
    kmem_ok s' pages /\
    forall p, p ∈ pages <-> page_aligned p /\ kend <= p /\ p + PGSIZE <= pa_end).
Proof.
  intros Hok Hle Hend. unfold freerange.
  assert (Hb : kend < 2 ^ 64 - PGSIZE) by (unfold PHYSTOP, KERNBASE, PGSIZE in *; lia).
  destruct (PGROUNDUP_spec kend) as [Hal Hrd]; [lia|]. set (p0 := PGROUNDUP kend) in *.
  eapply (wp_loop (fun p s => exists k, p = p0 + Z.of_nat k * PGSIZE /\
            kmem_ok s (pages_down p0 k) /\ (k <> O -> p <= pa_end))
          (fun p => Z.to_nat ((pa_end - p) / PGSIZE + 1))).
  - intros p s' (k & -> & Hk & Hke). unfold freerange_body. wp_step; bool_simpl.
    + assert (Hpg : page_ok (p0 + Z.of_nat k * PGSIZE)).
      { unfold page_ok, page_aligned, PGSIZE, PHYSTOP, KERNBASE in *.
        rewrite Z.mod_add by lia. repeat split; lia. }
      wp_step. eapply wp_mono; [apply wp_kfree; [done|done|]|].
      { rewrite elem_pages_down. intros (i & ? & ?). pg_lia. }
      intros _ s1 [Hk1 _]. cbn beta. wp_step. split.
      * exists (S k). repeat split; try apply Hk1; cbn [pages_down].
        -- rewrite u64_small; unfold PGSIZE, PHYSTOP, KERNBASE in *; lia.
        -- intros _. rewrite u64_small; unfold PGSIZE, PHYSTOP, KERNBASE in *; lia.
      * rewrite u64_small by (unfold PGSIZE, PHYSTOP, KERNBASE in *; lia).
        apply Z2Nat.inj_lt; [|
          assert (0 <= (pa_end - (p0 + Z.of_nat k * PGSIZE)) / PGSIZE) by (apply Z.div_pos; pg_lia); lia|].
        -- assert (0 <= (pa_end - (p0 + Z.of_nat k * PGSIZE + PGSIZE)) / PGSIZE) by (apply Z.div_pos; pg_lia). lia.
        -- replace (pa_end - (p0 + Z.of_nat k * PGSIZE + PGSIZE))
             with (pa_end - (p0 + Z.of_nat k * PGSIZE) + -1 * PGSIZE) by lia.
           rewrite Z.div_add by pg_lia. lia.
    + wp_step. exists (pages_down p0 k). split; [done|]. intros p. rewrite elem_pages_down. split.
      * intros (i & Hi & ->). unfold page_aligned, PGSIZE in *. rewrite Z.mod_add by lia. lia.
      * intros (Ha & Hlo & Hhi). exists (Z.to_nat ((p - p0) / PGSIZE)).
        unfold page_aligned, PGSIZE in *.
        pose proof (Z.div_mod p 4096). pose proof (Z.div_mod p0 4096).
        assert (p - p0 = (p / 4096 - p0 / 4096) * 4096) as E by lia.
        rewrite E, Z.div_mul by lia. lia.
  - exists O. rewrite Z.mul_0_l, Z.add_0_r. repeat split; try apply Hok; done.
  - assert (PGSIZE <= p0) by
      (unfold page_aligned, PGSIZE in *; pose proof (Z.div_mod p0 4096); lia).
    assert ((pa_end - p0) / PGSIZE <= (pa_end + -1 * PGSIZE) / PGSIZE) as Hd
      by (apply Z.div_le_mono; pg_lia).
    rewrite Z.div_add in Hd by pg_lia.
    assert (0 <= pa_end / PGSIZE) by (apply Z.div_pos; pg_lia). lia.
Qed.

Lemma wp_kinit s :
  kend <= PHYSTOP -> freelist s = 0 ->
  wp kinit s (fun _ s' => exists pages,
    kmem_ok s' pages /\ forall p, p ∈ pages <-> page_ok p).
Proof.
  intros Hle Hf. unfold kinit. do 2 wp_step. cbn beta. eapply wp_mono.
  - apply wp_freerange; [|done|unfold PHYSTOP, KERNBASE; lia].
    split; cbn; [done|rewrite Hf; constructor|constructor|done].
  - intros _ s' (pages & Hok & Hin). exists pages. split; [done|]. intros p. rewrite Hin.
    unfold page_ok, page_aligned. split; intros (? & ? & ?); repeat split; try done.
    + pg_lia.
    + unfold PHYSTOP, KERNBASE, PGSIZE in *. pose proof (Z.div_mod p 4096). lia.
Qed.

(** kinit() puts every physical page between the end of the kernel and
    PHYSTOP on the free list, each exactly once, and terminates. *)
Theorem kinit_all_pages s :
  kend <= PHYSTOP -> freelist s = 0 ->
  wp kinit s (fun _ s' => exists pages,
    kmem_ok s' pages /\ forall p, p ∈ pages <-> page_ok p).
Proof. exact (wp_kinit s). Qed.

(** ** The allocator's clients *)

(** What a client can do: allocate; write into a page it holds; free a page
    it holds. [A] is the set of pages handed out. *)
Inductive client_step : kmem * gset Z -> kmem * gset Z -> Prop :=
| client_alloc s A r s' : kalloc s = Ok r s' ->
    client_step (s, A) (s', if decide (r = 0) then A else {[r]} ∪ A)
| client_write s A p x v : p ∈ A -> p <= x < p + PGSIZE ->
    client_step (s, A) (mkKmem (kmem_lock s) (freelist s) (store8 (ram s) x v), A)
| client_free s A p s' : p ∈ A -> kfree p s = Ok tt s' ->
    client_step (s, A) (s', A ∖ {[p]}).

Definition client_inv (all : gset Z) (st : kmem * gset Z) : Prop :=
  exists pages, kmem_ok (fst st) pages /\ list_to_set pages ## st.2 /\
    list_to_set pages ∪ st.2 = all /\ (forall p, p ∈ st.2 -> page_ok p).

Lemma client_step_inv all st st' :
  client_step st st' -> client_inv all st -> client_inv all st'.
Proof.
  intros Hs (pages & Hok & Hd & Hu & HA). destruct Hs as [s A r s' E|s A p x v Hp Hx|s A p s' Hp E]; cbn in *.
  - pose proof (wp_kalloc s pages Hok) as W. unfold wp in W. rewrite E in W.
    destruct pages as [|p ps].
    + destruct W as [-> ->]. rewrite decide_True by done. by exists [].
    + destruct W as (-> & Hok' & _). pose proof (ok_pages _ _ Hok) as Hpg.
      pose proof (ok_nodup _ _ Hok) as Hn. apply list.NoDup_cons in Hn as [Hni Hn].
      apply list.Forall_cons in Hpg as [Hpg _].
      rewrite decide_False by (destruct Hpg as (_ & ? & _); lia).
      exists ps. cbn. split_and!; [done|set_solver..].
  - exists pages. cbn. split_and!; try done. split; cbn; try apply Hok.
    apply (chain_same_outside (ram s) _ p); try apply Hok.
    + eapply same_outside_weaken; [apply store8_outside|lia..].
    + by apply HA.
    + intros Hin. apply (Hd p); [|done]. by apply elem_of_list_to_set.
  - assert (Hni : p ∉ pages) by (intros Hin; apply (Hd p); [by apply elem_of_list_to_set|done]).
    pose proof (wp_kfree s pages p Hok (HA p Hp) Hni) as W. unfold wp in W. rewrite E in W.
    destruct W as [Hok' _]. exists (p :: pages). cbn. split_and!; [done|set_solver| |set_solver].
    rewrite <-Hu. apply set_eq. intros y. destruct (decide (y = p)); set_solver.
Qed.

(** C3: the allocator never hands out a page twice.  After any sequence of
    allocations, writes into allocated pages and frees of allocated pages, a
    further kalloc() succeeds or finds the list empty, never panics, and
    returns no page a client still holds; and no page is ever lost: free and
    held pages together are always the initial ones. *)
Theorem kalloc_never_twice s0 pages0 s A :
  kmem_ok s0 pages0 -> rtc client_step (s0, ∅) (s, A) ->
  (exists pages, kmem_ok s pages /\
     (list_to_set pages : gset Z) ∪ A = list_to_set pages0 /\ list_to_set pages ## A) /\
  wp kalloc s (fun r _ => r ∉ A).
Proof.
  intros Hok Hr.
  assert (Hi : client_inv (list_to_set pages0) (s, A)).
  { assert (H : forall st st', rtc client_step st st' ->
        client_inv (list_to_set pages0) st -> client_inv (list_to_set pages0) st').
    { clear - kend_pos. induction 1; eauto using client_step_inv. }
    apply (H _ _ Hr). exists pages0. cbn. split_and!; [done|set_solver..]. }
  destruct Hi as (pages & Hok' & Hd & Hu & HA). cbn in *. split; [by eauto|].
  eapply wp_mono; [by apply wp_kalloc|]. intros r s' H.
  destruct pages as [|p ps].
  - destruct H as [-> _]. intros Hin. destruct (HA 0 Hin) as (_ & ? & _). lia.
  - destruct H as [-> _]. intros Hin. apply (Hd p); [|done]. set_solver.
Qed.

End Kalloc.

(** A machine with two free pages. *)
Definition demo_kend : Z := PHYSTOP - 2 * PGSIZE - 5.
Definition demo_kmem : kmem := mkKmem (initlock "kmem") 0 ∅.

Lemma kinit_all_pages_witness :
  wp (kinit demo_kend 0) demo_kmem (fun _ s' => exists pages,
    kmem_ok demo_kend s' pages /\ forall p, p ∈ pages <-> page_ok demo_kend p).
Proof. apply (kinit_all_pages demo_kend 0); [reflexivity|vm_compute; discriminate|reflexivity]. Defined.

(** One page of the demo machine allocated; the next kalloc() gives another. *)
Lemma kalloc_never_twice_witness :
  exists s0 s A, rtc (client_step demo_kend 0) (s0, ∅) (s, A) /\ A <> ∅ /\
    wp (kalloc 0) s (fun r _ => r ∉ A).
Proof.
  assert (Hk : 0 < demo_kend) by reflexivity.
  destruct (proj1 (wp_ok _ _ _) (wp_kinit demo_kend 0 Hk demo_kmem
    ltac:(vm_compute; discriminate) eq_refl)) as ([] & s0 & _ & pages & Hok & Hin).
  destruct (proj1 (wp_ok _ _ _) (wp_kalloc demo_kend 0 s0 pages Hok)) as (r & s & E & H).
  destruct pages as [|p ps].
  { exfalso. apply (not_elem_of_nil (PHYSTOP - PGSIZE)), Hin.
    split; [reflexivity|split; vm_compute; congruence]. }
  destruct H as (-> & _). exists s0, s, ({[p]} ∪ ∅).
  assert (Hp : p <> 0).
  { pose proof (ok_pages _ _ _ Hok) as Hf. apply list.Forall_cons in Hf as [(_ & ? & _) _]. lia. }
  assert (Hs : rtc (client_step demo_kend 0) (s0, ∅) (s, {[p]} ∪ ∅)).
  { apply rtc_once. pose proof (client_alloc demo_kend 0 s0 ∅ p s E) as Hc.
    by rewrite decide_False in Hc. }
  split; [exact Hs|]. split; [set_solver|].
  exact (proj2 (kalloc_never_twice demo_kend 0 Hk s0 (p :: ps) s _ Hok Hs)).
Defined.
