(* ===== verification/Vm.v ===== *)
(** * Page tables and user memory (kernel/vm.c)

    Page tables live in RAM, as pages of 512 little-endian 64-bit entries; a
    [pagetable_t] is the address of such a page.  Every routine of vm.c is
    translated here, on the state of the page allocator; VmFacts.v proves what
    they do to the address space a page table stands for.  proc_pagetable(),
    proc_freepagetable() and proc_mapstacks() of kernel/proc.c are here too:
    they are compositions of these routines. *)

From S2P Require Import Prelude Spinlock Mem Riscv Kalloc.
Import CString.

Section Vm.
Variable kend : Z.
Variable me : Z.
(** Linker symbols. *)
Variables etext trampoline : Z.

Notation kalloc := (kalloc me).
Notation kfree := (kfree kend me).

Definition pte_read (a : Z) : M kmem Z := gets (fun s => load64 (ram s) a).
Definition pte_write (a v : Z) : M kmem unit := set_ram (fun m => store64 m a v).

(** One iteration of walk()'s loop at [level], in table page [pagetable]; the
    loop returns the address of the PTE, or 0. *)
Definition walk_body (va : Z) (alloc : bool) (lp : Z * Z) : M kmem (Z * Z + Z) :=
  let '(level, pagetable) := lp in
  if 0 <? level then
    let pte := pagetable + 8 * PX level va in
    let! e := pte_read pte in
    if negb (Z.land e PTE_V =? 0) then ret (inl (level - 1, PTE2PA e))
    else if negb alloc then ret (inr 0)
    else
      let! p := kalloc in
      if p =? 0 then ret (inr 0)
      else
        set_ram (memset p 0 PGSIZE) ;;
        pte_write pte (Z.lor (PA2PTE p) PTE_V) ;;
        ret (inl (level - 1, p))
  else ret (inr (pagetable + 8 * PX 0 va)).

Definition walk (pagetable va : Z) (alloc : bool) : M kmem Z :=
  if MAXVA <=? va then panic "walk"
  else loop 3 (walk_body va alloc) (2, pagetable).

Definition walkaddr (pagetable va : Z) : M kmem Z :=
  if MAXVA <=? va then ret 0
  else
    let! pte := walk pagetable va false in
    if pte =? 0 then ret 0
    else
      let! e := pte_read pte in
      if Z.land e PTE_V =? 0 then ret 0
      else if Z.land e PTE_U =? 0 then ret 0
      else ret (PTE2PA e).

(** The loop of mappages(); its variables are [a] and [pa]. *)
Definition mappages_body (pagetable last perm : Z) (ap : Z * Z) : M kmem (Z * Z + Z) :=
  let '(a, pa) := ap in
  let! pte := walk pagetable a true in
  if pte =? 0 then ret (inr (-1))
  else
    let! e := pte_read pte in
    if negb (Z.land e PTE_V =? 0) then panic "mappages: remap"
    else
      pte_write pte (Z.lor (Z.lor (PA2PTE pa) perm) PTE_V) ;;
      if a =? last then ret (inr 0)
      else ret (inl (u64 (a + PGSIZE), u64 (pa + PGSIZE))).

(** The loop runs until [a == last]: that is after
    [(last - a) / PGSIZE + 1] iterations modulo the wrap of [a]. *)
Definition mappages (pagetable va size pa perm : Z) : M kmem Z :=
  if size =? 0 then panic "mappages: size"
  else
    let a := PGROUNDDOWN va in
    let last := PGROUNDDOWN (u64 (va + size - 1)) in
    loop (Z.to_nat (u64 (last - a) / PGSIZE) + 1) (mappages_body pagetable last perm) (a, pa).

Definition kvmmap (kpgtbl va pa sz perm : Z) : M kmem unit :=
  let! r := mappages kpgtbl va sz pa perm in
  if negb (r =? 0) then panic "kvmmap" else ret tt.

Definition uvmunmap_body (pagetable lim : Z) (do_free : bool) (a : Z) : M kmem (Z + unit) :=
  if a <? lim then
    let! pte := walk pagetable a false in
    if pte =? 0 then panic "uvmunmap: walk"
    else
      let! e := pte_read pte in
      if Z.land e PTE_V =? 0 then panic "uvmunmap: not mapped"
      else if PTE_FLAGS e =? PTE_V then panic "uvmunmap: not a leaf"
      else
        when do_free (kfree (PTE2PA e)) ;;
        pte_write pte 0 ;;
        ret (inl (u64 (a + PGSIZE)))
  else ret (inr tt).

Definition uvmunmap (pagetable va npages : Z) (do_free : bool) : M kmem unit :=
  if negb (va mod PGSIZE =? 0) then panic "uvmunmap: not aligned"
  else
    loop (Z.to_nat npages + 1)
      (uvmunmap_body pagetable (u64 (va + u64 (npages * PGSIZE))) do_free) va.

Definition uvmcreate : M kmem Z :=
  let! pagetable := kalloc in
  if pagetable =? 0 then ret 0
  else set_ram (memset pagetable 0 PGSIZE) ;; ret pagetable.

(** [src] is the kernel address of the initcode bytes. *)
Definition uvmfirst (pagetable src sz : Z) : M kmem unit :=
  if PGSIZE <=? sz then panic "uvmfirst: more than a page"
  else
    let! mem := kalloc in
    set_ram (memset mem 0 PGSIZE) ;;
    let! _ := mappages pagetable 0 PGSIZE mem (Z.lor (Z.lor (Z.lor PTE_W PTE_R) PTE_X) PTE_U) in
    set_ram (memmove mem src sz).

(** [npages] is an [int] in uvmdealloc(). *)
Definition uvmdealloc (pagetable oldsz newsz : Z) : M kmem Z :=
  if oldsz <=? newsz then ret oldsz
  else
    when (PGROUNDUP newsz <? PGROUNDUP oldsz)
      (let npages := i32 ((PGROUNDUP oldsz - PGROUNDUP newsz) / PGSIZE) in
       uvmunmap pagetable (PGROUNDUP newsz) npages true) ;;
    ret newsz.

Definition uvmalloc_body (pagetable oldsz newsz xperm a : Z) : M kmem (Z + Z) :=
  if a <? newsz then
    let! mem := kalloc in
    if mem =? 0 then
      let! _ := uvmdealloc pagetable a oldsz in
      ret (inr 0)
    else
      set_ram (memset mem 0 PGSIZE) ;;
      let! r := mappages pagetable a PGSIZE mem (Z.lor (Z.lor PTE_R PTE_U) xperm) in
      if negb (r =? 0) then
        kfree mem ;;
        let! _ := uvmdealloc pagetable a oldsz in
        ret (inr 0)
      else ret (inl (u64 (a + PGSIZE)))
  else ret (inr newsz).

Definition uvmalloc (pagetable oldsz newsz xperm : Z) : M kmem Z :=
  if newsz <? oldsz then ret oldsz
  else
    let oldsz := PGROUNDUP oldsz in
    loop (Z.to_nat ((newsz - oldsz) / PGSIZE + 2))
      (uvmalloc_body pagetable oldsz newsz xperm) oldsz.

(** freewalk() recurses on the levels of the table; three levels are all a
    page table has, so [depth] 3 is enough for one. *)
Fixpoint freewalk (depth : nat) (pagetable : Z) : M kmem unit :=
  match depth with
  | O => hang
  | S depth =>
      for_range 512 0 (fun i =>
        let! pte := pte_read (pagetable + 8 * i) in
        if negb (Z.land pte PTE_V =? 0) &&
           (Z.land pte (Z.lor (Z.lor PTE_R PTE_W) PTE_X) =? 0) then
          let child := PTE2PA pte in
          freewalk depth child ;;
          pte_write (pagetable + 8 * i) 0
        else if negb (Z.land pte PTE_V =? 0) then panic "freewalk: leaf"
        else ret tt) ;;
      kfree pagetable
  end.

Definition uvmfree (pagetable sz : Z) : M kmem unit :=
  when (0 <? sz) (uvmunmap pagetable 0 (PGROUNDUP sz / PGSIZE) true) ;;
  freewalk 3 pagetable.

Definition uvmcopy_body (old new sz i : Z) : M kmem (Z + Z) :=
  if i <? sz then
    let! pte := walk old i false in
    if pte =? 0 then panic "uvmcopy: pte should exist"
    else
      let! e := pte_read pte in
      if Z.land e PTE_V =? 0 then panic "uvmcopy: page not present"
      else
        let pa := PTE2PA e in
        let flags := u32 (PTE_FLAGS e) in
        let! mem := kalloc in
        if mem =? 0 then
          uvmunmap new 0 (i / PGSIZE) true ;; ret (inr (-1))
        else
          set_ram (memmove mem pa PGSIZE) ;;
          let! r := mappages new i PGSIZE mem flags in
          if negb (r =? 0) then
            kfree mem ;;
            uvmunmap new 0 (i / PGSIZE) true ;;
            ret (inr (-1))
          else ret (inl (u64 (i + PGSIZE)))
  else ret (inr 0).

Definition uvmcopy (old new sz : Z) : M kmem Z :=
  loop (Z.to_nat (sz / PGSIZE + 2)) (uvmcopy_body old new sz) 0.

Definition uvmclear (pagetable va : Z) : M kmem unit :=
  let! pte := walk pagetable va false in
  if pte =? 0 then panic "uvmclear"
  else
    let! e := pte_read pte in
    pte_write pte (Z.land e (Z.lnot PTE_U)).

(** copyout(): [dstva], [src] and [len] are the loop's variables. *)
Definition copyout_body (pagetable : Z) (v : Z * Z * Z) : M kmem (Z * Z * Z + Z) :=
  let '(dstva, src, len) := v in
  if 0 <? len then
    let va0 := PGROUNDDOWN dstva in
    let! pa0 := walkaddr pagetable va0 in
    if pa0 =? 0 then ret (inr (-1))
    else
      let n := PGSIZE - (dstva - va0) in
      let n := if len <? n then len else n in
      set_ram (memmove (pa0 + (dstva - va0)) src n) ;;
      ret (inl (u64 (va0 + PGSIZE), src + n, len - n))
  else ret (inr 0).
Definition copyout (pagetable dstva src len : Z) : M kmem Z :=
  loop (Z.to_nat (len / PGSIZE + 3)) (copyout_body pagetable) (dstva, src, len).

Definition copyin_body (pagetable : Z) (v : Z * Z * Z) : M kmem (Z * Z * Z + Z) :=
  let '(dst, srcva, len) := v in
  if 0 <? len then
    let va0 := PGROUNDDOWN srcva in
    let! pa0 := walkaddr pagetable va0 in
    if pa0 =? 0 then ret (inr (-1))
    else
      let n := PGSIZE - (srcva - va0) in
      let n := if len <? n then len else n in
      set_ram (memmove dst (pa0 + (srcva - va0)) n) ;;
      ret (inl (dst + n, u64 (va0 + PGSIZE), len - n))
  else ret (inr 0).
Definition copyin (pagetable dst srcva len : Z) : M kmem Z :=
  loop (Z.to_nat (len / PGSIZE + 3)) (copyin_body pagetable) (dst, srcva, len).

(** The inner loop of copyinstr(), over [n] bytes of one page; it returns
    [got_null], [dst] and [max]. *)
Fixpoint copyinstr_page (n : nat) (p dst max : Z) : M kmem (bool * Z * Z) :=
  match n with
  | O => ret (false, dst, max)
  | S n =>
      let! c := gets (fun s => load8 (ram s) p) in
      if c =? 0 then set_ram (fun m => store8 m dst 0) ;; ret (true, dst, max)
      else
        set_ram (fun m => store8 m dst c) ;;
        copyinstr_page n (p + 1) (dst + 1) (max - 1)
  end.
Definition copyinstr_body (pagetable : Z) (v : bool * Z * Z * Z)
  : M kmem (bool * Z * Z * Z + Z) :=
  let '(got_null, dst, srcva, max) := v in
  if negb got_null && (0 <? max) then
    let va0 := PGROUNDDOWN srcva in
    let! pa0 := walkaddr pagetable va0 in
    if pa0 =? 0 then ret (inr (-1))
    else
      let n := PGSIZE - (srcva - va0) in
      let n := if max <? n then max else n in
      let! (g, dst', max') := copyinstr_page (Z.to_nat n) (pa0 + (srcva - va0)) dst max in
      ret (inl (g, dst', u64 (va0 + PGSIZE), max'))
  else ret (inr (if got_null then 0 else -1)).
Definition copyinstr (pagetable dst srcva max : Z) : M kmem Z :=
  loop (Z.to_nat (max / PGSIZE + 4)) (copyinstr_body pagetable) (false, dst, srcva, max).

(** ** vmprint *)

(** The lines vmprint() and print_pagetable() print: the first line with the
    address of the table, then the entries, with the [level] that gives their
    indentation. *)
Inductive pt_line :=
| HeadLine (pagetable : Z)
| LeafLine (level i va_lo va_hi pa_lo pa_hi : Z)
| TableLine (level i pte pa : Z).

Fixpoint print_pagetable (depth : nat) (m : mem) (pagetable level : Z) : list pt_line :=
  match depth with
  | O => []
  | S depth =>
      flat_map (fun i =>
        let pte := load64 m (pagetable + 8 * i) in
        if negb (Z.land pte PTE_V =? 0) then
          let pa := PTE2PA pte in
          if negb (Z.land pte (Z.lor (Z.lor PTE_R PTE_W) PTE_X) =? 0) then
            let va := Z.shiftl i PGSHIFT in
            [LeafLine level i va (va + PGSIZE - 1) pa (pa + PGSIZE - 1)]
          else TableLine level i pte pa :: print_pagetable depth m pa (level + 1)
        else []) (seqZ 0 512)
  end.

Definition vmprint (pagetable : Z) (m : mem) : list pt_line := HeadLine pagetable :: print_pagetable 3 m pagetable 0.

(** ** The kernel's own page table *)

Definition proc_mapstacks (kpgtbl : Z) : M kmem unit :=
  for_range (Z.to_nat NPROC) 0 (fun p =>
    let! pa := kalloc in
    if pa =? 0 then panic "kalloc"
    else kvmmap kpgtbl (KSTACK p) pa PGSIZE (Z.lor PTE_R PTE_W)).

Definition kvmmake : M kmem Z :=
  let! kpgtbl := kalloc in
  set_ram (memset kpgtbl 0 PGSIZE) ;;
  kvmmap kpgtbl UART0 UART0 PGSIZE (Z.lor PTE_R PTE_W) ;;
  kvmmap kpgtbl VIRTIO0 VIRTIO0 PGSIZE (Z.lor PTE_R PTE_W) ;;
  kvmmap kpgtbl GOLDFISH GOLDFISH PGSIZE (Z.lor PTE_R PTE_W) ;;
  kvmmap kpgtbl PLIC PLIC 0x400000 (Z.lor PTE_R PTE_W) ;;
  kvmmap kpgtbl KERNBASE KERNBASE (u64 (etext - KERNBASE)) (Z.lor PTE_R PTE_X) ;;
  kvmmap kpgtbl etext etext (u64 (PHYSTOP - etext)) (Z.lor PTE_R PTE_W) ;;
  kvmmap kpgtbl TRAMPOLINE trampoline PGSIZE (Z.lor PTE_R PTE_X) ;;
  proc_mapstacks kpgtbl ;;
  ret kpgtbl.

(** ** A process's page table (kernel/proc.c) *)

Definition proc_pagetable (trapframe : Z) : M kmem Z :=
  let! pagetable := uvmcreate in
  if pagetable =? 0 then ret 0
  else
    let! r := mappages pagetable TRAMPOLINE PGSIZE trampoline (Z.lor PTE_R PTE_X) in
    if r <? 0 then uvmfree pagetable 0 ;; ret 0
    else
      let! r := mappages pagetable TRAPFRAME PGSIZE trapframe (Z.lor PTE_R PTE_W) in
      if r <? 0 then
        uvmunmap pagetable TRAMPOLINE 1 false ;;
        uvmfree pagetable 0 ;;
        ret 0
      else ret pagetable.

Definition proc_freepagetable (pagetable sz : Z) : M kmem unit :=
  uvmunmap pagetable TRAMPOLINE 1 false ;;
  uvmunmap pagetable TRAPFRAME 1 false ;;
  uvmfree pagetable sz.

End Vm.
