(* ===== verification/VmFacts.v ===== *)
(** * Page tables stand for address spaces

    [vm_ok] is the invariant of a page table in memory: the table pages form
    a tree of distinct allocated pages, described by a map from paths of
    indices to page addresses, and none of them is on the free list.
    [pte_at] reads the leaf entry of a virtual address off that tree.  The
    theorems give the effect of walk(), mappages(), uvmunmap() and of the
    copy routines on [pte_at], on the free list and on the rest of memory. *)

From S2P Require Import Prelude Spinlock Mem CStringFacts Riscv Kalloc Vm.
Import CString.

#[local] Opaque memset memmove load64 store64 load8 store8.

Section VmFacts.
Context (kend me : Z) (kend_pos : 0 < kend).

Notation table := (gmap (list Z) Z).

(** Entry [i] of the table page [p] at [path]: a link to the page of the
    next level, or an invalid entry. *)
Definition link_ok (m : mem) (t : table) (path : list Z) (p i : Z) : Prop :=
  match t !! (path ++ [i]) with
  | Some q => load64 m (p + 8 * i) = Z.lor (PA2PTE q) PTE_V
  | None => Z.land (load64 m (p + 8 * i)) PTE_V = 0
  end.

Record pt_ok (m : mem) (t : table) (root : Z) : Prop := {
  pt_root : t !! [] = Some root;
  pt_page : forall path p, t !! path = Some p -> page_ok kend p;
  pt_inj : forall path path' p, t !! path = Some p -> t !! path' = Some p -> path = path';
  pt_link : forall path p i, t !! path = Some p -> (length path < 2)%nat -> 0 <= i < 512 ->
    link_ok m t path p i;
  pt_closed : forall path i q, t !! (path ++ [i]) = Some q ->
    is_Some (t !! path) /\ 0 <= i < 512 /\ (length path < 2)%nat
}.

(** Pages the virtual-memory code may write: table pages and free pages. *)
Definition owned (free : list Z) (t : table) (q : Z) : Prop :=
  q ∈ free \/ exists path, t !! path = Some q.

Lemma owned_cons q free t x : owned (q :: free) t x <-> x = q \/ owned free t x.
Proof. unfold owned. rewrite elem_of_cons. tauto. Qed.

Record vm_ok (s : kmem) (free : list Z) (t : table) (root : Z) : Prop := {
  vm_kmem : kmem_ok kend s free;
  vm_pt : pt_ok (ram s) t root;
  vm_apart : forall path p, t !! path = Some p -> p ∉ free
}.

Definition in_page (q x : Z) : Prop := q <= x < q + PGSIZE.

(** What a routine that only allocates table pages may do to the state. *)
Record extends (s s' : kmem) (free free' : list Z) (t t' : table) : Prop := {
  ext_table : t ⊆ t';
  ext_free : exists used, free = used ++ free';
  ext_owned : forall q, owned free' t' q <-> owned free t q;
  ext_frame : forall x, (forall q, owned free t q -> ~ in_page q x) ->
    load8 (ram s') x = load8 (ram s) x
}.

Lemma extends_refl s free t : extends s s free free t t.
Proof. split; try done. by exists []. Qed.

Lemma extends_trans s1 s2 s3 f1 f2 f3 t1 t2 t3 :
  extends s1 s2 f1 f2 t1 t2 -> extends s2 s3 f2 f3 t2 t3 -> extends s1 s3 f1 f3 t1 t3.
Proof.
  intros [A1 [u1 B1] C1 D1] [A2 [u2 B2] C2 D2]. split.
  - by transitivity t2.
  - exists (u1 ++ u2). subst. by rewrite app_assoc.
  - intros q. by rewrite C2.
  - intros x Hx. rewrite D2; [by apply D1|]. intros q Hq. by apply Hx, C1.
Qed.

(** The leaf entry for [va]; 0 where no table page covers it. *)
Definition pte_at (m : mem) (t : table) (va : Z) : Z :=
  match t !! [PX 2 va; PX 1 va] with
  | Some p => load64 m (p + 8 * PX 0 va)
  | None => 0
  end.

Lemma page_ok_pa p : page_ok kend p -> pa_ok p.
Proof. intros (? & ? & ?). split; [done|]. unfold PHYSTOP, KERNBASE in *. lia. Qed.

Lemma page_ok_apart p q :
  page_ok kend p -> page_ok kend q -> p <> q -> p + PGSIZE <= q \/ q + PGSIZE <= p.
Proof. intros (? & _) (? & _). by apply page_apart. Qed.

(** Entry [i] of page [p] is away from page [q]. *)
Lemma entry_apart p q i :
  page_ok kend p -> page_ok kend q -> p <> q -> 0 <= i < 512 ->
  p + 8 * i + 8 <= q \/ q + PGSIZE <= p + 8 * i.
Proof. intros. destruct (page_ok_apart p q) as [|]; try done; pg_lia. Qed.

Lemma wp_pte_read a s (Q : Z -> kmem -> Prop) : Q (load64 (ram s) a) s -> wp (pte_read a) s Q.
Proof. done. Qed.

Lemma PTE2PA_link q : page_ok kend q -> PTE2PA (Z.lor (PA2PTE q) PTE_V) = q.
Proof. intros. apply PTE2PA_pte; [by apply page_ok_pa|done]. Qed.

Lemma PTE_V_link q : Z.land (Z.lor (PA2PTE q) PTE_V) PTE_V <> 0.
Proof. rewrite pte_flags_read; done. Qed.

(** ** walk *)

Section Step.
Context (s : kmem) (free : list Z) (t : table) (root : Z) (Hok : vm_ok s free t root).

Let Hpt := vm_pt _ _ _ _ Hok.

(** Following a link that exists. *)
Lemma walk_follow va alloc level path p q :
  0 < level -> t !! path = Some p -> (length path < 2)%nat ->
  t !! (path ++ [PX level va]) = Some q ->
  wp (walk_body me va alloc (level, p)) s (fun r s' => r = inl (level - 1, q) /\ s' = s).
Proof.
  intros Hl Hp Hd Hq. unfold walk_body. rewrite (proj2 (Z.ltb_lt _ _) Hl).
  pose proof (pt_link _ _ _ Hpt _ _ _ Hp Hd (PX_range level va ltac:(lia))) as Hlink.
  unfold link_ok in Hlink. rewrite Hq in Hlink.
  wp_step. apply wp_pte_read. rewrite Hlink.
  rewrite (proj2 (Z.eqb_neq _ _) (PTE_V_link q)). wp_step. wp_step.
  rewrite PTE2PA_link; [done|]. exact (pt_page _ _ _ Hpt _ _ Hq).
Qed.

(** A missing link, without allocation. *)
Lemma walk_stop va level path p :
  0 < level -> t !! path = Some p -> (length path < 2)%nat ->
  t !! (path ++ [PX level va]) = None ->
  wp (walk_body me va false (level, p)) s (fun r s' => r = inr 0 /\ s' = s).
Proof.
  intros Hl Hp Hd Hq. unfold walk_body. rewrite (proj2 (Z.ltb_lt _ _) Hl).
  pose proof (pt_link _ _ _ Hpt _ _ _ Hp Hd (PX_range level va ltac:(lia))) as Hlink.
  unfold link_ok in Hlink. rewrite Hq in Hlink.
  wp_step. apply wp_pte_read. rewrite Hlink. by do 3 wp_step.
Qed.

End Step.

(** Memory after a fresh, zeroed table page [q] has been linked at an entry. *)
Lemma fresh_table m q p i v :
  page_ok kend p -> page_ok kend q -> p <> q -> 0 <= i < 512 ->
  let m' := store64 (memset q 0 PGSIZE m) (p + 8 * i) v in
  (forall x, ~ in_page q x -> ~ (p + 8 * i <= x < p + 8 * i + 8) -> load8 m' x = load8 m x) /\
  (forall j, 0 <= j < 512 -> load64 m' (q + 8 * j) = 0) /\
  load64 m' (p + 8 * i) = u64 v.
Proof.
  intros Hp Hq Hne Hi m'. split_and!.
  - intros x H1 H2. unfold m'. rewrite load8_store64_out by exact H2.
    apply (memset_outside q 0 PGSIZE m ltac:(pg_lia) x H1).
  - intros j Hj. unfold m'. rewrite load64_store64_ne.
    + apply load64_memset_0; pg_lia.
    + destruct (entry_apart p q i) as [|]; try assumption; pg_lia.
  - apply load64_store64_eq.
Qed.

Lemma u64_pte q fl : pa_ok q -> 0 <= fl < 1024 -> u64 (Z.lor (PA2PTE q) fl) = Z.lor (PA2PTE q) fl.
Proof.
  intros Hq Hf. apply u64_small. destruct (Hq) as [? ?].
  rewrite pte_flags_disjoint, PA2PTE_eq by done.
  pose proof (Z.div_le_upper_bound q 4 q). pose proof (Z.div_pos q 4). lia.
Qed.

(** The new table page of a missing link. *)
Lemma walk_grow s free t root va level path p :
  vm_ok s free t root -> 0 < level ->
  t !! path = Some p -> (length path < 2)%nat -> t !! (path ++ [PX level va]) = None ->
  wp (walk_body me va true (level, p)) s (fun r s' => exists free' t',
    vm_ok s' free' t' root /\ extends s s' free free' t t' /\
    (forall va', pte_at (ram s') t' va' = pte_at (ram s) t va') /\
    (r = inr 0 /\ free' = [] \/
     exists q, r = inl (level - 1, q) /\ t' !! (path ++ [PX level va]) = Some q)).
Proof.
  intros Hok Hl Hp Hd Hq. destruct Hok as [Hk Hpt Hap]. unfold walk_body.
  rewrite (proj2 (Z.ltb_lt _ _) Hl). set (i := PX level va) in *.
  assert (Hi : 0 <= i < 512) by (apply PX_range; lia).
  pose proof (pt_link _ _ _ Hpt _ _ _ Hp Hd Hi) as Hlink.
  unfold link_ok in Hlink. rewrite Hq in Hlink.
  wp_step. apply wp_pte_read. rewrite Hlink. do 3 wp_step.
  eapply wp_mono; [by eapply wp_kalloc|]. intros r s1 H.
  destruct free as [|q free].
  { destruct H as [-> ->]. wp_steps. exists [], t. split; [by split|].
    split; [apply extends_refl|]. by split; [|left]. }
  destruct H as (-> & Hk1 & Ho1 & _).
  pose proof (ok_pages _ _ _ Hk) as Hpg. apply list.Forall_cons in Hpg as [Hqp _].
  rewrite (proj2 (Z.eqb_neq q 0)) by (destruct Hqp as (_ & ? & _); lia).
  unfold pte_write, set_ram. wp_steps. cbn.
  pose proof (ok_nodup _ _ _ Hk) as Hnd. apply list.NoDup_cons in Hnd as [Hqf Hnd].
  assert (Hpp : page_ok kend p) by exact (pt_page _ _ _ Hpt _ _ Hp).
  assert (Hpq : p <> q) by (intros ->; apply (Hap path q Hp); set_solver).
  destruct (fresh_table (ram s1) q p i (Z.lor (PA2PTE q) PTE_V)) as (Hfr1 & Hzero & Hnew);
    [assumption..|].
  generalize dependent (store64 (memset q 0 PGSIZE (ram s1)) (p + 8 * i) (Z.lor (PA2PTE q) PTE_V)).
  intros m' Hfr1 Hzero Hnew. rewrite u64_pte in Hnew by (first [by apply page_ok_pa|done]).
  assert (Hfr : forall x, ~ in_page q x -> ~ (p + 8 * i <= x < p + 8 * i + 8) ->
      load8 m' x = load8 (ram s) x).
  { intros x H1 H2. rewrite Hfr1 by assumption. by apply Ho1. }
  assert (Hfr64 : forall x, x + 8 <= q \/ q + PGSIZE <= x ->
      x + 8 <= p + 8 * i \/ p + 8 * i + 8 <= x -> load64 m' x = load64 (ram s) x).
  { intros x H1 H2. apply load64_ext. intros y Hy. apply Hfr; unfold in_page; lia. }
  assert (Hk' : kmem_ok kend (mkKmem (kmem_lock s1) (freelist s1) m') free).
  { destruct Hk1 as [L1 C1 N1 P1]. split; [exact L1| |exact N1|exact P1]. cbn [freelist ram].
    eapply chain_frame; [|exact C1]. intros x Hx. rewrite Forall_forall in P1.
    assert (page_ok kend x) by (by apply P1, list_elem_of_In).
    assert (x <> q) by (by intros ->).
    assert (x <> p) by (intros ->; apply (Hap path p Hp); set_solver).
    apply load64_ext. intros y Hy. apply Hfr1; unfold in_page.
    - destruct (page_ok_apart x q) as [|]; try assumption; pg_lia.
    - destruct (page_ok_apart x p) as [|]; try assumption; pg_lia. }
  assert (Hother : forall path' p', t !! path' = Some p' -> p' <> q).
  { intros path' p' H1 ->. eapply (Hap path' q); [done|set_solver]. }
  assert (Hents : forall path' p' j, t !! path' = Some p' -> 0 <= j < 512 ->
      (path', j) <> (path, i) -> load64 m' (p' + 8 * j) = load64 (ram s) (p' + 8 * j)).
  { intros path' p' j H1 Hj Hne. assert (page_ok kend p') by (by eapply pt_page).
    assert (p' <> q) by (by eapply Hother).
    apply Hfr64; [by apply entry_apart|].
    destruct (decide (p' = p)) as [->|Hpp'].
    - assert (path' = path) as -> by (by eapply pt_inj).
      assert (j <> i) by congruence. lia.
    - destruct (page_ok_apart p' p) as [|]; try done; pg_lia. }
  exists free, (<[path ++ [i] := q]> t).
  split_and!.
  - split; cbn; [done| |].
    + split.
      * rewrite lookup_insert_ne; [by apply (pt_root _ _ _ Hpt)|by destruct path].
      * intros path' p' H. apply lookup_insert_Some in H as [[_ <-]|[_ H]]; [done|by eapply pt_page].
      * intros x y z Hx Hy. apply lookup_insert_Some in Hx as [[<- <-]|[Hx1 Hx]];
          apply lookup_insert_Some in Hy as [[<- Hy]|[Hy1 Hy]]; try done.
        -- by apply Hother in Hy.
        -- subst. by apply Hother in Hx.
        -- by eapply pt_inj.
      * intros path' p' j H Hd' Hj. unfold link_ok.
        apply lookup_insert_Some in H as [[<- <-]|[Hne H]].
        -- rewrite lookup_insert_ne.
           ++ destruct (t !! ((path ++ [i]) ++ [j])) as [z|] eqn:E.
              ** apply (pt_closed _ _ _ Hpt) in E as [[? E] _]. by rewrite Hq in E.
              ** by rewrite Hzero.
           ++ intros E. apply (f_equal length) in E. rewrite !length_app in E. cbn in E. lia.
        -- destruct (decide ((path', j) = (path, i))) as [E|E].
           ++ injection E as -> ->. rewrite lookup_insert_eq. assert (p' = p) as -> by congruence. done.
           ++ rewrite lookup_insert_ne.
              ** rewrite (Hents path') by done. by apply (pt_link _ _ _ Hpt).
              ** intros E'. apply app_inj_tail in E' as [-> ->]. done.
      * intros path' j z H. apply lookup_insert_Some in H as [[E <-]|[Hne H]].
        -- apply app_inj_tail in E as [-> ->]. split; [|done].
           rewrite lookup_insert_ne; [by eexists|].
           intros E. apply (f_equal length) in E. rewrite length_app in E. cbn in E. lia.
        -- apply (pt_closed _ _ _ Hpt) in H as [[z' Hz] ?]. split; [|done].
           destruct (decide (path ++ [i] = path')) as [<-|]; [rewrite lookup_insert_eq|
             rewrite lookup_insert_ne by done]; by eexists.
    + intros path' p' H. apply lookup_insert_Some in H as [[_ <-]|[_ H]]; [done|].
      intros Hin. eapply (Hap path' p'); [done|set_solver].
  - split.
    + by apply insert_subseteq.
    + by exists [q].
    + intros z. rewrite owned_cons. split.
      * intros [Hz|[path' Hz]]; [right; by left|].
        apply lookup_insert_Some in Hz as [[_ <-]|[_ Hz]]; [by left|right; right; eauto].
      * intros [->|[Hz|[path' Hz]]]; [right; exists (path ++ [i]); apply lookup_insert_eq|by left|].
        right. exists path'. rewrite lookup_insert_ne; [done|]. intros <-. congruence.
    + intros x Hx. cbn. apply Hfr; [apply Hx; left; set_solver|].
      intros ?. apply (Hx p); [right; eauto|]. unfold in_page. pg_lia.
  - intros va'. unfold pte_at. cbn.
    destruct (decide (path ++ [i] = [PX 2 va'; PX 1 va'])) as [E|E].
    + rewrite <-E, lookup_insert_eq, Hq. apply Hzero, PX_range. lia.
    + rewrite lookup_insert_ne by done.
      destruct (t !! [PX 2 va'; PX 1 va']) as [p'|] eqn:Ep; [|done].
      eapply Hents; [done|apply PX_range; lia|]. intros [=]. subst path. cbn in Hd. lia.
  - right. exists q. by rewrite lookup_insert_eq.
Qed.

(** Where walk() finds the leaf entry of [va]. *)
Definition pte_addr (t : table) (va : Z) : Z :=
  match t !! [PX 2 va; PX 1 va] with Some p => p + 8 * PX 0 va | None => 0 end.

Lemma wp_walk_unfold va alloc root s Q :
  0 <= va < MAXVA ->
  wp (walk_body me va alloc (2, root)) s (fun r s1 =>
    match r with
    | inr b => Q b s1
    | inl a1 => wp (walk_body me va alloc a1) s1 (fun r s2 =>
        match r with
        | inr b => Q b s2
        | inl a2 => wp (walk_body me va alloc a2) s2 (fun r s3 =>
            match r with inr b => Q b s3 | inl _ => False end)
        end)
    end) -> wp (walk me root va alloc) s Q.
Proof.
  intros Hva H. unfold walk. rewrite (proj2 (Z.leb_gt _ _)) by lia.
  rewrite loop_S.
  apply wp_bind. eapply wp_mono; [exact H|]. clear. intros [a1|b] s1 H; [|exact H].
  rewrite loop_S.
  apply wp_bind. eapply wp_mono; [exact H|]. clear. intros [a2|b] s2 H; [|exact H].
  rewrite loop_S.
  apply wp_bind. eapply wp_mono; [exact H|]. clear. intros [a3|b] s3 H; [done|exact H].
Qed.

Lemma wp_walk_leaf va alloc p s (Q : _ -> _ -> Prop) :
  Q (inr (p + 8 * PX 0 va)) s -> wp (walk_body me va alloc (0, p)) s Q.
Proof. intros H. unfold walk_body. by wp_steps. Qed.

(** walk(..., 0) finds the entry, or returns 0, and changes nothing. *)
Lemma wp_walk_lookup s free t root va :
  vm_ok s free t root -> 0 <= va < MAXVA ->
  wp (walk me root va false) s (fun r s' => r = pte_addr t va /\ s' = s).
Proof.
  intros Hok Hva. apply wp_walk_unfold; [done|].
  pose proof (pt_root _ _ _ (vm_pt _ _ _ _ Hok)) as Hr. unfold pte_addr.
  destruct (t !! [PX 2 va]) as [p1|] eqn:E1.
  - eapply wp_mono; [eapply (walk_follow s free t root Hok va false 2 [] root p1); done || (cbn; lia)|].
    intros r s1 [-> ->]. cbn beta iota.
    destruct (t !! [PX 2 va; PX 1 va]) as [p0|] eqn:E0.
    + eapply wp_mono; [eapply (walk_follow s free t root Hok va false (2 - 1) [PX 2 va] p1 p0); done || (cbn; lia)|].
      intros r s1 [-> ->]. cbn beta iota. by apply wp_walk_leaf.
    + eapply wp_mono; [eapply (walk_stop s free t root Hok va (2 - 1) [PX 2 va] p1); done || (cbn; lia)|].
      intros r s1 [-> ->]. done.
  - eapply wp_mono; [eapply (walk_stop s free t root Hok va 2 [] root); done || (cbn; lia)|].
    intros r s1 [-> ->]. cbn beta iota.
    destruct (t !! [PX 2 va; PX 1 va]) as [p0|] eqn:E0; [|done].
    apply (pt_closed _ _ _ (vm_pt _ _ _ _ Hok) [PX 2 va]) in E0 as [[? E] _]. congruence.
Qed.

(** One level of walk(..., 1), whether the link exists or not. *)
Lemma walk_level s free t root va level path p :
  vm_ok s free t root -> 0 < level -> t !! path = Some p -> (length path < 2)%nat ->
  wp (walk_body me va true (level, p)) s (fun r s' => exists free' t',
    vm_ok s' free' t' root /\ extends s s' free free' t t' /\
    (forall va', pte_at (ram s') t' va' = pte_at (ram s) t va') /\
    (r = inr 0 /\ free' = [] \/
     exists q, r = inl (level - 1, q) /\ t' !! (path ++ [PX level va]) = Some q)).
Proof.
  intros Hok Hl Hp Hd. destruct (t !! (path ++ [PX level va])) as [q|] eqn:E.
  - eapply wp_mono; [by eapply walk_follow|]. intros r s' [-> ->].
    exists free, t. split; [done|]. split; [apply extends_refl|]. split; [done|]. eauto.
  - by apply walk_grow.
Qed.

Lemma wp_walk_alloc s free t root va :
  vm_ok s free t root -> 0 <= va < MAXVA ->
  wp (walk me root va true) s (fun r s' => exists free' t',
    vm_ok s' free' t' root /\ extends s s' free free' t t' /\
    (forall va', pte_at (ram s') t' va' = pte_at (ram s) t va') /\
    (r = 0 /\ free' = [] \/
     exists p, t' !! [PX 2 va; PX 1 va] = Some p /\ r = p + 8 * PX 0 va)).
Proof.
  intros Hok Hva. apply wp_walk_unfold; [done|].
  eapply wp_mono; [eapply (walk_level s free t root va 2 []); [done|lia|apply Hok|cbn; lia]|].
  intros r s1 (f1 & t1 & Hok1 & Hx1 & Hp1 & H). cbn [app] in H.
  destruct H as [[-> ->]|(q & -> & Hq)].
  { exists [], t1. eauto 10. }
  eapply wp_mono; [eapply (walk_level s1 f1 t1 root va (2 - 1) [PX 2 va]); [done|lia|done|cbn; lia]|].
  intros r s2 (f2 & t2 & Hok2 & Hx2 & Hp2 & H). cbn [app] in H.
  assert (Hx : extends s s2 free f2 t t2) by (by eapply extends_trans).
  assert (Hp : forall va', pte_at (ram s2) t2 va' = pte_at (ram s) t va') by (intros; by rewrite Hp2).
  destruct H as [[-> ->]|(p & -> & Hq2)].
  { exists [], t2. eauto 10. }
  apply wp_walk_leaf. exists f2, t2. split_and!; try done. right. eauto.
Qed.

(** ** Writing a leaf entry *)

Lemma pte_store s free t root va p v :
  vm_ok s free t root -> 0 <= va < MAXVA -> t !! [PX 2 va; PX 1 va] = Some p ->
  let s' := mkKmem (kmem_lock s) (freelist s) (store64 (ram s) (p + 8 * PX 0 va) v) in
  vm_ok s' free t root /\ extends s s' free free t t /\
  (forall va', 0 <= va' < MAXVA -> pte_at (ram s') t va' =
     if decide (PGROUNDDOWN va' = PGROUNDDOWN va) then u64 v else pte_at (ram s) t va').
Proof.
  intros Hok Hva Hp s'. destruct Hok as [Hk Hpt Hap].
  pose proof (pt_page _ _ _ Hpt _ _ Hp) as Hpp.
  assert (Hi : 0 <= PX 0 va < 512) by (apply PX_range; lia).
  pose proof (store64_outside (ram s) (p + 8 * PX 0 va) v) as Ho.
  assert (Hn : load64 (ram s') (p + 8 * PX 0 va) = u64 v) by apply load64_store64_eq.
  unfold s' in *. cbn [ram] in *. clear s'.
  generalize dependent (store64 (ram s) (p + 8 * PX 0 va) v). intros m' Ho Hn.
  assert (Hent : forall path' p' j, t !! path' = Some p' -> 0 <= j < 512 ->
      (p', j) <> (p, PX 0 va) -> load64 m' (p' + 8 * j) = load64 (ram s) (p' + 8 * j)).
  { intros path' p' j H1 Hj Hne. apply (same_outside_load64 _ _ _ _ _ Ho).
    destruct (decide (p' = p)) as [->|Hd].
    - assert (j <> PX 0 va) by congruence. lia.
    - destruct (page_ok_apart p' p) as [|]; try assumption;
        [exact (pt_page _ _ _ Hpt _ _ H1)|pg_lia..]. }
  assert (Hdeep : forall path' j, t !! path' = Some p -> (length path' < 2)%nat -> (p, j) <> (p, PX 0 va)).
  { intros path' j H1 H2 _. assert (path' = [PX 2 va; PX 1 va]) by (by eapply pt_inj).
    subst. cbn in H2. lia. }
  split_and!.
  - split; cbn [ram].
    + destruct Hk as [L C N P]. split; [exact L| |exact N|exact P]. cbn [freelist ram].
      eapply chain_frame; [|exact C]. intros x Hx. apply (same_outside_load64 _ _ _ _ _ Ho).
      rewrite Forall_forall in P. assert (page_ok kend x) by (by apply P, list_elem_of_In).
      assert (x <> p) by (intros ->; by apply (Hap _ p Hp)).
      destruct (page_ok_apart x p) as [|]; try assumption; pg_lia.
    + destruct Hpt as [R P I L C]. split; try assumption.
      intros path' p' i H1 H2 H3. unfold link_ok. rewrite (Hent path') by
        (first [assumption|intros [= -> ->]; eapply Hdeep; eauto]).
      by apply L.
    + exact Hap.
  - split; [done|by exists []|done|]. intros x Hx. cbn [ram]. apply Ho. intros Hin.
    apply (Hx p); [right; eauto|]. unfold in_page. pg_lia.
  - intros va' Hva'. unfold pte_at. cbn [ram].
    case_decide as Hd.
    + assert (HPX : forall l, 0 <= l -> PX l va' = PX l va).
      { intros l Hl. rewrite !PGROUNDDOWN_eq in Hd.
        assert (va' / 4096 = va / 4096) as Hq by pg_lia.
        rewrite !PX_eq, Z.pow_add_r by lia. change (2 ^ 12) with 4096.
        rewrite <-!Z.div_div by lia. by rewrite Hq. }
      rewrite !HPX by lia. by rewrite Hp.
    + destruct (t !! [PX 2 va'; PX 1 va']) as [p'|] eqn:E; [|done].
      eapply Hent; [done|apply PX_range; lia|]. intros [= -> HP0]. apply Hd.
      assert (HE : [PX 2 va'; PX 1 va'] = [PX 2 va; PX 1 va]) by (by eapply pt_inj).
      injection HE as ??. by apply PX_inj.
Qed.

(** ** mappages *)

(** The leaf entry mappages() writes. *)
Definition leaf (pa perm : Z) : Z := Z.lor (Z.lor (PA2PTE pa) perm) PTE_V.

Lemma lor_flags_bound a b : 0 <= a < 1024 -> 0 <= b < 1024 -> 0 <= Z.lor a b < 1024.
Proof.
  intros Ha Hb. split; [apply Z.lor_nonneg; lia|].
  destruct (decide (Z.lor a b = 0)) as [->|Hne]; [lia|].
  assert (0 <= Z.lor a b) by (apply Z.lor_nonneg; lia).
  change 1024 with (2 ^ 10). apply Z.log2_lt_pow2; [lia|]. rewrite Z.log2_lor by lia.
  assert (Hl : forall x, 0 <= x < 1024 -> Z.log2 x < 10).
  { intros x Hx. destruct (decide (x = 0)) as [->|]; [done|]. apply Z.log2_lt_pow2; lia. }
  apply Z.max_lub_lt; by apply Hl.
Qed.

Lemma leaf_eq pa perm : leaf pa perm = Z.lor (PA2PTE pa) (Z.lor perm PTE_V).
Proof. unfold leaf. by rewrite Z.lor_assoc. Qed.

Lemma u64_leaf pa perm : pa_ok pa -> 0 <= perm < 1024 -> u64 (leaf pa perm) = leaf pa perm.
Proof. intros. rewrite leaf_eq. apply u64_pte; [done|]. by apply lor_flags_bound. Qed.

Lemma leaf_flags pa perm k :
  0 <= k < 1024 -> Z.land (leaf pa perm) k = Z.land (Z.lor perm PTE_V) k.
Proof. intros. rewrite leaf_eq. by apply pte_flags_read. Qed.

Lemma leaf_valid pa perm : Z.land (leaf pa perm) PTE_V <> 0.
Proof.
  rewrite leaf_flags by done. rewrite Z.land_lor_distr_l.
  intros H. apply Z.lor_eq_0_iff in H as [_ H]. done.
Qed.

Lemma PTE2PA_leaf pa perm : pa_ok pa -> 0 <= perm < 1024 -> PTE2PA (leaf pa perm) = pa.
Proof. intros. rewrite leaf_eq. apply PTE2PA_pte; [done|]. by apply lor_flags_bound. Qed.

(** The pages of the range [\[va, va + size)]. *)
Definition first_page (va : Z) : Z := PGROUNDDOWN va.
Definition last_page (va size : Z) : Z := PGROUNDDOWN (va + size - 1).

Lemma pages_aligned_diff a b : page_aligned a -> page_aligned b -> (b - a) / PGSIZE * PGSIZE = b - a.
Proof.
  unfold page_aligned, PGSIZE. intros. pose proof (Z.div_mod a 4096). pose proof (Z.div_mod b 4096).
  replace (b - a) with ((b / 4096 - a / 4096) * 4096) by lia. by rewrite Z.div_mul.
Qed.

Lemma wp_mappages s free t root va size pa perm :
  vm_ok s free t root -> 0 <= va -> 0 < size -> va + size <= MAXVA ->
  page_aligned pa -> 0 <= pa -> pa + (last_page va size - first_page va) < 2 ^ 56 ->
  0 <= perm < 1024 ->
  (forall va', 0 <= va' < MAXVA -> first_page va <= PGROUNDDOWN va' <= last_page va size ->
     Z.land (pte_at (ram s) t va') PTE_V = 0) ->
  wp (mappages me root va size pa perm) s (fun r s' => exists free' t' lim,
    vm_ok s' free' t' root /\ extends s s' free free' t t' /\
    (forall va', 0 <= va' < MAXVA -> pte_at (ram s') t' va' =
      if decide (first_page va <= PGROUNDDOWN va' < lim)
      then leaf (pa + (PGROUNDDOWN va' - first_page va)) perm
      else pte_at (ram s) t va') /\
    (r = 0 /\ lim = last_page va size + PGSIZE \/
     r = -1 /\ page_aligned lim /\ first_page va <= lim <= last_page va size /\ free' = [])).
Proof.
  intros Hok Hva Hsz Hmax Hpa Hpa0 Hpam Hperm Hfree.
  unfold mappages. rewrite (proj2 (Z.eqb_neq _ _)) by lia.
  change MAXVA with 274877906944 in *.
  rewrite (u64_small (va + size - 1)) by lia.
  change (PGROUNDDOWN (va + size - 1)) with (last_page va size).
  change (PGROUNDDOWN va) with (first_page va).
  set (a0 := first_page va) in *. set (last := last_page va size) in *.
  assert (Ha0 : page_aligned a0) by apply PGROUNDDOWN_aligned.
  assert (Hla : page_aligned last) by apply PGROUNDDOWN_aligned.
  assert (Hb0 : 0 <= a0 <= last /\ last < 274877906944).
  { pose proof (PGROUNDDOWN_spec va) as H1. pose proof (PGROUNDDOWN_spec (va + size - 1)) as H2.
    fold (first_page va) in H1. fold (last_page va size) in H2. fold a0 in H1. fold last in H2.
    unfold page_aligned, PGSIZE in *. pose proof (Z.div_mod a0 4096). pose proof (Z.div_mod last 4096). lia. }
  rewrite (u64_small (last - a0)) by lia.
  apply (wp_loop
    (fun ap s' => exists a free' t', a = ap.1 /\ page_aligned a /\ a0 <= a <= last /\
       ap.2 = pa + (a - a0) /\ vm_ok s' free' t' root /\ extends s s' free free' t t' /\
       (forall va', 0 <= va' < 274877906944 -> pte_at (ram s') t' va' =
          if decide (a0 <= PGROUNDDOWN va' < a) then leaf (pa + (PGROUNDDOWN va' - a0)) perm
          else pte_at (ram s) t va'))
    (fun ap => Z.to_nat ((last - ap.1) / PGSIZE))).
  2: { exists a0, free, t. cbn. split_and!; try done; try lia; [apply extends_refl|].
       intros va' _. by rewrite decide_False by lia. }
  2: { cbn. lia. }
  intros [a pa'] s1 (a' & f1 & t1 & Ea & Haa & Hab & Epa & Hok1 & Hx1 & Hp1). cbn in Ea, Epa. subst a' pa'.
  unfold mappages_body. wp_step. change 274877906944 with MAXVA in *.
  eapply wp_mono; [apply (wp_walk_alloc s1 f1 t1 root a); [done|unfold PGSIZE in *; lia]|].
  intros r s2 (f2 & t2 & Hok2 & Hx2 & Hp2 & H).
  destruct H as [[-> ->]|(p & Hp & ->)].
  { wp_steps. exists [], t2, a. split_and!; try done; [by eapply extends_trans| |right; done].
    intros va' Hv. by rewrite Hp2, Hp1. }
  assert (Hpp := pt_page _ _ _ (vm_pt _ _ _ _ Hok2) _ _ Hp).
  assert (Hpi : 0 <= PX 0 a < 512) by (apply PX_range; lia).
  rewrite (proj2 (Z.eqb_neq _ _)) by (destruct Hpp as (_ & ? & _); lia).
  wp_step. apply wp_pte_read. cbn beta.
  assert (He : load64 (ram s2) (p + 8 * PX 0 a) = pte_at (ram s) t a).
  { assert (E : pte_at (ram s2) t2 a = load64 (ram s2) (p + 8 * PX 0 a)) by (unfold pte_at; by rewrite Hp).
    rewrite <-E, Hp2, Hp1 by lia. rewrite PGROUNDDOWN_id by done. by rewrite decide_False by lia. }
  rewrite He, Hfree by (rewrite ?PGROUNDDOWN_id by done; lia). wp_step.
  unfold pte_write, set_ram. wp_step. wp_step.
  fold (leaf (pa + (a - a0)) perm).
  destruct (pte_store s2 f2 t2 root a p (leaf (pa + (a - a0)) perm)) as (Hok3 & Hx3 & Hp3);
    [done|lia|done|].
  assert (Hpk : pa_ok (pa + (a - a0))).
  { split; [|lia]. unfold page_aligned, PGSIZE in *.
    rewrite Z.add_mod, Zminus_mod, Hpa, Haa, Ha0; done. }
  rewrite u64_leaf in Hp3 by done.
  generalize dependent (mkKmem (kmem_lock s2) (freelist s2)
    (store64 (ram s2) (p + 8 * PX 0 a) (leaf (pa + (a - a0)) perm))).
  intros s3 Hok3 Hx3 Hp3.
  assert (Hx : extends s s3 free f2 t t2) by (eapply extends_trans; [|done]; by eapply extends_trans).
  assert (Hp4 : forall va', 0 <= va' < MAXVA -> pte_at (ram s3) t2 va' =
      if decide (a0 <= PGROUNDDOWN va' < a + PGSIZE) then leaf (pa + (PGROUNDDOWN va' - a0)) perm
      else pte_at (ram s) t va').
  { intros va' Hv. rewrite Hp3, Hp2, Hp1 by done. rewrite (PGROUNDDOWN_id a) by done.
    pose proof (PGROUNDDOWN_aligned va') as Hal.
    destruct (decide (PGROUNDDOWN va' = a)) as [->|Hne].
    { by rewrite decide_True by pg_lia. }
    assert (PGROUNDDOWN va' < a <-> PGROUNDDOWN va' < a + PGSIZE) as Hiff.
    { unfold page_aligned, PGSIZE in *. pose proof (Z.div_mod (PGROUNDDOWN va') 4096).
      pose proof (Z.div_mod a 4096). lia. }
    repeat case_decide; try done; lia. }
  destruct (Z.eqb_spec a last) as [->|Hne].
  - wp_step. exists f2, t2, (last + PGSIZE). split_and!; try done. by left.
  - assert (Hnext : a + PGSIZE <= last).
    { unfold page_aligned, PGSIZE in *. pose proof (Z.div_mod last 4096). pose proof (Z.div_mod a 4096). lia. }
    assert (Hu : u64 (a + PGSIZE) = a + PGSIZE).
    { apply u64_small. unfold PGSIZE in *. change MAXVA with 274877906944 in *. lia. }
    wp_step. rewrite Hu. split.
    + exists (a + PGSIZE), f2, t2. cbn. split_and!; try done; try lia.
      * unfold page_aligned, PGSIZE in *. rewrite Z.add_mod, Haa; done.
      * pg_lia.
      * rewrite u64_small; [lia|]. unfold PGSIZE in *. lia.
    + cbn. replace (last - a) with (last - (a + PGSIZE) + 1 * PGSIZE) by lia.
      rewrite Z.div_add by pg_lia.
      assert (0 <= (last - (a + PGSIZE)) / PGSIZE) by (apply Z.div_pos; pg_lia). lia.
Qed.

(** ** walkaddr *)

(** The user translation of [va]: 0 when it has none. *)
Definition translate (m : mem) (t : table) (va : Z) : Z :=
  if MAXVA <=? va then 0
  else
    let e := pte_at m t va in
    if Z.land e PTE_V =? 0 then 0 else if Z.land e PTE_U =? 0 then 0 else PTE2PA e.

Lemma pte_addr_nonzero s free t root va p :
  vm_ok s free t root -> t !! [PX 2 va; PX 1 va] = Some p -> p + 8 * PX 0 va <> 0.
Proof.
  intros Hok Hp. destruct (pt_page _ _ _ (vm_pt _ _ _ _ Hok) _ _ Hp) as (_ & ? & _).
  pose proof (PX_range 0 va). lia.
Qed.

Lemma wp_walkaddr s free t root va :
  vm_ok s free t root -> 0 <= va ->
  wp (walkaddr me root va) s (fun r s' => r = translate (ram s) t va /\ s' = s).
Proof.
  intros Hok Hva. unfold walkaddr, translate. destruct (Z.leb_spec MAXVA va) as [H|H]; [by wp_step|].
  wp_step. eapply wp_mono; [by apply (wp_walk_lookup s free t root)|].
  intros r s' [-> ->]. unfold pte_addr, pte_at.
  destruct (t !! [PX 2 va; PX 1 va]) as [p|] eqn:E; [|by wp_steps].
  rewrite (proj2 (Z.eqb_neq _ _)) by (by eapply pte_addr_nonzero).
  wp_step. apply wp_pte_read. cbn beta. by wp_steps.
Qed.

(** C23: mappages() builds the requested translation.  On a page table in
    order, for a range below MAXVA with no page mapped yet, mappages() never
    panics; if it returns 0, walkaddr() of every address of a user range gives
    the physical page at the same distance from [pa], every address outside
    the range translates as before, and the routine only wrote table pages
    and pages it took from the free list; if it returns -1, the free list was
    exhausted. *)
Theorem mappages_translates s free t root va size pa perm :
  vm_ok s free t root -> 0 <= va -> 0 < size -> va + size <= MAXVA ->
  page_aligned pa -> 0 <= pa -> pa + (last_page va size - first_page va) < 2 ^ 56 ->
  0 <= perm < 1024 -> Z.land perm PTE_U <> 0 ->
  (forall va', 0 <= va' < MAXVA -> first_page va <= PGROUNDDOWN va' <= last_page va size ->
     Z.land (pte_at (ram s) t va') PTE_V = 0) ->
  wp (mappages me root va size pa perm) s (fun r s' => exists free' t',
    vm_ok s' free' t' root /\ extends s s' free free' t t' /\
    (r = 0 /\ (forall va', 0 <= va' < MAXVA ->
       wp (walkaddr me root va') s' (fun pa' _ =>
         pa' = if decide (first_page va <= PGROUNDDOWN va' <= last_page va size)
               then pa + (PGROUNDDOWN va' - first_page va)
               else translate (ram s) t va')) \/
     r = -1 /\ free' = [])).
Proof.
  intros Hok Hva Hsz Hmax Hpa Hpa0 Hpam Hperm Hu Hfree.
  eapply wp_mono; [by apply (wp_mappages s free t root)|].
  intros r s' (f' & t' & lim & Hok' & Hx & Hp & H). exists f', t'. split; [done|]. split; [done|].
  destruct H as [[-> ->]|(-> & _ & _ & ->)]; [left|right; done]. split; [done|].
  intros va' Hv. eapply wp_mono; [apply (wp_walkaddr s' f' t' root); [done|lia]|].
  intros pa' s1 [-> _]. unfold translate. rewrite (proj2 (Z.leb_gt _ _)) by lia.
  rewrite Hp by done. pose proof (PGROUNDDOWN_aligned va') as Hal.
  assert (Hla : page_aligned (last_page va size)) by apply PGROUNDDOWN_aligned.
  assert (Ha0 : page_aligned (first_page va)) by apply PGROUNDDOWN_aligned.
  assert (Hiff : PGROUNDDOWN va' < last_page va size + PGSIZE <-> PGROUNDDOWN va' <= last_page va size).
  { unfold page_aligned, PGSIZE in *. pose proof (Z.div_mod (PGROUNDDOWN va') 4096).
    pose proof (Z.div_mod (last_page va size) 4096). lia. }
  destruct (decide (first_page va <= PGROUNDDOWN va' <= last_page va size)) as [Hd|Hd].
  - rewrite decide_True by lia.
    rewrite (proj2 (Z.eqb_neq _ _) (leaf_valid _ _)), leaf_flags by done.
    rewrite Z.land_lor_distr_l. change (Z.land PTE_V PTE_U) with 0. rewrite Z.lor_0_r.
    rewrite (proj2 (Z.eqb_neq _ _) Hu). apply PTE2PA_leaf; [|done]. split; [|lia].
    unfold page_aligned, PGSIZE in *. rewrite Z.add_mod, Zminus_mod, Hpa, Hal, Ha0; done.
  - rewrite decide_False by lia. done.
Qed.

(** ** Pages that are not table pages *)

(** A write confined to a page the page table does not own. *)
Lemma vm_other_page s free t root q lk fl m' :
  vm_ok s free t root -> page_ok kend q -> ~ owned free t q ->
  same_outside q PGSIZE (ram s) m' ->
  kmem_ok kend (mkKmem lk fl m') free ->
  vm_ok (mkKmem lk fl m') free t root /\ forall va, pte_at m' t va = pte_at (ram s) t va.
Proof.
  intros [Hk Hpt Hap] Hq Hno Ho Hk'.
  assert (He : forall path p i, t !! path = Some p -> 0 <= i < 512 ->
      load64 m' (p + 8 * i) = load64 (ram s) (p + 8 * i)).
  { intros path p i Hp Hi. apply (same_outside_load64 _ _ _ _ _ Ho).
    apply entry_apart; [exact (pt_page _ _ _ Hpt _ _ Hp)|done| |done].
    intros ->. apply Hno. right. eauto. }
  split.
  - split; [done| |done]. destruct Hpt as [R P I L C]. split; try assumption.
    intros path p i H1 H2 H3. unfold link_ok. cbn [ram]. rewrite (He path) by done. by apply L.
  - intros va. unfold pte_at. destruct (t !! [PX 2 va; PX 1 va]) eqn:E; [|done].
    eapply He; [done|]. apply PX_range. lia.
Qed.

Lemma kmem_ok_same_outside s free q m' :
  kmem_ok kend s free -> page_ok kend q -> q ∉ free -> same_outside q PGSIZE (ram s) m' ->
  kmem_ok kend (mkKmem (kmem_lock s) (freelist s) m') free.
Proof.
  intros [L C N P] Hq Hni Ho. split; [exact L| |exact N|exact P]. cbn [freelist ram].
  eapply (chain_same_outside kend); [exact Ho|apply Hq|exact Hni|exact P|exact C].
Qed.

(** Writing a page of one's own. *)
Lemma vm_write_page s free t root q m' :
  vm_ok s free t root -> page_ok kend q -> ~ owned free t q -> same_outside q PGSIZE (ram s) m' ->
  vm_ok (mkKmem (kmem_lock s) (freelist s) m') free t root /\
  forall va, pte_at m' t va = pte_at (ram s) t va.
Proof.
  intros Hok Hq Hno Ho. eapply vm_other_page; try done. eapply kmem_ok_same_outside; try done.
  - apply Hok.
  - intros Hin. apply Hno. by left.
Qed.

Lemma wp_kfree_vm s free t root q :
  vm_ok s free t root -> page_ok kend q -> ~ owned free t q ->
  wp (kfree kend me q) s (fun _ s' =>
    vm_ok s' (q :: free) t root /\ same_outside q PGSIZE (ram s) (ram s') /\
    (forall va, pte_at (ram s') t va = pte_at (ram s) t va)).
Proof.
  intros Hok Hq Hno. assert (Hni : q ∉ free) by (intros ?; apply Hno; by left).
  eapply wp_mono; [by apply (wp_kfree kend me kend_pos s free); [apply Hok|..]|].
  intros _ [lk fl m'] [Hk' Ho]. cbn [ram] in *.
  assert (Hf : forall path p, t !! path = Some p -> p ∉ q :: free).
  { intros path p Hp Hin. apply elem_of_cons in Hin as [->|Hin].
    - apply Hno. right. eauto.
    - by apply (vm_apart _ _ _ _ Hok path p). }
  destruct (vm_write_page s free t root q m') as [[_ Hpt _] Hpte]; try done.
Qed.

Lemma wp_kalloc_vm s free t root :
  vm_ok s free t root ->
  wp (kalloc me) s (fun r s' =>
    match free with
    | [] => r = 0 /\ s' = s
    | q :: f => r = q /\ page_ok kend q /\ vm_ok s' f t root /\ ~ owned f t q /\
        same_outside q PGSIZE (ram s) (ram s') /\
        (forall va, pte_at (ram s') t va = pte_at (ram s) t va)
    end).
Proof.
  intros Hok. eapply wp_mono; [apply (wp_kalloc kend me); apply Hok|].
  intros r [lk fl m'] H. destruct free as [|q f]; [done|]. destruct H as (-> & Hk' & Ho & _).
  pose proof (ok_pages _ _ _ (vm_kmem _ _ _ _ Hok)) as Hpg. apply list.Forall_cons in Hpg as [Hq _].
  pose proof (ok_nodup _ _ _ (vm_kmem _ _ _ _ Hok)) as Hn. apply list.NoDup_cons in Hn as [Hni Hn].
  assert (Hno : ~ owned f t q).
  { intros [Hin|[path Hin]]; [done|]. apply (vm_apart _ _ _ _ Hok path q); [done|set_solver]. }
  destruct Hok as [Hk Hpt Hap]. cbn [ram] in *.
  assert (Hok0 : vm_ok (mkKmem (kmem_lock s) 0 (ram s)) [] t root).
  { split; [split; cbn; [apply Hk|constructor|constructor|constructor]|done|].
    intros path p _ Hin. by apply not_elem_of_nil in Hin. }
  destruct (vm_write_page (mkKmem (kmem_lock s) 0 (ram s)) [] t root q m') as [[_ Hpt' _] Hpte]; try done.
  { intros [Hin|[path Hin]]; [by apply not_elem_of_nil in Hin|]. apply (Hap path q); [done|set_solver]. }
  split_and!; try done. split; try done. intros path p Hp Hin. apply (Hap path p); [done|set_solver].
Qed.

End VmFacts.
