(* ===== verification/UserMem.v ===== *)
(** * User memory (kernel/vm.c: uvm*, copyin, copyout)

    A process's memory is a list [us] of physical pages with their
    permissions, page [i] mapped at virtual address [i * PGSIZE]; [uspace]
    says that a page table maps exactly these pages below the trapframe, and
    that the pages are distinct and neither table pages nor free.  The
    theorems say what uvmalloc(), uvmdealloc(), uvmcopy(), copyout() and
    copyin() do to that list, to the free list and to the bytes of the pages. *)

From S2P Require Import Prelude Spinlock Mem CStringFacts Riscv Kalloc Vm VmFacts.
Import CString.

#[local] Opaque memset memmove load64 store64 load8 store8.

Section UserMem.
Context (kend me : Z) (kend_pos : 0 < kend).

Notation table := (gmap (list Z) Z).
Notation vm_ok := (vm_ok kend).
Notation page_ok := (page_ok kend).

(** Permission bits of a user page: PTE flags with some bit besides V. *)
Definition perm_ok (pm : Z) : Prop := 0 <= pm < 1024 /\ Z.lor pm PTE_V <> PTE_V.

Record uspace (m : mem) (free : list Z) (t : table) (us : list (Z * Z)) : Prop := {
  us_pte : forall i pa pm, us !! i = Some (pa, pm) ->
    pte_at m t (Z.of_nat i * PGSIZE) = leaf pa pm;
  us_page : forall i pa pm, us !! i = Some (pa, pm) ->
    page_ok pa /\ perm_ok pm /\ ~ owned free t pa;
  us_inj : forall i j pa pm pm', us !! i = Some (pa, pm) -> us !! j = Some (pa, pm') -> i = j;
  us_rest : forall va, Z.of_nat (length us) * PGSIZE <= va < TRAPFRAME ->
    Z.land (pte_at m t va) PTE_V = 0;
  us_len : Z.of_nat (length us) * PGSIZE <= TRAPFRAME
}.

Lemma pte_at_page m t va va' : va / PGSIZE = va' / PGSIZE -> pte_at m t va = pte_at m t va'.
Proof.
  intros H. unfold pte_at.
  assert (HPX : forall l, 0 <= l -> PX l va = PX l va').
  { intros l Hl. rewrite !PX_eq, Z.pow_add_r by lia. change (2 ^ 12) with PGSIZE.
    rewrite <-!Z.div_div by pg_lia. by rewrite H. }
  by rewrite !HPX by lia.
Qed.

(** [uspace] depends on the leaf entries and the owned pages only. *)
Lemma uspace_weaken m m' free free' t t' us :
  uspace m free t us -> (forall q, owned free' t' q -> owned free t q) ->
  (forall va, 0 <= va < TRAPFRAME -> pte_at m' t' va = pte_at m t va) ->
  uspace m' free' t' us.
Proof.
  intros [A B C D E] Hx Hp. split; try done.
  - intros i pa pm Hi. rewrite Hp; [by apply A|]. apply lookup_lt_Some in Hi. unfold PGSIZE in *. lia.
  - intros i pa pm Hi. destruct (B _ _ _ Hi) as (? & ? & Hn). split_and!; try done.
    intros Ho. by apply Hn, Hx.
  - intros va Hva. rewrite Hp; [by apply D|]. pg_lia.
Qed.

Lemma owned_page_ok s free t root q : vm_ok s free t root -> owned free t q -> page_ok q.
Proof.
  intros Hok [Hq|[path Hq]]; [|exact (pt_page _ _ _ _ (vm_pt _ _ _ _ _ Hok) _ _ Hq)].
  pose proof (ok_pages _ _ _ (vm_kmem _ _ _ _ _ Hok)) as Hf. rewrite Forall_forall in Hf.
  by apply Hf, list_elem_of_In.
Qed.

Lemma in_page_ne p q x : page_ok p -> page_ok q -> p <> q -> in_page p x -> ~ in_page q x.
Proof. intros Hp Hq Hne. destruct (page_ok_apart kend p q) as [|]; try done; unfold in_page; lia. Qed.

Lemma not_owned_frame s free t root p x :
  vm_ok s free t root -> page_ok p -> ~ owned free t p -> in_page p x ->
  forall q, owned free t q -> ~ in_page q x.
Proof.
  intros Hok Hp Hno Hx q Hq. apply (in_page_ne p); try done; [by eapply owned_page_ok|by intros ->].
Qed.

(** Number of pages of a process of [sz] bytes. *)
Definition npages (sz : Z) : nat := Z.to_nat (PGROUNDUP sz / PGSIZE).

Lemma npages_eq sz : 0 <= sz < 2 ^ 63 -> PGROUNDUP sz = Z.of_nat (npages sz) * PGSIZE.
Proof.
  intros H. destruct (PGROUNDUP_spec sz) as [Ha Hb]; [pg_lia|]. unfold npages.
  rewrite Z2Nat.id by (apply Z.div_pos; pg_lia). unfold page_aligned in Ha.
  pose proof (Z.div_mod (PGROUNDUP sz) PGSIZE). pg_lia.
Qed.

Lemma npages_mono sz sz' : 0 <= sz <= sz' -> sz' < 2 ^ 63 -> (npages sz <= npages sz')%nat.
Proof.
  intros H H'. unfold npages. rewrite !PGROUNDUP_eq, !Z.div_mul by pg_lia.
  apply Z2Nat.inj_le; [apply Z.div_pos; pg_lia..|]. apply Z.div_le_mono; pg_lia.
Qed.

Lemma npages_mul n : (Z.of_nat n * PGSIZE < 2 ^ 63) -> npages (Z.of_nat n * PGSIZE) = n.
Proof.
  intros H. unfold npages. rewrite PGROUNDUP_eq, Z.div_mul by pg_lia.
  unfold PGSIZE. rewrite Z.add_comm, Z.div_add, Z.div_small by lia. lia.
Qed.

Lemma perm_leaf pa pm : perm_ok pm -> PTE_FLAGS (leaf pa pm) <> PTE_V.
Proof.
  intros [Hb Hn] H. apply Hn. unfold PTE_FLAGS in H. rewrite leaf_flags in H by lia.
  change 1023 with (Z.ones 10) in H. rewrite Z.land_ones in H by lia.
  rewrite Z.mod_small in H; [done|]. by apply (lor_flags_bound pm PTE_V).
Qed.

(** A valid entry has a table page. *)
Lemma pte_at_valid m t va e :
  pte_at m t va = e -> Z.land e PTE_V <> 0 ->
  exists p, t !! [PX 2 va; PX 1 va] = Some p /\ load64 m (p + 8 * PX 0 va) = e.
Proof.
  intros He Hv. unfold pte_at in He. destruct (t !! [PX 2 va; PX 1 va]) as [p|]; [eauto|].
  subst. done.
Qed.

(** ** Unmapping and freeing a tail of the pages *)

Section Unmap.
Context (s0 : kmem) (free : list Z) (t : table) (root : Z) (us : list (Z * Z)) (lo : nat).
Context (Hok : vm_ok s0 free t root) (Hus : uspace (ram s0) free t us) (Hlo : (lo <= length us)%nat).

Definition freed (j : nat) : list Z := reverse (take (j - lo) (drop lo us.*1)).

(** The state after pages [lo] to [j - 1] have been unmapped. *)
Record unmapped (j : nat) (s : kmem) : Prop := {
  un_range : (lo <= j <= length us)%nat;
  un_ok : vm_ok s (freed j ++ free) t root;
  un_pte : forall va, 0 <= va < MAXVA -> pte_at (ram s) t va =
    if decide (Z.of_nat lo * PGSIZE <= va < Z.of_nat j * PGSIZE) then 0 else pte_at (ram s0) t va;
  un_frame : forall x, (forall q, owned free t q -> ~ in_page q x) ->
    (forall q, q ∈ drop lo us.*1 -> ~ in_page q x) -> load8 (ram s) x = load8 (ram s0) x
}.

Lemma freed_S j pa pm :
  (lo <= j)%nat -> us !! j = Some (pa, pm) -> freed (S j) = pa :: freed j.
Proof.
  intros Hj Hi. unfold freed. replace (S j - lo)%nat with (S (j - lo)) by lia.
  rewrite (take_S_r _ _ pa), reverse_app; [done|].
  rewrite lookup_drop, list_lookup_fmap. replace (lo + (j - lo))%nat with j by lia. by rewrite Hi.
Qed.

Lemma freed_in j q : (lo <= j)%nat -> q ∈ freed j ->
  exists i pm, (lo <= i < j)%nat /\ us !! i = Some (q, pm).
Proof.
  intros Hj Hin. unfold freed in Hin. rewrite elem_of_reverse in Hin.
  apply list_elem_of_lookup in Hin as [i Hi]. apply lookup_take_Some in Hi as [Hi Hlt].
  rewrite lookup_drop, list_lookup_fmap in Hi.
  destruct (us !! (lo + i)%nat) as [[pa pm]|] eqn:E; [|done]. cbn in Hi. simplify_eq.
  exists (lo + i)%nat, pm. split; [lia|done].
Qed.

Lemma MAXVA_TRAPFRAME : TRAPFRAME + 2 * PGSIZE = MAXVA.
Proof. reflexivity. Qed.

Lemma unmap_step j s pa pm :
  unmapped j s -> us !! j = Some (pa, pm) ->
  wp (uvmunmap_body kend me root (Z.of_nat (length us) * PGSIZE) true (Z.of_nat j * PGSIZE)) s
    (fun r s' => r = inl (Z.of_nat (S j) * PGSIZE) /\ unmapped (S j) s').
Proof.
  intros [Hr Hoks Hpte Hfr] Hi. pose proof (lookup_lt_Some _ _ _ Hi) as Hlt.
  pose proof (us_len _ _ _ _ Hus) as Hlen. pose proof MAXVA_TRAPFRAME as HMT.
  assert (Hva : 0 <= Z.of_nat j * PGSIZE < MAXVA) by pg_lia.
  destruct (us_page _ _ _ _ Hus _ _ _ Hi) as (Hpg & Hpm & Hno).
  unfold uvmunmap_body. rewrite (proj2 (Z.ltb_lt _ _)) by pg_lia.
  wp_step. eapply wp_mono; [by apply (wp_walk_lookup kend me kend_pos s (freed j ++ free) t root)|].
  intros r s1 [-> ->]. cbn beta.
  assert (He : pte_at (ram s) t (Z.of_nat j * PGSIZE) = leaf pa pm).
  { rewrite Hpte by done. rewrite decide_False by lia. by apply (us_pte _ _ _ _ Hus). }
  destruct (pte_at_valid _ _ _ _ He (leaf_valid pa pm)) as (p & Hp & Hl).
  unfold pte_addr. rewrite Hp.
  rewrite (proj2 (Z.eqb_neq _ _)) by (by eapply pte_addr_nonzero).
  wp_step. apply wp_pte_read. cbn beta. rewrite Hl.
  rewrite (proj2 (Z.eqb_neq _ _) (leaf_valid pa pm)).
  rewrite (proj2 (Z.eqb_neq _ _) (perm_leaf pa pm Hpm)).
  do 2 wp_step. rewrite PTE2PA_leaf by (first [by eapply page_ok_pa|apply Hpm]).
  assert (Hno' : ~ owned (freed j ++ free) t pa).
  { intros [Hin|Hin]; [|apply Hno; by right].
    apply elem_of_app in Hin as [Hin|Hin]; [|apply Hno; by left].
    apply freed_in in Hin as (i' & pm' & ? & Hi'); [|lia].
    assert (i' = j) by (by eapply us_inj). lia. }
  eapply wp_mono; [by apply (wp_kfree_vm kend me kend_pos s (freed j ++ free) t root)|].
  intros _ s1 (Hok1 & Ho1 & Hp1). cbn beta.
  unfold pte_write, set_ram. do 2 wp_step. wp_step.
  destruct (pte_store kend s1 (pa :: freed j ++ free) t root (Z.of_nat j * PGSIZE) p 0)
    as (Hok2 & Hx2 & Hp2); [done|done|done|].
  generalize dependent (mkKmem (kmem_lock s1) (freelist s1)
    (store64 (ram s1) (p + 8 * PX 0 (Z.of_nat j * PGSIZE)) 0)). intros s2 Hok2 Hx2 Hp2.
  split; [f_equal; rewrite u64_small; [lia|unfold PGSIZE in *; change MAXVA with 274877906944 in *; lia]|].
  split; [lia| | |].
  - rewrite (freed_S j pa pm) by (lia || done). exact Hok2.
  - intros va Hv. rewrite Hp2, Hp1, Hpte by done. change (u64 0) with 0.
    rewrite (PGROUNDDOWN_id (Z.of_nat j * PGSIZE)) by (unfold page_aligned; apply Z.mod_mul; pg_lia).
    pose proof (PGROUNDDOWN_spec va) as Hrd. rewrite PGROUNDDOWN_eq in *.
    repeat case_decide; try done; unfold PGSIZE in *; lia.
  - intros x Hx Hx'. rewrite (ext_frame _ _ _ _ _ _ Hx2).
    + rewrite (Ho1 x).
      * by apply Hfr.
      * apply Hx'. apply list_elem_of_lookup. exists (j - lo)%nat.
        rewrite lookup_drop, list_lookup_fmap. replace (lo + (j - lo))%nat with j by lia. by rewrite Hi.
    + intros q Hq. apply owned_cons in Hq as [->|[Hq|Hq]].
      * apply Hx', list_elem_of_lookup. exists (j - lo)%nat.
        rewrite lookup_drop, list_lookup_fmap. replace (lo + (j - lo))%nat with j by lia. by rewrite Hi.
      * apply elem_of_app in Hq as [Hq|Hq]; [|apply Hx; by left].
        apply freed_in in Hq as (i' & pm' & ? & Hi'); [|lia].
        apply Hx', list_elem_of_lookup. exists (i' - lo)%nat.
        rewrite lookup_drop, list_lookup_fmap. replace (lo + (i' - lo))%nat with i' by lia. by rewrite Hi'.
      * apply Hx. by right.
Qed.

(** uvmunmap(..., do_free = 1) of all pages from [lo] on. *)
Lemma wp_uvmunmap_tail :
  wp (uvmunmap kend me root (Z.of_nat lo * PGSIZE) (Z.of_nat (length us - lo)) true) s0
    (fun _ s => unmapped (length us) s).
Proof.
  pose proof (us_len _ _ _ _ Hus) as Hlen. pose proof MAXVA_TRAPFRAME as HMT.
  change MAXVA with 274877906944 in *.
  unfold uvmunmap. rewrite Z.mod_mul by pg_lia. cbn [negb Z.eqb].
  rewrite (u64_small (Z.of_nat (length us - lo) * PGSIZE)) by pg_lia.
  rewrite u64_small by pg_lia.
  replace (Z.of_nat lo * PGSIZE + Z.of_nat (length us - lo) * PGSIZE)
    with (Z.of_nat (length us) * PGSIZE) by pg_lia.
  apply (wp_loop (fun a s => exists j, a = Z.of_nat j * PGSIZE /\ unmapped j s)
           (fun a => Z.to_nat (Z.of_nat (length us) - a / PGSIZE))).
  - intros a s (j & -> & Hj). destruct (us !! j) as [[pa pm]|] eqn:E.
    + eapply wp_mono; [by apply (unmap_step j s pa pm)|]. intros r s' [-> Hu].
      pose proof (lookup_lt_Some _ _ _ E). split; [eauto|].
      rewrite !Z.div_mul by pg_lia. lia.
    + apply lookup_ge_None in E. pose proof (un_range _ _ Hj).
      assert (j = length us) as -> by lia.
      unfold uvmunmap_body. rewrite Z.ltb_irrefl. by wp_step.
  - exists lo. split; [done|]. split; [lia| | |done].
    + unfold freed. rewrite Nat.sub_diag. exact Hok.
    + intros va _. by rewrite decide_False by lia.
  - rewrite Z.div_mul by pg_lia. lia.
Qed.

Lemma unmapped_uspace s :
  unmapped (length us) s ->
  vm_ok s (reverse (drop lo us.*1) ++ free) t root /\
  uspace (ram s) (reverse (drop lo us.*1) ++ free) t (take lo us).
Proof.
  intros [_ Hok1 Hp Hf]. pose proof MAXVA_TRAPFRAME as HMT.
  assert (E : freed (length us) = reverse (drop lo us.*1)).
  { unfold freed. rewrite take_ge; [done|]. rewrite length_drop, length_fmap. lia. }
  pose proof (freed_in (length us)) as Hfi. rewrite E in Hok1, Hfi. split; [done|].
  pose proof (us_len _ _ _ _ Hus) as Hlen.
  assert (Hlt : length (take lo us) = lo) by (rewrite length_take; lia).
  split.
  - intros i pa pm Hi. apply lookup_take_Some in Hi as [Hi Hil].
    rewrite Hp by pg_lia. rewrite decide_False by pg_lia. by apply (us_pte _ _ _ _ Hus).
  - intros i pa pm Hi. apply lookup_take_Some in Hi as [Hi Hil].
    destruct (us_page _ _ _ _ Hus _ _ _ Hi) as (? & ? & Hno). split_and!; try done.
    intros [Hin|Hin]; [|apply Hno; by right]. apply elem_of_app in Hin as [Hin|Hin]; [|apply Hno; by left].
    apply Hfi in Hin as (j & pm' & ? & Hj); [|lia]. assert (i = j) by (by eapply us_inj). lia.
  - intros i j pa pm pm' Hi Hj. apply lookup_take_Some in Hi as [Hi _]. apply lookup_take_Some in Hj as [Hj _].
    by eapply us_inj.
  - intros va Hva. rewrite Hlt in Hva. rewrite Hp by pg_lia. case_decide; [done|].
    apply (us_rest _ _ _ _ Hus). pg_lia.
  - rewrite Hlt. pg_lia.
Qed.

End Unmap.

(** uvmdealloc() shrinks the process to [newsz] bytes: the pages beyond go
    back to the free list, the others stay. *)
Lemma wp_uvmdealloc s free t root us oldsz newsz :
  vm_ok s free t root -> uspace (ram s) free t us ->
  0 <= oldsz < MAXVA -> npages oldsz = length us -> 0 <= newsz ->
  wp (uvmdealloc kend me root oldsz newsz) s (fun r s' =>
    let n := npages (Z.min oldsz newsz) in
    let free' := reverse (drop n us.*1) ++ free in
    r = Z.min oldsz newsz /\ vm_ok s' free' t root /\ uspace (ram s') free' t (take n us) /\
    (forall va, TRAPFRAME <= va < MAXVA -> pte_at (ram s') t va = pte_at (ram s) t va) /\
    (forall x, (forall q, owned free t q -> ~ in_page q x) ->
       (forall q, q ∈ drop n us.*1 -> ~ in_page q x) -> load8 (ram s') x = load8 (ram s) x)).
Proof.
  intros Hok Hus Ho Hn Hnew. unfold uvmdealloc. change MAXVA with 274877906944 in *.
  assert (Hall : npages (Z.min oldsz newsz) = length us ->
    forall s' : kmem, s' = s -> let n := npages (Z.min oldsz newsz) in
    vm_ok s' (reverse (drop n us.*1) ++ free) t root /\
    uspace (ram s') (reverse (drop n us.*1) ++ free) t (take n us) /\
    (forall va, TRAPFRAME <= va < MAXVA -> pte_at (ram s') t va = pte_at (ram s) t va) /\
    (forall x, (forall q, owned free t q -> ~ in_page q x) ->
       (forall q, q ∈ drop n us.*1 -> ~ in_page q x) -> load8 (ram s') x = load8 (ram s) x)).
  { intros E s' -> n. unfold n. rewrite E, drop_ge, take_ge by (rewrite ?length_fmap; lia). done. }
  destruct (Z.leb_spec oldsz newsz) as [Hle|Hlt].
  { wp_step. rewrite Z.min_l by lia. split; [done|]. rewrite Z.min_l in Hall by lia. by apply Hall. }
  rewrite Z.min_r in * by lia. wp_step.
  rewrite (npages_eq oldsz), (npages_eq newsz), Hn by lia.
  assert (Hm : (npages newsz <= length us)%nat) by (rewrite <-Hn; apply npages_mono; lia).
  pose proof (us_len _ _ _ _ Hus) as Hlen. change TRAPFRAME with 274877898752 in *.
  wp_step; bool_simpl.
  - replace ((Z.of_nat (length us) * PGSIZE - Z.of_nat (npages newsz) * PGSIZE) / PGSIZE)
      with (Z.of_nat (length us - npages newsz)).
    2: { rewrite <-Z.mul_sub_distr_r, Z.div_mul by pg_lia. lia. }
    rewrite i32_small by pg_lia.
    eapply wp_mono; [by apply (wp_uvmunmap_tail s free t root us (npages newsz))|].
    intros [] s' Hu. wp_step. split; [done|].
    destruct (unmapped_uspace s free t root us (npages newsz) Hus Hm s' Hu) as [H1 H2].
    split_and!; [exact H1|exact H2| |apply Hu]. intros va Hva.
    rewrite (un_pte _ _ _ _ _ _ _ _ Hu) by (change TRAPFRAME with 274877898752 in *; change MAXVA with 274877906944 in *; lia).
    rewrite decide_False; [done|]. change TRAPFRAME with 274877898752 in *. lia.
  - wp_step. split; [done|]. apply Hall; [pg_lia|done].
Qed.

(** ** Mapping one more page *)

Lemma uspace_snoc m m' free free' t t' us pa pm :
  uspace m free t us -> (forall q, owned free' t' q -> owned free t q) ->
  page_ok pa -> perm_ok pm -> ~ owned free t pa -> pa ∉ us.*1 ->
  Z.of_nat (length us + 1) * PGSIZE <= TRAPFRAME ->
  (forall va, 0 <= va < MAXVA -> pte_at m' t' va =
     if decide (PGROUNDDOWN va = Z.of_nat (length us) * PGSIZE) then leaf pa pm else pte_at m t va) ->
  uspace m' free' t' (us ++ [(pa, pm)]).
Proof.
  intros [A B C D E] Hx Hpa Hpm Hno Hni Hlen Hp.
  change TRAPFRAME with 274877898752 in *. change MAXVA with 274877906944 in *.
  assert (Hlk : forall i pa' pm', (us ++ [(pa, pm)]) !! i = Some (pa', pm') ->
    us !! i = Some (pa', pm') \/ (i = length us /\ pa' = pa /\ pm' = pm)).
  { intros i pa' pm' Hi. apply lookup_app_Some in Hi as [Hi|[Hl Hi]]; [by left|].
    right. destruct (i - length us)%nat eqn:Ei; [|done]. injection Hi as [= <- <-]. split; [lia|done]. }
  split.
  - intros i pa' pm' Hi. apply Hlk in Hi as [Hi|(-> & -> & ->)].
    + pose proof (lookup_lt_Some _ _ _ Hi). rewrite Hp by pg_lia.
      rewrite PGROUNDDOWN_eq, Z.div_mul, decide_False by pg_lia. by apply A.
    + rewrite Hp by pg_lia. rewrite PGROUNDDOWN_eq, Z.div_mul, decide_True by pg_lia. done.
  - intros i pa' pm' Hi. apply Hlk in Hi as [Hi|(-> & -> & ->)].
    + destruct (B _ _ _ Hi) as (? & ? & Hn). split_and!; try done. intros Ho. by apply Hn, Hx.
    + split_and!; try done. intros Ho. by apply Hno, Hx.
  - assert (Hin : forall i pm', us !! i = Some (pa, pm') -> False).
    { intros i pm' Hi. apply Hni, list_elem_of_lookup. exists i. by rewrite list_lookup_fmap, Hi. }
    intros i j pa' pm1 pm2 Hi Hj.
    apply Hlk in Hi as [Hi|(-> & -> & ->)]; apply Hlk in Hj as [Hj|(-> & ? & ?)]; subst; try done.
    + by eapply C.
    + by apply Hin in Hi.
    + by apply Hin in Hj.
  - intros va Hva. rewrite length_app in Hva. cbn [length] in Hva.
    change TRAPFRAME with 274877898752 in Hva. rewrite Hp by pg_lia.
    rewrite decide_False by (pose proof (PGROUNDDOWN_spec va); pg_lia). apply D.
    change TRAPFRAME with 274877898752. pg_lia.
  - rewrite length_app. cbn [length]. change TRAPFRAME with 274877898752. pg_lia.
Qed.

Lemma wp_mappages_user s free t root us pa pm :
  vm_ok s free t root -> uspace (ram s) free t us ->
  page_ok pa -> perm_ok pm -> ~ owned free t pa -> pa ∉ us.*1 ->
  Z.of_nat (length us + 1) * PGSIZE <= TRAPFRAME ->
  wp (mappages me root (Z.of_nat (length us) * PGSIZE) PGSIZE pa pm) s (fun r s' => exists free' t',
    vm_ok s' free' t' root /\ extends s s' free free' t t' /\
    (forall va, TRAPFRAME <= va < MAXVA -> pte_at (ram s') t' va = pte_at (ram s) t va) /\
    (r = 0 /\ uspace (ram s') free' t' (us ++ [(pa, pm)]) \/ r = -1 /\ uspace (ram s') free' t' us)).
Proof.
  intros Hok Hus Hpa Hpm Hno Hni Hlen. pose proof MAXVA_TRAPFRAME as HMT.
  set (va := Z.of_nat (length us) * PGSIZE).
  assert (Hfl : first_page va = va /\ last_page va PGSIZE = va).
  { unfold first_page, last_page, va. rewrite !PGROUNDDOWN_eq. split; [rewrite Z.div_mul; pg_lia|].
    replace (Z.of_nat (length us) * PGSIZE + PGSIZE - 1)
      with (4095 + Z.of_nat (length us) * PGSIZE) by pg_lia.
    unfold PGSIZE. rewrite Z.div_add, Z.div_small; lia. }
  destruct Hfl as [Hf Hl]. assert (Hpo : pa_ok pa) by (by eapply page_ok_pa).
  eapply wp_mono.
  - apply (wp_mappages kend me kend_pos s free t root va PGSIZE pa pm); rewrite ?Hl, ?Hf;
      try first [done|apply Hpm|apply Hpo|unfold va; pg_lia].
    + rewrite Z.sub_diag, Z.add_0_r. apply Hpo.
    + intros va' Hv Hin. apply (us_rest _ _ _ _ Hus). pose proof (PGROUNDDOWN_spec va'). unfold va in *. pg_lia.
  - intros r s' (f' & t' & lim & Hok' & Hx & Hp & H). exists f', t'. split; [done|]. split; [done|].
    assert (Ho : forall q, owned f' t' q -> owned free t q) by (intros q; apply Hx).
    rewrite Hl, Hf in *. split.
    { intros va' Hv. rewrite Hp by (change TRAPFRAME with 274877898752 in *; change MAXVA with 274877906944 in *; lia).
      rewrite decide_False; [done|]. pose proof (PGROUNDDOWN_aligned va') as Hal'.
      pose proof (PGROUNDDOWN_spec va') as Hrd. unfold va, page_aligned in *.
      pose proof (Z.div_mod (PGROUNDDOWN va') PGSIZE).
      change TRAPFRAME with (67108862 * PGSIZE) in *. destruct H as [[? ->]|(? & ? & ? & ?)]; pg_lia. }
    destruct H as [[-> ->]|(-> & Hal & Hlim & ->)]; [left|right]; (split; [done|]).
    + apply (uspace_snoc (ram s) _ free _ t _ us); try done. intros va' Hv. rewrite Hp by done.
      pose proof (PGROUNDDOWN_aligned va') as Hal. fold va.
      destruct (decide (PGROUNDDOWN va' = va)) as [->|Hne].
      * rewrite decide_True by pg_lia. by rewrite Z.sub_diag, Z.add_0_r.
      * rewrite decide_False; [done|]. unfold page_aligned, va, PGSIZE in *.
        pose proof (Z.div_mod (PGROUNDDOWN va') 4096). lia.
    + apply (uspace_weaken (ram s) _ free _ t); try done. intros va' Hv.
      rewrite Hp by (rewrite <-HMT; pg_lia). by rewrite decide_False by lia.
Qed.

(** ** Taking fresh pages *)

(** From [s] to [s'], the pages [new] were taken from the free list and
    further table pages may have been; nothing else was written. *)
Record grown (s s' : kmem) (free free' : list Z) (t t' : table) (new : list Z) : Prop := {
  gr_table : t ⊆ t';
  gr_owned : forall q, owned free t q <-> owned free' t' q \/ q ∈ new;
  gr_frame : forall x, (forall q, owned free t q -> ~ in_page q x) ->
    load8 (ram s') x = load8 (ram s) x;
  gr_high : forall va, TRAPFRAME <= va < MAXVA -> pte_at (ram s') t' va = pte_at (ram s) t va
}.

Lemma grown_refl s free t : grown s s free free t t [].
Proof. split; try done. intros q. set_solver. Qed.

Lemma grown_trans s1 s2 s3 f1 f2 f3 t1 t2 t3 n1 n2 :
  grown s1 s2 f1 f2 t1 t2 n1 -> grown s2 s3 f2 f3 t2 t3 n2 -> grown s1 s3 f1 f3 t1 t3 (n1 ++ n2).
Proof.
  intros [A1 B1 C1 D1] [A2 B2 C2 D2]. split.
  - by transitivity t2.
  - intros q. rewrite B1, B2, elem_of_app. tauto.
  - intros x Hx. rewrite C2; [by apply C1|]. intros q Hq. apply Hx, B1. by left.
  - intros va Hva. by rewrite D2, D1.
Qed.

Lemma not_owned_us s free t root us q :
  vm_ok s free t root -> uspace (ram s) free t us -> owned free t q -> q ∉ us.*1.
Proof.
  intros _ Hus Hq Hin. apply list_elem_of_lookup in Hin as [i Hi].
  rewrite list_lookup_fmap in Hi. destruct (us !! i) as [[pa pm]|] eqn:E; [|done].
  injection Hi as ->. by destruct (us_page _ _ _ _ Hus _ _ _ E) as (_ & _ & []).
Qed.

(** The common step of uvmalloc() and uvmcopy(): take a page, fill it, map it
    after the last one; give it back when the page table cannot grow. *)
Lemma wp_fresh_page {A} (f : Z -> mem -> mem) (k0 k1 : M kmem A) s free t root us pm Q :
  vm_ok s free t root -> uspace (ram s) free t us -> perm_ok pm ->
  Z.of_nat (length us + 1) * PGSIZE <= TRAPFRAME ->
  (forall q m, same_outside q PGSIZE m (f q m)) ->
  (forall s' free' t', vm_ok s' free' t' root -> grown s s' free free' t t' [] ->
     uspace (ram s') free' t' us -> wp k0 s' Q) ->
  (forall s' free' t' q m1, vm_ok s' free' t' root -> grown s s' free free' t t' [q] ->
     uspace (ram s') free' t' (us ++ [(q, pm)]) ->
     (forall x, (forall q, owned free t q -> ~ in_page q x) -> load8 m1 x = load8 (ram s) x) ->
     (forall x, in_page q x -> load8 (ram s') x = load8 (f q m1) x) -> wp k1 s' Q) ->
  wp (let! q := kalloc me in
      if q =? 0 then k0
      else set_ram (f q) ;;
           let! r := mappages me root (Z.of_nat (length us) * PGSIZE) PGSIZE q pm in
           if negb (r =? 0) then kfree kend me q ;; k0 else k1) s Q.
Proof.
  intros Hok Hus Hpm Hlen Hf H0 H1. wp_step.
  eapply wp_mono; [by apply (wp_kalloc_vm kend me kend_pos s free t root)|].
  intros r s1 H. destruct free as [|q f1].
  { destruct H as [-> ->]. wp_step; try done. apply (H0 s [] t); [done|apply grown_refl|done]. }
  destruct H as (-> & Hq & Hok1 & Hno & Ho1 & Hp1).
  rewrite (proj2 (Z.eqb_neq q 0)) by (destruct Hq as (_ & ? & _); lia).
  unfold set_ram. wp_step. wp_step.
  destruct (vm_write_page kend s1 f1 t root q (f q (ram s1))) as [Hok2 Hp2]; [done|done|done|apply Hf|].
  pose proof (Hf q (ram s1)) as Ho2.
  assert (Hqu : q ∉ us.*1) by (apply (not_owned_us s (q :: f1) t root); [done|done|]; apply owned_cons; by left).
  assert (Hus2 : uspace (f q (ram s1)) f1 t us).
  { apply (uspace_weaken (ram s) _ (q :: f1) _ t); [done|intros x Hx; apply owned_cons; by right|].
    intros va _. by rewrite Hp2, Hp1. }
  wp_step. eapply wp_mono; [by apply (wp_mappages_user _ f1 t root us q pm)|].
  intros r s3 (f3 & t3 & Hok3 & Hx3 & Hh3 & H). cbn [ram] in *.
  assert (Hfr : forall x, (forall y, owned (q :: f1) t y -> ~ in_page y x) ->
    load8 (ram s3) x = load8 (ram s) x).
  { intros x Hx. assert (~ in_page q x) by (apply Hx, owned_cons; by left).
    rewrite (ext_frame _ _ _ _ _ _ Hx3) by (intros y Hy; apply Hx, owned_cons; by right).
    cbn [ram]. rewrite (Ho2 x) by done. by apply Ho1. }
  assert (Hown : forall y, owned (q :: f1) t y <-> y = q \/ owned f3 t3 y).
  { intros y. by rewrite owned_cons, (ext_owned _ _ _ _ _ _ Hx3). }
  assert (Hnq : ~ owned f3 t3 q) by (by rewrite (ext_owned _ _ _ _ _ _ Hx3)).
  destruct H as [[-> Hus3]|[-> Hus3]]; cbn [Z.eqb negb].
  - apply (H1 s3 f3 t3 q (ram s1)); try done.
    + split; [apply Hx3| |done|].
      * intros y. rewrite Hown. set_solver.
      * intros va Hva. by rewrite Hh3, Hp2, Hp1.
    + intros x Hx. apply Ho1. apply Hx, owned_cons. by left.
    + intros x Hx. rewrite (ext_frame _ _ _ _ _ _ Hx3); [done|].
      by apply (not_owned_frame s1 f1 t root q).
  - wp_step. eapply wp_mono; [by apply (wp_kfree_vm kend me kend_pos s3 f3 t3 root)|].
    intros _ s4 (Hok4 & Ho4 & Hp4). apply (H0 s4 (q :: f3) t3); [done| |].
    + split; [apply Hx3| | |].
      * intros y. rewrite Hown, owned_cons. set_solver.
      * intros x Hx. rewrite (Ho4 x) by (apply Hx, owned_cons; by left). by apply Hfr.
      * intros va Hva. by rewrite Hp4, Hh3, Hp2, Hp1.
    + (* the page given back is none of the process's *)
      destruct Hus3 as [A1 B1 C1 D1 E1]. split; try done.
      * intros i pa pm' Hi. rewrite Hp4. by apply A1.
      * intros i pa pm' Hi. destruct (B1 _ _ _ Hi) as (? & ? & ?). split_and!; try done.
        rewrite owned_cons. intros [->|]; [|done].
        apply Hqu, list_elem_of_lookup. exists i. by rewrite list_lookup_fmap, Hi.
      * intros va Hva. rewrite Hp4. by apply D1.
Qed.

(** ** uvmalloc *)

(** The pages [new] hold zeros. *)
Definition zeroed (m : mem) (new : list Z) : Prop :=
  forall q x, q ∈ new -> in_page q x -> load8 m x = 0.

Definition with_perm (pm : Z) (new : list Z) : list (Z * Z) := (fun q => (q, pm)) <$> new.

Lemma with_perm_fst pm new : (with_perm pm new).*1 = new.
Proof. unfold with_perm. rewrite <-list_fmap_compose. apply list_fmap_id. Qed.

Lemma zeroed_grown s s' free free' t t' root us new n' :
  zeroed (ram s) new -> vm_ok s free t root -> uspace (ram s) free t us ->
  (forall q, q ∈ new -> q ∈ us.*1) -> grown s s' free free' t t' n' -> zeroed (ram s') new.
Proof.
  intros Hz Hok Hus Hin Hg q x Hq Hx. rewrite (gr_frame _ _ _ _ _ _ _ Hg); [by apply (Hz q)|].
  apply Hin, list_elem_of_lookup in Hq as [i Hi]. rewrite list_lookup_fmap in Hi.
  destruct (us !! i) as [[pa pm]|] eqn:E; [|done]. injection Hi as ->.
  destruct (us_page _ _ _ _ Hus _ _ _ E) as (? & ? & ?). by apply (not_owned_frame s free t root q).
Qed.

Section Uvmalloc.
Context (s : kmem) (free : list Z) (t : table) (root : Z) (us : list (Z * Z)).
Context (newsz xperm : Z).
Context (Hok : vm_ok s free t root) (Hus : uspace (ram s) free t us).
Context (Hnew : 0 <= newsz <= TRAPFRAME) (Hpm : perm_ok (Z.lor (Z.lor PTE_R PTE_U) xperm)).

Let pm := Z.lor (Z.lor PTE_R PTE_U) xperm.

(** What uvmalloc() has done when it has mapped the pages [new]. *)
Record growing (new : list Z) (s' : kmem) (free' : list Z) (t' : table) : Prop := {
  gw_ok : vm_ok s' free' t' root;
  gw_grown : grown s s' free free' t t' new;
  gw_us : uspace (ram s') free' t' (us ++ with_perm pm new);
  gw_zero : zeroed (ram s') new
}.

(** Undoing: the new pages are freed again. *)
Lemma growing_undo new s' free' t' :
  growing new s' free' t' ->
  wp (uvmdealloc kend me root (Z.of_nat (length us + length new) * PGSIZE)
        (Z.of_nat (length us) * PGSIZE)) s' (fun _ s'' => exists free'',
    vm_ok s'' free'' t' root /\ grown s s'' free free'' t t' [] /\ uspace (ram s'') free'' t' us).
Proof.
  intros [H1 H2 H3 H4]. pose proof (us_len _ _ _ _ H3) as Hl. pose proof MAXVA_TRAPFRAME.
  change MAXVA with 274877906944 in *. rewrite length_app in Hl. unfold with_perm in Hl. rewrite length_fmap in Hl.
  eapply wp_mono; [apply (wp_uvmdealloc s' free' t' root (us ++ with_perm pm new)); try done|].
  - change MAXVA with 274877906944. pg_lia.
  - rewrite npages_mul by pg_lia. unfold with_perm. by rewrite length_app, length_fmap.
  - pg_lia.
  - intros r s2 (_ & Hok2 & Hus2 & Hh2 & Hf2). rewrite Z.min_r, npages_mul in * by pg_lia.
    rewrite take_app_length in Hus2. rewrite fmap_app, with_perm_fst in *.
    rewrite drop_app_length' in * by (by rewrite length_fmap).
    exists (reverse new ++ free'). split_and!; try done. destruct H2 as [A B C D]. split; [done| | |].
    + intros q. rewrite B. unfold owned. rewrite elem_of_app, elem_of_reverse. set_solver.
    + intros x Hx. rewrite Hf2; [by apply C|..]; intros q Hq; apply Hx, B; [by left|by right].
    + intros va Hva. by rewrite Hh2, D.
Qed.

Lemma uvmalloc_step new s' free' t' :
  growing new s' free' t' ->
  wp (uvmalloc_body kend me root (Z.of_nat (length us) * PGSIZE) newsz xperm
        (Z.of_nat (length us + length new) * PGSIZE)) s' (fun r s'' =>
    match r with
    | inl a => exists q free'' t'', a = Z.of_nat (length us + length (new ++ [q])) * PGSIZE /\
        Z.of_nat (length us + length new) * PGSIZE < newsz /\
        growing (new ++ [q]) s'' free'' t''
    | inr r =>
        r = 0 /\ (exists free'' t'', vm_ok s'' free'' t'' root /\ grown s s'' free free'' t t'' [] /\
          uspace (ram s'') free'' t'' us) \/
        r = newsz /\ newsz <= Z.of_nat (length us + length new) * PGSIZE /\ s'' = s'
    end).
Proof.
  intros Hg. pose proof Hg as [H1 H2 H3 H4]. unfold uvmalloc_body.
  destruct (Z.ltb_spec (Z.of_nat (length us + length new) * PGSIZE) newsz) as [Hlt|Hge].
  2: { wp_step. by right. }
  assert (Hlen : length (us ++ with_perm pm new) = (length us + length new)%nat).
  { unfold with_perm. by rewrite length_app, length_fmap. }
  rewrite <-Hlen. pose proof MAXVA_TRAPFRAME.
  apply (wp_fresh_page (fun q => memset q 0 PGSIZE) _ _ s' free' t' root (us ++ with_perm pm new) pm);
    try done.
  - rewrite Hlen. change TRAPFRAME with (67108862 * PGSIZE) in *. pg_lia.
  - intros q m. apply memset_outside. pg_lia.
  - intros s2 f2 t2 Hok2 Hg2 Hus2. rewrite Hlen. wp_step.
    eapply wp_mono; [apply (growing_undo new s2 f2 t2)|].
    + split; try done.
      * rewrite <-(app_nil_r new). by eapply grown_trans.
      * eapply (zeroed_grown s' s2 free' f2 t' t2 root); try done.
        intros q. rewrite fmap_app, with_perm_fst. set_solver.
    + intros _ s3 (f3 & Hok3 & Hg3 & Hus3). wp_step. left. eauto 10.
  - intros s2 f2 t2 q m1 Hok2 Hg2 Hus2 _ Hx2. wp_step. exists q, f2, t2. split; [|split; [by rewrite Hlen|]].
    + rewrite Hlen, length_app. cbn [length]. change TRAPFRAME with (67108862 * PGSIZE) in *.
      rewrite u64_small by pg_lia. pg_lia.
    + split; try done.
      * by eapply grown_trans.
      * unfold with_perm. by rewrite fmap_app, app_assoc.
      * intros q' x Hq' Hx. apply elem_of_app in Hq' as [Hq'|Hq'].
        -- eapply (zeroed_grown s' s2 free' f2 t' t2 root); try done.
           intros y. rewrite fmap_app, with_perm_fst. set_solver.
        -- apply list_elem_of_singleton in Hq' as ->. rewrite Hx2 by done.
           rewrite load8_memset by pg_lia. by rewrite decide_True by (unfold in_page in Hx; lia).
Qed.

End Uvmalloc.

Lemma wp_uvmalloc s free t root us oldsz newsz xperm :
  vm_ok s free t root -> uspace (ram s) free t us ->
  0 <= oldsz <= newsz -> newsz <= TRAPFRAME -> npages oldsz = length us ->
  perm_ok (Z.lor (Z.lor PTE_R PTE_U) xperm) ->
  wp (uvmalloc kend me root oldsz newsz xperm) s (fun r s' => exists free' t' new,
    vm_ok s' free' t' root /\ grown s s' free free' t t' new /\
    uspace (ram s') free' t' (us ++ with_perm (Z.lor (Z.lor PTE_R PTE_U) xperm) new) /\
    (r = newsz /\ (length us + length new)%nat = npages newsz /\ zeroed (ram s') new \/
     r = 0 /\ new = [])).
Proof.
  intros Hok Hus Hsz Hmax Hn Hpm. unfold uvmalloc. rewrite (proj2 (Z.ltb_ge _ _)) by lia.
  change TRAPFRAME with 274877898752 in *. rewrite npages_eq, Hn by lia.
  eapply (wp_loop (fun a s' => exists new free' t', a = Z.of_nat (length us + length new) * PGSIZE /\
      (new = [] \/ a < newsz + PGSIZE) /\ growing s free t root us xperm new s' free' t')
    (fun a => Z.to_nat ((newsz - a) / PGSIZE + 1))).
  - intros a s' (new & f' & t' & -> & Ha & Hg).
    eapply wp_mono; [eapply (uvmalloc_step s free t root us newsz xperm);
      first [eassumption|change TRAPFRAME with 274877898752; lia]|].
    intros [a|r] s2.
    + intros (q & f2 & t2 & -> & Hlt & Hg2). split.
      * exists (new ++ [q]), f2, t2. split_and!; try done. right. rewrite length_app. cbn [length]. pg_lia.
      * rewrite length_app. cbn [length].
        replace (newsz - Z.of_nat (length us + length new) * PGSIZE)
          with (newsz - Z.of_nat (length us + (length new + 1)) * PGSIZE + 1 * PGSIZE) by pg_lia.
        rewrite Z.div_add by pg_lia.
        assert (-1 <= (newsz - Z.of_nat (length us + (length new + 1)) * PGSIZE) / PGSIZE)
          by (apply Z.div_le_lower_bound; pg_lia). lia.
    + intros [(-> & f2 & t2 & H1 & H2 & H3)|(-> & Hge & ->)].
      * exists f2, t2, []. split_and!; try done; [by rewrite app_nil_r|by right].
      * destruct Hg as [H1 H2 H3 H4]. exists f', t', new. split_and!; try done. left. split_and!; try done.
        assert (Hl : Z.of_nat (length us + length new) * PGSIZE < newsz + PGSIZE).
        { destruct Ha as [->|]; [|done]. rewrite Nat.add_0_r in *. rewrite <-Hn, <-npages_eq by lia.
          destruct (PGROUNDUP_spec oldsz); pg_lia. }
        pose proof (npages_eq newsz) as Hnp. destruct (PGROUNDUP_spec newsz) as [_ Hb]; [pg_lia|].
        rewrite Hnp in Hb by pg_lia. pg_lia.
  - exists [], free, t. cbn. rewrite Nat.add_0_r. split_and!; try done; [by left|]. split; cbn.
    + done.
    + apply grown_refl.
    + by rewrite app_nil_r.
    + intros q x Hq. by apply not_elem_of_nil in Hq.
  - destruct (PGROUNDUP_spec oldsz) as [_ Hb]; [pg_lia|]. rewrite npages_eq, Hn in Hb by lia.
    assert (-1 <= (newsz - Z.of_nat (length us) * PGSIZE) / PGSIZE)
      by (apply Z.div_le_lower_bound; pg_lia). lia.
Qed.

(** C6: uvmalloc() is all or nothing.  Asked to grow a process from [oldsz]
    to [newsz] bytes, it never panics and either returns [newsz], with the
    process's pages unchanged followed by fresh zero-filled pages up to the
    new size, or returns 0 with the process's pages unchanged.  Either way no
    page is lost or duplicated: the pages that were free or part of the page
    table still are, except for the new ones; and no other byte of memory is
    written. *)
Theorem uvmalloc_all_or_nothing s free t root us oldsz newsz xperm :
  vm_ok s free t root -> uspace (ram s) free t us ->
  0 <= oldsz <= newsz -> newsz <= TRAPFRAME -> npages oldsz = length us ->
  perm_ok (Z.lor (Z.lor PTE_R PTE_U) xperm) ->
  wp (uvmalloc kend me root oldsz newsz xperm) s (fun r s' => exists free' t' new,
    vm_ok s' free' t' root /\ grown s s' free free' t t' new /\
    uspace (ram s') free' t' (us ++ with_perm (Z.lor (Z.lor PTE_R PTE_U) xperm) new) /\
    (r = newsz /\ (length us + length new)%nat = npages newsz /\ zeroed (ram s') new \/
     r = 0 /\ new = [])).
Proof. exact (wp_uvmalloc s free t root us oldsz newsz xperm). Qed.

(** ** uvmcreate *)

(** A new page table maps nothing. *)
Lemma wp_uvmcreate s free :
  kmem_ok kend s free ->
  wp (uvmcreate me) s (fun r s' =>
    match free with
    | [] => r = 0 /\ s' = s
    | q :: f => r = q /\ vm_ok s' f {[[] := q]} q /\ uspace (ram s') f {[[] := q]} [] /\
        (forall va, pte_at (ram s') {[[] := q]} va = 0) /\ same_outside q PGSIZE (ram s) (ram s')
    end).
Proof.
  intros Hk. unfold uvmcreate. wp_step. eapply wp_mono; [by apply (wp_kalloc kend me s free)|].
  intros r s1 H. destruct free as [|q f].
  { destruct H as [-> ->]. by wp_steps. }
  destruct H as (-> & Hk1 & Ho1 & _).
  pose proof (ok_pages _ _ _ Hk) as Hpg. apply list.Forall_cons in Hpg as [Hq _].
  pose proof (ok_nodup _ _ _ Hk) as Hn. apply list.NoDup_cons in Hn as [Hni Hn].
  rewrite (proj2 (Z.eqb_neq q 0)) by (destruct Hq as (_ & ? & _); lia).
  unfold set_ram. wp_step. wp_step. wp_step.
  pose proof (memset_outside q 0 PGSIZE (ram s1) ltac:(pg_lia)) as Ho2.
  assert (Hz : forall i, 0 <= i < 512 -> load64 (memset q 0 PGSIZE (ram s1)) (q + 8 * i) = 0).
  { intros i Hi. apply load64_memset_0; pg_lia. }
  assert (Hk2 := kmem_ok_same_outside kend s1 f q _ Hk1 Hq Hni Ho2).
  generalize dependent (memset q 0 PGSIZE (ram s1)). intros m' Ho2 Hz Hk2.
  assert (Hpte : forall va, pte_at m' {[[] := q]} va = 0).
  { intros va. unfold pte_at. by rewrite lookup_singleton_ne. }
  split_and!; [done| | |exact Hpte|].
  - split; [done| |].
    + split.
      * apply lookup_singleton_eq.
      * intros path p Hp. apply lookup_singleton_Some in Hp as [_ <-]. done.
      * intros path path' p Hp Hp'. apply lookup_singleton_Some in Hp as [<- _].
        by apply lookup_singleton_Some in Hp' as [<- _].
      * intros path p i Hp _ Hi. apply lookup_singleton_Some in Hp as [<- <-]. unfold link_ok.
        rewrite lookup_singleton_ne by done. cbn [ram]. by rewrite Hz.
      * intros path i p Hp. apply lookup_singleton_Some in Hp as [Hp _]. by destruct path.
    + intros path p Hp. apply lookup_singleton_Some in Hp as [_ <-]. done.
  - split; cbn [ram]; try done. intros va _. by rewrite Hpte.
  - cbn [ram]. by transitivity (ram s1).
Qed.

End UserMem.
