(* ===== verification/UserCopy.v ===== *)
(** * Copying address spaces and bytes (kernel/vm.c: uvmcopy, copyout, copyin)

    uvmcopy() works on two page tables that share the free list: the parent's,
    which it only reads, and the child's.  copyout() and copyin() move bytes
    between kernel memory and a process's pages. *)

From S2P Require Import Prelude Spinlock Mem CStringFacts Riscv Kalloc Vm VmFacts UserMem.
Import CString.

#[local] Opaque memset memmove load64 store64 load8 store8.

Section UserCopy.
Context (kend me : Z) (kend_pos : 0 < kend).

Notation table := (gmap (list Z) Z).
Notation vm_ok := (vm_ok kend).
Notation page_ok := (page_ok kend).
Notation uspace := (uspace kend).

(** ** Two page tables on one heap *)

(** What the routines do to one page table leaves the other alone. *)
Lemma other_table s s' free free' t root t1 t1' r1 :
  vm_ok s free t root -> vm_ok s' free' t1' r1 ->
  (forall path p, t !! path = Some p -> ~ owned free t1 p) ->
  (forall q, owned free' t1' q -> owned free t1 q) ->
  (forall q, owned free t1 q -> page_ok q) ->
  (forall x, (forall q, owned free t1 q -> ~ in_page q x) -> load8 (ram s') x = load8 (ram s) x) ->
  vm_ok s' free' t root /\ (forall va, pte_at (ram s') t va = pte_at (ram s) t va).
Proof.
  intros [Hk Hpt Hap] Hok' Hd Ho Hpg Hf.
  assert (He : forall path p i, t !! path = Some p -> 0 <= i < 512 ->
      load64 (ram s') (p + 8 * i) = load64 (ram s) (p + 8 * i)).
  { intros path p i Hp Hi. apply load64_ext. intros x Hx. apply Hf. intros q Hq.
    apply (in_page_ne kend p); [exact (pt_page _ _ _ _ Hpt _ _ Hp)|by apply Hpg| |].
    - intros ->. by apply (Hd path q).
    - unfold in_page. pg_lia. }
  split.
  - split; [apply Hok'| |].
    + destruct Hpt as [R P I L C]. split; try assumption.
      intros path p i H1 H2 H3. unfold link_ok. rewrite (He path) by done. by apply L.
    + intros path p Hp Hin. apply (Hd path p Hp), Ho. by left.
  - intros va. unfold pte_at. destruct (t !! [PX 2 va; PX 1 va]) eqn:E; [|done].
    eapply He; [done|]. apply PX_range. lia.
Qed.

Lemma perm_ok_V pm : perm_ok pm -> perm_ok (Z.lor pm PTE_V).
Proof.
  intros [Hb Hn]. split; [by apply lor_flags_bound|].
  by rewrite <-Z.lor_assoc, Z.lor_diag.
Qed.

Lemma leaf_FLAGS pa pm : 0 <= pm < 1024 -> u32 (PTE_FLAGS (leaf pa pm)) = Z.lor pm PTE_V.
Proof.
  intros Hp. unfold PTE_FLAGS. rewrite leaf_flags by lia.
  pose proof (lor_flags_bound pm PTE_V Hp ltac:(done)).
  change 1023 with (Z.ones 10). rewrite Z.land_ones, Z.mod_small, u32_small by lia. done.
Qed.

Section Uvmcopy.
Context (s : kmem) (free : list Z) (told tnew : table) (old new : Z) (us : list (Z * Z)) (sz : Z).
Context (Hold : vm_ok s free told old) (Hus : uspace (ram s) free told us).
Context (Hnew : vm_ok s free tnew new) (Hempty : uspace (ram s) free tnew []).
Context (Hdis : forall path p, told !! path = Some p -> ~ owned free tnew p).
Context (Hdis_us : forall p, p ∈ us.*1 -> ~ owned free tnew p).
Context (Hsz : 0 <= sz < MAXVA) (Hn : npages sz = length us).

(** The child's pages [cs] copy the first pages of the parent. *)
Definition copies (m : mem) (cs : list (Z * Z)) : Prop :=
  (length cs <= length us)%nat /\
  forall i q pm', cs !! i = Some (q, pm') ->
    exists pa pm, us !! i = Some (pa, pm) /\ pm' = Z.lor pm PTE_V /\
      forall off, 0 <= off < PGSIZE -> load8 m (q + off) = load8 (ram s) (pa + off).

Record copying (cs : list (Z * Z)) (s' : kmem) (free' : list Z) (t' : table) : Prop := {
  cp_ok : vm_ok s' free' t' new;
  cp_grown : grown s s' free free' tnew t' cs.*1;
  cp_us : uspace (ram s') free' t' cs;
  cp_copies : copies (ram s') cs
}.

(** The parent's side of the state. *)
Lemma copying_old s' free' t' n :
  vm_ok s' free' t' new -> grown s s' free free' tnew t' n ->
  vm_ok s' free' told old /\ (forall va, pte_at (ram s') told va = pte_at (ram s) told va) /\
  uspace (ram s') free' told us /\
  (forall pa x, pa ∈ us.*1 -> in_page pa x -> load8 (ram s') x = load8 (ram s) x).
Proof.
  intros Hok' [Gt Go Gf _].
  assert (Ho : forall q, owned free' t' q -> owned free tnew q) by (intros q Hq; apply Go; by left).
  assert (Hpg : forall q, owned free tnew q -> page_ok q) by (intros q; by eapply owned_page_ok).
  destruct (other_table s s' free free' told old tnew t' new) as [H1 H2]; try done.
  split_and!; try done.
  - destruct Hus as [A B C D E]. split; try done.
    + intros i pa pm Hi. rewrite H2. by apply A.
    + intros i pa pm Hi. destruct (B _ _ _ Hi) as (? & ? & Hno). split_and!; try done.
      intros [Hin|Hin]; [|apply Hno; by right]. apply (Hdis_us pa).
      * apply list_elem_of_lookup. exists i. by rewrite list_lookup_fmap, Hi.
      * apply Ho. by left.
    + intros va Hva. rewrite H2. by apply D.
  - intros pa x Hpa Hx. apply Gf. intros q Hq.
    apply (in_page_ne kend pa); [|by apply Hpg| |done].
    + apply list_elem_of_lookup in Hpa as [i Hi]. rewrite list_lookup_fmap in Hi.
      destruct (us !! i) as [[pa' pm]|] eqn:E; [|done]. injection Hi as ->.
      by destruct (us_page _ _ _ _ _ Hus _ _ _ E).
    + intros ->. by apply (Hdis_us q).
Qed.

(** Undoing: the child's pages are unmapped and freed. *)
Lemma copying_undo cs s' free' t' :
  copying cs s' free' t' ->
  wp (uvmunmap kend me new 0 (Z.of_nat (length cs)) true) s' (fun _ s'' => exists free'',
    vm_ok s'' free'' t' new /\ grown s s'' free free'' tnew t' [] /\ uspace (ram s'') free'' t' []).
Proof.
  intros [H1 H2 H3 H4].
  pose proof (wp_uvmunmap_tail kend me kend_pos s' free' t' new cs 0 H1 H3 ltac:(lia)) as W.
  rewrite Nat.sub_0_r in W. eapply wp_mono; [exact W|]. intros [] s2 Hu.
  destruct (unmapped_uspace kend s' free' t' new cs 0 H3 ltac:(lia) s2 Hu) as [Hok2 Hus2].
  cbn [drop take] in *. exists (reverse cs.*1 ++ free'). split_and!; try done.
  destruct H2 as [A B C D]. split; [done| | |].
  - intros q. rewrite B. unfold owned. rewrite elem_of_app, elem_of_reverse. set_solver.
  - intros x Hx. rewrite (un_frame _ _ _ _ _ _ _ _ _ Hu); [by apply C|..];
      intros q Hq; apply Hx, B; [by left|by right].
  - intros va Hva. pose proof (us_len _ _ _ _ _ H3) as Hl. pose proof MAXVA_TRAPFRAME.
    change TRAPFRAME with 274877898752 in *.
    rewrite (un_pte _ _ _ _ _ _ _ _ _ Hu), decide_False, D by (change TRAPFRAME with 274877898752; pg_lia). done.
Qed.

Lemma copies_snoc m m' cs q pa pm :
  copies m cs -> us !! length cs = Some (pa, pm) ->
  (forall q' x, q' ∈ cs.*1 -> in_page q' x -> load8 m' x = load8 m x) ->
  (forall off, 0 <= off < PGSIZE -> load8 m' (q + off) = load8 (ram s) (pa + off)) ->
  copies m' (cs ++ [(q, Z.lor pm PTE_V)]).
Proof.
  intros [Hl Hc] Hi Hsame Hq. split.
  - apply lookup_lt_Some in Hi. rewrite length_app. cbn. lia.
  - intros i q' pm' H. apply lookup_app_Some in H as [H|[Hge H]].
    + destruct (Hc _ _ _ H) as (pa' & pm1 & ? & ? & Hb). exists pa', pm1. split_and!; try done.
      intros off Hoff. rewrite (Hsame q'); [by apply Hb| |unfold in_page; lia].
      apply list_elem_of_lookup. exists i. by rewrite list_lookup_fmap, H.
    + destruct (i - length cs)%nat eqn:Ei; [|done]. injection H as [= <- <-].
      exists pa, pm. by replace i with (length cs) by lia.
Qed.

Lemma uvmcopy_step cs s' free' t' :
  copying cs s' free' t' ->
  wp (uvmcopy_body kend me old new sz (Z.of_nat (length cs) * PGSIZE)) s' (fun r s'' =>
    match r with
    | inl a => exists c free'' t'', a = Z.of_nat (length (cs ++ [c])) * PGSIZE /\
        (length cs < length us)%nat /\ copying (cs ++ [c]) s'' free'' t''
    | inr r =>
        r = -1 /\ (exists free'' t'', vm_ok s'' free'' t'' new /\ grown s s'' free free'' tnew t'' [] /\
          uspace (ram s'') free'' t'' []) \/
        r = 0 /\ length cs = length us /\ s'' = s'
    end).
Proof.
  intros Hg. pose proof Hg as [H1 H2 H3 H4]. unfold uvmcopy_body.
  destruct (copying_old s' free' t' _ H1 H2) as (Hoko & Hpte & Huso & Hbytes).
  pose proof (MAXVA_TRAPFRAME) as HMT. pose proof (us_len _ _ _ _ _ Hus) as Hlen.
  pose proof (npages_eq sz ltac:(change MAXVA with 274877906944 in *; lia)) as Hnp. rewrite Hn in Hnp.
  destruct (PGROUNDUP_spec sz) as [_ Hrd]; [change MAXVA with 274877906944 in *; pg_lia|].
  destruct (Z.ltb_spec (Z.of_nat (length cs) * PGSIZE) sz) as [Hlt|Hge].
  2: { wp_step. right. destruct H4 as [? _]. split_and!; try done. pg_lia. }
  assert (Hk : (length cs < length us)%nat) by pg_lia.
  destruct (lookup_lt_is_Some_2 us (length cs) Hk) as [[pa pm] Hi].
  destruct (us_page _ _ _ _ _ Hus _ _ _ Hi) as (Hpa & Hpm & _).
  wp_step. eapply wp_mono; [apply (wp_walk_lookup kend me kend_pos s' free' told old); [done|pg_lia]|].
  intros r s1 [-> ->]. cbn beta.
  pose proof (us_pte _ _ _ _ _ Huso _ _ _ Hi) as He.
  destruct (pte_at_valid _ _ _ _ He (leaf_valid pa pm)) as (p & Hp & Hl).
  unfold pte_addr. rewrite Hp.
  rewrite (proj2 (Z.eqb_neq _ _)) by (by eapply (pte_addr_nonzero kend)).
  wp_step. apply wp_pte_read. cbn beta. rewrite Hl.
  rewrite (proj2 (Z.eqb_neq _ _) (leaf_valid pa pm)), leaf_FLAGS, PTE2PA_leaf, Z.div_mul
    by (first [by eapply page_ok_pa|apply Hpm|pg_lia]).
  apply (wp_fresh_page kend me kend_pos (fun q => memmove q pa PGSIZE) _ _ s' free' t' new cs
    (Z.lor pm PTE_V)); try done.
  - by apply perm_ok_V.
  - pg_lia.
  - intros q m. apply memmove_outside. pg_lia.
  - intros s2 f2 t2 Hok2 Hg2 Hus2. wp_step.
    eapply wp_mono; [apply (copying_undo cs s2 f2 t2)|].
    + split; try done.
      * rewrite <-(app_nil_r cs.*1). by eapply grown_trans.
      * destruct H4 as [? Hc]. split; [done|]. intros i q pm' Hq.
        destruct (Hc _ _ _ Hq) as (pa' & pm1 & ? & ? & Hb). exists pa', pm1. split_and!; try done.
        intros off Hoff. rewrite (gr_frame _ _ _ _ _ _ _ Hg2); [by apply Hb|].
        destruct (us_page _ _ _ _ _ H3 _ _ _ Hq) as (? & ? & ?).
        apply (not_owned_frame kend s' free' t' new q); try done. unfold in_page. lia.
    + intros _ s3 (f3 & Hok3 & Hg3 & Hus3). wp_step. left. eauto 10.
  - intros s2 f2 t2 q m1 Hok2 Hg2 Hus2 Hm1 Hx2. wp_step. exists (q, Z.lor pm PTE_V), f2, t2.
    split; [|split; [done|]].
    + rewrite length_app. cbn [length]. change MAXVA with 274877906944 in *.
      rewrite u64_small by pg_lia. pg_lia.
    + split; try done.
      * rewrite fmap_app. by eapply grown_trans.
      * apply (copies_snoc (ram s') _ cs q pa pm); try done.
        -- intros q' x Hq' Hx. apply (gr_frame _ _ _ _ _ _ _ Hg2).
           apply list_elem_of_lookup in Hq' as [i Hq']. rewrite list_lookup_fmap in Hq'.
           destruct (cs !! i) as [[q1 pm1]|] eqn:Ec; [|done]. injection Hq' as ->.
           destruct (us_page _ _ _ _ _ H3 _ _ _ Ec) as (? & ? & ?).
           by apply (not_owned_frame kend s' free' t' new q').
        -- intros off Hoff. rewrite Hx2 by (unfold in_page; lia). rewrite load8_memmove by pg_lia.
           rewrite decide_True by lia. replace (pa + (q + off - q)) with (pa + off) by lia.
           assert (Hin : pa ∈ us.*1) by (apply list_elem_of_lookup; exists (length cs); by rewrite list_lookup_fmap, Hi).
           rewrite Hm1; [apply (Hbytes pa); [done|unfold in_page; lia]|].
           apply (not_owned_frame kend s' free' t' new pa); try done; [|unfold in_page; lia].
           intros Ho. apply (Hdis_us pa Hin), (gr_owned _ _ _ _ _ _ _ H2). by left.
Qed.

End Uvmcopy.

(** C21: uvmcopy() gives the child a private copy of the parent's memory, or
    nothing.  It never panics on a parent whose page table maps all of [sz]
    bytes; on success every page of the child is a fresh page with the same
    permissions and the same bytes as the parent's page at the same address;
    on failure the child maps nothing and all its pages are free again.
    Either way the parent's page table, pages and bytes are unchanged. *)
Theorem uvmcopy_copies s free told tnew old new us sz :
  vm_ok s free told old -> uspace (ram s) free told us ->
  vm_ok s free tnew new -> uspace (ram s) free tnew [] ->
  (forall path p, told !! path = Some p -> ~ owned free tnew p) ->
  (forall p, p ∈ us.*1 -> ~ owned free tnew p) ->
  0 <= sz < MAXVA -> npages sz = length us ->
  wp (uvmcopy kend me old new sz) s (fun r s' => exists free' tnew' cs,
    vm_ok s' free' told old /\ uspace (ram s') free' told us /\
    vm_ok s' free' tnew' new /\ uspace (ram s') free' tnew' cs /\
    grown s s' free free' tnew tnew' cs.*1 /\
    (forall pa x, pa ∈ us.*1 -> in_page pa x -> load8 (ram s') x = load8 (ram s) x) /\
    (r = 0 /\ length cs = length us /\
       (forall i q pm', cs !! i = Some (q, pm') -> exists pa pm,
          us !! i = Some (pa, pm) /\ pm' = Z.lor pm PTE_V /\
          forall off, 0 <= off < PGSIZE -> load8 (ram s') (q + off) = load8 (ram s) (pa + off)) \/
     r = -1 /\ cs = [])).
Proof.
  intros Hold Hus Hnew Hempty Hdis Hdis_us Hsz Hn. unfold uvmcopy.
  assert (Hfin : forall s' free' t' n, vm_ok s' free' t' new -> grown s s' free free' tnew t' n ->
    vm_ok s' free' told old /\ uspace (ram s') free' told us /\
    (forall pa x, pa ∈ us.*1 -> in_page pa x -> load8 (ram s') x = load8 (ram s) x)).
  { intros s' free' t' n H1 H2.
    destruct (copying_old s free told tnew old new us Hold Hus Hnew Hdis Hdis_us s' free' t' n H1 H2)
      as (? & ? & ? & ?). done. }
  eapply (wp_loop (fun a s' => exists cs free' t', a = Z.of_nat (length cs) * PGSIZE /\
      copying s free tnew new us cs s' free' t')
    (fun a => Z.to_nat (Z.of_nat (length us) - a / PGSIZE))).
  - intros a s' (cs & f' & t' & -> & Hg).
    eapply wp_mono; [eapply (uvmcopy_step s free told tnew old new us sz); eassumption|].
    intros [a|r] s2.
    + intros (c & f2 & t2 & -> & Hlt & Hg2). split; [by eauto|].
      rewrite length_app, !Z.div_mul by pg_lia. cbn [length]. lia.
    + intros [(-> & f2 & t2 & H1 & H2 & H3)|(-> & Hlen & ->)].
      * exists f2, t2, []. destruct (Hfin s2 f2 t2 _ H1 H2) as (? & ? & ?). split_and!; try done. by right.
      * destruct Hg as [H1 H2 H3 [H4 H5]]. exists f', t', cs.
        destruct (Hfin s' f' t' _ H1 H2) as (? & ? & ?). split_and!; try done. by left.
  - exists [], free, tnew. split; [done|]. split; try done; [exact (grown_refl kend kend_pos s free tnew)|].
    split; [cbn; lia|done].
  - unfold npages in Hn. change MAXVA with 274877906944 in *. rewrite Z.div_0_l by pg_lia.
    rewrite PGROUNDUP_eq, Z.div_mul in Hn by pg_lia.
    assert ((sz + 4095) / PGSIZE <= sz / PGSIZE + 1).
    { rewrite <-(Z.div_add sz 1 PGSIZE) by pg_lia. apply Z.div_le_mono; pg_lia. }
    assert (0 <= sz / PGSIZE) by (apply Z.div_pos; pg_lia). lia.
Qed.

(** ** Bytes of user memory *)

(** The physical address of a user virtual address; None where the page is
    not mapped for the user. *)
Definition uaddr (us : list (Z * Z)) (va : Z) : option Z :=
  match us !! Z.to_nat (va / PGSIZE) with
  | Some (pa, pm) => if Z.land pm PTE_U =? 0 then None else Some (pa + va mod PGSIZE)
  | None => None
  end.

(** Trapframe and trampoline are not accessible to the user. *)
Definition kernel_top (m : mem) (t : table) : Prop :=
  forall va, TRAPFRAME <= va < MAXVA -> Z.land (pte_at m t va) PTE_U = 0.

(** Writes that avoid the owned pages. *)
Lemma vm_unowned s free t root m' :
  vm_ok s free t root ->
  (forall q x, owned free t q -> in_page q x -> load8 m' x = load8 (ram s) x) ->
  vm_ok (mkKmem (kmem_lock s) (freelist s) m') free t root /\
  (forall va, pte_at m' t va = pte_at (ram s) t va).
Proof.
  intros [[L C N P] Hpt Hap] Hm.
  assert (He : forall path p i, t !! path = Some p -> 0 <= i < 512 ->
      load64 m' (p + 8 * i) = load64 (ram s) (p + 8 * i)).
  { intros path p i Hp Hi. apply load64_ext. intros x Hx. apply (Hm p); [right; eauto|].
    unfold in_page. pg_lia. }
  split.
  - split; [|destruct Hpt as [R P' I L' C']; split; try assumption|exact Hap].
    + split; [exact L| |exact N|exact P]. cbn [freelist ram]. eapply chain_frame; [|exact C].
      intros q Hq. apply load64_ext. intros x Hx. apply (Hm q); [by left|]. unfold in_page. pg_lia.
    + intros path p i H1 H2 H3. unfold link_ok. cbn [ram]. rewrite (He path) by done. by apply L'.
  - intros va. unfold pte_at. destruct (t !! [PX 2 va; PX 1 va]) eqn:E; [|done].
    eapply He; [done|]. apply PX_range. lia.
Qed.

Section Copy.
Context (free : list Z) (t : table) (root : Z) (us : list (Z * Z)).

(** A state in which the process has the pages [us]. *)
Record user_ok (s : kmem) : Prop := {
  u_vm : vm_ok s free t root;
  u_us : uspace (ram s) free t us;
  u_top : kernel_top (ram s) t
}.

(** [x] is a byte of the pages the virtual-memory code owns. *)
Definition owned_byte (x : Z) : Prop := exists q, owned free t q /\ in_page q x.
Definition user_byte (x : Z) : Prop := exists q, q ∈ us.*1 /\ in_page q x.

Lemma user_ok_write s m' :
  user_ok s -> (forall x, owned_byte x -> load8 m' x = load8 (ram s) x) ->
  user_ok (mkKmem (kmem_lock s) (freelist s) m').
Proof.
  intros [A B C] Hm. destruct (vm_unowned s free t root m') as [A' Hp]; [done| |].
  { intros q x Hq Hx. apply Hm. by exists q. }
  split; [done| |].
  - eapply (uspace_weaken kend); [exact B|done|]. intros va _. apply Hp.
  - intros va Hva. cbn [ram]. rewrite Hp. by apply C.
Qed.

Lemma translate_uspace s va :
  user_ok s -> 0 <= va ->
  translate (ram s) t (PGROUNDDOWN va) = default 0 (uaddr us (PGROUNDDOWN va)).
Proof.
  intros [A B C] Hva. unfold translate, uaddr. rewrite PGROUNDDOWN_eq.
  rewrite Z.div_mul, Z.mod_mul by pg_lia.
  assert (0 <= va / PGSIZE) by (apply Z.div_pos; pg_lia).
  pose proof MAXVA_TRAPFRAME as HMT. pose proof (us_len _ _ _ _ _ B) as Hlen.
  destruct (us !! Z.to_nat (va / PGSIZE)) as [[pa pm]|] eqn:E.
  - pose proof (lookup_lt_Some _ _ _ E). pose proof (us_pte _ _ _ _ _ B _ _ _ E) as He.
    rewrite Z2Nat.id in He by done. rewrite (proj2 (Z.leb_gt _ _)) by pg_lia. rewrite He.
    destruct (us_page _ _ _ _ _ B _ _ _ E) as (Hpa & [Hpm _] & _).
    rewrite (proj2 (Z.eqb_neq _ _) (leaf_valid pa pm)), leaf_flags by done.
    rewrite Z.land_lor_distr_l. change (Z.land PTE_V PTE_U) with 0. rewrite Z.lor_0_r.
    case_match; [done|]. cbn. rewrite Z.add_0_r. apply PTE2PA_leaf; [|done]. by eapply page_ok_pa.
  - apply lookup_ge_None in E. destruct (Z.leb_spec MAXVA (va / PGSIZE * PGSIZE)); [done|].
    destruct (decide (va / PGSIZE * PGSIZE < TRAPFRAME)) as [Hlt|Hge].
    + rewrite (us_rest _ _ _ _ _ B); [done|]. pg_lia.
    + rewrite (C (va / PGSIZE * PGSIZE)) by lia. by case_match.
Qed.

(** Addresses of one page. *)
Lemma uaddr_page va k a :
  uaddr us (PGROUNDDOWN va) = Some a -> 0 <= k < PGSIZE -> uaddr us (PGROUNDDOWN va + k) = Some (a + k).
Proof.
  unfold uaddr. rewrite PGROUNDDOWN_eq. intros H Hk.
  rewrite Z.add_comm, Z.div_add, Z.div_small, Z.add_0_l, Z.mod_add, Z.mod_small by pg_lia.
  rewrite Z.div_mul, Z.mod_mul in H by pg_lia.
  destruct (us !! Z.to_nat (va / PGSIZE)) as [[pa pm]|]; [|done]. case_match; [done|].
  injection H as <-. f_equal. lia.
Qed.

Lemma uaddr_page_None va k :
  uaddr us (PGROUNDDOWN va) = None -> 0 <= k < PGSIZE -> uaddr us (PGROUNDDOWN va + k) = None.
Proof.
  unfold uaddr. rewrite PGROUNDDOWN_eq. intros H Hk.
  rewrite Z.add_comm, Z.div_add, Z.div_small, Z.add_0_l by pg_lia.
  rewrite Z.div_mul in H by pg_lia.
  destruct (us !! Z.to_nat (va / PGSIZE)) as [[pa pm]|]; [|done]. by case_match.
Qed.

Lemma uaddr_user s va a :
  user_ok s -> uaddr us va = Some a ->
  exists pa pm, (pa, pm) ∈ us /\ page_ok pa /\ ~ owned free t pa /\ in_page pa a /\ a = pa + va mod PGSIZE.
Proof.
  intros [A B C] H. unfold uaddr in H.
  destruct (us !! Z.to_nat (va / PGSIZE)) as [[pa pm]|] eqn:E; [|done]. case_match; [done|].
  injection H as <-. destruct (us_page _ _ _ _ _ B _ _ _ E) as (? & ? & ?).
  exists pa, pm. split_and!; try done; [by eapply list_elem_of_lookup_2|].
  unfold in_page. pose proof (Z.mod_pos_bound va PGSIZE). pg_lia.
Qed.

(** Distinct virtual addresses are distinct bytes. *)
Lemma uaddr_inj s va va' a :
  user_ok s -> 0 <= va -> 0 <= va' -> uaddr us va = Some a -> uaddr us va' = Some a -> va = va'.
Proof.
  intros [A B C] Hv Hv' H H'. unfold uaddr in H, H'.
  destruct (us !! Z.to_nat (va / PGSIZE)) as [[pa pm]|] eqn:E; [|done].
  destruct (us !! Z.to_nat (va' / PGSIZE)) as [[pa' pm']|] eqn:E'; [|done].
  destruct (Z.land pm PTE_U =? 0); [done|]. destruct (Z.land pm' PTE_U =? 0); [done|].
  injection H as <-. injection H' as H'.
  destruct (us_page _ _ _ _ _ B _ _ _ E) as (Hp & _). destruct (us_page _ _ _ _ _ B _ _ _ E') as (Hp' & _).
  pose proof (Z.mod_pos_bound va PGSIZE). pose proof (Z.mod_pos_bound va' PGSIZE).
  destruct (decide (pa' = pa)) as [->|Hne].
  - assert (Ei : Z.to_nat (va / PGSIZE) = Z.to_nat (va' / PGSIZE)) by (by eapply us_inj).
    assert (0 <= va / PGSIZE /\ 0 <= va' / PGSIZE) by (split; apply Z.div_pos; pg_lia).
    pose proof (Z.div_mod va PGSIZE). pose proof (Z.div_mod va' PGSIZE). pg_lia.
  - destruct (page_ok_apart kend pa' pa) as [|]; try done; pg_lia.
Qed.

Lemma uaddr_not_owned s va a : user_ok s -> uaddr us va = Some a -> ~ owned_byte a.
Proof.
  intros Hu Ha (q & Hq & Hx). destruct (uaddr_user s va a Hu Ha) as (pa & pm & _ & Hpa & Hno & Hin & _).
  by apply (not_owned_frame kend s free t root pa a (u_vm _ Hu) Hpa Hno Hin q Hq).
Qed.

(** The part of the next page that copyout() and copyin() handle at once:
    [n] bytes from [va]. *)
Definition chunk (va len : Z) : Z :=
  let n := PGSIZE - (va - PGROUNDDOWN va) in if len <? n then len else n.

Lemma chunk_spec va len :
  0 <= va -> 0 < len -> 0 < chunk va len <= len /\
  (chunk va len = len \/ va + chunk va len = PGROUNDDOWN va + PGSIZE) /\
  forall j, 0 <= j < chunk va len -> 0 <= va - PGROUNDDOWN va + j < PGSIZE.
Proof.
  intros Hv Hl. pose proof (PGROUNDDOWN_spec va). unfold chunk.
  destruct (Z.ltb_spec len (PGSIZE - (va - PGROUNDDOWN va))); split_and!; lia.
Qed.

Lemma chunk_uaddr va len a j :
  0 <= va -> 0 < len -> uaddr us (PGROUNDDOWN va) = Some a -> 0 <= j < chunk va len ->
  uaddr us (va + j) = Some (a + (va - PGROUNDDOWN va) + j).
Proof.
  intros Hv Hl Ha Hj. destruct (chunk_spec va len Hv Hl) as (_ & _ & H).
  replace (va + j) with (PGROUNDDOWN va + (va - PGROUNDDOWN va + j)) by lia.
  rewrite (uaddr_page va _ a) by (done || by apply H). f_equal. lia.
Qed.

(** Iterations left. *)
Definition pages_left (va len : Z) : nat :=
  if len <=? 0 then O else Z.to_nat ((len + va mod PGSIZE - 1) / PGSIZE + 1).

Lemma pages_left_fuel va len :
  0 <= len -> (pages_left va len < Z.to_nat (len / PGSIZE + 3))%nat.
Proof.
  intros Hl. unfold pages_left. assert (0 <= len / PGSIZE) by (apply Z.div_pos; pg_lia).
  destruct (Z.leb_spec len 0); [lia|]. pose proof (Z.mod_pos_bound va PGSIZE).
  assert ((len + va mod PGSIZE - 1) / PGSIZE <= len / PGSIZE + 1).
  { rewrite <-Z.div_add by pg_lia. apply Z.div_le_mono; pg_lia. }
  assert (0 <= (len + va mod PGSIZE - 1) / PGSIZE) by (apply Z.div_pos; pg_lia). lia.
Qed.

Lemma pages_left_next va va' len :
  0 <= va -> 0 < len -> va' = PGROUNDDOWN va + PGSIZE ->
  (pages_left va' (len - chunk va len) < pages_left va len)%nat.
Proof.
  intros Hv Hl ->. unfold pages_left. rewrite (proj2 (Z.leb_gt len 0)) by lia.
  destruct (chunk_spec va len Hv Hl) as (Hc & Hc' & _).
  pose proof (Z.mod_pos_bound va PGSIZE).
  assert (0 <= (len + va mod PGSIZE - 1) / PGSIZE) by (apply Z.div_pos; pg_lia).
  destruct (Z.leb_spec (len - chunk va len) 0) as [|Hlt]; [lia|].
  rewrite PGROUNDDOWN_eq in *. destruct Hc' as [|Hc']; [lia|].
  assert ((va / PGSIZE * PGSIZE + PGSIZE) mod PGSIZE = 0) as ->.
  { replace (va / PGSIZE * PGSIZE + PGSIZE) with ((va / PGSIZE + 1) * PGSIZE) by lia. apply Z.mod_mul. pg_lia. }
  replace (len + va mod PGSIZE - 1) with (len - chunk va len + 0 - 1 + 1 * PGSIZE)
    by (pose proof (Z.div_mod va PGSIZE); pg_lia).
  rewrite Z.div_add by pg_lia.
  assert (0 <= (len - chunk va len + 0 - 1) / PGSIZE) by (apply Z.div_pos; pg_lia). lia.
Qed.

(** ** copyout *)

(** [d] bytes have been copied from kernel address [src] of [s] to user
    address [dstva]. *)
Record copied_out (s : kmem) (dstva src d : Z) (s' : kmem) : Prop := {
  co_ok : user_ok s';
  co_bytes : forall k, 0 <= k < d -> exists a,
    uaddr us (dstva + k) = Some a /\ load8 (ram s') a = load8 (ram s) (src + k);
  co_frame : forall x, (forall k, 0 <= k < d -> uaddr us (dstva + k) <> Some x) ->
    load8 (ram s') x = load8 (ram s) x
}.

Lemma wp_walkaddr_user s va :
  user_ok s -> 0 <= va ->
  wp (walkaddr me root (PGROUNDDOWN va)) s (fun r s' =>
    s' = s /\ ((r = 0 /\ uaddr us (PGROUNDDOWN va) = None) \/
              (r <> 0 /\ uaddr us (PGROUNDDOWN va) = Some r))).
Proof.
  intros Hu Hv. assert (0 <= PGROUNDDOWN va)
    by (rewrite PGROUNDDOWN_eq; apply Z.mul_nonneg_nonneg; [apply Z.div_pos|]; pg_lia).
  eapply wp_mono; [by apply (wp_walkaddr kend me kend_pos s free t root); [apply Hu|]|].
  intros r s' [-> ->]. split; [done|]. rewrite translate_uspace by done.
  destruct (uaddr us (PGROUNDDOWN va)) as [a|] eqn:E; [right|by left]. split; [|done].
  destruct (uaddr_user s _ _ Hu E) as (pa & pm & _ & (_ & ? & _) & _ & Hin & _).
  unfold in_page in Hin. cbn. lia.
Qed.

Lemma copied_out_step s s' dstva src d len a :
  copied_out s dstva src d s' -> 0 <= dstva -> 0 <= d -> 0 < len ->
  (forall k, 0 <= k < d + len -> ~ user_byte (src + k)) ->
  uaddr us (PGROUNDDOWN (dstva + d)) = Some a ->
  let n := chunk (dstva + d) len in
  copied_out s dstva src (d + n)
    (mkKmem (kmem_lock s') (freelist s')
      (memmove (a + (dstva + d - PGROUNDDOWN (dstva + d))) (src + d) n (ram s'))).
Proof.
  intros [Hu Hb Hf] Hv Hd Hl Hsrc Ha n.
  destruct (chunk_spec (dstva + d) len ltac:(lia) Hl) as (Hn & _ & Hoff).
  assert (Hch : forall j, 0 <= j < n -> uaddr us (dstva + d + j) =
     Some (a + (dstva + d - PGROUNDDOWN (dstva + d)) + j)).
  { intros j Hj. by apply (chunk_uaddr _ len); [lia|..]. }
  set (a0 := a + (dstva + d - PGROUNDDOWN (dstva + d))) in *.
  pose proof (load8_memmove a0 (src + d) n (ram s')) as Hm.
  generalize dependent (memmove a0 (src + d) n (ram s')). intros m' Hm.
  assert (Hsame : forall x, ~ user_byte x -> load8 (ram s') x = load8 (ram s) x).
  { intros x Hnu. apply Hf. intros k Hk Hx. apply Hnu.
    destruct (uaddr_user s' _ _ Hu Hx) as (pa & pm & Hin & _ & _ & Hp & _).
    exists pa. split; [|done]. apply list_elem_of_fmap. by exists (pa, pm). }
  split.
  - apply user_ok_write; [done|]. intros x Hx. rewrite Hm by lia. case_decide as Hr; [|done].
    exfalso. apply (uaddr_not_owned s' (dstva + d + (x - a0)) x); [done| |done].
    rewrite Hch by lia. f_equal. lia.
  - intros k Hk. cbn [ram]. destruct (decide (k < d)) as [Hlt|Hge].
    + destruct (Hb k ltac:(lia)) as (b & Hb1 & Hb2). exists b. split; [done|].
      rewrite Hm by lia. rewrite decide_False; [done|]. intros Hr.
      assert (dstva + k = dstva + d + (b - a0)); [|lia].
      eapply (uaddr_inj s'); try done; try lia. rewrite Hch by lia. f_equal. lia.
    + exists (a0 + (k - d)). rewrite <-Hch by lia. split; [f_equal; lia|].
      rewrite Hm by lia. rewrite decide_True by lia.
      replace (src + d + (a0 + (k - d) - a0)) with (src + k) by lia.
      apply Hsame, Hsrc. lia.
  - intros x Hx. cbn [ram]. rewrite Hm by lia. rewrite decide_False.
    + apply Hf. intros k Hk. apply Hx. lia.
    + intros Hr. apply (Hx (d + (x - a0))); [lia|].
      rewrite Z.add_assoc, Hch by lia. f_equal. lia.
Qed.

(** C22: copyout() writes exactly the requested user bytes.  It returns 0
    when every address of the range is mapped for the user, and then the
    user's bytes are the kernel's and nothing else changed; otherwise it
    returns -1, having written only a prefix of the range. *)
Theorem copyout_correct s dstva src len :
  user_ok s -> 0 <= dstva -> 0 <= len -> dstva + len < 2 ^ 64 - PGSIZE ->
  (forall k, 0 <= k < len -> ~ user_byte (src + k)) ->
  wp (copyout me root dstva src len) s (fun r s' =>
    (r = 0 /\ copied_out s dstva src len s') \/
    (r = -1 /\ exists d, 0 <= d < len /\ uaddr us (dstva + d) = None /\ copied_out s dstva src d s')).
Proof.
  intros Hu Hv Hl Hmax Hsrc. unfold copyout.
  eapply (wp_loop (fun v s' => exists d, 0 <= d <= len /\ v.2 = len - d /\ v.1.2 = src + d /\
      (v.2 = 0 \/ v.1.1 = dstva + d) /\ copied_out s dstva src d s')
    (fun v => pages_left v.1.1 v.2)).
  - intros [[va sr] ln] s' (d & Hd & Hln & Hsr & Hva & Hco). cbn in Hln, Hsr, Hva. subst sr.
    unfold copyout_body. destruct (Z.ltb_spec 0 ln) as [Hpos|].
    2: { wp_step. left. replace len with d by lia. done. }
    destruct Hva as [|Hva]; [lia|]. subst va.
    wp_step. eapply wp_mono; [apply (wp_walkaddr_user s' (dstva + d)); [apply Hco|lia]|].
    intros a s1 [-> [[-> Hnone]|[Hne Ha]]]; cbn beta.
    + wp_steps. right. split; [done|]. exists d. split_and!; try done; [lia..|].
      replace (dstva + d) with (PGROUNDDOWN (dstva + d) + (dstva + d - PGROUNDDOWN (dstva + d))) by lia.
      apply uaddr_page_None; [done|]. pose proof (PGROUNDDOWN_spec (dstva + d)). pg_lia.
    + rewrite (proj2 (Z.eqb_neq _ _) Hne). fold (chunk (dstva + d) ln).
      unfold set_ram. wp_step. wp_step. wp_step.
      destruct (chunk_spec (dstva + d) ln ltac:(lia) Hpos) as (Hc & Hc' & _).
      pose proof (PGROUNDDOWN_spec (dstva + d)) as Hrd.
      assert (0 <= PGROUNDDOWN (dstva + d))
        by (rewrite PGROUNDDOWN_eq; apply Z.mul_nonneg_nonneg; [apply Z.div_pos|]; pg_lia).
      rewrite u64_small by pg_lia. split.
      * exists (d + chunk (dstva + d) ln). cbn [fst snd]. split_and!; try lia.
        apply copied_out_step; try done; [lia|]. intros k Hk. apply Hsrc. lia.
      * cbn [fst snd]. apply pages_left_next; lia.
  - exists 0. cbn. split_and!; try lia. split; [done|intros; lia|done].
  - cbn. by apply pages_left_fuel.
Qed.

(** ** copyin *)

Record copied_in (s : kmem) (dst srcva d : Z) (s' : kmem) : Prop := {
  ci_ok : user_ok s';
  ci_bytes : forall k, 0 <= k < d -> exists a,
    uaddr us (srcva + k) = Some a /\ load8 (ram s') (dst + k) = load8 (ram s) a;
  ci_frame : same_outside dst d (ram s) (ram s')
}.

Lemma copied_in_step s s' dst srcva d len a :
  copied_in s dst srcva d s' -> 0 <= srcva -> 0 <= d -> 0 < len ->
  (forall k, 0 <= k < d + len -> ~ user_byte (dst + k) /\ ~ owned_byte (dst + k)) ->
  uaddr us (PGROUNDDOWN (srcva + d)) = Some a ->
  let n := chunk (srcva + d) len in
  copied_in s dst srcva (d + n)
    (mkKmem (kmem_lock s') (freelist s')
      (memmove (dst + d) (a + (srcva + d - PGROUNDDOWN (srcva + d))) n (ram s'))).
Proof.
  intros [Hu Hb Hf] Hv Hd Hl Hdst Ha n.
  destruct (chunk_spec (srcva + d) len ltac:(lia) Hl) as (Hn & _ & Hoff).
  assert (Hch : forall j, 0 <= j < n -> uaddr us (srcva + d + j) =
     Some (a + (srcva + d - PGROUNDDOWN (srcva + d)) + j)).
  { intros j Hj. by apply (chunk_uaddr _ len); [lia|..]. }
  set (a0 := a + (srcva + d - PGROUNDDOWN (srcva + d))) in *.
  pose proof (load8_memmove (dst + d) a0 n (ram s')) as Hm.
  generalize dependent (memmove (dst + d) a0 n (ram s')). intros m' Hm.
  split.
  - apply user_ok_write; [done|]. intros x Hx. rewrite Hm by lia. case_decide as Hr; [|done].
    exfalso. apply (proj2 (Hdst (x - dst) ltac:(lia))). by replace (dst + (x - dst)) with x by lia.
  - intros k Hk. cbn [ram]. destruct (decide (k < d)) as [Hlt|Hge].
    + destruct (Hb k ltac:(lia)) as (b & Hb1 & Hb2). exists b. split; [done|].
      rewrite Hm by lia. by rewrite decide_False by lia.
    + exists (a0 + (k - d)). rewrite <-Hch by lia. split; [f_equal; lia|].
      rewrite Hm by lia. rewrite decide_True by lia.
      replace (a0 + (dst + k - (dst + d))) with (a0 + (k - d)) by lia.
      apply Hf. intros Hr. apply (proj1 (Hdst (a0 + (k - d) - dst) ltac:(lia))).
      destruct (uaddr_user s' _ _ Hu (Hch (k - d) ltac:(lia))) as (pa & pm & Hin & _ & _ & Hp & _).
      exists pa. split; [apply list_elem_of_fmap; by exists (pa, pm)|].
      by replace (dst + (a0 + (k - d) - dst)) with (a0 + (k - d)) by lia.
  - intros x Hx. cbn [ram]. rewrite Hm by lia. rewrite decide_False by lia. apply Hf. lia.
Qed.

Lemma wp_copyin s dst srcva len :
  user_ok s -> 0 <= srcva -> 0 <= len -> srcva + len < 2 ^ 64 - PGSIZE ->
  (forall k, 0 <= k < len -> ~ user_byte (dst + k) /\ ~ owned_byte (dst + k)) ->
  wp (copyin me root dst srcva len) s (fun r s' =>
    (r = 0 /\ copied_in s dst srcva len s') \/
    (r = -1 /\ exists d, 0 <= d < len /\ uaddr us (srcva + d) = None /\ copied_in s dst srcva d s')).
Proof.
  intros Hu Hv Hl Hmax Hdst. unfold copyin.
  eapply (wp_loop (fun v s' => exists d, 0 <= d <= len /\ v.2 = len - d /\ v.1.1 = dst + d /\
      (v.2 = 0 \/ v.1.2 = srcva + d) /\ copied_in s dst srcva d s')
    (fun v => pages_left v.1.2 v.2)).
  - intros [[ds va] ln] s' (d & Hd & Hln & Hsr & Hva & Hco). cbn in Hln, Hsr, Hva. subst ds.
    unfold copyin_body. destruct (Z.ltb_spec 0 ln) as [Hpos|].
    2: { wp_step. left. replace len with d by lia. done. }
    destruct Hva as [|Hva]; [lia|]. subst va.
    wp_step. eapply wp_mono; [apply (wp_walkaddr_user s' (srcva + d)); [apply Hco|lia]|].
    intros a s1 [-> [[-> Hnone]|[Hne Ha]]]; cbn beta.
    + wp_steps. right. split; [done|]. exists d. split_and!; try done; [lia..|].
      replace (srcva + d) with (PGROUNDDOWN (srcva + d) + (srcva + d - PGROUNDDOWN (srcva + d))) by lia.
      apply uaddr_page_None; [done|]. pose proof (PGROUNDDOWN_spec (srcva + d)). pg_lia.
    + rewrite (proj2 (Z.eqb_neq _ _) Hne). fold (chunk (srcva + d) ln).
      unfold set_ram. wp_step. wp_step. wp_step.
      destruct (chunk_spec (srcva + d) ln ltac:(lia) Hpos) as (Hc & Hc' & _).
      pose proof (PGROUNDDOWN_spec (srcva + d)) as Hrd.
      assert (0 <= PGROUNDDOWN (srcva + d))
        by (rewrite PGROUNDDOWN_eq; apply Z.mul_nonneg_nonneg; [apply Z.div_pos|]; pg_lia).
      rewrite u64_small by pg_lia. split.
      * exists (d + chunk (srcva + d) ln). cbn [fst snd]. split_and!; try lia.
        apply copied_in_step; try done; [lia|]. intros k Hk. apply Hdst. lia.
      * cbn [fst snd]. apply pages_left_next; lia.
  - exists 0. cbn. split_and!; try lia. split; [done|intros; lia|done].
  - cbn. by apply pages_left_fuel.
Qed.

(** copyin() reads exactly the requested user bytes: it returns 0 when
    the whole range is mapped for the user, and the kernel buffer then holds
    the user's bytes; otherwise -1.  No byte outside the buffer changes. *)
Theorem copyin_correct s dst srcva len :
  user_ok s -> 0 <= srcva -> 0 <= len -> srcva + len < 2 ^ 64 - PGSIZE ->
  (forall k, 0 <= k < len -> ~ user_byte (dst + k) /\ ~ owned_byte (dst + k)) ->
  wp (copyin me root dst srcva len) s (fun r s' =>
    user_ok s' /\ same_outside dst len (ram s) (ram s') /\
    (r = 0 /\ (forall k, 0 <= k < len -> exists a,
       uaddr us (srcva + k) = Some a /\ load8 (ram s') (dst + k) = load8 (ram s) a) \/
     r = -1 /\ exists d, 0 <= d < len /\ uaddr us (srcva + d) = None)).
Proof.
  intros Hu Hv Hl Hmax Hdst. eapply wp_mono; [by apply wp_copyin|].
  intros r s' [[-> [A B C]]|(-> & d & Hd & Hn & [A B C])].
  - split_and!; try done. by left.
  - split_and!; try done; [|right; eauto].
    eapply same_outside_weaken; [exact C|lia..].
Qed.

End Copy.
End UserCopy.
