(* ===== verification/VmDemo.v ===== *)
(** * A running example for the virtual-memory theorems

    A machine with sixteen free pages boots: kinit(), a page table for a
    parent process grown to one page, a second, empty page table.  The
    theorems of VmFacts.v, UserMem.v and UserCopy.v are applied to the state
    this leaves behind. *)

From S2P Require Import Prelude Spinlock Mem CStringFacts Riscv Kalloc Vm VmFacts UserMem UserCopy.

Definition vm_kend : Z := PHYSTOP - 16 * PGSIZE.

Definition demo_parent : M kmem (Z * Z) :=
  kinit vm_kend 0 ;;
  let! root := uvmcreate 0 in
  let! r := uvmalloc vm_kend 0 root 0 PGSIZE PTE_W in
  ret (root, r).

(** [m] returns from [s] and its result passes the test [P]. *)
Definition returns {S A} (m : M S A) (s : S) (P : A -> bool) : bool :=
  match m s with Ok a _ => P a | _ => false end.

Lemma returns_bind {S A B} (m : M S A) (k : A -> M S B) s P :
  returns (bind m k) s P = true -> exists a s', m s = Ok a s' /\ returns (k a) s' P = true.
Proof. unfold returns, bind. destruct (m s); naive_solver. Qed.

Lemma returns_ok {S A} (m : M S A) s P :
  returns m s P = true -> exists a s', m s = Ok a s' /\ P a = true.
Proof. unfold returns. destruct (m s); naive_solver. Qed.

Lemma demo_boot_runs :
  returns (let! p := demo_parent in let! new := uvmcreate 0 in ret (p, new)) demo_kmem
    (fun '(root, r, new) => negb (root =? 0) && (r =? PGSIZE) && negb (new =? 0)) = true.
Proof. vm_compute. reflexivity. Qed.

Lemma vm_kend_pos : 0 < vm_kend.
Proof. reflexivity. Qed.

Lemma demo_perm : perm_ok (Z.lor (Z.lor PTE_R PTE_U) PTE_W).
Proof. split; [vm_compute; split; congruence|vm_compute; congruence]. Qed.

(** A parent with one page and an empty child, and what is known of them. *)
Record family (s : kmem) (free : list Z) (told tnew : gmap (list Z) Z) (old new : Z)
    (us : list (Z * Z)) : Prop := {
  fam_old : vm_ok vm_kend s free told old;
  fam_us : uspace vm_kend (ram s) free told us;
  fam_new : vm_ok vm_kend s free tnew new;
  fam_empty : uspace vm_kend (ram s) free tnew [];
  fam_top : kernel_top (ram s) told;
  fam_dis : forall path p, told !! path = Some p -> ~ owned free tnew p;
  fam_dis_us : forall p, p ∈ us.*1 -> ~ owned free tnew p;
  fam_one : exists pa, us = [(pa, Z.lor (Z.lor PTE_R PTE_U) PTE_W)]
}.

(** The pages of [us] survive the creation of another page table. *)
Lemma second_table s free t root us q f s' :
  vm_ok vm_kend s free t root -> uspace vm_kend (ram s) free t us -> kernel_top (ram s) t ->
  free = q :: f -> vm_ok vm_kend s' f {[[] := q]} q -> same_outside q PGSIZE (ram s) (ram s') ->
  vm_ok vm_kend s' f t root /\ uspace vm_kend (ram s') f t us /\ kernel_top (ram s') t /\
  (forall path p, t !! path = Some p -> ~ owned f {[[] := q]} p) /\
  (forall p, p ∈ us.*1 -> ~ owned f {[[] := q]} p).
Proof.
  intros Hok Hus Htop -> Hok' Ho.
  assert (Hown : forall p, owned f {[[] := q]} p -> p ∈ q :: f).
  { intros p [Hp|[path Hp]]; [set_solver|]. apply lookup_singleton_Some in Hp as [_ <-]. set_solver. }
  assert (Hf : forall p, owned (q :: f) ∅ p <-> p ∈ q :: f).
  { intros p. split; [|by left]. intros [?|[? Hp]]; [done|]. by rewrite lookup_empty in Hp. }
  assert (Hpg : forall p, p ∈ q :: f -> page_ok vm_kend p).
  { intros p Hp. eapply owned_page_ok; [exact Hok|]. by left. }
  destruct (other_table vm_kend s s' (q :: f) f t root ∅ {[[] := q]} q) as [H1 H2]; try done.
  - intros path p Hp. rewrite Hf. by apply (vm_apart _ _ _ _ _ Hok path).
  - intros p Hp. by apply Hf, Hown.
  - intros p Hp. by apply Hpg, Hf.
  - intros x Hx. apply (Ho x). intros Hin. apply (Hx q); [apply Hf; set_solver|done].
  - split_and!; try done.
    + eapply (uspace_weaken vm_kend); [exact Hus| |intros va _; apply H2].
      intros p [Hp|Hp]; [left; set_solver|by right].
    + intros va Hva. rewrite H2. by apply Htop.
    + intros path p Hp Hin. apply (vm_apart _ _ _ _ _ Hok path p Hp). by apply Hown.
    + intros p Hp Hin. apply (not_owned_us vm_kend s (q :: f) t root us p); try done.
      left. by apply Hown.
Qed.

(** The parent's page table after boot. *)
Lemma demo_parent_spec :
  wp demo_parent demo_kmem (fun '(old, r) s => old <> 0 -> r = PGSIZE ->
    exists free told us, vm_ok vm_kend s free told old /\ uspace vm_kend (ram s) free told us /\
      kernel_top (ram s) told /\ exists pa, us = [(pa, Z.lor (Z.lor PTE_R PTE_U) PTE_W)]).
Proof.
  pose proof vm_kend_pos as Hk. unfold demo_parent.
  wp_step. eapply wp_mono; [apply (wp_kinit vm_kend 0 Hk); [vm_compute; congruence|reflexivity]|].
  intros _ s0 (pages & Hok0 & Hin). wp_step.
  eapply wp_mono; [by apply (wp_uvmcreate vm_kend 0 Hk s0 pages)|].
  intros old s1 H1. destruct pages as [|q f].
  { exfalso. apply (not_elem_of_nil (PHYSTOP - PGSIZE)), Hin.
    split; [reflexivity|split; vm_compute; congruence]. }
  destruct H1 as (-> & Hok1 & Hus1 & Hp1 & _). wp_step.
  eapply wp_mono; [apply (wp_uvmalloc vm_kend 0 Hk s1 f {[[] := q]} q [] 0 PGSIZE PTE_W);
    first [done|apply demo_perm|vm_compute; congruence|vm_compute; split; congruence]|].
  - intros r s2 (f2 & t2 & new & Hok2 & Hg & Hus2 & Hr). wp_step. intros _ ->.
    destruct Hr as [(_ & Hl & _)|[Hr _]]; [|done].
    assert (length new = 1%nat) as Hl1 by (rewrite <-(Nat.add_0_l (length new)); exact Hl).
    destruct new as [|pa [|? ?]]; try done.
    exists f2, t2, [(pa, Z.lor (Z.lor PTE_R PTE_U) PTE_W)]. split_and!; [done|exact Hus2| |by eauto].
    intros va Hva. by rewrite (gr_high _ _ _ _ _ _ _ Hg), Hp1 by done.
Qed.

Lemma demo_family : exists s free told tnew old new us, family s free told tnew old new us.
Proof.
  pose proof vm_kend_pos as Hk.
  destruct (returns_bind _ _ _ _ demo_boot_runs) as ([old r] & s1 & E1 & Hr).
  destruct (returns_bind _ _ _ _ Hr) as (new & s2 & E2 & Hr').
  destruct (returns_ok _ _ _ Hr') as (x & s3 & E3 & Hx). injection E3 as <- <-.
  destruct (proj1 (wp_ok _ _ _) demo_parent_spec) as (p & s1' & E1' & H1).
  rewrite E1 in E1'. injection E1' as <- <-. clear E1. bool_simpl. subst r.
  destruct H1 as (free & told & us & Hok & Hus & Htop & Hone); [done..|].
  pose proof (wp_uvmcreate vm_kend 0 Hk s1 free (vm_kmem _ _ _ _ _ Hok)) as W.
  unfold wp in W. rewrite E2 in W. destruct free as [|q f]; [by destruct W as [-> _]|].
  destruct W as (-> & Hok2 & Hus2 & _ & Ho).
  destruct (second_table s1 (q :: f) told old us q f s2) as (A & B & C & D & E); try done.
  exists s2, f, told, {[[] := q]}, old, q, us. by split.
Qed.

(** Mapping a device page into the empty page table. *)
Lemma mappages_translates_witness :
  exists s free t root, vm_ok vm_kend s free t root /\
    wp (mappages 0 root 0 PGSIZE UART0 (Z.lor PTE_R PTE_U)) s (fun r s' => exists free' t',
      vm_ok vm_kend s' free' t' root /\ extends s s' free free' t t' /\
      (r = 0 /\ (forall va', 0 <= va' < MAXVA ->
         wp (walkaddr 0 root va') s' (fun pa' _ =>
           pa' = if decide (first_page 0 <= PGROUNDDOWN va' <= last_page 0 PGSIZE)
                 then UART0 + (PGROUNDDOWN va' - first_page 0)
                 else translate (ram s) t va')) \/
       r = -1 /\ free' = [])).
Proof.
  destruct demo_family as (s & free & told & tnew & old & new & us & F).
  exists s, free, tnew, new. split; [apply F|].
  apply (mappages_translates vm_kend 0 vm_kend_pos s free tnew new); try done.
  - apply F.
  - intros va' Hv Hr. apply (us_rest _ _ _ _ _ (fam_empty _ _ _ _ _ _ _ F)).
    change (first_page 0) with 0 in Hr. change (last_page 0 PGSIZE) with 0 in Hr.
    pose proof (PGROUNDDOWN_spec va'). change TRAPFRAME with 274877898752.
    change (Z.of_nat (length (@nil (Z * Z)))) with 0. pg_lia.
Defined.

(** Growing the empty process to three and a half pages. *)
Lemma uvmalloc_all_or_nothing_witness :
  exists s free t root, vm_ok vm_kend s free t root /\
    wp (uvmalloc vm_kend 0 root 0 14336 PTE_W) s (fun r s' => exists free' t' new,
      vm_ok vm_kend s' free' t' root /\ grown s s' free free' t t' new /\
      uspace vm_kend (ram s') free' t' ([] ++ with_perm (Z.lor (Z.lor PTE_R PTE_U) PTE_W) new) /\
      (r = 14336 /\ (0 + length new)%nat = npages 14336 /\ zeroed (ram s') new \/ r = 0 /\ new = [])).
Proof.
  destruct demo_family as (s & free & told & tnew & old & new & us & F).
  exists s, free, tnew, new. split; [apply F|].
  apply (uvmalloc_all_or_nothing vm_kend 0 vm_kend_pos s free tnew new [] 0 14336 PTE_W);
    first [apply F|apply demo_perm|vm_compute; congruence|vm_compute; split; congruence].
Defined.

(** Copying the parent's one page into the child. *)
Lemma uvmcopy_copies_witness :
  exists s free told tnew old new us, length us = 1%nat /\
    wp (uvmcopy vm_kend 0 old new PGSIZE) s (fun r s' => exists free' tnew' cs,
      vm_ok vm_kend s' free' told old /\ uspace vm_kend (ram s') free' told us /\
      vm_ok vm_kend s' free' tnew' new /\ uspace vm_kend (ram s') free' tnew' cs /\
      grown s s' free free' tnew tnew' cs.*1 /\
      (forall pa x, pa ∈ us.*1 -> in_page pa x -> load8 (ram s') x = load8 (ram s) x) /\
      (r = 0 /\ length cs = length us /\
         (forall i q pm', cs !! i = Some (q, pm') -> exists pa pm,
            us !! i = Some (pa, pm) /\ pm' = Z.lor pm PTE_V /\
            forall off, 0 <= off < PGSIZE -> load8 (ram s') (q + off) = load8 (ram s) (pa + off)) \/
       r = -1 /\ cs = [])).
Proof.
  destruct demo_family as (s & free & told & tnew & old & new & us & F).
  exists s, free, told, tnew, old, new, us. destruct (fam_one _ _ _ _ _ _ _ F) as [pa Hus].
  split; [by rewrite Hus|].
  apply (uvmcopy_copies vm_kend 0 vm_kend_pos s free told tnew old new us PGSIZE);
    first [apply F|by rewrite Hus|vm_compute; split; congruence].
Defined.

Lemma demo_user : exists s free t root us,
  user_ok vm_kend free t root us s /\ exists pa, us = [(pa, Z.lor (Z.lor PTE_R PTE_U) PTE_W)].
Proof.
  destruct demo_family as (s & free & told & tnew & old & new & us & F).
  exists s, free, told, old, us. split; [split; apply F|apply F].
Qed.

(** Kernel addresses below the free pages are none of the process's. *)
Lemma low_not_user free t root us s x :
  user_ok vm_kend free t root us s -> x < vm_kend -> ~ user_byte us x /\ ~ owned_byte free t x.
Proof.
  intros [A B C] Hx. split.
  - intros (q & Hq & Hin). apply list_elem_of_lookup in Hq as [i Hi]. rewrite list_lookup_fmap in Hi.
    destruct (us !! i) as [[pa pm]|] eqn:E; [|done]. injection Hi as ->.
    destruct (us_page _ _ _ _ _ B _ _ _ E) as ((_ & ? & _) & _). unfold in_page in Hin. lia.
  - intros (q & Hq & Hin). destruct (owned_page_ok vm_kend s free t root q A Hq) as (_ & ? & _).
    unfold in_page in Hin. lia.
Qed.

(** A hundred bytes to the middle of the page; and a range that leaves it. *)
Lemma copyout_correct_witness :
  exists s free t root us, user_ok vm_kend free t root us s /\
    wp (copyout 0 root 4090 KERNBASE 100) s (fun r s' =>
      (r = 0 /\ copied_out vm_kend free t root us s 4090 KERNBASE 100 s') \/
      (r = -1 /\ exists d, 0 <= d < 100 /\ uaddr us (4090 + d) = None /\
         copied_out vm_kend free t root us s 4090 KERNBASE d s')).
Proof.
  destruct demo_user as (s & free & t & root & us & Hu & _).
  exists s, free, t, root, us. split; [exact Hu|].
  apply (copyout_correct vm_kend 0 vm_kend_pos free t root us s 4090 KERNBASE 100); try done.
  intros k Hk. eapply low_not_user; [exact Hu|].
  unfold vm_kend, PHYSTOP, KERNBASE, PGSIZE. lia.
Defined.

Lemma copyin_correct_witness :
  exists s free t root us, user_ok vm_kend free t root us s /\
    wp (copyin 0 root KERNBASE 16 100) s (fun r s' =>
      user_ok vm_kend free t root us s' /\ same_outside KERNBASE 100 (ram s) (ram s') /\
      (r = 0 /\ (forall k, 0 <= k < 100 -> exists a,
         uaddr us (16 + k) = Some a /\ load8 (ram s') (KERNBASE + k) = load8 (ram s) a) \/
       r = -1 /\ exists d, 0 <= d < 100 /\ uaddr us (16 + d) = None)).
Proof.
  destruct demo_user as (s & free & t & root & us & Hu & _).
  exists s, free, t, root, us. split; [exact Hu|].
  apply (copyin_correct vm_kend 0 vm_kend_pos free t root us s KERNBASE 16 100); try done.
  intros k Hk. eapply low_not_user; [exact Hu|].
  unfold vm_kend, PHYSTOP, KERNBASE, PGSIZE. lia.
Defined.
