(* ===== verification/BufCache.v ===== *)
(** * What the buffer cache promises

    [BufOps] are the routines of kernel/bio.c as their callers use them, on
    some state [S]; a buffer is known by its address [b].  [bview] is the
    abstract state a caller reasons about, and [BufCache] the contract: which
    calls are allowed and what they do to the view.  BioFacts.v proves the
    contract of the code of bio.c; Log.v relies on nothing else. *)

From S2P Require Import Prelude Riscv.

Definition BSIZE : Z := 1024.

Class BufOps (S : Type) := {
  bread : Z -> Z -> M S Z;
  bwrite : Z -> M S unit;
  brelse : Z -> M S unit;
  bpin : Z -> M S unit;
  bunpin : Z -> M S unit;
  (** Reading and replacing b->data, reading b->blockno. *)
  bdata : Z -> M S (list Z);
  set_bdata : Z -> list Z -> M S unit;
  bblockno : Z -> M S Z
}.

(** [slots]: the blocks in use, with their buffer and reference count;
    [held]: the blocks locked by the running process; [contents]: what a
    reader of the block sees; [dcontents]: what is on the disk; [history]: all
    disk writes, newest first. *)
Record bview := mkBview {
  slots : gmap Z (Z * Z);
  held : gset Z;
  contents : Z -> list Z;
  dcontents : Z -> list Z;
  history : list (Z * list Z)
}.

Definition fupd {A} (k : Z) (a : A) (f : Z -> A) : Z -> A :=
  fun x => if decide (x = k) then a else f x.

Lemma fupd_eq {A} k (a : A) f : fupd k a f k = a.
Proof. unfold fupd. by rewrite decide_True. Qed.
Lemma fupd_ne {A} k (a : A) f x : x <> k -> fupd k a f x = f x.
Proof. intros. unfold fupd. by rewrite decide_False. Qed.

(** The effect of the operations on the view. *)
Definition v_take (blk b n : Z) (v : bview) : bview :=
  mkBview (<[blk := (b, n)]> (slots v)) ({[blk]} ∪ held v) (contents v) (dcontents v) (history v).
Definition v_count (blk b n : Z) (v : bview) : bview :=
  mkBview (<[blk := (b, n)]> (slots v)) (held v) (contents v) (dcontents v) (history v).
Definition v_set (blk : Z) (d : list Z) (v : bview) : bview :=
  mkBview (slots v) (held v) (fupd blk d (contents v)) (dcontents v) (history v).
Definition v_write (blk : Z) (v : bview) : bview :=
  mkBview (slots v) (held v) (contents v) (fupd blk (contents v blk) (dcontents v))
    ((blk, contents v blk) :: history v).
Definition v_drop (blk b n : Z) (v : bview) : bview :=
  mkBview (if decide (n = 1) then delete blk (slots v) else <[blk := (b, n - 1)]> (slots v))
    (held v ∖ {[blk]}) (contents v) (dcontents v) (history v).

(** Reference counts that cannot overflow. *)
Definition cnt_ok (n : Z) : Prop := 0 <= n < 2 ^ 32 - 1.

Class BufCache (S : Type) `{BufOps S} (dv : Z) (R : S -> bview -> Prop) : Prop := {
  law_len : forall s v blk, R s v -> length (contents v blk) = Z.to_nat BSIZE;
  law_clean : forall s v blk, R s v -> slots v !! blk = None -> contents v blk = dcontents v blk;
  law_held : forall s v blk, R s v -> blk ∈ held v -> is_Some (slots v !! blk);
  law_bread : forall s v blk, R s v -> 0 <= blk < 2 ^ 32 -> blk ∉ held v ->
    (match slots v !! blk with
     | Some (_, n) => cnt_ok n
     | None => Z.of_nat (size (slots v)) < NBUF
     end) ->
    wp (bread dv blk) s (fun b s' =>
      match slots v !! blk with
      | Some (b', n) => b = b' /\ R s' (v_take blk b (n + 1) v)
      | None => R s' (v_take blk b 1 v)
      end);
  law_bwrite : forall s v blk b n, R s v -> slots v !! blk = Some (b, n) -> blk ∈ held v ->
    wp (bwrite b) s (fun _ s' => R s' (v_write blk v));
  law_brelse : forall s v blk b n, R s v -> slots v !! blk = Some (b, n) -> blk ∈ held v ->
    (n = 1 -> contents v blk = dcontents v blk) ->
    wp (brelse b) s (fun _ s' => R s' (v_drop blk b n v));
  law_bpin : forall s v blk b n, R s v -> slots v !! blk = Some (b, n) -> cnt_ok n ->
    wp (bpin b) s (fun _ s' => R s' (v_count blk b (n + 1) v));
  law_bunpin : forall s v blk b n, R s v -> slots v !! blk = Some (b, n) -> 2 <= n ->
    wp (bunpin b) s (fun _ s' => R s' (v_count blk b (n - 1) v));
  law_bdata : forall s v blk b n, R s v -> slots v !! blk = Some (b, n) -> blk ∈ held v ->
    wp (bdata b) s (fun d s' => d = contents v blk /\ s' = s);
  law_set_bdata : forall s v blk b n d, R s v -> slots v !! blk = Some (b, n) -> blk ∈ held v ->
    length d = Z.to_nat BSIZE ->
    wp (set_bdata b d) s (fun _ s' => R s' (v_set blk d v));
  law_bblockno : forall s v blk b n, R s v -> slots v !! blk = Some (b, n) ->
    wp (bblockno b) s (fun r s' => r = blk /\ s' = s)
}.
