(* ===== verification/Bio.v ===== *)
(** * The buffer cache (kernel/bio.c)

    The cache is an array of NBUF buffers on a doubly linked list, most
    recently used first.  The model keeps the C pointers: a [struct buf *] is
    a key of [bufs], [HEAD] is &bcache.head, and the list operations are the
    pointer assignments of the source.  [BcacheOps] offers the routines to the
    log and the file system. *)

From S2P Require Import Prelude Spinlock Riscv BufCache.

(** struct buf *)
Record buf := mkBuf {
  valid : Z; b_disk : Z; dev : Z; blockno : Z; b_lock : sleeplock;
  refcnt : Z; prev : Z; next : Z; data : list Z
}.

(** Static storage is zero. *)
Definition buf0 : buf := mkBuf 0 0 0 0 (mkSleeplock 0 (mkSpinlock 0 "" None) "" 0) 0 0 0 (replicate 1024 0).

Definition HEAD : Z := NBUF.

(** struct bcache, the disk behind it (blocks never written read as zeros)
    and the log of all block writes, newest first. *)
Record bcache := mkBcache {
  bc_lock : spinlock; bufs : gmap Z buf; disk : gmap Z (list Z); writes : list (Z * list Z)
}.

Definition bc_lock_lens : lens bcache spinlock :=
  Lens bc_lock (fun l s => mkBcache l (bufs s) (disk s) (writes s)).
Definition upd_bufs (f : gmap Z buf -> gmap Z buf) (s : bcache) : bcache :=
  mkBcache (bc_lock s) (f (bufs s)) (disk s) (writes s).

Definition bufat (s : bcache) (b : Z) : buf := default buf0 (bufs s !! b).
Definition getb (b : Z) : M bcache buf := gets (fun s => bufat s b).
Definition setb (b : Z) (f : buf -> buf) : M bcache unit := modify (upd_bufs (alter f b)).

Definition set_valid v x := mkBuf v (b_disk x) (dev x) (blockno x) (b_lock x) (refcnt x) (prev x) (next x) (data x).
Definition set_dev v x := mkBuf (valid x) (b_disk x) v (blockno x) (b_lock x) (refcnt x) (prev x) (next x) (data x).
Definition set_blockno v x := mkBuf (valid x) (b_disk x) (dev x) v (b_lock x) (refcnt x) (prev x) (next x) (data x).
Definition set_block v x := mkBuf (valid x) (b_disk x) (dev x) (blockno x) v (refcnt x) (prev x) (next x) (data x).
Definition set_refcnt v x := mkBuf (valid x) (b_disk x) (dev x) (blockno x) (b_lock x) v (prev x) (next x) (data x).
Definition set_prev v x := mkBuf (valid x) (b_disk x) (dev x) (blockno x) (b_lock x) (refcnt x) v (next x) (data x).
Definition set_next v x := mkBuf (valid x) (b_disk x) (dev x) (blockno x) (b_lock x) (refcnt x) (prev x) v (data x).
Definition set_data v x := mkBuf (valid x) (b_disk x) (dev x) (blockno x) (b_lock x) (refcnt x) (prev x) (next x) v.

Definition disk_block (s : bcache) (blk : Z) : list Z := default (replicate 1024 0) (disk s !! blk).

(** The sleep lock of buffer [b]. *)
Definition b_lock_lens (b : Z) : lens bcache sleeplock :=
  Lens (fun s => b_lock (bufat s b)) (fun l => upd_bufs (alter (set_block l) b)).

Module Bcache.
Section Bio.
(** The CPU and the process that run. *)
Variables me pid : Z.

(** [b->next->prev = ...] and the like read the pointer first. *)
Definition insert_head (b : Z) : M bcache unit :=
  let! h := getb HEAD in
  setb (next h) (set_prev b) ;;
  setb HEAD (set_next b).

Definition binit : M bcache unit :=
  modify (fun s => mkBcache (initlock "bcache") (bufs s) (disk s) (writes s)) ;;
  setb HEAD (set_prev HEAD) ;;
  setb HEAD (set_next HEAD) ;;
  for_range (Z.to_nat NBUF) 0 (fun b =>
    let! h := getb HEAD in
    setb b (set_next (next h)) ;;
    setb b (set_prev HEAD) ;;
    setb b (set_block (initsleeplock "buffer")) ;;
    insert_head b).

(** One iteration of the search for a cached block. *)
Definition bget_find (d blk b : Z) : M bcache (Z + option Z) :=
  if b =? HEAD then ret (inr None)
  else
    let! x := getb b in
    if (dev x =? d) && (blockno x =? blk) then
      setb b (set_refcnt (u32 (refcnt x + 1))) ;;
      release_at me bc_lock_lens ;;
      zoom (b_lock_lens b) (acquiresleep me pid b) ;;
      ret (inr (Some b))
    else ret (inl (next x)).

(** One iteration of the search for an unused buffer, from the tail. *)
Definition bget_recycle (d blk b : Z) : M bcache (Z + Z) :=
  if b =? HEAD then panic "bget: no buffers"
  else
    let! x := getb b in
    if refcnt x =? 0 then
      setb b (set_dev d) ;;
      setb b (set_blockno blk) ;;
      setb b (set_valid 0) ;;
      setb b (set_refcnt 1) ;;
      release_at me bc_lock_lens ;;
      zoom (b_lock_lens b) (acquiresleep me pid b) ;;
      ret (inr b)
    else ret (inl (prev x)).

(** The list has NBUF elements: both searches end within NBUF + 1 steps. *)
Definition bget (d blk : Z) : M bcache Z :=
  acquire_at me bc_lock_lens ;;
  let! h := getb HEAD in
  let! r := loop (Z.to_nat NBUF + 1) (bget_find d blk) (next h) in
  match r with
  | Some b => ret b
  | None =>
      let! h := getb HEAD in
      loop (Z.to_nat NBUF + 1) (bget_recycle d blk) (prev h)
  end.

(** The effect of a completed disk request (virtio_disk_rw() blocks until the
    device is done): a read fills the buffer, a write stores it. *)
Definition disk_rw (b : Z) (write : bool) : M bcache unit :=
  let! x := getb b in
  if write then
    modify (fun s => mkBcache (bc_lock s) (bufs s) (<[blockno x := data x]> (disk s))
                       ((blockno x, data x) :: writes s))
  else
    let! d := gets (fun s => disk_block s (blockno x)) in
    setb b (set_data d).

Definition bread (d blk : Z) : M bcache Z :=
  let! b := bget d blk in
  let! x := getb b in
  when (valid x =? 0) (disk_rw b false ;; setb b (set_valid 1)) ;;
  ret b.

Definition bwrite (b : Z) : M bcache unit :=
  let! h := zoom (b_lock_lens b) (holdingsleep me pid) in
  if negb h then panic "bwrite" else disk_rw b true.

Definition brelse (b : Z) : M bcache unit :=
  let! h := zoom (b_lock_lens b) (holdingsleep me pid) in
  if negb h then panic "brelse"
  else
    zoom (b_lock_lens b) (releasesleep me b) ;;
    acquire_at me bc_lock_lens ;;
    let! x := getb b in
    setb b (set_refcnt (u32 (refcnt x - 1))) ;;
    let! x := getb b in
    when (refcnt x =? 0)
      (setb (next x) (set_prev (prev x)) ;;
       let! x := getb b in
       setb (prev x) (set_next (next x)) ;;
       let! h := getb HEAD in
       setb b (set_next (next h)) ;;
       setb b (set_prev HEAD) ;;
       insert_head b) ;;
    release_at me bc_lock_lens.

Definition bpin (b : Z) : M bcache unit :=
  acquire_at me bc_lock_lens ;;
  let! x := getb b in
  setb b (set_refcnt (u32 (refcnt x + 1))) ;;
  release_at me bc_lock_lens.

Definition bunpin (b : Z) : M bcache unit :=
  acquire_at me bc_lock_lens ;;
  let! x := getb b in
  setb b (set_refcnt (u32 (refcnt x - 1))) ;;
  release_at me bc_lock_lens.

End Bio.
End Bcache.

Definition BcacheOps (me pid : Z) : BufOps bcache := {|
  bread := Bcache.bread me pid;
  bwrite := Bcache.bwrite me pid;
  brelse := Bcache.brelse me pid;
  bpin := Bcache.bpin me;
  bunpin := Bcache.bunpin me;
  bdata b := gets (fun s => data (bufat s b));
  set_bdata b d := setb b (set_data d);
  bblockno b := gets (fun s => blockno (bufat s b))
|}.
