(* ===== verification/BioFacts.v ===== *)
(** * The buffer cache keeps one copy of each block (kernel/bio.c)

    [links] and [dll] read the linked list off the pointers; [bio_ok] is the
    invariant of the cache.  The abstract view [bview] says which blocks are
    in use, which are locked, and what each block's current contents are:
    that of the buffer when there is one, that of the disk otherwise. *)

From S2P Require Import Prelude Spinlock Riscv BufCache Bio.

(** ** The linked list *)

Notation bmap := (gmap Z buf).

Definition nxt (m : bmap) (x : Z) : Z := next (default buf0 (m !! x)).
Definition prv (m : bmap) (x : Z) : Z := prev (default buf0 (m !! x)).

(** Consecutive elements point at each other. *)
Fixpoint links (m : bmap) (l : list Z) : Prop :=
  match l with
  | x :: ((y :: _) as t) => nxt m x = y /\ prv m y = x /\ links m t
  | _ => True
  end.

(** The circular list through HEAD has the elements [l]. *)
Definition dll (m : bmap) (l : list Z) : Prop := links m (HEAD :: l ++ [HEAD]) /\ NoDup (HEAD :: l).

Lemma links_cons2 m x y t : links m (x :: y :: t) <-> nxt m x = y /\ prv m y = x /\ links m (y :: t).
Proof. done. Qed.

Lemma links_app m A x B : links m (A ++ x :: B) <-> links m (A ++ [x]) /\ links m (x :: B).
Proof.
  induction A as [|a A IH]; [cbn; tauto|].
  destruct A as [|a' A]; cbn [app] in *.
  - rewrite !links_cons2. cbn. tauto.
  - rewrite !links_cons2, IH. tauto.
Qed.

Lemma links_frame m m' x l :
  links m (x :: l) ->
  (forall y, y ∈ removelast (x :: l) -> nxt m' y = nxt m y) ->
  (forall y, y ∈ l -> prv m' y = prv m y) -> links m' (x :: l).
Proof.
  revert x; induction l as [|y l IH]; intros x Hl Hn Hp; [done|].
  rewrite links_cons2 in *. destruct Hl as (H1 & H2 & H3). split_and!.
  - rewrite Hn; [done|]. cbn. set_solver.
  - rewrite Hp; [done|set_solver].
  - apply IH; [done|..]; intros z Hz; [apply Hn|apply Hp]; cbn in *; set_solver.
Qed.

Lemma links_set m m' l :
  (forall x, nxt m' x = nxt m x) -> (forall x, prv m' x = prv m x) -> links m l -> links m' l.
Proof. intros Hn Hp H. destruct l; [done|]. by apply (links_frame m). Qed.

Lemma removelast_snoc {A} (l : list A) x : removelast (l ++ [x]) = l.
Proof. apply removelast_last. Qed.

Lemma elem_removelast {A} (l : list A) x : x ∈ removelast l -> x ∈ l.
Proof.
  induction l as [|a l IH]; [done|]. cbn. destruct l; [set_solver|]. set_solver.
Qed.

(** Unlinking [b]: its neighbours [p] and [n] are joined. *)
Lemma dll_remove m m' l1 l2 b :
  dll m (l1 ++ b :: l2) ->
  let p := prv m b in let n := nxt m b in
  (forall x, nxt m' x = if decide (x = p) then n else nxt m x) ->
  (forall x, prv m' x = if decide (x = n) then p else prv m x) ->
  dll m' (l1 ++ l2).
Proof.
  intros [Hl Hnd] p n Hn' Hp'.
  assert (Hnd' : NoDup (HEAD :: l1 ++ l2) /\ b ∉ HEAD :: l1 ++ l2).
  { rewrite <-(Permutation_middle l1 l2 b) in Hnd. rewrite !list.NoDup_cons, !elem_of_cons in *. naive_solver. }
  split; [|apply Hnd']. clear Hnd.
  destruct (exists_last (l := HEAD :: l1) ltac:(done)) as (A & p' & EA).
  assert (exists n' B, l2 ++ [HEAD] = n' :: B) as (n' & B & EB) by (destruct l2; cbn; eauto).
  assert (Hl' : links m (A ++ p' :: b :: n' :: B)).
  { rewrite <-EB. replace (A ++ p' :: b :: l2 ++ [HEAD]) with ((A ++ [p']) ++ b :: l2 ++ [HEAD])
      by (by rewrite <-app_assoc). rewrite <-EA. cbn [app]. by rewrite <-app_assoc in Hl. }
  rewrite links_app, !links_cons2 in Hl'. destruct Hl' as (HA & Hpb & Hbp & Hbn & Hnb & HB).
  assert (Ep : p = p') by (unfold p; congruence). assert (En : n = n') by (unfold n; congruence).
  clearbody p n. subst p n. rename p' into p, n' into n. rewrite <-app_assoc, EB, app_comm_cons, EA, <-app_assoc. cbn [app].
  destruct Hnd' as [Hnd Hb].
  assert (HpA : p ∈ HEAD :: l1) by (rewrite EA; set_solver).
  assert (Hin2 : forall x, x ∈ l2 -> x ∉ HEAD :: l1).
  { intros x Hx. rewrite app_comm_cons, list.NoDup_app in Hnd. intros H. by apply (proj1 (proj2 Hnd) x). }
  assert (HnB : n ∈ l2 \/ (n = HEAD /\ l2 = [])).
  { destruct l2; cbn in EB; injection EB as <- _; [by right|left; set_solver]. }
  assert (Hh1 : HEAD ∉ l1) by (rewrite list.NoDup_cons in Hnd; set_solver).
  apply links_app. split; [|rewrite links_cons2; split_and!].
  - rewrite <-EA in HA |- *. apply (links_frame m); [done|..].
    + intros y Hy. rewrite EA, removelast_snoc in Hy. rewrite Hn', decide_False; [done|].
      intros ->. rewrite app_comm_cons, EA, !list.NoDup_app in Hnd. set_solver.
    + intros y Hy. rewrite Hp', decide_False; [done|]. intros ->.
      destruct HnB as [HnB|[-> _]]; [|done]. apply (Hin2 n HnB). set_solver.
  - rewrite Hn', decide_True; done.
  - rewrite Hp', decide_True; done.
  - apply (links_frame m); [done|..].
    + intros y Hy. rewrite <-EB, removelast_snoc in Hy. rewrite Hn', decide_False; [done|].
      intros ->. by apply (Hin2 p Hy).
    + intros y Hy. rewrite Hp', decide_False; [done|]. intros ->.
      destruct l2 as [|z l2]; cbn in EB; injection EB as E1 E2; [by subst B; apply not_elem_of_nil in Hy|].
      subst z B. apply elem_of_app in Hy as [Hy|Hy].
      * rewrite app_comm_cons, list.NoDup_app, !list.NoDup_cons in Hnd. tauto.
      * apply list_elem_of_singleton in Hy as ->. apply (Hin2 HEAD); set_solver.
Qed.

(** Linking [b] in after HEAD. *)
Lemma dll_push m m' l b :
  dll m l -> b ∉ HEAD :: l ->
  let f := nxt m HEAD in
  nxt m' HEAD = b -> nxt m' b = f -> prv m' b = HEAD -> prv m' f = b ->
  (forall x, x <> HEAD -> x <> b -> nxt m' x = nxt m x) ->
  (forall x, x <> f -> x <> b -> prv m' x = prv m x) ->
  dll m' (b :: l).
Proof.
  intros [Hl Hnd] Hb f H1 H2 H3 H4 Hn' Hp'.
  assert (Hnd' : NoDup (HEAD :: b :: l)).
  { rewrite !list.NoDup_cons, !elem_of_cons in *. naive_solver. }
  split; [|done].
  assert (exists f' r, l ++ [HEAD] = f' :: r) as (f' & r & E) by (destruct l; cbn; eauto).
  cbn [app]. rewrite E in *. rewrite links_cons2 in Hl. destruct Hl as (Hf & Hfp & Hl).
  assert (f' = f) by (unfold f; congruence). subst f'. rewrite !links_cons2. split_and!; try done.
  apply (links_frame m); [done|..].
  - intros y Hy. rewrite <-E, removelast_snoc in Hy. rewrite !list.NoDup_cons in Hnd'.
    apply Hn'; intros ->; set_solver.
  - intros y Hy. apply Hp'.
    + intros ->. destruct l as [|z l]; cbn in E; injection E as E1 E2.
      * subst r. by apply not_elem_of_nil in Hy.
      * rewrite E1 in *. rewrite !list.NoDup_cons, !elem_of_cons in Hnd'. subst r. apply elem_of_app in Hy. set_solver.
    + intros ->. apply Hb. assert (b ∈ l ++ [HEAD]) as Hin by (rewrite E; set_solver). set_solver.
Qed.

Lemma dll_first m l : dll m l -> nxt m HEAD = hd HEAD l.
Proof. intros [H _]. destruct l; cbn in *; apply H. Qed.

Lemma dll_next m l1 x l2 : dll m (l1 ++ x :: l2) -> nxt m x = hd HEAD l2.
Proof.
  intros [H _]. rewrite <-app_assoc, app_comm_cons in H. cbn [app] in H.
  apply (links_app m (HEAD :: l1)) in H as [_ H]. destruct l2; cbn in *; apply H.
Qed.

Lemma dll_last m l : dll m l -> prv m HEAD = default HEAD (list.last l).
Proof.
  intros [H _]. destruct l as [|y l _] using rev_ind; [cbn in *; apply H|].
  rewrite last_snoc. cbn. rewrite <-app_assoc in H. cbn [app] in H.
  apply (links_app m (HEAD :: l)) in H as [_ H]. apply H.
Qed.

Lemma dll_prev m l1 x l2 : dll m (l1 ++ x :: l2) -> prv m x = default HEAD (list.last l1).
Proof.
  intros [H _]. rewrite <-app_assoc in H. cbn [app] in H.
  destruct l1 as [|y l1 _] using rev_ind; [cbn in *; apply H|].
  rewrite last_snoc. rewrite <-app_assoc in H. cbn [app default] in *.
  apply (links_app m (HEAD :: l1)) in H as [_ H]. apply H.
Qed.

(** The pointers determine the list. *)
Lemma links_unique m x l l' :
  links m (x :: l ++ [HEAD]) -> links m (x :: l' ++ [HEAD]) -> HEAD ∉ l -> HEAD ∉ l' -> l = l'.
Proof.
  revert x l'; induction l as [|y l IH]; intros x l' H H' Hn Hn'; destruct l' as [|y' l']; cbn [app] in *;
    rewrite links_cons2 in H, H'.
  - done.
  - exfalso. apply Hn'. destruct H as [<- _], H' as [<- _]. set_solver.
  - exfalso. apply Hn. destruct H as [<- _], H' as [<- _]. set_solver.
  - destruct H as (E1 & _ & H), H' as (E2 & _ & H'). assert (y' = y) as -> by congruence.
    f_equal. apply (IH y); set_solver.
Qed.

Lemma dll_unique m l l' : dll m l -> dll m l' -> l = l'.
Proof.
  intros [H1 N1] [H2 N2]. rewrite list.NoDup_cons in N1, N2. apply (links_unique m HEAD); tauto.
Qed.

(** ** The cache invariant *)

Section Invariant.
(** The device, and the process and CPU that run. *)
Context (dv me pid : Z).

Definition slot (i : Z) : Prop := 0 <= i < NBUF.

(** The buffers [B] and the disk [D] implement the view [v]. *)
Record core (B : Z -> buf) (D : Z -> list Z) (v : bview) : Prop := {
  c_uniq : forall i j, slot i -> slot j -> dev (B i) = dv -> dev (B j) = dv ->
    blockno (B i) = blockno (B j) -> i = j;
  c_slot : forall blk b n, slots v !! blk = Some (b, n) <->
    slot b /\ dev (B b) = dv /\ blockno (B b) = blk /\ refcnt (B b) = n /\ n <> 0;
  c_other : forall i, slot i -> dev (B i) <> dv -> refcnt (B i) = 0;
  c_ref : forall i, slot i -> 0 <= refcnt (B i) < 2 ^ 32;
  c_lock : forall i, slot i -> b_lock (B i) =
    if decide (dev (B i) = dv /\ blockno (B i) ∈ held v) then sl_held "buffer" pid else sl_free "buffer";
  c_held : forall i, slot i -> dev (B i) = dv -> blockno (B i) ∈ held v ->
    refcnt (B i) <> 0 /\ valid (B i) <> 0;
  c_held_in : forall blk, blk ∈ held v -> is_Some (slots v !! blk);
  c_data : forall i, slot i -> dev (B i) = dv ->
    if decide (valid (B i) = 0) then contents v (blockno (B i)) = D (blockno (B i))
    else data (B i) = contents v (blockno (B i));
  c_clean : forall blk, slots v !! blk = None -> contents v blk = D blk;
  c_disk : forall blk, dcontents v blk = D blk;
  c_len : forall blk, length (contents v blk) = Z.to_nat BSIZE
}.

Record bio_ok (s : bcache) (v : bview) : Prop := {
  io_lock : lock_free (bc_lock s);
  io_list : exists l, dll (bufs s) l /\ l ≡ₚ seqZ 0 NBUF;
  io_dom : forall i, 0 <= i <= NBUF -> is_Some (bufs s !! i);
  io_core : core (bufat s) (disk_block s) v;
  io_hist : history v = writes s
}.

Lemma core_ext B B' D D' v :
  core B D v -> (forall i, slot i -> B' i = B i) -> (forall blk, D' blk = D blk) -> core B' D' v.
Proof.
  intros [U S O R L H Hi Da C Di Le] E E'. split.
  - intros i j Hs Hs'. rewrite !E by done. by apply U.
  - intros blk b n. rewrite S. split; intros (Hs & H1); rewrite E in * by done; done.
  - intros i Hs. rewrite E by done. by apply O.
  - intros i Hs. rewrite E by done. by apply R.
  - intros i Hs. rewrite E by done. by apply L.
  - intros i Hs. rewrite E by done. by apply H.
  - done.
  - intros i Hs. rewrite E by done. rewrite E'. by apply Da.
  - intros blk. rewrite E'. by apply C.
  - intros blk. rewrite E'. by apply Di.
  - done.
Qed.

(** ** Effects of the operations on the core *)

Section Core.
Context (B : Z -> buf) (D : Z -> list Z) (v : bview) (HC : core B D v).

Lemma core_at blk b n :
  slots v !! blk = Some (b, n) -> slot b /\ dev (B b) = dv /\ blockno (B b) = blk /\ refcnt (B b) = n /\ n <> 0.
Proof. apply (c_slot _ _ _ HC). Qed.

Lemma core_same blk b n i :
  slots v !! blk = Some (b, n) -> slot i -> dev (B i) = dv -> blockno (B i) = blk -> i = b.
Proof.
  intros Hs Hi Hd Hb. destruct (core_at _ _ _ Hs) as (H1 & H2 & H3 & _).
  apply (c_uniq _ _ _ HC); try done. congruence.
Qed.

(** Changing the reference count of a block in use. *)
Lemma core_count B' blk b n n' :
  slots v !! blk = Some (b, n) -> 0 < n' < 2 ^ 32 ->
  (forall i, slot i -> B' i = if decide (i = b) then set_refcnt n' (B b) else B i) ->
  core B' D (v_count blk b n' v).
Proof.
  intros Hs Hn E. destruct (core_at _ _ _ Hs) as (Hb & Hd & Hk & Hr & Hn0).
  assert (Ef : forall i, slot i -> dev (B' i) = dev (B i) /\ blockno (B' i) = blockno (B i) /\
    b_lock (B' i) = b_lock (B i) /\ valid (B' i) = valid (B i) /\ data (B' i) = data (B i) /\
    refcnt (B' i) = if decide (i = b) then n' else refcnt (B i)).
  { intros i Hi. rewrite E by done. by destruct (decide (i = b)) as [->|]. }
  destruct HC as [U S O R L H Hi Da C Di Le]. split; cbn [v_count slots held contents dcontents].
  - intros i j H1 H2. destruct (Ef i H1) as (-> & -> & _), (Ef j H2) as (-> & -> & _). by apply U.
  - intros blk' b' m. destruct (decide (blk' = blk)) as [->|Hne].
    + rewrite lookup_insert_eq. split.
      * intros [= <- <-]. destruct (Ef b Hb) as (-> & -> & _ & _ & _ & ->). rewrite decide_True by done. split_and!; try done. lia.
      * intros (H1 & H2 & H3 & H4 & _). destruct (Ef b' H1) as (E1 & E2 & _ & _ & _ & E3).
        rewrite E1 in H2. rewrite E2 in H3. rewrite E3 in H4.
        assert (b' = b) as -> by (by eapply core_same). rewrite decide_True in H4 by done. by subst.
    + rewrite lookup_insert_ne, S by done.
      split; intros (H1 & H2 & H3 & H4 & H5); destruct (Ef b' H1) as (E1 & E2 & _ & _ & _ & E3).
      * rewrite E1, E2, E3, decide_False; [done|]. intros ->. congruence.
      * rewrite E1 in H2. rewrite E2 in H3. rewrite E3, decide_False in H4; [done|]. intros ->. congruence.
  - intros i H1. destruct (Ef i H1) as (-> & _ & _ & _ & _ & ->). intros Hne.
    rewrite decide_False by congruence. by apply O.
  - intros i H1. destruct (Ef i H1) as (_ & _ & _ & _ & _ & ->). case_decide; [lia|by apply R].
  - intros i H1. destruct (Ef i H1) as (-> & -> & -> & _). by apply L.
  - intros i H1. destruct (Ef i H1) as (-> & -> & _ & -> & _ & ->). intros H2 H3.
    destruct (H i H1 H2 H3). split; [case_decide; lia|done].
  - intros blk' Hin. rewrite lookup_insert_is_Some. destruct (decide (blk = blk')); [by left|right; eauto].
  - intros i H1. destruct (Ef i H1) as (-> & -> & _ & -> & -> & _). by apply Da.
  - intros blk' Hno. apply lookup_insert_None in Hno as [Hno _]. by apply C.
  - done.
  - done.
Qed.

(** Taking a reference to block [blk] in buffer [i] and locking it, whether
    the buffer already caches the block or is recycled. *)
Lemma core_take B' blk i m x :
  slot i -> blk ∉ held v ->
  (forall j, slot j -> dev (B j) = dv -> blockno (B j) = blk -> j = i) ->
  (dev (B i) = dv /\ blockno (B i) = blk /\ refcnt (B i) = m \/ refcnt (B i) = 0 /\ m = 0) ->
  0 <= m < 2 ^ 32 - 1 ->
  dev x = dv -> blockno x = blk -> refcnt x = m + 1 -> b_lock x = sl_held "buffer" pid ->
  valid x <> 0 -> data x = contents v blk ->
  (forall j, slot j -> B' j = if decide (j = i) then x else B j) ->
  core B' D (v_take blk i (m + 1) v).
Proof.
  intros Hi Hh Hu Hold Hm Xd Xb Xr Xl Xv Xda E.
  assert (Ei : B' i = x) by (rewrite E by done; by rewrite decide_True).
  assert (Ej : forall j, slot j -> j <> i -> B' j = B j) by (intros; rewrite E by done; by rewrite decide_False).
  assert (Hblk : forall j, slot j -> j <> i -> dev (B j) = dv -> blockno (B j) <> blk) by naive_solver.
  (* the block the buffer had before, if another one, was not in use *)
  assert (Hold' : dev (B i) = dv -> blockno (B i) <> blk -> refcnt (B i) = 0) by naive_solver.
  destruct HC as [U S O R L H Hin Da C Di Le]. split; cbn [v_take slots held contents dcontents].
  - intros j k Hj Hk. destruct (decide (j = i)) as [->|Nj], (decide (k = i)) as [->|Nk];
      rewrite ?Ei, ?Ej by done; try done.
    + intros _ H1 H2. exfalso. apply (Hblk k); congruence.
    + intros H1 _ H2. exfalso. apply (Hblk j); congruence.
    + by apply U.
  - intros blk' b n. destruct (decide (blk' = blk)) as [->|Hne].
    + rewrite lookup_insert_eq. split.
      * intros [= <- <-]. rewrite Ei. split_and!; try done; lia.
      * intros (H1 & H2 & H3 & H4 & _). destruct (decide (b = i)) as [->|Nb].
        -- rewrite Ei in *. congruence.
        -- rewrite Ej in * by done. exfalso. by apply (Hblk b).
    + rewrite lookup_insert_ne, S by done. split; intros (H1 & H2 & H3 & H4 & H5).
      * destruct (decide (b = i)) as [->|Nb]; [|by rewrite Ej].
        exfalso. apply H5. rewrite <-H4. apply Hold'; congruence.
      * destruct (decide (b = i)) as [->|Nb]; [rewrite Ei in *; congruence|by rewrite Ej in * by done].
  - intros j Hj. destruct (decide (j = i)) as [->|Nj]; [rewrite Ei; congruence|rewrite Ej by done; by apply O].
  - intros j Hj. destruct (decide (j = i)) as [->|Nj]; [rewrite Ei; lia|rewrite Ej by done; by apply R].
  - intros j Hj. destruct (decide (j = i)) as [->|Nj].
    + rewrite Ei, Xl, decide_True; [done|]. split; [done|set_solver].
    + rewrite Ej, L by done. pose proof (Hblk j Hj Nj). repeat case_decide; try done; set_solver.
  - intros j Hj. destruct (decide (j = i)) as [->|Nj]; [rewrite Ei; lia|rewrite Ej by done].
    intros H1 H2. apply H; try done. pose proof (Hblk j Hj Nj). set_solver.
  - intros blk' Hb. rewrite lookup_insert_is_Some.
    destruct (decide (blk = blk')); [by left|right; split; [done|apply Hin; set_solver]].
  - intros j Hj. destruct (decide (j = i)) as [->|Nj]; [|rewrite Ej by done; by apply Da].
    rewrite Ei. intros _. rewrite decide_False by done. congruence.
  - intros blk' Hno. apply lookup_insert_None in Hno as [Hno _]. by apply C.
  - done.
  - done.
Qed.

(** Writing into a locked buffer. *)
Lemma core_set B' blk b n d :
  slots v !! blk = Some (b, n) -> blk ∈ held v -> length d = Z.to_nat BSIZE ->
  (forall j, slot j -> B' j = if decide (j = b) then set_data d (B b) else B j) ->
  core B' D (v_set blk d v).
Proof.
  intros Hs Hh Hlen E. destruct (core_at _ _ _ Hs) as (Hb & Hd & Hk & Hr & Hn).
  assert (Ef : forall i, slot i -> dev (B' i) = dev (B i) /\ blockno (B' i) = blockno (B i) /\
    b_lock (B' i) = b_lock (B i) /\ valid (B' i) = valid (B i) /\ refcnt (B' i) = refcnt (B i) /\
    data (B' i) = if decide (i = b) then d else data (B i)).
  { intros i Hi. rewrite E by done. by destruct (decide (i = b)) as [->|]. }
  assert (Hsame : forall i, slot i -> dev (B i) = dv -> blockno (B i) = blk -> i = b)
    by (intros; by eapply core_same).
  destruct HC as [U S O R L H Hin Da C Di Le]. split; cbn [v_set slots held contents dcontents].
  - intros i j H1 H2. destruct (Ef i H1) as (-> & -> & _), (Ef j H2) as (-> & -> & _). by apply U.
  - intros blk' b' m. rewrite S. split; intros (H1 & H2 & H3 & H4 & H5);
      destruct (Ef b' H1) as (E1 & E2 & _ & _ & E3 & _); rewrite ?E1, ?E2, ?E3 in *; done.
  - intros i H1. destruct (Ef i H1) as (-> & _ & _ & _ & -> & _). by apply O.
  - intros i H1. destruct (Ef i H1) as (_ & _ & _ & _ & -> & _). by apply R.
  - intros i H1. destruct (Ef i H1) as (-> & -> & -> & _). by apply L.
  - intros i H1. destruct (Ef i H1) as (-> & -> & _ & -> & -> & _). by apply H.
  - done.
  - intros i H1. destruct (Ef i H1) as (-> & -> & _ & -> & _ & ->). intros H2.
    destruct (decide (i = b)) as [->|Ni].
    + rewrite Hk, decide_False, fupd_eq; [done|]. apply H; congruence.
    + pose proof (Da i H1 H2) as Hda. rewrite fupd_ne; [done|]. intros ?. by apply Ni, Hsame.
  - intros blk' Hno. rewrite fupd_ne; [by apply C|]. congruence.
  - done.
  - intros blk'. unfold fupd. by case_decide.
Qed.

(** Writing a locked buffer to the disk. *)
Lemma core_write D' blk b n :
  slots v !! blk = Some (b, n) -> blk ∈ held v ->
  (forall k, D' k = fupd blk (contents v blk) D k) -> core B D' (v_write blk v).
Proof.
  intros Hs Hh E. destruct (core_at _ _ _ Hs) as (Hb & Hd & Hk & Hr & Hn).
  destruct HC as [U S O R L H Hin Da C Di Le]. split; cbn [v_write slots held contents dcontents]; try done.
  - intros i H1 H2. pose proof (Da i H1 H2) as Hda. rewrite E. unfold fupd.
    repeat case_decide; congruence.
  - intros blk' Hno. rewrite E, fupd_ne; [by apply C|]. congruence.
  - intros blk'. rewrite E. unfold fupd. by rewrite Di.
Qed.

(** Unlocking a buffer and dropping a reference. *)
Lemma core_drop B' blk b n :
  slots v !! blk = Some (b, n) -> blk ∈ held v -> (n = 1 -> contents v blk = D blk) ->
  (forall j, slot j -> let x := B' j in
     dev x = dev (B j) /\ blockno x = blockno (B j) /\ valid x = valid (B j) /\ data x = data (B j) /\
     refcnt x = (if decide (j = b) then n - 1 else refcnt (B j)) /\
     b_lock x = (if decide (j = b) then sl_free "buffer" else b_lock (B j))) ->
  core B' D (v_drop blk b n v).
Proof.
  intros Hs Hh Hcl Ef. destruct (core_at _ _ _ Hs) as (Hb & Hd & Hk & Hr & Hn).
  assert (Hsame : forall i, slot i -> dev (B i) = dv -> blockno (B i) = blk -> i = b)
    by (intros; by eapply core_same).
  pose proof (c_ref _ _ _ HC b Hb) as Hrb.
  assert (Hsl : forall blk' b' m, slots (v_drop blk b n v) !! blk' = Some (b', m) <->
    (blk' = blk /\ b' = b /\ m = n - 1 /\ m <> 0) \/ (blk' <> blk /\ slots v !! blk' = Some (b', m))).
  { intros blk' b' m. cbn. destruct (decide (n = 1)) as [->|Hn1].
    - rewrite lookup_delete_Some. naive_solver lia.
    - rewrite lookup_insert_Some. naive_solver lia. }
  destruct HC as [U S O R L H Hin Da C Di Le]. split.
  - intros i j H1 H2. destruct (Ef i H1) as (-> & -> & _), (Ef j H2) as (-> & -> & _). by apply U.
  - intros blk' b' m. rewrite Hsl, S. split.
    + intros [(-> & -> & -> & Hm)|(Hne & H1 & H2 & H3 & H4 & H5)].
      * destruct (Ef b Hb) as (-> & -> & _ & _ & -> & _). by rewrite decide_True.
      * destruct (Ef b' H1) as (-> & -> & _ & _ & -> & _). rewrite decide_False; [done|]. intros ->. congruence.
    + intros (H1 & H2 & H3 & H4 & H5). destruct (Ef b' H1) as (E1 & E2 & _ & _ & E3 & _).
      rewrite E1 in H2. rewrite E2 in H3. rewrite E3 in H4. destruct (decide (b' = b)) as [->|Nb].
      * left. split_and!; congruence.
      * right. split; [|done]. intros ->. by apply Nb, Hsame.
  - intros i H1. destruct (Ef i H1) as (-> & _ & _ & _ & -> & _). intros Hne.
    rewrite decide_False by congruence. by apply O.
  - intros i H1. destruct (Ef i H1) as (_ & _ & _ & _ & -> & _). pose proof (R i H1). case_decide; lia.
  - intros i H1. destruct (Ef i H1) as (-> & -> & _ & _ & _ & ->). cbn [held v_drop].
    destruct (decide (i = b)) as [->|Ni].
    + rewrite decide_False; [done|]. set_solver.
    + rewrite L by done. repeat case_decide; try done; [|set_solver].
      exfalso. assert (blockno (B i) <> blk) by (intros ?; apply Ni, Hsame; naive_solver). set_solver.
  - intros i H1. destruct (Ef i H1) as (-> & -> & -> & _ & -> & _). cbn [held v_drop]. intros H2 H3.
    destruct (H i H1 H2 ltac:(set_solver)). split; [|done]. rewrite decide_False; [done|]. intros ->. set_solver.
  - intros blk' Hb'. cbn [held v_drop] in Hb'. destruct (Hin blk' ltac:(set_solver)) as [[b' m] Hm].
    exists (b', m). apply Hsl. right. split; [set_solver|done].
  - intros i H1. destruct (Ef i H1) as (-> & -> & -> & -> & _). by apply Da.
  - intros blk' Hno. cbn [contents v_drop]. destruct (decide (blk' = blk)) as [->|Hne].
    + apply Hcl. destruct (decide (n = 1)); [done|]. exfalso.
      assert (slots (v_drop blk b n v) !! blk = Some (b, n - 1)) as H1 by (apply Hsl; left; lia). congruence.
    + apply C. destruct (slots v !! blk') as [[b' m]|] eqn:E'; [|done]. exfalso.
      assert (slots (v_drop blk b n v) !! blk' = Some (b', m)) as H1 by (apply Hsl; by right). congruence.
  - done.
  - done.
Qed.

End Core.
End Invariant.
