(* ===== verification/BioSpec.v ===== *)
(** * bio.c keeps its contract

    The routines of Bio.v, run on a state that satisfies the invariant of
    BioFacts.v, have the effects [BufCache] promises; binit() establishes the
    invariant. *)

From S2P Require Import Prelude Spinlock Riscv BufCache Bio BioFacts.

Section Spec.
Context (dv me pid : Z).

Notation core := (core dv pid).
Notation bio_ok := (bio_ok dv pid).

(** ** Reading and writing buffer fields *)

Lemma bufat_alter s f b j :
  is_Some (bufs s !! b) ->
  bufat (upd_bufs (alter f b) s) j = if decide (j = b) then f (bufat s b) else bufat s j.
Proof.
  intros [x Hx]. unfold bufat, upd_bufs. cbn. destruct (decide (j = b)) as [->|Hne].
  - by rewrite lookup_alter_eq, Hx.
  - by rewrite lookup_alter_ne.
Qed.

Lemma nxt_alter m f b x :
  is_Some (m !! b) ->
  nxt (alter f b m) x = if decide (x = b) then next (f (default buf0 (m !! b))) else nxt m x.
Proof.
  intros [y Hy]. unfold nxt. destruct (decide (x = b)) as [->|Hne].
  - by rewrite lookup_alter_eq, Hy.
  - by rewrite lookup_alter_ne.
Qed.

Lemma prv_alter m f b x :
  is_Some (m !! b) ->
  prv (alter f b m) x = if decide (x = b) then prev (f (default buf0 (m !! b))) else prv m x.
Proof.
  intros [y Hy]. unfold prv. destruct (decide (x = b)) as [->|Hne].
  - by rewrite lookup_alter_eq, Hy.
  - by rewrite lookup_alter_ne.
Qed.

Lemma dll_same m m' l :
  dll m l -> (forall x, nxt m' x = nxt m x) -> (forall x, prv m' x = prv m x) -> dll m' l.
Proof. intros [H1 H2] Hn Hp. split; [|done]. by apply (links_set m). Qed.

(** Updates that leave the links alone. *)
Definition keeps_links (f : buf -> buf) : Prop := forall x, next (f x) = next x /\ prev (f x) = prev x.

Lemma dll_alter m f b l : keeps_links f -> dll m l -> dll (alter f b m) l.
Proof.
  intros Hf H. apply (dll_same m); [done|..]; intros x; unfold nxt, prv;
    (destruct (decide (x = b)) as [->|]; [rewrite lookup_alter_eq; destruct (m !! b); cbn; [by apply Hf|done]|
       by rewrite lookup_alter_ne]).
Qed.

Lemma dom_alter (m : gmap Z buf) f b i : is_Some (m !! i) -> is_Some (alter f b m !! i).
Proof. intros H. by apply lookup_alter_is_Some. Qed.

Lemma perm_slot l i : l ≡ₚ seqZ 0 NBUF -> i ∈ l <-> slot i.
Proof. intros H. rewrite H, elem_of_seqZ. unfold slot. lia. Qed.

Lemma slot_dom s v i : bio_ok s v -> slot i -> is_Some (bufs s !! i).
Proof. intros H Hi. apply (io_dom _ _ _ _ H). unfold slot in Hi. lia. Qed.

Lemma slot_head i : slot i -> i <> HEAD.
Proof. unfold slot, HEAD. lia. Qed.

Lemma alter_twice (m : gmap Z buf) f g b : alter f b (alter g b m) = alter (fun x => f (g x)) b m.
Proof.
  apply map_eq. intros i. destruct (decide (i = b)) as [->|].
  - rewrite !lookup_alter_eq. by destruct (m !! b).
  - by rewrite !lookup_alter_ne.
Qed.

(** A state with the same lists and locks. *)
Lemma bio_ok_intro s s' v' l :
  bc_lock s' = bc_lock s -> lock_free (bc_lock s) -> dll (bufs s') l -> l ≡ₚ seqZ 0 NBUF ->
  (forall i, 0 <= i <= NBUF -> is_Some (bufs s' !! i)) ->
  core (bufat s') (disk_block s') v' -> history v' = writes s' -> bio_ok s' v'.
Proof. intros El. split; try done; [by rewrite El|eauto]. Qed.

(** ** Locks of the cache *)

Lemma wp_zoom_ok {A} (l : lens bcache sleeplock) (m : M sleeplock A) s a t (Q : A -> bcache -> Prop) :
  m (view l s) = Ok a t -> Q a (put l t s) -> wp (zoom l m) s Q.
Proof. intros E HQ. unfold wp, zoom. by rewrite E. Qed.

Lemma wp_bpin_gen s b f (Q : unit -> bcache -> Prop) :
  lock_free (bc_lock s) ->
  Q tt (upd_bufs (alter (set_refcnt (u32 (f (refcnt (bufat s b))))) b) s) ->
  wp (acquire_at me bc_lock_lens ;;
      let! x := getb b in
      setb b (set_refcnt (u32 (f (refcnt x)))) ;;
      release_at me bc_lock_lens) s Q.
Proof.
  intros Hl HQ. wp_step. apply wp_acquire_at; [done|]. unfold getb, setb. do 2 wp_step. do 2 wp_step.
  apply (wp_release_at _ _ _ (bc_lock s)); [done|done|exact HQ].
Qed.

Lemma bpin_spec s v blk b n :
  bio_ok s v -> slots v !! blk = Some (b, n) -> cnt_ok n ->
  wp (Bcache.bpin me b) s (fun _ s' => bio_ok s' (v_count blk b (n + 1) v)).
Proof.
  intros Hok Hs Hn. unfold cnt_ok in Hn. apply (wp_bpin_gen s b (fun x => x + 1)); [apply Hok|].
  destruct (core_at _ _ _ _ _ (io_core _ _ _ _ Hok) _ _ _ Hs) as (Hb & _ & _ & Hr & Hn0).
  destruct (io_list _ _ _ _ Hok) as (l & Hd & Hp). rewrite Hr, u32_small by lia.
  apply (bio_ok_intro s _ _ l); try done.
  - apply Hok.
  - by apply dll_alter.
  - intros i Hi. by apply dom_alter, (io_dom _ _ _ _ Hok).
  - eapply core_count; [apply Hok|done|lia|]. intros i Hi. apply bufat_alter. by eapply slot_dom.
  - apply Hok.
Qed.

Lemma bunpin_spec s v blk b n :
  bio_ok s v -> slots v !! blk = Some (b, n) -> 2 <= n ->
  wp (Bcache.bunpin me b) s (fun _ s' => bio_ok s' (v_count blk b (n - 1) v)).
Proof.
  intros Hok Hs Hn. apply (wp_bpin_gen s b (fun x => x - 1)); [apply Hok|].
  destruct (core_at _ _ _ _ _ (io_core _ _ _ _ Hok) _ _ _ Hs) as (Hb & _ & _ & Hr & Hn0).
  pose proof (c_ref _ _ _ _ _ (io_core _ _ _ _ Hok) b Hb).
  destruct (io_list _ _ _ _ Hok) as (l & Hd & Hp). rewrite Hr, u32_small by lia.
  apply (bio_ok_intro s _ _ l); try done.
  - apply Hok.
  - by apply dll_alter.
  - intros i Hi. by apply dom_alter, (io_dom _ _ _ _ Hok).
  - eapply core_count; [apply Hok|done|lia|]. intros i Hi. apply bufat_alter. by eapply slot_dom.
  - apply Hok.
Qed.

Lemma set_bdata_spec s v blk b n d :
  bio_ok s v -> slots v !! blk = Some (b, n) -> blk ∈ held v -> length d = Z.to_nat BSIZE ->
  wp (setb b (set_data d)) s (fun _ s' => bio_ok s' (v_set blk d v)).
Proof.
  intros Hok Hs Hh Hl. unfold setb. wp_step.
  destruct (core_at _ _ _ _ _ (io_core _ _ _ _ Hok) _ _ _ Hs) as (Hb & _).
  destruct (io_list _ _ _ _ Hok) as (l & Hd & Hp).
  apply (bio_ok_intro s _ _ l); try done.
  - apply Hok.
  - by apply dll_alter.
  - intros i Hi. by apply dom_alter, (io_dom _ _ _ _ Hok).
  - eapply core_set; [apply Hok|done..|]. intros i Hi. apply bufat_alter. by eapply slot_dom.
  - apply Hok.
Qed.

(** A held block's buffer. *)
Lemma held_buf s v blk b n :
  bio_ok s v -> slots v !! blk = Some (b, n) -> blk ∈ held v ->
  slot b /\ blockno (bufat s b) = blk /\ b_lock (bufat s b) = sl_held "buffer" pid /\
  data (bufat s b) = contents v blk /\ dev (bufat s b) = dv /\ refcnt (bufat s b) = n.
Proof.
  intros Hok Hs Hh. pose proof (io_core _ _ _ _ Hok) as HC.
  destruct (core_at _ _ _ _ _ HC _ _ _ Hs) as (Hb & Hd & Hk & Hr & _).
  pose proof (c_lock _ _ _ _ _ HC b Hb) as Hl. rewrite decide_True in Hl by (by rewrite Hk).
  pose proof (c_data _ _ _ _ _ HC b Hb Hd) as Hda.
  rewrite decide_False in Hda by (apply (c_held _ _ _ _ _ HC); congruence). rewrite Hk in Hda. done.
Qed.

Lemma put_same_lock s b : upd_bufs (alter (set_block (b_lock (bufat s b))) b) s = s.
Proof.
  destruct s as [lk m dk w]. unfold upd_bufs, bufat. cbn. f_equal. apply map_eq. intros j.
  destruct (decide (j = b)) as [->|Hne]; [rewrite lookup_alter_eq|by rewrite lookup_alter_ne].
  destruct (m !! b) as [x|] eqn:E; [|done]. cbn. f_equal. by destruct x.
Qed.

Lemma wp_holdingsleep s v blk b n (Q : bool -> bcache -> Prop) :
  bio_ok s v -> slots v !! blk = Some (b, n) -> blk ∈ held v -> Q true s ->
  wp (zoom (b_lock_lens b) (holdingsleep me pid)) s Q.
Proof.
  intros Hok Hs Hh HQ. destruct (held_buf s v blk b n Hok Hs Hh) as (_ & _ & Hl & _).
  eapply wp_zoom_ok.
  - cbn [view b_lock_lens]. rewrite Hl. apply holdingsleep_held.
  - rewrite Z.eqb_refl. cbn [put b_lock_lens]. rewrite <-Hl, put_same_lock. exact HQ.
Qed.

Lemma bwrite_spec s v blk b n :
  bio_ok s v -> slots v !! blk = Some (b, n) -> blk ∈ held v ->
  wp (Bcache.bwrite me pid b) s (fun _ s' => bio_ok s' (v_write blk v)).
Proof.
  intros Hok Hs Hh. unfold Bcache.bwrite. wp_step. eapply wp_holdingsleep; [done..|].
  cbn [negb]. unfold Bcache.disk_rw, getb. wp_step. wp_step. wp_step.
  destruct (held_buf s v blk b n Hok Hs Hh) as (Hb & Hk & _ & Hda & _). rewrite Hk, Hda.
  destruct (io_list _ _ _ _ Hok) as (l & Hd & Hp).
  apply (bio_ok_intro s _ _ l); try done.
  - apply Hok.
  - apply (io_dom _ _ _ _ Hok).
  - eapply (core_write dv pid (bufat s) (disk_block s)); [apply Hok|done..|].
    intros k. unfold disk_block. cbn. unfold fupd. case_decide as E; [subst|].
    + by rewrite lookup_insert_eq.
    + by rewrite lookup_insert_ne.
  - cbn. f_equal. apply Hok.
Qed.

(** ** Moving a buffer to the front *)

(** Everything in a buffer but its links. *)
Definition payload (x : buf) := (valid x, dev x, blockno x, b_lock x, refcnt x, data x).
Definition keeps_payload (f : buf -> buf) : Prop := forall x, payload (f x) = payload x.

Lemma payload_alter (m : gmap Z buf) f k j :
  keeps_payload f -> payload (default buf0 (alter f k m !! j)) = payload (default buf0 (m !! j)).
Proof.
  intros Hf. destruct (decide (j = k)) as [->|]; [rewrite lookup_alter_eq|by rewrite lookup_alter_ne].
  destruct (m !! k); [apply Hf|done].
Qed.

Lemma dll_mem m l x : dll m l -> x ∈ HEAD :: l -> nxt m x ∈ HEAD :: l /\ prv m x ∈ HEAD :: l.
Proof.
  intros Hd Hx. apply elem_of_cons in Hx as [->|Hx].
  - rewrite (dll_first m l), (dll_last m l) by done. split.
    + destruct l; cbn; set_solver.
    + destruct l as [|y l _] using rev_ind; [cbn; set_solver|]. rewrite last_snoc. cbn. set_solver.
  - apply list_elem_of_split in Hx as (l1 & l2 & ->).
    rewrite (dll_next m l1 x l2), (dll_prev m l1 x l2) by done. split.
    + destruct l2; cbn; set_solver.
    + destruct l1 as [|y l1 _] using rev_ind; [cbn; set_solver|]. rewrite last_snoc. cbn. set_solver.
Qed.

Lemma dll_outside m m' l :
  dll m l -> (forall x, x ∈ HEAD :: l -> nxt m' x = nxt m x /\ prv m' x = prv m x) -> dll m' l.
Proof.
  intros [Hl Hnd] H. split; [|done]. apply (links_frame m); [done|..].
  - intros y Hy. rewrite app_comm_cons, removelast_snoc in Hy. by apply H.
  - intros y Hy. apply H. set_solver.
Qed.

(** Linking in a buffer whose own links are already set. *)
Lemma wp_insert_head s b l (Q : unit -> bcache -> Prop) :
  dll (bufs s) l -> (forall i, i ∈ HEAD :: l -> is_Some (bufs s !! i)) -> b ∉ HEAD :: l ->
  nxt (bufs s) b = nxt (bufs s) HEAD -> prv (bufs s) b = HEAD ->
  (forall m', dll m' (b :: l) ->
     (forall j, payload (default buf0 (m' !! j)) = payload (default buf0 (bufs s !! j))) ->
     (forall j, is_Some (bufs s !! j) -> is_Some (m' !! j)) ->
     Q tt (upd_bufs (fun _ => m') s)) ->
  wp (Bcache.insert_head b) s Q.
Proof.
  intros Hd Hdom Hni Hnb Hpb HQ. unfold Bcache.insert_head, getb, setb. do 4 wp_step. wp_step.
  set (m := bufs s) in *. change (next (bufat s HEAD)) with (nxt m HEAD).
  unfold upd_bufs. cbn [bufs bc_lock disk writes]. fold m.
  assert (Hbh : b <> HEAD) by set_solver.
  assert (Hf : nxt m HEAD ∈ HEAD :: l) by (apply (dll_mem m l); [done|set_solver]).
  assert (Hfb : nxt m HEAD <> b) by (intros E; by rewrite E in Hf).
  assert (Df : is_Some (m !! nxt m HEAD)) by (by apply Hdom).
  assert (Dh : is_Some (alter (set_prev b) (nxt m HEAD) m !! HEAD)) by (apply dom_alter, Hdom; set_solver).
  assert (N : forall x, nxt (alter (set_next b) HEAD (alter (set_prev b) (nxt m HEAD) m)) x =
    if decide (x = HEAD) then b else nxt m x).
  { intros x. rewrite !nxt_alter by done. case_decide; [done|].
    destruct (decide (x = nxt m HEAD)) as [->|]; done. }
  assert (P : forall x, prv (alter (set_next b) HEAD (alter (set_prev b) (nxt m HEAD) m)) x =
    if decide (x = nxt m HEAD) then b else prv m x).
  { assert (P1 : forall x, prv (alter (set_prev b) (nxt m HEAD) m) x = if decide (x = nxt m HEAD) then b else prv m x).
    { intros x. rewrite prv_alter by done. done. }
    intros x. rewrite prv_alter by done. destruct (decide (x = HEAD)) as [->|]; [|apply P1].
    rewrite <-P1. done. }
  apply HQ.
  - apply (dll_push m _ l b Hd Hni); rewrite ?N, ?P; rewrite ?decide_True, ?decide_False by done; try done.
    + intros x Hx1 Hx2. by rewrite N, decide_False.
    + intros x Hx1 Hx2. by rewrite P, decide_False.
  - intros j. by rewrite !payload_alter by done.
  - intros j Hj. by repeat apply dom_alter.
Qed.

(** The pointer assignments of insertion at the head, from the two that set
    the new element's own links. *)
Lemma wp_push s b l (Q : unit -> bcache -> Prop) :
  dll (bufs s) l -> (forall i, i ∈ HEAD :: l -> is_Some (bufs s !! i)) -> is_Some (bufs s !! b) ->
  b ∉ HEAD :: l ->
  (forall m', dll m' (b :: l) ->
     (forall j, payload (default buf0 (m' !! j)) = payload (default buf0 (bufs s !! j))) ->
     (forall j, is_Some (bufs s !! j) -> is_Some (m' !! j)) ->
     Q tt (upd_bufs (fun _ => m') s)) ->
  wp (let! h := getb HEAD in
      setb b (set_next (next h)) ;;
      setb b (set_prev HEAD) ;;
      Bcache.insert_head b) s Q.
Proof.
  intros Hd Hdom Hb Hni HQ. unfold getb, setb. do 6 wp_step.
  set (m := bufs s) in *. change (next (bufat s HEAD)) with (nxt m HEAD).
  set (m2 := alter (set_prev HEAD) b (alter (set_next (nxt m HEAD)) b m)).
  change (upd_bufs (alter (set_prev HEAD) b) (upd_bufs (alter (set_next (nxt m HEAD)) b) s))
    with (mkBcache (bc_lock s) m2 (disk s) (writes s)).
  assert (Hbh : b <> HEAD) by set_solver.
  assert (L2 : forall x, x <> b -> m2 !! x = m !! x) by (intros; unfold m2; by rewrite !lookup_alter_ne).
  assert (Hne : forall x, x ∈ HEAD :: l -> x <> b) by (intros x Hx ->; done).
  assert (Eb : m2 !! b = (fun x => set_prev HEAD (set_next (nxt m HEAD) x)) <$> m !! b).
  { unfold m2. rewrite !lookup_alter_eq. by destruct (m !! b). }
  destruct Hb as [x Hx]. rewrite Hx in Eb.
  apply (wp_insert_head _ b l); cbn [bufs]; try done.
  - apply (dll_outside m); [done|]. intros y Hy. unfold nxt, prv. by rewrite L2 by auto.
  - intros i Hi. rewrite L2 by auto. by apply Hdom.
  - unfold nxt at 1. rewrite Eb. cbn. unfold nxt. by rewrite (L2 HEAD).
  - unfold prv. by rewrite Eb.
  - intros m' Hd' Hpay Hdom'. apply HQ; [done| |].
    + intros j. rewrite Hpay. unfold m2. by rewrite !payload_alter by done.
    + intros j Hj. apply Hdom'. unfold m2. by repeat apply dom_alter.
Qed.

(** The relinking in brelse(). *)
Lemma wp_relink s b l1 l2 (Q : unit -> bcache -> Prop) :
  dll (bufs s) (l1 ++ b :: l2) -> (forall i, i ∈ HEAD :: l1 ++ b :: l2 -> is_Some (bufs s !! i)) ->
  (forall m', dll m' (b :: l1 ++ l2) ->
     (forall j, payload (default buf0 (m' !! j)) = payload (default buf0 (bufs s !! j))) ->
     (forall j, is_Some (bufs s !! j) -> is_Some (m' !! j)) ->
     Q tt (upd_bufs (fun _ => m') s)) ->
  wp (setb (next (bufat s b)) (set_prev (prev (bufat s b))) ;;
      let! x := getb b in
      setb (prev x) (set_next (next x)) ;;
      let! h := getb HEAD in
      setb b (set_next (next h)) ;;
      setb b (set_prev HEAD) ;;
      Bcache.insert_head b) s Q.
Proof.
  intros Hd Hdom HQ. set (m := bufs s) in *.
  assert (Hbin : b ∈ HEAD :: l1 ++ b :: l2) by set_solver.
  destruct (dll_mem m _ b Hd Hbin) as [Hn Hp].
  assert (Hnd : b ∉ HEAD :: l1 ++ l2).
  { destruct Hd as [_ Hnd]. rewrite <-(Permutation_middle l1 l2 b) in Hnd.
    rewrite !list.NoDup_cons, !elem_of_cons in *. naive_solver. }
  assert (Hnb : nxt m b <> b /\ prv m b <> b).
  { rewrite (dll_next m l1 b l2), (dll_prev m l1 b l2) by done. split.
    - destruct l2; cbn; set_solver.
    - destruct l1 as [|y l1 _] using rev_ind; [cbn; set_solver|]. rewrite last_snoc. cbn. set_solver. }
  destruct Hnb as [Hnb Hpb].
  unfold setb at 1. wp_step. wp_step.
  change (next (bufat s b)) with (nxt m b). change (prev (bufat s b)) with (prv m b).
  set (m3 := alter (set_prev (prv m b)) (nxt m b) m).
  change (upd_bufs (alter (set_prev (prv m b)) (nxt m b)) s) with (mkBcache (bc_lock s) m3 (disk s) (writes s)).
  unfold getb at 1. wp_step. wp_step. unfold setb at 1. wp_step. wp_step.
  assert (Eb : bufat (mkBcache (bc_lock s) m3 (disk s) (writes s)) b = bufat s b).
  { unfold bufat, m3. cbn. by rewrite lookup_alter_ne. }
  rewrite Eb. change (next (bufat s b)) with (nxt m b). change (prev (bufat s b)) with (prv m b).
  set (m4 := alter (set_next (nxt m b)) (prv m b) m3).
  change (upd_bufs (alter (set_next (nxt m b)) (prv m b)) (mkBcache (bc_lock s) m3 (disk s) (writes s)))
    with (mkBcache (bc_lock s) m4 (disk s) (writes s)).
  assert (D3 : forall i, is_Some (m !! i) -> is_Some (m3 !! i)) by (intros; by apply dom_alter).
  assert (D4 : forall i, is_Some (m !! i) -> is_Some (m4 !! i)) by (intros; by apply dom_alter, D3).
  assert (Hd4 : dll m4 (l1 ++ l2)).
  { apply (dll_remove m m4 l1 l2 b Hd).
    - intros x. unfold m4. rewrite nxt_alter by (by apply D3, Hdom). cbn.
      destruct (decide (x = prv m b)); [done|]. unfold m3. rewrite nxt_alter by (by apply Hdom).
      by destruct (decide (x = nxt m b)) as [->|].
    - intros x. unfold m4. rewrite prv_alter by (by apply D3, Hdom). cbn.
      assert (H3 : forall y, prv m3 y = if decide (y = nxt m b) then prv m b else prv m y).
      { intros y. unfold m3. rewrite prv_alter by (by apply Hdom). done. }
      destruct (decide (x = prv m b)) as [->|]; [|apply H3].
      specialize (H3 (prv m b)). exact H3. }
  apply (wp_push _ b (l1 ++ l2)); cbn [bufs]; try done.
  - intros i Hi. apply D4, Hdom. set_solver.
  - by apply D4, Hdom.
  - intros m' Hd' Hpay Hdom'. apply HQ; [done| |].
    + intros j. rewrite Hpay. unfold m4, m3. by rewrite !payload_alter by done.
    + intros j Hj. by apply Hdom', D4.
Qed.

Lemma brelse_lru s v blk b n l :
  bio_ok s v -> dll (bufs s) l -> slots v !! blk = Some (b, n) -> blk ∈ held v ->
  (n = 1 -> contents v blk = dcontents v blk) ->
  wp (Bcache.brelse me pid b) s (fun _ s' => bio_ok s' (v_drop blk b n v) /\
    if decide (n = 1) then exists l1 l2, l = l1 ++ b :: l2 /\ dll (bufs s') (b :: l1 ++ l2)
    else dll (bufs s') l).
Proof.
  intros Hok Hd Hs Hh Hcl. unfold Bcache.brelse.
  destruct (held_buf s v blk b n Hok Hs Hh) as (Hb & Hk & Hl & _ & _ & Hr).
  pose proof (io_core _ _ _ _ Hok) as HC. pose proof (c_ref _ _ _ _ _ HC b Hb) as Hrr.
  pose proof (slot_dom s v b Hok Hb) as Hdb. rewrite (c_disk _ _ _ _ _ HC) in Hcl.
  destruct (core_at _ _ _ _ _ HC _ _ _ Hs) as (_ & _ & _ & _ & Hn0).
  destruct (io_list _ _ _ _ Hok) as (l' & Hd' & Hp).
  assert (l' = l) as -> by (by eapply dll_unique). clear Hd'.
  wp_step. eapply wp_holdingsleep; [done..|]. cbn [negb]. wp_step.
  eapply wp_zoom_ok; [cbn [view b_lock_lens]; rewrite Hl; apply releasesleep_held|].
  cbn [put b_lock_lens]. set (m1 := alter (set_block (sl_free "buffer")) b (bufs s)).
  change (upd_bufs (alter (set_block (sl_free "buffer")) b) s) with (mkBcache (bc_lock s) m1 (disk s) (writes s)).
  wp_step. apply wp_acquire_at; [apply Hok|]. unfold getb at 1, setb at 1. do 2 wp_step. do 2 wp_step.
  cbn [put bc_lock_lens bc_lock view bufs disk writes].
  assert (E1 : refcnt (bufat (mkBcache (lock_taken me (bc_lock s)) m1 (disk s) (writes s)) b) = n).
  { unfold bufat, m1. cbn. destruct Hdb as [x Hx]. rewrite lookup_alter_eq, Hx. cbn.
    unfold bufat in Hr. by rewrite Hx in Hr. }
  rewrite E1, u32_small by lia.
  set (m2 := alter (set_refcnt (n - 1)) b m1). unfold upd_bufs. cbn [bc_lock bufs disk writes]. fold m2.
  assert (D2 : forall i, 0 <= i <= NBUF -> is_Some (m2 !! i)).
  { intros i Hi. unfold m2, m1. by apply dom_alter, dom_alter, (io_dom _ _ _ _ Hok). }
  assert (Hd2 : dll m2 l) by (by apply dll_alter, dll_alter).
  assert (Hpay : forall s', (forall j, slot j -> payload (bufat s' j) = payload (default buf0 (m2 !! j))) ->
      disk s' = disk s -> core (bufat s') (disk_block s') (v_drop blk b n v)).
  { intros s' Hj Hdk. apply (core_ext dv pid (bufat s') _ (disk_block s)); [|done|intros; unfold disk_block; by rewrite Hdk].
    eapply (core_drop dv pid (bufat s)); [done..|]. intros j Hsj. cbn zeta. specialize (Hj j Hsj).
    assert (Hm2 : default buf0 (m2 !! j) = if decide (j = b) then set_refcnt (n - 1) (set_block (sl_free "buffer") (bufat s b)) else bufat s j).
    { unfold m2, m1, bufat. destruct (decide (j = b)) as [->|].
      - destruct Hdb as [x Hx]. by rewrite !lookup_alter_eq, Hx.
      - by rewrite !lookup_alter_ne. }
    rewrite Hm2 in Hj. unfold payload in Hj. injection Hj as -> -> -> -> -> ->.
    destruct (decide (j = b)) as [->|]; done. }
  assert (E2 : refcnt (bufat (mkBcache (lock_taken me (bc_lock s)) m2 (disk s) (writes s)) b) = n - 1).
  { unfold bufat, m2, m1. cbn. destruct Hdb as [x Hx]. by rewrite !lookup_alter_eq, Hx. }
  unfold getb at 1. do 2 wp_step. rewrite E2. wp_step. wp_step.
  - destruct (list_elem_of_split l b (proj2 (perm_slot l b Hp) Hb)) as (l1 & l2 & ->).
    eapply (wp_relink _ b l1 l2); cbn [bufs]; [done| |].
    { intros i Hi. apply D2. apply elem_of_cons in Hi as [->|Hi]; [unfold HEAD, NBUF, MAXOPBLOCKS; lia|].
      apply (perm_slot _ i Hp) in Hi. unfold slot in Hi. lia. }
    intros m' Hd' Hpay' Hdom'.
    apply (wp_release_at _ _ _ (bc_lock s)); [done|apply Hok|].
    bool_simpl. rewrite decide_True by lia. split; [|by exists l1, l2].
    apply (bio_ok_intro s _ _ (b :: l1 ++ l2)); try done.
    + apply Hok.
    + by rewrite Permutation_middle.
    + intros i Hi. by apply Hdom', D2.
    + apply Hpay; [|done]. intros j _. apply Hpay'.
    + apply Hok.
  - apply (wp_release_at _ _ _ (bc_lock s)); [done|apply Hok|].
    bool_simpl. rewrite decide_False by lia. split; [|done].
    apply (bio_ok_intro s _ _ l); try done; [apply Hok|by apply Hpay|apply Hok].
Qed.

Lemma brelse_spec s v blk b n :
  bio_ok s v -> slots v !! blk = Some (b, n) -> blk ∈ held v ->
  (n = 1 -> contents v blk = dcontents v blk) ->
  wp (Bcache.brelse me pid b) s (fun _ s' => bio_ok s' (v_drop blk b n v)).
Proof.
  intros Hok Hs Hh Hcl. destruct (io_list _ _ _ _ Hok) as (l & Hd & _).
  eapply wp_mono; [by apply (brelse_lru s v blk b n l)|]. by intros [] s' [? _].
Qed.

(** ** bget and bread *)

(** Buffer [i] caches block [blk]. *)
Definition caches (s : bcache) (blk i : Z) : Prop := dev (bufat s i) = dv /\ blockno (bufat s i) = blk.

(** The state bget() works on: the cache's lock is taken. *)
Definition locked_st (s : bcache) : bcache :=
  mkBcache (lock_taken me (bc_lock s)) (bufs s) (disk s) (writes s).

(** bget() leaves through its unlock-and-sleep-lock sequence: buffer [b],
    changed by [f], unlocked cache, buffer lock taken. *)
Lemma wp_bget_exit {A} s v b f (a : A) (Q : A -> bcache -> Prop) :
  bio_ok s v -> slot b -> b_lock (bufat s b) = sl_free "buffer" ->
  (forall x, b_lock (f x) = b_lock x) ->
  Q a (upd_bufs (alter (set_block (sl_held "buffer" pid)) b) (upd_bufs (alter f b) s)) ->
  wp (release_at me bc_lock_lens ;;
      zoom (b_lock_lens b) (acquiresleep me pid b) ;;
      ret a) (upd_bufs (alter f b) (locked_st s)) Q.
Proof.
  intros Hok Hb Hl Hf HQ. wp_step. apply (wp_release_at _ _ _ (bc_lock s)); [done|apply Hok|]. wp_step.
  eapply wp_zoom_ok.
  - cbn [view b_lock_lens].
    change (bufat _ b) with (bufat (upd_bufs (alter f b) s) b).
    rewrite bufat_alter, decide_True, Hf, Hl by (done || by eapply slot_dom). apply acquiresleep_free.
  - wp_step. exact HQ.
Qed.

(** The forward search, from the list [l2] that is left. *)
Lemma find_loop s v l1 l2 blk fuel (Q : option Z -> bcache -> Prop) :
  bio_ok s v -> dll (bufs s) (l1 ++ l2) -> l1 ++ l2 ≡ₚ seqZ 0 NBUF -> blk ∉ held v ->
  (length l2 < fuel)%nat -> (forall i, i ∈ l1 -> ~ caches s blk i) ->
  (forall b, slot b -> caches s blk b ->
     Q (Some b) (upd_bufs (alter (set_block (sl_held "buffer" pid)) b)
       (upd_bufs (alter (set_refcnt (u32 (refcnt (bufat s b) + 1))) b) s))) ->
  ((forall b, slot b -> ~ caches s blk b) -> Q None (locked_st s)) ->
  wp (loop fuel (Bcache.bget_find me pid dv blk) (hd HEAD l2)) (locked_st s) Q.
Proof.
  intros Hok Hd Hp Hh Hfuel Hno Hhit Hmiss. revert l1 fuel Hd Hp Hfuel Hno.
  induction l2 as [|b l2 IH]; intros l1 fuel Hd Hp Hfuel Hno; (destruct fuel as [|fuel]; [cbn in Hfuel; lia|]);
    rewrite loop_S; unfold Bcache.bget_find at 1; cbn [hd].
  - rewrite Z.eqb_refl. do 2 wp_step. wp_step. apply Hmiss. intros b Hb. apply Hno.
    rewrite app_nil_r in Hp. by apply (perm_slot l1 b Hp).
  - assert (Hb : slot b) by (apply (perm_slot _ b Hp); set_solver).
    rewrite (proj2 (Z.eqb_neq _ _) (slot_head b Hb)). unfold getb at 1. do 3 wp_step.
    change (bufat (locked_st s) b) with (bufat s b). wp_step.
    + bool_simpl. unfold setb at 1. do 2 wp_step.
      eapply wp_bget_exit; [done|done| |done|wp_step; by apply Hhit].
      rewrite (c_lock _ _ _ _ _ (io_core _ _ _ _ Hok)) by done. rewrite decide_False; [done|]. intros []. congruence.
    + wp_step. replace (next (bufat s b)) with (hd HEAD l2) by (symmetry; by apply (dll_next _ l1)).
      apply (IH (l1 ++ [b])).
      * by rewrite <-app_assoc.
      * by rewrite <-app_assoc.
      * cbn in Hfuel. lia.
      * intros i Hi. apply elem_of_app in Hi as [Hi|Hi]; [by apply Hno|].
        apply list_elem_of_singleton in Hi as ->. intros [E1 E2].
        rewrite E1, E2, !Z.eqb_refl in *. done.
Qed.

(** The backward search, with [l1] left. *)
Lemma recycle_loop s v l1 l2 blk fuel (Q : Z -> bcache -> Prop) :
  bio_ok s v -> dll (bufs s) (l1 ++ l2) -> l1 ++ l2 ≡ₚ seqZ 0 NBUF ->
  (length l1 < fuel)%nat -> (forall i, i ∈ l2 -> refcnt (bufat s i) <> 0) ->
  (exists i, slot i /\ refcnt (bufat s i) = 0) ->
  (forall b, slot b -> refcnt (bufat s b) = 0 ->
     Q b (upd_bufs (alter (set_block (sl_held "buffer" pid)) b)
       (upd_bufs (alter (fun x => set_refcnt 1 (set_valid 0 (set_blockno blk (set_dev dv x)))) b) s))) ->
  wp (loop fuel (Bcache.bget_recycle me pid dv blk) (default HEAD (list.last l1))) (locked_st s) Q.
Proof.
  intros Hok Hd Hp Hfuel Hno Hex HQ. revert l2 fuel Hd Hp Hfuel Hno.
  induction l1 as [|b l1 IH] using rev_ind; intros l2 fuel Hd Hp Hfuel Hno;
    (destruct fuel as [|fuel]; [cbn in Hfuel; lia|]).
  - exfalso. destruct Hex as (i & Hi & Hr). apply (Hno i); [|done]. by apply (perm_slot l2 i Hp).
  - rewrite last_snoc. change (default HEAD (Some b)) with b. rewrite loop_S; unfold Bcache.bget_recycle at 1.
    rewrite <-app_assoc in Hd, Hp. cbn [app] in Hd, Hp.
    assert (Hb : slot b) by (apply (perm_slot _ b Hp); set_solver).
    rewrite (proj2 (Z.eqb_neq _ _) (slot_head b Hb)). unfold getb at 1. do 3 wp_step.
    change (bufat (locked_st s) b) with (bufat s b). wp_step.
    + bool_simpl. unfold setb. do 8 wp_step.
      assert (E : upd_bufs (alter (set_refcnt 1) b) (upd_bufs (alter (set_valid 0) b)
          (upd_bufs (alter (set_blockno blk) b) (upd_bufs (alter (set_dev dv) b) (locked_st s))))
        = upd_bufs (alter (fun x => set_refcnt 1 (set_valid 0 (set_blockno blk (set_dev dv x)))) b) (locked_st s)).
      { unfold upd_bufs. cbn [bc_lock bufs disk writes]. f_equal. by rewrite !alter_twice. }
      rewrite E. eapply wp_bget_exit; [done|done| |done|wp_step; by apply HQ].
      rewrite (c_lock _ _ _ _ _ (io_core _ _ _ _ Hok)) by done. rewrite decide_False; [done|].
      intros [E1 E2]. by destruct (c_held _ _ _ _ _ (io_core _ _ _ _ Hok) b Hb E1 E2).
    + wp_step. bool_simpl. replace (prev (bufat s b)) with (default HEAD (list.last l1)) by (symmetry; by apply (dll_prev _ l1 b l2)).
      apply (IH (b :: l2)); try done.
      * rewrite length_app in Hfuel. cbn in Hfuel. lia.
      * intros i Hi. apply elem_of_cons in Hi as [->|Hi]; [done|by apply Hno].
Qed.

(** Fewer blocks in use than buffers: some buffer is unused. *)
Lemma unused_buffer s v :
  bio_ok s v -> Z.of_nat (size (slots v)) < NBUF -> exists i, slot i /\ refcnt (bufat s i) = 0.
Proof.
  intros Hok Hsz. pose proof (io_core _ _ _ _ Hok) as HC.
  destruct (decide (Exists (fun i => refcnt (bufat s i) = 0) (seqZ 0 NBUF))) as [H|H].
  { apply list.Exists_exists in H as (i & Hi & Hr). exists i. split; [|done].
    apply elem_of_seqZ in Hi. unfold slot. lia. }
  exfalso.
  assert (Hall : forall i, slot i -> refcnt (bufat s i) <> 0).
  { intros i Hi Hr. apply H, list.Exists_exists. exists i. split; [|done]. apply elem_of_seqZ. unfold slot in Hi. lia. }
  assert (Hdv : forall i, slot i -> dev (bufat s i) = dv).
  { intros i Hi. destruct (decide (dev (bufat s i) = dv)) as [|Hne]; [done|].
    by destruct (Hall i Hi (c_other _ _ _ _ _ HC i Hi Hne)). }
  set (bl := (fun i => blockno (bufat s i)) <$> seqZ 0 NBUF).
  assert (Hnd : NoDup bl).
  { apply NoDup_fmap_2_strong; [|apply NoDup_seqZ]. intros i j Hi Hj E.
    apply elem_of_seqZ in Hi, Hj. assert (slot i /\ slot j) as [? ?] by (unfold slot; lia).
    apply (c_uniq _ _ _ _ _ HC); auto. }
  assert (Hsub : list_to_set bl ⊆ dom (slots v)).
  { intros x Hx. apply elem_of_list_to_set, list_elem_of_fmap in Hx as (i & -> & Hi).
    apply elem_of_seqZ in Hi. assert (slot i) by (unfold slot; lia). apply elem_of_dom.
    exists (i, refcnt (bufat s i)). apply (c_slot _ _ _ _ _ HC). split_and!; try done; [by apply Hdv|by apply Hall]. }
  apply subseteq_size in Hsub. rewrite size_list_to_set, size_dom in Hsub by done.
  unfold bl in Hsub. rewrite length_fmap, length_seqZ in Hsub. unfold NBUF, MAXOPBLOCKS in *. lia.
Qed.

(** The backward search when every buffer is in use. *)
Lemma recycle_panics s v l1 l2 blk fuel :
  bio_ok s v -> dll (bufs s) (l1 ++ l2) -> l1 ++ l2 ≡ₚ seqZ 0 NBUF -> (length l1 < fuel)%nat ->
  (forall i, slot i -> refcnt (bufat s i) <> 0) ->
  loop fuel (Bcache.bget_recycle me pid dv blk) (default HEAD (list.last l1)) (locked_st s) = Panic "bget: no buffers".
Proof.
  intros Hok Hd Hp Hfuel Hall. revert l2 fuel Hd Hp Hfuel.
  induction l1 as [|b l1 IH] using rev_ind; intros l2 fuel Hd Hp Hfuel; (destruct fuel as [|fuel]; [cbn in Hfuel; lia|]); rewrite loop_S; unfold bind at 1, Bcache.bget_recycle at 1.
  - done.
  - rewrite last_snoc. change (default HEAD (Some b)) with b. rewrite <-app_assoc in Hd, Hp. cbn [app] in Hd, Hp.
    assert (Hb : slot b) by (apply (perm_slot _ b Hp); set_solver).
    rewrite (proj2 (Z.eqb_neq _ _) (slot_head b Hb)). unfold bind at 1, getb, gets. change (bufat (locked_st s) b) with (bufat s b).
    rewrite (proj2 (Z.eqb_neq _ _) (Hall b Hb)). unfold ret at 1. replace (prev (bufat s b)) with (default HEAD (list.last l1)) by (symmetry; by apply (dll_prev _ l1 b l2)).
    apply (IH (b :: l2)); [done|done|]. rewrite length_app in Hfuel. cbn in Hfuel. lia.
Qed.

(** As many blocks in use as buffers: no buffer is unused. *)
Lemma all_used s v : bio_ok s v -> NBUF <= Z.of_nat (size (slots v)) -> forall i, slot i -> refcnt (bufat s i) <> 0.
Proof.
  intros Hok Hsz i Hi Hr. pose proof (io_core _ _ _ _ Hok) as HC. set (bl := (fun x => fst (snd x)) <$> map_to_list (slots v)).
  assert (Hat : forall x, x ∈ map_to_list (slots v) -> slot (fst (snd x)) /\ blockno (bufat s (fst (snd x))) = fst x /\ refcnt (bufat s (fst (snd x))) <> 0 /\ snd (snd x) = refcnt (bufat s (fst (snd x)))).
  { intros [blk [b n] ] Hx. apply elem_of_map_to_list in Hx. destruct (core_at _ _ _ _ _ HC _ _ _ Hx) as (H1 & _ & H2 & H3 & H4). cbn. split_and!; try done. by rewrite H3. }
  assert (Hnd : NoDup bl).
  { apply NoDup_fmap_2_strong; [|apply NoDup_map_to_list]. intros [b1 [x1 n1] ] [b2 [x2 n2] ] H1 H2 E. cbn in E. subst x2.
    destruct (Hat _ H1) as (_ & E1 & _ & E2), (Hat _ H2) as (_ & E3 & _ & E4). cbn in *. congruence. }
  assert (Hsub : list_to_set (C := gset Z) (i :: bl) ⊆ list_to_set (seqZ 0 NBUF)).
  { intros x Hx. apply elem_of_list_to_set in Hx. apply elem_of_list_to_set, elem_of_seqZ. apply elem_of_cons in Hx as [->|Hx]; [unfold slot in Hi; lia|].
    apply list_elem_of_fmap in Hx as (y & -> & Hy). destruct (Hat y Hy) as [Hs _]. unfold slot in Hs. lia. }
  apply subseteq_size in Hsub. rewrite !size_list_to_set in Hsub; [|apply NoDup_seqZ|].
  - rewrite length_seqZ in Hsub. cbn [length] in Hsub. unfold bl in Hsub. rewrite length_fmap, length_map_to_list in Hsub. lia.
  - apply list.NoDup_cons. split; [|done]. intros Hin. apply list_elem_of_fmap in Hin as (y & -> & Hy). by destruct (Hat y Hy) as (_ & _ & ? & _).
Qed.

Lemma bread_panics s v blk :
  bio_ok s v -> blk ∉ held v -> slots v !! blk = None -> NBUF <= Z.of_nat (size (slots v)) ->
  Bcache.bread me pid dv blk s = Panic "bget: no buffers".
Proof.
  intros Hok Hh Hs Hsz. pose proof (all_used s v Hok Hsz) as Hall. pose proof (io_core _ _ _ _ Hok) as HC. destruct (io_list _ _ _ _ Hok) as (l & Hd & Hp).
  assert (Hll : length l = Z.to_nat NBUF) by (by rewrite Hp, length_seqZ).
  assert (Hfind : loop (Z.to_nat NBUF + 1) (Bcache.bget_find me pid dv blk) (hd HEAD l) (locked_st s) = Ok None (locked_st s)).
  { pose proof (find_loop s v [] l blk (Z.to_nat NBUF + 1) (fun r s' => r = None /\ s' = locked_st s) Hok Hd Hp Hh ltac:(lia) ltac:(set_solver)) as Hw.
    apply wp_ok in Hw as (a & s' & E & -> & ->); [done| |done]. intros b Hb [H1 H2]. exfalso.
    assert (slots v !! blk = Some (b, refcnt (bufat s b))); [|congruence]. apply (c_slot _ _ _ _ _ HC). split_and!; try done. by apply Hall. }
  unfold Bcache.bread, Bcache.bget. unfold bind at 1 2. rewrite acquire_at_eq by apply Hok. unfold bind at 1, getb at 1, gets at 1.
  change (put bc_lock_lens (lock_taken me (view bc_lock_lens s)) s) with (locked_st s). change (next (bufat (locked_st s) HEAD)) with (nxt (bufs s) HEAD).
  rewrite (dll_first _ l) by done. unfold bind at 1. rewrite Hfind. unfold bind at 1, getb at 1, gets at 1.
  change (prev (bufat (locked_st s) HEAD)) with (prv (bufs s) HEAD). rewrite (dll_last _ l) by done.
  rewrite (recycle_panics s v l [] blk); [done|done|by rewrite app_nil_r|by rewrite app_nil_r|lia|done].
Qed.

(** What bread() does after bget(): fill the buffer when it is not valid. *)
Lemma bread_fill s v b blk m f :
  bio_ok s v -> slot b -> blk ∉ held v ->
  (forall j, slot j -> caches s blk j -> j = b) ->
  (caches s blk b /\ refcnt (bufat s b) = m \/ refcnt (bufat s b) = 0 /\ m = 0) ->
  0 <= m < 2 ^ 32 - 1 -> keeps_links f ->
  let x := f (bufat s b) in
  dev x = dv -> blockno x = blk -> refcnt x = m + 1 -> data x = data (bufat s b) ->
  (valid x = 0 -> contents v blk = disk_block s blk) -> (valid x <> 0 -> data x = contents v blk) ->
  wp (let! x := getb b in
      when (valid x =? 0) (Bcache.disk_rw b false ;; setb b (set_valid 1)) ;;
      ret b)
    (upd_bufs (alter (set_block (sl_held "buffer" pid)) b) (upd_bufs (alter f b) s))
    (fun r s' => r = b /\ bio_ok s' (v_take blk b (m + 1) v)).
Proof.
  intros Hok Hb Hh Hu Hold Hm Hf x Xd Xb Xr Xda Xv0 Xv1.
  pose proof (io_core _ _ _ _ Hok) as HC. pose proof (slot_dom s v b Hok Hb) as Hdb.
  destruct (io_list _ _ _ _ Hok) as (l & Hd & Hp).
  set (s1 := upd_bufs _ (upd_bufs _ s)).
  assert (E1 : bufat s1 b = set_block (sl_held "buffer" pid) x).
  { unfold s1. rewrite bufat_alter by (by apply dom_alter). rewrite decide_True by done.
    rewrite bufat_alter by done. by rewrite decide_True. }
  (* whatever the data, the buffer ends up valid with the block's contents *)
  assert (Hfin : forall s2 g, s2 = upd_bufs (alter g b) s1 -> keeps_links g ->
      let y := g (set_block (sl_held "buffer" pid) x) in
      dev y = dv -> blockno y = blk -> refcnt y = m + 1 -> b_lock y = sl_held "buffer" pid ->
      valid y <> 0 -> data y = contents v blk -> bio_ok s2 (v_take blk b (m + 1) v)).
  { intros s2 g -> Hg y Y1 Y2 Y3 Y4 Y5 Y6. apply (bio_ok_intro s _ _ l); try done.
    - apply Hok.
    - by repeat (apply dll_alter; [done|]).
    - intros i Hi. by repeat apply dom_alter; apply (io_dom _ _ _ _ Hok).
    - eapply (core_take dv pid (bufat s) _ v HC _ blk b m y); try done.
      + intros j Hj H1 H2. by apply Hu.
      + destruct Hold as [[[? ?] ?]|?]; [by left|by right].
      + intros j Hj. rewrite bufat_alter by (by repeat apply dom_alter).
        rewrite E1. case_decide; [done|].
        unfold s1. rewrite !bufat_alter by (by repeat apply dom_alter). by rewrite !decide_False.
    - apply Hok. }
  unfold getb. do 2 wp_step. rewrite E1. cbn [valid set_block]. wp_step. wp_step; bool_simpl.
  - unfold Bcache.disk_rw, getb. do 2 wp_step. do 2 wp_step. rewrite E1. cbn [blockno set_block]. wp_step.
    unfold setb. do 3 wp_step. split; [done|].
    apply (Hfin _ (fun z => set_valid 1 (set_data (disk_block s1 (blockno x)) z))); try done.
    + unfold upd_bufs. cbn. f_equal. by rewrite alter_twice.
    + change (disk_block s1 (blockno x)) with (disk_block s (blockno x)). cbn. rewrite Xb. symmetry. by apply Xv0.
  - wp_step. split; [done|]. apply (Hfin _ (fun z => z)); try done.
    + unfold upd_bufs. destruct s1 as [lk mm dk w]. cbn. f_equal. apply map_eq. intros i.
      destruct (decide (i = b)) as [->|]; [rewrite lookup_alter_eq; by destruct (mm !! b)|by rewrite lookup_alter_ne].
    + by apply Xv1.
Qed.

Lemma bread_spec s v blk :
  bio_ok s v -> blk ∉ held v ->
  (match slots v !! blk with
   | Some (_, n) => cnt_ok n
   | None => Z.of_nat (size (slots v)) < NBUF
   end) ->
  wp (Bcache.bread me pid dv blk) s (fun b s' =>
    match slots v !! blk with
    | Some (b', n) => b = b' /\ bio_ok s' (v_take blk b (n + 1) v)
    | None => bio_ok s' (v_take blk b 1 v)
    end).
Proof.
  intros Hok Hh Hcap. pose proof (io_core _ _ _ _ Hok) as HC.
  destruct (io_list _ _ _ _ Hok) as (l & Hd & Hp).
  assert (Hll : length l = Z.to_nat NBUF) by (by rewrite Hp, length_seqZ).
  unfold Bcache.bread, Bcache.bget. wp_step. wp_step. apply wp_acquire_at; [apply Hok|].
  unfold getb at 1. do 3 wp_step.
  change (put bc_lock_lens (lock_taken me (view bc_lock_lens s)) s) with (locked_st s).
  change (next (bufat (locked_st s) HEAD)) with (nxt (bufs s) HEAD). rewrite (dll_first _ l) by done.
  apply (find_loop s v [] l); try done; [lia|set_solver|..].
  - (* cached *)
    intros b Hb Hc. wp_step. destruct Hc as [Hc1 Hc2].
    assert (Hu : forall j, slot j -> caches s blk j -> j = b).
    { intros j Hj [H1 H2]. apply (c_uniq _ _ _ _ _ HC); congruence. }
    assert (Hr : 0 <= refcnt (bufat s b) < 2 ^ 32 - 1 /\
       (slots v !! blk = Some (b, refcnt (bufat s b)) \/ slots v !! blk = None /\ refcnt (bufat s b) = 0)).
    { pose proof (c_ref _ _ _ _ _ HC b Hb). destruct (slots v !! blk) as [[b' n]|] eqn:Es.
      - pose proof (core_same dv pid _ _ _ HC _ _ _ _ Es Hb Hc1 Hc2) as <-.
        destruct (core_at _ _ _ _ _ HC _ _ _ Es) as (_ & _ & _ & -> & _).
        split; [exact Hcap|by left].
      - destruct (decide (refcnt (bufat s b) = 0)) as [E|E]; [rewrite E; split; [lia|by right]|].
        exfalso. assert (slots v !! blk = Some (b, refcnt (bufat s b))); [|congruence].
        apply (c_slot _ _ _ _ _ HC). done. }
    destruct Hr as [Hr Hs]. pose proof (c_data _ _ _ _ _ HC b Hb Hc1) as Hda. rewrite Hc2 in Hda.
    eapply wp_mono; [apply (bread_fill s v b blk (refcnt (bufat s b))); try done|].
    + by left.
    + cbn. rewrite u32_small; lia.
    + cbn. intros E. by rewrite decide_True in Hda.
    + cbn. intros E. by rewrite decide_False in Hda.
    + intros r s' [-> H]. destruct Hs as [->|[-> E]]; [done|]. by rewrite E in H.
  - (* not cached *)
    intros Hmiss. unfold getb at 1. do 2 wp_step.
    change (prev (bufat (locked_st s) HEAD)) with (prv (bufs s) HEAD). rewrite (dll_last _ l) by done.
    assert (Hs : slots v !! blk = None).
    { destruct (slots v !! blk) as [[b n]|] eqn:Es; [|done]. exfalso.
      destruct (core_at _ _ _ _ _ HC _ _ _ Es) as (Hb & H1 & H2 & _). by apply (Hmiss b). }
    rewrite Hs in Hcap |- *.
    apply (recycle_loop s v l []); rewrite ?app_nil_r; try done; [lia|set_solver|by apply (unused_buffer s v)|].
    intros b Hb Hr.
    eapply wp_mono; [apply (bread_fill s v b blk 0); try done|].
    + intros j Hj Hc. by destruct (Hmiss j).
    + by right.
    + intros _. by apply (c_clean _ _ _ _ _ HC).
    + intros r s' [-> H]. done.
Qed.

(** ** Initialisation *)

(** The cache at boot: static storage, and a disk of full blocks. *)
Record boot (s : bcache) : Prop := {
  boot_bufs : forall i, 0 <= i <= NBUF -> bufs s !! i = Some buf0;
  boot_disk : forall blk, length (disk_block s blk) = Z.to_nat BSIZE
}.

Definition boot_view (s : bcache) : bview := mkBview ∅ ∅ (disk_block s) (disk_block s) (writes s).

Lemma binit_step s s0 i l :
  slot i -> dll (bufs s) l -> l ≡ₚ seqZ 0 i ->
  (forall j, 0 <= j <= NBUF -> is_Some (bufs s !! j)) ->
  (forall j, slot j -> let x := bufat s j in valid x = 0 /\ dev x = 0 /\ refcnt x = 0 /\
     (j < i -> b_lock x = sl_free "buffer")) ->
  bc_lock s = initlock "bcache" -> disk s = disk s0 -> writes s = writes s0 ->
  wp (let! h := getb HEAD in
      setb i (set_next (next h)) ;;
      setb i (set_prev HEAD) ;;
      setb i (set_block (initsleeplock "buffer")) ;;
      Bcache.insert_head i) s (fun _ s' => exists l',
    dll (bufs s') l' /\ l' ≡ₚ seqZ 0 (i + 1) /\ (forall j, 0 <= j <= NBUF -> is_Some (bufs s' !! j)) /\
    (forall j, slot j -> let x := bufat s' j in valid x = 0 /\ dev x = 0 /\ refcnt x = 0 /\
       (j < i + 1 -> b_lock x = sl_free "buffer")) /\
    bc_lock s' = initlock "bcache" /\ disk s' = disk s0 /\ writes s' = writes s0).
Proof.
  intros Hi Hd Hp Hdom Hpay Hlk Hdk Hw. unfold getb, setb. do 8 wp_step.
  set (m := bufs s) in *. change (next (bufat s HEAD)) with (nxt m HEAD).
  set (g := fun x => set_block (initsleeplock "buffer") (set_prev HEAD (set_next (nxt m HEAD) x))).
  assert (Es : upd_bufs (alter (set_block (initsleeplock "buffer")) i) (upd_bufs (alter (set_prev HEAD) i)
      (upd_bufs (alter (set_next (nxt m HEAD)) i) s)) = mkBcache (bc_lock s) (alter g i m) (disk s) (writes s)).
  { unfold upd_bufs. cbn. f_equal. by rewrite !alter_twice. }
  rewrite Es. clear Es.
  assert (Hni : i ∉ HEAD :: l).
  { rewrite elem_of_cons, Hp, elem_of_seqZ. pose proof (slot_head i Hi). unfold slot in Hi. lia. }
  assert (Hne : forall x, x ∈ HEAD :: l -> x <> i) by (intros x Hx ->; done).
  assert (Hin : forall x, x ∈ HEAD :: l -> 0 <= x <= NBUF).
  { intros x Hx. rewrite elem_of_cons, Hp, elem_of_seqZ in Hx. unfold slot, HEAD, NBUF, MAXOPBLOCKS in *. lia. }
  destruct (Hdom i) as [x Hx]; [unfold slot in Hi; lia|].
  apply (wp_insert_head _ i l); cbn [bufs]; try done.
  - apply (dll_outside m); [done|]. intros y Hy. unfold nxt, prv. by rewrite lookup_alter_ne by (symmetry; auto).
  - intros j Hj. rewrite lookup_alter_ne by (symmetry; auto). by apply Hdom, Hin.
  - unfold nxt. rewrite lookup_alter_eq, Hx, lookup_alter_ne; [done|]. symmetry. apply not_eq_sym, slot_head, Hi.
  - unfold prv. by rewrite lookup_alter_eq, Hx.
  - intros m' Hd' Hpay' Hdom'. exists (i :: l). split_and!; try done.
    + rewrite Hp. rewrite seqZ_app by (unfold slot in Hi; lia).
      rewrite Z.add_0_l. change (seqZ i 1) with [i]. by rewrite Permutation_cons_append.
    + intros j Hj. by apply Hdom', dom_alter, Hdom.
    + intros j Hj. specialize (Hpay j Hj). specialize (Hpay' j). cbn zeta in *. unfold payload in Hpay'.
      change (default buf0 (m' !! j)) with (bufat (mkBcache (bc_lock s) m' (disk s) (writes s)) j) in Hpay'.
      injection Hpay' as P1 P2 P3 P4 P5 P6.
      unfold upd_bufs. cbn [bc_lock disk writes]. rewrite P1, P2, P4, P5.
      destruct (decide (j = i)) as [->|Nj].
      * rewrite lookup_alter_eq, Hx. unfold bufat in Hpay. fold m in Hpay. rewrite Hx in Hpay. cbn in *. naive_solver.
      * rewrite lookup_alter_ne by done. change (default buf0 (m !! j)) with (bufat s j).
        destruct Hpay as (-> & -> & -> & Hl). split_and!; try done. intros ?. apply Hl. lia.
Qed.

Lemma wp_binit s :
  boot s -> dv <> 0 -> wp Bcache.binit s (fun _ s' => bio_ok s' (boot_view s)).
Proof.
  intros [Hb Hdk] Hdv. unfold Bcache.binit, setb. do 6 wp_step.
  eapply wp_mono.
  - apply (wp_for_range (fun i s' => exists l,
      dll (bufs s') l /\ l ≡ₚ seqZ 0 i /\ (forall j, 0 <= j <= NBUF -> is_Some (bufs s' !! j)) /\
      (forall j, slot j -> let x := bufat s' j in valid x = 0 /\ dev x = 0 /\ refcnt x = 0 /\
         (j < i -> b_lock x = sl_free "buffer")) /\
      bc_lock s' = initlock "bcache" /\ disk s' = disk s /\ writes s' = writes s)).
    + assert (Hh : bufs s !! HEAD = Some buf0) by (apply Hb; unfold HEAD, NBUF, MAXOPBLOCKS; lia).
      exists []. cbn. split_and!; try done.
      * split; [|apply NoDup_singleton]. cbn. unfold nxt, prv. by rewrite !lookup_alter_eq, Hh.
      * intros j Hj. by apply dom_alter, dom_alter; rewrite Hb.
      * intros j Hj. assert (Hnh := slot_head j Hj). unfold bufat. cbn. rewrite !lookup_alter_ne by done.
        rewrite Hb by (unfold slot in Hj; lia). cbn. split_and!; try done. unfold slot in Hj. lia.
    + intros i s' Hi (l & H1 & H2 & H3 & H4 & H5 & H6 & H7).
      by apply (binit_step s' s i l).
  - intros [] s' (l & Hd & Hp & Hdom & Hpay & Hl & Hdk' & Hw). rewrite Z.add_0_l, Z2Nat.id in * by done.
    split; [by rewrite Hl|eauto|done| |by rewrite Hw].
    assert (ED : forall blk, disk_block s' blk = disk_block s blk) by (intros; unfold disk_block; by rewrite Hdk').
    split; cbn [boot_view slots held contents dcontents]; try done.
    + intros i j Hi _ H. destruct (Hpay i Hi) as (_ & E & _). congruence.
    + intros blk b n. rewrite lookup_empty. split; [done|]. intros (Hsb & H & _). destruct (Hpay b Hsb) as (_ & E & _). congruence.
    + intros i Hi _. by apply Hpay.
    + intros i Hi. destruct (Hpay i Hi) as (_ & _ & -> & _). lia.
    + intros i Hi. rewrite decide_False by set_solver. apply Hpay; [done|]. unfold slot in Hi. lia.
    + intros blk Hin. set_solver.
Qed.

(** ** The cache's theorems *)

(** binit() builds a circular doubly linked list of all NBUF buffers,
    none of them in use, over the contents of the disk. *)
Theorem binit_all_buffers s :
  boot s -> dv <> 0 ->
  wp Bcache.binit s (fun _ s' => bio_ok s' (boot_view s)).
Proof. exact (wp_binit s). Qed.

(** C7: bread() returns the one cached copy of the block, or panics.  Unless
    the block is already locked by the caller, bread() panics exactly when the
    block is not in use and every buffer is in use for another one; otherwise
    it returns a locked buffer that holds the block's current contents, no
    other buffer holds that block, and no block's contents, on disk or as
    readers see them, change.  (A block has fewer than 2^32 - 1 users.) *)
Theorem bread_single_copy s v blk :
  bio_ok s v -> blk ∉ held v -> (forall b n, slots v !! blk = Some (b, n) -> cnt_ok n) ->
  if decide (slots v !! blk = None /\ NBUF <= Z.of_nat (size (slots v)))
  then Bcache.bread me pid dv blk s = Panic "bget: no buffers"
  else wp (Bcache.bread me pid dv blk) s (fun b s' => exists v', bio_ok s' v' /\
    slot b /\ blockno (bufat s' b) = blk /\ data (bufat s' b) = contents v blk /\
    b_lock (bufat s' b) = sl_held "buffer" pid /\
    (forall i, slot i -> caches s' blk i -> i = b) /\
    contents v' = contents v /\ dcontents v' = dcontents v /\ held v' = {[blk]} ∪ held v).
Proof.
  intros Hok Hh Hcnt. case_decide as Hd; [destruct Hd as [H1 H2]; by apply (bread_panics s v)|].
  assert (Hcap : match slots v !! blk with Some (_, n) => cnt_ok n | None => Z.of_nat (size (slots v)) < NBUF end).
  { destruct (slots v !! blk) as [ [b n]|] eqn:E; [by eapply Hcnt|]. apply Z.nle_gt. intros Hle. by apply Hd. }
  eapply wp_mono; [by apply bread_spec|]. intros b s' H.
  assert (exists m, bio_ok s' (v_take blk b m v)) as [m Hm].
  { destruct (slots v !! blk) as [[b' n]|]; [destruct H as [-> H]|]; eauto. }
  exists (v_take blk b m v). split; [done|].
  assert (Hs : slots (v_take blk b m v) !! blk = Some (b, m)) by apply lookup_insert_eq.
  destruct (held_buf s' _ blk b m Hm Hs) as (H1 & H2 & H3 & H4 & H5 & H6); [cbn; set_solver|].
  split_and!; try done. intros i Hi [E1 E2].
  by apply (core_same _ _ _ _ _ (io_core _ _ _ _ Hm) _ _ _ _ Hs).
Qed.

(** brelse() keeps the list in order of use.  Releasing the last reference
    moves the buffer to the front of the list and leaves the order of all the
    others unchanged; releasing another reference leaves the list alone. *)
Theorem brelse_moves_to_front s v blk b n l :
  bio_ok s v -> dll (bufs s) l -> slots v !! blk = Some (b, n) -> blk ∈ held v ->
  (n = 1 -> contents v blk = dcontents v blk) ->
  wp (Bcache.brelse me pid b) s (fun _ s' => bio_ok s' (v_drop blk b n v) /\
    if decide (n = 1) then exists l1 l2, l = l1 ++ b :: l2 /\ dll (bufs s') (b :: l1 ++ l2)
    else dll (bufs s') l).
Proof. exact (brelse_lru s v blk b n l). Qed.

End Spec.

#[global] Instance bcache_contract (dv me pid : Z) : @BufCache bcache (BcacheOps me pid) dv (bio_ok dv pid).
Proof.
  split.
  - intros s v blk H. apply (c_len _ _ _ _ _ (io_core _ _ _ _ H)).
  - intros s v blk H E. rewrite (c_disk _ _ _ _ _ (io_core _ _ _ _ H)). by apply (c_clean _ _ _ _ _ (io_core _ _ _ _ H)).
  - intros s v blk H. apply (c_held_in _ _ _ _ _ (io_core _ _ _ _ H)).
  - intros s v blk H _. by apply bread_spec.
  - intros s v blk b n. apply bwrite_spec.
  - intros s v blk b n. apply brelse_spec.
  - intros s v blk b n. apply bpin_spec.
  - intros s v blk b n. apply bunpin_spec.
  - intros s v blk b n H Hs Hh. apply wp_gets. destruct (held_buf dv pid s v blk b n H Hs Hh) as (_ & _ & _ & -> & _). done.
  - intros s v blk b n d. apply set_bdata_spec.
  - intros s v blk b n H Hs. apply wp_gets.
    destruct (core_at _ _ _ _ _ (io_core _ _ _ _ H) _ _ _ Hs) as (_ & _ & -> & _). done.
Qed.
