(* ===== verification/Log.v ===== *)
(** * The log (kernel/log.c)

    Every routine of log.c, over a buffer cache known only through the
    interface of BufCache.v.  The on-disk header block is bytes: struct
    logheader is encoded and decoded at the offsets C gives its fields.
    LogFacts.v has the theorems. *)

From S2P Require Import Prelude Spinlock Riscv BufCache.

(** ** Integers in a block *)

Definition get_u32 (d : list Z) (off : nat) : Z := le_val (take 4 (drop off d)).
Definition put_u32 (d : list Z) (off : nat) (v : Z) : list Z :=
  take off d ++ le_bytes 4 v ++ drop (off + 4) d.

(** struct logheader in the bytes of a block: [int n] at offset 0 and
    [int block\[i\]] at offset 4 + 4 * i. *)
Definition lh_get_n (d : list Z) : Z := i32 (get_u32 d 0).
Definition lh_get_block (d : list Z) (i : Z) : Z := i32 (get_u32 d (4 + 4 * Z.to_nat i)).
Definition lh_put_n (d : list Z) (v : Z) : list Z := put_u32 d 0 v.
Definition lh_put_block (d : list Z) (i v : Z) : list Z := put_u32 d (4 + 4 * Z.to_nat i) v.

(** struct log, with its struct logheader [lh]. *)
Record flog := mkLog {
  log_lock : spinlock; log_start : Z; log_size : Z; outstanding : Z; committing : Z; log_dev : Z;
  lh_n : Z; lh_block : list Z
}.

(** struct superblock, the fields the log uses. *)
Record superblock := mkSuper {
  sb_magic : Z; sb_size : Z; sb_nblocks : Z; sb_ninodes : Z; sb_nlog : Z;
  sb_logstart : Z; sb_inodestart : Z; sb_bmapstart : Z
}.

(** The log and the buffer cache below it. *)
Record lstate (S : Type) := mkLstate { lg : flog; bs : S }.
Arguments mkLstate {S} _ _.
Arguments lg {S} _.
Arguments bs {S} _.

Section Log.
Context {S : Type} `{BufOps S}.
Variable me : Z.

Definition bs_lens : lens (lstate S) S := Lens bs (fun b s => mkLstate (lg s) b).
Definition log_lock_lens : lens (lstate S) spinlock :=
  Lens (fun s => log_lock (lg s)) (fun l s =>
    mkLstate (mkLog l (log_start (lg s)) (log_size (lg s)) (outstanding (lg s)) (committing (lg s))
      (log_dev (lg s)) (lh_n (lg s)) (lh_block (lg s))) (bs s)).

Definition getl : M (lstate S) flog := gets lg.
Definition setl (f : flog -> flog) : M (lstate S) unit := modify (fun s => mkLstate (f (lg s)) (bs s)).
Definition set_outstanding v l := mkLog (log_lock l) (log_start l) (log_size l) v (committing l) (log_dev l) (lh_n l) (lh_block l).
Definition set_committing v l := mkLog (log_lock l) (log_start l) (log_size l) (outstanding l) v (log_dev l) (lh_n l) (lh_block l).
Definition set_lh_n v l := mkLog (log_lock l) (log_start l) (log_size l) (outstanding l) (committing l) (log_dev l) v (lh_block l).
Definition set_lh_block (i v : Z) l := mkLog (log_lock l) (log_start l) (log_size l) (outstanding l) (committing l)
  (log_dev l) (lh_n l) (<[Z.to_nat i := v]> (lh_block l)).

(** Calls into the buffer cache. *)
Definition bcall {A} (m : M S A) : M (lstate S) A := zoom bs_lens m.

(** [log.lh.block\[i\] = v]; a store past the array is undefined. *)
Definition store_lh_block (i v : Z) : M (lstate S) unit :=
  if (0 <=? i) && (i <? LOGSIZE) then setl (set_lh_block i v) else hang.
Definition load_lh_block (i : Z) : M (lstate S) Z :=
  let! l := getl in
  match lh_block l !! Z.to_nat i with Some v => ret v | None => hang end.

(** [for(i = 0; i < n; i++)] with an [int] bound. *)
Definition for_int (n : Z) (body : Z -> M (lstate S) unit) : M (lstate S) unit :=
  for_range (Z.to_nat n) 0 body.

Definition install_trans (recovering : Z) : M (lstate S) unit :=
  let! l := getl in
  for_int (lh_n l) (fun tail =>
    let! l := getl in
    let! lbuf := bcall (bread (log_dev l) (u32 (log_start l + tail + 1))) in
    let! dst := load_lh_block tail in
    let! dbuf := bcall (bread (log_dev l) (u32 dst)) in
    let! d := bcall (bdata lbuf) in
    bcall (set_bdata dbuf d) ;;
    bcall (bwrite dbuf) ;;
    when (recovering =? 0) (bcall (bunpin dbuf)) ;;
    bcall (brelse lbuf) ;;
    bcall (brelse dbuf)).

Definition read_head : M (lstate S) unit :=
  let! l := getl in
  let! b := bcall (bread (log_dev l) (u32 (log_start l))) in
  let! lh := bcall (bdata b) in
  setl (set_lh_n (lh_get_n lh)) ;;
  let! l := getl in
  for_int (lh_n l) (fun i => store_lh_block i (lh_get_block lh i)) ;;
  bcall (brelse b).

Definition write_head : M (lstate S) unit :=
  let! l := getl in
  let! b := bcall (bread (log_dev l) (u32 (log_start l))) in
  let! hb := bcall (bdata b) in
  bcall (set_bdata b (lh_put_n hb (lh_n l))) ;;
  for_int (lh_n l) (fun i =>
    let! v := load_lh_block i in
    let! hb := bcall (bdata b) in
    bcall (set_bdata b (lh_put_block hb i v))) ;;
  bcall (bwrite b) ;;
  bcall (brelse b).

Definition recover_from_log : M (lstate S) unit :=
  read_head ;;
  install_trans 1 ;;
  setl (set_lh_n 0) ;;
  write_head.

(** sizeof(struct logheader) *)
Definition sizeof_logheader : Z := 4 + 4 * LOGSIZE.

Definition initlog (d : Z) (sb : superblock) : M (lstate S) unit :=
  if BSIZE <=? sizeof_logheader then panic "initlog: too big logheader"
  else
    setl (fun l => mkLog (initlock "log") (i32 (sb_logstart sb)) (i32 (sb_nlog sb)) (outstanding l)
                     (committing l) d (lh_n l) (lh_block l)) ;;
    recover_from_log.

(** The wait channel is the log itself. *)
Definition LOGCHAN : Z := 0.

(** sleep() releases the lock while the process waits; a woken process
    re-enters the loop, that is, this routine. *)
Definition begin_op : M (lstate S) unit :=
  acquire_at me log_lock_lens ;;
  let! l := getl in
  if negb (committing l =? 0) then release_at me log_lock_lens ;; sleep_on LOGCHAN
  else if LOGSIZE <? lh_n l + (outstanding l + 1) * MAXOPBLOCKS then
    release_at me log_lock_lens ;; sleep_on LOGCHAN
  else
    setl (set_outstanding (outstanding l + 1)) ;;
    release_at me log_lock_lens.

Definition write_log : M (lstate S) unit :=
  let! l := getl in
  for_int (lh_n l) (fun tail =>
    let! l := getl in
    let! to := bcall (bread (log_dev l) (u32 (log_start l + tail + 1))) in
    let! src := load_lh_block tail in
    let! from := bcall (bread (log_dev l) (u32 src)) in
    let! d := bcall (bdata from) in
    bcall (set_bdata to d) ;;
    bcall (bwrite to) ;;
    bcall (brelse from) ;;
    bcall (brelse to)).

Definition commit : M (lstate S) unit :=
  let! l := getl in
  when (0 <? lh_n l)
    (write_log ;;
     write_head ;;
     install_trans 0 ;;
     setl (set_lh_n 0) ;;
     write_head).

Definition end_op : M (lstate S) unit :=
  acquire_at me log_lock_lens ;;
  let! l := getl in
  setl (set_outstanding (outstanding l - 1)) ;;
  let! l := getl in
  if negb (committing l =? 0) then panic "log.committing"
  else
    let do_commit := outstanding l =? 0 in
    (if do_commit then setl (set_committing 1) else wakeup LOGCHAN) ;;
    release_at me log_lock_lens ;;
    when do_commit
      (commit ;;
       acquire_at me log_lock_lens ;;
       setl (set_committing 0) ;;
       wakeup LOGCHAN ;;
       release_at me log_lock_lens).

(** The absorption loop of log_write(): the index it stops at. *)
Fixpoint find_block (blks : list Z) (n : nat) (i : Z) (b : Z) : Z :=
  match n, blks with
  | Datatypes.S n, x :: blks => if u32 x =? b then i else find_block blks n (i + 1) b
  | _, _ => i
  end.

Definition log_write (b : Z) : M (lstate S) unit :=
  acquire_at me log_lock_lens ;;
  let! l := getl in
  if (LOGSIZE <=? lh_n l) || (log_size l - 1 <=? lh_n l) then panic "too big a transaction"
  else if outstanding l <? 1 then panic "log_write outside of trans"
  else
    let! blk := bcall (bblockno b) in
    let i := find_block (lh_block l) (Z.to_nat (lh_n l)) 0 blk in
    store_lh_block i (i32 blk) ;;
    when (i =? lh_n l)
      (bcall (bpin b) ;;
       setl (fun l => set_lh_n (lh_n l + 1) l)) ;;
    release_at me log_lock_lens.

End Log.
