(* ===== verification/LogFacts.v ===== *)
(** * The log makes transactions atomic (kernel/log.c)

    [apply_writes] replays block writes on a disk; [recovered] is the
    specification of recovery: what the file-system blocks of a disk stand
    for, given the header in its log.  The routines of Log.v are shown to
    perform exactly the block writes [commit_writes] and [recovery_writes],
    and every prefix of these writes, a crash at any moment, leaves a disk
    that recovers to the state before or to the state after the transaction. *)

From S2P Require Import Prelude Spinlock Riscv BufCache Log.

(** ** Integers in blocks *)

Lemma length_put_u32 d off v : (off + 4 <= length d)%nat -> length (put_u32 d off v) = length d.
Proof.
  intros. unfold put_u32. rewrite !length_app, length_take, length_le_bytes, length_drop. lia.
Qed.

Lemma get_put_u32 d off v : (off + 4 <= length d)%nat -> get_u32 (put_u32 d off v) off = u32 v.
Proof.
  intros. unfold get_u32, put_u32. rewrite drop_app_length' by (rewrite length_take; lia).
  rewrite take_app_length' by (by rewrite length_le_bytes). by rewrite le_val_le_bytes.
Qed.

Lemma get_put_u32_ne d off off' v :
  (off + 4 <= length d)%nat -> (off' + 4 <= off \/ off + 4 <= off')%nat ->
  get_u32 (put_u32 d off v) off' = get_u32 d off'.
Proof.
  intros Hl [Hd|Hd]; unfold get_u32, put_u32; f_equal.
  - rewrite drop_app_le by (rewrite length_take; lia).
    rewrite take_app_le by (rewrite length_drop, length_take; lia).
    by rewrite !take_drop_commute, take_take, Nat.min_l by lia.
  - rewrite drop_app_ge by (rewrite length_take; lia). rewrite length_take.
    rewrite drop_app_ge by (rewrite length_le_bytes; lia). rewrite length_le_bytes, drop_drop. do 2 f_equal. lia.
Qed.

(** A header block with [n] entries [blks]. *)
Fixpoint put_blocks (i : Z) (blks : list Z) (d : list Z) : list Z :=
  match blks with
  | [] => d
  | b :: blks => put_blocks (i + 1) blks (lh_put_block d i b)
  end.
Definition encode_head (blks : list Z) (d : list Z) : list Z :=
  put_blocks 0 blks (lh_put_n d (Z.of_nat (length blks))).

(** The entries a header block lists. *)
Definition head_blocks (d : list Z) : list Z :=
  map (fun i => lh_get_block d i) (seqZ 0 (lh_get_n d)).

Lemma length_put_blocks i blks d :
  0 <= i -> (4 + 4 * (Z.to_nat i + length blks) <= length d)%nat -> length (put_blocks i blks d) = length d.
Proof.
  revert i d; induction blks as [|b blks IH]; intros i d Hi Hl; [done|]. cbn [length put_blocks] in *.
  rewrite IH; unfold lh_put_block; rewrite ?length_put_u32; lia.
Qed.

Lemma put_blocks_get_n i blks d :
  0 <= i -> (4 + 4 * (Z.to_nat i + length blks) <= length d)%nat ->
  get_u32 (put_blocks i blks d) 0 = get_u32 d 0.
Proof.
  revert i d; induction blks as [|b blks IH]; intros i d Hi Hl; [done|]. cbn [length put_blocks] in *.
  rewrite IH; unfold lh_put_block; rewrite ?length_put_u32 by lia; try lia.
  rewrite get_put_u32_ne; lia || done.
Qed.

Lemma put_blocks_get i blks d j :
  0 <= i -> (4 + 4 * (Z.to_nat i + length blks) <= length d)%nat -> 0 <= j ->
  get_u32 (put_blocks i blks d) (4 + 4 * Z.to_nat j) =
    if decide (i <= j < i + Z.of_nat (length blks))
    then u32 (default 0 (blks !! Z.to_nat (j - i))) else get_u32 d (4 + 4 * Z.to_nat j).
Proof.
  revert i d; induction blks as [|b blks IH]; intros i d Hi Hl Hj.
  { rewrite decide_False; [done|]. cbn. lia. }
  cbn [put_blocks length]. cbn [length] in Hl.
  rewrite IH; unfold lh_put_block; rewrite ?length_put_u32 by lia; try lia.
  destruct (decide (j = i)) as [->|Hne].
  - rewrite decide_False by lia. rewrite decide_True by lia. rewrite get_put_u32 by lia.
    by replace (Z.to_nat (i - i)) with O by lia.
  - rewrite get_put_u32_ne by lia. repeat case_decide; try lia; try done.
    replace (Z.to_nat (j - i)) with (Datatypes.S (Z.to_nat (j - (i + 1)))) by lia. done.
Qed.

Definition int_ok (x : Z) : Prop := - 2 ^ 31 <= x < 2 ^ 31.

Lemma i32_u32 x : int_ok x -> i32 (u32 x) = x.
Proof.
  intros Hx. unfold int_ok in Hx. unfold i32, u32. rewrite <-(Z.add_mod_idemp_l (x mod _)) by lia.
  rewrite Z.mod_mod, Z.add_mod_idemp_l by lia. rewrite Z.mod_small; lia.
Qed.

Section Header.
Context (d : list Z) (Hd : length d = Z.to_nat BSIZE).

Lemma length_encode_head blks :
  (length blks <= Z.to_nat LOGSIZE)%nat -> length (encode_head blks d) = Z.to_nat BSIZE.
Proof.
  intros Hl. unfold encode_head. unfold LOGSIZE, MAXOPBLOCKS, BSIZE in *.
  rewrite length_put_blocks; unfold lh_put_n; rewrite ?length_put_u32; lia.
Qed.

Lemma encode_head_n blks :
  (length blks <= Z.to_nat LOGSIZE)%nat -> lh_get_n (encode_head blks d) = Z.of_nat (length blks).
Proof.
  intros Hl. unfold encode_head, lh_get_n. unfold LOGSIZE, MAXOPBLOCKS, BSIZE in *.
  rewrite put_blocks_get_n; unfold lh_put_n; rewrite ?length_put_u32 by lia; try lia.
  rewrite get_put_u32 by lia. apply i32_u32. unfold int_ok. lia.
Qed.

(** Writing a header and reading it back. *)
Lemma head_blocks_encode blks :
  (length blks <= Z.to_nat LOGSIZE)%nat -> Forall int_ok blks -> head_blocks (encode_head blks d) = blks.
Proof.
  intros Hl Hok. unfold head_blocks. rewrite encode_head_n by done.
  apply list_eq. intros k. rewrite list_lookup_fmap. destruct (blks !! k) as [b|] eqn:E.
  - pose proof (lookup_lt_Some _ _ _ E). rewrite lookup_seqZ_lt by lia. cbn. f_equal.
    unfold lh_get_block, encode_head. unfold LOGSIZE, MAXOPBLOCKS, BSIZE in *.
    rewrite put_blocks_get; unfold lh_put_n; rewrite ?length_put_u32 by lia; try lia.
    rewrite decide_True by lia. replace (Z.to_nat (0 + Z.of_nat k - 0)) with k by lia. rewrite E. cbn.
    rewrite Forall_forall in Hok. apply i32_u32, Hok, list_elem_of_In. by eapply list_elem_of_lookup_2.
  - apply lookup_ge_None in E. rewrite lookup_seqZ_ge by lia. done.
Qed.

End Header.

(** ** Crash recovery, specified *)

Notation disk := (Z -> list Z).

Definition apply_writes (ws : list (Z * list Z)) (D : disk) : disk :=
  foldl (fun D w => fupd w.1 w.2 D) D ws.

Lemma apply_nil D : apply_writes [] D = D.
Proof. reflexivity. Qed.

Lemma apply_cons b d ws D : apply_writes ((b, d) :: ws) D = apply_writes ws (fupd b d D).
Proof. reflexivity. Qed.

Lemma apply_app ws ws' D : apply_writes (ws ++ ws') D = apply_writes ws' (apply_writes ws D).
Proof. apply foldl_app. Qed.

Lemma apply_outside ws D blk : blk ∉ ws.*1 -> apply_writes ws D blk = D blk.
Proof.
  revert D; induction ws as [|[b d] ws IH]; intros D H; [done|]. rewrite apply_cons.
  rewrite IH by set_solver. apply fupd_ne. set_solver.
Qed.

Lemma apply_lookup ws D i b d :
  NoDup ws.*1 -> ws !! i = Some (b, d) -> apply_writes ws D b = d.
Proof.
  revert D i; induction ws as [|[b' d'] ws IH]; intros D i Hnd Hi; [done|].
  cbn in Hnd. apply list.NoDup_cons in Hnd as [Hni Hnd]. destruct i as [|i]; cbn in Hi.
  - injection Hi as -> ->. rewrite apply_cons, apply_outside by done. apply fupd_eq.
  - rewrite apply_cons. by eapply IH.
Qed.

(** A prefix of two lists of writes. *)
Lemma take_app_cases {A} k (l l' : list A) :
  (exists k', take k (l ++ l') = take k' l) \/ (exists k', take k (l ++ l') = l ++ take k' l').
Proof.
  destruct (decide (k <= length l)%nat).
  - left. exists k. by apply take_app_le.
  - right. exists (k - length l)%nat. apply take_app_ge. lia.
Qed.

Lemma take_fst_subset {A B} k (l : list (A * B)) x : x ∈ (take k l).*1 -> x ∈ l.*1.
Proof. intros H. apply list_elem_of_fmap in H as (y & -> & Hy). apply list_elem_of_fmap. exists y. split; [done|].
  apply elem_of_take in Hy as (i & Hi & _). by eapply list_elem_of_lookup_2. Qed.

Section Recovery.
(** The log occupies the [size] blocks from [start]. *)
Context (start size : Z).

Definition in_log (blk : Z) : Prop := start <= blk < start + size.

(** What recovery makes of block [blk] of disk [D]. *)
Definition recovered (D : disk) (blk : Z) : list Z :=
  match list_find (eq blk) (head_blocks (D start)) with
  | Some (i, _) => D (start + 1 + Z.of_nat i)
  | None => D blk
  end.

Lemma recovered_in D blks blk i :
  head_blocks (D start) = blks -> NoDup blks -> blks !! i = Some blk ->
  recovered D blk = D (start + 1 + Z.of_nat i).
Proof.
  intros Hh Hnd Hi. unfold recovered. rewrite Hh.
  destruct (list_find (eq blk) blks) as [[j y]|] eqn:E.
  - apply list_find_Some in E as (Hj & -> & _). assert (j = i) as -> by (by eapply NoDup_lookup). done.
  - exfalso. eapply list_find_None in E. rewrite Forall_forall in E. eapply (E blk); [|done].
    apply list_elem_of_In. by eapply list_elem_of_lookup_2.
Qed.

Lemma recovered_out D blk : blk ∉ head_blocks (D start) -> recovered D blk = D blk.
Proof.
  intros Hni. unfold recovered. destruct (list_find (eq blk) _) as [[j y]|] eqn:E; [|done].
  apply list_find_Some in E as (Hj & <- & _). exfalso. apply Hni. by eapply list_elem_of_lookup_2.
Qed.

(** The writes of a transaction that logs the blocks [blks] with contents [C]
    on a disk whose header block is [h0]: the log blocks, the header, the
    home blocks, the cleared header. *)
Definition log_writes (blks : list Z) (C : disk) : list (Z * list Z) :=
  imap (fun i b => (start + 1 + Z.of_nat i, C b)) blks.
Definition home_writes (blks : list Z) (C : disk) : list (Z * list Z) := map (fun b => (b, C b)) blks.
Definition commit_writes (blks : list Z) (C : disk) (h0 : list Z) : list (Z * list Z) :=
  log_writes blks C ++ [(start, encode_head blks h0)] ++ home_writes blks C ++
  [(start, encode_head [] (encode_head blks h0))].

(** The writes of recovery on disk [D]. *)
Definition recovery_writes (D : disk) : list (Z * list Z) :=
  imap (fun i b => (b, D (start + 1 + Z.of_nat i))) (head_blocks (D start)) ++
  [(start, encode_head [] (D start))].

Lemma log_writes_fst blks C x :
  x ∈ (log_writes blks C).*1 -> start + 1 <= x < start + 1 + Z.of_nat (length blks).
Proof.
  unfold log_writes. intros H. apply list_elem_of_fmap in H as ([y d] & -> & H).
  apply elem_of_lookup_imap in H as (i & b & [= -> ->] & Hi). apply lookup_lt_Some in Hi. cbn. lia.
Qed.

Lemma log_writes_nodup blks C : NoDup (log_writes blks C).*1.
Proof.
  unfold log_writes. rewrite fmap_imap. cbn.
  apply NoDup_alt. intros i j x Hi Hj. rewrite list_lookup_imap in Hi, Hj.
  destruct (blks !! i), (blks !! j); cbn in *; simplify_eq. lia.
Qed.

Lemma home_writes_fst blks C : (home_writes blks C).*1 = blks.
Proof. unfold home_writes. induction blks; cbn; congruence. Qed.

(** A log a crash can leave behind. *)
Record head_ok (D : disk) : Prop := {
  hd_len : length (D start) = Z.to_nat BSIZE;
  hd_n : lh_get_n (D start) <= LOGSIZE;
  hd_size : Z.of_nat (length (head_blocks (D start))) < size;
  hd_nodup : NoDup (head_blocks (D start));
  hd_out : Forall (fun b => 0 <= b /\ ~ in_log b) (head_blocks (D start))
}.

Section Commit.
Context (D0 C : disk) (blks : list Z).
Context (Hlen : length (D0 start) = Z.to_nat BSIZE).
Context (Hn : (length blks <= Z.to_nat LOGSIZE)%nat) (Hsz : Z.of_nat (length blks) < size).
Context (Hnd : NoDup blks) (Hout : Forall (fun b => int_ok b /\ ~ in_log b) blks).
Context (Hpos : forall b, b ∈ blks -> 0 <= b).
(** No transaction is pending, and only the logged blocks differ. *)
Context (Hidle : head_blocks (D0 start) = []) (Hclean : forall b, b ∉ blks -> ~ in_log b -> C b = D0 b).

Let h0 := D0 start.

Lemma logged_not_start : start ∉ blks.
Proof.
  intros Hin. rewrite Forall_forall in Hout. destruct (Hout start) as [_ H]; [by apply list_elem_of_In|].
  apply H. unfold in_log. lia.
Qed.

Lemma logged_out b : b ∈ blks -> ~ in_log b.
Proof. intros Hin. rewrite Forall_forall in Hout. apply Hout. by apply list_elem_of_In. Qed.

Lemma int_blks : Forall int_ok blks.
Proof. eapply Forall_impl; [|exact Hout]. by intros ? []. Qed.

Lemma in_log_start : in_log start.
Proof. unfold in_log. lia. Qed.

(** Before the header is written. *)
Lemma crash_before k blk :
  ~ in_log blk -> recovered (apply_writes (take k (log_writes blks C)) D0) blk = D0 blk.
Proof.
  intros Hb. set (D := apply_writes _ _).
  assert (Hs : D start = D0 start).
  { apply apply_outside. intros H. apply take_fst_subset, log_writes_fst in H. lia. }
  rewrite recovered_out by (rewrite Hs, Hidle; set_solver).
  apply apply_outside. intros H. apply take_fst_subset, log_writes_fst in H. unfold in_log in Hb. lia.
Qed.

(** The disk once the header is written, and while the home blocks are. *)
Lemma crash_after k blk :
  ~ in_log blk ->
  recovered (apply_writes (take k (home_writes blks C))
    (fupd start (encode_head blks h0) (apply_writes (log_writes blks C) D0))) blk = C blk.
Proof.
  intros Hb. set (D2 := fupd _ _ _). set (D := apply_writes _ D2).
  assert (Hin : forall x, in_log x -> D x = D2 x).
  { intros x Hx. apply apply_outside. intros H. apply take_fst_subset in H. rewrite home_writes_fst in H.
    by apply (logged_out x). }
  assert (Hs : head_blocks (D start) = blks).
  { rewrite Hin by apply in_log_start. unfold D2. rewrite fupd_eq.
    apply head_blocks_encode; [apply Hlen|done|apply int_blks]. }
  destruct (decide (blk ∈ blks)) as [Hl|Hl].
  - apply list_elem_of_lookup in Hl as [i Hi]. rewrite (recovered_in D blks blk i) by done.
    pose proof (lookup_lt_Some _ _ _ Hi). rewrite Hin by (unfold in_log; lia).
    unfold D2. rewrite fupd_ne by lia.
    apply (apply_lookup _ _ i); [apply log_writes_nodup|]. unfold log_writes.
    by rewrite list_lookup_imap, Hi.
  - rewrite recovered_out by (by rewrite Hs). unfold D. rewrite apply_outside.
    + unfold D2. rewrite fupd_ne by (intros ->; apply Hb, in_log_start). rewrite apply_outside.
      * by rewrite Hclean.
      * intros H. apply log_writes_fst in H. unfold in_log in Hb. lia.
    + intros H. apply take_fst_subset in H. by rewrite home_writes_fst in H.
Qed.

(** After the header is cleared. *)
Lemma crash_done blk :
  ~ in_log blk ->
  recovered (apply_writes (commit_writes blks C h0) D0) blk = C blk /\
  apply_writes (commit_writes blks C h0) D0 blk = C blk.
Proof.
  intros Hb. unfold commit_writes. rewrite !apply_app. cbn [apply_writes foldl fst snd]. rewrite recovered_out.
  - rewrite fupd_ne by (intros ->; apply Hb, in_log_start). split; [|].
    all: destruct (decide (blk ∈ blks)) as [Hl|Hl].
    all: try (apply list_elem_of_lookup in Hl as [i Hi]; apply (apply_lookup _ _ i);
      [by rewrite home_writes_fst|unfold home_writes; change (map ?f ?l) with (f <$> l); by rewrite list_lookup_fmap, Hi]).
    all: rewrite apply_outside by (by rewrite home_writes_fst);
      rewrite fupd_ne by (intros ->; apply Hb, in_log_start);
      rewrite apply_outside; [by rewrite Hclean|]; intros H; apply log_writes_fst in H; unfold in_log in Hb; lia.
  - rewrite fupd_eq. rewrite head_blocks_encode; [set_solver| |cbn; lia|constructor].
    apply length_encode_head; [apply Hlen|done].
Qed.

(** A crash at any point of a commit. *)
Lemma commit_crash k :
  let D := apply_writes (take k (commit_writes blks C h0)) D0 in
  (forall blk, ~ in_log blk -> recovered D blk = D0 blk) \/
  (forall blk, ~ in_log blk -> recovered D blk = C blk).
Proof.
  intros D. unfold D, commit_writes.
  destruct (take_app_cases k (log_writes blks C) ([(start, encode_head blks h0)] ++
     home_writes blks C ++ [(start, encode_head [] (encode_head blks h0))])) as [[k1 ->]|[k1 ->]].
  { left. intros blk. apply crash_before. }
  destruct k1 as [|k1].
  { left. intros blk. rewrite app_nil_r. rewrite <-(firstn_all (log_writes blks C)). apply crash_before. }
  right. intros blk Hb. cbn [app take]. rewrite apply_app. cbn [apply_writes foldl fst snd].
  destruct (take_app_cases k1 (home_writes blks C) [(start, encode_head [] (encode_head blks h0))])
    as [[k2 ->]|[k2 ->]]; [by apply crash_after|].
  destruct k2 as [|k2].
  - rewrite app_nil_r. rewrite <-(firstn_all (home_writes blks C)). by apply crash_after.
  - pose proof (proj1 (crash_done blk Hb)) as H. unfold commit_writes in H.
    rewrite apply_app in H. cbn [app] in H. cbn [apply_writes foldl fst snd] in H.
    cbn [take]. by rewrite take_nil.
Qed.

(** The log of such a disk is in order. *)
Lemma commit_crash_head k : head_ok (apply_writes (take k (commit_writes blks C h0)) D0).
Proof.
  assert (Hgo : forall D, length (D start) = Z.to_nat BSIZE ->
    head_blocks (D start) = [] \/ head_blocks (D start) = blks -> head_ok D).
  { intros D HD Hh. pose proof (int_blks) as Hi.
    assert (Hn' : Z.of_nat (length (head_blocks (D start))) = Z.max 0 (lh_get_n (D start))).
    { unfold head_blocks. rewrite length_map, length_seqZ. lia. }
    unfold LOGSIZE, MAXOPBLOCKS in *.
    destruct Hh as [E|E]; rewrite E in Hn'; (split; rewrite ?E; [done|unfold LOGSIZE, MAXOPBLOCKS; cbn [length] in Hn'; lia|cbn [length]; lia| |]).
    - constructor.
    - constructor.
    - done.
    - rewrite Forall_forall in Hout |- *. intros b Hb. split; [by apply Hpos, list_elem_of_In|by apply Hout]. }
  assert (E0 : length h0 = Z.to_nat BSIZE) by apply Hlen.
  assert (E1 : length (encode_head blks h0) = Z.to_nat BSIZE) by (by apply length_encode_head).
  assert (E2 : length (encode_head [] (encode_head blks h0)) = Z.to_nat BSIZE) by (apply length_encode_head; [done|cbn; lia]).
  assert (B1 : head_blocks (encode_head blks h0) = blks) by (apply head_blocks_encode; [done|done|apply int_blks]).
  assert (B2 : head_blocks (encode_head [] (encode_head blks h0)) = []) by (apply head_blocks_encode; [done|cbn; lia|constructor]).
  assert (Hl : forall k, apply_writes (take k (log_writes blks C)) D0 start = h0).
  { intros k'. apply apply_outside. intros H. apply take_fst_subset, log_writes_fst in H. lia. }
  assert (Hh : forall k D, apply_writes (take k (home_writes blks C)) D start = D start).
  { intros k' D. apply apply_outside. intros H. apply take_fst_subset in H. rewrite home_writes_fst in H. by apply logged_not_start. }
  unfold commit_writes.
  destruct (take_app_cases k (log_writes blks C) ([(start, encode_head blks h0)] ++
     home_writes blks C ++ [(start, encode_head [] (encode_head blks h0))])) as [[k1 ->]|[k1 ->]].
  { apply Hgo; rewrite Hl; [done|by left]. }
  destruct k1 as [|k1].
  { rewrite app_nil_r, <-(firstn_all (log_writes blks C)). apply Hgo; rewrite Hl; [done|by left]. }
  cbn [app take]. rewrite apply_app, apply_cons.
  destruct (take_app_cases k1 (home_writes blks C) [(start, encode_head [] (encode_head blks h0))])
    as [[k2 ->]|[k2 ->]]; [apply Hgo; rewrite Hh, fupd_eq; [done|by right]|].
  rewrite apply_app. destruct k2 as [|k2].
  - cbn [take]. change (apply_writes [] ?E) with E. rewrite <-(firstn_all (home_writes blks C)).
    apply Hgo; rewrite Hh, fupd_eq; [done|by right].
  - cbn [take]. rewrite take_nil, apply_cons. change (apply_writes [] ?E) with E.
    apply Hgo; rewrite fupd_eq; [done|by left].
Qed.

End Commit.

Section Recover.
Context (D : disk) (Hok : head_ok D).
Let blks := head_blocks (D start).
Let installs : list (Z * list Z) := imap (fun i b => (b, D (start + 1 + Z.of_nat i))) blks.

Lemma installs_fst : installs.*1 = blks.
Proof.
  unfold installs. rewrite fmap_imap. cbn. apply list_eq. intros i. rewrite list_lookup_imap. by destruct (blks !! i).
Qed.

Lemma blks_out b : b ∈ blks -> ~ in_log b.
Proof.
  intros Hin. pose proof (hd_out _ Hok) as H. rewrite Forall_forall in H. apply H. by apply list_elem_of_In.
Qed.

Lemma start_in : in_log start.
Proof. pose proof (hd_size _ Hok). unfold in_log. lia. Qed.

Lemma recover_before k blk :
  ~ in_log blk -> recovered (apply_writes (take k installs) D) blk = recovered D blk.
Proof.
  intros Hb. set (D' := apply_writes _ _).
  assert (Hin : forall x, in_log x -> D' x = D x).
  { intros x Hx. apply apply_outside. intros H. apply take_fst_subset in H. rewrite installs_fst in H.
    by apply (blks_out x). }
  assert (Hs : D' start = D start) by (apply Hin, start_in).
  destruct (decide (blk ∈ blks)) as [Hl|Hl].
  - apply list_elem_of_lookup in Hl as [i Hi]. pose proof (lookup_lt_Some _ _ _ Hi).
    pose proof (hd_size _ Hok) as Hsz. fold blks in Hsz.
    rewrite (recovered_in D' blks blk i), (recovered_in D blks blk i); try done; try apply Hok; [|by rewrite Hs].
    apply Hin. unfold in_log. lia.
  - rewrite !recovered_out by (by rewrite ?Hs). apply apply_outside. intros H.
    apply take_fst_subset in H. by rewrite installs_fst in H.
Qed.

Lemma recover_done blk :
  ~ in_log blk -> apply_writes (recovery_writes D) D blk = recovered D blk.
Proof.
  intros Hb. unfold recovery_writes. fold blks installs. rewrite apply_app, apply_cons.
  change (apply_writes [] ?E) with E. rewrite fupd_ne by (intros ->; apply Hb, start_in).
  destruct (decide (blk ∈ blks)) as [Hl|Hl].
  - apply list_elem_of_lookup in Hl as [i Hi].
    rewrite (recovered_in D blks blk i) by (done || apply Hok).
    apply (apply_lookup _ _ i); [rewrite installs_fst; apply Hok|].
    unfold installs. by rewrite list_lookup_imap, Hi.
  - rewrite recovered_out by done. apply apply_outside. by rewrite installs_fst.
Qed.

Lemma recover_head : head_blocks (apply_writes (recovery_writes D) D start) = [].
Proof.
  unfold recovery_writes. rewrite apply_app, apply_cons. change (apply_writes [] ?E) with E. rewrite fupd_eq.
  apply head_blocks_encode; [apply Hok|cbn; lia|constructor].
Qed.

(** A crash during recovery, at any point, loses nothing. *)
Lemma recovery_crash k blk :
  ~ in_log blk -> recovered (apply_writes (take k (recovery_writes D)) D) blk = recovered D blk.
Proof.
  intros Hb. unfold recovery_writes. fold blks installs.
  destruct (take_app_cases k installs [(start, encode_head [] (D start))]) as [[k1 ->]|[k1 ->]].
  { by apply recover_before. }
  destruct k1 as [|k1].
  { rewrite app_nil_r. rewrite <-(firstn_all installs). by apply recover_before. }
  cbn [take]. rewrite take_nil. change (installs ++ [(start, encode_head [] (D start))]) with (recovery_writes D).
  rewrite recovered_out by (rewrite recover_head; set_solver). by apply recover_done.
Qed.

End Recover.
End Recovery.
