(* ===== verification/LogSpec.v ===== *)
(** * The routines of log.c implement the log

    Over any buffer cache that keeps the contract of BufCache.v: commit()
    performs the writes [commit_writes], recovery the writes
    [recovery_writes], so that the crash theorems of LogFacts.v hold of the
    code; log_write() absorbs repeated writes and pins each block once. *)

From Stdlib Require Import FunctionalExtensionality.
From S2P Require Import Prelude Spinlock Riscv BufCache Log LogFacts.

(** Block [blk] gets the contents [d], in the cache and on the disk. *)
Definition v_put (blk : Z) (d : list Z) (v : bview) : bview :=
  mkBview (slots v) (held v) (fupd blk d (contents v)) (fupd blk d (dcontents v)) ((blk, d) :: history v).

Lemma bview_eq v v' :
  slots v = slots v' -> held v = held v' -> contents v = contents v' -> dcontents v = dcontents v' ->
  history v = history v' -> v = v'.
Proof. destruct v, v'. cbn. by intros -> -> -> -> ->. Qed.

Section Spec.
Context {S : Type} `{HB : BufCache S dv R} (me : Z).
Notation st := (lstate S).

Lemma wp_bcall {A} (m : M S A) (s : st) (Q : A -> st -> Prop) :
  wp m (bs s) (fun a b => Q a (mkLstate (lg s) b)) -> wp (bcall m) s Q.
Proof. intros Hm. unfold bcall. by apply wp_zoom. Qed.

Lemma wp_getl (s : st) (Q : flog -> st -> Prop) : Q (lg s) s -> wp getl s Q.
Proof. done. Qed.

Lemma wp_load s i x (Q : Z -> st -> Prop) :
  0 <= i -> lh_block (lg s) !! Z.to_nat i = Some x -> Q x s -> wp (load_lh_block i) s Q.
Proof. intros Hi Hx HQ. unfold load_lh_block. wp_step. apply wp_getl. by rewrite Hx. Qed.

(** The cache as commit() finds it: nothing locked, a buffer to spare. *)
Record quiet (v : bview) : Prop := {
  q_held : held v = ∅;
  q_room : Z.of_nat (size (slots v)) < NBUF
}.

(** ** Copying a block *)

(** One iteration of write_log(): block [from], in use, is copied to block
    [to], which is not. *)
Lemma wp_log_block s v to from b c :
  R s v -> quiet v -> 0 <= to < 2 ^ 32 -> slots v !! to = None -> 0 <= from < 2 ^ 32 ->
  slots v !! from = Some (b, c) -> 1 <= c -> cnt_ok c ->
  wp (let! t := bread dv to in
      let! f := bread dv from in
      let! d := bdata f in
      set_bdata t d ;; bwrite t ;; brelse f ;; brelse t) s
    (fun _ s' => R s' (v_put to (contents v from) v)).
Proof.
  intros HR [Hh Hroom] Hto Hnone Hfrom Hsome Hc Hcnt.
  assert (Hne : to <> from) by congruence.
  wp_step. eapply wp_mono; [apply (law_bread s v to); try done; [rewrite Hh; set_solver|by rewrite Hnone]|].
  intros t s1 H1. rewrite Hnone in H1. cbn beta.
  wp_step. eapply wp_mono.
  { apply (law_bread s1 _ from H1); cbn; [done|rewrite Hh; set_solver|].
    rewrite lookup_insert_ne by done. by rewrite Hsome. }
  intros f s2. cbn [slots v_take]. rewrite lookup_insert_ne, Hsome by done. intros [-> H2].
  set (v2 := v_take from b (c + 1) (v_take to t 1 v)) in *.
  assert (Hft : slots v2 !! to = Some (t, 1)) by (cbn; rewrite lookup_insert_ne by done; apply lookup_insert_eq).
  assert (Hff : slots v2 !! from = Some (b, c + 1)) by (cbn; apply lookup_insert_eq).
  assert (Htin : to ∈ held v2) by (cbn; set_solver). assert (Hfin : from ∈ held v2) by (cbn; set_solver).
  wp_step. eapply wp_mono; [by apply (law_bdata s2 v2 from b (c + 1))|]. intros d s3 [-> ->].
  wp_step. eapply wp_mono; [apply (law_set_bdata s2 v2 to t 1); try done; by eapply law_len|]. intros [] s4 H4. cbn beta in H4.
  wp_step. eapply wp_mono; [by apply (law_bwrite s4 _ to t 1 H4)|]. intros [] s5 H5. cbn beta in H5.
  wp_step. eapply wp_mono; [apply (law_brelse s5 _ from b (c + 1) H5); [done|done|lia]|]. intros [] s6 H6. cbn beta in H6.
  eapply wp_mono; [apply (law_brelse s6 _ to t 1 H6)|].
  - cbn -[lookup]. rewrite decide_False by lia. rewrite lookup_insert_ne by done. done.
  - cbn. set_solver.
  - intros _. cbn. by rewrite !fupd_eq.
  - intros [] s7 H7. cbn beta in H7. cbn beta in H7. erewrite (bview_eq (v_put _ _ _)); [exact H7|..]; cbn.
    + rewrite decide_True, (decide_False (P := c + 1 = 1)) by lia. rewrite insert_insert_eq. rewrite delete_insert_ne by done.
      rewrite delete_insert_id by done. by rewrite insert_id by (rewrite Hsome; do 2 f_equal; lia).
    + rewrite Hh. set_solver.
    + done.
    + by rewrite fupd_eq.
    + by rewrite fupd_eq.
Qed.

(** One pin of block [blk] is given back. *)
Definition v_unpin (blk b c : Z) (v : bview) : bview :=
  mkBview (if decide (c = 1) then delete blk (slots v) else <[blk := (b, c - 1)]> (slots v))
    (held v) (contents v) (dcontents v) (history v).

(** One iteration of install_trans(0): log block [lb] is copied to its pinned
    home block [dst]. *)
Lemma wp_install_block s v lb dst b c :
  R s v -> quiet v -> 0 <= lb < 2 ^ 32 -> slots v !! lb = None -> 0 <= dst < 2 ^ 32 ->
  slots v !! dst = Some (b, c) -> 1 <= c -> cnt_ok c ->
  wp (let! l := bread dv lb in
      let! t := bread dv dst in
      let! d := bdata l in
      set_bdata t d ;; bwrite t ;; bunpin t ;; brelse l ;; brelse t) s
    (fun _ s' => R s' (v_put dst (contents v lb) (v_unpin dst b c v))).
Proof.
  intros HR [Hh Hroom] Hlb Hnone Hdst Hsome Hc Hcnt.
  assert (Hne : lb <> dst) by congruence.
  assert (Hclean : contents v lb = dcontents v lb) by (by eapply law_clean).
  wp_step. eapply wp_mono; [apply (law_bread s v lb); try done; [rewrite Hh; set_solver|by rewrite Hnone]|].
  intros l s1 H1. rewrite Hnone in H1. cbn beta.
  wp_step. eapply wp_mono.
  { apply (law_bread s1 _ dst H1); cbn; [done|rewrite Hh; set_solver|].
    rewrite lookup_insert_ne by done. by rewrite Hsome. }
  intros t s2. cbn [slots v_take]. rewrite lookup_insert_ne, Hsome by done. intros [-> H2].
  set (v2 := v_take dst b (c + 1) (v_take lb l 1 v)) in *.
  assert (Hft : slots v2 !! lb = Some (l, 1)) by (cbn; rewrite lookup_insert_ne by done; apply lookup_insert_eq).
  assert (Hff : slots v2 !! dst = Some (b, c + 1)) by (cbn; apply lookup_insert_eq).
  assert (Htin : lb ∈ held v2) by (cbn; set_solver). assert (Hfin : dst ∈ held v2) by (cbn; set_solver).
  wp_step. eapply wp_mono; [by apply (law_bdata s2 v2 lb l 1)|]. intros d s3 [-> ->].
  wp_step. eapply wp_mono; [apply (law_set_bdata s2 v2 dst b (c + 1)); try done; by eapply law_len|].
  intros [] s4 H4. cbn beta in H4.
  wp_step. eapply wp_mono; [by apply (law_bwrite s4 _ dst b (c + 1) H4)|]. intros [] s5 H5. cbn beta in H5.
  wp_step. eapply wp_mono; [apply (law_bunpin s5 _ dst b (c + 1) H5); [done|lia]|]. intros [] s6 H6. cbn beta in H6.
  wp_step. eapply wp_mono; [apply (law_brelse s6 _ lb l 1 H6)|].
  { cbn -[lookup]. by rewrite lookup_insert_ne. }
  { done. }
  { intros _. cbn. by rewrite !fupd_ne. }
  intros [] s7 H7. cbn beta in H7. eapply wp_mono; [apply (law_brelse s7 _ dst b c H7)|].
  - cbn -[lookup]. rewrite (decide_True (P := 1 = 1)) by done.
    rewrite lookup_delete_ne, lookup_insert_eq by done. do 2 f_equal. lia.
  - cbn. set_solver.
  - intros _. cbn. by rewrite !fupd_eq.
  - intros [] s8 H8. cbn beta in H8. erewrite (bview_eq (v_put _ _ _)); [exact H8|..]; cbn.
    + rewrite (decide_True (P := 1 = 1)) by done. rewrite !insert_insert_eq. rewrite delete_insert_ne by done.
      replace (delete lb (<[lb:=(l, 1)]> (slots v))) with (slots v) by (by rewrite delete_insert_id).
      case_decide; [by rewrite delete_insert_eq|by rewrite insert_insert_eq].
    + rewrite Hh. set_solver.
    + done.
    + by rewrite fupd_eq.
    + by rewrite fupd_eq.
Qed.

(** One iteration of install_trans(1), after a boot: neither block is in use. *)
Lemma wp_recover_block s v lb dst :
  R s v -> held v = ∅ -> Z.of_nat (size (slots v)) + 1 < NBUF -> 0 <= lb < 2 ^ 32 -> slots v !! lb = None ->
  0 <= dst < 2 ^ 32 -> slots v !! dst = None -> lb <> dst ->
  wp (let! l := bread dv lb in
      let! t := bread dv dst in
      let! d := bdata l in
      set_bdata t d ;; bwrite t ;; brelse l ;; brelse t) s
    (fun _ s' => R s' (v_put dst (contents v lb) v)).
Proof.
  intros HR Hh Hroom Hlb Hnone Hdst Hnone' Hne.
  assert (Hclean : contents v lb = dcontents v lb) by (by eapply law_clean).
  wp_step. eapply wp_mono; [apply (law_bread s v lb); try done; [rewrite Hh; set_solver|rewrite Hnone; lia]|].
  intros l s1 H1. rewrite Hnone in H1. cbn beta.
  wp_step. eapply wp_mono.
  { apply (law_bread s1 _ dst H1); cbn -[size]; [done|rewrite Hh; set_solver|].
    rewrite lookup_insert_ne, Hnone' by done. rewrite map_size_insert_None by done. lia. }
  intros t s2. cbn [slots v_take]. rewrite lookup_insert_ne, Hnone' by done. intros H2.
  set (v2 := v_take dst t 1 (v_take lb l 1 v)) in *.
  assert (Hft : slots v2 !! lb = Some (l, 1)) by (cbn; rewrite lookup_insert_ne by done; apply lookup_insert_eq).
  assert (Hff : slots v2 !! dst = Some (t, 1)) by (cbn; apply lookup_insert_eq).
  assert (Htin : lb ∈ held v2) by (cbn; set_solver). assert (Hfin : dst ∈ held v2) by (cbn; set_solver).
  wp_step. eapply wp_mono; [by apply (law_bdata s2 v2 lb l 1)|]. intros d s3 [-> ->].
  wp_step. eapply wp_mono; [apply (law_set_bdata s2 v2 dst t 1); try done; by eapply law_len|].
  intros [] s4 H4. cbn beta in H4.
  wp_step. eapply wp_mono; [by apply (law_bwrite s4 _ dst t 1 H4)|]. intros [] s5 H5. cbn beta in H5.
  wp_step. eapply wp_mono; [apply (law_brelse s5 _ lb l 1 H5); [done|done|]|].
  { intros _. cbn. by rewrite !fupd_ne. }
  intros [] s7 H7. cbn beta in H7. eapply wp_mono; [apply (law_brelse s7 _ dst t 1 H7)|].
  - cbn -[lookup]. rewrite decide_True by done. rewrite lookup_delete_ne by done. by rewrite lookup_insert_eq.
  - cbn. set_solver.
  - intros _. cbn. by rewrite !fupd_eq.
  - intros [] s8 H8. cbn beta in H8. erewrite (bview_eq (v_put _ _ _)); [exact H8|..]; cbn.
    + rewrite !(decide_True (P := 1 = 1)) by done. rewrite delete_insert_ne by done.
      replace (delete lb (<[lb:=(l, 1)]> (slots v))) with (slots v) by (by rewrite delete_insert_id).
      by rewrite delete_insert_id.
    + rewrite Hh. set_solver.
    + done.
    + by rewrite fupd_eq.
    + by rewrite fupd_eq.
Qed.

(** ** The header *)

Lemma wp_for_int (I : Z -> st -> Prop) body n s :
  I 0 s -> (forall i s, 0 <= i < Z.max 0 n -> I i s -> wp (body i) s (fun _ s' => I (i + 1) s')) ->
  wp (for_int n body) s (fun _ s' => I (Z.max 0 n) s').
Proof.
  intros H0 Hb. unfold for_int. eapply wp_mono; [apply (wp_for_range I); [done|]|].
  - intros i s' Hi. apply Hb. lia.
  - intros [] s' HI. cbn beta in HI. by replace (Z.max 0 n) with (0 + Z.of_nat (Z.to_nat n)) by lia.
Qed.

Lemma put_blocks_app i l1 l2 d :
  put_blocks i (l1 ++ l2) d = put_blocks (i + Z.of_nat (length l1)) l2 (put_blocks i l1 d).
Proof.
  revert i d; induction l1 as [|b l1 IH]; intros i d; cbn [app put_blocks length]; [by rewrite Z.add_0_r|].
  rewrite IH. f_equal. lia.
Qed.

(** write_head() writes the header for the logged blocks. *)
Lemma wp_write_head s v blks :
  R (bs s) v -> quiet v -> log_dev (lg s) = dv -> 0 <= log_start (lg s) < 2 ^ 31 ->
  slots v !! log_start (lg s) = None ->
  take (length blks) (lh_block (lg s)) = blks -> lh_n (lg s) = Z.of_nat (length blks) ->
  (length blks <= Z.to_nat LOGSIZE)%nat ->
  wp write_head s (fun _ s' => lg s' = lg s /\
    R (bs s') (v_put (log_start (lg s)) (encode_head blks (contents v (log_start (lg s)))) v)).
Proof.
  intros HR [Hh Hroom] Hdv Hst Hnone Hblks Hn Hlen. set (start := log_start (lg s)) in *.
  assert (HL := law_len (bs s) v start HR).
  unfold write_head. wp_step. apply wp_getl. rewrite Hdv. fold start. rewrite u32_small by lia.
  wp_step. apply wp_bcall. eapply wp_mono;
    [apply (law_bread (bs s) v start); try done; [lia|rewrite Hh; set_solver|by rewrite Hnone]|].
  intros b s1 H1. rewrite Hnone in H1. cbn beta.
  assert (Hsl : forall d, slots (v_set start d (v_take start b 1 v)) !! start = Some (b, 1)) by (intros; apply lookup_insert_eq).
  wp_step. apply wp_bcall. eapply wp_mono; [apply (law_bdata _ _ start b 1 H1); [apply (Hsl [])|cbn; set_solver]|].
  intros hb s2 [-> ->]. cbn [bs lg]. wp_step. apply wp_bcall.
  eapply wp_mono; [apply (law_set_bdata _ _ start b 1 _ H1); [apply (Hsl [])|cbn; set_solver|]|].
  { cbn [contents v_take]. unfold lh_put_n. rewrite length_put_u32; [done|]. rewrite HL. unfold BSIZE. lia. }
  intros [] s3 H3. cbn beta in H3. cbn [bs lg contents v_take] in *. rewrite Hn in H3 |- *. wp_step.
  eapply wp_mono.
  - apply (wp_for_int (fun i s' => lg s' = lg s /\
      R (bs s') (v_set start (put_blocks 0 (take (Z.to_nat i) blks)
        (lh_put_n (contents v start) (Z.of_nat (length blks)))) (v_take start b 1 v)))); [done|].
    intros i s' Hi [El HR']. destruct (lookup_lt_is_Some_2 blks (Z.to_nat i)) as [x Hx]; [lia|].
    wp_step. apply (wp_load _ i x); [lia| |].
    { rewrite El. rewrite <-Hblks in Hx. by apply lookup_take_Some in Hx as [? _]. }
    wp_step. apply wp_bcall. eapply wp_mono; [apply (law_bdata _ _ start b 1 HR'); [apply Hsl|cbn; set_solver]|].
    intros hb s4 [-> ->]. cbn beta. cbn [bs lg].
    apply wp_bcall. eapply wp_mono; [apply (law_set_bdata _ _ start b 1 _ HR'); [apply Hsl|cbn; set_solver|]|].
    { assert (HL' := law_len _ _ start HR'). unfold lh_put_block. rewrite length_put_u32; [done|].
      rewrite HL'. unfold BSIZE, LOGSIZE, MAXOPBLOCKS in *. lia. }
    intros [] s5 H5. cbn beta in H5. cbn [lg bs]. split; [done|].
    erewrite (bview_eq (v_set _ _ _)); [exact H5|..]; try done. cbn. rewrite fupd_eq.
    replace (Z.to_nat (i + 1)) with (Datatypes.S (Z.to_nat i)) by lia. rewrite (take_S_r _ _ x) by done.
    rewrite put_blocks_app, length_take. rewrite Nat.min_l by lia. rewrite Z.add_0_l, Z2Nat.id by lia. cbn [put_blocks].
    unfold fupd. extensionality y. by case_decide.
  - intros [] s4 [El H4]. cbn beta. cbn [bs lg] in *.
    replace (Z.to_nat (Z.max 0 (Z.of_nat (length blks)))) with (length blks) in H4 by lia. rewrite firstn_all in H4.
    fold (encode_head blks (contents v start)) in H4.
    wp_step. apply wp_bcall. eapply wp_mono; [apply (law_bwrite _ _ start b 1 H4); [apply Hsl|cbn; set_solver]|].
    intros [] s5 H5. cbn beta in H5. cbn beta. cbn [bs lg]. apply wp_bcall.
    eapply wp_mono; [apply (law_brelse _ _ start b 1 H5); [apply (Hsl [])|cbn; set_solver|]|].
    { intros _. cbn. by rewrite !fupd_eq. }
    intros [] s6 H6. cbn beta in H6. cbn [bs lg]. split; [done|].
    erewrite (bview_eq (v_put _ _ _)); [exact H6|..]; cbn.
    + rewrite decide_True by done. by rewrite delete_insert_id.
    + rewrite Hh. set_solver.
    + done.
    + by rewrite fupd_eq.
    + by rewrite fupd_eq.
Qed.

(** ** Sequences of writes *)

Definition v_puts (ws : list (Z * list Z)) (v : bview) : bview :=
  mkBview (slots v) (held v) (apply_writes ws (contents v)) (apply_writes ws (dcontents v))
    (reverse ws ++ history v).

Lemma v_puts_nil v : v_puts [] v = v.
Proof. by destruct v. Qed.

Lemma v_puts_snoc ws k d v : v_put k d (v_puts ws v) = v_puts (ws ++ [(k, d)]) v.
Proof. apply bview_eq; cbn -[apply_writes]; rewrite ?apply_app, ?reverse_app; done. Qed.

Lemma v_puts_app ws ws' v : v_puts ws' (v_puts ws v) = v_puts (ws ++ ws') v.
Proof. apply bview_eq; cbn -[apply_writes]; rewrite ?apply_app, ?reverse_app, ?app_assoc; done. Qed.

(** The bodies of the loops, as calls of the cache alone. *)
Lemma wp_lift {A B} (m : M S A) (k : A -> M S B) (K : A -> M st B) l x (Q : B -> st -> Prop) :
  wp (bind m k) x (fun b y => Q b (mkLstate l y)) ->
  (forall a y, wp (k a) y (fun b y => Q b (mkLstate l y)) -> wp (K a) (mkLstate l y) Q) ->
  wp (bind (bcall m) K) (mkLstate l x) Q.
Proof.
  unfold wp, bind, bcall, zoom. cbn. destruct (m x) as [a y| | | |]; try done. intros H1 H2. by apply (H2 a y).
Qed.

Lemma wp_write_log_body s tail x Q :
  0 <= tail -> lh_block (lg s) !! Z.to_nat tail = Some x -> log_dev (lg s) = dv ->
  wp (let! t := bread dv (u32 (log_start (lg s) + tail + 1)) in
      let! f := bread dv (u32 x) in
      let! d := bdata f in
      set_bdata t d ;; bwrite t ;; brelse f ;; brelse t) (bs s) (fun a b => Q a (mkLstate (lg s) b)) ->
  wp (let! l := getl in
      let! to := bcall (bread (log_dev l) (u32 (log_start l + tail + 1))) in
      let! src := load_lh_block tail in
      let! from := bcall (bread (log_dev l) (u32 src)) in
      let! d := bcall (bdata from) in
      bcall (set_bdata to d) ;; bcall (bwrite to) ;; bcall (brelse from) ;; bcall (brelse to)) s Q.
Proof.
  intros Ht Hx Hdv W. destruct s as [l x0]. cbn [lg bs] in *. wp_step. apply wp_getl. cbn [lg]. rewrite Hdv.
  eapply wp_lift; [exact W|]. intros t y1 W1. wp_step. apply (wp_load _ tail x); [done|done|].
  do 5 (eapply wp_lift; [eassumption|]; intros ? ? ?). by apply wp_bcall.
Qed.

Lemma wp_install_body s tail x (r : Z) Q :
  0 <= tail -> lh_block (lg s) !! Z.to_nat tail = Some x -> log_dev (lg s) = dv ->
  wp (let! l := bread dv (u32 (log_start (lg s) + tail + 1)) in
      let! t := bread dv (u32 x) in
      let! d := bdata l in
      set_bdata t d ;; bwrite t ;; when (r =? 0) (bunpin t) ;; brelse l ;; brelse t) (bs s)
    (fun a b => Q a (mkLstate (lg s) b)) ->
  wp (let! l := getl in
      let! lbuf := bcall (bread (log_dev l) (u32 (log_start l + tail + 1))) in
      let! dst := load_lh_block tail in
      let! dbuf := bcall (bread (log_dev l) (u32 dst)) in
      let! d := bcall (bdata lbuf) in
      bcall (set_bdata dbuf d) ;; bcall (bwrite dbuf) ;; when (r =? 0) (bcall (bunpin dbuf)) ;;
      bcall (brelse lbuf) ;; bcall (brelse dbuf)) s Q.
Proof.
  intros Ht Hx Hdv W. destruct s as [l x0]. cbn [lg bs] in *. wp_step. apply wp_getl. cbn [lg]. rewrite Hdv.
  eapply wp_lift; [exact W|]. intros t y1 W1. wp_step. apply (wp_load _ tail x); [done|done|].
  do 4 (eapply wp_lift; [eassumption|]; intros ? ? ?).
  destruct (r =? 0); unfold when in *.
  - do 2 (eapply wp_lift; [eassumption|]; intros ? ? ?). by apply wp_bcall.
  - wp_step. wp_step. eapply wp_lift; [|intros a3 y4 W4; apply wp_bcall; exact W4].
    match goal with W : wp (bind (ret tt) _) _ _ |- _ => exact W end.
Qed.

(** ** commit *)

(** A transaction ready to commit: the logged blocks [blks] are distinct,
    pinned in the cache and outside the log; all other blocks are clean; the
    log on disk is empty. *)
Record ready (s : st) (v : bview) (blks : list Z) : Prop := {
  rd_R : R (bs s) v;
  rd_quiet : quiet v;
  rd_dev : log_dev (lg s) = dv;
  rd_start : 0 <= log_start (lg s) /\ log_start (lg s) + log_size (lg s) <= 2 ^ 31;
  rd_n : lh_n (lg s) = Z.of_nat (length blks);
  rd_blks : take (length blks) (lh_block (lg s)) = blks;
  rd_max : (length blks <= Z.to_nat LOGSIZE)%nat;
  rd_size : Z.of_nat (length blks) < log_size (lg s);
  rd_nodup : NoDup blks;
  rd_out : Forall (fun b => 0 <= b < 2 ^ 31 /\ ~ in_log (log_start (lg s)) (log_size (lg s)) b) blks;
  rd_logfree : forall b, in_log (log_start (lg s)) (log_size (lg s)) b -> slots v !! b = None;
  rd_pinned : forall b, b ∈ blks -> exists x c, slots v !! b = Some (x, c) /\ 1 <= c /\ cnt_ok c;
  rd_clean : forall b, b ∉ blks -> contents v b = dcontents v b;
  rd_idle : head_blocks (dcontents v (log_start (lg s))) = []
}.

(** The slots after one pin of each of [blks] was given back. *)
Definition unpin1 (m : gmap Z (Z * Z)) (b : Z) : gmap Z (Z * Z) :=
  match m !! b with
  | Some (x, c) => if decide (c = 1) then delete b m else <[b := (x, c - 1)]> m
  | None => m
  end.
Definition unpins (blks : list Z) (m : gmap Z (Z * Z)) : gmap Z (Z * Z) := foldl unpin1 m blks.

Lemma unpin1_ne m b x : x <> b -> unpin1 m b !! x = m !! x.
Proof.
  intros. unfold unpin1. destruct (m !! b) as [[y c]|]; [|done].
  case_decide; [by rewrite lookup_delete_ne|by rewrite lookup_insert_ne].
Qed.

Lemma unpins_ne blks m x : x ∉ blks -> unpins blks m !! x = m !! x.
Proof.
  revert m; induction blks as [|b blks IH]; intros m Hx; [done|]. cbn.
  change (unpins blks (unpin1 m b) !! x = m !! x). rewrite IH by set_solver. apply unpin1_ne. set_solver.
Qed.

Lemma unpins_size blks m : (size (unpins blks m) <= size m)%nat.
Proof.
  revert m; induction blks as [|b blks IH]; intros m; [done|].
  change (size (unpins blks (unpin1 m b)) <= size m)%nat. etransitivity; [apply IH|].
  unfold unpin1. destruct (m !! b) as [[y c]|] eqn:E; [|done]. case_decide.
  - rewrite map_size_delete, E. lia.
  - rewrite map_size_insert, E. done.
Qed.

Lemma unpins_snoc blks b m : unpins (blks ++ [b]) m = unpin1 (unpins blks m) b.
Proof. unfold unpins. by rewrite foldl_app. Qed.

(** A log copied to [home], which is unpinned, one write at a time. *)
Definition v_installs (blks : list Z) (ws : list (Z * list Z)) (v : bview) : bview :=
  mkBview (unpins blks (slots v)) (held v) (apply_writes ws (contents v)) (apply_writes ws (dcontents v))
    (reverse ws ++ history v).

Section Commit.
Context (s : st) (v : bview) (blks : list Z) (Hr : ready s v blks).
Let start := log_start (lg s).
Let logged := in_log start (log_size (lg s)).

Lemma blk_at i b : blks !! i = Some b ->
  lh_block (lg s) !! i = Some b /\ 0 <= b < 2 ^ 31 /\ ~ logged b /\
  exists x c, slots v !! b = Some (x, c) /\ 1 <= c /\ cnt_ok c.
Proof.
  intros Hi. assert (Hin : b ∈ blks) by (by eapply list_elem_of_lookup_2). split_and!.
  - rewrite <-(rd_blks _ _ _ Hr) in Hi. by apply lookup_take_Some in Hi as [? _].
  - pose proof (rd_out _ _ _ Hr) as H1. rewrite Forall_forall in H1. apply H1. by apply list_elem_of_In.
  - pose proof (rd_out _ _ _ Hr) as H1. rewrite Forall_forall in H1. apply H1. by apply list_elem_of_In.
  - pose proof (rd_out _ _ _ Hr) as H1. rewrite Forall_forall in H1. apply H1. by apply list_elem_of_In.
  - by apply (rd_pinned _ _ _ Hr).
Qed.

Lemma log_block_addr i : (i < length blks)%nat ->
  u32 (start + Z.of_nat i + 1) = start + 1 + Z.of_nat i /\ logged (start + 1 + Z.of_nat i) /\
  0 <= start + 1 + Z.of_nat i < 2 ^ 31.
Proof.
  intros Hi. pose proof (rd_size _ _ _ Hr). pose proof (rd_start _ _ _ Hr). unfold logged, in_log, start in *.
  rewrite u32_small by lia. lia.
Qed.

Lemma wp_write_log :
  wp write_log s (fun _ s' => lg s' = lg s /\ R (bs s') (v_puts (log_writes start blks (contents v)) v)).
Proof.
  unfold write_log. wp_step. apply wp_getl. rewrite (rd_n _ _ _ Hr).
  eapply wp_mono.
  - apply (wp_for_int (fun i s' => lg s' = lg s /\
      R (bs s') (v_puts (take (Z.to_nat i) (log_writes start blks (contents v))) v))).
    { split; [done|]. rewrite v_puts_nil. apply Hr. }
    intros i s' Hi [El HR']. assert (Hi' : (Z.to_nat i < length blks)%nat) by lia.
    destruct (lookup_lt_is_Some_2 blks (Z.to_nat i) Hi') as [b Hb].
    destruct (blk_at _ _ Hb) as (Hlb & Hbr & Hbo & x & c & Hs & Hc & Hcnt).
    destruct (log_block_addr _ Hi') as (Ha & Hal & Har). rewrite Z2Nat.id in Ha, Hal, Har by lia.
    apply (wp_write_log_body s' i b); [lia|by rewrite El|rewrite El; apply Hr|].
    rewrite El. fold start. rewrite Ha, (u32_small b) by lia.
    eapply wp_mono; [apply (wp_log_block (bs s') _ _ b x c HR'); try done; try lia|].
    + split; apply (rd_quiet _ _ _ Hr).
    + by apply (rd_logfree _ _ _ Hr).
    + intros [] b' H1. cbn beta in H1. cbn [lg bs]. split; [done|].
      replace (Z.to_nat (i + 1)) with (Datatypes.S (Z.to_nat i)) by lia.
      rewrite (take_S_r _ _ (start + 1 + i, contents v b)).
      * rewrite <-v_puts_snoc. cbn [contents v_puts] in H1. rewrite apply_outside in H1; [exact H1|].
        intros H2. apply take_fst_subset, log_writes_fst in H2. apply Hbo. unfold logged, in_log.
        pose proof (rd_size _ _ _ Hr). fold start. lia.
      * unfold log_writes. rewrite list_lookup_imap, Hb. cbn. by rewrite Z2Nat.id by lia.
  - intros [] s' [El HR']. cbn beta. split; [done|]. rewrite firstn_all2 in HR'; [done|].
    unfold log_writes. rewrite length_imap. lia.
Qed.

(** From the state [s2] in which the log is written and its header is too. *)
Lemma wp_install s2 v2 :
  lg s2 = lg s -> R (bs s2) v2 -> slots v2 = slots v -> held v2 = ∅ ->
  (forall i b, blks !! i = Some b -> contents v2 (start + 1 + Z.of_nat i) = contents v b) ->
  wp (install_trans 0) s2 (fun _ s' => lg s' = lg s /\
    R (bs s') (v_installs blks (home_writes blks (contents v)) v2)).
Proof.
  intros El2 HR2 Hs2 Hh2 Hlog. unfold install_trans. wp_step. apply wp_getl. rewrite El2, (rd_n _ _ _ Hr).
  eapply wp_mono.
  - apply (wp_for_int (fun i s' => lg s' = lg s /\
      R (bs s') (v_installs (take (Z.to_nat i) blks) (take (Z.to_nat i) (home_writes blks (contents v))) v2))).
    { split; [done|]. by destruct v2. }
    intros i s' Hi [El HR']. assert (Hi' : (Z.to_nat i < length blks)%nat) by lia.
    destruct (lookup_lt_is_Some_2 blks (Z.to_nat i) Hi') as [b Hb].
    destruct (blk_at _ _ Hb) as (Hlb & Hbr & Hbo & x & c & Hs & Hc & Hcnt).
    destruct (log_block_addr _ Hi') as (Ha & Hal & Har).
    assert (Hcl : contents v2 (start + 1 + Z.of_nat (Z.to_nat i)) = contents v b) by (by apply Hlog).
    rewrite Z2Nat.id in Ha, Hal, Har, Hcl by lia.
    assert (Hbni : b ∉ take (Z.to_nat i) blks).
    { intros Hin. apply elem_of_take in Hin as (j & Hj & Hlt).
      assert (j = Z.to_nat i) by (eapply NoDup_lookup; [apply Hr|done|done]). lia. }
    assert (Hnl : forall y, logged y -> y ∉ take (Z.to_nat i) blks).
    { intros y Hy Hin. apply elem_of_take in Hin as (j & Hj & _). by apply (blk_at _ _ Hj). }
    apply (wp_install_body s' i b); [lia|by rewrite El|rewrite El; apply Hr|].
    rewrite El. fold start. rewrite Ha, (u32_small b) by lia. cbn [Z.eqb].
    set (vi := v_installs _ _ v2) in *.
    assert (Hsb : slots vi !! b = Some (x, c)) by (cbn; rewrite unpins_ne, Hs2; done).
    eapply wp_mono; [apply (wp_install_block (bs s') vi _ b x c HR'); try done; try lia|].
    + split; [done|]. cbn. pose proof (unpins_size (take (Z.to_nat i) blks) (slots v2)).
      pose proof (q_room _ (rd_quiet _ _ _ Hr)). rewrite <-Hs2 in *. lia.
    + cbn. rewrite unpins_ne, Hs2 by auto. by apply (rd_logfree _ _ _ Hr).
    + intros [] b' H1. cbn beta in H1. cbn [lg bs]. split; [done|].
      replace (Z.to_nat (i + 1)) with (Datatypes.S (Z.to_nat i)) by lia.
      rewrite (take_S_r blks _ b) by done. rewrite (take_S_r (home_writes _ _) _ (b, contents v b)).
      * erewrite (bview_eq (v_installs _ _ _)); [exact H1|..]; cbn -[apply_writes].
        -- rewrite unpins_snoc. unfold unpin1. cbn in Hsb. by rewrite Hsb.
        -- done.
        -- rewrite apply_app. cbn -[apply_writes]. change (apply_writes [(b, contents v b)] ?E) with (fupd b (contents v b) E).
           f_equal. rewrite apply_outside; [done|]. intros H2. apply take_fst_subset in H2. rewrite home_writes_fst in H2.
           apply list_elem_of_lookup in H2 as [j Hj]. by apply (blk_at _ _ Hj).
        -- rewrite apply_app. change (apply_writes [(b, contents v b)] ?E) with (fupd b (contents v b) E).
           f_equal. rewrite apply_outside; [done|]. intros H2. apply take_fst_subset in H2. rewrite home_writes_fst in H2.
           apply list_elem_of_lookup in H2 as [j Hj]. by apply (blk_at _ _ Hj).
        -- rewrite reverse_app. cbn. do 2 f_equal. rewrite apply_outside; [done|]. intros H2. apply take_fst_subset in H2. rewrite home_writes_fst in H2.
           apply list_elem_of_lookup in H2 as [j Hj]. by apply (blk_at _ _ Hj).
      * unfold home_writes. change (map ?f ?l) with (f <$> l). by rewrite list_lookup_fmap, Hb.
  - intros [] s' [El HR']. cbn beta. split; [done|].
    rewrite !firstn_all2 in HR'; [done|..]; [unfold home_writes; rewrite length_map; lia|lia].
Qed.

Lemma start_logged : logged start.
Proof. pose proof (rd_size _ _ _ Hr). unfold logged, in_log, start. lia. Qed.

Lemma wp_commit :
  0 < lh_n (lg s) ->
  wp commit s (fun _ s' => lg s' = set_lh_n 0 (lg s) /\ exists v',
    let ws := commit_writes start blks (contents v) (dcontents v start) in
    R (bs s') v' /\ slots v' = unpins blks (slots v) /\ held v' = ∅ /\
    contents v' = apply_writes ws (contents v) /\ dcontents v' = apply_writes ws (dcontents v) /\
    history v' = reverse ws ++ history v).
Proof.
  intros Hpos. pose proof start_logged as Hsl.
  assert (Hcs : contents v start = dcontents v start).
  { apply (law_clean (bs s)); [apply Hr|]. by apply (rd_logfree _ _ _ Hr). }
  unfold commit. wp_step. apply wp_getl. rewrite (proj2 (Z.ltb_lt _ _) Hpos). wp_step.
  wp_step. eapply wp_mono; [apply wp_write_log|]. intros [] s1 [El1 H1]. cbn beta.
  set (lw := log_writes start blks (contents v)) in *.
  assert (Hs1 : contents (v_puts lw v) start = contents v start).
  { cbn. apply apply_outside. intros Hin. apply log_writes_fst in Hin. lia. }
  wp_step. eapply wp_mono; [apply (wp_write_head s1 (v_puts lw v) blks H1); rewrite ?El1; try apply Hr|].
  { split; apply (rd_quiet _ _ _ Hr). }
  { pose proof (rd_start _ _ _ Hr). pose proof (rd_size _ _ _ Hr). lia. }
  { exact Hsl. }
  rewrite El1. fold start. rewrite Hs1. intros [] s2 [El2 H2]. cbn beta.
  set (v2 := v_put start (encode_head blks (contents v start)) (v_puts lw v)) in *.
  wp_step. eapply wp_mono; [apply (wp_install s2 v2); try done; [apply (rd_quiet _ _ _ Hr)|]|].
  { intros i b Hb. cbn. pose proof (lookup_lt_Some _ _ _ Hb). rewrite fupd_ne by lia.
    apply (apply_lookup _ _ i); [apply log_writes_nodup|]. unfold lw, log_writes. by rewrite list_lookup_imap, Hb. }
  intros [] s3 [El3 H3]. cbn beta. set (v3 := v_installs _ _ v2) in *.
  assert (Hs3 : contents v3 start = encode_head blks (contents v start)).
  { cbn -[apply_writes]. rewrite apply_outside; [cbn; by rewrite fupd_eq|]. rewrite home_writes_fst. intros Hin.
    apply list_elem_of_lookup in Hin as [j Hj]. by apply (blk_at _ _ Hj). }
  unfold setl. do 2 wp_step. cbn [lg bs].
  eapply wp_mono; [apply (wp_write_head (mkLstate (set_lh_n 0 (lg s3)) (bs s3)) v3 [] H3); cbn [lg bs set_lh_n lh_n log_dev log_start log_size length]; rewrite ?El3; try done; try apply Hr|].
  { split; [apply (rd_quiet _ _ _ Hr)|]. cbn. pose proof (unpins_size blks (slots v)).
    pose proof (q_room _ (rd_quiet _ _ _ Hr)). lia. }
  { pose proof (rd_start _ _ _ Hr). pose proof (rd_size _ _ _ Hr). lia. }
  { cbn. rewrite unpins_ne; [by apply (rd_logfree _ _ _ Hr)|]. intros Hin.
    apply list_elem_of_lookup in Hin as [j Hj]. by apply (blk_at _ _ Hj). }
  { cbn. lia. }
  intros [] s4 [El4 H4]. split; [by rewrite El4, El3|].
  cbn [lg bs set_lh_n log_start] in H4. rewrite El3 in H4. fold start in H4. rewrite Hs3 in H4.
  eexists. split; [exact H4|]. rewrite <-Hcs. unfold commit_writes. fold lw.
  cbn -[apply_writes encode_head]. split_and!; try done.
  - apply (rd_quiet _ _ _ Hr).
  - by rewrite apply_app, apply_cons, apply_app.
  - by rewrite apply_app, apply_cons, apply_app.
  - rewrite reverse_app, reverse_cons, reverse_app. cbn. by rewrite <-!app_assoc.
Qed.

End Commit.

(** ** Recovery *)

Lemma wp_store s i x (Q : unit -> st -> Prop) :
  0 <= i < LOGSIZE -> Q tt (mkLstate (set_lh_block i x (lg s)) (bs s)) -> wp (store_lh_block i x) s Q.
Proof.
  intros Hi HQ. unfold store_lh_block. rewrite (proj2 (Z.leb_le _ _)), (proj2 (Z.ltb_lt _ _)) by lia. exact HQ.
Qed.

(** Same log area and device. *)
Definition same_log (l l' : flog) : Prop :=
  log_start l' = log_start l /\ log_size l' = log_size l /\ log_dev l' = log_dev l /\
  log_lock l' = log_lock l /\ outstanding l' = outstanding l /\ committing l' = committing l.

Lemma length_head_blocks d : length (head_blocks d) = Z.to_nat (lh_get_n d).
Proof. unfold head_blocks. by rewrite length_map, length_seqZ. Qed.

Lemma head_blocks_lookup d i : 0 <= i < lh_get_n d -> head_blocks d !! Z.to_nat i = Some (lh_get_block d i).
Proof.
  intros Hi. unfold head_blocks. change (map ?f ?l) with (f <$> l).
  rewrite list_lookup_fmap, lookup_seqZ_lt by lia. cbn. do 2 f_equal. lia.
Qed.

Lemma wp_read_head s v :
  R (bs s) v -> quiet v -> log_dev (lg s) = dv -> 0 <= log_start (lg s) < 2 ^ 31 ->
  slots v !! log_start (lg s) = None -> length (lh_block (lg s)) = Z.to_nat LOGSIZE ->
  lh_get_n (contents v (log_start (lg s))) <= LOGSIZE ->
  wp read_head s (fun _ s' => R (bs s') v /\ same_log (lg s) (lg s') /\
    let h := contents v (log_start (lg s)) in
    lh_n (lg s') = lh_get_n h /\ take (length (head_blocks h)) (lh_block (lg s')) = head_blocks h).
Proof.
  intros HR [Hh Hroom] Hdv Hst Hnone Hlen Hmax. set (start := log_start (lg s)) in *.
  set (h := contents v start) in *.
  unfold read_head. wp_step. apply wp_getl. rewrite Hdv. fold start. rewrite u32_small by lia.
  wp_step. apply wp_bcall. eapply wp_mono;
    [apply (law_bread (bs s) v start); try done; [lia|rewrite Hh; set_solver|by rewrite Hnone]|].
  intros b s1 H1. rewrite Hnone in H1. cbn beta.
  assert (Hsl : slots (v_take start b 1 v) !! start = Some (b, 1)) by apply lookup_insert_eq.
  wp_step. apply wp_bcall. eapply wp_mono; [apply (law_bdata _ _ start b 1 H1); [done|cbn; set_solver]|].
  intros hb s2 [-> ->]. cbn [bs lg contents v_take]. fold h.
  unfold setl at 1. do 3 wp_step. apply wp_getl. cbn [lg bs lh_n set_lh_n]. wp_step.
  eapply wp_mono.
  - apply (wp_for_int (fun i s' => bs s' = s1 /\ same_log (lg s) (lg s') /\ lh_n (lg s') = lh_get_n h /\
      length (lh_block (lg s')) = Z.to_nat LOGSIZE /\
      take (Z.to_nat i) (lh_block (lg s')) = take (Z.to_nat i) (head_blocks h))); [done|].
    intros i s' Hi (E1 & E2 & E3 & E4 & E5). apply wp_store; [lia|]. cbn [lg bs].
    split_and!; try done; [cbn; by rewrite length_insert|].
    replace (Z.to_nat (i + 1)) with (Datatypes.S (Z.to_nat i)) by lia. cbn [lh_block set_lh_block].
    rewrite (take_S_r _ _ (lh_get_block h i)) by (apply list_lookup_insert_eq; unfold LOGSIZE, MAXOPBLOCKS in *; lia).
    rewrite (take_S_r (head_blocks h) _ (lh_get_block h i)) by (apply head_blocks_lookup; lia).
    rewrite take_insert_ge by lia. by rewrite E5.
  - intros [] s' (E1 & E2 & E3 & E4 & E5). cbn beta. apply wp_bcall. rewrite E1.
    eapply wp_mono; [apply (law_brelse _ _ start b 1 H1); [done|cbn; set_solver|]|].
    { intros _. cbn. by eapply law_clean. }
    intros [] s5 H5. cbn beta in H5. cbn [bs lg]. split_and!; try done.
    + erewrite (bview_eq v); [exact H5|..]; cbn; try done.
      * rewrite decide_True by done. by rewrite delete_insert_id.
      * rewrite Hh. set_solver.
    + rewrite length_head_blocks. replace (Z.to_nat (Z.max 0 (lh_get_n h))) with (Z.to_nat (lh_get_n h)) in E5 by lia.
      rewrite E5. apply firstn_all2. rewrite length_head_blocks. lia.
Qed.

(** The state of the log at boot. *)
Record booted (s : st) (v : bview) : Prop := {
  bt_R : R (bs s) v;
  bt_slots : slots v = ∅;
  bt_held : held v = ∅;
  bt_dev : log_dev (lg s) = dv;
  bt_start : 0 <= log_start (lg s) /\ log_start (lg s) + log_size (lg s) <= 2 ^ 31;
  bt_blocks : length (lh_block (lg s)) = Z.to_nat LOGSIZE;
  bt_head : head_ok (log_start (lg s)) (log_size (lg s)) (dcontents v)
}.

Lemma wp_recover_from_log s v :
  booted s v ->
  wp recover_from_log s (fun _ s' => same_log (lg s) (lg s') /\ lh_n (lg s') = 0 /\ exists v',
    let ws := recovery_writes (log_start (lg s)) (dcontents v) in
    R (bs s') v' /\ slots v' = ∅ /\ held v' = ∅ /\ contents v' = dcontents v' /\
    dcontents v' = apply_writes ws (dcontents v) /\ history v' = reverse ws ++ history v).
Proof.
  intros [HR Hsl Hh Hdv Hst Hlen Hok]. set (start := log_start (lg s)) in *. set (D := dcontents v) in *.
  assert (EC : contents v = D).
  { extensionality y. apply (law_clean (bs s)); [done|]. by rewrite Hsl, lookup_empty. }
  assert (Hnone : forall y, slots v !! y = None) by (intros; by rewrite Hsl, lookup_empty).
  assert (Hq : quiet v) by (split; [done|rewrite Hsl; unfold NBUF, MAXOPBLOCKS; done]).
  pose proof (hd_size _ _ _ Hok) as Hhs. pose proof (hd_n _ _ _ Hok) as Hhn.
  set (h := D start) in *. set (blks := head_blocks h) in *.
  set (ins := imap (fun i b => (b, D (start + 1 + Z.of_nat i))) blks).
  assert (Eins : ins.*1 = blks) by apply (installs_fst start D).
  assert (Hlb : Z.of_nat (length blks) = Z.max 0 (lh_get_n h)).
  { unfold blks. rewrite length_head_blocks. lia. }
  unfold recover_from_log. wp_step.
  eapply wp_mono; [apply (wp_read_head s v HR Hq Hdv); fold start; rewrite ?EC; try done; lia|].
  fold start. rewrite EC. fold h blks. intros [] s1 (H1 & (F1 & F2 & F3 & F4) & En & Eb). cbn beta.
  wp_step. unfold install_trans. wp_step. apply wp_getl. rewrite En.
  eapply wp_mono.
  - apply (wp_for_int (fun i s' => lg s' = lg s1 /\ R (bs s') (v_puts (take (Z.to_nat i) ins) v))).
    { split; [done|]. by rewrite v_puts_nil. }
    intros i s' Hi [El HR']. assert (Hi' : (Z.to_nat i < length blks)%nat) by lia.
    destruct (lookup_lt_is_Some_2 blks (Z.to_nat i) Hi') as [b Hb].
    assert (Hin : b ∈ blks) by (by eapply list_elem_of_lookup_2).
    assert (Hbr : 0 <= b < 2 ^ 31 /\ ~ in_log start (log_size (lg s)) b).
    { pose proof (hd_out _ _ _ Hok) as Ho. rewrite Forall_forall in Ho.
      destruct (Ho b) as [Hb0 Hb1]; [by apply list_elem_of_In|]. split; [|done]. split; [done|].
      unfold blks in Hin. unfold head_blocks in Hin. change (map ?f ?l) with (f <$> l) in Hin.
      apply list_elem_of_fmap in Hin as (j & -> & _). unfold lh_get_block. pose proof (i32_range (get_u32 h (4 + 4 * Z.to_nat j))). lia. }
    apply (wp_install_body s' i b); [lia| |congruence|].
    { rewrite El. unfold blks in Hb. rewrite <-Eb in Hb. by apply lookup_take_Some in Hb as [? _]. }
    rewrite El, F1. fold start. rewrite !u32_small by lia. cbn [Z.eqb].
    set (vi := v_puts (take (Z.to_nat i) ins) v) in *.
    assert (Hnl : in_log start (log_size (lg s)) (start + i + 1)) by (unfold in_log; lia).
    assert (Hcl : contents vi (start + i + 1) = D (start + 1 + i)).
    { cbn. rewrite EC. rewrite apply_outside; [f_equal; lia|]. intros H2. apply take_fst_subset in H2.
      rewrite Eins in H2. by apply (blks_out start (log_size (lg s)) D Hok _ H2). }
    eapply wp_mono; [apply (wp_recover_block (bs s') vi (start + i + 1) b HR'); cbn -[size]; try done; try lia|].
    + rewrite Hsl. unfold NBUF, MAXOPBLOCKS. done.
    + intros E. apply Hbr. by rewrite <-E.
    + intros [] x H2. cbn beta in H2. cbn [lg bs]. split; [done|].
      replace (Z.to_nat (i + 1)) with (Datatypes.S (Z.to_nat i)) by lia.
      rewrite (take_S_r _ _ (b, D (start + 1 + i))).
      * rewrite <-v_puts_snoc. by rewrite Hcl in H2.
      * unfold ins. rewrite list_lookup_imap, Hb. cbn. by rewrite Z2Nat.id by lia.
  - intros [] s2 [El2 H2]. cbn beta. rewrite firstn_all2 in H2 by (unfold ins; rewrite length_imap; lia).
    set (v2 := v_puts ins v) in *.
    assert (Hs2 : contents v2 start = h).
    { cbn. rewrite EC, apply_outside; [done|]. rewrite Eins. intros Hin.
      apply (blks_out start (log_size (lg s)) D Hok _ Hin). unfold in_log. lia. }
    unfold setl. do 2 wp_step. set (s3 := mkLstate (set_lh_n 0 (lg s2)) (bs s2)).
    assert (Es3 : log_start (lg s3) = start) by (cbn; rewrite El2; exact F1).
    eapply wp_mono; [apply (wp_write_head s3 v2 [] H2); rewrite ?Es3; try done; try lia|].
    { split; apply Hq. }
    { cbn. by rewrite El2, F3. }
    { cbn. lia. }
    rewrite Es3, Hs2. intros [] s4 [El4 H4]. rewrite El4. unfold s3. cbn [lg]. rewrite El2.
    split; [done|]. split; [done|]. eexists. cbn zeta. split; [exact H4|].
    unfold recovery_writes. fold h blks ins. unfold v2. cbn -[apply_writes encode_head]. split_and!; try done.
    + by rewrite EC.
    + by rewrite apply_app.
    + rewrite reverse_app. done.
Qed.

(** A reboot: the cache is empty, the log's area is the same, the disk is [D]. *)
Record rebooted (s0 : st) (D : Z -> list Z) (s : st) (v : bview) : Prop := {
  rb_R : R (bs s) v;
  rb_slots : slots v = ∅;
  rb_held : held v = ∅;
  rb_disk : dcontents v = D;
  rb_dev : log_dev (lg s) = dv;
  rb_start : log_start (lg s) = log_start (lg s0);
  rb_size : log_size (lg s) = log_size (lg s0);
  rb_blocks : length (lh_block (lg s)) = Z.to_nat LOGSIZE
}.

Section Crash.
Context (s : st) (v : bview) (blks : list Z) (Hr : ready s v blks).
Let start := log_start (lg s).
Let size := log_size (lg s).
Let ws := commit_writes start blks (contents v) (dcontents v start).

(** What the transaction ready to commit satisfies for the crash lemmas: on
    the blocks outside the log the disk differs at [blks] only. *)
Lemma crash_disk k :
  head_ok start size (apply_writes (take k ws) (dcontents v)) /\
  ((forall blk, ~ in_log start size blk ->
      recovered start (apply_writes (take k ws) (dcontents v)) blk = dcontents v blk) \/
   (forall blk, ~ in_log start size blk ->
      recovered start (apply_writes (take k ws) (dcontents v)) blk = contents v blk)).
Proof.
  assert (Hout : Forall (fun b => int_ok b /\ ~ in_log start size b) blks).
  { eapply Forall_impl; [|apply (rd_out _ _ _ Hr)]. intros b [? ?]. split; [unfold int_ok; lia|done]. }
  assert (Hpos : forall b, b ∈ blks -> 0 <= b).
  { intros b Hb. pose proof (rd_out _ _ _ Hr) as Ho. rewrite Forall_forall in Ho. apply Ho. by apply list_elem_of_In. }
  assert (Hlen : length (dcontents v start) = Z.to_nat BSIZE).
  { rewrite <-(law_clean (bs s) v start); [|apply Hr|].
    - apply (law_len (bs s)), Hr.
    - apply (rd_logfree _ _ _ Hr). unfold in_log. pose proof (rd_size _ _ _ Hr). fold start size. lia. }
  split.
  - apply commit_crash_head; try done; apply Hr.
  - apply commit_crash; try done; try apply Hr. intros b Hb _. by apply (rd_clean _ _ _ Hr).
Qed.

Lemma wp_recover_crash k sb vb :
  rebooted s (apply_writes (take k ws) (dcontents v)) sb vb ->
  wp recover_from_log sb (fun _ s' => exists v', R (bs s') v' /\ contents v' = dcontents v' /\
    ((forall blk, ~ in_log start size blk -> dcontents v' blk = dcontents v blk) \/
     (forall blk, ~ in_log start size blk -> dcontents v' blk = contents v blk))).
Proof.
  intros [HR Hsl Hh HD Hdv Est Esz Hlen]. destruct (crash_disk k) as [Hok Hold]. fold start in Est. fold size in Esz.
  eapply wp_mono; [apply (wp_recover_from_log sb vb)|].
  - split; try done; rewrite ?Est, ?Esz, ?HD; [apply Hr|done].
  - intros [] s' (_ & _ & v' & H1 & _ & _ & H2 & H3 & _). exists v'. split; [done|]. split; [done|].
    rewrite H3, HD, Est. destruct Hold as [Ho|Ho]; [left|right]; intros blk Hb;
      (rewrite (recover_done start size) by done; by apply Ho).
Qed.

End Crash.

(** C1: transactions are atomic.  commit() of a transaction never panics and
    makes exactly the logged blocks durable; and if the machine loses power
    after any number [k] of the disk writes commit() makes, the recovery that
    runs at the next boot leaves every block outside the log as it was before
    the transaction, or every one as the transaction made it. *)
Theorem commit_atomic s v blks :
  ready s v blks -> 0 < lh_n (lg s) ->
  wp commit s (fun _ s' => exists v' ws,
    R (bs s') v' /\ lh_n (lg s') = 0 /\ history v' = reverse ws ++ history v /\
    (forall blk, ~ in_log (log_start (lg s)) (log_size (lg s)) blk ->
       contents v' blk = contents v blk /\ dcontents v' blk = contents v blk) /\
    forall k sb vb, rebooted s (apply_writes (take k ws) (dcontents v)) sb vb ->
      wp recover_from_log sb (fun _ s'' => exists v'', R (bs s'') v'' /\ contents v'' = dcontents v'' /\
        ((forall blk, ~ in_log (log_start (lg s)) (log_size (lg s)) blk -> dcontents v'' blk = dcontents v blk) \/
         (forall blk, ~ in_log (log_start (lg s)) (log_size (lg s)) blk -> dcontents v'' blk = contents v blk)))).
Proof.
  intros Hr Hn. eapply wp_mono; [by apply (wp_commit s v blks)|].
  intros [] s' (El & v' & H1 & H2 & H3 & H4 & H5 & H6). cbn zeta in *.
  set (ws := commit_writes _ _ _ _) in *.
  exists v', ws. split_and!; try done; [by rewrite El| |].
  - intros blk Hb.
    assert (Hd : forall D, (forall b, b ∉ blks -> ~ in_log (log_start (lg s)) (log_size (lg s)) b -> contents v b = D b) ->
      apply_writes ws D blk = contents v blk).
    { intros D HD. unfold ws, commit_writes. rewrite apply_app, apply_app, apply_app, !apply_cons, !apply_nil.
      pose proof (rd_size _ _ _ Hr).
      rewrite fupd_ne by (intros ->; apply Hb; unfold in_log; lia).
      destruct (decide (blk ∈ blks)) as [Hl|Hl].
      - apply list_elem_of_lookup in Hl as [i Hi]. apply (apply_lookup _ _ i).
        + rewrite home_writes_fst. apply Hr.
        + unfold home_writes. change (map ?f ?l) with (f <$> l). by rewrite list_lookup_fmap, Hi.
      - rewrite apply_outside by (by rewrite home_writes_fst).
        rewrite fupd_ne by (intros ->; apply Hb; unfold in_log; lia).
        rewrite apply_outside; [symmetry; by apply HD|]. intros Hin. apply log_writes_fst in Hin.
        apply Hb. unfold in_log. lia. }
    rewrite H4, H5. split; apply Hd; [done|]. intros b Hb' _. by apply (rd_clean _ _ _ Hr).
  - intros k sb vb Hrb. by apply (wp_recover_crash s v blks Hr k sb vb).
Qed.

(** C14: recovery is idempotent.  Recovery at boot makes every block outside
    the log what the committed log says it is and clears the log; and if the
    machine loses power again after any number of its writes, the disk still
    stands for the same file system. *)
Theorem recovery_idempotent s v :
  booted s v ->
  let start := log_start (lg s) in let size := log_size (lg s) in
  wp recover_from_log s (fun _ s' => exists v' ws,
    R (bs s') v' /\ history v' = reverse ws ++ history v /\ head_blocks (dcontents v' start) = [] /\
    (forall blk, ~ in_log start size blk -> dcontents v' blk = recovered start (dcontents v) blk) /\
    forall k blk, ~ in_log start size blk ->
      recovered start (apply_writes (take k ws) (dcontents v)) blk = recovered start (dcontents v) blk).
Proof.
  intros Hb start size. eapply wp_mono; [by apply wp_recover_from_log|].
  intros [] s' (_ & _ & v' & H1 & _ & _ & H2 & H3 & H4). fold start in H3, H4. pose proof (bt_head _ _ Hb) as Hok.
  exists v', (recovery_writes start (dcontents v)). split_and!; try done.
  - rewrite H3. by apply (recover_head start size).
  - intros blk Hbk. rewrite H3. by apply (recover_done start size).
  - intros k blk Hbk. by apply (recovery_crash start size).
Qed.

(** ** Operations inside a transaction *)

(** The in-memory header lists the blocks [blks]. *)
Record listed (l : flog) (blks : list Z) : Prop := {
  ls_lock : lock_free (log_lock l);
  ls_n : lh_n l = Z.of_nat (length blks);
  ls_take : take (length blks) (lh_block l) = blks;
  ls_len : length (lh_block l) = Z.to_nat LOGSIZE;
  ls_nodup : NoDup blks;
  ls_range : Forall (fun b => 0 <= b < 2 ^ 31) blks
}.

Lemma find_block_spec lb n i b :
  Forall (fun b => 0 <= b < 2 ^ 31) (take n lb) -> (n <= length lb)%nat ->
  (exists j, (j < n)%nat /\ lb !! j = Some b /\ find_block lb n i b = i + Z.of_nat j) \/
  (b ∉ take n lb /\ find_block lb n i b = i + Z.of_nat n).
Proof.
  revert lb i; induction n as [|n IH]; intros lb i Hf Hl.
  { right. split; [set_solver|]. cbn [find_block]. destruct lb; cbn; lia. }
  destruct lb as [|x lb]; [cbn in Hl; lia|]. cbn [take] in Hf. apply list.Forall_cons in Hf as [Hx Hf].
  cbn [find_block]. rewrite u32_small by lia. destruct (Z.eqb_spec x b) as [->|Hne].
  - left. exists O. split_and!; [lia|done|lia].
  - cbn in Hl. destruct (IH lb (i + 1) Hf ltac:(lia)) as [(j & Hj & Hb & ->)|[Hni ->]].
    + left. exists (Datatypes.S j). split_and!; [lia|done|lia].
    + right. cbn. split; [|lia]. rewrite not_elem_of_cons. done.
Qed.

(** The blocks listed after block [blk] was logged. *)
Definition logged_with (blks : list Z) (blk : Z) : list Z :=
  if decide (blk ∈ blks) then blks else blks ++ [blk].

Lemma listed_set l blks i b :
  listed l blks -> blks !! i = Some b -> set_lh_block (Z.of_nat i) b l = l.
Proof.
  intros Hl Hi. destruct l as [lk st0 sz o c d n lb]. unfold set_lh_block. cbn. f_equal.
  rewrite Nat2Z.id. apply list_insert_id. pose proof (ls_take _ _ Hl) as Ht. cbn in Ht.
  rewrite <-Ht in Hi. by apply lookup_take_Some in Hi as [? _].
Qed.

(** log_write() absorbs repeated writes.  Inside a transaction with room
    left it never panics; a block already listed is left as it is, a new one
    is appended to the header and pinned in the cache exactly once; the list
    stays free of duplicates. *)
Theorem log_write_absorbs s v blks b blk c :
  R (bs s) v -> listed (lg s) blks -> 1 <= outstanding (lg s) ->
  Z.of_nat (length blks) < LOGSIZE -> Z.of_nat (length blks) < log_size (lg s) - 1 ->
  slots v !! blk = Some (b, c) -> cnt_ok c -> 0 <= blk < 2 ^ 31 ->
  wp (log_write me b) s (fun _ s' =>
    listed (lg s') (logged_with blks blk) /\ same_log (lg s) (lg s') /\
    R (bs s') (if decide (blk ∈ blks) then v else v_count blk b (c + 1) v)).
Proof.
  intros HR Hl Ho Hmax Hsz Hs Hc Hblk. pose proof Hl as [Hlk Hn Ht Hlen Hnd Hrg].
  unfold log_write. wp_step. apply wp_acquire_at; [done|]. wp_step. apply wp_getl.
  set (s1 := put log_lock_lens _ s). cbn [lg s1 put log_lock_lens]. cbn [lh_n log_size outstanding lh_block].
  rewrite Hn, (proj2 (Z.leb_gt _ _)), (proj2 (Z.leb_gt _ _)), (proj2 (Z.ltb_ge _ _)) by lia. cbn [orb].
  wp_step. apply wp_bcall. eapply wp_mono; [by apply (law_bblockno (bs s) v blk b c)|].
  intros r s2 [-> ->]. cbn beta. rewrite Nat2Z.id. rewrite i32_small by lia.
  assert (Hr : R (bs s) v) by done.
  destruct (find_block_spec (lh_block (lg s)) (length blks) 0 blk) as [(j & Hj & Hb & ->)|[Hni ->]].
  { by rewrite Ht. }
  { rewrite Hlen. unfold LOGSIZE, MAXOPBLOCKS in *. lia. }
  - (* absorbed *)
    assert (Hjb : blks !! j = Some blk).
    { rewrite <-Ht. by rewrite lookup_take_lt. }
    assert (Hin : blk ∈ blks) by (by eapply list_elem_of_lookup_2).
    wp_step. apply wp_store; [lia|]. cbn [lg bs]. rewrite (proj2 (Z.eqb_neq _ _)) by lia. wp_step. wp_step.
    apply (wp_release_at _ _ _ (log_lock (lg s))); [done|done|].
    unfold logged_with. rewrite !decide_True by done.
    match goal with |- listed (lg ?x) _ /\ _ => assert (El : lg x = lg s) end.
    { pose proof (listed_set (lg s) blks j blk Hl Hjb) as E. rewrite Z.add_0_l. unfold s1.
      clear - E Hn. destruct s as [[] x]. unfold set_lh_block in *. cbn in *. rewrite <-Hn. by injection E as ->. }
    rewrite El. split_and!; try done; by repeat split.
  - (* a new block *)
    rewrite Ht in Hni. wp_step. apply wp_store; [lia|]. cbn [lg bs].
    rewrite Z.add_0_l, Z.eqb_refl. wp_step. wp_step. wp_step.
    apply wp_bcall. eapply wp_mono; [by apply (law_bpin (bs s) v blk b c)|]. intros [] s3 H3. cbn beta in H3.
    unfold setl. wp_step. cbn [lg bs].
    apply (wp_release_at _ _ _ (log_lock (lg s))); [done|done|]. cbn [lg bs].
    unfold logged_with. rewrite !decide_False by done. split_and!; [|by repeat split|exact H3].
    unfold s1. cbn. split; cbn.
    + done.
    + rewrite length_app. cbn. lia.
    + rewrite length_app. cbn. replace (length blks + 1)%nat with (Datatypes.S (length blks)) by lia.
      rewrite Nat2Z.id. rewrite (take_S_r _ _ blk).
      * rewrite take_insert_ge by lia. by rewrite Ht.
      * apply list_lookup_insert_eq. rewrite Hlen. unfold LOGSIZE, MAXOPBLOCKS in *. lia.
    + by rewrite length_insert.
    + apply list.NoDup_app. split_and!; [done|set_solver|apply NoDup_singleton].
    + apply list.Forall_app. split; [done|]. constructor; [done|constructor].
Qed.

(** ** Admission of operations *)

(** The log between operations. *)
Record idle (l : flog) (out n : Z) : Prop := {
  id_lock : lock_free (log_lock l);
  id_committing : committing l = 0;
  id_out : outstanding l = out;
  id_n : lh_n l = n
}.

Lemma wp_begin_op (s : st) out n :
  idle (lg s) out n -> n + (out + 1) * MAXOPBLOCKS <= LOGSIZE ->
  wp (begin_op me) s (fun _ s' => idle (lg s') (out + 1) n /\ log_size (lg s') = log_size (lg s) /\ bs s' = bs s /\ lh_block (lg s') = lh_block (lg s)).
Proof.
  intros [Hl Hc Ho Hn] Hroom. unfold begin_op. wp_step. apply wp_acquire_at; [done|]. wp_step. apply wp_getl.
  cbn [lg put log_lock_lens committing lh_n outstanding]. rewrite Hc, Ho, Hn. cbn [Z.eqb negb].
  rewrite (proj2 (Z.ltb_ge _ _)) by lia. unfold setl. wp_step. wp_step.
  apply (wp_release_at _ _ _ (log_lock (lg s))); [done|done|].
  by split_and!.
Qed.

(** begin_op() admits an operation exactly when its reservation of
    MAXOPBLOCKS blocks fits in LOGSIZE besides the blocks already logged and
    the reservations of the running operations, and otherwise waits, without
    changing the log, as it also does during a commit. *)
Theorem begin_op_admission (s : st) out n :
  idle (lg s) out n ->
  (n + (out + 1) * MAXOPBLOCKS <= LOGSIZE ->
     wp (begin_op me) s (fun _ s' => idle (lg s') (out + 1) n /\ bs s' = bs s)) /\
  (LOGSIZE < n + (out + 1) * MAXOPBLOCKS ->
     exists s', begin_op me s = Sleep LOGCHAN s' /\ idle (lg s') out n /\ bs s' = bs s).
Proof.
  intros Hi. split.
  - intros Hroom. eapply wp_mono; [by apply wp_begin_op|]. intros [] s' (? & _ & ? & _). done.
  - intros Hfull. destruct Hi as [[Hl Hcpu] Hc Ho Hn].
    unfold begin_op, acquire_at, release_at, holding, getl; run_unfold. cbn.
    rewrite Hl. cbn. rewrite Hc, Ho, Hn. cbn. rewrite (proj2 (Z.ltb_lt _ _)) by lia. cbn.
    rewrite bool_decide_eq_true_2 by done. cbn. eexists. split; [reflexivity|]. by split; [split|].
Qed.

(** ** Operations that keep to their reservation *)

(** What an operation of the file system does with a block: read it, change
    it, log it, release it. *)
Definition write_block (x : Z * list Z) : M st unit :=
  let! b := bcall (bread dv (fst x)) in
  bcall (set_bdata b (snd x)) ;;
  log_write me b ;;
  bcall (brelse b).
Fixpoint write_blocks (l : list (Z * list Z)) : M st unit :=
  match l with
  | [] => ret tt
  | x :: l => write_block x ;; write_blocks l
  end.

(** Three operations are running and have logged [blks]. *)
Record three_running (s : st) (blks : list Z) : Prop := {
  tr_log : listed (lg s) blks;
  tr_out : outstanding (lg s) = 3 /\ committing (lg s) = 0 /\ log_size (lg s) = LOGSIZE;
  tr_cache : exists v, R (bs s) v /\ held v = ∅ /\ dom (slots v) = list_to_set blks /\ forall x b n, slots v !! x = Some (b, n) -> n = 1
}.

Lemma running_bread s blks blk : three_running s blks -> (length blks < 30)%nat -> blk ∉ blks -> 0 <= blk < 2 ^ 31 ->
  exists v, R (bs s) v /\ held v = ∅ /\ dom (slots v) = list_to_set blks /\ (forall x b n, slots v !! x = Some (b, n) -> n = 1) /\
    wp (bread dv blk) (bs s) (fun b x => R x (v_take blk b 1 v)).
Proof.
  intros [Hl _ (v & HR & Hh & Hd & H1)] Hlen Hn Hb. exists v. split_and!; try done.
  assert (Hs : slots v !! blk = None) by (apply not_elem_of_dom; rewrite Hd; by rewrite elem_of_list_to_set).
  eapply wp_mono; [apply (law_bread (bs s) v blk HR); [lia|rewrite Hh; set_solver|]|].
  - rewrite Hs, <-size_dom, Hd, size_list_to_set by apply Hl. unfold NBUF, MAXOPBLOCKS. lia.
  - intros b x. by rewrite Hs.
Qed.

Lemma wp_write_block s blks x (Q : unit -> st -> Prop) :
  three_running s blks -> (length blks < 29)%nat -> fst x ∉ blks -> 0 <= fst x < 2 ^ 31 -> length (snd x) = Z.to_nat BSIZE ->
  (forall s', three_running s' (blks ++ [fst x]) -> Q tt s') -> wp (write_block x) s Q.
Proof.
  intros Hr Hlen Hn Hb Hdat HQ. destruct x as [blk d]. cbn [fst snd] in *.
  destruct (running_bread s blks blk Hr ltac:(lia) Hn Hb) as (v & HR & Hh & Hd & H1 & Hbr). pose proof Hr as [Hl (Ho & Hc & Hsz) _].
  unfold write_block. cbn [fst snd]. wp_step. apply wp_bcall. eapply wp_mono; [exact Hbr|]. intros b x1 R1. cbn beta. set (v1 := v_take blk b 1 v) in *.
  assert (L1 : slots v1 !! blk = Some (b, 1)) by apply lookup_insert_eq. assert (B1 : blk ∈ held v1) by (cbn; set_solver).
  wp_step. apply wp_bcall. cbn [bs]. eapply wp_mono; [by apply (law_set_bdata x1 v1 blk b 1 d)|]. intros [] x2 R2. cbn beta.
  wp_step. eapply wp_mono; [apply (log_write_absorbs (mkLstate (lg s) x2) (v_set blk d v1) blks b blk 1 R2 Hl)|]; cbn [lg]; try done; try lia.
  { unfold LOGSIZE, MAXOPBLOCKS. lia. }
  { rewrite Hsz. unfold LOGSIZE, MAXOPBLOCKS. lia. }
  intros [] s3 (Hl3 & Hsl & R3). rewrite decide_False in R3 by done. unfold logged_with in Hl3. rewrite decide_False in Hl3 by done.
  apply wp_bcall. eapply wp_mono; [apply (law_brelse (bs s3) _ blk b 2 R3); [apply lookup_insert_eq|done|lia]|]. intros [] x4 R4. cbn beta. apply HQ.
  destruct Hsl as (S1 & S2 & S3 & S4 & S5 & S6); cbn [lg] in *. split; cbn [lg bs]; [done|split_and!; congruence|].
  eexists. split; [exact R4|]. cbn. rewrite (decide_False (P := 2 = 1)) by done. split_and!.
  - apply leibniz_equiv. rewrite Hh. set_solver.
  - rewrite !dom_insert_L, Hd, list_to_set_app_L. cbn. apply leibniz_equiv. set_solver.
  - intros y b' n'. destruct (decide (y = blk)) as [->|Hne]; [rewrite lookup_insert_eq; by intros [= _ <-]|]. rewrite !lookup_insert_ne by done. apply H1.
Qed.

Lemma wp_write_blocks l : forall s blks (Q : unit -> st -> Prop),
  three_running s blks -> (length blks + length l <= 29)%nat -> NoDup (blks ++ l.*1) ->
  Forall (fun x => 0 <= fst x < 2 ^ 31 /\ length (snd x) = Z.to_nat BSIZE) l ->
  (forall s', three_running s' (blks ++ l.*1) -> Q tt s') -> wp (write_blocks l) s Q.
Proof.
  induction l as [|x l IH]; intros s blks Q Hr Hlen Hnd Hall HQ; cbn [write_blocks].
  - wp_step. apply HQ. by rewrite app_nil_r.
  - inversion Hall as [|? ? [Hx1 Hx2] Hl]; subst. cbn in Hlen, Hnd, HQ. replace (blks ++ fst x :: l.*1) with ((blks ++ [fst x]) ++ l.*1) in * by (by rewrite <-app_assoc).
    wp_step. eapply wp_write_block; [exact Hr|lia| |done|done|].
    + apply list.NoDup_app in Hnd as (Hnd & _ & _). apply list.NoDup_app in Hnd as (_ & Hap & _). intros Hin. apply (Hap _ Hin). set_solver.
    + intros s' Hr'. eapply IH; [exact Hr'|rewrite length_app; cbn; lia|done|done|done].
Qed.

(** C39: a full set of admitted operations can still make the log overflow.
    With the log area mkfs creates (nlog = LOGSIZE = 30), three operations are
    admitted together from an idle system, each entitled to write MAXOPBLOCKS
    = 10 blocks.  Whatever thirty distinct blocks they write, ten each, the
    first twenty-nine are logged, and the log_write() of the thirtieth panics:
    it keeps one block of the area for the header while begin_op() reserves
    against LOGSIZE. *)
Theorem reservation_overflow (s : st) v (op1 op2 op3 : list (Z * list Z)) last :
  idle (lg s) 0 0 -> log_size (lg s) = LOGSIZE -> length (lh_block (lg s)) = Z.to_nat LOGSIZE ->
  R (bs s) v -> slots v = ∅ -> held v = ∅ ->
  length op1 = Z.to_nat MAXOPBLOCKS -> length op2 = Z.to_nat MAXOPBLOCKS -> length (op3 ++ [last]) = Z.to_nat MAXOPBLOCKS ->
  NoDup (op1 ++ op2 ++ op3 ++ [last]).*1 ->
  Forall (fun x => 0 <= fst x < 2 ^ 31 /\ length (snd x) = Z.to_nat BSIZE) (op1 ++ op2 ++ op3 ++ [last]) ->
  wp (begin_op me ;; begin_op me ;; begin_op me ;; write_blocks (op1 ++ op2 ++ op3)) s (fun _ s' =>
    lh_n (lg s') = 29 /\ write_block last s' = Panic "too big a transaction").
Proof.
  intros Hi Hsz Hlb HR Hsl Hh L1 L2 L3 Hnd Hall. rewrite length_app in L3. cbn in L3. unfold MAXOPBLOCKS in L1, L2, L3.
  assert (E : op1 ++ op2 ++ op3 ++ [last] = (op1 ++ op2 ++ op3) ++ [last]) by (by rewrite <-!app_assoc). rewrite E in Hnd, Hall. rewrite fmap_app in Hnd. apply list.Forall_app in Hall as [Ha1 Ha2]. apply Forall_inv in Ha2 as [Hb1 Hb2].
  pose proof Hnd as Hnd'. apply list.NoDup_app in Hnd' as (Hnd1 & Hap & _).
  wp_step. eapply wp_mono; [by apply (wp_begin_op s 0 0)|]. intros [] s1 (H1 & E1 & B1 & K1).
  wp_step. eapply wp_mono; [by apply (wp_begin_op s1 1 0)|]. intros [] s2 (H2 & E2 & B2 & K2).
  wp_step. eapply wp_mono; [by apply (wp_begin_op s2 2 0)|]. intros [] s3 (H3 & E3 & B3 & K3).
  assert (Hrun : three_running s3 []).
  { destruct H3 as [I1 I2 I3 I4]. split; [|split_and!; [by rewrite I3|done|congruence]|].
    - split; try done; [by rewrite K3, K2, K1|constructor].
    - exists v. rewrite B3, B2, B1. split_and!; [done|done|by rewrite Hsl, dom_empty_L|]. intros x b n. by rewrite Hsl, lookup_empty. }
  eapply (wp_write_blocks _ s3 []); [exact Hrun|rewrite !length_app; cbn; lia|done|done|]. rewrite app_nil_l.
  intros s4 Hr4. set (blks := (op1 ++ op2 ++ op3).*1) in *. assert (Hlen : length blks = 29%nat) by (unfold blks; rewrite length_fmap, !length_app; lia).
  assert (Hn : fst last ∉ blks). { unfold blks. intros Hin. apply (Hap _ Hin). cbn. set_solver. }
  pose proof Hr4 as [Hl4 (O1 & O2 & O3) _]. split; [rewrite (ls_n _ _ Hl4), Hlen; done|].
  destruct (running_bread s4 blks (fst last) Hr4 ltac:(lia) Hn Hb1) as (v4 & R4 & _ & _ & _ & Hbr).
  apply wp_ok in Hbr as (b & x & Ebr & R5). pose proof (law_set_bdata x _ (fst last) b 1 (snd last) R5 ltac:(apply lookup_insert_eq) ltac:(cbn; set_solver) Hb2) as Hset.
  apply wp_ok in Hset as ([] & x' & Eset & _).
  unfold write_block, bind at 1, bcall at 1, zoom. cbn [view bs_lens put]. rewrite Ebr. unfold bind at 1, bcall at 1, zoom. cbn [view bs_lens put bs lg]. rewrite Eset.
  unfold bind at 1. destruct (ls_lock _ _ Hl4) as [Hlk Hcpu]. unfold log_write, acquire_at, holding, getl; run_unfold. cbn [view put log_lock_lens lg bs log_lock].
  rewrite Hlk. cbn. by rewrite (ls_n _ _ Hl4), Hlen, O3.
Qed.

End Spec.
