(* ===== verification/LogDemo.v ===== *)
(** * A transaction on a real buffer cache

    The buffer cache of Bio.v is booted over an empty disk, one transaction
    writes block 50, and the theorems of LogSpec.v are applied to the state in
    which it is ready to commit; the theorem on recovery to the disk that a
    crash after the commit leaves. *)

From S2P Require Import Prelude Spinlock Riscv BufCache Bio BioFacts BioSpec Log LogFacts LogSpec.

(** Process 1 on CPU 0, device 1 (ROOTDEV). *)
#[local] Instance demo_ops : BufOps bcache := BcacheOps 0 1.
#[local] Instance demo_contract : BufCache bcache 1 (bio_ok 1 1) := bcache_contract 1 0 1.

Definition demo_bcache : bcache :=
  mkBcache (initlock "bcache") (list_to_map ((fun i => (i, buf0)) <$> seqZ 0 (NBUF + 1))) ∅ [].

(** mkfs puts the log at block 2 and gives it 30 blocks. *)
Definition demo_log : flog := mkLog (initlock "log") 2 30 0 0 1 0 (replicate 30 0).

Lemma demo_boot_ok : boot demo_bcache.
Proof.
  split.
  - intros i Hi. apply elem_of_list_to_map.
    + rewrite <-list_fmap_compose. cbn. rewrite list_fmap_id. apply NoDup_seqZ.
    + apply list_elem_of_fmap. exists i. split; [done|]. apply elem_of_seqZ. lia.
  - intros blk. unfold disk_block. cbn. rewrite lookup_empty. reflexivity.
Qed.

Lemma demo_binit : exists s, bio_ok 1 1 s (boot_view demo_bcache).
Proof.
  destruct (proj1 (wp_ok _ _ _) (wp_binit 1 1 demo_bcache demo_boot_ok ltac:(done))) as ([] & s & _ & H).
  by exists s.
Qed.

Definition demo_data : list Z := 7 :: replicate 1023 0.

(** Block 50 read, changed, pinned and released. *)
Definition demo_view (b : Z) : bview :=
  mkBview {[50 := (b, 1)]} ∅ (fupd 50 demo_data (disk_block demo_bcache)) (disk_block demo_bcache) [].

Lemma demo_dirty : exists s b, bio_ok 1 1 s (demo_view b).
Proof.
  destruct demo_binit as [s0 H0]. set (v0 := boot_view demo_bcache) in *.
  destruct (proj1 (wp_ok _ _ _) (law_bread s0 v0 50 H0 ltac:(lia) ltac:(set_solver) ltac:(done))) as (b & s1 & _ & H1).
  cbn -[lookup] in H1. rewrite lookup_empty in H1. set (v1 := v_take 50 b 1 v0) in *.
  assert (L1 : slots v1 !! 50 = Some (b, 1)) by apply lookup_insert_eq.
  destruct (proj1 (wp_ok _ _ _) (law_set_bdata s1 v1 50 b 1 demo_data H1 L1 ltac:(cbn; set_solver) eq_refl)) as ([] & s2 & _ & H2).
  destruct (proj1 (wp_ok _ _ _) (law_bpin s2 (v_set 50 demo_data v1) 50 b 1 H2 L1 ltac:(unfold cnt_ok; lia))) as ([] & s3 & _ & H3).
  destruct (proj1 (wp_ok _ _ _) (law_brelse s3 (v_count 50 b 2 (v_set 50 demo_data v1)) 50 b 2 H3 ltac:(apply lookup_insert_eq) ltac:(cbn; set_solver) ltac:(lia)))
    as ([] & s4 & _ & H4).
  exists s4, b. erewrite (bview_eq (demo_view b)); [exact H4|..]; try done.
Qed.

Lemma demo_zero blk : disk_block demo_bcache blk = replicate 1024 0.
Proof. unfold disk_block. cbn. by rewrite lookup_empty. Qed.

Definition demo_txn : flog := mkLog (initlock "log") 2 30 0 1 1 1 (50 :: replicate 29 0).

Lemma demo_ready : exists (s : lstate bcache) v,
  ready (dv := 1) (R := bio_ok 1 1) s v [50] /\ contents v 50 = demo_data /\ dcontents v 50 = replicate 1024 0 /\
  lh_n (lg s) = 1.
Proof.
  destruct demo_dirty as (s & b & H). exists (mkLstate demo_txn s), (demo_view b). split; [|split_and!; [apply fupd_eq|apply demo_zero|done]].
  split; cbn [lg bs demo_txn log_dev log_start log_size lh_n lh_block]; try exact H; try done.
  - cbn. unfold LOGSIZE, MAXOPBLOCKS. lia.
  - apply NoDup_singleton.
  - constructor; [|constructor]. unfold in_log. lia.
  - intros x Hx. unfold in_log in Hx. cbn. rewrite lookup_singleton_ne by lia. done.
  - intros x Hx. apply list_elem_of_singleton in Hx as ->. exists b, 1. cbn. rewrite lookup_singleton_eq.
    unfold cnt_ok. split_and!; try done; lia.
  - intros x Hx. cbn. apply fupd_ne. set_solver.
Qed.

Lemma commit_atomic_witness :
  exists (s : lstate bcache) v, contents v 50 <> dcontents v 50 /\
  wp commit s (fun _ s' => exists v' ws,
    bio_ok 1 1 (bs s') v' /\ lh_n (lg s') = 0 /\ history v' = reverse ws ++ history v /\
    (forall blk, ~ in_log (log_start (lg s)) (log_size (lg s)) blk ->
       contents v' blk = contents v blk /\ dcontents v' blk = contents v blk) /\
    forall k sb vb, rebooted (dv := 1) (R := bio_ok 1 1) s (apply_writes (take k ws) (dcontents v)) sb vb ->
      wp recover_from_log sb (fun _ s'' => exists v'', bio_ok 1 1 (bs s'') v'' /\ contents v'' = dcontents v'' /\
        ((forall blk, ~ in_log (log_start (lg s)) (log_size (lg s)) blk -> dcontents v'' blk = dcontents v blk) \/
         (forall blk, ~ in_log (log_start (lg s)) (log_size (lg s)) blk -> dcontents v'' blk = contents v blk)))).
Proof.
  destruct demo_ready as (s & v & Hr & E1 & E2 & En). exists s, v. split; [by rewrite E1, E2|].
  apply (commit_atomic (dv := 1) (R := bio_ok 1 1) s v [50]); [exact Hr|]. rewrite En. reflexivity.
Defined.

(** A disk as a crash after the commit point leaves it: the header lists block
    50, whose new contents are in the first block of the log. *)
Definition crashed_bcache : bcache :=
  mkBcache (initlock "bcache") (bufs demo_bcache) {[2 := [1; 0; 0; 0; 50; 0; 0; 0] ++ replicate 1016 0; 3 := demo_data]} [].

Lemma demo_booted : exists (s : lstate bcache) v, booted (dv := 1) (R := bio_ok 1 1) s v /\
  log_start (lg s) = 2 /\ dcontents v = disk_block crashed_bcache.
Proof.
  assert (Hb : boot crashed_bcache).
  { split; [apply demo_boot_ok|]. intros blk. unfold disk_block. change (Bio.disk crashed_bcache) with ({[2 := [1; 0; 0; 0; 50; 0; 0; 0] ++ replicate 1016 0; 3 := demo_data]} : gmap Z (list Z)). destruct (decide (blk = 2)) as [->|H2]; [reflexivity|].
    rewrite lookup_insert_ne by done. destruct (decide (blk = 3)) as [->|H3]; [reflexivity|]. by rewrite lookup_singleton_ne. }
  destruct (proj1 (wp_ok _ _ _) (wp_binit 1 1 crashed_bcache Hb ltac:(done))) as ([] & s & _ & H).
  exists (mkLstate demo_log s), (boot_view crashed_bcache). split; [|done].
  split; cbn [lg bs demo_log log_dev log_start log_size lh_block]; try done.
  split; cbn [dcontents boot_view]; [reflexivity|done|done| |]; change (head_blocks (disk_block crashed_bcache 2)) with [50].
  - apply NoDup_singleton.
  - constructor; [|constructor]. unfold in_log. lia.
Qed.

Lemma recovery_idempotent_witness :
  exists (s : lstate bcache) v, head_blocks (dcontents v 2) = [50] /\
  wp recover_from_log s (fun _ s' => exists v' ws,
    bio_ok 1 1 (bs s') v' /\ history v' = reverse ws ++ history v /\ head_blocks (dcontents v' 2) = [] /\
    dcontents v' 50 = demo_data /\
    forall k, recovered 2 (apply_writes (take k ws) (dcontents v)) 50 = demo_data).
Proof.
  destruct demo_booted as (s & v & Hb & Es & Ev). exists s, v. split; [by rewrite Ev|].
  eapply wp_mono; [exact (recovery_idempotent (dv := 1) (R := bio_ok 1 1) s v Hb)|]. intros [] s' (v' & ws & H1 & H2 & H3 & H4 & H5).
  assert (Ho : ~ in_log (log_start (lg s)) (log_size (lg s)) 50).
  { pose proof (hd_out _ _ _ (bt_head _ _ Hb)) as Hh. rewrite Es, Ev in Hh. change (head_blocks (disk_block crashed_bcache 2)) with [50] in Hh. rewrite Es. inversion Hh as [|? ? [_ Hn] _]. exact Hn. }
  assert (Er : recovered 2 (disk_block crashed_bcache) 50 = demo_data) by reflexivity.
  exists v', ws. rewrite Es, Ev in *. split; [exact H1|]. split; [exact H2|]. split; [exact H3|]. split; [rewrite H4 by exact Ho; exact Er|]. intros k. rewrite H5 by exact Ho. exact Er.
Defined.

(** Writing block 50 to the log again, with block 50 listed. *)
Lemma log_write_absorbs_witness :
  exists (s : lstate bcache) v b, slots v !! 50 = Some (b, 1) /\
  wp (log_write 0 b) s (fun _ s' =>
    listed (lg s') [50] /\ same_log (lg s) (lg s') /\ bio_ok 1 1 (bs s') v).
Proof.
  destruct demo_dirty as (s & b & H).
  exists (mkLstate (set_outstanding 1 (set_committing 0 demo_txn)) s). exists (demo_view b), b.
  split; [cbn; apply lookup_singleton_eq|].
  assert (Hl : listed (set_outstanding 1 (set_committing 0 demo_txn)) [50]).
  { split; cbn; try done; [apply NoDup_singleton|]. constructor; [lia|constructor]. }
  apply (log_write_absorbs (dv := 1) (R := bio_ok 1 1) 0
    (mkLstate (set_outstanding 1 (set_committing 0 demo_txn)) s) (demo_view b) [50] b 50 1 H Hl);
    first [reflexivity|apply lookup_singleton_eq|cbn; lia|unfold cnt_ok; lia].
Defined.

Lemma begin_op_admission_witness :
  wp (begin_op 0) (mkLstate demo_log demo_bcache) (fun _ s' => idle (lg s') 1 0 /\ bs s' = demo_bcache).
Proof.
  apply (proj1 (begin_op_admission 0 (mkLstate demo_log demo_bcache) 0 0 ltac:(split; done))). done.
Defined.

(** Three operations on the real cache, on blocks 50 to 79. *)
Definition demo_op (from n : Z) : list (Z * list Z) := (fun b => (b, demo_data)) <$> seqZ from n.

Lemma demo_ops_ok : demo_op 50 10 ++ demo_op 60 10 ++ demo_op 70 9 ++ [(79, demo_data)] = demo_op 50 30.
Proof. reflexivity. Qed.

Lemma reservation_overflow_witness :
  exists s : bcache, wp (begin_op 0 ;; begin_op 0 ;; begin_op 0 ;; write_blocks (dv := 1) 0 (demo_op 50 10 ++ demo_op 60 10 ++ demo_op 70 9))
    (mkLstate demo_log s) (fun _ s' => lh_n (lg s') = 29 /\ write_block (dv := 1) 0 (79, demo_data) s' = Panic "too big a transaction").
Proof.
  destruct demo_binit as [s H]. exists s.
  apply (reservation_overflow (dv := 1) (R := bio_ok 1 1) 0 (mkLstate demo_log s) (boot_view demo_bcache)
    (demo_op 50 10) (demo_op 60 10) (demo_op 70 9) (79, demo_data)); try done; rewrite ?demo_ops_ok.
  - unfold demo_op. rewrite <-list_fmap_compose. cbn [fst compose]. rewrite list_fmap_id. apply NoDup_seqZ.
  - apply list.Forall_forall. intros x Hx. apply list_elem_of_fmap in Hx as (b & -> & Hb). apply elem_of_seqZ in Hb. cbn [fst snd]. split; [lia|done].
Defined.

Lemma binit_all_buffers_witness :
  wp Bcache.binit demo_bcache (fun _ s' => bio_ok 1 1 s' (boot_view demo_bcache)).
Proof. apply (binit_all_buffers 1 1 demo_bcache); [exact demo_boot_ok|discriminate]. Defined.

Lemma bread_single_copy_witness :
  exists s, wp (Bcache.bread 0 1 1 50) s (fun b s' => exists v', bio_ok 1 1 s' v' /\
    slot b /\ blockno (bufat s' b) = 50 /\ data (bufat s' b) = replicate 1024 0 /\
    b_lock (bufat s' b) = sl_held "buffer" 1 /\
    (forall i, slot i -> caches 1 s' 50 i -> i = b) /\
    contents v' = disk_block demo_bcache /\ dcontents v' = disk_block demo_bcache /\ held v' = {[50]} ∪ ∅).
Proof.
  destruct demo_binit as [s H]. exists s. rewrite <-(demo_zero 50).
  pose proof (bread_single_copy 1 0 1 s (boot_view demo_bcache) 50 H) as Hb. rewrite decide_False in Hb.
  - apply Hb; [set_solver|]. intros b n. cbn. by rewrite lookup_empty.
  - intros [_ Hn]. cbn in Hn. rewrite map_size_empty in Hn. unfold NBUF, MAXOPBLOCKS in Hn. lia.
Defined.

(** Block 50, read and released again. *)
Lemma brelse_moves_to_front_witness :
  exists s b l, dll (bufs s) l /\
    wp (Bcache.brelse 0 1 b) s (fun _ s' =>
      bio_ok 1 1 s' (v_drop 50 b 1 (v_take 50 b 1 (boot_view demo_bcache))) /\
      if decide (1 = 1) then exists l1 l2, l = l1 ++ b :: l2 /\ dll (bufs s') (b :: l1 ++ l2)
      else dll (bufs s') l).
Proof.
  destruct demo_binit as [s0 H0].
  destruct (proj1 (wp_ok _ _ _) (law_bread s0 _ 50 H0 ltac:(lia) ltac:(set_solver) ltac:(done))) as (b & s1 & _ & H1).
  cbn -[lookup] in H1. rewrite lookup_empty in H1.
  destruct (io_list _ _ _ _ H1) as (l & Hd & _). exists s1, b, l. split; [exact Hd|].
  apply (brelse_moves_to_front 1 0 1 s1 (v_take 50 b 1 (boot_view demo_bcache)) 50 b 1 l H1 Hd);
    [apply lookup_insert_eq|cbn; set_solver|reflexivity].
Defined.
