(* ===== verification/Ring.v ===== *)
(** * Circular buffers

    The pipe, the console and the UART driver keep a power-of-two array and
    two unsigned counters that are only ever incremented, and index the array
    with the counter modulo its size.  [ring] reads such a buffer as a queue;
    it is shared by Pipe.v and Console.v. *)

From S2P Require Import Prelude.

Section Ring.
(** Size of the array and modulus of the counters. *)
Context (N W : Z) (HN : 0 < N) (HW : 0 < W) (Hdiv : (N | W)).

(** Number of elements, for counters [r] (read) and [w] (write). *)
Definition ring_len (r w : Z) : Z := (w - r) mod W.

Definition ring_get (d : list Z) (i : Z) : Z := default 0 (d !! Z.to_nat (i mod N)).
Definition ring_set (d : list Z) (i v : Z) : list Z := <[Z.to_nat (i mod N) := v]> d.

(** The queue, oldest element first. *)
Definition ring (d : list Z) (r w : Z) : list Z :=
  map (fun k => ring_get d (r + k)) (seqZ 0 (ring_len r w)).

Lemma ring_len_range r w : 0 <= ring_len r w < W.
Proof. apply Z.mod_pos_bound. done. Qed.

Lemma length_ring d r w : length (ring d r w) = Z.to_nat (ring_len r w).
Proof. unfold ring. by rewrite length_map, length_seqZ. Qed.

Lemma mod_W_N x : (x mod W) mod N = x mod N.
Proof. destruct Hdiv as [k ->]. rewrite Z.mul_comm. rewrite Z.rem_mul_r by nia. rewrite Z.mul_comm, Z.mod_add, Z.mod_mod; lia. Qed.

Lemma ring_get_mod d x : ring_get d (x mod W) = ring_get d x.
Proof. unfold ring_get. by rewrite mod_W_N. Qed.

Lemma ring_get_mod_add d x k : ring_get d (x mod W + k) = ring_get d (x + k).
Proof.
  rewrite <-(ring_get_mod d (x mod W + k)), <-(ring_get_mod d (x + k)). by rewrite Z.add_mod_idemp_l by lia.
Qed.

Lemma ring_len_push r w : ring_len r w < W - 1 -> ring_len r ((w + 1) mod W) = ring_len r w + 1.
Proof.
  intros H. unfold ring_len in *. rewrite Zminus_mod_idemp_l.
  replace (w + 1 - r) with ((w - r) + 1) by lia. rewrite <-Z.add_mod_idemp_l by lia.
  apply Z.mod_small. pose proof (Z.mod_pos_bound (w - r) W). lia.
Qed.

Lemma ring_len_pop r w : 0 < ring_len r w -> ring_len ((r + 1) mod W) w = ring_len r w - 1.
Proof.
  intros H. unfold ring_len in *. rewrite Zminus_mod_idemp_r.
  replace (w - (r + 1)) with ((w - r) - 1) by lia. rewrite <-Zminus_mod_idemp_l.
  apply Z.mod_small. pose proof (Z.mod_pos_bound (w - r) W). lia.
Qed.

Lemma ring_len_zero r w : 0 <= r < W -> 0 <= w < W -> ring_len r w = 0 <-> r = w.
Proof.
  intros Hr Hw. unfold ring_len. split; [|intros ->; by rewrite Z.sub_diag, Z.mod_0_l by lia].
  intros H. destruct (Z.lt_ge_cases w r) as [Hlt|Hge].
  - rewrite <-(Z.mod_add _ 1), Z.mod_small in H; lia.
  - rewrite Z.mod_small in H; lia.
Qed.

(** The full test of the C code: [w == r + N], in unsigned arithmetic. *)
Lemma ring_full r w :
  0 <= w < W -> N < W -> ring_len r w <= N -> (w =? (r + N) mod W) = (ring_len r w =? N).
Proof.
  intros Hw HNW Hl. unfold ring_len in *. apply eq_true_iff_eq. rewrite !Z.eqb_eq. split.
  - intros ->. rewrite Zminus_mod_idemp_l. replace (r + N - r) with N by lia. apply Z.mod_small. lia.
  - intros H. rewrite <-H. rewrite Z.add_mod_idemp_r by lia. replace (r + (w - r)) with w by lia.
    by rewrite Z.mod_small.
Qed.

Lemma mod_apart r i j : 0 <= i < N -> 0 <= j < N -> (r + i) mod N = (r + j) mod N -> i = j.
Proof.
  intros Hi Hj E. assert (H : (i - j) mod N = 0).
  { replace (i - j) with ((r + i) - (r + j)) by lia. rewrite Zminus_mod, E, Z.sub_diag. apply Z.mod_0_l. lia. }
  apply Z.mod_divide in H as [k Hk]; [|lia]. assert (k = 0) by nia. lia.
Qed.

Lemma ring_push d r w c :
  length d = Z.to_nat N -> ring_len r w < N -> N < W ->
  ring (ring_set d w c) r ((w + 1) mod W) = ring d r w ++ [c].
Proof.
  intros Hd Hl HNW. unfold ring. pose proof (ring_len_range r w) as Hr.
  rewrite ring_len_push by lia. rewrite seqZ_app by lia. rewrite map_app, Z.add_0_l. rewrite (seqZ_cons _ 1), (seqZ_nil _ (Z.pred 1)) by lia. cbn [map].
  assert (Hw : (r + ring_len r w) mod N = w mod N).
  { unfold ring_len. rewrite <-(mod_W_N (r + _)), Z.add_mod_idemp_r by lia.
    replace (r + (w - r)) with w by lia. apply mod_W_N. }
  f_equal.
  - apply map_ext_in. intros k Hk. apply list_elem_of_In, elem_of_seqZ in Hk.
    unfold ring_get, ring_set. rewrite list_lookup_insert_ne; [done|]. intros E.
    assert (Hm : (r + k) mod N = w mod N).
    { pose proof (Z.mod_pos_bound (r + k) N). pose proof (Z.mod_pos_bound w N). lia. }
    rewrite <-Hw in Hm. apply mod_apart in Hm; lia.
  - f_equal. unfold ring_get, ring_set. rewrite Hw, list_lookup_insert_eq; [done|].
    pose proof (Z.mod_pos_bound w N). lia.
Qed.

Lemma ring_pop d r w :
  0 < ring_len r w -> ring d r w = ring_get d r :: ring d ((r + 1) mod W) w.
Proof.
  intros H. unfold ring. rewrite seqZ_cons by lia. cbn [map]. rewrite Z.add_0_r. f_equal.
  rewrite ring_len_pop by lia. rewrite <-Z.sub_1_r.
  replace (Z.succ 0) with (1 + 0) by lia. rewrite <-(fmap_add_seqZ 1 0). change (Z.add 1 <$> ?l) with (map (Z.add 1) l).
  rewrite map_map. apply map_ext. intros k. rewrite ring_get_mod_add. f_equal. lia.
Qed.

Lemma length_ring_set d i v : length (ring_set d i v) = length d.
Proof. apply length_insert. Qed.

(** A buffer with a third counter: the elements from [r] to [w] and from [w]
    to [e]. *)
Lemma ring_len_split r w e : ring_len r w + ring_len w e < W -> ring_len r e = ring_len r w + ring_len w e.
Proof.
  intros Hl. pose proof (ring_len_range r w). pose proof (ring_len_range w e). unfold ring_len in *.
  replace (e - r) with ((w - r) + (e - w)) by lia. rewrite Z.add_mod by lia. apply Z.mod_small. lia.
Qed.

Lemma ring_split d r w e : ring_len r w + ring_len w e < W -> ring d r e = ring d r w ++ ring d w e.
Proof.
  intros Hl. pose proof (ring_len_range r w). pose proof (ring_len_range w e). unfold ring at 1. rewrite (ring_len_split r w e) by done.
  rewrite seqZ_app, map_app by lia. f_equal. unfold ring.
  assert (Hz : forall m x, map (fun k => ring_get d (r + k)) (seqZ (0 + x) m) = map (fun k => ring_get d (r + x + k)) (seqZ 0 m)).
  { intros m x. rewrite Z.add_comm, <-(fmap_add_seqZ x 0 m). change (Z.add x <$> ?l) with (map (Z.add x) l). rewrite map_map. apply map_ext.
    intros k. f_equal. lia. }
  rewrite Hz. apply map_ext. intros k. rewrite <-(ring_get_mod_add d w k), <-(ring_get_mod_add d (r + _) k).
  do 2 f_equal. unfold ring_len. rewrite Z.add_mod_idemp_r by lia. f_equal. lia.
Qed.

Lemma ring_len_back w e : 0 < ring_len w e -> ring_len w ((e - 1) mod W) = ring_len w e - 1.
Proof.
  intros Hl. unfold ring_len in *. rewrite Zminus_mod_idemp_l. replace (e - 1 - w) with ((e - w) - 1) by lia.
  rewrite <-Zminus_mod_idemp_l. apply Z.mod_small. pose proof (Z.mod_pos_bound (e - w) W). lia.
Qed.

Lemma ring_back d w e : 0 < ring_len w e -> ring d w e = ring d w ((e - 1) mod W) ++ [ring_get d (e - 1)].
Proof.
  intros Hl. pose proof (ring_len_range w e). assert (W > 1) by lia. assert (Hone : ring_len ((e - 1) mod W) e = 1).
  { unfold ring_len. rewrite Zminus_mod_idemp_r. replace (e - (e - 1)) with 1 by lia. apply Z.mod_small. lia. }
  rewrite (ring_split d w ((e - 1) mod W) e) by (rewrite ring_len_back by done; lia). f_equal.
  rewrite ring_pop by lia. rewrite ring_get_mod. f_equal. unfold ring. rewrite ring_len_pop by lia. by rewrite Hone.
Qed.

(** An element appended at [e] leaves those before [w] alone. *)
Lemma ring_push_edit d r w e c :
  length d = Z.to_nat N -> ring_len r w + ring_len w e < N -> N < W ->
  ring (ring_set d e c) r w = ring d r w /\ ring (ring_set d e c) w ((e + 1) mod W) = ring d w e ++ [c].
Proof.
  intros Hd Hl HNW. pose proof (ring_len_range r w). pose proof (ring_len_range w e).
  assert (Hp : ring (ring_set d e c) r ((e + 1) mod W) = ring d r e ++ [c]) by (apply ring_push; [done|rewrite (ring_len_split r w e); lia|done]).
  assert (Hs : ring_len w ((e + 1) mod W) = ring_len w e + 1) by (apply ring_len_push; lia).
  rewrite (ring_split _ r w ((e + 1) mod W)), (ring_split d r w e), <-app_assoc in Hp by lia.
  apply app_inj_1 in Hp; [done|]. by rewrite !length_ring.
Qed.

Lemma ring_empty d r : ring d r r = [].
Proof. unfold ring, ring_len. by rewrite Z.sub_diag, Z.mod_0_l by lia. Qed.

End Ring.
