(* ===== verification/UserIO.v ===== *)
(** * Access to the memory of the caller

    either_copyin() and either_copyout() (kernel/proc.c) move bytes between
    the kernel and the buffer a system call was given: a user address of the
    running process, or a kernel address.  The components that only pass bytes
    along (pipes, the console, files) are written against this interface;
    [flat_io] is a caller whose memory is one flat array. *)

From S2P Require Import Prelude Mem.

Class UserIO (U : Type) := {
  (** either_copyin(dst, user_src, src, len): the bytes read, or None for -1. *)
  either_copyin : bool -> Z -> Z -> U -> option (list Z);
  (** When it returns -1: the bytes that reached dst before the failure. *)
  partial_copyin : bool -> Z -> Z -> U -> list Z;
  (** either_copyout(user_dst, dst, src, len): false for -1; some bytes may
      have been written even then. *)
  either_copyout : bool -> Z -> list Z -> U -> bool * U
}.

(** A caller whose addresses below [top] are mapped. *)
Record flat := mkFlat { flat_top : Z; flat_mem : mem }.

#[global] Instance flat_io : UserIO flat := {
  either_copyin _ a n u :=
    if (0 <=? a) && (a + n <=? flat_top u) then Some (load_bytes (flat_mem u) a (Z.to_nat n)) else None;
  partial_copyin _ _ _ _ := [];
  either_copyout _ a bs u :=
    if (0 <=? a) && (a + Z.of_nat (length bs) <=? flat_top u)
    then (true, mkFlat (flat_top u) (store_bytes (flat_mem u) a bs)) else (false, u)
}.
