(* ===== verification/Umalloc.v ===== *)
(** * The user memory allocator (user/umalloc.c)

    The free blocks form a circular list in order of address, threaded through
    the headers of the blocks; [base] is an empty block that is always in it.
    Memory is bytes, a [Header] is 16 of them: the pointer and the size in
    headers.  UmallocFacts.v has the theorems. *)

From S2P Require Import Prelude Mem.

Definition sizeof_Header : Z := 16.

(** What the allocator asks of the system: sbrk(), with the memory of the
    process and the rest of the system as state. *)
Class Sbrk (S : Type) := { sbrk : Z -> M (mem * S) Z }.

(** The memory, the variable freep and the rest of the system. *)
Record heap (S : Type) := mkHeap { h_mem : mem; h_freep : Z; h_sys : S }.
Arguments mkHeap {S} _ _ _.
Arguments h_mem {S} _.
Arguments h_freep {S} _.
Arguments h_sys {S} _.

(** The fields of a header: s.ptr and s.size. *)
Definition hptr (m : mem) (a : Z) : Z := load64 m a.
Definition hsize (m : mem) (a : Z) : Z := le_val (load_bytes m (a + 8) 4).

Section Umalloc.
Context {S : Type} {SB : Sbrk S}.
Local Notation HP := (heap S).
(** The address of [base], and the fuel of the loops. *)
Variables (base : Z) (fuel : nat).

Definition set_mem (m : mem) (s : HP) : HP := mkHeap m (h_freep s) (h_sys s).
Definition sys_lens : lens HP (mem * S) :=
  Lens (fun s => (h_mem s, h_sys s)) (fun ms s => mkHeap (fst ms) (h_freep s) (snd ms)).

Definition ptr (a : Z) : M HP Z := gets (fun s => hptr (h_mem s) a).
Definition size (a : Z) : M HP Z := gets (fun s => hsize (h_mem s) a).
Definition set_ptr (a v : Z) : M HP unit := modify (fun s => set_mem (store64 (h_mem s) a v) s).
Definition set_size (a v : Z) : M HP unit := modify (fun s => set_mem (store_bytes (h_mem s) (a + 8) (le_bytes 4 v)) s).
Definition freep : M HP Z := gets h_freep.
Definition set_freep (p : Z) : M HP unit := modify (fun s => mkHeap (h_mem s) p (h_sys s)).
(** [p + n] for a pointer to headers. *)
Definition hdr_add (p n : Z) : Z := u64 (p + n * sizeof_Header).

(** The search of free() for the place of [bp]. *)
Definition free_body (bp p : Z) : M HP (Z + Z) :=
  let! q := ptr p in
  if (p <? bp) && (bp <? q) then ret (inr p)
  else if (q <=? p) && ((p <? bp) || (bp <? q)) then ret (inr p)
  else ret (inl q).

Definition free_join_next (bp p : Z) : M HP unit :=
  let! n := size bp in
  let! q := ptr p in
  if hdr_add bp n =? q then
    let! n := size bp in
    let! q := ptr p in
    let! k := size q in
    set_size bp (u32 (n + k)) ;;
    let! q := ptr p in
    let! r := ptr q in
    set_ptr bp r
  else
    let! q := ptr p in
    set_ptr bp q.

Definition free_join_prev (bp p : Z) : M HP unit :=
  let! n := size p in
  if hdr_add p n =? bp then
    let! n := size p in
    let! k := size bp in
    set_size p (u32 (n + k)) ;;
    let! r := ptr bp in
    set_ptr p r
  else set_ptr p bp.

Definition free (ap : Z) : M HP unit :=
  let bp := hdr_add ap (-1) in
  let! p := freep in
  let! p := loop fuel (free_body bp) p in
  free_join_next bp p ;;
  free_join_prev bp p ;;
  set_freep p.

Definition morecore (nu : Z) : M HP Z :=
  let nu := if nu <? 4096 then 4096 else nu in
  let! p := zoom sys_lens (sbrk (i32 (u64 (nu * sizeof_Header)))) in
  if p =? 2 ^ 64 - 1 then ret 0
  else
    let hp := p in
    set_size hp nu ;;
    free (hdr_add hp 1) ;;
    freep.

Definition nunits (nbytes : Z) : Z := u32 (u64 (nbytes + sizeof_Header - 1) / sizeof_Header + 1).

(** malloc() with a block [p] that is large enough, the successor of [prevp]. *)
Definition malloc_take (nu prevp p : Z) : M HP Z :=
  let! n := size p in
  let! p :=
    (if n =? nu then
       let! q := ptr p in
       set_ptr prevp q ;;
       ret p
     else
       let! n := size p in
       set_size p (u32 (n - nu)) ;;
       let! n := size p in
       let p := hdr_add p n in
       set_size p nu ;;
       ret p) in
  set_freep prevp ;;
  ret (hdr_add p 1).

Definition malloc_body (nu : Z) (v : Z * Z) : M HP ((Z * Z) + Z) :=
  let '(prevp, p) := v in
  let! n := size p in
  if nu <=? n then let! r := malloc_take nu prevp p in ret (inr r)
  else
    let! f := freep in
    if p =? f then
      let! p := morecore nu in
      if p =? 0 then ret (inr 0)
      else let! q := ptr p in ret (inl (p, q))
    else let! q := ptr p in ret (inl (p, q)).

Definition malloc (nbytes : Z) : M HP Z :=
  let nu := nunits nbytes in
  let! prevp := freep in
  let! prevp :=
    (if prevp =? 0 then
       set_freep base ;;
       set_ptr base base ;;
       set_size base 0 ;;
       ret base
     else ret prevp) in
  let! p := ptr prevp in
  loop fuel (malloc_body nu) (prevp, p).

End Umalloc.
