(* ===== verification/UmallocFacts.v ===== *)
(** * The allocator never hands out a byte twice and loses none

    The free list is a circular segment of headers; the bytes that sbrk() gave
    are tiled by the free blocks and the blocks in use.  malloc() and free()
    keep this, and touch nothing of the blocks in use. *)

From stdpp Require Import sorting.
From S2P Require Import Prelude Mem Umalloc.

(** A block: the address of its header and its size in headers. *)
Abbreviation block := (Z * Z)%type.
Implicit Types (m : mem) (a n : Z) (x y : block) (l : list block).

(** ** Headers in memory *)

(** Memory changes only in the header at [a]. *)
Definition in_header a m m' : Prop := forall b, ~ (a <= b < a + 16) -> load8 m' b = load8 m b.

Lemma hptr_ext m m' a : (forall b, a <= b < a + 16 -> load8 m' b = load8 m b) -> hptr m' a = hptr m a.
Proof. intros Hs. apply load64_ext. intros b Hb. apply Hs. lia. Qed.

Lemma hsize_ext m m' a : (forall b, a <= b < a + 16 -> load8 m' b = load8 m b) -> hsize m' a = hsize m a.
Proof. intros Hs. unfold hsize. f_equal. apply load_bytes_ext. intros b Hb. apply Hs. lia. Qed.

Definition put_ptr a v m : mem := store64 m a v.
Definition put_size a v m : mem := store_bytes m (a + 8) (le_bytes 4 v).

Lemma put_ptr_in a v m : in_header a m (put_ptr a v m).
Proof. intros b Hb. apply load8_store64_out. lia. Qed.

Lemma put_size_in a v m : in_header a m (put_size a v m).
Proof. intros b Hb. apply load8_store_bytes_out. rewrite length_le_bytes. lia. Qed.

Lemma hptr_put a v m : 0 <= v < 2 ^ 64 -> hptr (put_ptr a v m) a = v.
Proof. intros Hv. unfold hptr, put_ptr. by rewrite load64_store64_eq, u64_small. Qed.

Lemma hsize_put a v m : 0 <= v < 2 ^ 32 -> hsize (put_size a v m) a = v.
Proof.
  intros Hv. unfold hsize, put_size. replace 4%nat with (length (le_bytes 4 v)) at 2 by done.
  rewrite load_store_bytes by apply le_bytes_is_byte. rewrite le_val_le_bytes. by apply Z.mod_small.
Qed.

Lemma hsize_put_ptr a v m : hsize (put_ptr a v m) a = hsize m a.
Proof. unfold hsize. f_equal. apply load_bytes_ext. intros b Hb. apply load8_store64_out. lia. Qed.

Lemma hptr_put_size a v m : hptr (put_size a v m) a = hptr m a.
Proof. apply load64_ext. intros b Hb. apply load8_store_bytes_out. rewrite length_le_bytes. lia. Qed.

Lemma in_header_trans a m1 m2 m3 : in_header a m1 m2 -> in_header a m2 m3 -> in_header a m1 m3.
Proof. intros H1 H2 b Hb. by rewrite H2, H1. Qed.

(** ** Segments of the list *)

(** The address of the first block, or [z]. *)
Definition hd_addr l (z : Z) : Z := match l with x :: _ => x.1 | [] => z end.

(** The headers of [l] hold their sizes, and lead from each block to the next
    and from the last to [z]. *)
Fixpoint seg m l (z : Z) : Prop :=
  match l with
  | [] => True
  | x :: l => hsize m x.1 = x.2 /\ hptr m x.1 = hd_addr l z /\ seg m l z
  end.

Lemma hd_app l1 l2 z : hd_addr (l1 ++ l2) z = hd_addr l1 (hd_addr l2 z).
Proof. by destruct l1. Qed.

Lemma seg_app m l1 l2 z : seg m (l1 ++ l2) z <-> seg m l1 (hd_addr l2 z) /\ seg m l2 z.
Proof. induction l1 as [|x l1 IH]; cbn [app seg]; [tauto|]. rewrite hd_app, IH. tauto. Qed.

(** Headers that do not change. *)
Lemma seg_ext m m' l z : (forall x b, x ∈ l -> x.1 <= b < x.1 + 16 -> load8 m' b = load8 m b) -> seg m l z -> seg m' l z.
Proof.
  induction l as [|x l IH]; intros Hs; [done|]. cbn [seg]. intros (E1 & E2 & E3).
  rewrite (hsize_ext m m'), (hptr_ext m m') by (intros b Hb; apply (Hs x); [apply elem_of_cons; by left|done]).
  split; [done|]. split; [done|]. apply IH; [|done]. intros y b Hy. apply Hs. apply elem_of_cons. by right.
Qed.

Lemma seg_at m l1 x l2 z : seg m (l1 ++ x :: l2) z -> hsize m x.1 = x.2 /\ hptr m x.1 = hd_addr l2 z.
Proof. rewrite seg_app. cbn [seg]. tauto. Qed.

(** ** Tilings *)

Definition apart x y : Prop := x.1 + 16 * x.2 <= y.1 \/ y.1 + 16 * y.2 <= x.1.

Fixpoint apart_all l : Prop :=
  match l with
  | [] => True
  | x :: l => Forall (apart x) l /\ apart_all l
  end.

Definition units l : Z := foldr (fun x u => x.2 + u) 0 l.

(** The blocks of [l] fill the bytes from [lo] to [hi], each exactly once. *)
Record tiles (lo hi : Z) l : Prop := {
  ti_block : Forall (fun x => 1 <= x.2 /\ (16 | x.1) /\ lo <= x.1 /\ x.1 + 16 * x.2 <= hi) l;
  ti_apart : apart_all l;
  ti_units : hi - lo = 16 * units l
}.

#[global] Instance apart_sym : Symmetric apart.
Proof. intros x y. unfold apart. tauto. Qed.

#[global] Instance apart_all_perm : Proper (Permutation ==> iff) apart_all.
Proof.
  assert (Hi : forall l l', l ≡ₚ l' -> apart_all l -> apart_all l').
  { intros l l' Hp. induction Hp as [|x l l' Hp IH|x y l|l l' l'' _ IH1 _ IH2]; cbn [apart_all].
    - done.
    - intros [Hx Hl]. split; [by rewrite <- Hp|by apply IH].
    - rewrite !list.Forall_cons. intros ([Hxy Hl] & Hr & Ha). split; [split; [by symmetry|done]|]. by split.
    - auto. }
  intros l l' Hp. split; apply Hi; [done|by symmetry].
Qed.

#[global] Instance units_perm : Proper (Permutation ==> eq) units.
Proof. intros l l' Hp. unfold units. induction Hp as [|x l l' _ IH|x y l|l l' l'' _ IH1 _ IH2]; cbn; [done|by rewrite IH|lia|by rewrite IH1]. Qed.

#[global] Instance tiles_perm lo hi : Proper (Permutation ==> iff) (tiles lo hi).
Proof. intros l l' Hp. split; intros [A B C]; split; first [by rewrite <- Hp|by rewrite Hp|idtac]. Qed.

Lemma tiles_merge lo hi x y l : x.1 + 16 * x.2 = y.1 -> tiles lo hi (x :: y :: l) -> tiles lo hi ((x.1, x.2 + y.2) :: l).
Proof.
  intros He [A B C]. rewrite !list.Forall_cons in A. destruct A as (A1 & A2 & A3). cbn [apart_all] in B. destruct B as (B1 & B2 & B3).
  apply list.Forall_cons in B1 as [_ B1]. split.
  - apply list.Forall_cons. split; [|done]. cbn [fst snd]. split; [lia|]. split; [tauto|]. lia.
  - cbn [apart_all]. split; [|done]. rewrite list.Forall_forall in *. intros z Hz. specialize (B1 z Hz). specialize (B2 z Hz). specialize (A3 z Hz).
    unfold apart in *. cbn [fst snd]. lia.
  - rewrite C. cbn. lia.
Qed.

Lemma tiles_split lo hi a n k l : 0 < k < n -> tiles lo hi ((a, n) :: l) -> tiles lo hi ((a, n - k) :: (a + 16 * (n - k), k) :: l).
Proof.
  intros Hk [A B C]. rewrite list.Forall_cons in A. destruct A as (A1 & A3). cbn [apart_all] in B. destruct B as (B1 & B3). cbn [fst snd] in *. split.
  - rewrite !list.Forall_cons. cbn [fst snd]. split; [|split]; [split; [lia|]; split; [tauto|lia]|split; [lia|]; split|done]; [|lia].
    apply Z.divide_add_r; [tauto|]. by exists (n - k); lia.
  - cbn [apart_all]. split; [|split; [|done]].
    + apply list.Forall_cons. split; [left; cbn; lia|]. rewrite list.Forall_forall in *. intros z Hz. specialize (B1 z Hz). unfold apart in *. cbn [fst snd] in *. lia.
    + rewrite list.Forall_forall in *. intros z Hz. specialize (B1 z Hz). unfold apart in *. cbn [fst snd] in *. lia.
  - rewrite C. cbn. lia.
Qed.

Lemma tiles_grow lo hi k l : (16 | lo) -> 0 < k -> tiles lo hi l -> tiles lo (hi + 16 * k) ((hi, k) :: l).
Proof.
  intros Hlo Hk [A B C]. assert (Hu : 0 <= units l).
  { clear B C. induction A as [|x l Hx Hl IH]; cbn; [lia|]. change (foldr _ 0 l) with (units l). lia. }
  split.
  - apply list.Forall_cons. cbn [fst snd]. split.
    + split; [lia|]. split; [|lia]. replace hi with (lo + units l * 16) by lia. apply Z.divide_add_r; [done|]. by apply Z.divide_factor_r.
    + eapply list.Forall_impl; [exact A|]. cbn. intros x (? & ? & ? & ?). split; [done|]. split; [done|]. lia.
  - cbn [apart_all]. split; [|done]. eapply list.Forall_impl; [exact A|]. intros x (? & ? & ? & ?). right. cbn. lia.
  - cbn. change (foldr _ 0 l) with (units l). lia.
Qed.

(** ** The state of the allocator *)

(** What the allocator relies on of sbrk(): it returns -1 and changes nothing,
    or moves the end of the memory up by [n] bytes and returns the old end; the
    bytes below the old end stay.  A process's memory is smaller than 64
    gigabytes. *)
Class SbrkLaws (S : Type) {SB : Sbrk S} := {
  brk : S -> Z;
  brk_bound : forall s, 0 <= brk s < 2 ^ 36;
  sbrk_spec : forall n m s, 0 <= n < 2 ^ 31 -> wp (sbrk n) (m, s) (fun r ms =>
    (forall b, b < brk s -> load8 ms.1 b = load8 m b) /\
    (r = 2 ^ 64 - 1 /\ brk ms.2 = brk s \/ r = brk s /\ brk ms.2 = brk s + n))
}.

Section Facts.
Context {S : Type} {SB : Sbrk S} {SL : SbrkLaws S}.
(** [base], and where the memory that sbrk() gives starts. *)
Variables base lo : Z.
Hypotheses (Hbase : 0 < base) (Hlo : base + 16 <= lo) (Hal : (16 | lo)).
Local Notation HP := (heap S).
Implicit Types s : HP.

Definition before x y : Prop := x.1 + 16 * x.2 < y.1.
Definition nodes l : list block := (base, 0) :: l.

(** [F] is the free list, without [base], and [L] are the blocks in use. *)
Record heap_ok (F L : list block) s : Prop := {
  hk_tiles : tiles lo (brk (h_sys s)) (F ++ L);
  hk_sorted : StronglySorted before (nodes F);
  hk_ring : seg (h_mem s) (nodes F) base;
  hk_freep : h_freep s ∈ map fst (nodes F);
  hk_live : Forall (fun x => hsize (h_mem s) x.1 = x.2) L
}.

(** The blocks in use and the memory below the heap, but for [base], keep
    their contents. *)
Definition kept (L : list block) m m' : Prop :=
  forall b, (exists x, x ∈ L /\ x.1 <= b < x.1 + 16 * x.2) \/ b < base \/ base + 16 <= b < lo -> load8 m' b = load8 m b.

#[global] Instance kept_preorder L : PreOrder (kept L).
Proof. split; [by intros m b _|]. intros m1 m2 m3 H1 H2 b Hb. by rewrite H2, H1. Qed.

Lemma node_bounds F L s x : heap_ok F L s -> x ∈ nodes F -> base <= x.1 /\ x.1 + 16 <= Z.max lo (brk (h_sys s)) /\ 0 <= x.2 < 2 ^ 32.
Proof.
  intros [[A _ _] _ _ _ _] Hx. apply elem_of_cons in Hx as [->|Hx]; [cbn; lia|].
  rewrite list.Forall_forall in A. destruct (A x) as (? & _ & ? & ?); [by apply elem_of_app; left|]. pose proof (brk_bound (h_sys s)). lia.
Qed.

Lemma sorted_apart F x y : StronglySorted before (nodes F) -> Forall (fun z => 1 <= z.2 /\ lo <= z.1) F -> x ∈ nodes F -> y ∈ nodes F -> x <> y ->
  x.1 + 16 <= y.1 \/ y.1 + 16 <= x.1.
Proof.
  intros Hs Hf Hx Hy Hne. rewrite list.Forall_forall in Hf. apply list_elem_of_split in Hx as (l1 & l2 & E). rewrite E in Hs, Hy.
  assert (Hb : forall z, z ∈ nodes F -> z = (base, 0) \/ 1 <= z.2 /\ lo <= z.1) by (intros z Hz; apply elem_of_cons in Hz as [->|Hz]; auto).
  pose proof (Hb x) as Bx. pose proof (Hb y) as By. rewrite E in Bx, By.
  apply StronglySorted_app in Hs as (H1 & _ & H2). apply StronglySorted_cons in H2 as [H2 _]. rewrite list.Forall_forall in H2.
  assert (Hxx : x ∈ l1 ++ x :: l2) by (apply elem_of_app; right; apply elem_of_cons; by left). specialize (Bx Hxx). specialize (By Hy).
  apply elem_of_app in Hy as [Hy|Hy]; [|apply elem_of_cons in Hy as [->|Hy]; [done|]].
  - right. specialize (H1 y x Hy ltac:(apply elem_of_cons; by left)). unfold before in H1. destruct Bx as [->|Bx], By as [->|By]; cbn in *; lia.
  - left. specialize (H2 y Hy). unfold before in H2. destruct Bx as [->|Bx], By as [->|By]; cbn in *; lia.
Qed.

Lemma heap_free F L s : heap_ok F L s -> Forall (fun z => 1 <= z.2 /\ lo <= z.1) F.
Proof. intros [[A _ _] _ _ _ _]. apply Forall_app in A as [A _]. eapply list.Forall_impl; [exact A|]. cbn. tauto. Qed.

Lemma heap_apart F L s x y : heap_ok F L s -> x ∈ nodes F -> y ∈ nodes F -> x <> y -> x.1 + 16 <= y.1 \/ y.1 + 16 <= x.1.
Proof. intros Hk. apply sorted_apart; [by destruct Hk|by eapply heap_free]. Qed.

(** A header of the free list is outside of the blocks in use. *)
Lemma free_live F L s x y : heap_ok F L s -> x ∈ nodes F -> y ∈ L -> x.1 + 16 <= y.1 \/ y.1 + 16 * y.2 <= x.1.
Proof.
  intros Hk Hx Hy. pose proof (hk_tiles _ _ _ Hk) as [A B _]. rewrite list.Forall_forall in A.
  pose proof (A y ltac:(apply elem_of_app; by right)) as By. apply elem_of_cons in Hx as [->|Hx]; [cbn; lia|].
  pose proof (A x ltac:(apply elem_of_app; by left)) as Bx. apply list_elem_of_split in Hx as (l1 & l2 & ->).
  assert (Hp : (l1 ++ x :: l2) ++ L ≡ₚ x :: (l1 ++ l2) ++ L) by (by rewrite <- Permutation_middle).
  rewrite Hp in B. cbn [apart_all] in B. destruct B as [B _]. rewrite list.Forall_forall in B.
  specialize (B y ltac:(apply elem_of_app; by right)). unfold apart in B. lia.
Qed.

Lemma kept_node F L s x m' : heap_ok F L s -> x ∈ nodes F -> in_header x.1 (h_mem s) m' -> kept L (h_mem s) m'.
Proof.
  intros Hk Hx Hi b Hb. apply Hi. destruct Hb as [(y & Hy & Hb)|Hb]; [pose proof (free_live _ _ _ x y Hk Hx Hy); lia|].
  apply elem_of_cons in Hx as [->|Hx]; [cbn; lia|]. pose proof (heap_free _ _ _ Hk) as Hf. rewrite list.Forall_forall in Hf. specialize (Hf x Hx). lia.
Qed.

(** ** free(): the search *)

Definition stops (bp p q : Z) : bool := (p <? bp) && (bp <? q) || (q <=? p) && ((p <? bp) || (bp <? q)).

Lemma free_body_eq bp p s : free_body bp p s = Ok (if stops bp p (hptr (h_mem s) p) then inr p else inl (hptr (h_mem s) p)) s.
Proof. unfold free_body, ptr, stops. run_unfold. destruct (_ && _); [done|]. cbn [orb]. by destruct (_ && _). Qed.

Lemma free_skip bp s z fuel d : seg (h_mem s) d z -> (forall d1 x d2, d = d1 ++ x :: d2 -> stops bp x.1 (hd_addr d2 z) = false) ->
  loop (length d + fuel) (free_body bp) (hd_addr d z) s = loop fuel (free_body bp) z s.
Proof.
  induction d as [|x d IH]; intros Hs Hn; [done|]. cbn [seg] in Hs. destruct Hs as (_ & E & Hs). cbn [length Nat.add hd_addr]. rewrite loop_S. unfold bind.
  rewrite free_body_eq, E, (Hn [] x d eq_refl). apply IH; [done|]. intros d1 y d2 ->. by apply (Hn (x :: d1)).
Qed.

(** [p] is the last block before [bp]. *)
Record place (bp : Z) l1 (p : block) l2 F : Prop := {
  pl_split : nodes F = l1 ++ p :: l2;
  pl_below : forall x, x ∈ l1 ++ [p] -> x.1 < bp;
  pl_above : forall x, x ∈ l2 -> bp < x.1
}.

Lemma place_ex bp F : StronglySorted before (nodes F) -> Forall (fun z => 0 <= z.2) F -> base < bp -> Forall (fun x => x.1 <> bp) F -> exists l1 p l2, place bp l1 p l2 F.
Proof.
  intros Hs Hz Hb Hne. revert Hs Hz Hne. induction F as [|x F IH] using rev_ind; intros Hs Hz Hne.
  { exists [], (base, 0), []. split; [done| |by intros x Hx%elem_of_nil]. intros x Hx. apply list_elem_of_singleton in Hx as ->. done. }
  change (nodes (F ++ [x])) with (nodes F ++ [x]) in Hs. apply StronglySorted_app in Hs as (H1 & Hs & _). apply Forall_app in Hz as [Hz _]. apply Forall_app in Hne as [Hne Hx].
  apply list.Forall_cons in Hx as [Hx _]. cbn beta in Hx. destruct (Z.lt_trichotomy x.1 bp) as [Hlt|[Heq|Hgt]]; [|by destruct (Hx Heq)|].
  - exists (nodes F), x, []. split; [done| |by intros y Hy%elem_of_nil]. intros y Hy. apply elem_of_app in Hy as [Hy|Hy%list_elem_of_singleton]; [|by subst].
    specialize (H1 y x Hy ltac:(by apply list_elem_of_singleton)). unfold before in H1. apply elem_of_cons in Hy as [->|Hy]; [cbn in *; lia|]. rewrite list.Forall_forall in Hz. specialize (Hz y Hy). lia.
  - destruct (IH Hs Hz Hne) as (l1 & p & l2 & [E A B]). exists l1, p, (l2 ++ [x]). split; [|done|].
    + change (nodes (F ++ [x])) with (nodes F ++ [x]). by rewrite E, <- app_assoc.
    + intros y Hy. apply elem_of_app in Hy as [Hy|Hy%list_elem_of_singleton]; [by apply B|by subst].
Qed.

Lemma stops_only bp l1 p l2 F u z v : StronglySorted before (nodes F) -> Forall (fun y => 0 <= y.2) F -> place bp l1 p l2 F -> base < bp ->
  nodes F = u ++ z :: v -> z <> p -> stops bp z.1 (hd_addr v base) = false.
Proof.
  intros Hs Hz [E A B] Hb E' Hne. unfold stops. rewrite E in E'.
  assert (Hlt : forall w1 y1 w2 y2 w3, nodes F = w1 ++ y1 :: w2 ++ y2 :: w3 -> y1.1 < y2.1).
  { intros w1 y1 w2 y2 w3 Ew. assert (Hy1 : y1 ∈ nodes F) by (rewrite Ew; apply elem_of_app; right; apply elem_of_cons; by left).
    rewrite Ew in Hs. apply StronglySorted_app in Hs as (_ & _ & Hs). apply StronglySorted_cons in Hs as [Hs _]. rewrite list.Forall_forall in Hs.
    specialize (Hs y2 ltac:(apply elem_of_app; right; apply elem_of_cons; by left)). unfold before in Hs.
    apply elem_of_cons in Hy1 as [->|Hy1]; [cbn in *; lia|]. rewrite list.Forall_forall in Hz. specialize (Hz y1 Hy1). lia. }
  apply app_eq_app in E' as (w & [[-> Ew]|[-> Ew]]).
  - destruct w as [|y w]; [by inversion Ew|]. injection Ew as <- ->.
    assert (Hq : exists q r, w ++ p :: l2 = q :: r /\ q.1 < bp).
    { destruct w as [|q w]; [exists p, l2|exists q, (w ++ p :: l2)]; (split; [done|]); apply A; [|]; rewrite !elem_of_app, !elem_of_cons; tauto. }
    destruct Hq as (q & r & Eq & Hq). rewrite Eq. cbn [hd_addr].
    assert (z.1 < q.1) by (apply (Hlt u z [] q r); by rewrite E, <- app_assoc, <- app_comm_cons, Eq).
    rewrite (proj2 (Z.ltb_ge bp q.1)), (proj2 (Z.leb_gt _ _)) by lia. by rewrite andb_false_r.
  - (* z is p or above *)
    destruct w as [|y w]; [by inversion Ew|]. injection Ew as <- ->.
    assert (Hzb : bp < z.1) by (apply B; apply elem_of_app; right; apply elem_of_cons; by left).
    rewrite (proj2 (Z.ltb_ge _ _)) by lia. cbn [andb orb]. destruct v as [|y v]; cbn [hd_addr].
    + rewrite (proj2 (Z.ltb_ge bp base)) by lia. by rewrite andb_false_r.
    + rewrite (proj2 (Z.leb_gt _ _)); [done|]. apply (Hlt (l1 ++ p :: w) z [] y v). by rewrite E, <- app_assoc.
Qed.

Lemma stops_at bp l1 p l2 F : place bp l1 p l2 F -> base < bp -> StronglySorted before (nodes F) -> stops bp p.1 (hd_addr l2 base) = true.
Proof.
  intros [E A B] Hb Hs. assert (Hp : p.1 < bp) by (apply A; rewrite elem_of_app, list_elem_of_singleton; tauto).
  unfold stops. rewrite (proj2 (Z.ltb_lt _ _)) by lia. destruct l2 as [|q l2]; cbn [hd_addr andb orb].
  - apply orb_true_iff. right. rewrite andb_true_r. apply Z.leb_le. destruct l1 as [|y l1]; [by injection E as <- _|].
    injection E as <- ->. apply StronglySorted_cons in Hs as [Hs _]. rewrite list.Forall_forall in Hs. specialize (Hs p ltac:(apply elem_of_app; right; by apply list_elem_of_singleton)).
    unfold before in Hs. cbn in Hs. lia.
  - rewrite (proj2 (Z.ltb_lt _ _)); [done|]. apply B. apply elem_of_cons. by left.
Qed.

Lemma nodes_nodup F : StronglySorted before (nodes F) -> Forall (fun y => 0 <= y.2) F -> NoDup (nodes F).
Proof.
  intros Hs Hz. assert (Hz' : Forall (fun y => 0 <= y.2) (nodes F)) by (apply list.Forall_cons; split; [cbn; lia|done]). revert Hs Hz'. generalize (nodes F). clear.
  induction l as [|x l IH]; [constructor|]. intros Hs Hz. apply StronglySorted_cons in Hs as [Hx Hs]. apply list.Forall_cons in Hz as [Hx2 Hz].
  apply list.NoDup_cons. split; [|by apply IH]. intros Hin. rewrite list.Forall_forall in Hx. specialize (Hx x Hin). unfold before in Hx. lia.
Qed.

Lemma free_search F L s bp l1 p l2 fuel : heap_ok F L s -> place bp l1 p l2 F -> base < bp -> (length (nodes F) < fuel)%nat ->
  loop fuel (free_body bp) (h_freep s) s = Ok p.1 s.
Proof.
  intros Hk Hp Hb Hf. pose proof (heap_free _ _ _ Hk) as Hz. assert (Hz' : Forall (fun y => 0 <= y.2) F) by (eapply list.Forall_impl; [exact Hz|]; cbn; lia).
  pose proof (hk_sorted _ _ _ Hk) as Hs. pose proof (nodes_nodup F Hs Hz') as Hnd. pose proof (hk_ring _ _ _ Hk) as Hr.
  assert (Hat : forall f, loop (Datatypes.S f) (free_body bp) p.1 s = Ok p.1 s).
  { intros f. rewrite loop_S. unfold bind. rewrite free_body_eq. rewrite (pl_split _ _ _ _ _ Hp) in Hr. apply seg_at in Hr as [_ ->]. by rewrite (stops_at bp l1 p l2 F). }
  pose proof (hk_freep _ _ _ Hk) as Hfp. apply list_elem_of_fmap in Hfp as (fz & -> & Hfz). apply list_elem_of_split in Hfz as (a & b & E).
  assert (Hin : p ∈ (fz :: b) ++ a) by (rewrite elem_of_app; assert (p ∈ a ++ fz :: b) by (rewrite <- E, (pl_split _ _ _ _ _ Hp), elem_of_app, elem_of_cons; tauto); rewrite elem_of_app in *; tauto).
  assert (Hno : forall u z v, nodes F = u ++ z :: v -> z <> p -> stops bp z.1 (hd_addr v base) = false) by (intros; by eapply (stops_only bp l1 p l2 F)).
  destruct (decide (p ∈ fz :: b)) as [Hd|Hd].
  - apply list_elem_of_split in Hd as (d1 & d2 & Ed). rewrite Ed in E. assert (Ehd : fz.1 = hd_addr d1 p.1) by (destruct d1; by inversion Ed). rewrite Ehd.
    replace fuel with (length d1 + (fuel - length d1))%nat by (apply (f_equal length) in E; rewrite !length_app in E; cbn in *; lia). rewrite free_skip.
    + destruct (fuel - length d1)%nat eqn:Ef; [apply (f_equal length) in E; rewrite !length_app in E; cbn in *; lia|]. apply Hat.
    + rewrite E, seg_app, seg_app in Hr. tauto.
    + intros e1 x e2 ->. assert (Hne : x <> p).
      { rewrite E in Hnd. apply list.NoDup_app in Hnd as (_ & _ & Hnd). apply list.NoDup_app in Hnd as (_ & Hnd & _). intros ->. apply (Hnd p); rewrite ?elem_of_app, elem_of_cons; tauto. }
      pose proof (Hno (a ++ e1) x (e2 ++ p :: d2)) as Hx. rewrite hd_app in Hx. apply Hx; [|done]. by rewrite E, <- !app_assoc.
  - assert (Ha : p ∈ a) by (apply elem_of_app in Hin; tauto). apply list_elem_of_split in Ha as (a1 & a2 & ->).
    assert (Ehd : base = hd_addr a1 p.1) by (destruct a1; by injection E as <- _). rewrite <- app_assoc in E. cbn [app] in E.
    assert (Hlen : (length (fz :: b) + length a1 + 1 < fuel)%nat) by (apply (f_equal length) in E; rewrite !length_app in E; cbn in *; rewrite length_app in E; cbn in *; lia).
    replace fuel with (length (fz :: b) + (length a1 + Datatypes.S (fuel - length (fz :: b) - length a1 - 1)))%nat by lia.
    change fz.1 with (hd_addr (fz :: b) base). rewrite free_skip.
    + rewrite Ehd at 1. rewrite free_skip; [apply Hat| |].
      * rewrite E, seg_app in Hr. destruct Hr as [Hr _]. by cbn [hd_addr] in Hr.
      * intros e1 x e2 ->. assert (Hne : x <> p).
        { rewrite E in Hnd. apply list.NoDup_app in Hnd as (_ & Hnd & _). intros ->. apply (Hnd p); rewrite ?elem_of_app, elem_of_cons; tauto. }
        pose proof (Hno e1 x (e2 ++ p :: a2 ++ fz :: b)) as Hx. rewrite hd_app in Hx. apply Hx; [|done]. by rewrite E, <- !app_assoc.
    + rewrite E in Hr. rewrite (app_comm_cons _ _ p), app_assoc, seg_app in Hr. tauto.
    + intros e1 x e2 Ex. assert (Hne : x <> p) by (intros ->; apply Hd; rewrite Ex, elem_of_app, elem_of_cons; tauto).
      apply (Hno ((a1 ++ p :: a2) ++ e1)); [|done]. rewrite E, <- !app_assoc. cbn [app]. by rewrite Ex.
Qed.

(** ** free(): the block joins its neighbours *)

Definition join_next (bp p : Z) m : mem :=
  let q := hptr m p in
  if hdr_add bp (hsize m bp) =? q then
    let m1 := put_size bp (u32 (hsize m bp + hsize m q)) m in
    put_ptr bp (hptr m1 (hptr m1 p)) m1
  else put_ptr bp q m.

Definition join_prev (bp p : Z) m : mem :=
  if hdr_add p (hsize m p) =? bp then
    let m1 := put_size p (u32 (hsize m p + hsize m bp)) m in
    put_ptr p (hptr m1 bp) m1
  else put_ptr p bp m.

Lemma free_join_next_eq bp p s : free_join_next bp p s = Ok tt (set_mem (join_next bp p (h_mem s)) s).
Proof. unfold free_join_next, join_next, size, ptr, set_size, set_ptr. run_unfold. by destruct (_ =? _). Qed.

Lemma free_join_prev_eq bp p s : free_join_prev bp p s = Ok tt (set_mem (join_prev bp p (h_mem s)) s).
Proof. unfold free_join_prev, join_prev, size, ptr, set_size, set_ptr. run_unfold. by destruct (_ =? _). Qed.

Lemma hdr_add_small p n : 0 <= p -> 0 <= n < 2 ^ 32 -> p < 2 ^ 37 -> hdr_add p n = p + 16 * n.
Proof. intros. unfold hdr_add, sizeof_Header. rewrite u64_small; lia. Qed.

Definition addr_ok a : Prop := 0 <= a < 2 ^ 37.
(** The headers at [a] and [b] are distinct. *)
Definition far a b : Prop := a + 16 <= b \/ b + 16 <= a.

(** The merge with the block after [bp], when they touch. *)
Lemma join_next_spec m a n p l2 : addr_ok a -> addr_ok p -> Forall (fun x => addr_ok x.1 /\ 0 <= x.2 /\ far a x.1) l2 -> far a p -> addr_ok base ->
  hsize m a = n -> hptr m p = hd_addr l2 base -> seg m l2 base -> 0 <= n -> n + units l2 < 2 ^ 32 -> a + 16 * n <> base ->
  exists n1 l2', in_header a m (join_next a p m) /\ hsize (join_next a p m) a = n1 /\ hptr (join_next a p m) a = hd_addr l2' base /\
    (n1 = n /\ l2' = l2 /\ a + 16 * n <> hd_addr l2 base \/ exists q, l2 = q :: l2' /\ n1 = n + q.2 /\ a + 16 * n = q.1).
Proof.
  intros Ha Hp Hl2 Hfar Hba Hn Hq Hs Hn0 Hu Hnb. unfold join_next. rewrite Hq, Hn.
  assert (Hun : 0 <= units l2) by (clear - Hl2; induction Hl2 as [|x l Hx Hl IH]; cbn; [lia|]; change (foldr _ 0 l) with (units l); lia).
  assert (Hhd : addr_ok (hd_addr l2 base)) by (destruct Hl2; [done|tauto]). unfold addr_ok in *. rewrite hdr_add_small by lia.
  destruct (Z.eqb_spec (a + 16 * n) (hd_addr l2 base)) as [E|E].
  - destruct l2 as [|q l2]; [done|]. cbn [hd_addr] in *. cbn [seg] in Hs. destruct Hs as (Hsq & Hpq & Hs). apply list.Forall_cons in Hl2 as [(Hqa & Hq2 & Hqf) Hl2].
    cbn in Hu, Hun. change (foldr _ 0 l2) with (units l2) in *.
    assert (Hun2 : 0 <= units l2) by (clear - Hl2; induction Hl2 as [|x l Hx Hl IH]; cbn; [lia|]; change (foldr _ 0 l) with (units l); lia).
    rewrite Hsq, u32_small by lia. set (m1 := put_size a (n + q.2) m). assert (Hi : in_header a m m1) by apply put_size_in.
    assert (Ep : hptr m1 p = q.1) by (rewrite (hptr_ext m); [done|]; intros b Hb; apply Hi; unfold far in *; lia).
    assert (Eq : hptr m1 q.1 = hd_addr l2 base) by (rewrite (hptr_ext m); [done|]; intros b Hb; apply Hi; unfold far in *; lia).
    rewrite Ep, Eq. exists (n + q.2), l2. split; [by eapply in_header_trans; [exact Hi|apply put_ptr_in]|]. split; [|split; [|right; by exists q]].
    + rewrite hsize_put_ptr. apply hsize_put. lia.
    + apply hptr_put. destruct Hl2 as [|y l2 (Hy & _)]; cbn [hd_addr]; unfold addr_ok in *; lia.
  - exists n, l2. split; [apply put_ptr_in|]. split; [by rewrite hsize_put_ptr|]. split; [|by left]. apply hptr_put. lia.
Qed.

(** The merge with the block before it. *)
Lemma join_prev_spec m a n1 p nx : addr_ok a -> addr_ok p.1 -> addr_ok nx -> far a p.1 -> hsize m p.1 = p.2 -> hsize m a = n1 -> hptr m a = nx ->
  0 <= p.2 -> 0 <= n1 -> p.2 + n1 < 2 ^ 32 ->
  in_header p.1 m (join_prev a p.1 m) /\
  (p.1 + 16 * p.2 <> a /\ hsize (join_prev a p.1 m) p.1 = p.2 /\ hptr (join_prev a p.1 m) p.1 = a \/
   p.1 + 16 * p.2 = a /\ hsize (join_prev a p.1 m) p.1 = p.2 + n1 /\ hptr (join_prev a p.1 m) p.1 = nx).
Proof.
  intros Ha Hp Hnx Hfar Hsp Hsa Hpa H2 Hn1 Hu. unfold join_prev. rewrite Hsp, Hsa. unfold addr_ok in *. rewrite hdr_add_small by lia.
  destruct (Z.eqb_spec (p.1 + 16 * p.2) a) as [E|E].
  - rewrite u32_small by lia. set (m1 := put_size p.1 (p.2 + n1) m). assert (Hi : in_header p.1 m m1) by apply put_size_in.
    assert (Ep : hptr m1 a = nx) by (rewrite (hptr_ext m); [done|]; intros b Hb; apply Hi; unfold far in *; lia).
    rewrite Ep. split; [by eapply in_header_trans; [exact Hi|apply put_ptr_in]|]. right. split; [done|]. rewrite hsize_put_ptr. split; [apply hsize_put|apply hptr_put]; lia.
  - split; [apply put_ptr_in|]. left. split; [done|]. rewrite hsize_put_ptr. split; [done|]. apply hptr_put. lia.
Qed.

(** The list after free(): [p] keeps its place, joined with the new block or
    followed by it. *)
Definition joined (p : block) a n1 l2' (r : list block) : Prop :=
  p.1 + 16 * p.2 <> a /\ r = p :: (a, n1) :: l2' \/ p.1 + 16 * p.2 = a /\ r = (p.1, p.2 + n1) :: l2'.

Section Free.
Context (F la lb : list block) (a n : Z) (s : HP) (l1 : list block) (p : block) (l2 : list block).
Hypotheses (Hk : heap_ok F (la ++ (a, n) :: lb) s) (Hp : place a l1 p l2 F).
Local Notation m := (h_mem s).

Lemma fr_tiles : tiles lo (brk (h_sys s)) ((a, n) :: F ++ la ++ lb).
Proof.
  pose proof (hk_tiles _ _ _ Hk) as Ht. assert (E : F ++ la ++ (a, n) :: lb ≡ₚ (a, n) :: F ++ la ++ lb) by (by rewrite !(app_assoc F), <- Permutation_middle). by rewrite E in Ht.
Qed.

Lemma fr_block : 1 <= n /\ lo <= a /\ a + 16 * n <= brk (h_sys s).
Proof. pose proof fr_tiles as [A _ _]. apply list.Forall_cons in A as [A _]. cbn in A. tauto. Qed.

Lemma fr_live : (a, n) ∈ la ++ (a, n) :: lb.
Proof. rewrite elem_of_app, elem_of_cons. tauto. Qed.

Lemma fr_far x : x ∈ nodes F -> far a x.1 /\ addr_ok x.1 /\ 0 <= x.2.
Proof.
  intros Hx. pose proof (free_live _ _ _ x (a, n) Hk Hx fr_live) as Hl. pose proof (node_bounds _ _ _ x Hk Hx) as Hb. pose proof fr_block. pose proof (brk_bound (h_sys s)).
  cbn in Hl. unfold far, addr_ok. lia.
Qed.

Lemma fr_in x : x ∈ l1 ++ p :: l2 -> x ∈ nodes F.
Proof. by rewrite (pl_split _ _ _ _ _ Hp). Qed.

Lemma fr_units : n + units F < 2 ^ 32 /\ units (nodes F) = units F /\ forall l, Forall (fun x => 0 <= x.2) l -> 0 <= units l.
Proof.
  assert (Hu : forall l, Forall (fun x => 0 <= x.2) l -> 0 <= units l) by (intros l Hl; induction Hl as [|x l Hx Hl IH]; cbn; [lia|]; change (foldr _ 0 l) with (units l); lia).
  pose proof fr_tiles as [A _ C]. pose proof (brk_bound (h_sys s)). split; [|done].
  assert (Ha : forall l l', units (l ++ l') = units l + units l') by (intros l l'; induction l as [|x l IH]; cbn; [done|]; change (foldr _ 0 (l ++ l')) with (units (l ++ l')); change (foldr _ 0 l) with (units l); lia).
  assert (0 <= units (la ++ lb)).
  { apply Hu. apply list.Forall_cons in A as [_ A]. apply Forall_app in A as [_ A]. eapply list.Forall_impl; [exact A|]. cbn. lia. }
  cbn in C. change (foldr _ 0 (F ++ la ++ lb)) with (units (F ++ la ++ lb)) in C. rewrite Ha in C. lia.
Qed.

Lemma units_app l l' : units (l ++ l') = units l + units l'.
Proof. induction l as [|x l IH]; cbn; [done|]. change (foldr _ 0 (l ++ l')) with (units (l ++ l')). change (foldr _ 0 l) with (units l). lia. Qed.

Lemma fr_apart x : x ∈ nodes F -> x.1 + 16 * x.2 <= a \/ a + 16 * n <= x.1.
Proof.
  intros Hx. pose proof fr_block. apply elem_of_cons in Hx as [->|Hx]; [cbn; lia|].
  pose proof fr_tiles as [_ T _]. cbn [apart_all] in T. destruct T as [T _]. rewrite list.Forall_forall in T. specialize (T x ltac:(rewrite elem_of_app; tauto)). unfold apart in T. cbn in T. lia.
Qed.

Lemma fr_around : p.1 + 16 * p.2 <= a /\ (forall y, y ∈ l2 -> a + 16 * n <= y.1 /\ 0 <= y.2).
Proof.
  destruct Hp as [E A B]. pose proof fr_block. split.
  - pose proof (A p ltac:(rewrite elem_of_app, list_elem_of_singleton; tauto)). destruct (fr_apart p); [|done|lia]. rewrite E, elem_of_app, elem_of_cons. tauto.
  - intros y Hy. assert (Hyn : y ∈ nodes F) by (rewrite E, elem_of_app, elem_of_cons; tauto). pose proof (B y Hy). destruct (fr_far y Hyn) as (_ & _ & ?). destruct (fr_apart y Hyn); lia.
Qed.

(** The order of the list with the new block. *)
Lemma fr_sorted n1 l2' r :
  (n1 = n /\ l2' = l2 /\ a + 16 * n <> hd_addr l2 base \/ exists q, l2 = q :: l2' /\ n1 = n + q.2 /\ a + 16 * n = q.1) ->
  joined p a n1 l2' r -> StronglySorted before (l1 ++ r).
Proof.
  intros Hn Hj. pose proof (hk_sorted _ _ _ Hk) as Hs. rewrite (pl_split _ _ _ _ _ Hp) in Hs. apply StronglySorted_app in Hs as (H1 & Hs1 & Hs). apply StronglySorted_cons in Hs as [H2 Hs2].
  rewrite list.Forall_forall in H2. pose proof fr_block as Hab. destruct fr_around as [Hpe Haft].
  assert (Hpa : p.1 < a) by (apply (pl_below _ _ _ _ _ Hp); rewrite elem_of_app, list_elem_of_singleton; tauto). clear Hp Hk.
  assert (Hy : forall y, y ∈ l2' -> a + 16 * n1 < y.1).
  { intros y Hy. destruct Hn as [(-> & -> & Hne)|(q & -> & -> & Hq)].
    - pose proof (Haft y Hy). destruct l2 as [|q l2q]; [by apply elem_of_nil in Hy|]. cbn [hd_addr] in Hne. apply elem_of_cons in Hy as [->|Hy]; [lia|].
      apply StronglySorted_cons in Hs2 as [Hs2 _]. rewrite list.Forall_forall in Hs2. specialize (Hs2 y Hy). unfold before in Hs2. pose proof (Haft q ltac:(apply elem_of_cons; by left)). lia.
    - apply StronglySorted_cons in Hs2 as [Hs2 _]. rewrite list.Forall_forall in Hs2. specialize (Hs2 y Hy). unfold before in Hs2. lia. }
  assert (Hsub : forall y, y ∈ l2' -> y ∈ l2) by (intros y Hy'; destruct Hn as [(_ & -> & _)|(q & -> & _)]; [done|apply elem_of_cons; by right]).
  assert (Hs2' : StronglySorted before l2') by (destruct Hn as [(_ & -> & _)|(q & -> & _)]; [done|by apply StronglySorted_cons in Hs2 as [_ ?]]).
  apply StronglySorted_app. destruct Hj as [[Hne ->]|[He ->]].
  - split; [|split; [done|]].
    + intros x y Hx Hyr. rewrite !elem_of_cons in Hyr. destruct Hyr as [->|[->|Hyr]]; [apply H1; [done|apply elem_of_cons; by left]| |apply H1; [done|apply elem_of_cons; right; auto]].
      specialize (H1 x p Hx ltac:(apply elem_of_cons; by left)). unfold before in *. cbn. lia.
    + rewrite !StronglySorted_cons, list.Forall_cons, !list.Forall_forall. unfold before. cbn [fst snd]. split; [split; [lia|]; intros y Hyl; apply H2; auto|]. split; [|done]. auto.
  - split; [|split; [done|]].
    + intros x y Hx Hyr. rewrite elem_of_cons in Hyr. destruct Hyr as [->|Hyr]; [|apply H1; [done|apply elem_of_cons; right; auto]].
      specialize (H1 x p Hx ltac:(apply elem_of_cons; by left)). unfold before in *. cbn. lia.
    + rewrite StronglySorted_cons, list.Forall_forall. unfold before. cbn [fst snd]. split; [|done]. intros y Hyl. specialize (Hy y Hyl). lia.
Qed.

Definition after_join (n1 : Z) (l2' : list block) : Prop :=
  n1 = n /\ l2' = l2 /\ a + 16 * n <> hd_addr l2 base \/ exists q, l2 = q :: l2' /\ n1 = n + q.2 /\ a + 16 * n = q.1.

Lemma fr_tiles_next n1 l2' Y (LL : list block) hi : after_join n1 l2' -> tiles lo hi ((a, n) :: Y ++ l2 ++ LL) -> tiles lo hi ((a, n1) :: Y ++ l2' ++ LL).
Proof.
  clear Hp Hk. intros [(-> & -> & _)|(q & -> & -> & Hq)] Ht; [done|].
  assert (E : (a, n) :: Y ++ (q :: l2') ++ LL ≡ₚ (a, n) :: q :: Y ++ l2' ++ LL) by (cbn [app]; by rewrite <- Permutation_middle).
  rewrite E in Ht. by apply (tiles_merge lo hi (a, n) q).
Qed.

Lemma fr_tiles_new n1 l2' r : after_join n1 l2' -> joined p a n1 l2' r ->
  exists F', nodes F' = l1 ++ r /\ tiles lo (brk (h_sys s)) (F' ++ la ++ lb).
Proof.
  intros Hn Hj. pose proof fr_tiles as Ht. pose proof fr_block as Hab. pose proof (pl_split _ _ _ _ _ Hp) as E. destruct l1 as [|x X].
  - injection E as <- EF. exists ((a, n1) :: l2'). destruct Hj as [[_ ->]|[He _]]; [|cbn in He; lia]. split; [done|].
    rewrite EF in Ht. by apply (fr_tiles_next n1 l2' []).
  - injection E as <- EF. exists (X ++ r). split; [done|].
    assert (E1 : (a, n) :: F ++ la ++ lb = (a, n) :: (X ++ [p]) ++ l2 ++ la ++ lb) by (by rewrite EF, <- !app_assoc). rewrite E1 in Ht.
    apply (fr_tiles_next n1 l2') in Ht; [|done]. destruct Hj as [[_ ->]|[He ->]].
    + assert (E2 : (X ++ p :: (a, n1) :: l2') ++ la ++ lb ≡ₚ (a, n1) :: (X ++ [p]) ++ l2' ++ la ++ lb).
      { rewrite <- !app_assoc. cbn [app]. by rewrite (Permutation_swap (a, n1) p), <- Permutation_middle. }
      by rewrite E2.
    + assert (E2 : (a, n1) :: (X ++ [p]) ++ l2' ++ la ++ lb ≡ₚ p :: (a, n1) :: X ++ l2' ++ la ++ lb).
      { rewrite <- !app_assoc. cbn [app]. by rewrite <- Permutation_middle, Permutation_swap. }
      rewrite E2 in Ht. apply tiles_merge in Ht; [|done]. cbn [snd] in Ht.
      assert (E3 : (X ++ (p.1, p.2 + n1) :: l2') ++ la ++ lb ≡ₚ (p.1, p.2 + n1) :: X ++ l2' ++ la ++ lb) by (rewrite <- app_assoc; cbn [app]; by rewrite <- Permutation_middle).
      by rewrite E3.
Qed.

Lemma fr_kept m1 : in_header a m m1 -> kept (la ++ lb) m m1.
Proof.
  intros Hi b Hb. apply Hi. pose proof fr_block. pose proof fr_tiles as [_ T _]. cbn [apart_all] in T. destruct T as [T _]. rewrite list.Forall_forall in T.
  destruct Hb as [(x & Hx & Hb)|Hb]; [|lia]. specialize (T x ltac:(rewrite elem_of_app; tauto)). unfold apart in T. cbn in T. lia.
Qed.

Lemma fr_main : let m2 := join_prev a p.1 (join_next a p.1 m) in
  exists n1 l2' r, after_join n1 l2' /\ joined p a n1 l2' r /\ seg m2 (l1 ++ r) base /\ kept (la ++ lb) m m2.
Proof.
  set (m1 := join_next a p.1 m). cbn zeta. pose proof fr_block as Hab. pose proof (brk_bound (h_sys s)) as Hbb. pose proof (pl_split _ _ _ _ _ Hp) as E.
  pose proof (hk_ring _ _ _ Hk) as Hr. rewrite E, seg_app in Hr. destruct Hr as [Hr1 Hr2]. cbn [seg hd_addr] in Hr1, Hr2. destruct Hr2 as (Esp & Epp & Hr2).
  assert (Hpn : p ∈ nodes F) by (rewrite E, elem_of_app, elem_of_cons; tauto). destruct (fr_far p Hpn) as (Fp & Ap & Np).
  destruct fr_units as (Hu & Hun & Hupos). rewrite E, units_app in Hun. cbn in Hun. change (foldr _ 0 l2) with (units l2) in Hun.
  assert (Hall : forall x, x ∈ l1 ++ p :: l2 -> far a x.1 /\ addr_ok x.1 /\ 0 <= x.2) by (intros x Hx; apply fr_far; by rewrite E).
  assert (Hu1 : 0 <= units l1) by (apply Hupos, list.Forall_forall; intros x Hx; apply Hall; rewrite elem_of_app; tauto).
  assert (Hu2 : 0 <= units l2) by (apply Hupos, list.Forall_forall; intros x Hx; apply Hall; rewrite elem_of_app, elem_of_cons; tauto).
  assert (Hall2 : Forall (fun x => addr_ok x.1 /\ 0 <= x.2 /\ far a x.1) l2) by (apply list.Forall_forall; intros x Hx; pose proof (Hall x ltac:(rewrite elem_of_app, elem_of_cons; tauto)); tauto).
  assert (Esa : hsize m a = n) by (pose proof (hk_live _ _ _ Hk) as Hv; rewrite list.Forall_forall in Hv; exact (Hv (a, n) fr_live)).
  destruct (join_next_spec m a n p.1 l2) as (n1 & l2' & J1 & J2 & J3 & J4); [unfold addr_ok; lia|done|done|done|unfold addr_ok; lia|done|done|done|lia|lia|lia|]. fold m1 in J1, J2, J3.
  assert (Hn1 : 0 <= n1 /\ p.2 + n1 < 2 ^ 32).
  { destruct J4 as [(-> & _)|(q & -> & -> & _)]; [lia|]. cbn in Hun, Hu2. apply list.Forall_cons in Hall2 as [Hq Hall2].
    change (foldr _ 0 l2') with (units l2') in *. assert (0 <= units l2') by (apply Hupos; eapply list.Forall_impl; [exact Hall2|]; cbn; tauto). lia. }
  assert (Hnx : addr_ok (hd_addr l2' base)).
  { destruct l2' as [|y l2']; [unfold addr_ok; cbn; lia|]. cbn [hd_addr]. apply Hall. rewrite elem_of_app, elem_of_cons. right. right. destruct J4 as [(_ & <- & _)|(q & -> & _)]; rewrite !elem_of_cons; tauto. }
  assert (Esp1 : hsize m1 p.1 = p.2) by (rewrite (hsize_ext m); [done|]; intros b Hb; apply J1; unfold far in *; lia).
  destruct (join_prev_spec m1 a n1 p (hd_addr l2' base)) as [K1 K2]; [unfold addr_ok; lia|done|done|done|done|done|done|done|tauto|tauto|].
  set (m2 := join_prev a p.1 m1) in *.
  assert (Hb : forall x b, x ∈ l1 ++ p :: l2 -> x <> p -> x.1 <= b < x.1 + 16 -> load8 m2 b = load8 m b).
  { intros x b Hx Hxp Hb. assert (x.1 + 16 <= p.1 \/ p.1 + 16 <= x.1) by (apply (heap_apart F (la ++ (a, n) :: lb) s); [done|by rewrite E|done|done]).
    destruct (Hall x Hx) as (Fx & _). rewrite K1 by lia. apply J1. unfold far in Fx. lia. }
  assert (Hnd : NoDup (l1 ++ p :: l2)).
  { rewrite <- E. apply nodes_nodup; [by destruct Hk|]. pose proof (heap_free _ _ _ Hk) as Hz. eapply list.Forall_impl; [exact Hz|]. cbn. lia. }
  apply list.NoDup_app in Hnd as (_ & Hnd1 & Hnd2). apply list.NoDup_cons in Hnd2 as [Hnd2 _].
  assert (Hs1 : seg m2 l1 p.1).
  { eapply seg_ext; [|exact Hr1]. intros x b Hx. apply Hb; [rewrite elem_of_app; tauto|]. intros ->. apply (Hnd1 p Hx). apply elem_of_cons. by left. }
  assert (Hs2 : seg m2 l2' base).
  { eapply (seg_ext m).
    - intros x b Hx. assert (x ∈ l2) by (destruct J4 as [(_ & <- & _)|(q & -> & _)]; rewrite ?elem_of_cons; tauto). apply Hb; [rewrite elem_of_app, elem_of_cons; tauto|]. by intros ->.
    - destruct J4 as [(_ & -> & _)|(q & -> & _)]; [done|]. cbn [seg] in Hr2. tauto. }
  assert (Esa2 : hsize m2 a = n1 /\ hptr m2 a = hd_addr l2' base) by (rewrite (hsize_ext m1), (hptr_ext m1) by (intros b Hb'; apply K1; unfold far in *; lia); done).
  assert (Hkp : kept (la ++ lb) m m2).
  { transitivity m1; [by apply fr_kept|]. intros b Hb'. apply K1. destruct Hb' as [(x & Hx & Hb')|Hb'].
    - assert (Hx' : x ∈ la ++ (a, n) :: lb) by (rewrite elem_of_app in *; rewrite elem_of_cons; tauto). pose proof (free_live _ _ _ p x Hk Hpn Hx'). lia.
    - apply elem_of_cons in Hpn as [->|Hpn]; [cbn in *; lia|]. pose proof (heap_free _ _ _ Hk) as Hz. rewrite list.Forall_forall in Hz. specialize (Hz p Hpn). lia. }
  destruct K2 as [(Hne & Es2 & Ep2)|(He & Es2 & Ep2)].
  - exists n1, l2', (p :: (a, n1) :: l2'). split; [done|]. split; [by left|]. split; [|done]. rewrite seg_app. cbn [seg hd_addr fst snd]. tauto.
  - exists n1, l2', ((p.1, p.2 + n1) :: l2'). split; [done|]. split; [by right|]. split; [|done]. rewrite seg_app. cbn [seg hd_addr fst snd]. tauto.
Qed.

End Free.

Lemma live_headers F L s m' : heap_ok F L s -> kept L (h_mem s) m' -> Forall (fun x => hsize m' x.1 = x.2) L.
Proof.
  intros Hk Hm. pose proof (hk_live _ _ _ Hk) as Hv. pose proof (hk_tiles _ _ _ Hk) as [A _ _]. apply Forall_app in A as [_ A]. rewrite list.Forall_forall in *.
  intros x Hx. specialize (A x Hx). rewrite (hsize_ext (h_mem s)); [by apply Hv|]. intros b Hb. apply Hm. left. exists x. split; [done|lia].
Qed.

Lemma live_less F la x lb s : heap_ok F (la ++ x :: lb) s -> Forall (fun y => hsize (h_mem s) y.1 = y.2) (la ++ lb) .
Proof. intros Hk. pose proof (hk_live _ _ _ Hk) as Hv. apply Forall_app in Hv as [? Hv]. apply list.Forall_cons in Hv as [_ ?]. by apply Forall_app. Qed.

Lemma free_ok F la a n lb s fuel : heap_ok F (la ++ (a, n) :: lb) s -> (length (nodes F) < fuel)%nat ->
  exists F' s', free fuel (a + 16) s = Ok tt s' /\ heap_ok F' (la ++ lb) s' /\ h_sys s' = h_sys s /\ kept (la ++ lb) (h_mem s) (h_mem s') /\
    (length F' <= length F + 1)%nat /\ exists x, x ∈ F' /\ n <= x.2.
Proof.
  intros Hk Hf. pose proof (fr_block F la lb a n s Hk) as Hab. pose proof (brk_bound (h_sys s)) as Hbb. pose proof (heap_free _ _ _ Hk) as Hz.
  destruct (place_ex a F) as (l1 & p & l2 & Hp); [by destruct Hk|eapply list.Forall_impl; [exact Hz|]; cbn; lia|lia| |].
  { apply list.Forall_forall. intros x Hx E. destruct (fr_far F la lb a n s Hk x) as [Hfar _]; [by apply elem_of_cons; right|]. unfold far in Hfar. lia. }
  destruct (fr_main F la lb a n s l1 p l2 Hk Hp) as (n1 & l2' & r & Hn & Hj & Hs & Hm). destruct (fr_tiles_new F la lb a n s l1 p l2 Hk Hp n1 l2' r Hn Hj) as (F' & EF & Ht).
  pose proof (fr_sorted F la lb a n s l1 p l2 Hk Hp n1 l2' r Hn Hj) as Hso. set (m2 := join_prev a p.1 (join_next a p.1 (h_mem s))) in *.
  exists F', (mkHeap m2 p.1 (h_sys s)). split; [|split; [|split; [done|split; [done|]]]].
  - unfold free, freep, set_freep. replace (hdr_add (a + 16) (-1)) with a by (unfold hdr_add, sizeof_Header; rewrite u64_small; lia). run_unfold.
    rewrite (free_search F _ s a l1 p l2) by (done || lia). rewrite free_join_next_eq, free_join_prev_eq. done.
  - split; cbn [h_mem h_freep h_sys]; [done|by rewrite EF|by rewrite EF| |].
    + rewrite EF, map_app, elem_of_app. right. destruct Hj as [[_ ->]|[_ ->]]; cbn [map fst]; apply elem_of_cons; by left.
    + pose proof (live_less _ _ _ _ _ Hk) as Hv. rewrite list.Forall_forall in *. intros x Hx. rewrite (hsize_ext (h_mem s)); [by apply Hv|].
      intros b Hb. apply Hm. left. exists x. split; [done|]. destruct Ht as [A _ _]. rewrite list.Forall_forall in A. specialize (A x ltac:(rewrite elem_of_app; tauto)). lia.
  - pose proof (f_equal length EF) as El. pose proof (f_equal length (pl_split _ _ _ _ _ Hp)) as El0. rewrite length_app in El, El0. cbn in El, El0.
    assert (length l2' <= length l2)%nat by (destruct Hn as [(_ & -> & _)|(q & -> & _)]; cbn; lia).
    assert (Hpn : 0 <= p.2) by (apply (fr_far F la lb a n s Hk p); rewrite (pl_split _ _ _ _ _ Hp), elem_of_app, elem_of_cons; tauto).
    assert (Hn1 : n <= n1).
    { destruct Hn as [(-> & _)|(q & E2 & -> & _)]; [lia|]. assert (0 <= q.2); [|lia]. apply (fr_far F la lb a n s Hk q). rewrite (pl_split _ _ _ _ _ Hp), E2, elem_of_app, !elem_of_cons. tauto. }
    split; [destruct Hj as [[_ ->]|[_ ->]]; cbn in El; lia|].
    assert (Hin : forall x, x ∈ l1 ++ r -> x.1 <> base -> x ∈ F') by (intros x Hx Hx1; rewrite <- EF in Hx; apply elem_of_cons in Hx as [->|Hx]; [done|done]).
    destruct Hj as [[_ ->]|[He ->]]; [exists (a, n1)|exists (p.1, p.2 + n1)]; cbn [fst snd] in *; (split; [apply Hin; [rewrite elem_of_app, !elem_of_cons; tauto|cbn]|lia]); [lia|].
    intros Eb. assert (Hpn' : p ∈ nodes F) by (rewrite (pl_split _ _ _ _ _ Hp), elem_of_app, elem_of_cons; tauto). apply elem_of_cons in Hpn' as [->|Hpn']; [cbn in *; lia|].
    rewrite list.Forall_forall in Hz. specialize (Hz p Hpn'). lia.
Qed.

(** ** malloc(): taking a block *)

Section Take.
Context (F L : list block) (s : HP) (X : list block) (x : block) (Q l : list block) (y : block) (nu : Z).
Hypotheses (Hk : heap_ok F L s) (EF : F = X ++ x :: Q) (EX : nodes X = l ++ [y]) (Hnu : 1 <= nu <= x.2).

Lemma tk_nodes : nodes F = l ++ y :: x :: Q.
Proof. rewrite EF. change (nodes (X ++ x :: Q)) with (nodes X ++ x :: Q). by rewrite EX, <- app_assoc. Qed.

Lemma tk_perm : F ++ L ≡ₚ x :: (X ++ Q) ++ L.
Proof. rewrite EF. by rewrite <- Permutation_middle. Qed.

Lemma tk_tiles : tiles lo (brk (h_sys s)) (x :: (X ++ Q) ++ L).
Proof. rewrite <- tk_perm. by destruct Hk. Qed.

Lemma tk_block : lo <= x.1 /\ x.1 + 16 * x.2 <= brk (h_sys s) /\ 0 <= x.2 < 2 ^ 32.
Proof.
  pose proof tk_tiles as [A _ _]. apply list.Forall_cons in A as [(A1 & _ & A2 & A3) _]. pose proof (brk_bound (h_sys s)). lia.
Qed.

(** The block is outside of the other headers of the list. *)
Lemma tk_apart z : z ∈ nodes F -> z <> x -> z.1 + 16 <= x.1 \/ x.1 + 16 * x.2 <= z.1.
Proof.
  intros Hz Hne. pose proof (heap_apart F L s z x Hk Hz) as Ha. pose proof tk_block. assert (Hzx : z ∈ nodes (X ++ Q)).
  { revert Hz. rewrite EF. unfold nodes. rewrite !elem_of_cons, !elem_of_app, elem_of_cons. tauto. }
  apply elem_of_cons in Hzx as [->|Hzx]; [cbn; lia|]. pose proof tk_tiles as [_ B _]. cbn [apart_all] in B. destruct B as [B _]. rewrite list.Forall_forall in B.
  specialize (B z ltac:(rewrite elem_of_app; tauto)). unfold apart in B.
  assert (Hxn : x ∈ nodes F) by (rewrite tk_nodes, elem_of_app, !elem_of_cons; tauto). specialize (Ha Hxn Hne).
  pose proof (node_bounds F L s z Hk Hz). lia.
Qed.

Lemma tk_ring : hsize (h_mem s) x.1 = x.2 /\ hptr (h_mem s) x.1 = hd_addr Q base /\ hsize (h_mem s) y.1 = y.2 /\ seg (h_mem s) l y.1 /\ seg (h_mem s) Q base.
Proof. pose proof (hk_ring _ _ _ Hk) as Hr. rewrite tk_nodes, seg_app in Hr. cbn [seg hd_addr] in Hr. tauto. Qed.

Lemma tk_distinct : NoDup (l ++ y :: x :: Q).
Proof.
  rewrite <- tk_nodes. apply nodes_nodup; [by destruct Hk|]. pose proof (heap_free _ _ _ Hk) as Hz. eapply list.Forall_impl; [exact Hz|]. cbn. lia.
Qed.

Lemma tk_sorted : StronglySorted before (l ++ y :: Q) /\ StronglySorted before (l ++ y :: (x.1, x.2 - nu) :: Q).
Proof.
  pose proof (hk_sorted _ _ _ Hk) as Hs. rewrite tk_nodes in Hs. apply StronglySorted_app in Hs as (H1 & H2 & Hs). rewrite !StronglySorted_cons, list.Forall_cons in Hs.
  destruct Hs as ((H3 & H4) & H5 & H6). rewrite list.Forall_forall in H4, H5. setoid_rewrite elem_of_cons in H1. setoid_rewrite elem_of_cons in H1. split.
  - apply StronglySorted_app. rewrite StronglySorted_cons, list.Forall_forall. setoid_rewrite elem_of_cons. split_and!; auto. intros x1 x2 Hx1 [->|Hx2]; auto.
  - apply StronglySorted_app. rewrite !StronglySorted_cons, list.Forall_cons, !list.Forall_forall. setoid_rewrite elem_of_cons. setoid_rewrite elem_of_cons. split_and!; auto.
    + intros x1 x2 Hx1 [->|[->|Hx2]]; auto. unfold before. cbn [fst]. by apply (H1 x1 x Hx1); auto.
    + intros z Hz. specialize (H5 z Hz). unfold before in *. cbn [fst snd]. lia.
Qed.

Lemma tk_in z : z ∈ l ++ y :: x :: Q -> z ∈ nodes F.
Proof. by rewrite tk_nodes. Qed.

Lemma tk_hd : 0 <= hd_addr Q base < 2 ^ 64.
Proof.
  pose proof (brk_bound (h_sys s)) as Hb. pose proof tk_block as Hx. assert (Hq : forall q, q ∈ Q -> 0 <= q.1 < 2 ^ 64).
  { intros q Hq. pose proof (node_bounds F L s q Hk (tk_in q ltac:(rewrite elem_of_app, !elem_of_cons; tauto))). lia. }
  clear Hk EF. destruct Q as [|q Q']; cbn [hd_addr]; [lia|]. apply Hq, elem_of_cons. by left.
Qed.

(** A block of the right size. *)
Lemma take_whole : x.2 = nu -> exists s', malloc_take nu y.1 x.1 s = Ok (x.1 + 16) s' /\ heap_ok (X ++ Q) ((x.1, nu) :: L) s' /\ h_sys s' = h_sys s /\ kept L (h_mem s) (h_mem s').
Proof.
  intros Enu. destruct tk_ring as (R1 & R2 & R3 & R4 & R5). pose proof tk_block as Hb. pose proof (brk_bound (h_sys s)) as Hbb. pose proof tk_distinct as Hnd.
  set (m1 := put_ptr y.1 (hptr (h_mem s) x.1) (h_mem s)). assert (Hi : in_header y.1 (h_mem s) m1) by apply put_ptr_in.
  assert (Hyn : y ∈ nodes F) by (rewrite tk_nodes, elem_of_app, !elem_of_cons; tauto). pose proof (kept_node F L s y m1 Hk Hyn Hi) as Hm.
  apply list.NoDup_app in Hnd as (_ & Hnd1 & Hnd2). rewrite !list.NoDup_cons, !elem_of_cons in Hnd2. setoid_rewrite elem_of_cons in Hnd1.
  assert (Hsame : forall z b, z ∈ l ++ y :: x :: Q -> z <> y -> z.1 <= b < z.1 + 16 -> load8 m1 b = load8 (h_mem s) b).
  { intros z b Hz Hzy Hb'. apply Hi. pose proof (heap_apart F L s z y Hk (tk_in z Hz) Hyn Hzy). lia. }
  exists (mkHeap m1 y.1 (h_sys s)). split; [|split; [|split; [done|done]]].
  - unfold malloc_take, size, ptr, set_ptr, set_freep. run_unfold. rewrite R1, Enu, Z.eqb_refl. cbn [h_freep h_mem h_sys set_mem]. do 2 f_equal. unfold hdr_add, sizeof_Header. rewrite u64_small; lia.
  - assert (EN : nodes (X ++ Q) = l ++ y :: Q) by (change (nodes (X ++ Q)) with (nodes X ++ Q); by rewrite EX, <- app_assoc). split; cbn [h_mem h_freep h_sys].
    + pose proof tk_tiles as Ht. assert (E : (X ++ Q) ++ (x.1, nu) :: L ≡ₚ x :: (X ++ Q) ++ L) by (rewrite <- Permutation_middle, <- Enu; by destruct x). by rewrite E.
    + rewrite EN. apply tk_sorted.
    + rewrite EN, seg_app. cbn [seg hd_addr]. split_and!.
      * eapply seg_ext; [|exact R4]. intros z b Hz. apply Hsame; [rewrite elem_of_app; tauto|]. intros ->. apply (Hnd1 y Hz). tauto.
      * unfold m1. by rewrite hsize_put_ptr.
      * unfold m1. rewrite R2. apply hptr_put. exact tk_hd.
      * eapply seg_ext; [|exact R5]. intros z b Hz. apply Hsame; [rewrite elem_of_app, !elem_of_cons; tauto|]. intros ->. tauto.
    + rewrite EN, map_app, elem_of_app. right. apply elem_of_cons. by left.
    + apply list.Forall_cons. split; [|by eapply live_headers]. cbn [fst snd]. rewrite (hsize_ext (h_mem s)); [by rewrite R1|]. intros b Hb'. apply (Hsame x); [rewrite elem_of_app, !elem_of_cons; tauto| |done]. intros ->. tauto.
Qed.

(** The end of a larger block. *)
Lemma take_tail : nu < x.2 -> exists pa s', malloc_take nu y.1 x.1 s = Ok (pa + 16) s' /\ heap_ok (X ++ (x.1, x.2 - nu) :: Q) ((pa, nu) :: L) s' /\ h_sys s' = h_sys s /\ kept L (h_mem s) (h_mem s').
Proof.
  intros Hlt. destruct tk_ring as (R1 & R2 & R3 & R4 & R5). pose proof tk_block as Hb. pose proof (brk_bound (h_sys s)) as Hbb. pose proof tk_distinct as Hnd.
  set (m1 := put_size x.1 (x.2 - nu) (h_mem s)). set (pa := x.1 + 16 * (x.2 - nu)). set (m2 := put_size pa nu m1).
  assert (Hi : forall b, ~ (x.1 <= b < x.1 + 16 * x.2) -> load8 m2 b = load8 (h_mem s) b) by (intros b Hb'; unfold m2, m1; rewrite put_size_in, put_size_in; [done|lia|unfold pa; lia]).
  assert (Hm : kept L (h_mem s) m2).
  { intros b Hb'. apply Hi. destruct Hb' as [(z & Hz & Hb')|Hb']; [|lia]. pose proof tk_tiles as [_ B _]. cbn [apart_all] in B. destruct B as [B _]. rewrite list.Forall_forall in B.
    specialize (B z ltac:(rewrite elem_of_app; tauto)). unfold apart in B. lia. }
  apply list.NoDup_app in Hnd as (_ & Hnd1 & Hnd2). rewrite !list.NoDup_cons, !elem_of_cons in Hnd2. setoid_rewrite elem_of_cons in Hnd1. setoid_rewrite elem_of_cons in Hnd1.
  assert (Hsame : forall z b, z ∈ l ++ y :: x :: Q -> z <> x -> z.1 <= b < z.1 + 16 -> load8 m2 b = load8 (h_mem s) b).
  { intros z b Hz Hzx Hb'. apply Hi. pose proof (tk_apart z (tk_in z Hz) Hzx). lia. }
  assert (Hyx : y <> x) by (intros ->; tauto). assert (Hyn : y ∈ l ++ y :: x :: Q) by (rewrite elem_of_app, !elem_of_cons; tauto).
  assert (S1 : hsize m1 x.1 = x.2 - nu) by (apply hsize_put; lia).
  assert (Hpx : in_header pa m1 m2) by apply put_size_in.
  exists pa, (mkHeap m2 y.1 (h_sys s)). split; [|split; [|split; [done|done]]].
  - unfold malloc_take, size, ptr, set_size, set_freep. run_unfold. rewrite R1. rewrite (proj2 (Z.eqb_neq _ _)) by lia. cbn [h_freep h_mem h_sys set_mem]. rewrite !R1, (u32_small (x.2 - nu)) by lia.
    change (store_bytes (h_mem s) (x.1 + 8) (le_bytes 4 (x.2 - nu))) with m1. rewrite S1. rewrite (hdr_add_small x.1) by lia. fold pa. do 2 f_equal. unfold hdr_add, sizeof_Header. rewrite u64_small; unfold pa; lia.
  - assert (EN : nodes (X ++ (x.1, x.2 - nu) :: Q) = l ++ y :: (x.1, x.2 - nu) :: Q) by (change (nodes (X ++ (x.1, x.2 - nu) :: Q)) with (nodes X ++ (x.1, x.2 - nu) :: Q); by rewrite EX, <- app_assoc).
    split; cbn [h_mem h_freep h_sys].
    + pose proof tk_tiles as Ht. assert (E : (X ++ (x.1, x.2 - nu) :: Q) ++ (pa, nu) :: L ≡ₚ (x.1, x.2 - nu) :: (pa, nu) :: (X ++ Q) ++ L).
      { rewrite <- !Permutation_middle. cbn [app]. by rewrite Permutation_swap. }
      rewrite E. apply tiles_split; [lia|]. by destruct x.
    + rewrite EN. apply tk_sorted.
    + rewrite EN, seg_app. cbn [seg hd_addr fst snd]. split_and!.
      * eapply seg_ext; [|exact R4]. intros z b Hz. apply Hsame; [rewrite elem_of_app; tauto|]. intros ->. apply (Hnd1 x Hz). tauto.
      * rewrite (hsize_ext (h_mem s)); [done|]. intros b Hb'. by apply (Hsame y).
      * pose proof (hk_ring _ _ _ Hk) as Hr. rewrite tk_nodes in Hr. apply seg_at in Hr as [_ Hr]. rewrite (hptr_ext (h_mem s)); [done|]. intros b Hb'. by apply (Hsame y).
      * rewrite (hsize_ext m1); [done|]. intros b Hb'. apply Hpx. unfold pa. lia.
      * rewrite (hptr_ext m1); [unfold m1; by rewrite hptr_put_size|]. intros b Hb'. apply Hpx. unfold pa. lia.
      * eapply seg_ext; [|exact R5]. intros z b Hz. apply Hsame; [rewrite elem_of_app, !elem_of_cons; tauto|]. intros ->. tauto.
    + rewrite EN, map_app, elem_of_app. right. apply elem_of_cons. by left.
    + apply list.Forall_cons. split; [|by eapply live_headers]. cbn [fst snd]. apply hsize_put. lia.
Qed.

Lemma take_block_ok : exists F' pa s', malloc_take nu y.1 x.1 s = Ok (pa + 16) s' /\ heap_ok F' ((pa, nu) :: L) s' /\ h_sys s' = h_sys s /\ kept L (h_mem s) (h_mem s').
Proof.
  destruct (Z.eq_dec x.2 nu) as [E|E].
  - destruct (take_whole E) as (s' & ?). by exists (X ++ Q), x.1, s'.
  - destruct take_tail as (pa & s' & ?); [lia|]. by exists (X ++ (x.1, x.2 - nu) :: Q), pa, s'.
Qed.

End Take.

(** ** malloc(): the search *)

Definition last_addr (z : Z) l : Z := List.last (map fst l) z.

Lemma last_cons z x l : last_addr z (x :: l) = last_addr x.1 l.
Proof. unfold last_addr. cbn [map]. destruct l as [|y l]; [done|]. cbn [map]. revert y. induction l as [|w l IH]; intros y; [done|]. cbn [map List.last] in *. apply IH. Qed.

Lemma last_split z x l : exists l' y, x :: l = l' ++ [y] /\ last_addr z (x :: l) = y.1.
Proof.
  revert z x. induction l as [|w l IH]; intros z x; [by exists [], x|]. destruct (IH x.1 w) as (l' & y & E & Ey).
  exists (x :: l'), y. rewrite E. split; [done|]. rewrite last_cons, <- E. done.
Qed.

Lemma last_app z l x l' : last_addr z (l ++ x :: l') = last_addr z (x :: l').
Proof. revert z. induction l as [|w l IH]; intros z; [done|]. cbn [app]. rewrite last_cons, IH. by rewrite !last_cons. Qed.

Section Search.
Context (nu : Z) (fuel : nat) (s : HP).
Hypothesis Hnu : 1 <= nu.

(** Too small, and not where the search started. *)
Definition passed x : Prop := x.2 < nu /\ x.1 <> h_freep s.

Lemma malloc_skip z prev k d : seg (h_mem s) d z -> Forall passed d ->
  loop (length d + k) (malloc_body fuel nu) (prev, hd_addr d z) s = loop k (malloc_body fuel nu) (last_addr prev d, z) s.
Proof.
  revert prev. induction d as [|x d IH]; intros prev Hs Hp; [done|]. cbn [seg] in Hs. destruct Hs as (E1 & E2 & Hs). apply list.Forall_cons in Hp as [[Hx1 Hx2] Hp].
  cbn [length Nat.add hd_addr]. rewrite loop_S. unfold malloc_body at 1, size, freep, ptr, bind, gets, ret. rewrite E1, (proj2 (Z.leb_gt _ _)), (proj2 (Z.eqb_neq _ _)), E2 by done.
  rewrite IH by done. by rewrite last_cons.
Qed.

Lemma first_big l : Forall (fun x => x.2 < nu) l \/ exists l1 x l2, l = l1 ++ x :: l2 /\ Forall (fun x => x.2 < nu) l1 /\ nu <= x.2.
Proof.
  induction l as [|x l IH]; [by left|]. destruct (Z.lt_ge_cases x.2 nu) as [Hx|Hx]; [|right; by exists [], x, l].
  destruct IH as [IH|(l1 & y & l2 & -> & H1 & H2)]; [left; by constructor|]. right. exists (x :: l1), y, l2. split; [done|]. split; [by constructor|done].
Qed.

(** One round through the list: it stops at a block that is large enough, or
    comes back to where it started. *)
Lemma malloc_round F L k : heap_ok F L s -> (length (nodes F) <= k)%nat ->
  (exists X x Q l y k', F = X ++ x :: Q /\ nodes X = l ++ [y] /\ nu <= x.2 /\
     loop (Datatypes.S k) (malloc_body fuel nu) (h_freep s, hptr (h_mem s) (h_freep s)) s = loop (Datatypes.S k') (malloc_body fuel nu) (y.1, x.1) s) \/
  Forall (fun x => x.2 < nu) F /\ exists prev k', (k - length (nodes F) <= k')%nat /\
     loop (Datatypes.S k) (malloc_body fuel nu) (h_freep s, hptr (h_mem s) (h_freep s)) s = loop (Datatypes.S k') (malloc_body fuel nu) (prev, h_freep s) s.
Proof.
  intros Hk Hle. pose proof (hk_freep _ _ _ Hk) as Hfp. apply list_elem_of_fmap in Hfp as (fz & Efz & Hfz). pose proof Hfz as Hfzn. apply list_elem_of_split in Hfz as (a & b & E).
  pose proof (hk_ring _ _ _ Hk) as Hr. rewrite E, seg_app in Hr. destruct Hr as [Ra Rb]. cbn [seg hd_addr] in Ra, Rb. destruct Rb as (_ & Ez & Rb).
  assert (Hnd : NoDup (a ++ fz :: b)).
  { rewrite <- E. apply nodes_nodup; [by destruct Hk|]. pose proof (heap_free _ _ _ Hk) as Hz. eapply list.Forall_impl; [exact Hz|]. cbn. lia. }
  apply list.NoDup_app in Hnd as (_ & Hn1 & Hn2). apply list.NoDup_cons in Hn2 as [Hn2 _].
  assert (Hps : forall d, (forall x, x ∈ d -> x ∈ a \/ x ∈ b) -> Forall (fun x => x.2 < nu) d -> Forall passed d).
  { intros d Hd Hsm. rewrite list.Forall_forall in *. intros x Hx. split; [by apply Hsm|]. rewrite Efz. assert (Hxn : x ∈ nodes F) by (rewrite E, elem_of_app, elem_of_cons; specialize (Hd x Hx); tauto).
    assert (Hne : x <> fz). { intros ->. destruct (Hd fz Hx) as [Hi|Hi]; [apply (Hn1 fz Hi); apply elem_of_cons; by left|done]. }
    pose proof (heap_apart F L s x fz Hk Hxn Hfzn Hne). lia. }
  pose proof (f_equal length E) as Elen. rewrite length_app in Elen. cbn [length] in Elen. rewrite Efz, Ez.
  destruct (first_big b) as [Hb|(b1 & x & b2 & -> & Hb1 & Hx)].
  2:{ left. destruct (last_split 0 fz b1) as (l & y & El & Ey). rewrite last_cons in Ey.
    assert (HX : exists X, nodes X = a ++ fz :: b1 /\ F = X ++ x :: b2) by (destruct a as [|a0 a]; injection E as <- EF; [exists b1|exists (a ++ fz :: b1)]; (split; [done|]); rewrite EF, <- ?app_assoc; done).
    destruct HX as (X & EX & EF). exists X, x, b2, (a ++ l), y, (k - length b1)%nat. split; [done|]. split; [by rewrite EX, El, app_assoc|]. split; [done|].
    rewrite length_app in Elen. rewrite hd_app. cbn [hd_addr]. replace (Datatypes.S k) with (length b1 + Datatypes.S (k - length b1))%nat by lia.
    rewrite seg_app in Rb. rewrite malloc_skip; [by rewrite Ey|tauto|]. apply Hps; [|done]. intros w Hw. rewrite elem_of_app. tauto. }
  assert (S1 : loop (Datatypes.S k) (malloc_body fuel nu) (fz.1, hd_addr b base) s = loop (Datatypes.S (k - length b)) (malloc_body fuel nu) (last_addr fz.1 b, base) s).
  { replace (Datatypes.S k) with (length b + Datatypes.S (k - length b))%nat by lia. apply malloc_skip; [done|]. apply Hps; [tauto|done]. }
  rewrite S1. destruct a as [|a0 a].
  { injection E as <- EF. right. split; [by rewrite EF|]. exists (last_addr base b), (k - length b)%nat. split; [cbn in *; lia|done]. }
  injection E as <- EF.
  destruct (first_big a) as [Ha|(a1 & x & a2 & -> & Ha1 & Hx)].
  2:{ left. destruct (last_split 0 (base, 0%Z) a1) as (l & y & El & Ey). exists a1, x, (a2 ++ fz :: b), l, y, (k - length b - length ((base, 0%Z) :: a1))%nat.
    split; [by rewrite EF, <- app_assoc|]. split; [done|]. split; [done|]. cbn [length] in *. rewrite length_app in Elen. cbn [length] in Elen.
    replace (Datatypes.S (k - length b)) with (length ((base, 0%Z) :: a1) + Datatypes.S (k - length b - length ((base, 0%Z) :: a1)))%nat by (cbn [length]; lia).
    change (last_addr fz.1 b, base) with (last_addr fz.1 b, hd_addr ((base, 0%Z) :: a1) x.1). rewrite malloc_skip.
    - by rewrite last_cons, <- (last_cons 0), Ey.
    - rewrite app_comm_cons, seg_app in Ra. tauto.
    - apply Hps; [intros w Hw; left; revert Hw; rewrite !elem_of_cons, elem_of_app; tauto|]. constructor; [cbn; lia|done]. }
  assert (S2 : loop (Datatypes.S (k - length b)) (malloc_body fuel nu) (last_addr fz.1 b, base) s =
    loop (Datatypes.S (k - length b - length ((base, 0%Z) :: a))) (malloc_body fuel nu) (last_addr (last_addr fz.1 b) ((base, 0%Z) :: a), fz.1) s).
  { cbn [length] in *. replace (Datatypes.S (k - length b)) with (length ((base, 0%Z) :: a) + Datatypes.S (k - length b - length ((base, 0%Z) :: a)))%nat by (cbn [length]; lia).
    apply (malloc_skip fz.1 _ _ ((base, 0%Z) :: a)); [done|]. apply Hps; [intros w Hw; by left|]. constructor; [cbn; lia|done]. }
  rewrite S2. destruct (Z.lt_ge_cases fz.2 nu) as [Hfs|Hfs].
  - right. split; [rewrite EF; apply Forall_app; split; [done|by constructor]|]. eexists _, _. split; [|reflexivity]. cbn [length] in *. lia.
  - left. destruct (last_split (last_addr fz.1 b) (base, 0%Z) a) as (l & y & El & Ey). exists a, fz, b, l, y, (k - length b - length ((base, 0%Z) :: a))%nat. rewrite Ey. done.
Qed.

End Search.

(** ** malloc(): more memory *)

Lemma heap_top F L s : heap_ok F L s -> lo <= brk (h_sys s).
Proof.
  intros [[A _ C] _ _ _ _]. assert (0 <= units (F ++ L)); [|lia]. clear C. induction A as [|x l Hx Hl IH]; cbn; [lia|]. change (foldr _ 0 l) with (units l). lia.
Qed.

(** Changes above the end of the heap. *)
Lemma above_kept F L s m' : heap_ok F L s -> (forall b, b < brk (h_sys s) -> load8 m' b = load8 (h_mem s) b) -> kept L (h_mem s) m' /\ seg m' (nodes F) base.
Proof.
  intros Hk Hm. pose proof (heap_top _ _ _ Hk) as Htop. pose proof (hk_tiles _ _ _ Hk) as [A _ _]. rewrite list.Forall_forall in A. split.
  - intros b Hb. apply Hm. destruct Hb as [(x & Hx & Hb)|Hb]; [|lia]. specialize (A x ltac:(rewrite elem_of_app; tauto)). lia.
  - eapply seg_ext; [|by destruct Hk]. intros x b Hx Hb. apply Hm. pose proof (node_bounds _ _ _ x Hk Hx). lia.
Qed.

Lemma morecore_ok F L s nu fuel : heap_ok F L s -> 1 <= nu -> 16 * nu < 2 ^ 31 -> (length (nodes F) < fuel)%nat ->
  exists r s', morecore fuel nu s = Ok r s' /\ kept L (h_mem s) (h_mem s') /\
    (r = 0 /\ heap_ok F L s' \/ r = h_freep s' /\ exists F', heap_ok F' L s' /\ (length F' <= length F + 1)%nat /\ exists x, x ∈ F' /\ nu <= x.2).
Proof.
  intros Hk Hnu Hmax Hf. set (k := if nu <? 4096 then 4096 else nu). assert (Hkk : nu <= k /\ 4096 <= k /\ 16 * k < 2 ^ 31) by (unfold k; destruct (Z.ltb_spec nu 4096); lia).
  unfold morecore. fold k. replace (i32 (u64 (k * sizeof_Header))) with (16 * k) by (unfold sizeof_Header; rewrite u64_small, i32_small; lia).
  pose proof (sbrk_spec (16 * k) (h_mem s) (h_sys s) ltac:(lia)) as Hsb. apply wp_ok in Hsb as (r & [m1 s1] & Esb & Hm1 & Hr). cbn [fst snd] in *.
  pose proof (above_kept F L s m1 Hk Hm1) as [Hkm Hsg]. pose proof (brk_bound (h_sys s)) as Hbb. pose proof (heap_top _ _ _ Hk) as Htop.
  unfold zoom, bind. cbn [view sys_lens put]. rewrite Esb. cbn [fst snd]. destruct Hr as [[-> Eb]|[-> Eb]].
  - exists 0, (mkHeap m1 (h_freep s) s1). split; [done|]. split; [done|]. left. split; [done|]. destruct Hk as [A B C D G]. split; cbn [h_mem h_freep h_sys]; [by rewrite Eb|done|done|done|].
    eapply live_headers; [|exact Hkm]. by split.
  - rewrite (proj2 (Z.eqb_neq _ _)) by lia. set (bp := brk (h_sys s)) in *. set (m2 := put_size bp k m1).
    assert (Hk2 : heap_ok F ((bp, k) :: L) (mkHeap m2 (h_freep s) s1)).
    { pose proof (above_kept F L s m2 Hk) as [Hkm2 Hsg2]; [intros b Hb; unfold m2; rewrite put_size_in by lia; by apply Hm1|].
      pose proof (live_headers _ _ _ _ Hk Hkm2) as Hlv. destruct Hk as [A B C D G]. split; cbn [h_mem h_freep h_sys]; [|done|done|done|].
      - rewrite Eb. assert (E : F ++ (bp, k) :: L ≡ₚ (bp, k) :: F ++ L) by (by rewrite <- Permutation_middle). rewrite E. apply tiles_grow; [done|lia|done].
      - apply list.Forall_cons. split; [|done]. cbn [fst snd]. apply hsize_put. lia. }
    destruct (free_ok F [] bp k L (mkHeap m2 (h_freep s) s1) fuel Hk2 Hf) as (F' & s' & Ef & Hk' & _ & Hkp & Hlen & x & Hx & Hxk). cbn [app h_mem] in *.
    exists (h_freep s'), s'. split; [|split].
    + unfold set_size, modify, freep, gets, set_mem. cbn [h_mem h_freep h_sys]. rewrite (hdr_add_small bp 1) by (unfold bp in *; lia). replace (bp + 16 * 1) with (bp + 16) by lia. fold (put_size bp k m1). fold m2. by rewrite Ef.
    + transitivity m2; [|done]. apply (above_kept F L s m2 Hk). intros b Hb. unfold m2. rewrite put_size_in by lia. by apply Hm1.
    + right. split; [done|]. exists F'. split; [done|]. split; [done|]. exists x. split; [done|]. lia.
Qed.

Lemma freep_nz F L s : heap_ok F L s -> h_freep s <> 0.
Proof. intros Hk. pose proof (hk_freep _ _ _ Hk) as Hf. apply list_elem_of_fmap in Hf as (x & -> & Hx). pose proof (node_bounds _ _ _ x Hk Hx). lia. Qed.

(** malloc() after the first call, or before it. *)
Definition heap_inv (F L : list block) s : Prop := heap_ok F L s \/ h_freep s = 0 /\ F = [] /\ L = [] /\ brk (h_sys s) = lo.

Lemma malloc_loop_ok F L s nu fuel : heap_ok F L s -> 1 <= nu -> 16 * nu < 2 ^ 31 -> (2 * length (nodes F) + 4 <= fuel)%nat ->
  exists r s', loop fuel (malloc_body fuel nu) (h_freep s, hptr (h_mem s) (h_freep s)) s = Ok r s' /\ kept L (h_mem s) (h_mem s') /\
    (r = 0 /\ heap_ok F L s' /\ Forall (fun x => x.2 < nu) F \/ exists pa F', r = pa + 16 /\ heap_ok F' ((pa, nu) :: L) s').
Proof.
  intros Hk Hnu Hmax Hf.
  assert (Htk : forall F s X x Q l y k', heap_ok F L s -> F = X ++ x :: Q -> nodes X = l ++ [y] -> nu <= x.2 ->
    exists r s', loop (Datatypes.S k') (malloc_body fuel nu) (y.1, x.1) s = Ok r s' /\ kept L (h_mem s) (h_mem s') /\ exists pa F', r = pa + 16 /\ heap_ok F' ((pa, nu) :: L) s').
  { clear F s Hk Hf. intros F s X x Q l y k' Hk EF EX Hx. destruct (take_block_ok F L s X x Q l y nu Hk EF EX ltac:(lia)) as (F' & pa & s' & Et & Hk' & _ & Hkp).
    exists (pa + 16), s'. split; [|split; [done|by exists pa, F']]. destruct (tk_ring F L s X x Q l y nu Hk EF EX ltac:(lia)) as (R1 & _).
    rewrite loop_S. unfold malloc_body at 1, size, bind, gets, ret. rewrite R1, (proj2 (Z.leb_le _ _)) by done. by rewrite Et. }
  assert (Ek : exists k, fuel = Datatypes.S k) by (exists (Nat.pred fuel); lia). destruct Ek as [k Ek]. pose proof (malloc_round nu fuel s Hnu F L k Hk ltac:(lia)) as Hround. rewrite <- Ek in Hround.
  destruct Hround as [(X & x & Q & l & y & k' & EF & EX & Hx & ->)|(Hsm & prev & k' & Hk' & ->)].
  { destruct (Htk F s X x Q l y k' Hk EF EX Hx) as (r & s' & E & Hkp & Hr). exists r, s'. split; [done|]. split; [done|by right]. }
  rewrite loop_S. unfold malloc_body at 1, size, freep, bind, gets.
  assert (Hsz : hsize (h_mem s) (h_freep s) < nu).
  { pose proof (hk_freep _ _ _ Hk) as Hfp. apply list_elem_of_fmap in Hfp as (fz & -> & Hfz). pose proof Hfz as Hs2. apply list_elem_of_split in Hs2 as (a & b & E). pose proof (hk_ring _ _ _ Hk) as Hr. rewrite E in Hr. apply seg_at in Hr as [-> _].
    apply elem_of_cons in Hfz as [->|Hfz]; [cbn; lia|]. rewrite list.Forall_forall in Hsm. by apply Hsm. }
  rewrite (proj2 (Z.leb_gt _ _)), Z.eqb_refl by done.
  destruct (morecore_ok F L s nu fuel Hk Hnu Hmax ltac:(lia)) as (r & s1 & Em & Hkp & [[-> Hk1]|[-> (F1 & Hk1 & Hlen & x & Hx1 & Hx2)]]); rewrite Em.
  - exists 0, s1. split; [done|]. split; [done|]. by left.
  - rewrite (proj2 (Z.eqb_neq _ _)) by (by eapply freep_nz). unfold ptr, gets, ret. destruct k' as [|k']; [cbn in *; lia|].
    destruct (malloc_round nu fuel s1 Hnu F1 L k' Hk1 ltac:(cbn in *; lia)) as [(X & x' & Q & l & y & k2 & EF & EX & Hx & ->)|(Hsm1 & _)].
    + destruct (Htk F1 s1 X x' Q l y k2 Hk1 EF EX Hx) as (r & s' & E & Hkp' & Hr). exists r, s'. split; [done|]. split; [by transitivity (h_mem s1)|by right].
    + rewrite list.Forall_forall in Hsm1. specialize (Hsm1 x Hx1). cbn beta in Hsm1. lia.
Qed.

Lemma malloc_ok F L s nbytes fuel : heap_inv F L s -> 0 <= nbytes < 2 ^ 31 - 31 -> (2 * length (nodes F) + 4 <= fuel)%nat ->
  exists r s', malloc base fuel nbytes s = Ok r s' /\ kept L (h_mem s) (h_mem s') /\
    (r = 0 /\ heap_ok F L s' /\ Forall (fun x => x.2 < nunits nbytes) F \/ exists pa F', r = pa + 16 /\ heap_ok F' ((pa, nunits nbytes) :: L) s').
Proof.
  intros Hi Hnb Hf. assert (Hnu : nunits nbytes = (nbytes + 15) / 16 + 1).
  { unfold nunits, sizeof_Header. replace (nbytes + 16 - 1) with (nbytes + 15) by lia. rewrite u64_small by lia. apply u32_small. pose proof (Z.div_pos (nbytes + 15) 16). pose proof (Z.div_le_upper_bound (nbytes + 15) 16 (2 ^ 31)). lia. }
  assert (H1 : 1 <= nunits nbytes /\ 16 * nunits nbytes < 2 ^ 31) by (rewrite Hnu; pose proof (Z.div_pos (nbytes + 15) 16); pose proof (Z.mul_div_le (nbytes + 15) 16); lia).
  unfold malloc, freep, ptr, bind, gets. destruct Hi as [Hk|(E0 & -> & -> & Eb)].
  - rewrite (proj2 (Z.eqb_neq _ _)) by (by eapply freep_nz). unfold ret. apply malloc_loop_ok; [done|lia|lia|done].
  - rewrite E0. cbn [Z.eqb]. unfold set_freep, set_ptr, set_size, modify, ret, set_mem. cbn [h_mem h_freep h_sys].
    fold (put_ptr base base (h_mem s)). fold (put_size base 0 (put_ptr base base (h_mem s))). set (m1 := put_size base 0 (put_ptr base base (h_mem s))).
    pose proof (brk_bound (h_sys s)) as Hbb. assert (Hi1 : in_header base (h_mem s) m1) by (eapply in_header_trans; [apply put_ptr_in|apply put_size_in]).
    assert (Hp : hptr m1 base = base) by (unfold m1; rewrite hptr_put_size; apply hptr_put; lia). assert (Hs : hsize m1 base = 0) by (apply hsize_put; lia).
    assert (Hk : heap_ok [] [] (mkHeap m1 base (h_sys s))).
    { split; cbn [h_mem h_freep h_sys app]; [|repeat constructor|by cbn|by apply list_elem_of_here|constructor]. split; [constructor|done|cbn; lia]. }
    destruct (malloc_loop_ok [] [] _ (nunits nbytes) fuel Hk ltac:(lia) ltac:(lia) Hf) as (r & s' & E & Hkp & Hr). cbn [h_freep h_mem] in *. exists r, s'. split; [exact E|]. split; [|exact Hr].
    transitivity m1; [|done]. intros b Hb. apply Hi1. destruct Hb as [(x & Hx & _)|Hb]; [by apply elem_of_nil in Hx|lia].
Qed.

(** ** Programs that use the allocator *)

(** The result of a routine with enough fuel for its loops. *)
Definition returns {A} (f : nat -> M HP A) s (r : A) s' : Prop := exists k0, forall k, (k0 <= k)%nat -> f k s = Ok r s'.

(** Memory the program may write: its own variables below the heap and the
    blocks it has allocated, without their headers. *)
Definition owned (L : list block) (b : Z) : Prop := (exists x, x ∈ L /\ x.1 + 16 <= b < x.1 + 16 * x.2) \/ b < base \/ base + 16 <= b < lo.

(** What a program does, with the blocks it has allocated and not freed. *)
Inductive heap_step : HP * list block -> HP * list block -> Prop :=
| hs_malloc s s' L nbytes r :
    0 <= nbytes < 2 ^ 31 - 31 -> returns (fun k => malloc base k nbytes) s r s' -> r <> 0 -> heap_step (s, L) (s', (r - 16, nunits nbytes) :: L)
| hs_fail s s' L nbytes :
    0 <= nbytes < 2 ^ 31 - 31 -> returns (fun k => malloc base k nbytes) s 0 s' -> heap_step (s, L) (s', L)
| hs_free s s' la a n lb :
    returns (fun k => free k (a + 16)) s tt s' -> heap_step (s, la ++ (a, n) :: lb) (s', la ++ lb)
| hs_write s L b v : owned L b -> heap_step (s, L) (set_mem (store8 (h_mem s) b v) s, L).

Lemma returns_det {A} (f : nat -> M HP A) s r s' k0 r' s'' : returns f s r s' -> (forall k, (k0 <= k)%nat -> f k s = Ok r' s'') -> r' = r /\ s'' = s'.
Proof. intros (k1 & H1) H2. specialize (H1 (k0 + k1)%nat ltac:(lia)). specialize (H2 (k0 + k1)%nat ltac:(lia)). rewrite H1 in H2. by injection H2 as -> ->. Qed.

(** More fuel does not change a result. *)
Lemma free_fuel k k' ap : (k <= k')%nat -> extends_run (free (S := S) k ap) (free k' ap).
Proof. intros Hle. unfold free. repeat (apply extends_bind; [|intros ?]); try apply extends_run_refl. by apply extends_loop. Qed.

Lemma malloc_fuel k k' nbytes : (k <= k')%nat -> extends_run (malloc (S := S) base k nbytes) (malloc base k' nbytes).
Proof.
  intros Hle. unfold malloc. do 3 (apply extends_bind; [apply extends_run_refl|intros ?]). apply extends_loop; [done|]. intros [prevp p]. unfold malloc_body.
  apply extends_bind; [apply extends_run_refl|intros n]. destruct (_ <=? _); [apply extends_run_refl|]. apply extends_bind; [apply extends_run_refl|intros f]. destruct (_ =? _); [|apply extends_run_refl].
  apply extends_bind; [|intros ?; apply extends_run_refl]. unfold morecore. apply extends_bind; [apply extends_run_refl|intros r]. destruct (_ =? _); [apply extends_run_refl|].
  apply extends_bind; [apply extends_run_refl|intros []]. apply extends_bind; [by apply free_fuel|intros ?; apply extends_run_refl].
Qed.

Lemma returns_at {A} (f : nat -> M HP A) k s r s' : (forall k k', (k <= k')%nat -> extends_run (f k) (f k')) -> f k s = Ok r s' -> returns f s r s'.
Proof. intros Hf E. exists k. intros k' Hle. rewrite (Hf k k' Hle s); [done|]. by rewrite E. Qed.

Lemma malloc_returns F L s nbytes : heap_inv F L s -> 0 <= nbytes < 2 ^ 31 - 31 ->
  exists r s', returns (fun k => malloc base k nbytes) s r s' /\ kept L (h_mem s) (h_mem s') /\
    (r = 0 /\ heap_ok F L s' /\ Forall (fun x => x.2 < nunits nbytes) F \/ exists pa F', r = pa + 16 /\ heap_ok F' ((pa, nunits nbytes) :: L) s').
Proof.
  intros Hi Hnb. destruct (malloc_ok F L s nbytes (2 * length (nodes F) + 4) Hi Hnb) as (r & s' & E & Hr); [lia|]. exists r, s'. split; [|done].
  eapply returns_at; [|exact E]. intros k k'. apply malloc_fuel.
Qed.

Lemma free_returns F la a n lb s : heap_inv F (la ++ (a, n) :: lb) s ->
  exists F' s', returns (fun k => free k (a + 16)) s tt s' /\ heap_ok F' (la ++ lb) s' /\ h_sys s' = h_sys s /\ kept (la ++ lb) (h_mem s) (h_mem s').
Proof.
  intros [Hk|(_ & _ & E & _)]; [|by destruct la]. destruct (free_ok F la a n lb s (length (nodes F) + 1) Hk) as (F' & s' & E & H1 & H2 & H3 & _); [lia|].
  exists F', s'. split; [|done]. eapply returns_at; [|exact E]. intros k k'. apply free_fuel.
Qed.

Lemma returns_same {A} (f : nat -> M HP A) s r s' r' s'' : returns f s r s' -> returns f s r' s'' -> r' = r /\ s'' = s'.
Proof. intros H1 (k0 & H2). by eapply returns_det. Qed.

Lemma write_ok F L s b v : heap_inv F L s -> owned L b -> heap_inv F L (set_mem (store8 (h_mem s) b v) s).
Proof.
  intros [Hk|Hk] Hb; [left|right; exact Hk]. pose proof (hk_tiles _ _ _ Hk) as [Ab Aa _]. assert (Hout : forall x c, x ∈ nodes F -> x.1 <= c < x.1 + 16 -> load8 (store8 (h_mem s) b v) c = load8 (h_mem s) c).
  { intros x c Hx Hc. apply load8_store8_ne. intros ->. destruct Hb as [(y & Hy & Hb)|Hb]; [pose proof (free_live _ _ _ x y Hk Hx Hy); lia|].
    apply elem_of_cons in Hx as [->|Hx]; [cbn in *; lia|]. rewrite list.Forall_forall in Ab. specialize (Ab x ltac:(rewrite elem_of_app; tauto)). lia. }
  destruct Hk as [A B C D G]. split; cbn [set_mem h_mem h_freep h_sys]; [done|done|by eapply seg_ext|done|].
  rewrite list.Forall_forall in *. intros x Hx. rewrite (hsize_ext (h_mem s)); [by apply G|]. intros c Hc. apply load8_store8_ne. intros ->.
  pose proof (Ab x ltac:(rewrite elem_of_app; tauto)) as Bx. destruct Hb as [(y & Hy & Hb)|Hb]; [|lia]. destruct (decide (x = y)) as [->|Hxy]; [lia|].
  apply list_elem_of_split in Hy as (u & w & ->). assert (E : F ++ u ++ y :: w ≡ₚ y :: F ++ u ++ w) by (by rewrite !(app_assoc F), <- Permutation_middle).
  rewrite E in Aa. cbn [apart_all] in Aa. destruct Aa as [Aa _]. rewrite list.Forall_forall in Aa. specialize (Aa x).
  rewrite !elem_of_app in Aa. rewrite elem_of_app, elem_of_cons in Hx. unfold apart in Aa. destruct Aa as [|]; [tauto|lia|lia].
Qed.

Lemma heap_step_ok sl sl' : heap_step sl sl' -> (exists F, heap_inv F sl.2 sl.1) -> exists F, heap_inv F sl'.2 sl'.1.
Proof.
  intros Hs (F & Hi). destruct Hs as [s s' L nbytes r Hnb Hr Hne|s s' L nbytes Hnb Hr|s s' la a n lb Hr|s L b v Hb]; cbn [fst snd] in *.
  - destruct (malloc_returns F L s nbytes Hi Hnb) as (r' & s'' & Hr' & _ & Hc). destruct (returns_same _ _ _ _ _ _ Hr Hr') as [-> ->].
    destruct Hc as [[-> _]|(pa & F' & -> & Hk)]; [done|]. exists F'. left. by replace (pa + 16 - 16) with pa by lia.
  - destruct (malloc_returns F L s nbytes Hi Hnb) as (r' & s'' & Hr' & _ & Hc). destruct (returns_same _ _ _ _ _ _ Hr Hr') as [-> ->].
    destruct Hc as [(_ & Hk & _)|(pa & F' & E & Hk)]; [by exists F; left|]. pose proof (hk_tiles _ _ _ Hk) as [A _ _]. apply Forall_app in A as [_ A]. apply list.Forall_cons in A as [A _]. cbn in A. lia.
  - destruct (free_returns F la a n lb s Hi) as (F' & s'' & Hr' & Hk & _). destruct (returns_same _ _ _ _ _ _ Hr Hr') as [_ ->]. exists F'. by left.
  - exists F. by apply write_ok.
Qed.

(** C12: malloc() and free() manage the heap exactly.  Start with no block
    allocated, and let a program allocate, free its blocks and write its own
    memory in any order, every request being for less than 2^31 - 31 bytes (see
    [malloc_huge] for a larger one).  At every moment the free blocks and the blocks in use
    fill the memory from sbrk() without overlap or gap, no two free blocks
    touch, and:  malloc(n) for such an [n] returns and changes nothing in the blocks in use; it
    returns 0 only when no free block is large enough, otherwise a 16-byte
    aligned address of [n] bytes inside the heap that are in no block in use;
    free() of a block in use returns and changes nothing in the others. *)
Theorem malloc_free_exact s0 s L : h_freep s0 = 0 -> brk (h_sys s0) = lo -> rtc heap_step (s0, []) (s, L) ->
  exists F, tiles lo (brk (h_sys s)) (F ++ L) /\ StronglySorted before F /\
  (forall nbytes, 0 <= nbytes < 2 ^ 31 - 31 -> exists r s', returns (fun k => malloc base k nbytes) s r s' /\ kept L (h_mem s) (h_mem s') /\
     (r = 0 /\ Forall (fun x => x.2 < nunits nbytes) F \/
      (16 | r) /\ lo < r /\ r + nbytes <= brk (h_sys s') /\ forall x, x ∈ L -> r + nbytes <= x.1 \/ x.1 + 16 * x.2 <= r)) /\
  (forall la a n lb, L = la ++ (a, n) :: lb -> exists s', returns (fun k => free k (a + 16)) s tt s' /\ kept (la ++ lb) (h_mem s) (h_mem s')).
Proof.
  intros E0 Eb Hr. assert (Hinv : exists F, heap_inv F L s).
  { assert (Hi : exists F, heap_inv F ((s0, []) : HP * list block).2 ((s0, []) : HP * list block).1) by (exists []; by right).
    change (exists F, heap_inv F (s, L).2 (s, L).1). induction Hr as [|x y z Hxy _ IH]; [done|]. apply IH. by eapply heap_step_ok. }
  destruct Hinv as (F & Hi). exists F. split; [|split; [|split]].
  - destruct Hi as [Hk|(_ & -> & -> & E)]; [by destruct Hk|]. rewrite E. split; [constructor|done|cbn; lia].
  - destruct Hi as [Hk|(_ & -> & _)]; [|constructor]. by apply hk_sorted, StronglySorted_cons in Hk as [_ ?].
  - intros nbytes Hnb. destruct (malloc_returns F L s nbytes Hi Hnb) as (r & s' & H1 & H2 & H3). exists r, s'. split; [done|]. split; [done|].
    destruct H3 as [(-> & _ & Hs)|(pa & F' & -> & Hk)]; [by left|right]. pose proof (hk_tiles _ _ _ Hk) as [A B _]. rewrite list.Forall_forall in A.
    destruct (A (pa, nunits nbytes)) as (A1 & A2 & A3 & A4); [rewrite elem_of_app, elem_of_cons; tauto|]. cbn [fst snd] in *.
    assert (Hn : nbytes <= 16 * (nunits nbytes - 1)).
    { unfold nunits, sizeof_Header. replace (nbytes + 16 - 1) with (nbytes + 15) by lia. rewrite u64_small by lia.
      pose proof (Z.div_mod (nbytes + 15) 16). pose proof (Z.mod_pos_bound (nbytes + 15) 16). pose proof (Z.div_pos (nbytes + 15) 16). rewrite u32_small; lia. }
    split; [apply Z.divide_add_r; [done|by exists 1]|]. split; [lia|]. split; [lia|]. intros x Hx.
    assert (E : F' ++ (pa, nunits nbytes) :: L ≡ₚ (pa, nunits nbytes) :: F' ++ L) by (by rewrite <- Permutation_middle). rewrite E in B. cbn [apart_all] in B. destruct B as [B _]. rewrite list.Forall_forall in B.
    specialize (B x ltac:(rewrite elem_of_app; tauto)). unfold apart in B. cbn in B. lia.
  - intros la a n lb ->. destruct (free_returns F la a n lb s Hi) as (F' & s' & H1 & _ & _ & H2). by exists s'.
Qed.

End Facts.

(** ** A process with 128 megabytes *)
Module UmallocDemo.

(** The end of the memory; sbrk() refuses to go beyond 128 megabytes. *)
#[local] Instance demo_sbrk : Sbrk N := {
  sbrk n := fun ms =>
    let e := Z.of_N (snd ms) in
    if e + n <=? 2 ^ 27 then Ok e (fst ms, Z.to_N (e + n)) else Ok (2 ^ 64 - 1) ms
}.

#[local] Instance demo_laws : SbrkLaws N.
Proof.
  refine {| brk e := Z.min (Z.of_N e) (2 ^ 27) |}; [lia|]. intros n m e Hn. unfold wp, sbrk, demo_sbrk. cbn [fst snd].
  destruct (Z.leb_spec (Z.of_N e + n) (2 ^ 27)); cbn [fst snd]; (split; [done|]); [right|by left]. rewrite Z2N.id; lia.
Defined.

Definition start : heap N := mkHeap ∅ 0 32%N.
(** After malloc(100). *)
Definition one_block : heap N := match malloc 16 10 100 start with Ok _ s => s | _ => start end.

Lemma malloc_free_exact_witness :
  exists r s', returns (fun k => malloc 16 k 50) one_block r s' /\ (r = 0 \/ r + 50 <= 65440 \/ 65568 <= r).
Proof.
  destruct (malloc_free_exact 16 32 ltac:(lia) ltac:(lia) ltac:(by exists 2) start one_block [(65440, 8)]) as (F & _ & _ & Hm & _).
  - reflexivity.
  - reflexivity.
  - eapply rtc_l; [|apply rtc_refl]. apply (hs_malloc 16 32 start one_block [] 100 65456); [lia| |lia].
    apply (returns_at _ 10); [intros k k'; apply malloc_fuel|]. vm_compute. reflexivity.
  - destruct (Hm 50) as (r & s' & H1 & _ & H2); [lia|]. exists r, s'. split; [exact H1|]. destruct H2 as [[H2 _]|(_ & _ & _ & H2)]; [by left|right].
    specialize (H2 (65440, 8) ltac:(by apply list_elem_of_here)). exact H2.
Defined.

(** A request close to 4 gigabytes is granted without any memory: the size
    morecore() asks sbrk() for is 2^32, which is 0 as an int. *)
Lemma malloc_huge :
  match malloc 16 10 (2 ^ 32 - 16) start with Ok r s' => r = 48 /\ h_sys s' = h_sys start | _ => False end.
Proof. vm_compute. split; reflexivity. Qed.

End UmallocDemo.
