(* ===== verification/Pipe.v ===== *)
(** * Pipes (kernel/pipe.c)

    A pipe is a ring buffer with a lock.  A routine that has to wait gives the
    lock back and sleeps; when it is woken it goes on in its loop.  The model
    makes this explicit: a call that blocks returns [inl] with the loop's
    variables, from which the call is resumed.  The theorems are about single
    calls and about every interleaving of the loop iterations of any number
    of readers and writers. *)

From S2P Require Import Prelude Spinlock Mem Ring UserIO.

Definition PIPESIZE : Z := 512.

(** struct pipe *)
Record pipe := mkPipe {
  pi_lock : spinlock; pi_data : list Z; nread : Z; nwrite : Z; readopen : Z; writeopen : Z
}.

(** The pipe, the killed flag of the running process, and its memory. *)
Record penv (U : Type) := mkPenv { pp : pipe; pr_killed : Z; um : U }.
Arguments mkPenv {U} _ _ _.
Arguments pp {U} _.
Arguments pr_killed {U} _.
Arguments um {U} _.

Definition set_nread v p := mkPipe (pi_lock p) (pi_data p) v (nwrite p) (readopen p) (writeopen p).
Definition set_nwrite v p := mkPipe (pi_lock p) (pi_data p) (nread p) v (readopen p) (writeopen p).
Definition set_data v p := mkPipe (pi_lock p) v (nread p) (nwrite p) (readopen p) (writeopen p).
Definition set_readopen v p := mkPipe (pi_lock p) (pi_data p) (nread p) (nwrite p) v (writeopen p).
Definition set_writeopen v p := mkPipe (pi_lock p) (pi_data p) (nread p) (nwrite p) (readopen p) v.
Definition set_pi_lock v p := mkPipe v (pi_data p) (nread p) (nwrite p) (readopen p) (writeopen p).

(** What pipealloc() makes of the page it was given. *)
Definition pipe_init (data : list Z) : pipe := mkPipe (initlock "pipe") data 0 0 1 1.

(** Wait channels: &pi->nread and &pi->nwrite. *)
Definition NREAD : Z := 1.
Definition NWRITE : Z := 2.

Section Pipe.
Context {U : Type} `{UserIO U}.
Variable me : Z.

Definition pi_lock_lens : lens (penv U) spinlock :=
  Lens (fun s => pi_lock (pp s)) (fun l s => mkPenv (set_pi_lock l (pp s)) (pr_killed s) (um s)).
Definition getp : M (penv U) pipe := gets pp.
Definition setp (f : pipe -> pipe) : M (penv U) unit := modify (fun s => mkPenv (f (pp s)) (pr_killed s) (um s)).

(** Returns whether the page of the pipe is to be freed (kfree). *)
Definition pipeclose (writable : bool) : M (penv U) bool :=
  acquire_at me pi_lock_lens ;;
  (if writable then setp (set_writeopen 0) ;; wakeup NREAD
   else setp (set_readopen 0) ;; wakeup NWRITE) ;;
  let! p := getp in
  release_at me pi_lock_lens ;;
  ret ((readopen p =? 0) && (writeopen p =? 0)).

(** One iteration of the loop of pipewrite(): [inr (inl i)] when the process
    goes to sleep, [inr (inr r)] when the call returns [r]. *)
Definition pipewrite_body (addr n i : Z) : M (penv U) (Z + (Z + Z)) :=
  if i <? n then
    let! p := getp in
    let! k := gets pr_killed in
    if (readopen p =? 0) || negb (k =? 0) then
      release_at me pi_lock_lens ;; ret (inr (inr (-1)))
    else if nwrite p =? u32 (nread p + PIPESIZE) then
      wakeup NREAD ;;
      release_at me pi_lock_lens ;; ret (inr (inl i))
    else
      let! ch := gets (fun s => either_copyin true (u64 (addr + i)) 1 (um s)) in
      match ch with
      | Some [ch] =>
          setp (set_data (ring_set PIPESIZE (pi_data p) (nwrite p) ch)) ;;
          setp (set_nwrite (u32 (nwrite p + 1))) ;;
          ret (inl (i + 1))
      | _ => wakeup NREAD ;; release_at me pi_lock_lens ;; ret (inr (inr i))
      end
  else
    wakeup NREAD ;;
    release_at me pi_lock_lens ;;
    ret (inr (inr i)).

(** pipewrite(), from its start ([i] = 0) or from where it slept. *)
Definition pipewrite (addr n i : Z) : M (penv U) (Z + Z) :=
  acquire_at me pi_lock_lens ;;
  loop (Z.to_nat (n - i) + 1) (pipewrite_body addr n) i.

(** The copy loop of piperead(). *)
Definition piperead_body (addr n i : Z) : M (penv U) (Z + Z) :=
  if i <? n then
    let! p := getp in
    if nread p =? nwrite p then ret (inr i)
    else
      setp (set_nread (u32 (nread p + 1))) ;;
      let ch := ring_get PIPESIZE (pi_data p) (nread p) in
      let! r := gets (fun s => either_copyout true (u64 (addr + i)) [ch] (um s)) in
      modify (fun s => mkPenv (pp s) (pr_killed s) (snd r)) ;;
      if fst r then ret (inl (i + 1)) else ret (inr i)
  else ret (inr i).

Definition piperead (addr n : Z) : M (penv U) (unit + Z) :=
  acquire_at me pi_lock_lens ;;
  let! p := getp in
  if (nread p =? nwrite p) && negb (writeopen p =? 0) then
    let! k := gets pr_killed in
    if negb (k =? 0) then release_at me pi_lock_lens ;; ret (inr (-1))
    else release_at me pi_lock_lens ;; ret (inl tt)
  else
    let! i := loop (Z.to_nat n + 1) (piperead_body addr n) 0 in
    wakeup NWRITE ;;
    release_at me pi_lock_lens ;;
    ret (inr i).

End Pipe.

(** ** The queue a pipe holds *)

Definition queue (p : pipe) : list Z := ring PIPESIZE (2 ^ 32) (pi_data p) (nread p) (nwrite p).

Record pipe_ok (p : pipe) : Prop := {
  pk_len : length (pi_data p) = Z.to_nat PIPESIZE;
  pk_r : 0 <= nread p < 2 ^ 32;
  pk_w : 0 <= nwrite p < 2 ^ 32;
  pk_bound : ring_len (2 ^ 32) (nread p) (nwrite p) <= PIPESIZE
}.

Lemma pipe_div : (PIPESIZE | 2 ^ 32).
Proof. by exists (2 ^ 23). Qed.

Lemma length_queue p : Z.of_nat (length (queue p)) = ring_len (2 ^ 32) (nread p) (nwrite p).
Proof.
  unfold queue. rewrite length_ring, Z2Nat.id; [done|]. apply ring_len_range. done.
Qed.

Lemma queue_bound p : pipe_ok p -> Z.of_nat (length (queue p)) <= PIPESIZE.
Proof. intros Hp. rewrite length_queue. apply Hp. Qed.

Lemma queue_empty p : pipe_ok p -> (nread p =? nwrite p) = (Z.of_nat (length (queue p)) =? 0).
Proof.
  intros [_ Hr Hw _]. rewrite length_queue. apply eq_true_iff_eq. rewrite !Z.eqb_eq.
  symmetry. apply ring_len_zero; done.
Qed.

Lemma queue_full p :
  pipe_ok p -> (nwrite p =? u32 (nread p + PIPESIZE)) = (Z.of_nat (length (queue p)) =? PIPESIZE).
Proof. intros [_ Hr Hw Hb]. rewrite length_queue. by apply ring_full. Qed.

(** The effect of the two assignments of a write. *)
Definition pushed (p : pipe) (ch : Z) : pipe :=
  mkPipe (pi_lock p) (ring_set PIPESIZE (pi_data p) (nwrite p) ch) (nread p) (u32 (nwrite p + 1))
    (readopen p) (writeopen p).
Definition popped (p : pipe) : pipe := set_nread (u32 (nread p + 1)) p.

Lemma pipe_pushed_ok p ch :
  pipe_ok p -> Z.of_nat (length (queue p)) < PIPESIZE ->
  pipe_ok (pushed p ch) /\ queue (pushed p ch) = queue p ++ [ch].
Proof.
  intros [Hl Hr Hw Hb] Hlt. rewrite length_queue in Hlt.
  assert (Hq : queue (pushed p ch) = queue p ++ [ch]).
  { unfold queue, pushed. cbn. apply ring_push; try done. apply pipe_div. }
  split; [|done]. split; cbn; try done.
  - by rewrite length_ring_set.
  - auto with word.
  - unfold u32. rewrite ring_len_push; unfold PIPESIZE in *; lia.
Qed.

Lemma pipe_popped_ok p :
  pipe_ok p -> 0 < Z.of_nat (length (queue p)) ->
  pipe_ok (popped p) /\ queue p = ring_get PIPESIZE (pi_data p) (nread p) :: queue (popped p).
Proof.
  intros [Hl Hr Hw Hb] Hlt. rewrite length_queue in Hlt. split.
  - split; cbn; try done; [auto with word|]. unfold u32. rewrite ring_len_pop; lia.
  - unfold queue, popped. cbn. apply ring_pop; try done. apply pipe_div.
Qed.

(** ** Single calls *)

Section Calls.
Context {U : Type} `{UserIO U} (me : Z).
Implicit Types s : penv U.

(** The pipe with its lock taken by this CPU. *)
Definition locked_pipe (p : pipe) : pipe := set_pi_lock (lock_taken me (pi_lock p)) p.

Lemma locked_pipe_ok p : pipe_ok p -> pipe_ok (locked_pipe p).
Proof. intros [A B C D]. by split. Qed.

Lemma wp_pi_release (s : penv U) p k u (Q : unit -> penv U -> Prop) :
  lock_free (pi_lock p) -> Q tt (mkPenv p k u) ->
  wp (release_at me pi_lock_lens) (mkPenv (locked_pipe p) k u) Q.
Proof.
  intros Hl HQ. apply (wp_release_at _ _ _ (pi_lock p)); [done|done|]. cbn.
  destruct p. exact HQ.
Qed.

(** One byte is written when there is room and the byte can be read. *)
Lemma wp_write_step addr n i p k u ch (Q : Z + (Z + Z) -> penv U -> Prop) :
  pipe_ok p -> i < n -> readopen p <> 0 -> k = 0 -> Z.of_nat (length (queue p)) < PIPESIZE ->
  either_copyin true (u64 (addr + i)) 1 u = Some [ch] ->
  Q (inl (i + 1)) (mkPenv (locked_pipe (pushed p ch)) k u) ->
  wp (pipewrite_body me addr n i) (mkPenv (locked_pipe p) k u) Q.
Proof.
  intros Hp Hi Hr -> Hlt Hc HQ. unfold pipewrite_body. rewrite (proj2 (Z.ltb_lt _ _) Hi).
  unfold getp, setp. do 2 wp_step. do 2 wp_step. cbn [pp pr_killed um locked_pipe set_pi_lock readopen nwrite nread pi_data].
  rewrite (proj2 (Z.eqb_neq _ _) Hr). cbn [negb orb Z.eqb].
  rewrite (queue_full p Hp), (proj2 (Z.eqb_neq _ _)) by lia. do 2 wp_step. cbn [um]. rewrite Hc.
  do 4 wp_step. wp_step. exact HQ.
Qed.

(** The bytes [bs] of the caller, from index [i] on. *)
Definition user_bytes (u : U) (addr : Z) (bs : list Z) : Prop :=
  forall k b, bs !! k = Some b -> either_copyin true (u64 (addr + Z.of_nat k)) 1 u = Some [b].

Lemma wp_write_loop addr bs fuel i p u (Q : Z + Z -> penv U -> Prop) :
  pipe_ok p -> lock_free (pi_lock p) -> readopen p <> 0 -> user_bytes u addr bs -> (i <= length bs)%nat ->
  (length bs - i < fuel)%nat ->
  let room := (Z.to_nat PIPESIZE - length (queue p))%nat in
  (forall p', pipe_ok p' -> lock_free (pi_lock p') -> readopen p' = readopen p -> writeopen p' = writeopen p ->
     queue p' = queue p ++ take room (drop i bs) ->
     Q (if decide (length bs - i <= room)%nat then inr (Z.of_nat (length bs)) else inl (Z.of_nat (i + room)))
       (mkPenv p' 0 u)) ->
  wp (loop fuel (pipewrite_body me addr (Z.of_nat (length bs))) (Z.of_nat i)) (mkPenv (locked_pipe p) 0 u) Q.
Proof.
  revert i p; induction fuel as [|fuel IH]; intros i p Hp Hl Hro Hu Hi Hf room HQ; [lia|].
  rewrite loop_S. pose proof (queue_bound p Hp) as Hqb.
  destruct (decide (i = length bs)) as [->|Hne].
  - (* all written *)
    unfold pipewrite_body, wakeup. rewrite Z.ltb_irrefl. do 4 wp_step.
    apply (wp_pi_release (mkPenv p 0 u)); [done|]. wp_step. wp_step.
    specialize (HQ p Hp Hl eq_refl eq_refl). rewrite drop_ge, take_nil, app_nil_r in HQ by lia.
    rewrite decide_True in HQ by lia. by apply HQ.
  - destruct (lookup_lt_is_Some_2 bs i) as [b Hb]; [lia|].
    destruct (decide (Z.of_nat (length (queue p)) < PIPESIZE)) as [Hlt|Hfull].
    + wp_step. eapply (wp_write_step _ _ _ p 0 u b); [done|lia|done|done|done|by apply Hu|].
      destruct (pipe_pushed_ok p b Hp Hlt) as [Hp' Hq'].
      replace (Z.of_nat i + 1) with (Z.of_nat (Datatypes.S i)) by lia.
      apply IH; try done; [lia|lia|]. intros p' H1 H2 H3 H4 H5.
      rewrite Hq' in H5. rewrite Hq'. rewrite length_app in *. cbn [length] in *.
      assert (Er : room = Datatypes.S (Z.to_nat PIPESIZE - (length (queue p) + 1))) by (unfold room; lia).
      rewrite Er in HQ. rewrite (drop_S bs b i) in HQ by done. cbn [take] in HQ.
      specialize (HQ p' H1 H2 H3 H4). rewrite <-app_assoc in H5. specialize (HQ H5).
      repeat case_decide; try lia; [done|].
      rewrite Nat.add_succ_comm. exact HQ.
    + (* full *)
      unfold pipewrite_body, wakeup. rewrite (proj2 (Z.ltb_lt _ _)) by lia.
      unfold getp. do 3 wp_step. do 2 wp_step. cbn [pp pr_killed um locked_pipe set_pi_lock readopen nwrite nread pi_data].
      rewrite (proj2 (Z.eqb_neq _ _) Hro). cbn [negb orb Z.eqb].
      rewrite (queue_full p Hp), (proj2 (Z.eqb_eq _ _)) by lia. do 3 wp_step.
      apply (wp_pi_release (mkPenv p 0 u)); [done|]. wp_step. wp_step.
      assert (Er : room = O) by (unfold room; lia). rewrite Er in HQ. cbn [take] in HQ. rewrite app_nil_r in HQ.
      specialize (HQ p Hp Hl eq_refl eq_refl eq_refl). rewrite decide_False in HQ by lia. by rewrite Nat.add_0_r in HQ.
Qed.

(** pipewrite() appends.  With the read end open and the buffer mapped, a
    call that writes the bytes [bs] from index [i] on puts them at the end of
    the queue, in order, as many as fit; it returns the total when all fit,
    and otherwise goes to sleep having filled the pipe, to continue after
    exactly the bytes it has written. *)
Theorem pipewrite_appends s addr bs i :
  pipe_ok (pp s) -> lock_free (pi_lock (pp s)) -> readopen (pp s) <> 0 -> pr_killed s = 0 ->
  user_bytes (um s) addr bs -> (i <= length bs)%nat ->
  let room := (Z.to_nat PIPESIZE - length (queue (pp s)))%nat in
  wp (pipewrite me addr (Z.of_nat (length bs)) (Z.of_nat i)) s (fun r s' =>
    pipe_ok (pp s') /\ lock_free (pi_lock (pp s')) /\ um s' = um s /\
    queue (pp s') = queue (pp s) ++ take room (drop i bs) /\
    r = if decide (length bs - i <= room)%nat then inr (Z.of_nat (length bs)) else inl (Z.of_nat (i + room))).
Proof.
  intros Hp Hl Hr Hk Hu Hi room. destruct s as [p k u]. cbn in *. subst k. unfold pipewrite.
  wp_step. apply wp_acquire_at; [done|]. apply (wp_write_loop addr bs _ i p u); try done; lia.
Qed.

(** The bytes [bs] delivered to the caller's buffer, one at a time. *)
Fixpoint deliver (addr i : Z) (bs : list Z) (u : U) : U :=
  match bs with
  | [] => u
  | b :: bs => deliver addr (i + 1) bs (snd (either_copyout true (u64 (addr + i)) [b] u))
  end.

(** The buffer of [n] bytes at [addr] can be written, and stays so: [P] is what
    is known of the caller's memory. *)
Definition buffer_mapped (addr n : Z) (P : U -> Prop) : Prop :=
  forall (j b : Z) (u : U), P u -> 0 <= j < n ->
    fst (either_copyout true (u64 (addr + j)) [b] u) = true /\ P (snd (either_copyout true (u64 (addr + j)) [b] u)).

Lemma wp_read_loop addr n fuel i p k u (P : U -> Prop) (Q : Z -> penv U -> Prop) :
  pipe_ok p -> 0 <= i <= n -> (Z.to_nat (n - i) < fuel)%nat ->
  buffer_mapped addr n P -> P u ->
  let m := Nat.min (Z.to_nat (n - i)) (length (queue p)) in
  (forall p', pipe_ok p' -> pi_lock p' = pi_lock p -> readopen p' = readopen p -> writeopen p' = writeopen p ->
     queue p' = drop m (queue p) ->
     Q (i + Z.of_nat m) (mkPenv p' k (deliver addr i (take m (queue p)) u))) ->
  wp (loop fuel (piperead_body addr n) i) (mkPenv p k u) Q.
Proof.
  revert i p u; induction fuel as [|fuel IH]; intros i p u Hp Hi Hf Hc HP m HQ; [lia|].
  rewrite loop_S. unfold piperead_body at 1. destruct (Z.ltb_spec i n) as [Hlt|Hge].
  - unfold getp, setp. do 3 wp_step. cbn [pp]. rewrite queue_empty by done.
    destruct (Z.eqb_spec (Z.of_nat (length (queue p))) 0) as [E|E].
    + do 2 wp_step. assert (Em : m = O) by (unfold m; lia). rewrite Em in HQ.
      specialize (HQ p Hp eq_refl eq_refl eq_refl eq_refl). by rewrite Z.add_0_r in HQ.
    + do 2 wp_step. do 2 wp_step. do 2 wp_step. cbn [pp pr_killed um]. destruct (Hc i (ring_get PIPESIZE (pi_data p) (nread p)) u HP ltac:(lia)) as [-> HP']. wp_step.
      destruct (pipe_popped_ok p Hp ltac:(lia)) as [Hp' Hq].
      assert (Em : m = Datatypes.S (Nat.min (Z.to_nat (n - (i + 1))) (length (queue (popped p))))).
      { unfold m. rewrite Hq. cbn [length]. lia. }
      apply IH; try done; try lia. intros p' H1 H2 H3 H4 H5. rewrite Em, Hq in HQ. cbn [take drop deliver] in HQ.
      specialize (HQ p' H1 H2 H3 H4 H5).
      change (set_nread (u32 (nread p + 1)) p) with (popped p).
      rewrite Nat2Z.inj_succ, <-Z.add_1_l, Z.add_assoc in HQ. exact HQ.
  - do 2 wp_step. assert (Em : m = O) by (unfold m; lia). rewrite Em in HQ.
    specialize (HQ p Hp eq_refl eq_refl eq_refl eq_refl). by rewrite Z.add_0_r in HQ.
Qed.

(** piperead() takes from the front.  With its buffer mapped, a call for
    [n] bytes on a pipe that is not empty, or whose write end is closed,
    delivers the oldest bytes in order, as many as asked for and available,
    removes exactly these, and returns their number, which is 0 at the end of
    the data; on an empty pipe with the write end open it waits, or returns -1
    if the process was killed, and changes nothing. *)
Theorem piperead_takes s addr n (P : U -> Prop) :
  pipe_ok (pp s) -> lock_free (pi_lock (pp s)) -> 0 <= n ->
  buffer_mapped addr n P -> P (um s) ->
  let q := queue (pp s) in
  let m := Nat.min (Z.to_nat n) (length q) in
  wp (piperead me addr n) s (fun r s' =>
    pipe_ok (pp s') /\ lock_free (pi_lock (pp s')) /\
    if (Z.of_nat (length q) =? 0) && negb (writeopen (pp s) =? 0)
    then s' = s /\ r = (if pr_killed s =? 0 then inl tt else inr (-1))
    else r = inr (Z.of_nat m) /\ queue (pp s') = drop m q /\ um s' = deliver addr 0 (take m q) (um s)).
Proof.
  intros Hp Hl Hn Hc HP q m. destruct s as [p k u]. cbn in *. unfold piperead.
  wp_step. apply wp_acquire_at; [done|]. unfold getp, wakeup. do 2 wp_step.
  cbn [pp put pi_lock_lens set_pi_lock nread nwrite writeopen]. rewrite queue_empty by done. fold q.
  wp_step.
  - do 2 wp_step. cbn [pr_killed put pi_lock_lens]. destruct (k =? 0); cbn [negb].
    + wp_step. apply (wp_pi_release (mkPenv p k u)); [done|]. wp_step. done.
    + wp_step. apply (wp_pi_release (mkPenv p k u)); [done|]. wp_step. done.
  - wp_step. apply (wp_read_loop addr n _ 0 (locked_pipe p) k u P); [by apply locked_pipe_ok|lia|lia|done|done|].
    intros p' H1 H2 H3 H4 H5. do 3 wp_step. rewrite Z.sub_0_r in *.
    change (queue (locked_pipe p)) with q in *. fold m in H5 |- *.
    apply (wp_release_at _ _ _ (pi_lock p)); [done|done|]. wp_step. cbn.
    split_and!; try done. by destruct H1.
Qed.

End Calls.

(** ** Every interleaving of readers and writers

    A step of the system is one iteration of the loop of some call of
    pipewrite() or piperead() by some CPU, with the memory of that CPU's
    process and its killed flag at that moment.  Between two iterations of one
    call the relation lets any other call run, which includes what happens
    when the call sleeps: a step starts with the lock taken and ends with it
    given back.  What the readers receive is observed in their memory:
    [recorded] is a caller's memory that notes every byte it is handed. *)

(** A caller's memory with the bytes that copyout() was asked to store: the
    address, the byte, and whether it was stored. *)
Record recorded (U : Type) := mkRec { ru : U; handed : list (Z * Z * bool) }.
Arguments mkRec {U} _ _.
Arguments ru {U} _.
Arguments handed {U} _.

#[global] Instance recorded_io {U} `{UserIO U} : UserIO (recorded U) := {
  either_copyin ud a n r := either_copyin ud a n (ru r);
  partial_copyin ud a n r := partial_copyin ud a n (ru r);
  either_copyout ud a bs r :=
    let o := either_copyout ud a bs (ru r) in (fst o, mkRec (snd o) (handed r ++ map (fun b => (a, b, fst o)) bs))
}.

Section Interleaving.
Context {U : Type} `{UserIO U}.
Notation V := (recorded U).

(** The pipe, the bytes the writers have read from their buffers, what
    copyout() was asked to store for the readers, and where they wanted it. *)
Record history := mkHist { h_pipe : pipe; h_written : list Z; h_handed : list (Z * Z * bool); h_dest : list Z }.

(** The byte a writer's iteration has put in the pipe: the one it read. *)
Definition given (addr i : Z) (u : V) : list Z := default [] (either_copyin true (u64 (addr + i)) 1 u).

Inductive pipe_step : history -> history -> Prop :=
| step_write me addr n i i' p k (u : V) s' w d a :
    pipewrite_body me addr n i (mkPenv (locked_pipe me p) k u) = Ok (inl i') s' ->
    pipe_step (mkHist p w d a) (mkHist (set_pi_lock (pi_lock p) (pp s')) (w ++ given addr i u) d a)
| step_write_end me addr n i p k (u : V) r s' w d a :
    pipewrite_body me addr n i (mkPenv (locked_pipe me p) k u) = Ok (inr r) s' ->
    pipe_step (mkHist p w d a) (mkHist (pp s') w d a)
| step_read me addr n i p k (u : U) r (s' : penv V) w d a :
    piperead_body addr n i (mkPenv (locked_pipe me p) k (mkRec u d)) = Ok r s' ->
    pipe_step (mkHist p w d a)
      (mkHist (set_pi_lock (pi_lock p) (pp s')) w (handed (um s')) (a ++ replicate (length (handed (um s')) - length d) (u64 (addr + i))))
| step_close me (writable : bool) p k (u : V) r s' w d a :
    pipeclose me writable (mkPenv p k u) = Ok r s' ->
    pipe_step (mkHist p w d a) (mkHist (pp s') w d a).

Definition h_bytes (d : list (Z * Z * bool)) : list Z := map (fun x => snd (fst x)) d.
Definition h_addrs (d : list (Z * Z * bool)) : list Z := map (fun x => fst (fst x)) d.
(** The bytes that did reach their buffer. *)
Definition delivered (d : list (Z * Z * bool)) : list Z := h_bytes (List.filter snd d).

Record fifo (g : history) : Prop := {
  ff_pipe : pipe_ok (h_pipe g);
  ff_lock : lock_free (pi_lock (h_pipe g));
  ff_order : h_written g = h_bytes (h_handed g) ++ queue (h_pipe g);
  ff_dest : h_addrs (h_handed g) = h_dest g
}.

Lemma release_pipe me p k (u : V) :
  lock_free (pi_lock p) -> release_at me pi_lock_lens (mkPenv (locked_pipe me p) k u) = Ok tt (mkPenv p k u).
Proof.
  intros Hl. pose proof (wp_pi_release (U := V) me (mkPenv p k u) p k u (fun r s' => r = tt /\ s' = mkPenv p k u) Hl) as Hw.
  apply wp_ok in Hw as ([] & s' & E & _ & ->); done.
Qed.

(** What one iteration of the writer's loop can do. *)
Lemma pipewrite_body_cases me addr n i p k (u : V) r s' :
  lock_free (pi_lock p) -> pipewrite_body me addr n i (mkPenv (locked_pipe me p) k u) = Ok r s' ->
  (exists ch, r = inl (i + 1) /\ either_copyin true (u64 (addr + i)) 1 u = Some [ch] /\
     (nwrite p =? u32 (nread p + PIPESIZE)) = false /\ s' = mkPenv (locked_pipe me (pushed p ch)) k u) \/
  (exists x, r = inr x /\ s' = mkPenv p k u).
Proof.
  intros Hl. unfold pipewrite_body, getp, setp, wakeup. run_unfold. cbn [pp pr_killed um].
  pose proof (release_pipe me p k u Hl) as Hrel.
  destruct (i <? n); cbn beta; [|rewrite Hrel; intros [= <- <-]; eauto]. cbn [pp pr_killed um].
  destruct ((readopen _ =? 0) || _); cbn beta; [rewrite Hrel; intros [= <- <-]; eauto|]. cbn [nwrite nread locked_pipe set_pi_lock].
  destruct (nwrite p =? u32 (nread p + PIPESIZE)) eqn:Ef; cbn beta; [rewrite Hrel; intros [= <- <-]; eauto|]. cbn [um].
  destruct (either_copyin _ _ _ _) as [[|ch [|? ?]]|] eqn:Ec; cbn beta;
    try (rewrite Hrel; intros [= <- <-]; by eauto).
  intros [= <- <-]. left. by exists ch.
Qed.

(** And the reader's: the oldest byte is removed and handed to copyout(). *)
Lemma piperead_body_cases me addr n i p k (u : U) d r (s' : penv V) :
  piperead_body addr n i (mkPenv (locked_pipe me p) k (mkRec u d)) = Ok r s' ->
  (pp s' = locked_pipe me p /\ handed (um s') = d) \/
  ((nread p =? nwrite p) = false /\ pp s' = locked_pipe me (popped p) /\
   exists ok, handed (um s') = d ++ [(u64 (addr + i), ring_get PIPESIZE (pi_data p) (nread p), ok)] /\ r = if ok then inl (i + 1) else inr i).
Proof.
  unfold piperead_body, getp, setp. run_unfold. destruct (i <? n); cbn beta; [|intros [= <- <-]; by left].
  cbn [pp nread nwrite locked_pipe set_pi_lock].
  destruct (nread p =? nwrite p); cbn beta; [intros [= <- <-]; by left|].
  cbn [pp pr_killed um pi_data]. intros E. right. split; [done|].
  cbn in E. destruct (either_copyout true (u64 (addr + i)) [ring_get PIPESIZE (pi_data p) (nread p)] u) as [ok u'].
  split; [by destruct ok; injection E as <- <-|]. exists ok. by destruct ok; injection E as <- <-.
Qed.

Lemma h_bytes_snoc d x : h_bytes (d ++ [x]) = h_bytes d ++ [snd (fst x)].
Proof. unfold h_bytes. by rewrite map_app. Qed.
Lemma h_addrs_snoc d x : h_addrs (d ++ [x]) = h_addrs d ++ [fst (fst x)].
Proof. unfold h_addrs. by rewrite map_app. Qed.

Lemma pipeclose_keeps me wr p k (u : V) r s' :
  pipe_ok p -> lock_free (pi_lock p) -> pipeclose me wr (mkPenv p k u) = Ok r s' ->
  pipe_ok (pp s') /\ lock_free (pi_lock (pp s')) /\ queue (pp s') = queue p.
Proof.
  intros Hp Hl E. apply (wp_run _ _ _ _ (fun (_ : bool) (s' : penv V) => pipe_ok (pp s') /\ lock_free (pi_lock (pp s')) /\ queue (pp s') = queue p) E).
  unfold pipeclose, setp, getp, wakeup. wp_step. apply wp_acquire_at; [done|]. wp_step. destruct wr; repeat (first [wp_step | progress cbn beta]);
    (apply (wp_release_at _ _ _ (pi_lock p)); [done|done|]; wp_step; split_and!; [by destruct Hp|done|done]).
Qed.

Lemma fifo_step g g' : fifo g -> pipe_step g g' -> fifo g'.
Proof.
  intros Hg Hs. destruct Hs as [me addr n i i' p k u s' w d a E|me addr n i p k u r s' w d a E|me addr n i p k u r s' w d a E|me wr p k u r s' w d a E];
    destruct Hg as [Hp Hl Ho Ha]; cbn [h_pipe h_written h_handed h_dest] in *.
  - apply pipewrite_body_cases in E as [(ch & _ & Hc & Hf & ->)|(x & [=] & _)]; [|done]. cbn [pp].
    rewrite (queue_full p Hp) in Hf. bool_simpl. pose proof (queue_bound p Hp).
    destruct (pipe_pushed_ok p ch Hp ltac:(lia)) as [Hp' Hq].
    change (set_pi_lock _ (locked_pipe me (pushed p ch))) with (pushed p ch).
    split; cbn [h_pipe h_written h_handed h_dest]; try done. unfold given. by rewrite Hc, Hq, Ho, app_assoc.
  - apply pipewrite_body_cases in E as [(ch & [=] & _)|(x & _ & ->)]; done.
  - apply piperead_body_cases in E as [[-> ->]|(Hf & -> & ok & -> & _)].
    + rewrite Nat.sub_diag, app_nil_r. split; try done; by destruct p.
    + rewrite (queue_empty p Hp) in Hf. bool_simpl. destruct (pipe_popped_ok p Hp ltac:(lia)) as [Hp' Hq].
      change (set_pi_lock _ (locked_pipe me (popped p))) with (popped p). rewrite length_app, Nat.add_comm, Nat.add_sub.
      split; cbn [h_pipe h_written h_handed h_dest]; [done|done| |].
      * rewrite h_bytes_snoc, Ho, Hq, <-app_assoc. done.
      * by rewrite h_addrs_snoc, Ha.
  - destruct (pipeclose_keeps me wr p k u r s' Hp Hl E) as (C1 & C2 & C3). split; cbn; try done. by rewrite C3.
Qed.

Lemma filter_all (d : list (Z * Z * bool)) : Forall (fun x => snd x = true) d -> List.filter snd d = d.
Proof. induction 1 as [|x d Hx _ IH]; [done|]. cbn. by rewrite Hx, IH. Qed.

(** C16: a pipe is a FIFO.  In every interleaving of the loop iterations of
    any number of reading, writing and closing processes on a pipe, the bytes
    handed to copyout() for the readers, each for the place in the reader's
    buffer it is meant for, are, in order and without loss or duplication, the
    bytes the writers read from their buffers, up to the at most 512 that are
    still in the pipe.  So as long as no copyout() fails, the bytes delivered
    are exactly these; a byte whose copyout() fails has left the pipe and is
    lost, as the code has it. *)
Theorem pipe_fifo data g :
  length data = Z.to_nat PIPESIZE ->
  rtc pipe_step (mkHist (pipe_init data) [] [] []) g ->
  h_written g = h_bytes (h_handed g) ++ queue (h_pipe g) /\ h_addrs (h_handed g) = h_dest g /\
  (Forall (fun x => snd x = true) (h_handed g) -> h_written g = delivered (h_handed g) ++ queue (h_pipe g)) /\
  (length (queue (h_pipe g)) <= 512)%nat /\ lock_free (pi_lock (h_pipe g)).
Proof.
  intros Hd Hr. assert (Hi : fifo (mkHist (pipe_init data) [] [] [])) by done.
  assert (Hf : fifo g) by (revert Hi; induction Hr; eauto using fifo_step).
  destruct Hf as [Hp Hl Ho Ha]. split_and!; [done|done| |pose proof (queue_bound _ Hp); unfold PIPESIZE in *; lia|done].
  intros Hall. unfold delivered. by rewrite filter_all.
Qed.

End Interleaving.

(** ** A concrete pipe *)
Module PipeDemo.

Definition user : flat := mkFlat 4096 (store_bytes ∅ 100 [10; 20; 30]).
Definition empty_pipe : pipe := pipe_init (replicate 512 0).
Definition env : penv flat := mkPenv empty_pipe 0 user.
Definition after_write : pipe := pushed empty_pipe 10.

Lemma empty_ok : pipe_ok empty_pipe.
Proof. done. Qed.

Lemma pipewrite_appends_witness :
  wp (pipewrite 0 100 3 0) env (fun r s' => queue (pp s') = [10; 20; 30] /\ r = inr 3).
Proof.
  eapply wp_mono; [apply (pipewrite_appends 0 env 100 [10; 20; 30] 0); try done|].
  - intros [|[|[|k]]] b [= <-]; reflexivity.
  - cbn; lia.
  - intros r s' (_ & _ & _ & Hq & Hr). split; [rewrite Hq; reflexivity|]. rewrite Hr. reflexivity.
Defined.

Lemma piperead_takes_witness :
  wp (piperead 0 200 5) (mkPenv after_write 0 user) (fun r s' => queue (pp s') = [] /\ r = inr 1).
Proof.
  eapply wp_mono; [apply (piperead_takes 0 (mkPenv after_write 0 user) 200 5 (fun u => flat_top u = 4096)); try done|].
  - intros j b u Hu Hj. cbn. rewrite Hu, u64_small by lia.
    rewrite (proj2 (Z.leb_le 0 (200 + j))) by lia.
    destruct (Z.leb_spec (200 + j + Z.of_nat 1) 4096); [done|lia].
  - intros r s' (_ & _ & Hr & Hq & _). rewrite Hq, Hr. done.
Defined.

(** One byte is written and read, and is in the reader's memory. *)
Definition one_byte : history := mkHist (popped after_write) [10] [(200, 10, true)] [200].

Lemma pipe_fifo_witness : [10] = delivered (h_handed one_byte) ++ queue (h_pipe one_byte) /\ load_bytes (flat_mem (snd (either_copyout true 200 [10] user))) 200 1 = [10].
Proof.
  split; [|by vm_compute].
  apply (pipe_fifo (U := flat) (replicate 512 0) one_byte); [done| |by repeat constructor].
  eapply rtc_l; [apply (step_write 0 100 3 0 1 empty_pipe 0 (mkRec user []) (mkPenv (locked_pipe 0 after_write) 0 (mkRec user [])) [] [] []); reflexivity|].
  eapply rtc_l; [|apply rtc_refl].
  change (pipe_step (U := flat) (mkHist after_write [10] [] []) one_byte).
  apply (step_read 0 200 5 0 after_write 0 user (inl 1)
    (mkPenv (locked_pipe 0 (popped after_write)) 0 (mkRec (snd (either_copyout true 200 [10] user)) [(200, 10, true)])) [10] [] []). reflexivity.
Defined.

End PipeDemo.
