(* ===== verification/Uart.v ===== *)
(** * The serial port (kernel/uart.c)

    The registers of the 16550 are the device [UartDev]; [UartLaws] says what
    the driver relies on.  Output goes through a ring of 32 bytes that
    uartputc() fills and uartstart() empties into the transmit register
    whenever the device is idle; uartputc_sync() bypasses it and polls.  The
    proofs show that a byte is written to the transmit register only when the
    device has room for it, and that the ring keeps the order of the bytes.
    uartintr() is in Console.v, whose consoleintr() it calls. *)

From S2P Require Import Prelude Spinlock Ring.
Import Spinlock.

Definition RHR : Z := 0.
Definition THR : Z := 0.
Definition IER : Z := 1.
Definition IER_RX_ENABLE : Z := Z.shiftl 1 0.
Definition IER_TX_ENABLE : Z := Z.shiftl 1 1.
Definition FCR : Z := 2.
Definition FCR_FIFO_ENABLE : Z := Z.shiftl 1 0.
Definition FCR_FIFO_CLEAR : Z := Z.shiftl 3 1.
Definition LCR : Z := 3.
Definition LCR_EIGHT_BITS : Z := Z.shiftl 3 0.
Definition LCR_BAUD_LATCH : Z := Z.shiftl 1 7.
Definition LSR : Z := 5.
Definition LSR_RX_READY : Z := Z.shiftl 1 0.
Definition LSR_TX_IDLE : Z := Z.shiftl 1 5.
Definition UART_TX_BUF_SIZE : Z := 32.

(** The registers: a read may change the device (it takes a received byte, or
    time passes), and so does a write. *)
Class UartDev (D : Type) := {
  dev_read : Z -> D -> Z * D;
  dev_write : Z -> Z -> D -> D
}.

(** What the 16550 promises.  [sent] is what has gone out on the line,
    [arrived] what has come in and was not yet read, [busy] how many more
    reads of the status register may find the transmitter busy. *)
Class UartLaws (D : Type) `{UartDev D} := {
  sent : D -> list Z;
  arrived : D -> list Z;
  busy : D -> nat;
  (** the transmitter is known to have room: the last status read said so *)
  room : D -> Prop;
  lsr_keeps : forall d, sent (snd (dev_read LSR d)) = sent d /\ arrived (snd (dev_read LSR d)) = arrived d;
  lsr_tx : forall d, Z.land (fst (dev_read LSR d)) LSR_TX_IDLE <> 0 -> room (snd (dev_read LSR d));
  lsr_busy : forall d, Z.land (fst (dev_read LSR d)) LSR_TX_IDLE = 0 -> (busy (snd (dev_read LSR d)) < busy d)%nat;
  lsr_rx : forall d, Z.land (fst (dev_read LSR d)) 1 = 0 <-> arrived d = [];
  rhr_takes : forall d c cs, arrived d = c :: cs ->
    fst (dev_read RHR d) = c /\ arrived (snd (dev_read RHR d)) = cs /\ sent (snd (dev_read RHR d)) = sent d;
  arrived_bytes : forall d, Forall is_byte (arrived d);
  (** a byte written to a full transmitter may be lost: nothing is said *)
  thr_sends : forall d c, room d -> sent (dev_write THR c d) = sent d ++ [c] /\ arrived (dev_write THR c d) = arrived d
}.

(** The driver's variables, the CPU's interrupt state and the device. *)
Record uart (D : Type) := mkUart {
  uart_tx_lock : spinlock; uart_tx_buf : list Z; uart_tx_w : Z; uart_tx_r : Z;
  panicked : Z; u_hart : hart; u_dev : D
}.
Arguments mkUart {D} _ _ _ _ _ _ _.
Arguments uart_tx_lock {D} _.
Arguments uart_tx_buf {D} _.
Arguments uart_tx_w {D} _.
Arguments uart_tx_r {D} _.
Arguments panicked {D} _.
Arguments u_hart {D} _.
Arguments u_dev {D} _.

(** Wait channel &uart_tx_r. *)
Definition UART_TX_R : Z := 3.

Section Uart.
Context {D : Type} `{UartDev D}.
(** The CPU, and how often a poll of the status register is repeated before
    the model gives up. *)
Variable (me : Z) (polls : nat).
Local Notation U := (uart D).

Definition tx_lock_lens : lens U spinlock :=
  Lens uart_tx_lock (fun l s => mkUart l (uart_tx_buf s) (uart_tx_w s) (uart_tx_r s) (panicked s) (u_hart s) (u_dev s)).
Definition hart_lens : lens U hart :=
  Lens u_hart (fun h s => mkUart (uart_tx_lock s) (uart_tx_buf s) (uart_tx_w s) (uart_tx_r s) (panicked s) h (u_dev s)).
Definition set_dev (d : D) (s : U) : U :=
  mkUart (uart_tx_lock s) (uart_tx_buf s) (uart_tx_w s) (uart_tx_r s) (panicked s) (u_hart s) d.
Definition set_tx (b : list Z) (w r : Z) (s : U) : U :=
  mkUart (uart_tx_lock s) b w r (panicked s) (u_hart s) (u_dev s).

Definition ReadReg (reg : Z) : M U Z := fun s => let '(v, d) := dev_read reg (u_dev s) in Ok v (set_dev d s).
Definition WriteReg (reg v : Z) : M U unit := modify (fun s => set_dev (dev_write reg (u8 v) (u_dev s)) s).

Definition uartinit : M U unit :=
  WriteReg IER 0 ;;
  WriteReg LCR LCR_BAUD_LATCH ;;
  WriteReg 0 3 ;;
  WriteReg 1 0 ;;
  WriteReg LCR LCR_EIGHT_BITS ;;
  WriteReg FCR (Z.lor FCR_FIFO_ENABLE FCR_FIFO_CLEAR) ;;
  WriteReg IER (Z.lor IER_TX_ENABLE IER_RX_ENABLE) ;;
  modify (put tx_lock_lens (initlock "uart")).

(** One iteration of the loop of uartstart(). *)
Definition uartstart_body (_ : unit) : M U (unit + unit) :=
  let! s := gets id in
  if uart_tx_w s =? uart_tx_r s then ret (inr tt)
  else
    let! v := ReadReg LSR in
    if Z.land v LSR_TX_IDLE =? 0 then ret (inr tt)
    else
      let c := ring_get UART_TX_BUF_SIZE (uart_tx_buf s) (uart_tx_r s) in
      modify (fun s => set_tx (uart_tx_buf s) (uart_tx_w s) (u64 (uart_tx_r s + 1)) s) ;;
      wakeup UART_TX_R ;;
      WriteReg THR c ;;
      ret (inl tt).

Definition uartstart : M U unit := loop (Z.to_nat UART_TX_BUF_SIZE + 1) uartstart_body tt.

(** uartputc() from its while loop on; [inl] when the process goes to sleep,
    which gives the lock back. *)
Definition uartputc_put (c : Z) : M U (unit + unit) :=
  let! s := gets id in
  if uart_tx_w s =? u64 (uart_tx_r s + UART_TX_BUF_SIZE) then
    release_at me tx_lock_lens ;; ret (inl tt)
  else
    modify (fun s => set_tx (ring_set UART_TX_BUF_SIZE (uart_tx_buf s) (uart_tx_w s) (u8 c)) (uart_tx_w s) (uart_tx_r s) s) ;;
    modify (fun s => set_tx (uart_tx_buf s) (u64 (uart_tx_w s + 1)) (uart_tx_r s) s) ;;
    uartstart ;;
    release_at me tx_lock_lens ;;
    ret (inr tt).

Definition uartputc (c : Z) : M U (unit + unit) :=
  acquire_at me tx_lock_lens ;;
  let! p := gets panicked in
  if negb (p =? 0) then hang else uartputc_put c.

(** uartputc() after sleep() has returned, with the lock. *)
Definition uartputc_resume (c : Z) : M U (unit + unit) :=
  acquire_at me tx_lock_lens ;; uartputc_put c.

(** The wait for the transmitter in uartputc_sync(). *)
Definition poll_body (_ : unit) : M U (unit + unit) :=
  let! v := ReadReg LSR in
  if Z.land v LSR_TX_IDLE =? 0 then ret (inl tt) else ret (inr tt).

Definition uartputc_sync (c : Z) : M U unit :=
  zoom hart_lens push_off ;;
  let! p := gets panicked in
  if negb (p =? 0) then hang
  else
    loop polls poll_body tt ;;
    WriteReg THR c ;;
    zoom hart_lens pop_off.

Definition uartgetc : M U Z :=
  let! v := ReadReg LSR in
  if negb (Z.land v 1 =? 0) then ReadReg RHR else ret (-1).

(** The end of uartintr(). *)
Definition uartintr_send : M U unit :=
  acquire_at me tx_lock_lens ;;
  uartstart ;;
  release_at me tx_lock_lens.

End Uart.

(** ** The bytes waiting to be sent *)

Section Queue.
Context {D : Type} `{UartDev D} `{!UartLaws D}.
Variable (me : Z) (polls : nat).
Local Notation U := (uart D).
Implicit Types s : U.

Definition tx_queue s : list Z := ring UART_TX_BUF_SIZE (2 ^ 64) (uart_tx_buf s) (uart_tx_r s) (uart_tx_w s).
Definition out s : list Z := sent (u_dev s).
Definition inp s : list Z := arrived (u_dev s).

Record tx_ok s : Prop := {
  tx_len : length (uart_tx_buf s) = Z.to_nat UART_TX_BUF_SIZE;
  tx_r : 0 <= uart_tx_r s < 2 ^ 64;
  tx_w : 0 <= uart_tx_w s < 2 ^ 64;
  tx_bound : ring_len (2 ^ 64) (uart_tx_r s) (uart_tx_w s) <= UART_TX_BUF_SIZE;
  tx_bytes : Forall is_byte (uart_tx_buf s)
}.

Lemma tx_div : (UART_TX_BUF_SIZE | 2 ^ 64).
Proof. by exists (2 ^ 59). Qed.

Lemma length_tx_queue s : Z.of_nat (length (tx_queue s)) = ring_len (2 ^ 64) (uart_tx_r s) (uart_tx_w s).
Proof. unfold tx_queue. rewrite length_ring, Z2Nat.id; [done|]. by apply ring_len_range. Qed.

Lemma tx_queue_bound s : tx_ok s -> (length (tx_queue s) <= 32)%nat.
Proof. intros Hs. pose proof (tx_bound s Hs) as Hb. rewrite <-length_tx_queue in Hb. unfold UART_TX_BUF_SIZE in Hb. lia. Qed.

Lemma tx_empty s : tx_ok s -> (uart_tx_w s =? uart_tx_r s) = (Z.of_nat (length (tx_queue s)) =? 0).
Proof.
  intros [_ Hr Hw _ _]. rewrite length_tx_queue, Z.eqb_sym. apply eq_true_iff_eq. rewrite !Z.eqb_eq.
  symmetry. apply ring_len_zero; done.
Qed.

Lemma tx_full s : tx_ok s -> (uart_tx_w s =? u64 (uart_tx_r s + UART_TX_BUF_SIZE)) = (Z.of_nat (length (tx_queue s)) =? 32).
Proof. intros [_ Hr Hw Hb _]. rewrite length_tx_queue. by apply ring_full. Qed.

Definition tx_pushed (c : Z) s : U :=
  set_tx (ring_set UART_TX_BUF_SIZE (uart_tx_buf s) (uart_tx_w s) c) (u64 (uart_tx_w s + 1)) (uart_tx_r s) s.
Definition tx_popped s : U := set_tx (uart_tx_buf s) (uart_tx_w s) (u64 (uart_tx_r s + 1)) s.

Lemma tx_pushed_ok c s :
  tx_ok s -> is_byte c -> (length (tx_queue s) < 32)%nat -> tx_ok (tx_pushed c s) /\ tx_queue (tx_pushed c s) = tx_queue s ++ [c].
Proof.
  intros [Hl Hr Hw Hb Hf] Hc Hlt. assert (Hlt' : ring_len (2 ^ 64) (uart_tx_r s) (uart_tx_w s) < UART_TX_BUF_SIZE).
  { rewrite <-length_tx_queue. unfold UART_TX_BUF_SIZE. lia. }
  split.
  - split; cbn.
    + by rewrite length_ring_set.
    + done.
    + auto with word.
    + unfold u64. rewrite ring_len_push; unfold UART_TX_BUF_SIZE in *; lia.
    + unfold ring_set. by apply Forall_insert.
  - unfold tx_queue, tx_pushed. cbn. apply ring_push; try done. apply tx_div.
Qed.

Lemma tx_popped_ok s :
  tx_ok s -> (0 < length (tx_queue s))%nat ->
  tx_ok (tx_popped s) /\ tx_queue s = ring_get UART_TX_BUF_SIZE (uart_tx_buf s) (uart_tx_r s) :: tx_queue (tx_popped s) /\
  is_byte (ring_get UART_TX_BUF_SIZE (uart_tx_buf s) (uart_tx_r s)).
Proof.
  intros [Hl Hr Hw Hb Hf] Hlt. assert (Hlt' : 0 < ring_len (2 ^ 64) (uart_tx_r s) (uart_tx_w s)) by (rewrite <-length_tx_queue; lia).
  split_and!.
  - split; cbn; try done; [auto with word|]. unfold u64. rewrite ring_len_pop; lia.
  - unfold tx_queue, tx_popped. cbn. apply ring_pop; try done. apply tx_div.
  - unfold ring_get. destruct (uart_tx_buf s !! _) eqn:E; cbn; [|done]. by eapply Forall_lookup_1 in E.
Qed.

(** What a routine may change besides the ring and the output: nothing but the
    device. *)
Record same_tx s s' : Prop := {
  sx_lock : uart_tx_lock s' = uart_tx_lock s;
  sx_panicked : panicked s' = panicked s;
  sx_inp : inp s' = inp s
}.

Lemma same_tx_refl s : same_tx s s.
Proof. done. Qed.
Lemma same_tx_trans s1 s2 s3 : same_tx s1 s2 -> same_tx s2 s3 -> same_tx s1 s3.
Proof. intros [A B C] [A' B' C']. split; congruence. Qed.

(** uartstart() sends a prefix of the queue. *)
Definition drained s s' : Prop :=
  tx_ok s' /\ same_tx s s' /\ u_hart s' = u_hart s /\
  exists k, out s' = out s ++ take k (tx_queue s) /\ tx_queue s' = drop k (tx_queue s).

Lemma wp_ReadReg r s (Q : Z -> U -> Prop) :
  Q (fst (dev_read r (u_dev s))) (set_dev (snd (dev_read r (u_dev s))) s) -> wp (ReadReg r) s Q.
Proof. unfold wp, ReadReg. by destruct (dev_read r (u_dev s)). Qed.

Lemma tx_ok_dev d s : tx_ok s -> tx_ok (set_dev d s).
Proof. intros []. by split. Qed.

Lemma wp_uartstart s (Q : unit -> U -> Prop) :
  tx_ok s -> (forall s', drained s s' -> Q tt s') -> wp uartstart s Q.
Proof.
  intros Hs HQ. unfold uartstart. pose proof (tx_queue_bound s Hs) as Hb.
  assert (Hf : (length (tx_queue s) < Z.to_nat UART_TX_BUF_SIZE + 1)%nat) by (unfold UART_TX_BUF_SIZE; lia).
  clear Hb. revert Hf. generalize (Z.to_nat UART_TX_BUF_SIZE + 1)%nat as fuel. intros fuel. revert s Hs HQ.
  induction fuel as [|fuel IH]; intros s Hs HQ Hf; [lia|]. rewrite loop_S. unfold uartstart_body at 1, wakeup.
  do 3 wp_step. unfold id. rewrite tx_empty by done. destruct (Z.eqb_spec (Z.of_nat (length (tx_queue s))) 0) as [E|E].
  { do 2 wp_step. apply HQ. split_and!; [done|done|done|]. exists O. by rewrite app_nil_r. }
  wp_step. apply wp_ReadReg. destruct (lsr_keeps (u_dev s)) as [K1 K2]. pose proof (lsr_tx (u_dev s)) as Hroom.
  pose proof (tx_ok_dev (snd (dev_read LSR (u_dev s))) s Hs) as Hs1. set (s1 := set_dev (snd (dev_read LSR (u_dev s))) s) in *.
  destruct (Z.eqb_spec (Z.land (fst (dev_read LSR (u_dev s))) LSR_TX_IDLE) 0) as [E0|E0].
  { do 2 wp_step. apply HQ. split_and!; [done|done|done|]. exists O. unfold out. cbn. by rewrite K1, app_nil_r. }
  specialize (Hroom E0). destruct (tx_popped_ok s Hs ltac:(lia)) as (P1 & P2 & P3).
  set (c := ring_get UART_TX_BUF_SIZE (uart_tx_buf s) (uart_tx_r s)) in *. do 2 wp_step. do 2 wp_step. unfold WriteReg. do 3 wp_step.
  rewrite (u8_small c) by exact P3. destruct (thr_sends (snd (dev_read LSR (u_dev s))) c Hroom) as [T1 T2].
  apply IH; cbn.
  - by apply (tx_ok_dev (dev_write THR c (snd (dev_read LSR (u_dev s))))) in P1.
  - intros s' (D1 & D2 & D3 & k & D4 & D5). apply HQ. split; [done|]. split; [|split; [done|]].
    + destruct D2 as [A B C]. split; [done|done|]. rewrite C. unfold inp. cbn. by rewrite T2.
    + exists (S k). rewrite P2. cbn [take drop]. split; [|done]. rewrite D4. unfold out. cbn. rewrite T1, K1, <-app_assoc. done.
  - change (length (tx_queue (tx_popped s)) < fuel)%nat. rewrite P2 in Hf. cbn in Hf. lia.
Qed.

(** The state with the lock taken, and given back. *)
Definition with_lock (l : spinlock) s : U := put tx_lock_lens l s.

Lemma tx_ok_lock l s : tx_ok s -> tx_ok (with_lock l s).
Proof. intros []. by split. Qed.

Lemma wp_tx_release lk s (Q : unit -> U -> Prop) :
  uart_tx_lock s = lock_taken me lk -> lock_free lk -> Q tt (with_lock lk s) -> wp (release_at me tx_lock_lens) s Q.
Proof. intros Hs Hf HQ. by eapply wp_release_at. Qed.

(** A call of a routine that takes the lock: [acc] is what it adds to the
    queue before uartstart(). *)
Definition sends_queue (acc : list Z) s s' : Prop :=
  tx_ok s' /\ same_tx s s' /\ u_hart s' = u_hart s /\
  exists k, out s' = out s ++ take k (tx_queue s ++ acc) /\ tx_queue s' = drop k (tx_queue s ++ acc).

Lemma wp_uartputc_put c lk s (Q : unit + unit -> U -> Prop) :
  tx_ok s -> uart_tx_lock s = lk -> lock_free lk ->
  (forall r s', match r with
     | inl _ => s' = s /\ length (tx_queue s) = 32%nat
     | inr _ => sends_queue [u8 c] s s' /\ (length (tx_queue s) < 32)%nat
     end -> Q r s') ->
  wp (uartputc_put me c) (with_lock (lock_taken me lk) s) Q.
Proof.
  intros Hs Hl Hf HQ. unfold uartputc_put. wp_step. wp_step. unfold id.
  rewrite tx_full by (by apply tx_ok_lock). change (tx_queue (with_lock _ s)) with (tx_queue s). pose proof (tx_queue_bound s Hs).
  destruct (Z.eqb_spec (Z.of_nat (length (tx_queue s))) 32) as [E|E].
  - wp_step. eapply wp_tx_release; [done|done|]. wp_step. apply HQ. split; [|lia]. subst lk. by destruct s.
  - destruct (tx_pushed_ok (u8 c) s Hs (u8_range c) ltac:(lia)) as [P1 P2].
    do 2 wp_step. do 2 wp_step. wp_step. apply wp_uartstart; [by apply (tx_ok_lock (lock_taken me lk)) in P1|].
    intros s' (D1 & D2 & D3 & k & D4 & D5). destruct D2 as [A B C]. wp_step. eapply wp_tx_release; [by rewrite A|done|].
    wp_step. apply HQ. split; [|lia]. split; [by apply tx_ok_lock|]. split; [|split; [done|]].
    + split; [by rewrite Hl|done|done].
    + exists k. rewrite <-P2. done.
Qed.

Lemma wp_uartputc c s (Q : unit + unit -> U -> Prop) :
  tx_ok s -> lock_free (uart_tx_lock s) -> panicked s = 0 ->
  (forall r s', match r with
     | inl _ => s' = s /\ length (tx_queue s) = 32%nat
     | inr _ => sends_queue [u8 c] s s' /\ (length (tx_queue s) < 32)%nat
     end -> Q r s') ->
  wp (uartputc me c) s Q.
Proof.
  intros Hs Hf Hp HQ. unfold uartputc. wp_step. apply wp_acquire_at; [done|]. do 2 wp_step.
  change (panicked _) with (panicked s). rewrite Hp. by apply (wp_uartputc_put _ (uart_tx_lock s)).
Qed.

Lemma wp_uartputc_resume c s (Q : unit + unit -> U -> Prop) :
  tx_ok s -> lock_free (uart_tx_lock s) ->
  (forall r s', match r with
     | inl _ => s' = s /\ length (tx_queue s) = 32%nat
     | inr _ => sends_queue [u8 c] s s' /\ (length (tx_queue s) < 32)%nat
     end -> Q r s') ->
  wp (uartputc_resume me c) s Q.
Proof.
  intros Hs Hf HQ. unfold uartputc_resume. wp_step. apply wp_acquire_at; [done|]. by apply (wp_uartputc_put _ (uart_tx_lock s)).
Qed.

Lemma wp_uartintr_send s (Q : unit -> U -> Prop) :
  tx_ok s -> lock_free (uart_tx_lock s) -> (forall s', sends_queue [] s s' -> Q tt s') -> wp (uartintr_send me) s Q.
Proof.
  intros Hs Hf HQ. unfold uartintr_send. wp_step. apply wp_acquire_at; [done|]. wp_step.
  apply wp_uartstart; [by apply tx_ok_lock|]. intros s' (D1 & [A B C] & D3 & k & D4 & D5).
  eapply wp_tx_release; [by rewrite A|done|]. apply HQ. split; [by apply tx_ok_lock|]. split; [by split|]. split; [done|].
  exists k. by rewrite app_nil_r.
Qed.

(** ** Polled output *)

(** The device answers a poll in time. *)
Definition patient : Prop := forall d : D, (busy d < polls)%nat.

(** The CPU's interrupt nesting can take one more level. *)
Definition hart_fine (h : hart) : Prop := hart_ok h /\ noff h < 2 ^ 31 - 1.

(** Output was sent past the queue, and nothing else happened. *)
Record emits (bs : list Z) s s' : Prop := {
  em_out : out s' = out s ++ bs;
  em_same : same_tx s s';
  em_ring : uart_tx_buf s' = uart_tx_buf s /\ uart_tx_w s' = uart_tx_w s /\ uart_tx_r s' = uart_tx_r s;
  em_sie : sstatus (u_hart s') = sstatus (u_hart s);
  em_noff : noff (u_hart s') = noff (u_hart s)
}.

Lemma emits_nil s : emits [] s s.
Proof. split; [by rewrite app_nil_r|done..]. Qed.

Lemma emits_app b1 b2 s1 s2 s3 : emits b1 s1 s2 -> emits b2 s2 s3 -> emits (b1 ++ b2) s1 s3.
Proof.
  intros [A B (C1 & C2 & C3) E F] [A' B' (C1' & C2' & C3') E' F']. split; [|by eapply same_tx_trans|split_and!|..]; try congruence.
  rewrite A', A. by rewrite app_assoc.
Qed.

Lemma emits_fine bs s s' : emits bs s s' -> hart_fine (u_hart s) -> hart_fine (u_hart s').
Proof. intros [_ _ _ E1 E2] [(A & B & C) Hn]. unfold hart_fine, hart_ok, intr_get in *. rewrite E1, E2. done. Qed.

Lemma wp_poll s (Q : unit -> U -> Prop) :
  patient -> (forall d, room d -> sent d = sent (u_dev s) -> arrived d = arrived (u_dev s) -> Q tt (set_dev d s)) ->
  wp (loop polls poll_body tt) s Q.
Proof.
  intros Hp. specialize (Hp (u_dev s)). revert s Hp. generalize polls as fuel. induction fuel as [|fuel IH]; intros s Hf HQ; [lia|].
  rewrite loop_S. unfold poll_body at 1. do 2 wp_step. apply wp_ReadReg. destruct (lsr_keeps (u_dev s)) as [K1 K2].
  destruct (Z.eqb_spec (Z.land (fst (dev_read LSR (u_dev s))) LSR_TX_IDLE) 0) as [E|E]; wp_step.
  - apply lsr_busy in E. apply IH; [cbn; lia|]. intros d R1 R2 R3. cbn in *. change (set_dev d (set_dev _ s)) with (set_dev d s).
    apply HQ; congruence.
  - wp_step. apply lsr_tx in E. by apply HQ.
Qed.

Lemma wp_uartputc_sync c s (Q : unit -> U -> Prop) :
  patient -> panicked s = 0 -> hart_fine (u_hart s) -> (forall s', emits [u8 c] s s' -> Q tt s') -> wp (uartputc_sync polls c) s Q.
Proof.
  intros Hp Hpan [Hok Hn] HQ. unfold uartputc_sync. wp_step. apply wp_zoom. unfold wp at 1. cbn [view hart_lens].
  destruct Hok as (H0 & H1 & H2). rewrite push_off_eq by lia. do 2 wp_step. change (panicked _) with (panicked s). rewrite Hpan.
  wp_step. wp_step. apply wp_poll; [done|]. intros d R1 R2 R3. wp_step. unfold WriteReg. wp_step. apply wp_zoom. unfold wp.
  destruct (pop_pushed (u_hart s) (pushed (u_hart s))) as (h & E & Hs & Hno & _); try done. cbn. rewrite E.
  destruct (thr_sends d (u8 c) R1) as [T1 T2]. apply HQ. split; [| |done|done|done].
  - unfold out. cbn. by rewrite T1, R2.
  - split; [done|done|]. unfold inp. cbn. by rewrite T2, R3.
Qed.

Lemma wp_uartgetc s (Q : Z -> U -> Prop) :
  (forall d, sent d = out s -> match inp s with
     | [] => arrived d = [] -> Q (-1) (set_dev d s)
     | c :: cs => is_byte c -> arrived d = cs -> Q c (set_dev d s)
     end) -> wp uartgetc s Q.
Proof.
  intros HQ. unfold uartgetc. wp_step. apply wp_ReadReg. destruct (lsr_keeps (u_dev s)) as [K1 K2].
  pose proof (lsr_rx (u_dev s)) as Hrx. unfold out, inp in HQ. destruct (arrived (u_dev s)) as [|c cs] eqn:E.
  - rewrite (proj2 Hrx eq_refl). wp_step. by apply HQ.
  - destruct (Z.eqb_spec (Z.land (fst (dev_read LSR (u_dev s))) 1) 0) as [E0|E0]; [by apply Hrx in E0|]. cbn [negb].
    apply wp_ReadReg. cbn. destruct (rhr_takes (snd (dev_read LSR (u_dev s))) c cs) as (R1 & R2 & R3); [congruence|]. rewrite R1.
    pose proof (arrived_bytes (u_dev s)) as Hb. rewrite E in Hb. apply HQ; [congruence|by inversion Hb|done].
Qed.

End Queue.

(** ** Any sequence of senders and interrupts *)

(** The driver with its history: the bytes accepted by uartputc(), the bytes
    given to uartputc_sync(), and what went out on the line, each byte with
    whether it came from the queue. *)
Section History.
Context {D : Type} `{UartDev D} `{!UartLaws D}.
Variable (polls : nat).
Local Notation U := (uart D).
Implicit Types s : U.

Record history := mkHist { h_uart : U; h_accepted : list Z; h_polled : list Z; h_line : list (bool * Z) }.

Definition new_out (queued : bool) s s' : list (bool * Z) := map (pair queued) (drop (length (out s)) (out s')).

(** The steps are calls on any CPU, the arrival of input or the passing of
    time, and the move to another CPU. *)
Inductive uart_step : history -> history -> Prop :=
| ustep_putc me c s r s' a p l : uartputc me c s = Ok r s' ->
    uart_step (mkHist s a p l) (mkHist s' (a ++ (if r then [] else [u8 c])) p (l ++ new_out true s s'))
| ustep_resume me c s r s' a p l : uartputc_resume me c s = Ok r s' ->
    uart_step (mkHist s a p l) (mkHist s' (a ++ (if r then [] else [u8 c])) p (l ++ new_out true s s'))
| ustep_intr me s s' a p l : uartintr_send me s = Ok tt s' ->
    uart_step (mkHist s a p l) (mkHist s' a p (l ++ new_out true s s'))
| ustep_sync c s s' a p l : hart_fine (u_hart s) -> uartputc_sync polls c s = Ok tt s' ->
    uart_step (mkHist s a p l) (mkHist s' a (p ++ [u8 c]) (l ++ new_out false s s'))
| ustep_time d s a p l : sent d = out s -> uart_step (mkHist s a p l) (mkHist (set_dev d s) a p l)
| ustep_cpu h s a p l : uart_step (mkHist s a p l) (mkHist (put hart_lens h s) a p l).

Definition from_queue (l : list (bool * Z)) : list Z := map snd (List.filter fst l).
Definition from_polls (l : list (bool * Z)) : list Z := map snd (List.filter (fun x => negb (fst x)) l).

Lemma from_new b1 l s s' :
  from_queue (l ++ new_out b1 s s') = from_queue l ++ (if b1 then drop (length (out s)) (out s') else []) /\
  from_polls (l ++ new_out b1 s s') = from_polls l ++ (if b1 then [] else drop (length (out s)) (out s')).
Proof.
  unfold from_queue, from_polls, new_out. rewrite !List.filter_app, !map_app. generalize (drop (length (out s)) (out s')) as bs.
  intros bs. destruct b1; split; f_equal; induction bs as [|x bs IH]; cbn; by rewrite ?IH.
Qed.

Record tx_fifo (out0 : list Z) (g : history) : Prop := {
  tf_ok : tx_ok (h_uart g);
  tf_lock : lock_free (uart_tx_lock (h_uart g));
  tf_up : panicked (h_uart g) = 0;
  tf_queue : h_accepted g = from_queue (h_line g) ++ tx_queue (h_uart g);
  tf_polls : h_polled g = from_polls (h_line g);
  tf_line : out (h_uart g) = out0 ++ map snd (h_line g)
}.

Lemma line_grows out0 b1 l s s' ys : out s = out0 ++ map snd l -> out s' = out s ++ ys ->
  drop (length (out s)) (out s') = ys /\ out s' = out0 ++ map snd (l ++ new_out b1 s s').
Proof.
  intros E1 E2. unfold new_out. rewrite E2, drop_app_length. split; [done|]. rewrite map_app, map_map, map_id, E1. by rewrite app_assoc.
Qed.

Lemma sends_fifo out0 acc s s' a p l :
  tx_fifo out0 (mkHist s a p l) -> sends_queue acc s s' -> tx_fifo out0 (mkHist s' (a ++ acc) p (l ++ new_out true s s')).
Proof.
  intros [Hs Hl Hp Ha Hq Ho] (D1 & [A B C] & D3 & k & D4 & D5). cbn [h_uart h_accepted h_polled h_line] in *.
  destruct (line_grows out0 true l s s' _ Ho D4) as [N1 N2]. destruct (from_new true l s s') as [F1 F2].
  split; cbn [h_uart h_accepted h_polled h_line]; [done|by rewrite A|congruence| |by rewrite F2, app_nil_r|done].
  rewrite F1, N1, D5, Ha. by rewrite <-!app_assoc, take_drop.
Qed.

Lemma fifo_same out0 s a p l : tx_fifo out0 (mkHist s a p l) -> tx_fifo out0 (mkHist s (a ++ []) p (l ++ new_out true s s)).
Proof. unfold new_out. rewrite drop_ge by done. by rewrite !app_nil_r. Qed.

Lemma emits_fifo out0 bs s s' a p l :
  tx_fifo out0 (mkHist s a p l) -> emits bs s s' -> tx_fifo out0 (mkHist s' a (p ++ bs) (l ++ new_out false s s')).
Proof.
  intros [Hs Hl Hp Ha Hq Ho] [E1 [A B C] (R1 & R2 & R3) _ _]. cbn [h_uart h_accepted h_polled h_line] in *.
  destruct (line_grows out0 false l s s' _ Ho E1) as [N1 N2]. destruct (from_new false l s s') as [F1 F2].
  split; cbn [h_uart h_accepted h_polled h_line]; [|by rewrite A|congruence| |by rewrite F2, N1, Hq|done].
  - destruct Hs. split; rewrite ?R1, ?R2, ?R3; done.
  - rewrite F1, app_nil_r, Ha. unfold tx_queue. by rewrite R1, R2, R3.
Qed.

Lemma tx_fifo_step out0 g g' : patient (D := D) polls -> tx_fifo out0 g -> uart_step g g' -> tx_fifo out0 g'.
Proof.
  intros Hpat Hg Hs. destruct Hs as [me c s r s' a p l E|me c s r s' a p l E|me s s' a p l E|c s s' a p l Hh E|d s a p l Hd|h s a p l];
    pose proof Hg as [Hs Hl Hp Ha Hq Ho]; cbn [h_uart h_accepted h_polled h_line] in *.
  1,2: apply (wp_run _ _ _ _ (fun (r : unit + unit) s' => tx_fifo out0 (mkHist s' (a ++ (if r then [] else [u8 c])) p (l ++ new_out true s s'))) E);
    first [apply wp_uartputc; [done..|] | apply wp_uartputc_resume; [done..|]];
    (intros [[]|[]] s2; [intros [-> _]; by apply fifo_same|intros [Hsq _]; by apply sends_fifo]).
  - apply (wp_run _ _ _ _ (fun _ s' => tx_fifo out0 (mkHist s' a p (l ++ new_out true s s'))) E).
    apply wp_uartintr_send; [done..|]. intros s2 Hsq. rewrite <-(app_nil_r a). by apply sends_fifo.
  - apply (wp_run _ _ _ _ (fun _ s' => tx_fifo out0 (mkHist s' a (p ++ [u8 c]) (l ++ new_out false s s'))) E).
    apply wp_uartputc_sync; [done..|]. intros s2 He. by apply emits_fifo.
  - split; cbn [h_uart h_accepted h_polled h_line]; try done; [by apply tx_ok_dev|]. rewrite <-Ho, <-Hd. done.
  - split; cbn [h_uart h_accepted h_polled h_line]; try done. by destruct Hs.
Qed.

(** C20: no output is lost or reordered.  Whatever sequence of calls of
    uartputc() that return, sleep or resume, of transmit interrupts and of
    polled output runs, on any CPUs, each call to its end, with input arriving
    and time passing between them: what has gone out on the line is made of
    the bytes accepted by uartputc(), in order, up to the at most 32 that are
    still in the ring, and of the bytes given to uartputc_sync(), in order.
    The device promises to send a byte only when it has room for it, so this
    needs the check of the status register before every write of the transmit
    register. *)
Theorem uart_fifo s g :
  patient (D := D) polls -> tx_ok s -> lock_free (uart_tx_lock s) -> panicked s = 0 -> tx_queue s = [] ->
  rtc uart_step (mkHist s [] [] []) g ->
  out (h_uart g) = out s ++ map snd (h_line g) /\
  h_accepted g = from_queue (h_line g) ++ tx_queue (h_uart g) /\ (length (tx_queue (h_uart g)) <= 32)%nat /\
  h_polled g = from_polls (h_line g) /\ lock_free (uart_tx_lock (h_uart g)).
Proof.
  intros Hpat Hs Hl Hp Hq Hr. assert (Hi : tx_fifo (out s) (mkHist s [] [] [])) by (split; cbn; by rewrite ?Hq, ?app_nil_r).
  assert (Hf : tx_fifo (out s) g) by (revert Hi; generalize (out s); induction Hr; eauto using tx_fifo_step).
  destruct Hf as [Hs' Hl' _ Ha Hpo Ho]. split_and!; [done|done|by apply tx_queue_bound|done|done].
Qed.

End History.

(** ** A device that is busy for one poll after each byte *)
Module UartDemo.

(** A byte that is written while one is being sent is lost. *)
Record sim := mkSim { line : list Z; keys : list Z; sending : bool }.

#[global] Instance sim_dev : UartDev sim := {
  dev_read r d :=
    if r =? LSR then
      ((if sending d then 0 else LSR_TX_IDLE) + (if keys d then 0 else 1), mkSim (line d) (keys d) false)
    else
      match keys d with [] => (0, d) | c :: cs => (u8 c, mkSim (line d) cs (sending d)) end;
  dev_write r c d := if r =? THR then mkSim (if sending d then line d else line d ++ [c]) (keys d) true else d
}.

Lemma sim_busy (d : sim) :
  Z.land (fst (dev_read LSR d)) LSR_TX_IDLE = 0 -> ((if sending (snd (dev_read LSR d)) then 1 else 0) < (if sending d then 1 else 0))%nat.
Proof. destruct d as [l [|k ks] []]; vm_compute; intros; first [lia|discriminate]. Qed.

Lemma sim_room (d : sim) : Z.land (fst (dev_read LSR d)) LSR_TX_IDLE <> 0 -> sending (snd (dev_read LSR d)) = false.
Proof. done. Qed.

#[global] Instance sim_laws : UartLaws sim.
Proof.
  refine {| sent := line; arrived d := map u8 (keys d); busy d := if sending d then 1%nat else 0%nat;
    room d := sending d = false; lsr_busy := sim_busy; lsr_tx := sim_room |}.
  - done.
  - by intros [l [|k ks] []].
  - intros [l [|k ks] b] c cs; cbn; [done|]. by intros [= <- <-].
  - intros d. apply Forall_map, Forall_true. intros x. apply u8_range.
  - intros d c Hd. cbn. by rewrite Hd.
Defined.

Definition idle (keys : list Z) : uart sim :=
  mkUart (initlock "uart") (replicate 32 0) 0 0 0 (mkHart 2 0 0) (mkSim [] keys false).

Definition run {A} (m : M (uart sim) A) (s : uart sim) : uart sim := match m s with Ok _ s' => s' | _ => s end.
Definition one_put : uart sim := run (uartputc 0 97) (idle []).
Definition two_puts : uart sim := run (uartputc 0 98) one_put.
Definition and_polled : uart sim := run (uartputc_sync 2 99) two_puts.

(** Two bytes through the ring, of which the second has to wait, and one that
    is polled. *)
Lemma uart_fifo_witness :
  line (u_dev and_polled) = [97; 99] /\ tx_queue and_polled = [98] /\
  out and_polled = [] ++ map snd [(true, 97); (false, 99)].
Proof.
  split; [by vm_compute|]. split; [by vm_compute|].
  refine (proj1 (uart_fifo 2 (idle []) (mkHist and_polled [97; 98] [99] [(true, 97); (false, 99)]) _ _ _ _ _ _)).
  - intros [? ? []]; cbn; lia.
  - by repeat constructor.
  - done.
  - done.
  - done.
  - eapply rtc_l; [apply (ustep_putc 2 0 97 (idle []) (inr tt) one_put); reflexivity|].
    eapply rtc_l; [apply (ustep_putc 2 0 98 one_put (inr tt) two_puts); by vm_compute|].
    eapply rtc_l; [apply (ustep_sync 2 99 two_puts and_polled); [by vm_compute|by vm_compute]|].
    match goal with |- rtc _ ?x ?y => replace x with y by (by vm_compute) end. apply rtc_refl.
Defined.

(** uartputc_sync() takes no lock.  When two CPUs have both found the
    transmitter idle before either writes, one of the bytes is lost. *)
Lemma poll_race :
  let s := idle [] in
  let s1 := run (poll_body tt) s in
  let s2 := run (poll_body tt) s1 in
  poll_body tt s = Ok (inr tt) s1 /\ poll_body tt s1 = Ok (inr tt) s2 /\
  line (u_dev (run (WriteReg THR 98) (run (WriteReg THR 97) s2))) = [97].
Proof. by vm_compute. Qed.

End UartDemo.
