(* ===== verification/Format.v ===== *)
(** * Formatted numbers and strings (printint and printptr of kernel/printf.c
    and of user/printf.c)

    The kernel and the user library have their own printf, whose routines for
    numbers differ in where a character goes and in the digit characters only:
    here they are translated once, for a [putc] and a table [digs].
    [printint] keeps the 16-byte buffer of the source, and a store past its
    end has no result, so that a theorem that the routine returns shows the
    buffer to be large enough.  [Sink] is what the theorems need of the place
    the characters go to. *)

From Stdlib Require Import Ascii.
From S2P Require Import Prelude.

(** The code of a character. *)
Definition ch (a : ascii) : Z := Z.of_N (N_of_ascii a).
Definition bytes_of (s : string) : list Z := map ch (String.list_ascii_of_string s).

Section Format.
Context {St : Type} (putc : Z -> M St unit) (digs : list Z).

Definition digit_of (d : Z) : Z := default 0 (digs !! Z.to_nat d).

(** One turn of [do { buf[i++] = digits[x % base]; } while((x /= base) != 0)];
    the digits are stored from the last to the first. *)
Definition digit_step (base : Z) (v : Z * list Z * Z) : M St (Z * list Z * Z + Z * list Z) :=
  let '(i, buf, x) := v in
  if i <? 16 then
    let buf := <[Z.to_nat i := digit_of (x mod base)]> buf in
    let x := x / base in
    if negb (x =? 0) then ret (inl (i + 1, buf, x)) else ret (inr (i + 1, buf))
  else hang.

(** [while(--i >= 0) putc(buf[i]);] *)
Fixpoint put_back (buf : list Z) (i : nat) : M St unit :=
  match i with
  | O => ret tt
  | S i => putc (default 0 (buf !! i)) ;; put_back buf i
  end.

(** [buf] is what the stack held. *)
Definition put_int (buf : list Z) (xx base sign : Z) : M St unit :=
  let sign := negb (sign =? 0) && (xx <? 0) in
  let x := if sign then u32 (i32 (- xx)) else u32 xx in
  let! v := loop 33 (digit_step base) (0, buf, x) in
  let '(i, buf) := v in
  if sign then
    if i <? 16 then put_back (<[Z.to_nat i := 45]> buf) (Z.to_nat (i + 1)) else hang
  else put_back buf (Z.to_nat i).

(** The loop of printptr(), with [n] digits to go. *)
Fixpoint put_ptr_digits (n : nat) (x : Z) : M St unit :=
  match n with
  | O => ret tt
  | S n => putc (digit_of (Z.shiftr x 60)) ;; put_ptr_digits n (u64 (Z.shiftl x 4))
  end.

Definition put_ptr (x : Z) : M St unit :=
  putc 48 ;; putc 120 ;; put_ptr_digits 16 x.

(** [for(; *s; s++) putc( *s);] *)
Fixpoint put_string (s : list Z) : M St unit :=
  match s with
  | [] => ret tt
  | c :: s => if c =? 0 then ret tt else putc c ;; put_string s
  end.

End Format.

(** ** Numerals *)

(** [ds] is the numeral of [n] in base [base], most significant digit first. *)
Definition value (base : Z) (ds : list Z) : Z := fold_left (fun v d => v * base + d) ds 0.
Definition numeral (base n : Z) (ds : list Z) : Prop :=
  value base ds = n /\ Forall (fun d => 0 <= d < base) ds /\ ds <> [] /\ (head ds = Some 0 -> ds = [0]).

(** The digits of [x], least significant first, as the loop stores them. *)
Lemma value_snoc base ds d : value base (ds ++ [d]) = value base ds * base + d.
Proof. unfold value. by rewrite fold_left_app. Qed.

Lemma numeral_step base x ds :
  1 < base -> 0 < x / base -> numeral base (x / base) ds -> numeral base x (ds ++ [x mod base]).
Proof.
  intros Hb Hx (Hv & Hf & Hne & Hh). split; [|split; [|split]].
  - rewrite value_snoc, Hv. pose proof (Z.div_mod x base). lia.
  - apply Forall_app. split; [done|]. constructor; [|done]. by apply Z.mod_pos_bound; lia.
  - by destruct ds.
  - destruct ds as [|d ds]; [done|]. cbn. intros [= ->]. specialize (Hh eq_refl). injection Hh as ->. cbn in Hv. lia.
Qed.

Lemma numeral_one base x : 0 <= x < base -> numeral base x [x].
Proof. intros Hx. split; [unfold value; cbn; lia|]. split; [by constructor|]. split; [done|]. by intros [= ->]. Qed.

(** The numeral of [x], which has at most [m] digits. *)
Fixpoint to_digits (m : nat) (base x : Z) : list Z :=
  match m with
  | O => []
  | S m => (if x / base =? 0 then [] else to_digits m base (x / base)) ++ [x mod base]
  end.

Lemma to_digits_numeral base m x : 1 < base -> (1 <= m)%nat -> 0 <= x < base ^ Z.of_nat m -> numeral base x (to_digits m base x).
Proof.
  intros Hb. revert x. induction m as [|m IH]; intros x Hm Hx; [lia|]. cbn [to_digits]. assert (Hdx : 0 <= x / base) by (apply Z.div_pos; lia).
  destruct (Z.eqb_spec (x / base) 0) as [E|E].
  - assert (x < base) by (apply Z.div_small_iff in E; lia). rewrite app_nil_l, Z.mod_small by lia. apply numeral_one. lia.
  - apply numeral_step; [lia|lia|]. apply IH.
    + destruct m; [|lia]. exfalso. apply E, Z.div_small. rewrite Z.pow_1_r in Hx. lia.
    + split; [done|]. apply Z.div_lt_upper_bound; [lia|]. rewrite Nat2Z.inj_succ, Z.pow_succ_r in Hx by lia. lia.
Qed.

Lemma length_to_digits m base x : (length (to_digits m base x) <= m)%nat.
Proof. revert x. induction m as [|m IH]; intros x; cbn; [done|]. rewrite length_app. specialize (IH (x / base)). destruct (_ =? 0); cbn; lia. Qed.

Lemma top_digit x : 0 <= x < 2 ^ 64 -> Z.shiftr x 60 = Z.shiftr x 60 mod 16.
Proof.
  intros Hx. rewrite Z.mod_small; [done|]. rewrite Z.shiftr_div_pow2 by lia.
  split; [apply Z.div_pos; lia|apply Z.div_lt_upper_bound; lia].
Qed.

Lemma next_digit x k : 0 <= k < 15 -> Z.shiftr (u64 (Z.shiftl x 4)) (60 - 4 * k) mod 16 = Z.shiftr x (60 - 4 * (k + 1)) mod 16.
Proof.
  intros Hk. change 16 with (2 ^ 4). rewrite <-!Z.land_ones by lia. unfold u64. rewrite <-Z.land_ones by lia.
  apply Z.bits_inj'. intros n Hn. rewrite !Z.land_spec. destruct (decide (n < 4)).
  - rewrite !Z.shiftr_spec, Z.land_spec, Z.shiftl_spec, !Z.ones_spec_low, !andb_true_r by lia. f_equal. lia.
  - by rewrite !Z.ones_spec_high, !andb_false_r by lia.
Qed.

(** The number printint() prints. *)
Definition int_value (xx sign : Z) : Z := if negb (sign =? 0) then Z.abs xx else u32 xx.
Lemma printint_magnitude base xx sign :
  5 <= base -> - 2 ^ 31 <= xx < 2 ^ 31 ->
  let sg := negb (sign =? 0) && (xx <? 0) in
  let x := if sg then u32 (i32 (- xx)) else u32 xx in
  x = int_value xx sign /\ 0 <= x < base ^ 14.
Proof.
  intros Hb Hx sg x. assert (Hr : 0 <= x < 2 ^ 32) by (unfold x; destruct sg; apply u32_range).
  split; [|split; [lia|]; apply (Z.lt_le_trans _ (5 ^ 14)); [lia|by apply Z.pow_le_mono_l]].
  unfold x, sg, int_value. destruct (sign =? 0); cbn; [done|]. destruct (Z.ltb_spec xx 0) as [Hlt|Hge].
  - rewrite Z.abs_neq by lia. destruct (decide (xx = - 2 ^ 31)) as [->|]; [done|]. rewrite i32_small, u32_small by lia. done.
  - rewrite Z.abs_eq by lia. rewrite u32_small by lia. done.
Qed.

(** ** What is printed *)

(** A place characters are sent to: when it can be used, and what sending
    does to it. *)
Class Sink (St : Type) := {
  ready : St -> Prop;
  sends : list Z -> St -> St -> Prop;
  sends_nil : forall s, sends [] s s;
  sends_app : forall a b s s' s'', sends a s s' -> sends b s' s'' -> sends (a ++ b) s s'';
  sends_ready : forall a s s', sends a s s' -> ready s -> ready s'
}.

Section Prints.
Context {St : Type} `{!Sink St} (putc : Z -> M St unit) (digs : list Z).
Context (Hdigs : Forall is_byte digs).
Notation digit := (digit_of digs).

(** [m] sends exactly [bs]. *)
Definition prints (m : M St unit) (bs : list Z) : Prop :=
  forall s, ready s -> wp m s (fun _ s' => sends bs s s').

Lemma prints_ret : prints (ret tt) [].
Proof. intros s Hs. wp_step. apply sends_nil. Qed.

Lemma prints_seq m k b1 b2 : prints m b1 -> prints k b2 -> prints (m ;; k) (b1 ++ b2).
Proof.
  intros Hm Hk s Hs. wp_step. eapply wp_mono; [by apply Hm|]. intros [] s1 He. cbn beta.
  eapply wp_mono; [apply Hk; by eapply sends_ready|]. intros [] s2 He2. by eapply sends_app.
Qed.

Context (Hputc : forall c, is_byte c -> prints (putc c) [c]).

Lemma put_back_prints (buf : list Z) bs i :
  Forall is_byte bs -> length bs = i -> (forall k, (k < i)%nat -> buf !! k = rev bs !! k) -> prints (put_back putc buf i) bs.
Proof.
  revert bs. induction i as [|i IH]; intros bs Hb Hl Hk.
  { destruct bs; [apply prints_ret|done]. }
  destruct bs as [|b bs]; [done|]. cbn [put_back]. injection Hl as Hl. inversion Hb; subst. rewrite Hk by lia.
  cbn [rev]. rewrite lookup_app_r by (rewrite length_rev; lia). rewrite length_rev, Nat.sub_diag. cbn.
  apply (prints_seq _ _ [b]); [by apply Hputc|]. apply IH; [done|done|]. intros k Hlt. rewrite Hk by lia. cbn [rev].
  rewrite lookup_app_l by (rewrite length_rev; lia). done.
Qed.

Lemma wp_digits base m x i buf fuel (s : St) (Q : Z * list Z -> St -> Prop) :
  1 < base -> 0 <= x < base ^ Z.of_nat m -> (1 <= m)%nat -> (i + m <= 16)%nat -> length buf = 16%nat -> (m <= fuel)%nat ->
  (forall buf', length buf' = 16%nat -> take i buf' = take i buf ->
     (forall k d, rev (to_digits m base x) !! k = Some d -> buf' !! (i + k)%nat = Some (digit d)) ->
     Q (Z.of_nat (i + length (to_digits m base x)), buf') s) ->
  wp (loop fuel (digit_step digs base) (Z.of_nat i, buf, x)) s Q.
Proof.
  intros Hb. revert x i buf fuel. induction m as [|m IH]; intros x i buf fuel Hx Hm Him Hl Hf HQ; [lia|].
  destruct fuel as [|fuel]; [lia|]. rewrite loop_S. unfold digit_step at 1. rewrite (proj2 (Z.ltb_lt _ _)) by lia. rewrite Nat2Z.id.
  cbn [to_digits] in HQ. assert (Hdx : 0 <= x / base) by (apply Z.div_pos; lia).
  set (buf1 := <[i := digit (x mod base)]> buf) in *. assert (Hl1 : length buf1 = 16%nat) by (unfold buf1; by rewrite length_insert).
  assert (Hi1 : buf1 !! i = Some (digit (x mod base))) by (apply list_lookup_insert_eq; lia).
  assert (Ht1 : take i buf1 = take i buf) by (apply take_insert_ge; lia).
  wp_step. destruct (Z.eqb_spec (x / base) 0) as [E|E]; cbn [negb]; wp_step.
  - wp_step. replace (Z.of_nat i + 1) with (Z.of_nat (i + 1)) by lia. apply (HQ buf1 Hl1 Ht1).
    intros [|k] d; [|done]. intros [= <-]. by rewrite Nat.add_0_r, Hi1.
  - rewrite length_app in HQ. cbn [length] in HQ. assert (Hm1 : (1 <= m)%nat). { destruct m; [|lia]. exfalso. apply E, Z.div_small. rewrite Z.pow_1_r in Hx. lia. }
    replace (Z.of_nat i + 1) with (Z.of_nat (S i)) by lia. apply IH; [|done|lia|done|lia|].
    + split; [done|]. apply Z.div_lt_upper_bound; [lia|]. rewrite Nat2Z.inj_succ, Z.pow_succ_r in Hx by lia. lia.
    + intros buf' Hl' Ht Hk. assert (Hlk : forall k, (k < S i)%nat -> buf' !! k = buf1 !! k).
      { intros k Hlt. rewrite <-(lookup_take_lt buf' (S i)), Ht by lia. by apply lookup_take_lt. }
      replace (S i + length (to_digits m base (x / base)))%nat with (i + (length (to_digits m base (x / base)) + 1))%nat by lia.
      apply HQ; [done| |].
      * rewrite <-Ht1. apply list_eq. intros k. destruct (decide (k < i)%nat); [|by rewrite !lookup_take_ge by lia].
        rewrite !lookup_take_lt by lia. apply Hlk. lia.
      * intros [|k] d; rewrite rev_app_distr; cbn.
        -- intros [= <-]. rewrite Nat.add_0_r, Hlk by lia. done.
        -- intros Hd. rewrite <-Nat.add_succ_comm. by apply Hk.
Qed.

Lemma digit_byte d : is_byte (digit d).
Proof. unfold digit_of. destruct (digs !! Z.to_nat d) eqn:E; [|done]. cbn. by eapply Forall_lookup_1 in E. Qed.

(** What printint() prints. *)
Definition int_text (base xx sign : Z) : list Z :=
  (if negb (sign =? 0) && (xx <? 0) then [ch "-"] else []) ++ map digit (to_digits 14 base (int_value xx sign)).

Lemma prints_put_int buf base xx sign :
  5 <= base -> - 2 ^ 31 <= xx < 2 ^ 31 -> length buf = 16%nat -> prints (put_int putc digs buf xx base sign) (int_text base xx sign).
Proof.
  intros Hb Hx Hl s Hs. destruct (printint_magnitude base xx sign ltac:(lia) Hx) as [Em Hm]. unfold put_int, int_text.
  set (sg := negb (sign =? 0) && (xx <? 0)) in *. set (x := if sg then _ else _) in *. rewrite <-Em. clearbody x.
  wp_step. pose proof (length_to_digits 14 base x) as Hlen. set (ds := to_digits 14 base x) in *.
  apply (wp_digits base 14 x 0%nat); [lia|done|lia|lia|done|lia|]. fold ds. intros buf' Hl' _ Hk.
  assert (Hbs : Forall is_byte (map digit ds)) by (apply Forall_map, Forall_true, digit_byte).
  assert (Hrev : forall k, (k < length ds)%nat -> buf' !! k = rev (map digit ds) !! k).
  { intros k Hlt. destruct (lookup_lt_is_Some_2 (rev ds) k) as [d Hd]; [by rewrite length_rev|]. cbn in Hk. rewrite (Hk k d Hd).
    rewrite <-map_rev, list_lookup_fmap, Hd. done. }
  cbn [Nat.add]. destruct sg; cbn [app].
  - rewrite (proj2 (Z.ltb_lt _ _)) by lia. replace (Z.to_nat (Z.of_nat (length ds) + 1)) with (S (length ds)) by lia. rewrite Nat2Z.id.
    apply put_back_prints; [by constructor|by rewrite length_cons, length_map| |done]. intros k Hlt. cbn [rev].
    destruct (decide (k = length ds)) as [->|].
    + rewrite list_lookup_insert_eq by lia. rewrite lookup_app_r by (rewrite length_rev, length_map; lia).
      by rewrite length_rev, length_map, Nat.sub_diag.
    + rewrite list_lookup_insert_ne by lia. rewrite lookup_app_l by (rewrite length_rev, length_map; lia). apply Hrev. lia.
  - rewrite Nat2Z.id. by apply put_back_prints; [|by rewrite length_map| |].
Qed.

(** A character a string can hold. *)
Definition plain (c : Z) : Prop := is_byte c /\ c <> 0.

Lemma prints_put_string bs : Forall plain bs -> prints (put_string putc bs) bs.
Proof.
  induction 1 as [|c bs [Hc Hz] _ IH]; [apply prints_ret|]. cbn [put_string]. rewrite (proj2 (Z.eqb_neq _ _) Hz).
  apply (prints_seq _ _ [c]); [by apply Hputc|done].
Qed.

(** The sixteen hexadecimal digits of a 64-bit number. *)
Definition hex16 (x : Z) : list Z := map (fun k => digit (Z.shiftr x (60 - 4 * k) mod 16)) (seqZ 0 16).

Lemma prints_digits n x :
  (n <= 16)%nat -> 0 <= x < 2 ^ 64 ->
  prints (put_ptr_digits putc digs n x) (map (fun k => digit (Z.shiftr x (60 - 4 * k) mod 16)) (seqZ 0 (Z.of_nat n))).
Proof.
  revert x. induction n as [|n IH]; intros x Hn Hx; [apply prints_ret|]. cbn [put_ptr_digits].
  rewrite seqZ_cons by lia. cbn [map]. rewrite Z.mul_0_r, Z.sub_0_r, <-top_digit by done.
  apply (prints_seq _ _ [_]); [apply Hputc, digit_byte|].
  pose proof (IH (u64 (Z.shiftl x 4)) ltac:(lia) (u64_range _)) as IHx.
  replace (Z.pred (Z.of_nat (S n))) with (Z.of_nat n) by lia. replace (Z.succ 0) with (1 + 0) by lia.
  rewrite <-(fmap_add_seqZ 1 0). change (Z.add 1 <$> ?l) with (map (Z.add 1) l). rewrite map_map.
  erewrite map_ext_in; [exact IHx|]. intros k Hk. apply list_elem_of_In, elem_of_seqZ in Hk. cbn beta. f_equal.
  rewrite next_digit by lia. do 3 f_equal. lia.
Qed.

Lemma prints_put_ptr x : 0 <= x < 2 ^ 64 -> prints (put_ptr putc digs x) (bytes_of "0x" ++ hex16 x).
Proof.
  intros Hx. unfold put_ptr. apply (prints_seq _ _ [48]); [by apply Hputc|]. apply (prints_seq _ _ [120]); [by apply Hputc|].
  by apply (prints_digits 16).
Qed.

End Prints.
