(* ===== verification/Ulib.v ===== *)
(** * The user library (user/ulib.c, user/printf.c)

    The string routines work on the memory of the process, with the routines
    of kernel/string.c they agree with; loops to a NUL take the number of
    bytes to look at as fuel, [None] when there is no NUL among them.  A
    [char] is unsigned, as it is on RISC-V.  What printf() writes to a file
    descriptor, one byte per write(), is a list of bytes.  gets() is in Sh.v;
    stat(), which makes three system calls, is not modelled. *)

From Stdlib Require Import Ascii.
From S2P Require Import Prelude Mem CStringFacts Format.

(** ** Strings *)

Module UString.

(** [while(( *s++ = *t++) != 0);] *)
Fixpoint strcpy (fuel : nat) (s t : Z) (m : mem) : option mem :=
  match fuel with
  | O => None
  | S fuel =>
      let c := load8 m t in
      let m := store8 m s c in
      if c =? 0 then Some m else strcpy fuel (s + 1) (t + 1) m
  end.

Fixpoint strcmp (fuel : nat) (p q : Z) (m : mem) : option Z :=
  match fuel with
  | O => None
  | S fuel =>
      if negb (load8 m p =? 0) && (load8 m p =? load8 m q) then strcmp fuel (p + 1) (q + 1) m
      else Some (load8 m p - load8 m q)
  end.

(** [for(n = 0; s[n]; n++);] *)
Fixpoint strlen_from (fuel : nat) (n s : Z) (m : mem) : option Z :=
  match fuel with
  | O => None
  | S fuel => if load8 m (s + n) =? 0 then Some n else strlen_from fuel (n + 1) s m
  end.
Definition strlen (fuel : nat) (s : Z) (m : mem) : option Z := strlen_from fuel 0 s m.

(** The loop of memset(), at [i]. *)
Fixpoint memset_from (n : nat) (i dst c : Z) (m : mem) : mem :=
  match n with
  | O => m
  | S n => memset_from n (i + 1) dst c (store8 m (dst + i) c)
  end.
Definition memset (dst c n : Z) (m : mem) : mem := memset_from (Z.to_nat (u32 n)) 0 dst c m.

(** The address found, 0 when there is none. *)
Fixpoint strchr (fuel : nat) (s c : Z) (m : mem) : option Z :=
  match fuel with
  | O => None
  | S fuel =>
      if load8 m s =? 0 then Some 0
      else if load8 m s =? c then Some s
      else strchr fuel (s + 1) c m
  end.

(** The loop of atoi(), with the number read so far; [int] wraps. *)
Fixpoint atoi_from (fuel : nat) (n s : Z) (m : mem) : option Z :=
  match fuel with
  | O => None
  | S fuel =>
      let c := load8 m s in
      if (48 <=? c) && (c <=? 57) then atoi_from fuel (i32 (n * 10 + c - 48)) (s + 1) m
      else Some n
  end.
Definition atoi (fuel : nat) (s : Z) (m : mem) : option Z := atoi_from fuel 0 s m.

(** [while(n-- > 0) *dst++ = *src++;] and [*--dst = *--src]. *)
Fixpoint move_up (n : nat) (dst src : Z) (m : mem) : mem :=
  match n with
  | O => m
  | S n => move_up n (dst + 1) (src + 1) (store8 m dst (load8 m src))
  end.
Fixpoint move_down (n : nat) (dst src : Z) (m : mem) : mem :=
  match n with
  | O => m
  | S n => move_down n (dst - 1) (src - 1) (store8 m (dst - 1) (load8 m (src - 1)))
  end.
(** The parameter n of memmove() is an [int]: a size of 2^31 or more arrives as
    a negative number, and no byte is copied. *)
Definition memmove (vdst vsrc n : Z) (m : mem) : mem :=
  let n := i32 n in
  if vdst <? vsrc then move_up (Z.to_nat n) vdst vsrc m
  else move_down (Z.to_nat n) (vdst + n) (vsrc + n) m.

Fixpoint memcmp_from (n : nat) (p1 p2 : Z) (m : mem) : Z :=
  match n with
  | O => 0
  | S n =>
      if negb (load8 m p1 =? load8 m p2) then load8 m p1 - load8 m p2
      else memcmp_from n (p1 + 1) (p2 + 1) m
  end.
Definition memcmp (s1 s2 n : Z) (m : mem) : Z := memcmp_from (Z.to_nat (u32 n)) s1 s2 m.

(** Its n is a [uint], converted for memmove(). *)
Definition memcpy (dst src n : Z) (m : mem) : mem := memmove dst src (u32 n) m.

End UString.

(** ** printf *)

Module UPrintf.

(** The bytes written so far to the file descriptor. *)
Abbreviation out := (list Z).
Definition putc (c : Z) : M out unit := modify (fun o => o ++ [u8 c]).

(** ["0123456789ABCDEF"] *)
Definition digits : list Z := Eval vm_compute in bytes_of "0123456789ABCDEF".

Definition printint (buf : list Z) (xx base sgn : Z) : M out unit := put_int putc digits buf xx base sgn.
Definition printptr (x : Z) : M out unit := put_ptr putc digits x.

(** The arguments, by the type va_arg() reads them with. *)
Inductive uarg := UInt (x : Z) | UInt64 (x : Z) | UStr (s : option (list Z)) | UUint (x : Z).

(** The loop of vprintf(); [percent] is [state == '%']. *)
Fixpoint vprintf (buf : list Z) (percent : bool) (fmt : list Z) (ap : list uarg) : M out unit :=
  match fmt with
  | [] => ret tt
  | c :: fmt =>
      if c =? 0 then ret tt
      else if negb percent then
        if c =? ch "%" then vprintf buf true fmt ap else putc c ;; vprintf buf false fmt ap
      else if c =? ch "d" then
        match ap with UInt x :: ap => printint buf x 10 1 ;; vprintf buf false fmt ap | _ => hang end
      else if c =? ch "l" then
        match ap with UInt64 x :: ap => printint buf (i32 x) 10 0 ;; vprintf buf false fmt ap | _ => hang end
      else if c =? ch "x" then
        match ap with UInt x :: ap => printint buf x 16 0 ;; vprintf buf false fmt ap | _ => hang end
      else if c =? ch "p" then
        match ap with UInt64 x :: ap => printptr x ;; vprintf buf false fmt ap | _ => hang end
      else if c =? ch "s" then
        match ap with
        | UStr s :: ap => put_string putc (default (bytes_of "(null)") s) ;; vprintf buf false fmt ap
        | _ => hang
        end
      else if c =? ch "c" then
        match ap with UUint x :: ap => putc x ;; vprintf buf false fmt ap | _ => hang end
      else if c =? ch "%" then putc c ;; vprintf buf false fmt ap
      else putc (ch "%") ;; putc c ;; vprintf buf false fmt ap
  end.

(** fprintf() and printf(), on the bytes of their descriptor. *)
Definition fprintf (buf fmt : list Z) (ap : list uarg) : M out unit := vprintf buf false fmt ap.

End UPrintf.

(** ** The string routines *)

Section Strings.
Import UString.

Lemma move_up_fwd n d s m : move_up n d s m = CString.memmove_fwd n d s m.
Proof. revert d s m. by induction n as [|n IH]; intros; cbn; [|rewrite IH]. Qed.
Lemma move_down_back n d s m : move_down n d s m = CString.memmove_back n d s m.
Proof. revert d s m. by induction n as [|n IH]; intros; cbn; [|rewrite IH]. Qed.

(** C37: the user library's memmove() and memcpy() against the kernel's.  For
    fewer than 2^31 bytes they leave the memory the kernel's memmove() leaves,
    every byte of the source at its place also when the ranges overlap, though
    they choose the direction of the copy by another test.  For 2^31 bytes or
    more the kernel's still copies, but the user library's, whose size is an
    int, copies nothing. *)
Theorem library_agrees dst src n m x :
  0 <= n < 2 ^ 32 ->
  let moved := if decide (dst <= x < dst + n) then load8 m (src + (x - dst)) else load8 m x in
  load8 (CString.memmove dst src n m) x = moved /\
  load8 (memmove dst src n m) x = (if n <? 2 ^ 31 then moved else load8 m x) /\
  load8 (memcpy dst src n m) x = (if n <? 2 ^ 31 then moved else load8 m x).
Proof.
  intros Hn moved. assert (Hmv : load8 (memmove dst src n m) x = if n <? 2 ^ 31 then moved else load8 m x).
  { unfold memmove, moved. destruct (Z.ltb_spec n (2 ^ 31)) as [Hs|Hb].
    - rewrite i32_small by lia. destruct (Z.ltb_spec dst src).
      + rewrite move_up_fwd, load8_memmove_fwd, Z2Nat.id by lia. done.
      + rewrite move_down_back, load8_memmove_back, Z2Nat.id, Z.add_simpl_r by lia. case_decide; [|done]. f_equal. lia.
    - assert (Hi : i32 n < 0) by (unfold i32; rewrite <-(Z.mod_unique (n + 2 ^ 31) (2 ^ 32) 1 (n - 2 ^ 31)) by lia; lia). replace (Z.to_nat (i32 n)) with O by lia. by destruct (dst <? src). }
  split; [apply load8_memmove; lia|]. split; [done|]. unfold memcpy. by rewrite u32_small.
Qed.

(** An overlapping move to the right, and one of 2^31 bytes. *)
Lemma library_agrees_witness :
  let m := store_bytes ∅ 100 [1; 2; 3; 4; 5] in
  load8 (memmove 102 100 5 m) 106 = 5 /\ load8 (CString.memmove 102 100 5 m) 106 = 5 /\
  load8 (memcpy 102 100 (2 ^ 31) m) 103 = 4 /\ load8 (CString.memmove 102 100 (2 ^ 31) m) 103 = 2.
Proof.
  intros m. destruct (library_agrees 102 100 5 m 106 ltac:(lia)) as (-> & -> & _). destruct (library_agrees 102 100 (2 ^ 31) m 103 ltac:(lia)) as (-> & _ & ->).
  repeat split; reflexivity.
Defined.

(** strcmp() decides equality of strings, and returns when one of them ends. *)
Lemma strcmp_zero fuel p q m :
  (length (cstr m p fuel) < fuel)%nat -> exists r, strcmp fuel p q m = Some r /\ (r = 0 <-> cstr m p fuel = cstr m q fuel).
Proof.
  intros Hl. exists (CString.strncmp_loop fuel p q m). split; [|apply strncmp_loop_zero].
  revert p q Hl. induction fuel as [|fuel IH]; intros p q Hl; [cbn in Hl; lia|]. cbn [strcmp CString.strncmp_loop].
  destruct (Z.eqb_spec (load8 m p) 0) as [E|E]; cbn [negb andb]; [done|]. destruct (_ =? _); [|done]. apply IH.
  cbn [cstr] in Hl. rewrite (proj2 (Z.eqb_neq _ _) E) in Hl. cbn in Hl. lia.
Qed.

(** strchr() finds the first occurrence. *)
Lemma strchr_first fuel s c m : c <> 0 ->
  (length (cstr m s fuel) < fuel)%nat ->
  strchr fuel s c m = Some (match list_find (fun x => x = c) (cstr m s fuel) with Some (i, _) => s + Z.of_nat i | None => 0 end).
Proof.
  intros Hc. revert s. induction fuel as [|fuel IH]; intros s Hl; [cbn in Hl; lia|]. cbn [strchr cstr] in *.
  destruct (Z.eqb_spec (load8 m s) 0) as [E|E]; [done|]. cbn [length list_find] in *. destruct (Z.eqb_spec (load8 m s) c) as [Ec|Ec].
  - rewrite decide_True by done. by rewrite Z.add_0_r.
  - rewrite decide_False, IH by (done || lia). destruct (list_find _ _) as [[i x]|]; cbn; [f_equal; lia|done].
Qed.

(** A string is determined by its characters and its NUL. *)
Lemma cstr_upto m m' p n :
  (forall x, p <= x <= p + Z.of_nat (length (cstr m p n)) -> load8 m' x = load8 m x) -> cstr m' p n = cstr m p n.
Proof.
  revert p. induction n as [|n IH]; intros p H; [done|]. cbn [cstr] in *. rewrite (H p) by lia.
  destruct (load8 m p =? 0); [done|]. cbn in H. f_equal. apply IH. intros x Hx. apply H. lia.
Qed.

(** strcpy() copies the string and its NUL when the ranges are apart. *)
Lemma strcpy_copies fuel s t m :
  (length (cstr m t fuel) < fuel)%nat -> s + Z.of_nat (length (cstr m t fuel)) < t \/ t + Z.of_nat (length (cstr m t fuel)) < s ->
  exists m', strcpy fuel s t m = Some m' /\ load_bytes m' s (S (length (cstr m t fuel))) = cstr m t fuel ++ [0] /\
    same_outside s (Z.of_nat (length (cstr m t fuel)) + 1) m m'.
Proof.
  revert s t m. induction fuel as [|fuel IH]; intros s t m Hk Hd; [cbn in *; lia|]. cbn [strcpy cstr] in *.
  destruct (Z.eqb_spec (load8 m t) 0) as [E|E].
  - eexists. split; [done|]. rewrite E. split; [|apply store8_outside]. cbn. by rewrite load8_store8_eq.
  - cbn [length] in *. set (m1 := store8 m s (load8 m t)).
    assert (Hx : cstr m1 (t + 1) fuel = cstr m (t + 1) fuel).
    { apply cstr_upto. intros x Hx. unfold m1. rewrite load8_store8_ne by lia. done. }
    destruct (IH (s + 1) (t + 1) m1) as (m' & -> & Hb & Ho); [rewrite Hx; lia|rewrite Hx; lia|]. rewrite Hx in Hb, Ho.
    exists m'. split; [done|]. split.
    + cbn [load_bytes app] in *. rewrite Hb. f_equal. rewrite Ho by lia. unfold m1. rewrite load8_store8_eq. apply u8_small, load8_byte.
    + intros x Hx'. rewrite Ho by lia. unfold m1. by rewrite load8_store8_ne by lia.
Qed.
End Strings.

(** ** What printf() writes *)

Section Written.
Import UPrintf.

#[local] Instance out_sink : Sink out := {
  ready _ := True; sends bs s s' := s' = s ++ bs;
  sends_nil s := eq_sym (app_nil_r s);
  sends_app a b s s' s'' H1 H2 := ltac:(by rewrite H2, H1, app_assoc);
  sends_ready a s s' _ H := I }.

Lemma prints_putc c : is_byte c -> prints (putc c) [c].
Proof. intros Hc s _. unfold putc. wp_step. cbn [sends out_sink]. by rewrite u8_small. Qed.

Lemma u32_i32 x : u32 (i32 x) = u32 x.
Proof. unfold u32, i32. rewrite Zminus_mod_idemp_l. f_equal. lia. Qed.

Lemma upper_bytes : Forall is_byte digits.
Proof. repeat (constructor; [done|]); constructor. Qed.

(** A format taken apart. *)
Inductive uitem := ULit (c : Z) | UDec (x : Z) | ULong (x : Z) | UHex (x : Z) | UPtr (x : Z) | UString (s : option (list Z)) | UChar (c : Z) | UPercent | UUnknown (c : Z).
Definition uitem_fmt (i : uitem) : list Z :=
  match i with
  | ULit c => [c]
  | UDec _ => bytes_of "%d" | ULong _ => bytes_of "%l" | UHex _ => bytes_of "%x" | UPtr _ => bytes_of "%p"
  | UString _ => bytes_of "%s" | UChar _ => bytes_of "%c" | UPercent => bytes_of "%%"
  | UUnknown c => [ch "%"; c]
  end.
Definition uitem_arg (i : uitem) : list uarg :=
  match i with
  | UDec x | UHex x => [UInt x] | ULong x | UPtr x => [UInt64 x] | UString s => [UStr s] | UChar c => [UUint c] | _ => []
  end.
Definition uitem_text (i : uitem) : list Z :=
  match i with
  | ULit c | UChar c => [c]
  | UDec x => int_text digits 10 x 1
  | ULong x => map (digit_of digits) (to_digits 14 10 (u32 x))
  | UHex x => map (digit_of digits) (to_digits 14 16 (u32 x))
  | UPtr x => bytes_of "0x" ++ hex16 digits x
  | UString s => default (bytes_of "(null)") s
  | UPercent => [ch "%"]
  | UUnknown c => [ch "%"; c]
  end.
Definition uitem_ok (i : uitem) : Prop :=
  match i with
  | ULit c => plain c /\ c <> ch "%"
  | UDec x | UHex x => - 2 ^ 31 <= x < 2 ^ 31
  | ULong x | UPtr x => 0 <= x < 2 ^ 64
  | UString s => Forall plain (default (bytes_of "(null)") s)
  | UChar c => is_byte c
  | UPercent => True
  | UUnknown c => plain c /\ ~ In c (bytes_of "dlxpsc%")
  end.

Lemma prints_uint buf base xx sgn :
  5 <= base -> - 2 ^ 31 <= xx < 2 ^ 31 -> length buf = 16%nat -> prints (printint buf xx base sgn) (int_text digits base xx sgn).
Proof. apply prints_put_int; [apply upper_bytes|apply prints_putc]. Qed.

Lemma prints_uitem buf i rest :
  length buf = 16%nat -> uitem_ok i ->
  (forall fmt ap, prints (vprintf buf false fmt ap) rest -> prints (vprintf buf false (uitem_fmt i ++ fmt) (uitem_arg i ++ ap)) (uitem_text i ++ rest)).
Proof.
  intros Hl Hi fmt ap Hk. destruct i as [c|x|x|x|x|s|c| |c]; cbn [uitem_fmt uitem_arg uitem_text app] in *.
  - destruct Hi as [[Hc Hz] Hp]. cbn [vprintf]. rewrite (proj2 (Z.eqb_neq _ _) Hz), (proj2 (Z.eqb_neq _ _) Hp). cbn [negb].
    apply (prints_seq _ _ [c]); [by apply prints_putc|done].
  - apply prints_seq; [by apply prints_uint|done].
  - apply prints_seq; [|done]. rewrite <-(u32_i32 x). apply (prints_uint _ 10 (i32 x) 0); [lia|apply i32_range|done].
  - apply prints_seq; [by apply (prints_uint _ 16 x 0)|done].
  - apply prints_seq; [apply prints_put_ptr; [apply upper_bytes|apply prints_putc|done]|done].
  - apply prints_seq; [apply prints_put_string; [apply prints_putc|done]|done].
  - apply (prints_seq _ _ [_]); [by apply prints_putc|done].
  - apply (prints_seq _ _ [_]); [by apply prints_putc|done].
  - destruct Hi as [[Hc Hz] Hn]. assert (Hne : forall a, In a (bytes_of "dlxpsc%") -> (c =? a) = false) by (intros a Ha; apply Z.eqb_neq; by intros ->).
    change (vprintf buf false (ch "%" :: c :: fmt) ap) with (vprintf buf true (c :: fmt) ap). cbn [vprintf negb].
    rewrite (proj2 (Z.eqb_neq _ _) Hz), !Hne by (vm_compute; tauto).
    apply (prints_seq _ _ [_]); [by apply prints_putc|]. apply (prints_seq _ _ [_]); [by apply prints_putc|done].
Qed.

(** fprintf() writes the text of its format: %l prints the low 32 bits of its
    argument only. *)
Lemma fprintf_renders buf is_ :
  length buf = 16%nat -> Forall uitem_ok is_ ->
  forall o, wp (fprintf buf (concat (map uitem_fmt is_)) (concat (map uitem_arg is_))) o (fun _ o' => o' = o ++ concat (map uitem_text is_)).
Proof.
  intros Hl Hi o. assert (Hp : prints (fprintf buf (concat (map uitem_fmt is_)) (concat (map uitem_arg is_))) (concat (map uitem_text is_))); [|by apply Hp].
  induction Hi as [|i is_ Hi _ IH]; [apply prints_ret|]. cbn [map concat]. by apply prints_uitem.
Qed.

(** *** Numbers are read back *)

Definition is_digit (c : Z) : bool := (48 <=? c) && (c <=? 57).

Lemma digit_char d : 0 <= d < 10 -> digit_of digits d = 48 + d.
Proof.
  intros H. destruct (lookup_lt_is_Some_2 (seqZ 0 10) (Z.to_nat d)) as [e He]; [rewrite length_seqZ; lia|].
  assert (Forall (fun d => digit_of digits d = 48 + d) (seqZ 0 10)) as Hf by (repeat constructor).
  pose proof (Forall_lookup_1 _ _ _ _ Hf He) as Hd. apply lookup_seqZ in He as [-> _]. by rewrite Z2Nat.id in Hd by lia.
Qed.

Lemma value_grows ds : forall n, Forall (fun d => 0 <= d < 10) ds -> 0 <= n -> n <= fold_left (fun v d => v * 10 + d) ds n.
Proof.
  induction ds as [|d ds IH]; intros n Hd Hn; cbn; [lia|]. inversion Hd as [|? ? Hd1 Hds]; subst. specialize (IH (n * 10 + d) Hds ltac:(lia)). lia.
Qed.

Lemma atoi_digits ds : forall fuel n s c m,
  Forall (fun d => 0 <= d < 10) ds -> 0 <= n -> fold_left (fun v d => v * 10 + d) ds n < 2 ^ 31 ->
  load_bytes m s (S (length ds)) = map (digit_of digits) ds ++ [c] -> is_digit c = false -> (length ds < fuel)%nat ->
  UString.atoi_from fuel n s m = Some (fold_left (fun v d => v * 10 + d) ds n).
Proof.
  induction ds as [|d ds IH]; intros fuel n s c m Hd Hn Hv Hb Hc Hf; destruct fuel as [|fuel]; cbn [length] in Hf; try lia; cbn [UString.atoi_from fold_left].
  - cbn in Hb. injection Hb as ->. unfold is_digit in Hc. by rewrite Hc.
  - inversion Hd as [|? ? Hd1 Hds]; subst. cbn [length map app] in Hb. rewrite (digit_char d Hd1) in Hb. cbn [load_bytes] in Hb. injection Hb as Hb1 Hb2.
    rewrite Hb1. rewrite (proj2 (Z.leb_le 48 (48 + d))), (proj2 (Z.leb_le (48 + d) 57)) by lia. cbn [andb fold_left] in *.
    pose proof (value_grows ds (n * 10 + d) Hds ltac:(lia)). replace (n * 10 + (48 + d) - 48) with (n * 10 + d) by lia.
    rewrite i32_small by lia. apply (IH _ _ _ c); [done|lia|lia| |done|lia]. cbn [load_bytes]. by rewrite Hb2.
Qed.

(** C36: what printf("%d", x) writes for a number that is not negative, atoi()
    reads back as [x], wherever the text is stored and whatever character that
    is not a digit comes after it; the text has at most 14 characters. *)
Theorem atoi_printf buf x o :
  length buf = 16%nat -> 0 <= x < 2 ^ 31 ->
  wp (fprintf buf (bytes_of "%d") [UInt x]) o (fun _ o' => exists text, o' = o ++ text /\ (length text <= 14)%nat /\
    forall fuel s c m, load_bytes m s (S (length text)) = text ++ [c] -> is_digit c = false -> (length text < fuel)%nat ->
      UString.atoi fuel s m = Some x).
Proof.
  intros Hl Hx. eapply wp_mono; [apply (fprintf_renders buf [UDec x]); [done|repeat constructor; cbn; lia]|]. intros [] o' ->.
  destruct (to_digits_numeral 10 14 x) as (Hv & Hd & _ & _); [lia|lia|lia|].
  exists (map (digit_of digits) (to_digits 14 10 x)).
  split; [cbn [map concat uitem_text]; unfold int_text, int_value; rewrite (proj2 (Z.ltb_ge x 0)), Z.abs_eq, !app_nil_r by lia; done|].
  rewrite length_map. split; [apply length_to_digits|]. intros fuel s c m Hb Hc Hf. unfold UString.atoi.
  rewrite (atoi_digits (to_digits 14 10 x) fuel 0 s c m); [by f_equal|done|lia|unfold value in Hv; lia|done|done|done].
Qed.

(** [atoi("2048\n")] after [printf("%d", 2048)] *)
Lemma atoi_printf_witness :
  let m := store_bytes ∅ 100 [50; 48; 52; 56; 10] in
  fprintf (replicate 16 0) (bytes_of "%d") [UInt 2048] [] = Ok tt [50; 48; 52; 56] /\
  wp (fprintf (replicate 16 0) (bytes_of "%d") [UInt 2048]) [] (fun _ o' => o' = [50; 48; 52; 56] -> UString.atoi 5 100 m = Some 2048).
Proof.
  intros m. split; [vm_compute; reflexivity|].
  eapply wp_mono; [apply (atoi_printf (replicate 16 0) 2048 []); [reflexivity|lia]|].
  intros [] o' (text & E & _ & H) E'. cbn in E. subst o'. subst text. apply (H 5%nat 100 10 m); [vm_compute; reflexivity|reflexivity|cbn; lia].
Defined.
End Written.
