(* ===== verification/Printf.v ===== *)
(** * Formatted console output (kernel/printf.c, consputc of kernel/console.c)

    printf() interprets a format and sends its bytes to the serial port by
    polling.  A format is the list of its bytes; an argument is a value of the
    type its directive reads, and a directive that meets an argument of another
    type, or none, is undefined in C and has no result here.  The routines for
    numbers and strings are those of Format.v, sending to consputc(). *)

From Stdlib Require Import Ascii.
From S2P Require Import Prelude Spinlock Ring Uart Format.
Import Spinlock.

Definition BACKSPACE : Z := 256.
Definition newline : list Z := [10].

(** The digit characters, ["0123456789abcdef"]. *)
Definition digits : list Z := Eval vm_compute in bytes_of "0123456789abcdef".
Abbreviation digit := (digit_of digits).

(** The arguments of printf(). *)
Inductive parg := PInt (x : Z) | PPtr (x : Z) | PStr (s : option (list Z)).

(** pr, and the port it writes to. *)
Record prstate (D : Type) := mkPr { pr_lock : spinlock; pr_locking : Z; pr_uart : uart D }.
Arguments mkPr {D} _ _ _.
Arguments pr_lock {D} _.
Arguments pr_locking {D} _.
Arguments pr_uart {D} _.

Section Printf.
Context {D : Type} `{UartDev D}.
Variable (me : Z) (polls : nat).
Local Notation U := (uart D).

Definition consputc (c : Z) : M U unit :=
  if c =? BACKSPACE then
    uartputc_sync polls 8 ;; uartputc_sync polls 32 ;; uartputc_sync polls 8
  else uartputc_sync polls c.

(** [buf] is what the stack held. *)
Definition printint (buf : list Z) (xx base sign : Z) : M U unit := put_int consputc digits buf xx base sign.
Definition printptr (x : Z) : M U unit := put_ptr consputc digits x.

(** The loop of printf() over the format. *)
Fixpoint printf_loop (buf : list Z) (fmt : list Z) (ap : list parg) : M U unit :=
  match fmt with
  | [] => ret tt
  | c :: fmt =>
      if c =? 0 then ret tt
      else if negb (c =? ch "%") then consputc c ;; printf_loop buf fmt ap
      else
        match fmt with
        | [] => ret tt
        | c :: fmt =>
            if c =? 0 then ret tt
            else if c =? ch "d" then
              match ap with PInt x :: ap => printint buf x 10 1 ;; printf_loop buf fmt ap | _ => hang end
            else if c =? ch "x" then
              match ap with PInt x :: ap => printint buf x 16 1 ;; printf_loop buf fmt ap | _ => hang end
            else if c =? ch "p" then
              match ap with PPtr x :: ap => printptr x ;; printf_loop buf fmt ap | _ => hang end
            else if c =? ch "s" then
              match ap with
              | PStr s :: ap => put_string consputc (default (bytes_of "(null)") s) ;; printf_loop buf fmt ap
              | _ => hang
              end
            else if c =? ch "%" then consputc (ch "%") ;; printf_loop buf fmt ap
            else consputc (ch "%") ;; consputc c ;; printf_loop buf fmt ap
        end
  end.

Definition pr_lock_lens : lens (prstate D) spinlock := Lens pr_lock (fun l s => mkPr l (pr_locking s) (pr_uart s)).
Definition pr_uart_lens : lens (prstate D) U := Lens pr_uart (fun u s => mkPr (pr_lock s) (pr_locking s) u).

(** A null format is [None]. *)
Definition printf (buf : list Z) (fmt : option (list Z)) (ap : list parg) : M (prstate D) unit :=
  let! locking := gets pr_locking in
  when (negb (locking =? 0)) (acquire_at me pr_lock_lens) ;;
  match fmt with
  | None => panic "null fmt"
  | Some fmt =>
      zoom pr_uart_lens (printf_loop buf fmt ap) ;;
      when (negb (locking =? 0)) (release_at me pr_lock_lens)
  end.

(** panic() up to its endless loop. *)
Definition panic_report (buf s : list Z) : M (prstate D) unit :=
  modify (fun st => mkPr (pr_lock st) 0 (pr_uart st)) ;;
  printf buf (Some (bytes_of "panic: ")) [] ;;
  printf buf (Some s) [] ;;
  printf buf (Some newline) [] ;;
  zoom pr_uart_lens (modify (fun u =>
    mkUart (uart_tx_lock u) (uart_tx_buf u) (uart_tx_w u) (uart_tx_r u) 1 (u_hart u) (u_dev u))).

Definition kpanic (buf s : list Z) : M (prstate D) unit := panic_report buf s ;; hang.

Definition printfinit : M (prstate D) unit :=
  modify (fun st => mkPr (initlock "pr") (pr_locking st) (pr_uart st)) ;;
  modify (fun st => mkPr (pr_lock st) 1 (pr_uart st)).

(** procdump() (kernel/proc.c), given the pid, state and name of the processes
    that are in use, as [Proc.procdump] lists them. *)
Fixpoint procdump_lines (buf : list Z) (ps : list (Z * list Z * list Z)) : M (prstate D) unit :=
  match ps with
  | [] => ret tt
  | (pid, state, name) :: ps =>
      printf buf (Some (bytes_of "%d %s %s")) [PInt pid; PStr (Some state); PStr (Some name)] ;;
      printf buf (Some newline) [] ;;
      procdump_lines buf ps
  end.

Definition print_procdump (buf : list Z) (ps : list (Z * list Z * list Z)) : M (prstate D) unit :=
  printf buf (Some newline) [] ;; procdump_lines buf ps.

End Printf.

(** ** What is printed *)

Section Output.
Context {D : Type} `{UartDev D} `{!UartLaws D}.
Variable (me : Z) (polls : nat).
Context (Hpat : patient (D := D) polls).
Local Notation U := (uart D).
Implicit Types s : U.

(** Output is possible: no CPU has panicked, interrupts can be nested. *)
Definition port_ok s : Prop := panicked s = 0 /\ hart_fine (u_hart s).

Lemma emits_port bs s s' : emits bs s s' -> port_ok s -> port_ok s'.
Proof. intros He [Hp Hh]. split; [|by eapply emits_fine]. destruct He as [_ [_ -> _] _ _ _]. done. Qed.

#[global] Instance uart_sink : Sink U := {
  ready := port_ok; sends := emits; sends_nil := emits_nil;
  sends_app a b s s' s'' H1 H2 := emits_app a b s s' s'' H1 H2; sends_ready a s s' H1 H2 := emits_port a s s' H1 H2 }.

(** The bytes consputc() sends for a character. *)
Definition con_bytes (c : Z) : list Z := if c =? BACKSPACE then [8; 32; 8] else [u8 c].

Lemma prints_sync c : prints (uartputc_sync polls c) [u8 c].
Proof. intros s [Hp Hh]. by apply wp_uartputc_sync. Qed.

Lemma prints_consputc c : prints (consputc polls c) (con_bytes c).
Proof.
  unfold consputc, con_bytes. destruct (c =? BACKSPACE); [|apply prints_sync].
  apply (prints_seq _ _ [8]); [apply (prints_sync 8)|]. apply (prints_seq _ _ [32]); [apply (prints_sync 32)|apply (prints_sync 8)].
Qed.

Lemma prints_byte c : is_byte c -> prints (consputc polls c) [c].
Proof.
  intros Hc. pose proof (prints_consputc c) as Hp. unfold con_bytes in Hp. destruct (Z.eqb_spec c BACKSPACE) as [->|].
  - unfold is_byte, BACKSPACE in Hc. lia.
  - by rewrite u8_small in Hp.
Qed.

(** *** Numbers *)

Lemma digits_bytes : Forall is_byte digits.
Proof. repeat (constructor; [done|]); constructor. Qed.

Lemma prints_int buf base xx sign :
  5 <= base -> - 2 ^ 31 <= xx < 2 ^ 31 -> length buf = 16%nat -> prints (printint polls buf xx base sign) (int_text digits base xx sign).
Proof. apply prints_put_int; [apply digits_bytes|apply prints_byte]. Qed.

(** printint() prints the numeral of its argument.  For every int, the most
    negative one included, and every base from 5 to 16, it prints a minus sign for
    a negative number when asked for signed output, then the digits of the
    number (as an unsigned int otherwise) without leading zeros, and its
    16-byte buffer is never overrun; the output is sent by polling and nothing
    else changes. *)
Theorem printint_correct buf base xx sign s :
  5 <= base <= 16 -> - 2 ^ 31 <= xx < 2 ^ 31 -> length buf = 16%nat -> port_ok s ->
  exists ds, numeral base (int_value xx sign) ds /\ (length ds <= 14)%nat /\
    wp (printint polls buf xx base sign) s (fun _ s' =>
      emits ((if negb (sign =? 0) && (xx <? 0) then [ch "-"] else []) ++ map digit ds) s s').
Proof.
  intros Hb Hx Hl Hs. exists (to_digits 14 base (int_value xx sign)).
  destruct (printint_magnitude base xx sign ltac:(lia) Hx) as [Em Hm]. rewrite Em in Hm.
  split; [apply to_digits_numeral; [lia|lia|done]|]. split; [apply length_to_digits|]. apply prints_int; [lia|done..].
Qed.

(** *** printf *)

(** A format taken apart. *)
Inductive item := Lit (c : Z) | Dec (x : Z) | Hex (x : Z) | Ptr (x : Z) | Str (s : option (list Z)) | Percent | Unknown (c : Z).

Definition item_fmt (i : item) : list Z :=
  match i with
  | Lit c => [c]
  | Dec _ => bytes_of "%d" | Hex _ => bytes_of "%x" | Ptr _ => bytes_of "%p" | Str _ => bytes_of "%s"
  | Percent => bytes_of "%%"
  | Unknown c => [ch "%"; c]
  end.
Definition item_arg (i : item) : list parg :=
  match i with Dec x | Hex x => [PInt x] | Ptr x => [PPtr x] | Str s => [PStr s] | _ => [] end.

Definition item_text (i : item) : list Z :=
  match i with
  | Lit c => [c]
  | Dec x => int_text digits 10 x 1
  | Hex x => int_text digits 16 x 1
  | Ptr x => bytes_of "0x" ++ hex16 digits x
  | Str s => default (bytes_of "(null)") s
  | Percent => [ch "%"]
  | Unknown c => [ch "%"; c]
  end.

Definition item_ok (i : item) : Prop :=
  match i with
  | Lit c => plain c /\ c <> ch "%"
  | Dec x | Hex x => - 2 ^ 31 <= x < 2 ^ 31
  | Ptr x => 0 <= x < 2 ^ 64
  | Str s => Forall plain (default (bytes_of "(null)") s)
  | Percent => True
  | Unknown c => plain c /\ ~ In c (bytes_of "dxps%")
  end.

Lemma prints_string bs : Forall plain bs -> prints (put_string (consputc polls) bs) bs.
Proof. apply prints_put_string, prints_byte. Qed.

Lemma prints_ptr x : 0 <= x < 2 ^ 64 -> prints (printptr polls x) (item_text (Ptr x)).
Proof. apply prints_put_ptr; [apply digits_bytes|apply prints_byte]. Qed.

Lemma prints_item buf i is_ :
  length buf = 16%nat -> item_ok i ->
  (forall fmt ap, prints (printf_loop polls buf fmt ap) is_ -> prints (printf_loop polls buf (item_fmt i ++ fmt) (item_arg i ++ ap)) (item_text i ++ is_)).
Proof.
  intros Hl Hi fmt ap Hk. destruct i as [c|x|x|x|s| |c]; cbn [item_fmt item_arg item_text app] in *.
  - destruct Hi as [[Hc Hz] Hp]. cbn [printf_loop]. rewrite (proj2 (Z.eqb_neq _ _) Hz), (proj2 (Z.eqb_neq _ _) Hp). cbn [negb].
    apply (prints_seq _ _ [c]); [by apply prints_byte|done].
  - apply prints_seq; [by apply prints_int|done].
  - apply prints_seq; [by apply prints_int|done].
  - apply prints_seq; [by apply prints_ptr|done].
  - apply prints_seq; [by apply prints_string|done].
  - apply (prints_seq _ _ [_]); [by apply prints_byte|done].
  - destruct Hi as [[Hc Hz] Hn]. assert (Hne : forall a, In a (bytes_of "dxps%") -> (c =? a) = false) by (intros a Ha; apply Z.eqb_neq; by intros ->).
    change (printf_loop polls buf (ch "%" :: c :: fmt) ap) with
      (if c =? 0 then ret tt
       else if c =? ch "d" then match ap with PInt x :: ap => printint polls buf x 10 1 ;; printf_loop polls buf fmt ap | _ => hang end
       else if c =? ch "x" then match ap with PInt x :: ap => printint polls buf x 16 1 ;; printf_loop polls buf fmt ap | _ => hang end
       else if c =? ch "p" then match ap with PPtr x :: ap => printptr polls x ;; printf_loop polls buf fmt ap | _ => hang end
       else if c =? ch "s" then
         match ap with PStr s :: ap => put_string (consputc polls) (default (bytes_of "(null)") s) ;; printf_loop polls buf fmt ap | _ => hang end
       else if c =? ch "%" then consputc polls (ch "%") ;; printf_loop polls buf fmt ap
       else consputc polls (ch "%") ;; consputc polls c ;; printf_loop polls buf fmt ap).
    rewrite (proj2 (Z.eqb_neq _ _) Hz), !Hne by (vm_compute; tauto).
    apply (prints_seq _ _ [_]); [by apply prints_byte|]. apply (prints_seq _ _ [_]); [by apply prints_byte|done].
Qed.

Lemma prints_items buf is_ :
  length buf = 16%nat -> Forall item_ok is_ ->
  prints (printf_loop polls buf (concat (map item_fmt is_)) (concat (map item_arg is_))) (concat (map item_text is_)).
Proof. intros Hl. induction 1 as [|i is_ Hi _ IH]; [apply prints_ret|]. cbn [map concat]. by apply prints_item. Qed.

(** The effect of a routine that prints, with pr. *)
Definition pr_emits (bs : list Z) (p p' : prstate D) : Prop :=
  pr_lock p' = pr_lock p /\ pr_locking p' = pr_locking p /\ emits bs (pr_uart p) (pr_uart p').

Lemma wp_printf buf is_ (st : prstate D) :
  length buf = 16%nat -> Forall item_ok is_ -> lock_free (pr_lock st) -> port_ok (pr_uart st) ->
  wp (printf me polls buf (Some (concat (map item_fmt is_))) (concat (map item_arg is_))) st (fun _ st' =>
    pr_emits (concat (map item_text is_)) st st').
Proof.
  intros Hl Hi Hf Hp. unfold printf. do 3 wp_step. destruct (pr_locking st =? 0) eqn:El; cbn [negb].
  - do 2 wp_step. apply wp_zoom. eapply wp_mono; [by apply prints_items|]. intros [] u He. wp_step. done.
  - wp_step. apply wp_acquire_at; [done|]. wp_step. apply wp_zoom. eapply wp_mono; [by apply prints_items|]. intros [] u He. wp_step.
    eapply wp_release_at; [done|done|]. done.
Qed.

(** C34: printf() prints what its format says.  For a format made of ordinary
    characters, the directives %d, %x, %p and %s with arguments of their
    types, %% and unknown directives, exactly the text of these items is sent,
    in order, and printf() returns with its lock as it was; a null string is
    printed as (null), an unknown directive as itself. *)
Theorem printf_renders buf is_ (st : prstate D) :
  length buf = 16%nat -> Forall item_ok is_ -> lock_free (pr_lock st) -> port_ok (pr_uart st) ->
  wp (printf me polls buf (Some (concat (map item_fmt is_))) (concat (map item_arg is_))) st (fun _ st' =>
    out (pr_uart st') = out (pr_uart st) ++ concat (map item_text is_) /\
    tx_queue (pr_uart st') = tx_queue (pr_uart st) /\ pr_lock st' = pr_lock st /\ pr_locking st' = pr_locking st).
Proof.
  intros Hl Hi Hf Hp. eapply wp_mono; [by apply wp_printf|]. intros _ s' (A & B & [C _ (E1 & E2 & E3) _ _]).
  split_and!; [done| |done..]. unfold tx_queue. by rewrite E1, E2, E3.
Qed.

(** *** The process list *)

Lemma pr_emits_app b1 b2 p1 p2 p3 : pr_emits b1 p1 p2 -> pr_emits b2 p2 p3 -> pr_emits (b1 ++ b2) p1 p3.
Proof. intros (A & B & E) (A' & B' & E'). split_and!; [congruence..|]. by eapply emits_app. Qed.

(** pr is free and the port usable. *)
Definition pr_ready (p : prstate D) : Prop := lock_free (pr_lock p) /\ port_ok (pr_uart p).
Lemma pr_emits_ready bs p p' : pr_emits bs p p' -> pr_ready p -> pr_ready p'.
Proof. intros (A & B & E) [Hl Hp]. split; [by rewrite A|by eapply emits_port]. Qed.

Definition proc_items (q : Z * list Z * list Z) : list item :=
  let '(pid, state, name) := q in [Dec pid; Lit 32; Str (Some state); Lit 32; Str (Some name)].
Definition proc_ok (q : Z * list Z * list Z) : Prop :=
  let '(pid, state, name) := q in - 2 ^ 31 <= pid < 2 ^ 31 /\ Forall plain state /\ Forall plain name.
Definition procdump_text (ps : list (Z * list Z * list Z)) : list Z :=
  newline ++ concat (map (fun q => concat (map item_text (proc_items q)) ++ newline) ps).

Lemma wp_newline buf p : length buf = 16%nat -> pr_ready p -> wp (printf me polls buf (Some newline) []) p (fun _ p' => pr_emits newline p p').
Proof. intros Hb [Hl Hp]. apply (wp_printf buf [Lit 10]); [done| |done..]. by repeat constructor. Qed.

Lemma wp_procdump_lines buf ps p :
  length buf = 16%nat -> Forall proc_ok ps -> pr_ready p ->
  wp (procdump_lines me polls buf ps) p (fun _ p' => pr_emits (concat (map (fun q => concat (map item_text (proc_items q)) ++ newline) ps)) p p').
Proof.
  intros Hb Hps. revert p. induction Hps as [|[[pid st] nm] ps Hq _ IH]; intros p Hr.
  { cbn. split_and!; [done..|]. apply emits_nil. }
  cbn [procdump_lines map concat]. rewrite <-!app_assoc. destruct Hq as (Q1 & Q2 & Q3). wp_step. pose proof Hr as [Hl Hp].
  eapply wp_mono; [apply (wp_printf buf (proc_items (pid, st, nm))); [done|repeat (apply Forall_cons_2; [by cbn|]); apply Forall_nil_2|done..]|].
  intros [] p1 E1. cbn beta. wp_step. eapply wp_mono; [apply wp_newline; [done|by eapply pr_emits_ready]|]. intros [] p2 E2. cbn beta.
  eapply wp_mono; [apply IH; eapply pr_emits_ready; [done|by eapply pr_emits_ready]|]. intros [] p3 E3.
  eapply pr_emits_app; [done|]. by eapply pr_emits_app.
Qed.

Lemma wp_procdump buf ps p :
  length buf = 16%nat -> Forall proc_ok ps -> pr_ready p ->
  wp (print_procdump me polls buf ps) p (fun _ p' => pr_emits (procdump_text ps) p p').
Proof.
  intros Hb Hps Hr. unfold print_procdump. wp_step. eapply wp_mono; [by apply wp_newline|]. intros [] p1 E1. cbn beta.
  eapply wp_mono; [apply wp_procdump_lines; [done|done|by eapply pr_emits_ready]|]. intros [] p2 E2. by eapply pr_emits_app.
Qed.

End Output.

(** ** Formats on the simulated port *)
Module PrintfDemo.
Import UartDemo.

Definition start : prstate sim := mkPr (initlock "pr") 1 (idle []).
Definition stack : list Z := replicate 16 0.

Lemma sim_patient : patient (D := sim) 2.
Proof. intros [? ? []]; cbn; lia. Qed.

Lemma sim_port : port_ok (pr_uart start).
Proof. split; [done|]. split; [|done]. split; [done|]. split; [done|]. intros Hn. cbn in Hn. lia. Qed.

(** The most negative int. *)
Lemma printint_correct_witness :
  exists ds, numeral 10 2147483648 ds /\ (length ds <= 14)%nat /\
    wp (printint 2 stack (- 2 ^ 31) 10 1) (idle []) (fun _ s' => emits ([ch "-"] ++ map digit ds) (idle []) s').
Proof.
  apply (printint_correct 2 sim_patient stack 10 (- 2 ^ 31) 1 (idle [])); [lia|lia|reflexivity|apply sim_port].
Defined.

(** [printf("%d %s", -42, "ok")] *)
Lemma printf_renders_witness :
  wp (printf 0 2 stack (Some (bytes_of "%d %s")) [PInt (-42); PStr (Some (bytes_of "ok"))]) start (fun _ s' =>
    line (u_dev (pr_uart s')) = bytes_of "-42 ok").
Proof.
  eapply wp_mono; [apply (printf_renders 0 2 sim_patient stack [Dec (-42); Lit 32; Str (Some (bytes_of "ok"))] start)|].
  - reflexivity.
  - repeat constructor; vm_compute; intuition discriminate.
  - split; reflexivity.
  - apply sim_port.
  - intros [] s' (E & _). exact E.
Defined.

End PrintfDemo.
