(* ===== verification/Console.v ===== *)
(** * The console (kernel/console.c, and uartintr of kernel/uart.c)

    Typed characters go through consoleintr(), which echoes them and lets the
    line be edited until it is complete; consoleread() delivers complete lines.
    The buffer has three counters: [c_r] to [c_w] is input that may be read,
    [c_w] to [c_e] the line being edited.  [tty] is the terminal that results,
    without a ring and without counters, and the theorems show the code to
    implement it.  As for pipes, a call that sleeps returns [inl] with what it
    needs to go on. *)

From S2P Require Import Prelude Spinlock Ring UserIO Uart Format Printf.
Import Spinlock.

Definition INPUT_BUF_SIZE : Z := 128.
(** [C(x)]: the control character of a letter. *)
Definition ctrl (x : Z) : Z := x - 64.
Definition NL : Z := 10.

(** cons; the port; what procdump() would list; the running process. *)
Record console (D U : Type) := mkConsole {
  c_lock : spinlock; c_buf : list Z; c_r : Z; c_w : Z; c_e : Z;
  c_pr : prstate D; c_procs : list (Z * list Z * list Z); c_killed : Z; c_um : U
}.
Arguments mkConsole {D U} _ _ _ _ _ _ _ _ _.
Arguments c_lock {D U} _.
Arguments c_buf {D U} _.
Arguments c_r {D U} _.
Arguments c_w {D U} _.
Arguments c_e {D U} _.
Arguments c_pr {D U} _.
Arguments c_procs {D U} _.
Arguments c_killed {D U} _.
Arguments c_um {D U} _.

Section Console.
Context {D U : Type} `{UartDev D} `{UserIO U}.
Variable (me : Z) (polls : nat) (stack : list Z).
Local Notation C := (console D U).

Definition set_c_lock l (s : C) : C := mkConsole l (c_buf s) (c_r s) (c_w s) (c_e s) (c_pr s) (c_procs s) (c_killed s) (c_um s).
Definition set_c_buf b (s : C) : C := mkConsole (c_lock s) b (c_r s) (c_w s) (c_e s) (c_pr s) (c_procs s) (c_killed s) (c_um s).
Definition set_c_r r (s : C) : C := mkConsole (c_lock s) (c_buf s) r (c_w s) (c_e s) (c_pr s) (c_procs s) (c_killed s) (c_um s).
Definition set_c_w w (s : C) : C := mkConsole (c_lock s) (c_buf s) (c_r s) w (c_e s) (c_pr s) (c_procs s) (c_killed s) (c_um s).
Definition set_c_e e (s : C) : C := mkConsole (c_lock s) (c_buf s) (c_r s) (c_w s) e (c_pr s) (c_procs s) (c_killed s) (c_um s).
Definition set_c_pr p (s : C) : C := mkConsole (c_lock s) (c_buf s) (c_r s) (c_w s) (c_e s) p (c_procs s) (c_killed s) (c_um s).
Definition set_c_um u (s : C) : C := mkConsole (c_lock s) (c_buf s) (c_r s) (c_w s) (c_e s) (c_pr s) (c_procs s) (c_killed s) u.

Definition c_lock_lens : lens C spinlock := Lens c_lock set_c_lock.
Definition c_pr_lens : lens C (prstate D) := Lens c_pr set_c_pr.
Definition on_uart {A} (m : M (uart D) A) : M C A := zoom c_pr_lens (zoom pr_uart_lens m).

(** Wait channel &cons.r. *)
Definition CONS_R : Z := 4.

(** consolewrite(): [inl (i, c)] when uartputc(c) of the byte at [i] sleeps. *)
Definition consolewrite_body (user_src : bool) (src n i : Z) : M C (Z + ((Z * Z) + Z)) :=
  if i <? n then
    let! r := gets (fun s => either_copyin user_src (u64 (src + i)) 1 (c_um s)) in
    match r with
    | Some [c] =>
        let! p := on_uart (uartputc me c) in
        match p with
        | inl _ => ret (inr (inl (i, c)))
        | inr _ => ret (inl (i + 1))
        end
    | _ => ret (inr (inr i))
    end
  else ret (inr (inr i)).

Definition consolewrite (user_src : bool) (src n : Z) : M C ((Z * Z) + Z) :=
  loop (Z.to_nat n + 1) (consolewrite_body user_src src n) 0.

(** consolewrite() from the sleep in uartputc(c) of the byte at [i] on. *)
Definition consolewrite_resume (user_src : bool) (src n i c : Z) : M C ((Z * Z) + Z) :=
  let! p := on_uart (uartputc_resume me c) in
  match p with
  | inl _ => ret (inl (i, c))
  | inr _ => loop (Z.to_nat (n - (i + 1)) + 1) (consolewrite_body user_src src n) (i + 1)
  end.

(** One iteration of the outer loop of consoleread(), with dst and n. *)
Definition consoleread_body (user_dst : bool) (target : Z) (v : Z * Z) : M C (Z * Z + (Z * Z + Z)) :=
  let '(dst, n) := v in
  let finish n := release_at me c_lock_lens ;; ret (inr (inr (i32 (target - n)))) in
  if 0 <? n then
    let! s := gets id in
    if c_r s =? c_w s then
      if negb (c_killed s =? 0) then
        release_at me c_lock_lens ;; ret (inr (inr (-1)))
      else release_at me c_lock_lens ;; ret (inr (inl (dst, n)))
    else
      let c := ring_get INPUT_BUF_SIZE (c_buf s) (c_r s) in
      modify (fun s => set_c_r (u32 (c_r s + 1)) s) ;;
      if c =? ctrl 68 then
        when (u32 n <? target) (modify (fun s => set_c_r (u32 (c_r s - 1)) s)) ;;
        finish n
      else
        let! r := gets (fun s => either_copyout user_dst dst [c] (c_um s)) in
        modify (set_c_um (snd r)) ;;
        if negb (fst r) then finish n
        else
          let dst := u64 (dst + 1) in
          let n := n - 1 in
          if c =? NL then finish n else ret (inl (dst, n))
  else finish n.

(** consoleread(), from its start ([target] = [n]) or from where it slept. *)
Definition consoleread (user_dst : bool) (target dst n : Z) : M C (Z * Z + Z) :=
  acquire_at me c_lock_lens ;;
  loop (Z.to_nat n + 1) (consoleread_body user_dst target) (dst, n).

(** The loop of the kill-line character. *)
Definition kill_line_body (_ : unit) : M C (unit + unit) :=
  let! s := gets id in
  if negb (c_e s =? c_w s) && negb (ring_get INPUT_BUF_SIZE (c_buf s) (u32 (c_e s - 1)) =? NL) then
    modify (fun s => set_c_e (u32 (c_e s - 1)) s) ;;
    on_uart (consputc polls BACKSPACE) ;;
    ret (inl tt)
  else ret (inr tt).

Definition consoleintr (c : Z) : M C unit :=
  acquire_at me c_lock_lens ;;
  (if c =? ctrl 80 then
     let! ps := gets c_procs in
     zoom c_pr_lens (print_procdump me polls stack ps)
   else if c =? ctrl 85 then
     loop (Z.to_nat INPUT_BUF_SIZE + 1) kill_line_body tt
   else if (c =? ctrl 72) || (c =? 127) then
     let! s := gets id in
     when (negb (c_e s =? c_w s))
       (modify (fun s => set_c_e (u32 (c_e s - 1)) s) ;; on_uart (consputc polls BACKSPACE))
   else
     let! s := gets id in
     when (negb (c =? 0) && (u32 (c_e s - c_r s) <? INPUT_BUF_SIZE))
       (let c := if c =? 13 then NL else c in
        on_uart (consputc polls c) ;;
        modify (fun s => set_c_buf (ring_set INPUT_BUF_SIZE (c_buf s) (c_e s) (u8 c)) s) ;;
        modify (fun s => set_c_e (u32 (c_e s + 1)) s) ;;
        let! s := gets id in
        when ((c =? NL) || (c =? ctrl 68) || (u32 (c_e s - c_r s) =? INPUT_BUF_SIZE))
          (modify (fun s => set_c_w (c_e s) s) ;; wakeup CONS_R))) ;;
  release_at me c_lock_lens.

(** The receive loop of uartintr(); [fuel] bounds the bytes handled. *)
Definition uartintr_body (_ : unit) : M C (unit + unit) :=
  let! c := on_uart uartgetc in
  if c =? -1 then ret (inr tt) else consoleintr c ;; ret (inl tt).

Definition uartintr (fuel : nat) : M C unit :=
  loop fuel uartintr_body tt ;;
  on_uart (uartintr_send me).

(** consoleinit(); the entries of devsw are those of Sysfile.v. *)
Definition consoleinit : M C unit :=
  modify (set_c_lock (initlock "cons")) ;;
  on_uart uartinit.

End Console.

(** ** The terminal *)

(** The input that may be read, and the line being typed. *)
Record tty := mkTty { tq : list Z; tline : list Z }.

Definition EOT : Z := 4.
Definition erase : list Z := [8; 32; 8].

(** A character is typed: the terminal and the echo; [dump] is the list of
    processes, for control-P. *)
Definition tty_type (dump : list Z) (c : Z) (t : tty) : tty * list Z :=
  if c =? 16 then (t, dump)
  else if c =? 21 then (mkTty (tq t) [], concat (replicate (length (tline t)) erase))
  else if (c =? 8) || (c =? 127) then
    match tline t with [] => (t, []) | _ => (mkTty (tq t) (removelast (tline t)), erase) end
  else if (c =? 0) || (128 <=? Z.of_nat (length (tq t) + length (tline t))) then (t, [])
  else
    let c := if c =? 13 then NL else c in
    let l := tline t ++ [c] in
    if (c =? NL) || (c =? EOT) || (Z.of_nat (length (tq t) + length l) =? 128) then (mkTty (tq t ++ l) [], [c])
    else (mkTty (tq t) l, [c]).

(** Characters are typed one after the other. *)
Fixpoint tty_types (dump : list Z) (cs : list Z) (t : tty) : tty * list Z :=
  match cs with
  | [] => (t, [])
  | c :: cs =>
      let '(t1, e1) := tty_type dump c t in
      let '(t2, e2) := tty_types dump cs t1 in (t2, e1 ++ e2)
  end.

(** A read of at most [n] bytes: what is delivered, what remains, and whether
    the read is complete; [first] when nothing was delivered before. *)
Fixpoint tty_read (n : nat) (first : bool) (q : list Z) : list Z * list Z * bool :=
  match n, q with
  | O, _ => ([], q, true)
  | S _, [] => ([], [], false)
  | S n, c :: q' =>
      if c =? EOT then ([], if first then q' else q, true)
      else if c =? NL then ([c], q', true)
      else let '(d, rest, b) := tty_read n false q' in (c :: d, rest, b)
  end.

(** ** The buffer as a terminal *)

Local Notation W := (2 ^ 32).
Local Notation N := INPUT_BUF_SIZE.

Section Facts.
Context {D U : Type}.
Local Notation C := (console D U).
Implicit Types s : C.

Definition c_queue s : list Z := ring N W (c_buf s) (c_r s) (c_w s).
Definition c_line s : list Z := ring N W (c_buf s) (c_w s) (c_e s).
Definition tty_of s : tty := mkTty (c_queue s) (c_line s).
Definition c_used s : Z := ring_len W (c_r s) (c_w s) + ring_len W (c_w s) (c_e s).

Record con_ok s : Prop := {
  ck_len : length (c_buf s) = Z.to_nat N;
  ck_r : 0 <= c_r s < W;
  ck_w : 0 <= c_w s < W;
  ck_e : 0 <= c_e s < W;
  ck_bound : c_used s <= N;
  (** a full buffer has no unfinished line, so that a reader can make room *)
  ck_edit : c_line s <> [] -> c_used s < N;
  ck_nl : NL ∉ c_line s;
  ck_bytes : Forall is_byte (c_buf s)
}.

Lemma con_div : (N | W).
Proof. by exists (2 ^ 25). Qed.
Local Notation lem f := (f N W ltac:(done) ltac:(done) con_div).

Lemma len_queue s : Z.of_nat (length (c_queue s)) = ring_len W (c_r s) (c_w s).
Proof. unfold c_queue. rewrite length_ring, Z2Nat.id; [done|]. by apply ring_len_range. Qed.
Lemma len_line s : Z.of_nat (length (c_line s)) = ring_len W (c_w s) (c_e s).
Proof. unfold c_line. rewrite length_ring, Z2Nat.id; [done|]. by apply ring_len_range. Qed.
Lemma used_len s : c_used s = Z.of_nat (length (c_queue s) + length (c_line s)).
Proof. unfold c_used. rewrite <-len_queue, <-len_line. lia. Qed.

Lemma used_diff s : con_ok s -> u32 (c_e s - c_r s) = c_used s.
Proof.
  intros Hs. pose proof (ck_bound s Hs) as Hb. unfold c_used in *. rewrite <-(ring_len_split W ltac:(done)); [done|]. unfold N in *. lia.
Qed.

Lemma queue_nil s : con_ok s -> (c_r s =? c_w s) = (Z.of_nat (length (c_queue s)) =? 0).
Proof. intros [_ Hr Hw _ _ _ _ _]. rewrite len_queue. apply eq_true_iff_eq. rewrite !Z.eqb_eq. symmetry. by apply ring_len_zero. Qed.

Lemma line_nil s : con_ok s -> (c_e s =? c_w s) = (Z.of_nat (length (c_line s)) =? 0).
Proof. intros [_ Hr Hw He _ _ _ _]. rewrite len_line, Z.eqb_sym. apply eq_true_iff_eq. rewrite !Z.eqb_eq. symmetry. by apply ring_len_zero. Qed.

(** Fields the buffer does not depend on. *)
Definition same_buf s s' : Prop := c_buf s' = c_buf s /\ c_r s' = c_r s /\ c_w s' = c_w s /\ c_e s' = c_e s.
Lemma same_buf_ok s s' : same_buf s s' -> con_ok s -> con_ok s'.
Proof.
  intros (A & B & C' & E) [C1 C2 C3 C4 C5 C6 C7 C8].
  split; unfold c_used, c_line in *; rewrite ?A, ?B, ?C', ?E; done.
Qed.

(** The last character of the line is taken back. *)
Definition backed s : C := set_c_e (u32 (c_e s - 1)) s.
Lemma backed_ok s :
  con_ok s -> c_line s <> [] ->
  con_ok (backed s) /\ c_queue (backed s) = c_queue s /\ c_line s = c_line (backed s) ++ [ring_get N (c_buf s) (u32 (c_e s - 1))].
Proof.
  intros Hs Hne. pose proof Hs as [C1 C2 C3 C4 C5 C6 C7 C8].
  assert (Hpos : 0 < ring_len W (c_w s) (c_e s)). { rewrite <-len_line. destruct (c_line s); [done|]. cbn. lia. }
  assert (Hl : c_line s = c_line (backed s) ++ [ring_get N (c_buf s) (u32 (c_e s - 1))]).
  { unfold c_line. cbn. rewrite (lem ring_back) at 1 by done. unfold u32. by rewrite (lem ring_get_mod). }
  assert (Hu : c_used (backed s) = c_used s - 1) by (unfold c_used; cbn; unfold u32; rewrite (ring_len_back W ltac:(done)) by done; lia).
  specialize (C6 Hne). split; [|done]. split; try done; cbn.
  - auto with word.
  - lia.
  - lia.
  - intros Hin. apply C7. rewrite Hl. apply elem_of_app. by left.
Qed.

(** A character is added to the line. *)
Definition added (c : Z) s : C := set_c_e (u32 (c_e s + 1)) (set_c_buf (ring_set N (c_buf s) (c_e s) c) s).
Lemma added_line c s :
  con_ok s -> c_used s < N -> c_queue (added c s) = c_queue s /\ c_line (added c s) = c_line s ++ [c].
Proof. intros Hs Hu. unfold c_queue, c_line. cbn. apply (lem ring_push_edit); [apply Hs|done|done]. Qed.

Lemma added_used c s : con_ok s -> c_used s < N -> c_used (added c s) = c_used s + 1.
Proof. intros Hs Hu. rewrite !used_len. destruct (added_line c s Hs Hu) as [-> ->]. rewrite length_app. cbn. lia. Qed.

Lemma added_ok c s : con_ok s -> is_byte c -> c <> NL -> c_used s + 1 < N -> con_ok (added c s).
Proof.
  intros Hs Hc Hnl Hu. destruct (added_line c s Hs ltac:(lia)) as [Q1 Q2]. pose proof (added_used c s Hs ltac:(lia)) as Hu'.
  destruct Hs as [C1 C2 C3 C4 C5 C6 C7 C8]. split; try done; try lia; cbn.
  - by rewrite length_ring_set.
  - auto with word.
  - rewrite Q2. intros [Hin|Hin]%elem_of_app; [done|]. apply list_elem_of_singleton in Hin. done.
  - unfold ring_set. by apply Forall_insert.
Qed.

(** And the line is complete. *)
Definition committed s : C := set_c_w (c_e s) s.
Lemma committed_ok c s :
  con_ok s -> is_byte c -> c_used s < N ->
  con_ok (committed (added c s)) /\ c_queue (committed (added c s)) = c_queue s ++ c_line s ++ [c] /\ c_line (committed (added c s)) = [].
Proof.
  intros Hs Hc Hu. destruct (added_line c s Hs Hu) as [Q1 Q2]. pose proof (added_used c s Hs Hu) as Hu'.
  assert (Hnil : c_line (committed (added c s)) = []) by (unfold c_line; cbn; apply ring_empty; done).
  assert (Hq : c_queue (committed (added c s)) = c_queue s ++ c_line s ++ [c]).
  { rewrite <-Q1, <-Q2. unfold c_queue, c_line. apply (lem ring_split). unfold c_used at 1 in Hu'. cbn in *. unfold INPUT_BUF_SIZE in *. lia. }
  split; [|done]. destruct Hs as [C1 C2 C3 C4 C5 C6 C7 C8]. split; try done; cbn.
  - by rewrite length_ring_set.
  - auto with word.
  - auto with word.
  - rewrite used_len, Hnil, Hq. rewrite used_len, Q1, Q2 in Hu'. rewrite !length_app in *. cbn in *. lia.
  - rewrite Hnil. apply not_elem_of_nil.
  - unfold ring_set. by apply Forall_insert.
Qed.

(** The oldest character is taken. *)
Definition taken s : C := set_c_r (u32 (c_r s + 1)) s.
Lemma taken_ok s :
  con_ok s -> c_queue s <> [] ->
  con_ok (taken s) /\ c_line (taken s) = c_line s /\ c_queue s = ring_get N (c_buf s) (c_r s) :: c_queue (taken s).
Proof.
  intros Hs Hne. pose proof Hs as [C1 C2 C3 C4 C5 C6 C7 C8].
  assert (Hpos : 0 < ring_len W (c_r s) (c_w s)). { rewrite <-len_queue. destruct (c_queue s); [done|]. cbn. lia. }
  assert (Hq : c_queue s = ring_get N (c_buf s) (c_r s) :: c_queue (taken s)) by (unfold c_queue; apply (lem ring_pop); done).
  assert (Hu : c_used (taken s) = c_used s - 1) by (unfold c_used; cbn; unfold u32; rewrite (ring_len_pop W ltac:(done)) by done; lia).
  split; [|done]. split; try done; cbn; [auto with word|lia|]. intros Hl. specialize (C6 Hl). lia.
Qed.

Lemma taken_back s : con_ok s -> set_c_r (u32 (c_r (taken s) - 1)) (taken s) = s.
Proof.
  intros Hs. pose proof (ck_r s Hs) as Hr. unfold taken. cbn. unfold u32. rewrite Zminus_mod_idemp_l. replace (c_r s + 1 - 1) with (c_r s) by lia.
  rewrite Z.mod_small by done. by destruct s.
Qed.

End Facts.

(** ** Typing *)

Section Typing.
Context {D U : Type} `{UartDev D} `{!UartLaws D}.
Variable (me : Z) (polls : nat) (stack : list Z).
Context (Hpat : patient (D := D) polls) (Hstack : length stack = 16%nat).
Local Notation C := (console D U).
Implicit Types s : C.

Definition con_ready s : Prop := pr_ready (c_pr s) /\ lock_free (c_lock s) /\ Forall proc_ok (c_procs s).

(** The terminal became [t], and [bs] was sent. *)
Record typed (t : tty) (bs : list Z) s s' : Prop := {
  ty_ok : con_ok s';
  ty_tty : tty_of s' = t;
  ty_emits : pr_emits bs (c_pr s) (c_pr s');
  ty_rest : c_lock s' = c_lock s /\ c_procs s' = c_procs s /\ c_killed s' = c_killed s /\ c_um s' = c_um s
}.

Lemma wp_on_uart m bs s (Q : unit -> C -> Prop) :
  prints m bs -> pr_ready (c_pr s) -> (forall p, pr_emits bs (c_pr s) p -> Q tt (set_c_pr p s)) -> wp (on_uart m) s Q.
Proof. intros Hm [_ Hp] HQ. unfold on_uart. do 2 apply wp_zoom. eapply wp_mono; [by apply Hm|]. intros [] u Hu. by apply HQ. Qed.

Lemma pr_emits_nil (p : prstate D) : pr_emits [] p p.
Proof. split_and!; [done..|apply emits_nil]. Qed.

Lemma prints_erase : prints (St := uart D) (consputc polls BACKSPACE) erase.
Proof. by apply (prints_consputc polls). Qed.

Lemma wp_kill_line s fuel (Q : unit -> C -> Prop) :
  con_ok s -> pr_ready (c_pr s) -> (length (c_line s) < fuel)%nat ->
  (forall s', typed (mkTty (c_queue s) []) (concat (replicate (length (c_line s)) erase)) s s' -> Q tt s') ->
  wp (loop fuel (kill_line_body polls) tt) s Q.
Proof.
  revert s. induction fuel as [|fuel IH]; intros s Hs Hr Hf HQ; [lia|]. rewrite loop_S. unfold kill_line_body at 1. do 3 wp_step. unfold id.
  rewrite (line_nil s Hs). destruct (decide (c_line s = [])) as [E|E].
  { rewrite E in *. cbn [length negb andb Z.eqb Z.of_nat]. do 2 wp_step. apply HQ. split; [done| |apply pr_emits_nil|done].
    unfold tty_of. by rewrite E. }
  destruct (backed_ok s Hs E) as (B1 & B2 & B3). rewrite (proj2 (Z.eqb_neq _ _)) by (destruct (c_line s); [done|cbn; lia]).
  rewrite (proj2 (Z.eqb_neq _ _)).
  2: { intros En. apply (ck_nl s Hs). rewrite B3, En. apply elem_of_app. right. by apply list_elem_of_singleton. }
  cbn [negb andb]. do 2 wp_step. fold (backed s). wp_step. apply (wp_on_uart _ erase); [apply prints_erase|done|]. intros p Hp. wp_step.
  assert (Hl : length (c_line s) = S (length (c_line (backed s)))) by (rewrite B3, length_app; cbn; lia). rewrite Hl in HQ.
  apply IH; [by apply (same_buf_ok (backed s))|by eapply pr_emits_ready|change (length (c_line (backed s)) < fuel)%nat; lia|].
  intros s' [T1 T2 T3 T4]. apply HQ. split; [done|by rewrite <-B2| |done]. cbn [replicate concat]. by eapply pr_emits_app.
Qed.

Lemma added_diff c s : con_ok s -> c_used s < N -> u32 (c_e (added c s) - c_r s) = c_used s + 1.
Proof.
  intros Hs Hu. pose proof (added_used c s Hs Hu) as Hu'. unfold c_used at 1 in Hu'. cbn in Hu'.
  change (ring_len W (c_r s) (u32 (c_e s + 1)) = c_used s + 1). rewrite (ring_len_split W ltac:(done) _ (c_w s)); unfold INPUT_BUF_SIZE in *; lia.
Qed.

(** The end of a line becomes readable. *)
Lemma wp_commit_line c s p (Q : unit -> C -> Prop) :
  con_ok s -> is_byte c -> c_used s < N -> pr_emits [c] (c_pr s) p ->
  (forall s', (if (c =? NL) || (c =? EOT) || (Z.of_nat (length (c_queue s) + length (c_line s ++ [c])) =? 128)
     then typed (mkTty (c_queue s ++ c_line s ++ [c]) []) [c] s s' else typed (mkTty (c_queue s) (c_line s ++ [c])) [c] s s') -> Q tt s') ->
  wp (let! s := gets id in
      when ((c =? NL) || (c =? ctrl 68) || (u32 (c_e s - c_r s) =? N)) (modify (fun s => set_c_w (c_e s) s) ;; wakeup CONS_R))
    (set_c_pr p (added c s)) Q.
Proof.
  intros Hs Hc Hu Hp HQ. do 2 wp_step. unfold id, wakeup. change (c_e (set_c_pr p ?x)) with (c_e x).
  change (c_r (set_c_pr p (added c s))) with (c_r s). rewrite added_diff by done. change (ctrl 68) with EOT.
  destruct (added_line c s Hs Hu) as [Q1 Q2]. pose proof (added_used c s Hs Hu) as Hu'. rewrite used_len, Q1, Q2 in Hu'.
  rewrite Hu' in HQ. change 128 with N in HQ. destruct (_ || _) eqn:E.
  - wp_step. wp_step. wp_step. wp_step. apply HQ. destruct (committed_ok c s Hs Hc Hu) as (K1 & K2 & K3).
    split; [by apply (same_buf_ok (committed (added c s)))| |done|done]. rewrite <-K2, <-K3. done.
  - wp_step. apply HQ. bool_simpl. split; [|by rewrite <-Q1, <-Q2|done|done].
    apply (same_buf_ok (added c s)); [done|]. apply added_ok; [done|done|done|]. pose proof (ck_bound s Hs). lia.
Qed.

(** An ordinary character. *)
Lemma wp_ordinary c s (Q : unit -> C -> Prop) :
  con_ok s -> pr_ready (c_pr s) -> is_byte c -> c <> 16 -> c <> 21 -> c <> 8 -> c <> 127 ->
  (forall s', (let '(t, echo) := tty_type [] c (tty_of s) in typed t echo s s') -> Q tt s') ->
  wp (let! s := gets id in
      when (negb (c =? 0) && (u32 (c_e s - c_r s) <? INPUT_BUF_SIZE))
       (let c := if c =? 13 then NL else c in
        on_uart (consputc polls c) ;;
        modify (fun s => set_c_buf (ring_set INPUT_BUF_SIZE (c_buf s) (c_e s) (u8 c)) s) ;;
        modify (fun s => set_c_e (u32 (c_e s + 1)) s) ;;
        let! s := gets id in
        when ((c =? NL) || (c =? ctrl 68) || (u32 (c_e s - c_r s) =? INPUT_BUF_SIZE))
          (modify (fun s => set_c_w (c_e s) s) ;; wakeup CONS_R))) s Q.
Proof.
  intros Hs Hr Hc H1 H2 H3 H4 HQ. unfold tty_type in HQ.
  rewrite (proj2 (Z.eqb_neq _ _) H1), (proj2 (Z.eqb_neq _ _) H2), (proj2 (Z.eqb_neq _ _) H3), (proj2 (Z.eqb_neq _ _) H4) in HQ.
  cbn [orb tq tline tty_of] in HQ. rewrite <-used_len in HQ. change (128 <=? c_used s) with (N <=? c_used s) in HQ. rewrite Z.leb_antisym in HQ.
  assert (Hnone : typed (mkTty (c_queue s) (c_line s)) [] s s) by (split; [done|done|apply pr_emits_nil|done]).
  wp_step. wp_step. unfold id. rewrite (used_diff s Hs). destruct (Z.eqb_spec c 0) as [E0|E0]; cbn [orb negb andb] in *; [wp_step; by apply HQ|].
  destruct (Z.ltb_spec (c_used s) N) as [Hu|Hu]; cbn [negb] in HQ; wp_step; [|by apply HQ].
  set (c' := if c =? 13 then NL else c) in *. assert (Hc' : is_byte c') by (unfold c'; destruct (c =? 13); done). clearbody c'.
  wp_step. apply (wp_on_uart _ [c']); [by apply prints_byte|done|]. intros p Hp. do 2 wp_step. do 2 wp_step. rewrite (u8_small c') by exact Hc'.
  apply (wp_commit_line c' s p); [done..|]. intros s' Hs'. apply HQ. by destruct (_ || _).
Qed.

(** consoleintr() does to the terminal what [tty_type] says. *)
Lemma wp_consoleintr s c :
  con_ok s -> con_ready s -> is_byte c ->
  let '(t, echo) := tty_type (procdump_text (c_procs s)) c (tty_of s) in
  wp (consoleintr me polls stack c) s (fun _ s' => typed t echo s s').
Proof.
  intros Hs (Hr & Hl & Hps) Hc. destruct (tty_type _ _ _) as [t echo] eqn:Et. unfold consoleintr. wp_step. apply wp_acquire_at; [done|].
  set (s0 := put c_lock_lens _ s). assert (Hs0 : con_ok s0) by (by apply (same_buf_ok s)).
  assert (HQ : forall s1, typed t echo s0 s1 -> wp (release_at me c_lock_lens) s1 (fun _ s' => typed t echo s s')).
  { intros s1 [T1 T2 T3 (T4 & T5 & T6 & T7)]. apply (wp_release_at _ _ _ (c_lock s)); [done|done|].
    split; [by apply (same_buf_ok s1)|done|done|done]. }
  change (tty_of s) with (tty_of s0) in Et. change (c_procs s) with (c_procs s0) in Et. wp_step. unfold tty_type in Et.
  change (c =? ctrl 80) with (c =? 16). change (c =? ctrl 85) with (c =? 21). change (c =? ctrl 72) with (c =? 8).
  destruct (c =? 16) eqn:E16.
  { injection Et as <- <-. wp_step. wp_step. apply wp_zoom. eapply wp_mono; [by apply wp_procdump|]. intros [] p Hp. apply HQ.
    split; [by apply (same_buf_ok s0)|done|done|done]. }
  destruct (c =? 21) eqn:E21.
  { injection Et as <- <-. apply wp_kill_line; [done|done| |done]. pose proof (ck_bound s0 Hs0) as Hb. rewrite used_len in Hb.
    unfold INPUT_BUF_SIZE in *. lia. }
  destruct ((c =? 8) || (c =? 127)) eqn:E8.
  { wp_step. wp_step. unfold id. rewrite (line_nil s0 Hs0). cbn [tline tty_of] in Et. destruct (decide (c_line s0 = [])) as [E|E].
    - rewrite E in *. injection Et as <- <-. wp_step. apply HQ. split; [done|unfold tty_of; by rewrite E|apply pr_emits_nil|done].
    - destruct (backed_ok s0 Hs0 E) as (B1 & B2 & B3). rewrite (proj2 (Z.eqb_neq _ _)) by (destruct (c_line s0); [done|cbn; lia]). cbn [negb].
      wp_step. wp_step. wp_step. fold (backed s0). apply (wp_on_uart _ erase); [apply prints_erase|done|]. intros p Hp. apply HQ.
      assert (Et' : t = mkTty (c_queue s0) (removelast (c_line s0)) /\ echo = erase) by (destruct (c_line s0); [done|by injection Et as <- <-]).
      destruct Et' as [-> ->]. split; [by apply (same_buf_ok (backed s0))| |done|done]. rewrite B3, removelast_last, <-B2. done. }
  bool_simpl. apply wp_ordinary; try done.
  intros s1 Hs1. apply HQ. unfold tty_type in Hs1. rewrite !(proj2 (Z.eqb_neq _ _)) in Hs1 by done. cbn [orb] in Hs1. by rewrite Et in Hs1.
Qed.

Definition c_uart s : uart D := pr_uart (c_pr s).

Lemma typed_ready t bs s s' : typed t bs s s' -> con_ready s -> con_ready s'.
Proof. intros [_ _ He (A & B & _ & _)] (Hp & Hl & Hq). split; [by eapply pr_emits_ready|]. by rewrite A, B. Qed.

Lemma typed_trans t1 b1 t2 b2 s1 s2 s3 : typed t1 b1 s1 s2 -> typed t2 b2 s2 s3 -> typed t2 (b1 ++ b2) s1 s3.
Proof.
  intros [_ _ He (A & B & C1 & E)] [Ho Ht He' (A' & B' & C1' & E')]. split; [done|done|by eapply pr_emits_app|]. split_and!; congruence.
Qed.

(** The device took its byte out of the receive register. *)
Definition received (d : D) s : C := set_c_pr (mkPr (pr_lock (c_pr s)) (pr_locking (c_pr s)) (set_dev d (c_uart s))) s.

Lemma wp_receive cs s fuel (Q : unit -> C -> Prop) :
  con_ok s -> con_ready s -> inp (c_uart s) = cs -> (length cs < fuel)%nat ->
  (forall s', (let '(t, echo) := tty_types (procdump_text (c_procs s)) cs (tty_of s) in
     con_ok s' /\ tty_of s' = t /\ inp (c_uart s') = [] /\ out (c_uart s') = out (c_uart s) ++ echo /\
     uart_tx_lock (c_uart s') = uart_tx_lock (c_uart s) /\ uart_tx_buf (c_uart s') = uart_tx_buf (c_uart s) /\
     uart_tx_w (c_uart s') = uart_tx_w (c_uart s) /\ uart_tx_r (c_uart s') = uart_tx_r (c_uart s) /\ c_um s' = c_um s) -> Q tt s') ->
  wp (loop fuel (uartintr_body me polls stack) tt) s Q.
Proof.
  revert s fuel. induction cs as [|c cs IH]; intros s fuel Hs Hr Hi Hf HQ; (destruct fuel as [|fuel]; [cbn in Hf; lia|]);
    rewrite loop_S; unfold uartintr_body at 1, on_uart; do 2 wp_step; do 2 apply wp_zoom; apply wp_uartgetc; cbn [view c_pr_lens pr_uart_lens];
    change (pr_uart (c_pr s)) with (c_uart s); rewrite Hi; intros d Hd.
  - intros Ha. wp_step. wp_step. apply HQ. cbn [tty_types]. split_and!; try done; [by apply (same_buf_ok s)|]. rewrite app_nil_r. done.
  - intros Hc Ha. rewrite (proj2 (Z.eqb_neq _ _)) by (unfold is_byte in Hc; lia). wp_step. fold (received d s).
    cbn [tty_types] in HQ. pose proof (wp_consoleintr (received d s) c ltac:(by apply (same_buf_ok s)) Hr Hc) as Hw.
    change (tty_of (received d s)) with (tty_of s) in Hw. change (c_procs (received d s)) with (c_procs s) in Hw.
    destruct (tty_type _ c (tty_of s)) as [t1 e1]. eapply wp_mono; [exact Hw|]. intros [] s1 T1. cbn beta. wp_step.
    pose proof (typed_ready _ _ _ _ T1 Hr) as Hr1. destruct T1 as [O1 E1 (_ & _ & [M1 [M2 M3 M4] (M5 & M6 & M7) _ _]) (_ & P1 & _ & U1)].
    cbn in M1, M2, M3, M5, M6, M7, P1, U1. apply IH; [done|done| |cbn in Hf; lia|].
    + etransitivity; [exact M4|exact Ha].
    + rewrite P1, E1. destruct (tty_types _ cs t1) as [t2 e2]. intros s2 (A1 & A2 & A3 & A4 & A5 & A6 & A7 & A8 & A9).
      unfold c_uart in *. apply HQ. split_and!; [done|done|done| |congruence..].
      rewrite A4, app_assoc. f_equal. etransitivity; [exact M1|]. f_equal. exact Hd.
Qed.

(** C17: the console edits lines.  An interrupt of the serial port passes the
    received characters to consoleintr() in order, and what they do to the
    terminal is what [tty_types] says: an ordinary character is echoed and
    appended to the line unless the 128-byte buffer is full, carriage return
    counts as newline, backspace and delete take back the last character of
    the line and control-U all of it, erasing as many characters on the
    screen, and newline, control-D or a full buffer make the line readable;
    control-P prints the processes.  The wrapping counters of the ring do not
    show, and the interrupt then sends what it can of the output that waits. *)
Theorem console_edits s fuel :
  let u := pr_uart (c_pr s) in
  con_ok s -> con_ready s -> tx_ok u -> lock_free (uart_tx_lock u) -> (length (inp u) < fuel)%nat ->
  let '(t, echo) := tty_types (procdump_text (c_procs s)) (inp u) (tty_of s) in
  wp (uartintr me polls stack fuel) s (fun _ s' =>
    let u' := pr_uart (c_pr s') in
    con_ok s' /\ tty_of s' = t /\ inp u' = [] /\ c_um s' = c_um s /\
    exists k, out u' = out u ++ echo ++ take k (tx_queue u) /\ tx_queue u' = drop k (tx_queue u)).
Proof.
  intros u Hs Hr Htx Hl Hf. destruct (tty_types _ _ _) as [t echo] eqn:Et. unfold uartintr. wp_step. apply (wp_receive (inp u)); [done|done|done|done|].
  rewrite Et. unfold c_uart. fold u. intros s1 (A1 & A2 & A3 & A4 & A5 & A6 & A7 & A8 & A9). unfold on_uart. do 2 apply wp_zoom. cbn [view c_pr_lens pr_uart_lens].
  assert (Hq : tx_queue (pr_uart (c_pr s1)) = tx_queue u) by (unfold tx_queue; by rewrite A6, A7, A8).
  apply wp_uartintr_send; [|by rewrite A5|].
  - destruct Htx. split; rewrite ?A6, ?A7, ?A8; done.
  - intros u' (D1 & [D2 D3 D4] & D5 & k & D6 & D7). split_and!; [by apply (same_buf_ok s1)|done| |done|].
    + etransitivity; [exact D4|done].
    + exists k. rewrite app_nil_r, Hq in *. cbn. rewrite D6, A4, <-app_assoc. done.
Qed.

End Typing.

(** ** Reading *)

Section Reading.
Context {D U : Type} `{UserIO U}.
Variable me : Z.
Local Notation C := (console D U).
Implicit Types s : C.

(** The bytes [bs] copied to the caller, one at a time from [dst] on. *)
Fixpoint deliver_at (ud : bool) (dst : Z) (bs : list Z) (u : U) : U :=
  match bs with
  | [] => u
  | b :: bs => deliver_at ud (u64 (dst + 1)) bs (snd (either_copyout ud dst [b] u))
  end.

(** The buffer of [n] bytes can be written, and stays so. *)
Definition writable (ud : bool) (dst n : Z) (P : U -> Prop) : Prop :=
  forall (j b : Z) (u : U), P u -> 0 <= j < n ->
    fst (either_copyout ud (u64 (dst + j)) [b] u) = true /\ P (snd (either_copyout ud (u64 (dst + j)) [b] u)).

Lemma writable_next ud dst n P : writable ud dst n P -> writable ud (u64 (dst + 1)) (n - 1) P.
Proof.
  intros Hw j b u Hu Hj. destruct (Hw (j + 1) b u Hu ltac:(lia)) as [A B]. unfold u64 in *. rewrite Z.add_mod_idemp_l by lia.
  replace (dst + 1 + j) with (dst + (j + 1)) by lia. done.
Qed.

(** The result of a read that delivered [d] and leaves [rest]. *)
Record did_read (s s' : C) ud dst (d rest : list Z) : Prop := {
  dr_ok : con_ok s';
  dr_queue : c_queue s' = rest;
  dr_line : c_line s' = c_line s;
  dr_um : c_um s' = deliver_at ud dst d (c_um s);
  dr_lock : lock_free (c_lock s');
  dr_same : c_pr s' = c_pr s /\ c_procs s' = c_procs s /\ c_killed s' = c_killed s
}.

(** What a read returns. *)
Definition read_result (killed target dst n : Z) (d : list Z) (complete : bool) : Z * Z + Z :=
  let m := Z.of_nat (length d) in
  if complete then inr (target - (n - m)) else if killed =? 0 then inl (u64 (dst + m), n - m) else inr (-1).

(** The loop is left, with the lock given back. *)
Lemma wp_finish {A B} (k : A -> M C B) (r : B) lk s (Q : B -> C -> Prop) :
  c_lock s = lock_taken me lk -> lock_free lk -> Q r (set_c_lock lk s) ->
  wp (release_at me c_lock_lens ;; ret (inr r)) s (fun x s' => wp (match x with inl a => k a | inr b => ret b end) s' Q).
Proof. intros Hl Hf HQ. wp_step. by eapply wp_release_at. Qed.

Lemma wp_consoleread_loop ud target P lk fuel : lock_free lk -> forall s dst n (Q : Z * Z + Z -> C -> Prop),
  con_ok s -> c_lock s = lock_taken me lk -> 0 <= n <= target -> target < 2 ^ 31 -> 0 <= dst < 2 ^ 64 -> writable ud dst n P -> P (c_um s) ->
  (Z.to_nat n < fuel)%nat ->
  (let '(d, rest, complete) := tty_read (Z.to_nat n) (n =? target) (c_queue s) in
   forall s', did_read s s' ud dst d rest -> Q (read_result (c_killed s) target dst n d complete) s') ->
  wp (loop fuel (consoleread_body me ud target) (dst, n)) s Q.
Proof.
  intros Hlk. induction fuel as [|fuel IH]; intros s dst n Q Hs Hlo Hn Ht Hd Hw HP Hf HQ; [lia|]. rewrite loop_S. unfold consoleread_body at 1.
  assert (Hend : forall k, 0 <= k <= target -> i32 (target - k) = target - k) by (intros; apply i32_small; lia).
  destruct (Z.ltb_spec 0 n) as [Hpos|Hz].
  2: { assert (n = 0) as -> by lia. cbn [Z.to_nat tty_read] in HQ. wp_step. apply (wp_finish _ _ lk); [done|done|].
    rewrite Hend by lia. apply (HQ (set_c_lock lk s)). split; try done. by apply (same_buf_ok s). }
  replace (Z.to_nat n) with (S (Z.to_nat (n - 1))) in HQ by lia. cbn [tty_read] in HQ.
  do 3 wp_step. unfold id. rewrite (queue_nil s Hs). destruct (decide (c_queue s = [])) as [E|E].
  - rewrite E in HQ |- *. cbn [length Z.of_nat Z.eqb]. assert (Hdr : did_read s (set_c_lock lk s) ud dst [] []).
    { split; try done. by apply (same_buf_ok s). }
    specialize (HQ _ Hdr). unfold read_result in HQ. cbn [length Z.of_nat] in HQ. rewrite Z.add_0_r, Z.sub_0_r, u64_small in HQ by lia.
    destruct (c_killed s =? 0) eqn:Ek; cbn [negb]; by apply (wp_finish _ _ lk).
  - destruct (taken_ok s Hs E) as (K1 & K2 & K3). rewrite (proj2 (Z.eqb_neq _ _)) by (destruct (c_queue s); [done|cbn; lia]).
    set (c := ring_get N (c_buf s) (c_r s)) in *. rewrite K3 in HQ. do 2 wp_step. fold (taken s). change (ctrl 68) with EOT.
    destruct (c =? EOT).
    + unfold read_result in HQ. cbn [length Z.of_nat] in HQ. rewrite Z.sub_0_r in HQ. rewrite u32_small by lia. destruct (Z.eqb_spec n target) as [->|Hne].
      * rewrite Z.ltb_irrefl. do 2 wp_step. apply (wp_finish _ _ lk); [done|done|]. rewrite Hend by lia.
        apply (HQ (set_c_lock lk (taken s))). split; try done. by apply (same_buf_ok (taken s)).
      * rewrite (proj2 (Z.ltb_lt n target)) by lia. do 3 wp_step. rewrite taken_back by done. apply (wp_finish _ _ lk); [done|done|]. rewrite Hend by lia.
        apply (HQ (set_c_lock lk s)). split; try done. by apply (same_buf_ok s).
    + do 2 wp_step. change (c_um (taken s)) with (c_um s). destruct (Hw 0 c (c_um s) HP ltac:(lia)) as [W1 W2]. rewrite Z.add_0_r, u64_small in W1, W2 by lia.
      wp_step. wp_step. rewrite W1. cbn [negb]. set (s1 := set_c_um _ _). destruct (c =? NL).
      * apply (wp_finish _ _ lk); [done|done|]. rewrite Hend by lia. apply (HQ (set_c_lock lk s1)). split; try done. by apply (same_buf_ok (taken s)).
      * wp_step. apply IH; [by apply (same_buf_ok (taken s))|done|lia|done|apply u64_range|by apply writable_next|done|lia|].
        change (c_queue s1) with (c_queue (taken s)). rewrite (proj2 (Z.eqb_neq (n - 1) target)) by lia.
        destruct (tty_read (Z.to_nat (n - 1)) false (c_queue (taken s))) as [[d rest] b]. intros s' [R1 R2 R3 R4 R5 R6].
        replace (read_result (c_killed s1) target (u64 (dst + 1)) (n - 1) d b) with (read_result (c_killed s) target dst n (c :: d) b).
        -- apply HQ. by split.
        -- unfold read_result. rewrite length_cons, Nat2Z.inj_succ. cbn. replace (n - Z.succ (Z.of_nat (length d))) with (n - 1 - Z.of_nat (length d)) by lia.
           unfold u64. rewrite Z.add_mod_idemp_l by lia. by replace (dst + 1 + Z.of_nat (length d)) with (dst + Z.succ (Z.of_nat (length d))) by lia.
Qed.

(** C33: reads from the console deliver lines.  consoleread() of [n] bytes, with
    its buffer mapped, copies the readable input in order up to and including
    the first newline, up to [n] bytes, or up to a control-D, which it removes
    if it is the first character (so that the read returns 0) and otherwise
    keeps for the next read; it returns the number of bytes.  When the input
    runs out before that, it sleeps with what it has delivered and continues
    from there, or returns -1 if the process was killed.  The line being typed
    is not touched. *)
Theorem consoleread_lines s ud target dst n P :
  con_ok s -> lock_free (c_lock s) -> 0 <= n <= target -> target < 2 ^ 31 -> 0 <= dst < 2 ^ 64 -> writable ud dst n P -> P (c_um s) ->
  let '(d, rest, complete) := tty_read (Z.to_nat n) (n =? target) (tq (tty_of s)) in
  wp (consoleread me ud target dst n) s (fun r s' =>
    r = read_result (c_killed s) target dst n d complete /\
    con_ok s' /\ tty_of s' = mkTty rest (tline (tty_of s)) /\ c_um s' = deliver_at ud dst d (c_um s) /\ lock_free (c_lock s')).
Proof.
  intros Hs Hl Hn Ht Hd Hw HP. cbn [tq tline tty_of]. destruct (tty_read _ _ _) as [[d rest] b] eqn:Er. unfold consoleread. wp_step.
  apply wp_acquire_at; [done|]. apply (wp_consoleread_loop ud target P (c_lock s)); try done; [by apply (same_buf_ok s)|lia|].
  change (c_queue (put _ _ s)) with (c_queue s). rewrite Er. intros s' [R1 R2 R3 R4 R5 R6]. split; [done|]. split; [done|]. split; [|done].
  unfold tty_of. by rewrite R2, R3.
Qed.

End Reading.

(** ** A typed line on the simulated port *)
Module ConsoleDemo.
Import UartDemo PrintfDemo.

(** The keys a, b, backspace, c, return were pressed. *)
Definition console_with (keys : list Z) : console sim flat :=
  mkConsole (initlock "cons") (replicate 128 0) 0 0 0 (mkPr (initlock "pr") 1 (idle keys)) [] 0 (mkFlat 4096 ∅).
Definition pressed : list Z := [97; 98; 8; 99; 13].

Lemma fresh_ok keys : con_ok (console_with keys).
Proof. split; try done; [apply not_elem_of_nil|by apply Forall_replicate]. Qed.

Lemma fresh_ready keys : con_ready (console_with keys).
Proof. split; [|done]. split; [done|]. apply sim_port. Qed.

Lemma fresh_tx keys : tx_ok (pr_uart (c_pr (console_with keys))).
Proof. split; try done. by apply Forall_replicate. Qed.

Lemma console_edits_witness :
  wp (uartintr 0 2 stack 10) (console_with pressed) (fun _ s' =>
    tty_of s' = mkTty [97; 99; 10] [] /\ line (u_dev (pr_uart (c_pr s'))) = [97; 98; 8; 32; 8; 99; 10]).
Proof.
  assert (E : tty_types (procdump_text []) (map u8 pressed) (tty_of (console_with pressed)) = (mkTty [97; 99; 10] [], [97; 98; 8; 32; 8; 99; 10]))
    by (vm_compute; reflexivity).
  pose proof (console_edits 0 2 stack sim_patient eq_refl (console_with pressed) 10 (fresh_ok _) (fresh_ready _) (fresh_tx _) (conj eq_refl eq_refl)) as Hw. cbv zeta in Hw.
  change (inp (pr_uart (c_pr (console_with pressed)))) with (map u8 pressed) in Hw. change (c_procs (console_with pressed)) with (@nil (Z * list Z * list Z)) in Hw. rewrite E in Hw.
  eapply wp_mono; [apply Hw; vm_compute; lia|]. clear Hw. intros [] s' (_ & Ht & _ & _ & k & Ho & _). split; [exact Ht|]. change (tx_queue (pr_uart (c_pr (console_with pressed)))) with (@nil Z) in Ho. rewrite take_nil in Ho. exact Ho.
Defined.

Definition entered : console sim flat := mkConsole (initlock "cons") ([104; 105; 10] ++ replicate 125 0) 0 3 3 (mkPr (initlock "pr") 1 (idle [])) [] 0 (mkFlat 4096 ∅).

Lemma consoleread_lines_witness :
  wp (consoleread 0 true 100 200 100) entered (fun r s' => r = inr 3 /\ tty_of s' = mkTty [] []).
Proof.
  eapply wp_mono; [apply (consoleread_lines 0 entered true 100 200 100 (fun u => flat_top u = 4096))|].
  - split; try done; [apply not_elem_of_nil|]. apply (Forall_app_2 _ [104; 105; 10]); [by repeat constructor|by apply Forall_replicate].
  - done.
  - lia.
  - lia.
  - lia.
  - intros j b u Hu Hj. cbn. rewrite Hu, u64_small by lia. rewrite (proj2 (Z.leb_le 0 (200 + j))) by lia.
    destruct (Z.leb_spec (200 + j + Z.of_nat 1) 4096); [done|lia].
  - done.
  - intros r s' (Hr & _ & Ht & _). split; [exact Hr|exact Ht].
Defined.

End ConsoleDemo.
