(* ===== verification/Virtio.v ===== *)
(** * The disk driver (kernel/virtio_disk.c)

    The driver and the device share three structures in memory: descriptors,
    a ring of requests for the device and a ring of requests it has finished.
    The pages that hold them are kept here as the structures themselves, and a
    pointer that goes into a descriptor is the object it points to.  A
    [struct buf *] is one more than an index of [v_bufs], and 0 is null.
    virtio_disk_rw() is split where it sleeps: while it waits for descriptors,
    and while it waits for the device.  VirtioFacts.v has the device and the
    theorem about any interleaving of requests. *)

From S2P Require Import Prelude Spinlock Mem CStringFacts Riscv Kalloc BufCache Ring.

Definition NUM : Z := 8.
Definition VRING_DESC_F_NEXT : Z := 1.
Definition VRING_DESC_F_WRITE : Z := 2.
Definition VIRTIO_BLK_T_IN : Z := 0.
Definition VIRTIO_BLK_T_OUT : Z := 1.

Definition VIRTIO_MMIO_MAGIC_VALUE : Z := 0.
Definition VIRTIO_MMIO_VERSION : Z := 4.
Definition VIRTIO_MMIO_DEVICE_ID : Z := 8.
Definition VIRTIO_MMIO_VENDOR_ID : Z := 12.
Definition VIRTIO_MMIO_DEVICE_FEATURES : Z := 16.
Definition VIRTIO_MMIO_DRIVER_FEATURES : Z := 32.
Definition VIRTIO_MMIO_QUEUE_SEL : Z := 48.
Definition VIRTIO_MMIO_QUEUE_NUM_MAX : Z := 52.
Definition VIRTIO_MMIO_QUEUE_NUM : Z := 56.
Definition VIRTIO_MMIO_QUEUE_READY : Z := 68.
Definition VIRTIO_MMIO_QUEUE_NOTIFY : Z := 80.
Definition VIRTIO_MMIO_INTERRUPT_STATUS : Z := 96.
Definition VIRTIO_MMIO_INTERRUPT_ACK : Z := 100.
Definition VIRTIO_MMIO_STATUS : Z := 112.
Definition VIRTIO_MMIO_QUEUE_DESC_LOW : Z := 128.
Definition VIRTIO_MMIO_QUEUE_DESC_HIGH : Z := 132.
Definition VIRTIO_MMIO_DRIVER_DESC_LOW : Z := 144.
Definition VIRTIO_MMIO_DRIVER_DESC_HIGH : Z := 148.
Definition VIRTIO_MMIO_DEVICE_DESC_LOW : Z := 160.
Definition VIRTIO_MMIO_DEVICE_DESC_HIGH : Z := 164.
Definition VIRTIO_CONFIG_S_ACKNOWLEDGE : Z := 1.
Definition VIRTIO_CONFIG_S_DRIVER : Z := 2.
Definition VIRTIO_CONFIG_S_DRIVER_OK : Z := 4.
Definition VIRTIO_CONFIG_S_FEATURES_OK : Z := 8.
Definition VIRTIO_BLK_F_RO : Z := 5.
Definition VIRTIO_BLK_F_SCSI : Z := 7.
Definition VIRTIO_BLK_F_CONFIG_WCE : Z := 11.
Definition VIRTIO_BLK_F_MQ : Z := 12.
Definition VIRTIO_F_ANY_LAYOUT : Z := 27.
Definition VIRTIO_RING_F_INDIRECT_DESC : Z := 28.
Definition VIRTIO_RING_F_EVENT_IDX : Z := 29.

(** What a descriptor points to: disk.ops[i], b->data, &disk.info[i].status. *)
Inductive vaddr := VNull | VOp (i : Z) | VData (b : Z) | VStatus (i : Z).

(** struct virtq_desc, struct virtio_blk_req, disk.info[i]; the fields of
    struct buf that the driver uses. *)
Record virtq_desc := mkDesc { d_addr : vaddr; d_len : Z; d_flags : Z; d_next : Z }.
Record virtio_blk_req := mkBlkReq { r_type : Z; r_reserved : Z; r_sector : Z }.
Record vinfo := mkInfo { in_b : Z; in_status : Z }.
Record vbuf := mkVbuf { vb_blockno : Z; vb_disk : Z; vb_data : list Z }.

Definition zero_desc : virtq_desc := mkDesc VNull 0 0 0.
Definition zero_req : virtio_blk_req := mkBlkReq 0 0 0.
Definition zero_info : vinfo := mkInfo 0 0.
Definition zero_vbuf : vbuf := mkVbuf 0 0 [].

(** The memory-mapped registers. *)
Class VirtioRegs (D : Type) := {
  reg_read : Z -> D -> Z * D;
  reg_write : Z -> Z -> D -> D
}.

(** disk (with the pages it points to), the buffers, the page allocator and
    the device.  [avail_idx] and [used_idx] are the counters in the rings,
    [seen_idx] is disk.used_idx. *)
Record disk (D : Type) := mkDisk {
  vdisk_lock : spinlock;
  v_desc : list virtq_desc;
  avail_ring : list Z; avail_idx : Z;
  used_ring : list Z; used_idx : Z;
  v_free : list Z; seen_idx : Z;
  v_info : list vinfo; v_ops : list virtio_blk_req;
  v_bufs : list vbuf; v_kmem : kmem; v_dev : D
}.
Arguments mkDisk {D} _ _ _ _ _ _ _ _ _ _ _ _ _.
Arguments vdisk_lock {D} _.
Arguments v_desc {D} _.
Arguments avail_ring {D} _.
Arguments avail_idx {D} _.
Arguments used_ring {D} _.
Arguments used_idx {D} _.
Arguments v_free {D} _.
Arguments seen_idx {D} _.
Arguments v_info {D} _.
Arguments v_ops {D} _.
Arguments v_bufs {D} _.
Arguments v_kmem {D} _.
Arguments v_dev {D} _.

(** Wait channel &disk.free[0]; a wait for a buffer is on the buffer. *)
Definition DISK_FREE : Z := 0.

(** How a call of virtio_disk_rw() stops: it sleeps until descriptors are
    free, it sleeps until the device has finished the chain that starts at
    [i0], or it returns. *)
Inductive rw_result := WaitDesc | WaitDisk (i0 : Z) | RwDone.

Section Virtio.
Context {D : Type} `{VirtioRegs D}.
Variable (me kend : Z).
Local Notation V := (disk D).

Definition vset_lock l (s : V) : V := mkDisk l (v_desc s) (avail_ring s) (avail_idx s) (used_ring s) (used_idx s) (v_free s) (seen_idx s) (v_info s) (v_ops s) (v_bufs s) (v_kmem s) (v_dev s).
Definition vset_desc d (s : V) : V := mkDisk (vdisk_lock s) d (avail_ring s) (avail_idx s) (used_ring s) (used_idx s) (v_free s) (seen_idx s) (v_info s) (v_ops s) (v_bufs s) (v_kmem s) (v_dev s).
Definition vset_avail r i (s : V) : V := mkDisk (vdisk_lock s) (v_desc s) r i (used_ring s) (used_idx s) (v_free s) (seen_idx s) (v_info s) (v_ops s) (v_bufs s) (v_kmem s) (v_dev s).
Definition vset_used r i (s : V) : V := mkDisk (vdisk_lock s) (v_desc s) (avail_ring s) (avail_idx s) r i (v_free s) (seen_idx s) (v_info s) (v_ops s) (v_bufs s) (v_kmem s) (v_dev s).
Definition vset_free f (s : V) : V := mkDisk (vdisk_lock s) (v_desc s) (avail_ring s) (avail_idx s) (used_ring s) (used_idx s) f (seen_idx s) (v_info s) (v_ops s) (v_bufs s) (v_kmem s) (v_dev s).
Definition vset_seen n (s : V) : V := mkDisk (vdisk_lock s) (v_desc s) (avail_ring s) (avail_idx s) (used_ring s) (used_idx s) (v_free s) n (v_info s) (v_ops s) (v_bufs s) (v_kmem s) (v_dev s).
Definition vset_info i (s : V) : V := mkDisk (vdisk_lock s) (v_desc s) (avail_ring s) (avail_idx s) (used_ring s) (used_idx s) (v_free s) (seen_idx s) i (v_ops s) (v_bufs s) (v_kmem s) (v_dev s).
Definition vset_ops o (s : V) : V := mkDisk (vdisk_lock s) (v_desc s) (avail_ring s) (avail_idx s) (used_ring s) (used_idx s) (v_free s) (seen_idx s) (v_info s) o (v_bufs s) (v_kmem s) (v_dev s).
Definition vset_bufs b (s : V) : V := mkDisk (vdisk_lock s) (v_desc s) (avail_ring s) (avail_idx s) (used_ring s) (used_idx s) (v_free s) (seen_idx s) (v_info s) (v_ops s) b (v_kmem s) (v_dev s).
Definition vset_kmem k (s : V) : V := mkDisk (vdisk_lock s) (v_desc s) (avail_ring s) (avail_idx s) (used_ring s) (used_idx s) (v_free s) (seen_idx s) (v_info s) (v_ops s) (v_bufs s) k (v_dev s).
Definition vset_dev d (s : V) : V := mkDisk (vdisk_lock s) (v_desc s) (avail_ring s) (avail_idx s) (used_ring s) (used_idx s) (v_free s) (seen_idx s) (v_info s) (v_ops s) (v_bufs s) (v_kmem s) d.

Definition vdisk_lock_lens : lens V spinlock := Lens vdisk_lock vset_lock.
Definition v_kmem_lens : lens V kmem := Lens v_kmem vset_kmem.

Definition read_R (r : Z) : M V Z := fun s => let '(x, d) := reg_read r (v_dev s) in Ok x (vset_dev d s).
Definition write_R (r x : Z) : M V unit := modify (fun s => vset_dev (reg_write r (u32 x) (v_dev s)) s).

(** Descriptor, info and buffer accesses. *)
Definition get_desc (i : Z) (s : V) : virtq_desc := default zero_desc (v_desc s !! Z.to_nat i).
Definition get_info (i : Z) (s : V) : vinfo := default zero_info (v_info s !! Z.to_nat i).
Definition get_vbuf (b : Z) (s : V) : vbuf := default zero_vbuf (v_bufs s !! Z.to_nat (b - 1)).
Definition put_desc (i : Z) (d : virtq_desc) : M V unit := modify (fun s => vset_desc (<[Z.to_nat i := d]> (v_desc s)) s).
Definition put_info (i : Z) (f : vinfo -> vinfo) : M V unit := modify (fun s => vset_info (alter f (Z.to_nat i) (v_info s)) s).
Definition put_op (i : Z) (r : virtio_blk_req) : M V unit := modify (fun s => vset_ops (<[Z.to_nat i := r]> (v_ops s)) s).
Definition put_b_disk (b x : Z) : M V unit :=
  modify (fun s => vset_bufs (alter (fun v => mkVbuf (vb_blockno v) x (vb_data v)) (Z.to_nat (b - 1)) (v_bufs s)) s).
Definition put_free (i x : Z) : M V unit := modify (fun s => vset_free (<[Z.to_nat i := x]> (v_free s)) s).

(** The feature bits the driver turns down. *)
Definition refuse (bit features : Z) : Z := Z.land features (Z.lnot (Z.shiftl 1 bit)).

Definition virtio_disk_init : M V unit :=
  modify (vset_lock (initlock "virtio_disk")) ;;
  let! magic := read_R VIRTIO_MMIO_MAGIC_VALUE in
  if negb (magic =? 1953655158) then panic "could not find virtio disk" else
  let! version := read_R VIRTIO_MMIO_VERSION in
  if negb (version =? 2) then panic "could not find virtio disk" else
  let! id := read_R VIRTIO_MMIO_DEVICE_ID in
  if negb (id =? 2) then panic "could not find virtio disk" else
  let! vendor := read_R VIRTIO_MMIO_VENDOR_ID in
  if negb (vendor =? 1431127377) then panic "could not find virtio disk" else
  let status := 0 in
  write_R VIRTIO_MMIO_STATUS status ;;
  let status := Z.lor status VIRTIO_CONFIG_S_ACKNOWLEDGE in
  write_R VIRTIO_MMIO_STATUS status ;;
  let status := Z.lor status VIRTIO_CONFIG_S_DRIVER in
  write_R VIRTIO_MMIO_STATUS status ;;
  let! features := read_R VIRTIO_MMIO_DEVICE_FEATURES in
  let features := refuse VIRTIO_BLK_F_RO features in
  let features := refuse VIRTIO_BLK_F_SCSI features in
  let features := refuse VIRTIO_BLK_F_CONFIG_WCE features in
  let features := refuse VIRTIO_BLK_F_MQ features in
  let features := refuse VIRTIO_F_ANY_LAYOUT features in
  let features := refuse VIRTIO_RING_F_EVENT_IDX features in
  let features := refuse VIRTIO_RING_F_INDIRECT_DESC features in
  write_R VIRTIO_MMIO_DRIVER_FEATURES features ;;
  let status := Z.lor status VIRTIO_CONFIG_S_FEATURES_OK in
  write_R VIRTIO_MMIO_STATUS status ;;
  let! status := read_R VIRTIO_MMIO_STATUS in
  if Z.land status VIRTIO_CONFIG_S_FEATURES_OK =? 0 then panic "virtio disk FEATURES_OK unset" else
  write_R VIRTIO_MMIO_QUEUE_SEL 0 ;;
  let! ready := read_R VIRTIO_MMIO_QUEUE_READY in
  if negb (ready =? 0) then panic "virtio disk should not be ready" else
  let! max := read_R VIRTIO_MMIO_QUEUE_NUM_MAX in
  if max =? 0 then panic "virtio disk has no queue 0" else
  if max <? NUM then panic "virtio disk max queue too short" else
  let! desc := zoom v_kmem_lens (kalloc me) in
  let! avail := zoom v_kmem_lens (kalloc me) in
  let! used := zoom v_kmem_lens (kalloc me) in
  if (desc =? 0) || (avail =? 0) || (used =? 0) then panic "virtio disk kalloc" else
  zoom v_kmem_lens (set_ram (CString.memset desc 0 PGSIZE)) ;;
  modify (vset_desc (replicate (Z.to_nat NUM) zero_desc)) ;;
  zoom v_kmem_lens (set_ram (CString.memset avail 0 PGSIZE)) ;;
  modify (vset_avail (replicate (Z.to_nat NUM) 0) 0) ;;
  zoom v_kmem_lens (set_ram (CString.memset used 0 PGSIZE)) ;;
  modify (vset_used (replicate (Z.to_nat NUM) 0) 0) ;;
  write_R VIRTIO_MMIO_QUEUE_NUM NUM ;;
  write_R VIRTIO_MMIO_QUEUE_DESC_LOW desc ;;
  write_R VIRTIO_MMIO_QUEUE_DESC_HIGH (Z.shiftr desc 32) ;;
  write_R VIRTIO_MMIO_DRIVER_DESC_LOW avail ;;
  write_R VIRTIO_MMIO_DRIVER_DESC_HIGH (Z.shiftr avail 32) ;;
  write_R VIRTIO_MMIO_DEVICE_DESC_LOW used ;;
  write_R VIRTIO_MMIO_DEVICE_DESC_HIGH (Z.shiftr used 32) ;;
  write_R VIRTIO_MMIO_QUEUE_READY 1 ;;
  for_range (Z.to_nat NUM) 0 (fun i => put_free i 1) ;;
  let status := Z.lor status VIRTIO_CONFIG_S_DRIVER_OK in
  write_R VIRTIO_MMIO_STATUS status.

(** alloc_desc(): the search loop. *)
Definition alloc_desc_body (i : Z) : M V (Z + Z) :=
  if i <? NUM then
    let! f := gets (fun s => default 0 (v_free s !! Z.to_nat i)) in
    if negb (f =? 0) then put_free i 0 ;; ret (inr i) else ret (inl (i + 1))
  else ret (inr (-1)).

Definition alloc_desc : M V Z := loop (Z.to_nat NUM + 1) alloc_desc_body 0.

Definition free_desc (i : Z) : M V unit :=
  if NUM <=? i then panic "free_desc 1"
  else
    let! f := gets (fun s => default 0 (v_free s !! Z.to_nat i)) in
    if negb (f =? 0) then panic "free_desc 2"
    else
      put_desc i zero_desc ;;
      put_free i 1 ;;
      wakeup DISK_FREE.

Definition free_chain_body (i : Z) : M V (Z + unit) :=
  let! d := gets (get_desc i) in
  let flag := d_flags d in
  let nxt := d_next d in
  free_desc i ;;
  if negb (Z.land flag VRING_DESC_F_NEXT =? 0) then ret (inl nxt) else ret (inr tt).

Definition free_chain (i : Z) : M V unit := loop (Z.to_nat NUM + 1) free_chain_body i.

(** alloc3_desc(): idx, or None for -1. *)
Definition alloc3_desc : M V (option (Z * Z * Z)) :=
  let! i0 := alloc_desc in
  if i0 <? 0 then ret None else
  let! i1 := alloc_desc in
  if i1 <? 0 then free_desc i0 ;; ret None else
  let! i2 := alloc_desc in
  if i2 <? 0 then free_desc i0 ;; free_desc i1 ;; ret None else
  ret (Some (i0, i1, i2)).

(** virtio_disk_rw() with its descriptors, up to the wait for the device. *)
Definition rw_submit (b : Z) (write : bool) (sector i0 i1 i2 : Z) : M V unit :=
  put_op i0 (mkBlkReq (if write then VIRTIO_BLK_T_OUT else VIRTIO_BLK_T_IN) 0 sector) ;;
  put_desc i0 (mkDesc (VOp i0) 16 VRING_DESC_F_NEXT (u16 i1)) ;;
  put_desc i1 (mkDesc (VData b) BSIZE (Z.lor (if write then 0 else VRING_DESC_F_WRITE) VRING_DESC_F_NEXT) (u16 i2)) ;;
  put_info i0 (fun f => mkInfo (in_b f) 255) ;;
  put_desc i2 (mkDesc (VStatus i0) 1 VRING_DESC_F_WRITE 0) ;;
  put_b_disk b 1 ;;
  put_info i0 (fun f => mkInfo b (in_status f)) ;;
  modify (fun s => vset_avail (ring_set NUM (avail_ring s) (avail_idx s) (u16 i0)) (avail_idx s) s) ;;
  modify (fun s => vset_avail (avail_ring s) (u16 (avail_idx s + 1)) s) ;;
  write_R VIRTIO_MMIO_QUEUE_NOTIFY 0.

(** virtio_disk_rw() from the wait for the device on. *)
Definition rw_wait (b i0 : Z) : M V rw_result :=
  let! v := gets (get_vbuf b) in
  if vb_disk v =? 1 then release_at me vdisk_lock_lens ;; ret (WaitDisk i0)
  else
    put_info i0 (fun f => mkInfo 0 (in_status f)) ;;
    free_chain i0 ;;
    release_at me vdisk_lock_lens ;;
    ret RwDone.

(** virtio_disk_rw() from its start, or when it is woken while it waits for
    descriptors; sleep() has given the lock back and takes it again, and the
    block number of a buffer in use by the caller does not change meanwhile. *)
Definition virtio_disk_rw (b : Z) (write : bool) : M V rw_result :=
  let! v := gets (get_vbuf b) in
  let sector := u32 (vb_blockno v * (BSIZE / 512)) in
  acquire_at me vdisk_lock_lens ;;
  let! idx := alloc3_desc in
  match idx with
  | None => release_at me vdisk_lock_lens ;; ret WaitDesc
  | Some (i0, i1, i2) => rw_submit b write sector i0 i1 i2 ;; rw_wait b i0
  end.

(** virtio_disk_rw() when it is woken while it waits for the device. *)
Definition virtio_disk_rw_woken (b i0 : Z) : M V rw_result :=
  acquire_at me vdisk_lock_lens ;; rw_wait b i0.

Definition virtio_disk_intr_body (_ : unit) : M V (unit + unit) :=
  let! s := gets id in
  if negb (seen_idx s =? used_idx s) then
    let id := ring_get NUM (used_ring s) (seen_idx s) in
    if negb (in_status (get_info id s) =? 0) then panic "virtio_disk_intr status"
    else
      let b := in_b (get_info id s) in
      put_b_disk b 0 ;;
      wakeup b ;;
      modify (fun s => vset_seen (u16 (seen_idx s + 1)) s) ;;
      ret (inl tt)
  else ret (inr tt).

(** [fuel] bounds the completions handled in one interrupt. *)
Definition virtio_disk_intr (fuel : nat) : M V unit :=
  acquire_at me vdisk_lock_lens ;;
  let! st := read_R VIRTIO_MMIO_INTERRUPT_STATUS in
  write_R VIRTIO_MMIO_INTERRUPT_ACK (Z.land st 3) ;;
  loop fuel virtio_disk_intr_body tt ;;
  release_at me vdisk_lock_lens.

End Virtio.
