(* ===== verification/VirtioFacts.v ===== *)
(** * Disk requests in flight

    Any number of processes call virtio_disk_rw(), the device takes requests
    from the ring and completes them in any order, and interrupts arrive at any
    time.  [disk_step] is this system: the calls of the driver are whole
    critical sections, the device follows the virtio specification.  The
    invariant ties the descriptors, the two rings and the waiting processes
    together; the theorem at the end says that requests neither interfere nor
    get lost. *)

From S2P Require Import Prelude Spinlock Mem Riscv Kalloc BufCache Ring Virtio.

(** ** The device *)

(** What the device has made of a request: nothing yet, the data it should have
    moved, or an error. *)
Inductive answer := Asked | Moved (d : list Z) | Failed.

(** A process that waits for the device: its buffer, the direction, its three
    descriptors, and the answer. *)
Record call := mkCall { c_b : Z; c_write : bool; c_i0 : Z; c_i1 : Z; c_i2 : Z; c_res : answer }.
Definition c_idx (c : call) : list Z := [c_i0 c; c_i1 c; c_i2 c].
#[global] Instance answer_dec : EqDecision answer.
Proof. solve_decision. Defined.

Record world (D : Type) := mkWorld {
  w_v : disk D;
  (** how far the device has read the ring of requests, the requests it works
      on, and the bytes on the medium *)
  w_next : Z; w_taken : list Z; w_media : Z -> Z;
  w_calls : list call
}.
Arguments mkWorld {D} _ _ _ _ _.
Arguments w_v {D} _.
Arguments w_next {D} _.
Arguments w_taken {D} _.
Arguments w_media {D} _.
Arguments w_calls {D} _.

Section Facts.
Context {D : Type} `{VirtioRegs D}.
Variable me : Z.
Local Notation V := (disk D).
Implicit Types (s v : V) (w : world D) (c : call).
Local Notation W := (2 ^ 16).

(** What the device finds when it follows a chain: direction, sector, buffer,
    length of the data and the status byte to write.  It expects a request
    header of 16 bytes and one byte for the status. *)
Definition chain_of (v : V) (head : Z) : option (bool * Z * Z * Z * Z) :=
  let d0 := get_desc head v in
  let d1 := get_desc (d_next d0) v in
  let d2 := get_desc (d_next d1) v in
  match d_addr d0, d_addr d1, d_addr d2 with
  | VOp i, VData b, VStatus k =>
      let op := default zero_req (v_ops v !! Z.to_nat i) in
      if (d_len d0 =? 16) && (d_len d2 =? 1) && Z.testbit (d_flags d0) 0 && Z.testbit (d_flags d1) 0 && Z.testbit (d_flags d2) 1 &&
         Bool.eqb (Z.testbit (d_flags d1) 1) (r_type op =? VIRTIO_BLK_T_IN)
      then Some (r_type op =? VIRTIO_BLK_T_OUT, r_sector op, b, d_len d1, k) else None
  | _, _, _ => None
  end.

Definition set_b_data (b : Z) (d : list Z) (v : V) : V :=
  vset_bufs (alter (fun x => mkVbuf (vb_blockno x) (vb_disk x) d) (Z.to_nat (b - 1)) (v_bufs v)) v.

(** Bytes of the medium; a sector has 512, a block of the file system BSIZE. *)
Definition SECTOR : Z := 512.
Definition media_get (m : Z -> Z) (a n : Z) : list Z := map m (seqZ a n).
Definition media_put (a : Z) (d : list Z) (m : Z -> Z) : Z -> Z := fun x => if decide (a <= x) then default (m x) (d !! Z.to_nat (x - a)) else m x.
Definition block (m : Z -> Z) (bn : Z) : list Z := media_get m (BSIZE * bn) BSIZE.

(** The transfer of [len] bytes between the medium, from sector [sec] on, and
    buffer [b]. *)
Definition transfer (wr : bool) (sec b len : Z) (v : V) (m : Z -> Z) : V * (Z -> Z) :=
  let d := vb_data (get_vbuf b v) in
  if wr then (v, media_put (SECTOR * sec) (take (Z.to_nat len) d) m)
  else (set_b_data b (media_get m (SECTOR * sec) len ++ drop (Z.to_nat len) d) v, m).

(** The status byte, and the entry in the ring of finished requests. *)
Definition device_done (head k st : Z) (v : V) : V :=
  let v := vset_info (alter (fun f => mkInfo (in_b f) st) (Z.to_nat k) (v_info v)) v in
  vset_used (ring_set NUM (used_ring v) (used_idx v) head) (u16 (used_idx v + 1)) v.

(** A pointer to a buffer of the cache, and one that can be transferred. *)
Definition buf_ptr (b : Z) v : Prop := 1 <= b <= Z.of_nat (length (v_bufs v)).
Definition buf_fit (b : Z) v : Prop := length (vb_data (get_vbuf b v)) = Z.to_nat BSIZE /\ 0 <= vb_blockno (get_vbuf b v) < 2 ^ 31.

(** What the process expects of its request: the contents of its buffer on
    the medium, or the contents of the block in its buffer. *)
Definition wanted (m : Z -> Z) v c : list Z :=
  let b := get_vbuf (c_b c) v in if c_write c then vb_data b else block m (vb_blockno b).
Definition finished (head st : Z) (m : Z -> Z) v c : call :=
  if c_i0 c =? head then mkCall (c_b c) (c_write c) (c_i0 c) (c_i1 c) (c_i2 c) (if st =? 0 then Moved (wanted m v c) else Failed) else c.

(** ** The invariant *)

Definition all_idx (cs : list call) : list Z := concat (map c_idx cs).
Definition pending w : list Z := ring NUM W (avail_ring (w_v w)) (w_next w) (avail_idx (w_v w)).
Definition completed w : list Z := ring NUM W (used_ring (w_v w)) (seen_idx (w_v w)) (used_idx (w_v w)).
Definition get_free (i : Z) v : Z := default 0 (v_free v !! Z.to_nat i).
Definition in_num (i : Z) : Prop := 0 <= i < NUM.

(** The descriptors of a call are those of its request. *)
Record formatted v c : Prop := {
  fm_op : v_ops v !! Z.to_nat (c_i0 c) =
    Some (mkBlkReq (if c_write c then VIRTIO_BLK_T_OUT else VIRTIO_BLK_T_IN) 0 (u32 (vb_blockno (get_vbuf (c_b c) v) * (BSIZE / 512))));
  fm_0 : get_desc (c_i0 c) v = mkDesc (VOp (c_i0 c)) 16 VRING_DESC_F_NEXT (c_i1 c);
  fm_1 : get_desc (c_i1 c) v = mkDesc (VData (c_b c)) BSIZE (Z.lor (if c_write c then 0 else VRING_DESC_F_WRITE) VRING_DESC_F_NEXT) (c_i2 c);
  fm_2 : get_desc (c_i2 c) v = mkDesc (VStatus (c_i0 c)) 1 VRING_DESC_F_WRITE 0;
  fm_b : in_b (get_info (c_i0 c) v) = c_b c;
  fm_buf : buf_ptr (c_b c) v;
  fm_fit : buf_fit (c_b c) v
}.

Definition phase w c : Prop :=
  let b := get_vbuf (c_b c) (w_v w) in
  if decide (c_i0 c ∈ pending w ++ w_taken w) then c_res c = Asked /\ vb_disk b = 1
  else if decide (c_i0 c ∈ completed w) then vb_disk b = 1 /\
    (in_status (get_info (c_i0 c) (w_v w)) = 0 /\ c_res c = Moved (vb_data b) \/ in_status (get_info (c_i0 c) (w_v w)) <> 0 /\ c_res c = Failed)
  else vb_disk b = 0 /\ c_res c = Moved (vb_data b).

(** The fixed sizes. *)
Record sizes v : Prop := {
  sz_desc : length (v_desc v) = 8%nat; sz_free : length (v_free v) = 8%nat; sz_info : length (v_info v) = 8%nat;
  sz_ops : length (v_ops v) = 8%nat; sz_avail : length (avail_ring v) = 8%nat; sz_used : length (used_ring v) = 8%nat;
  sz_ai : 0 <= avail_idx v < W; sz_ui : 0 <= used_idx v < W; sz_si : 0 <= seen_idx v < W
}.

Record disk_ok w : Prop := {
  dk_sizes : sizes (w_v w);
  dk_lock : lock_free (vdisk_lock (w_v w));
  dk_next : 0 <= w_next w < W;
  dk_idx : NoDup (all_idx (w_calls w));
  dk_num : forall i, i ∈ all_idx (w_calls w) -> in_num i;
  dk_free : forall i, in_num i -> get_free i (w_v w) = if decide (i ∈ all_idx (w_calls w)) then 0 else 1;
  dk_zero : forall i, in_num i -> i ∉ all_idx (w_calls w) -> get_desc i (w_v w) = zero_desc;
  dk_bufs : NoDup (map c_b (w_calls w));
  dk_fmt : forall c, c ∈ w_calls w -> formatted (w_v w) c;
  dk_heads : NoDup (pending w ++ w_taken w ++ completed w);
  dk_known : forall h, h ∈ pending w ++ w_taken w ++ completed w -> h ∈ map c_i0 (w_calls w);
  dk_phase : forall c, c ∈ w_calls w -> phase w c
}.

(** At most two calls are in flight, so the rings never fill. *)
Lemma length_all_idx cs : length (all_idx cs) = (3 * length cs)%nat.
Proof. induction cs as [|c cs IH]; cbn; [done|]. unfold all_idx in IH. rewrite IH. lia. Qed.

Lemma few_calls w : disk_ok w -> (length (w_calls w) <= 2)%nat.
Proof.
  intros Hw. assert (Hl : (length (all_idx (w_calls w)) <= length (seqZ 0 8))%nat).
  { apply submseteq_length, NoDup_submseteq; [apply Hw|]. intros i Hi. apply elem_of_seqZ. apply (dk_num w Hw) in Hi.
    unfold in_num, NUM in Hi. lia. }
  rewrite length_all_idx, length_seqZ in Hl. lia.
Qed.

Lemma few_heads w : disk_ok w -> (length (pending w) + length (w_taken w) + length (completed w) <= 2)%nat.
Proof.
  intros Hw. pose proof (few_calls w Hw). assert (Hl : (length (pending w ++ w_taken w ++ completed w) <= length (map c_i0 (w_calls w)))%nat).
  { apply submseteq_length, NoDup_submseteq; [apply Hw|]. intros h. apply dk_known. done. }
  rewrite length_map, !length_app in Hl. lia.
Qed.

(** ** Lists of call records *)

Lemma idx_app cs1 cs2 : all_idx (cs1 ++ cs2) = all_idx cs1 ++ all_idx cs2.
Proof. unfold all_idx. by rewrite map_app, concat_app. Qed.

Lemma idx_of c cs i : c ∈ cs -> i ∈ c_idx c -> i ∈ all_idx cs.
Proof.
  intros Hc Hi. apply list_elem_of_split in Hc as (l1 & l2 & ->). rewrite idx_app. apply elem_of_app. right.
  change (all_idx (c :: l2)) with (c_idx c ++ all_idx l2). apply elem_of_app. by left.
Qed.

Lemma idx_apart c c' cs i : NoDup (all_idx cs) -> c ∈ cs -> c' ∈ cs -> c <> c' -> i ∈ c_idx c -> i ∉ c_idx c'.
Proof.
  intros Hnd Hc Hc' Hne Hi Hi'. apply list_elem_of_split in Hc as (l1 & l2 & ->).
  assert (Hother : i ∈ all_idx (l1 ++ l2)).
  { eapply idx_of; [|done]. apply elem_of_app. apply elem_of_app in Hc' as [?|Hc']; [by left|]. apply elem_of_cons in Hc' as [->|?]; [done|by right]. }
  rewrite idx_app in Hnd, Hother. change (all_idx (c :: l2)) with (c_idx c ++ all_idx l2) in Hnd.
  apply list.NoDup_app in Hnd as (_ & N1 & N2). apply list.NoDup_app in N2 as (_ & N2 & _).
  apply elem_of_app in Hother as [Ho|Ho]; [|by eapply N2]. eapply N1; [done|]. apply elem_of_app. by left.
Qed.

Lemma head_in c : c_i0 c ∈ c_idx c.
Proof. apply elem_of_cons. by left. Qed.

Lemma head_inj c c' cs : NoDup (all_idx cs) -> c ∈ cs -> c' ∈ cs -> c_i0 c = c_i0 c' -> c = c'.
Proof.
  intros Hnd Hc Hc' E. assert (Hdec : EqDecision call) by solve_decision. destruct (decide (c = c')) as [|Hne]; [done|]. exfalso.
  eapply (idx_apart c c' cs (c_i0 c)); [done..|apply head_in|]. rewrite E. apply head_in.
Qed.

Lemma buf_inj c c' cs : NoDup (map c_b cs) -> c ∈ cs -> c' ∈ cs -> c_b c = c_b c' -> c = c'.
Proof.
  intros Hnd Hc Hc' E. apply list_elem_of_lookup in Hc as [i Hi]. apply list_elem_of_lookup in Hc' as [j Hj].
  enough (i = j) by naive_solver. eapply (NoDup_lookup (map c_b cs)); [done| |]; rewrite list_lookup_fmap.
  - by rewrite Hi.
  - by rewrite Hj, E.
Qed.

(** ** Field accesses *)

Lemma get_desc_put v i j d :
  sizes v -> in_num i -> in_num j -> get_desc j (vset_desc (<[Z.to_nat i := d]> (v_desc v)) v) = if j =? i then d else get_desc j v.
Proof.
  intros Hs Hi Hj. pose proof (sz_desc v Hs). unfold get_desc. cbn. unfold in_num, NUM in *. destruct (Z.eqb_spec j i) as [->|].
  - by rewrite list_lookup_insert_eq by lia.
  - by rewrite list_lookup_insert_ne by lia.
Qed.

Lemma get_free_put v i j x :
  sizes v -> in_num i -> in_num j -> get_free j (vset_free (<[Z.to_nat i := x]> (v_free v)) v) = if j =? i then x else get_free j v.
Proof.
  intros Hs Hi Hj. pose proof (sz_free v Hs). unfold get_free. cbn. unfold in_num, NUM in *. destruct (Z.eqb_spec j i) as [->|].
  - by rewrite list_lookup_insert_eq by lia.
  - by rewrite list_lookup_insert_ne by lia.
Qed.

Lemma get_info_put v i j f :
  sizes v -> in_num i -> in_num j -> get_info j (vset_info (alter f (Z.to_nat i) (v_info v)) v) = if j =? i then f (get_info i v) else get_info j v.
Proof.
  intros Hs Hi Hj. pose proof (sz_info v Hs). unfold get_info. cbn. unfold in_num, NUM in *. destruct (Z.eqb_spec j i) as [->|].
  - rewrite list_lookup_alter_eq. destruct (lookup_lt_is_Some_2 (v_info v) (Z.to_nat i)) as [x Hx]; [lia|]. by rewrite Hx.
  - by rewrite list_lookup_alter_ne by lia.
Qed.

Lemma get_vbuf_put v b b' f :
  buf_ptr b v -> buf_ptr b' v -> get_vbuf b' (vset_bufs (alter f (Z.to_nat (b - 1)) (v_bufs v)) v) = if b' =? b then f (get_vbuf b v) else get_vbuf b' v.
Proof.
  intros Hb Hb'. unfold get_vbuf, buf_ptr in *. cbn. destruct (Z.eqb_spec b' b) as [->|].
  - rewrite list_lookup_alter_eq. destruct (lookup_lt_is_Some_2 (v_bufs v) (Z.to_nat (b - 1))) as [x Hx]; [lia|]. by rewrite Hx.
  - by rewrite list_lookup_alter_ne by lia.
Qed.

Lemma free_at v i : sizes v -> in_num i -> v_free v !! Z.to_nat i = Some (get_free i v).
Proof.
  intros Hs Hi. unfold get_free. destruct (lookup_lt_is_Some_2 (v_free v) (Z.to_nat i)) as [x Hx]; [|by rewrite Hx].
  rewrite (sz_free v Hs). unfold in_num, NUM in Hi. lia.
Qed.

Lemma desc_at v i : sizes v -> in_num i -> v_desc v !! Z.to_nat i = Some (get_desc i v).
Proof.
  intros Hs Hi. unfold get_desc. destruct (lookup_lt_is_Some_2 (v_desc v) (Z.to_nat i)) as [x Hx]; [|by rewrite Hx].
  rewrite (sz_desc v Hs). unfold in_num, NUM in Hi. lia.
Qed.

(** ** Descriptors *)

Definition took (i : Z) v : V := vset_free (<[Z.to_nat i := 0]> (v_free v)) v.
Definition gave_back (i : Z) v : V := vset_free (<[Z.to_nat i := 1]> (v_free v)) (vset_desc (<[Z.to_nat i := zero_desc]> (v_desc v)) v).

Lemma alloc_desc_spec v :
  exists i, alloc_desc v = Ok i (if i <? 0 then v else took i v) /\
    if i <? 0 then i = -1 /\ forall j, in_num j -> get_free j v = 0 else in_num i /\ get_free i v <> 0.
Proof.
  enough (wp alloc_desc v (fun i s' => s' = (if i <? 0 then v else took i v) /\
    if i <? 0 then i = -1 /\ forall j, in_num j -> get_free j v = 0 else in_num i /\ get_free i v <> 0)) as Hw.
  { apply wp_ok in Hw as (i & s' & E & -> & Hi). by exists i. }
  apply (wp_loop (fun i s => s = v /\ 0 <= i <= NUM /\ forall j, 0 <= j < i -> get_free j v = 0) (fun i => Z.to_nat (NUM - i))).
  - intros i s (-> & Hi & Hno). unfold alloc_desc_body. destruct (Z.ltb_spec i NUM) as [Hlt|Hge].
    + do 2 wp_step. change (default 0 _) with (get_free i v). destruct (Z.eqb_spec (get_free i v) 0) as [E|E]; cbn [negb].
      * wp_step. split; [|lia]. split; [done|]. split; [lia|]. intros j Hj. destruct (decide (j = i)) as [->|]; [done|]. apply Hno. lia.
      * unfold put_free. do 3 wp_step. rewrite (proj2 (Z.ltb_ge i 0)) by lia. split; [done|]. split; [unfold in_num; lia|done].
    + wp_step. cbn. split; [done|]. split; [done|]. intros j Hj. apply Hno. unfold in_num in Hj. lia.
  - split; [done|]. unfold NUM. split; [lia|]. intros j Hj. lia.
  - unfold NUM. lia.
Qed.

Lemma free_desc_spec v i : in_num i -> get_free i v = 0 -> free_desc i v = Ok tt (gave_back i v).
Proof.
  intros Hi Hf. unfold free_desc. unfold in_num in Hi. rewrite (proj2 (Z.leb_gt NUM i)) by lia. unfold bind at 1, gets.
  change (default 0 _) with (get_free i v). by rewrite Hf.
Qed.

Lemma sizes_took v i : sizes v -> sizes (took i v).
Proof. intros []. split; try done. cbn. by rewrite length_insert. Qed.

Lemma sizes_gave v i : sizes v -> sizes (gave_back i v).
Proof. intros []. split; try done; cbn; by rewrite length_insert. Qed.

Lemma took_gave v i : sizes v -> in_num i -> get_free i v = 1 -> get_desc i v = zero_desc -> gave_back i (took i v) = v.
Proof.
  intros Hs Hi Hf Hd. pose proof (free_at v i Hs Hi) as E1. pose proof (desc_at v i Hs Hi) as E2. rewrite Hf in E1. rewrite Hd in E2.
  unfold gave_back, took. cbn. rewrite list_insert_insert_eq, !list_insert_id by done. by destruct v.
Qed.

Lemma free_took v i j : sizes v -> in_num i -> in_num j -> get_free j (took i v) = if j =? i then 0 else get_free j v.
Proof. apply get_free_put. Qed.

(** A descriptor is in use, or free and cleared. *)
Definition desc_state v : Prop := forall i, in_num i -> get_free i v = 0 \/ get_free i v = 1 /\ get_desc i v = zero_desc.

Lemma desc_state_took v i : sizes v -> in_num i -> desc_state v -> desc_state (took i v).
Proof. intros Hs Hi Hd j Hj. rewrite free_took by done. destruct (j =? i); [by left|]. by apply Hd. Qed.

Lemma alloc3_spec v :
  sizes v -> desc_state v ->
  exists r, alloc3_desc v = Ok r (match r with None => v | Some (i0, i1, i2) => took i2 (took i1 (took i0 v)) end) /\
    match r with
    | None => True
    | Some (i0, i1, i2) => i0 <> i1 /\ i0 <> i2 /\ i1 <> i2 /\ forall i, i ∈ [i0; i1; i2] -> in_num i /\ get_free i v = 1
    end.
Proof.
  intros Hs Hd. unfold alloc3_desc. unfold bind at 1. destruct (alloc_desc_spec v) as (i0 & -> & H0).
  destruct (i0 <? 0) eqn:L0; [by exists None|]. destruct H0 as [N0 F0]. destruct (Hd i0 N0) as [?|[G0 Z0]]; [done|].
  pose proof (sizes_took v i0 Hs) as Hs1. pose proof (desc_state_took v i0 Hs N0 Hd) as Hd1. set (v1 := took i0 v) in *.
  unfold bind at 1. destruct (alloc_desc_spec v1) as (i1 & -> & H1).
  destruct (i1 <? 0) eqn:L1.
  { unfold bind. rewrite free_desc_spec; [|done|unfold v1; by rewrite free_took, Z.eqb_refl by done].
    exists None. unfold v1. by rewrite took_gave. }
  destruct H1 as [N1 F1]. unfold v1 in F1. rewrite free_took in F1 by done. destruct (Z.eqb_spec i1 i0) as [|E1]; [done|].
  destruct (Hd i1 N1) as [?|[G1 Z1]]; [done|].
  pose proof (sizes_took v1 i1 Hs1) as Hs2. set (v2 := took i1 v1) in *. unfold bind at 1. destruct (alloc_desc_spec v2) as (i2 & -> & H2).
  destruct (i2 <? 0) eqn:L2.
  { unfold bind at 1. rewrite free_desc_spec; [|done|unfold v2, v1; rewrite !free_took by done; by rewrite Z.eqb_refl; destruct (i0 =? i1)].
    unfold bind. assert (Hcomm : gave_back i0 v2 = took i1 (gave_back i0 v1)).
    { unfold v2, gave_back, took. cbn. rewrite list_insert_insert_ne; [done|]. unfold in_num in *. lia. }
    rewrite Hcomm. unfold v1. rewrite took_gave by done. rewrite free_desc_spec; [|done|by rewrite free_took, Z.eqb_refl by done].
    exists None. by rewrite took_gave. }
  destruct H2 as [N2 F2]. unfold v2, v1 in F2. rewrite !free_took in F2 by done. destruct (Z.eqb_spec i2 i1) as [|E2]; [done|].
  destruct (Z.eqb_spec i2 i0) as [|E3]; [done|]. destruct (Hd i2 N2) as [?|[G2 Z2]]; [done|].
  exists (Some (i0, i1, i2)). split; [done|]. split_and!; [done..|].
  intros i Hi. repeat (apply elem_of_cons in Hi as [->|Hi]; [done|]). by apply not_elem_of_nil in Hi.
Qed.

(** free_chain() of a chain of three. *)
Lemma free_chain_spec v i0 i1 i2 :
  sizes v -> in_num i0 -> in_num i1 -> in_num i2 -> i0 <> i1 -> i0 <> i2 -> i1 <> i2 ->
  get_free i0 v = 0 -> get_free i1 v = 0 -> get_free i2 v = 0 ->
  Z.land (d_flags (get_desc i0 v)) 1 <> 0 -> d_next (get_desc i0 v) = i1 ->
  Z.land (d_flags (get_desc i1 v)) 1 <> 0 -> d_next (get_desc i1 v) = i2 -> Z.land (d_flags (get_desc i2 v)) 1 = 0 ->
  free_chain i0 v = Ok tt (gave_back i2 (gave_back i1 (gave_back i0 v))).
Proof.
  intros Hs N0 N1 N2 E01 E02 E12 F0 F1 F2 L0 X0 L1 X1 L2. unfold free_chain. change (Z.to_nat NUM + 1)%nat with 9%nat.
  assert (Hd : forall x y u, sizes u -> in_num x -> in_num y -> x <> y -> get_desc y (gave_back x u) = get_desc y u /\ get_free y (gave_back x u) = get_free y u).
  { intros x y u Hu Hx Hy Hne. split.
    - change (get_desc y (gave_back x u)) with (get_desc y (vset_desc (<[Z.to_nat x := zero_desc]> (v_desc u)) u)).
      rewrite get_desc_put by done. by rewrite (proj2 (Z.eqb_neq y x)) by done.
    - change (get_free y (gave_back x u)) with (get_free y (vset_free (<[Z.to_nat x := 1]> (v_free u)) u)).
      rewrite get_free_put by done. by rewrite (proj2 (Z.eqb_neq y x)) by done. }
  pose proof (sizes_gave v i0 Hs) as Hs1. pose proof (sizes_gave _ i1 Hs1) as Hs2.
  destruct (Hd i0 i1 v) as [A1 B1]; [done..|]. destruct (Hd i0 i2 v) as [A2 B2]; [done..|].
  destruct (Hd i1 i2 (gave_back i0 v)) as [A3 B3]; [done..|].
  rewrite loop_S. unfold free_chain_body at 1, bind, gets. rewrite free_desc_spec by done. rewrite (proj2 (Z.eqb_neq _ 0)) by done. cbn [negb]. unfold ret at 1. rewrite X0.
  rewrite loop_S. unfold free_chain_body at 1, bind, gets. rewrite A1, free_desc_spec by (by rewrite ?B1). rewrite (proj2 (Z.eqb_neq _ 0)) by done. cbn [negb]. unfold ret at 1. rewrite X1.
  rewrite loop_S. unfold free_chain_body at 1, bind, gets. rewrite A3, A2, free_desc_spec by (by rewrite ?B3, ?B2). unfold VRING_DESC_F_NEXT. by rewrite L2.
Qed.

(** ** A request is submitted *)

Definition submitted (b : Z) (write : bool) (sector i0 i1 i2 : Z) v : V :=
  let v := vset_ops (<[Z.to_nat i0 := mkBlkReq (if write then VIRTIO_BLK_T_OUT else VIRTIO_BLK_T_IN) 0 sector]> (v_ops v)) v in
  let v := vset_desc (<[Z.to_nat i2 := mkDesc (VStatus i0) 1 VRING_DESC_F_WRITE 0]>
    (<[Z.to_nat i1 := mkDesc (VData b) BSIZE (Z.lor (if write then 0 else VRING_DESC_F_WRITE) VRING_DESC_F_NEXT) i2]>
    (<[Z.to_nat i0 := mkDesc (VOp i0) 16 VRING_DESC_F_NEXT i1]> (v_desc v)))) v in
  let v := vset_info (alter (fun f => mkInfo b (in_status f)) (Z.to_nat i0) (alter (fun f => mkInfo (in_b f) 255) (Z.to_nat i0) (v_info v))) v in
  let v := vset_bufs (alter (fun x => mkVbuf (vb_blockno x) 1 (vb_data x)) (Z.to_nat (b - 1)) (v_bufs v)) v in
  let v := vset_avail (ring_set NUM (avail_ring v) (avail_idx v) i0) (u16 (avail_idx v + 1)) v in
  vset_dev (reg_write VIRTIO_MMIO_QUEUE_NOTIFY 0 (v_dev v)) v.

Lemma u16_num i : in_num i -> u16 i = i.
Proof. intros Hi. apply u16_small. unfold in_num, NUM in Hi. lia. Qed.

Lemma rw_submit_eq b wr sec i0 i1 i2 v :
  in_num i0 -> in_num i1 -> in_num i2 -> rw_submit b wr sec i0 i1 i2 v = Ok tt (submitted b wr sec i0 i1 i2 v).
Proof. intros N0 N1 N2. unfold rw_submit. rewrite !u16_num by done. reflexivity. Qed.

(** Access to an element by its index. *)
Definition zget {A} (z : A) (l : list A) (i : Z) : A := default z (l !! Z.to_nat i).

Lemma zget_insert {A} (z : A) l i j x :
  0 <= i < Z.of_nat (length l) -> 0 <= j -> zget z (<[Z.to_nat i := x]> l) j = if j =? i then x else zget z l j.
Proof.
  intros Hi Hj. unfold zget. destruct (Z.eqb_spec j i) as [->|].
  - by rewrite list_lookup_insert_eq by lia.
  - by rewrite list_lookup_insert_ne by lia.
Qed.

Lemma zget_alter {A} (z : A) l i j f :
  0 <= i < Z.of_nat (length l) -> 0 <= j -> zget z (alter f (Z.to_nat i) l) j = if j =? i then f (zget z l i) else zget z l j.
Proof.
  intros Hi Hj. unfold zget. destruct (Z.eqb_spec j i) as [->|].
  - rewrite list_lookup_alter_eq. destruct (lookup_lt_is_Some_2 l (Z.to_nat i)) as [x Hx]; [lia|]. by rewrite Hx.
  - by rewrite list_lookup_alter_ne by lia.
Qed.

Section Submit.
Variables (b : Z) (wr : bool) (sec i0 i1 i2 : Z) (v : V).
Context (Hs : sizes v) (N0 : in_num i0) (N1 : in_num i1) (N2 : in_num i2).
Local Notation v' := (submitted b wr sec i0 i1 i2 v).

Lemma sub_desc j : in_num j ->
  get_desc j v' = if j =? i2 then mkDesc (VStatus i0) 1 VRING_DESC_F_WRITE 0
    else if j =? i1 then mkDesc (VData b) BSIZE (Z.lor (if wr then 0 else VRING_DESC_F_WRITE) VRING_DESC_F_NEXT) i2
    else if j =? i0 then mkDesc (VOp i0) 16 VRING_DESC_F_NEXT i1 else get_desc j v.
Proof.
  intros Hj. pose proof (sz_desc v Hs). unfold in_num, NUM in *.
  change (get_desc j v') with (zget zero_desc (v_desc v') j). cbn [submitted v_desc vset_dev vset_avail vset_bufs vset_info vset_desc vset_ops].
  rewrite !zget_insert by (rewrite ?length_insert; lia). done.
Qed.

Lemma sub_info j : in_num j -> get_info j v' = if j =? i0 then mkInfo b 255 else get_info j v.
Proof.
  intros Hj. pose proof (sz_info v Hs). unfold in_num, NUM in *.
  change (get_info j v') with (zget zero_info (v_info v') j). cbn [submitted v_info vset_dev vset_avail vset_bufs vset_info vset_desc vset_ops].
  rewrite !zget_alter by (rewrite ?length_alter; lia). rewrite Z.eqb_refl. by destruct (j =? i0).
Qed.

Lemma sub_op j : in_num j ->
  v_ops v' !! Z.to_nat j = if j =? i0 then Some (mkBlkReq (if wr then VIRTIO_BLK_T_OUT else VIRTIO_BLK_T_IN) 0 sec) else v_ops v !! Z.to_nat j.
Proof.
  intros Hj. pose proof (sz_ops v Hs). unfold in_num, NUM in *. cbn [submitted v_ops vset_dev vset_avail vset_bufs vset_info vset_desc vset_ops].
  destruct (Z.eqb_spec j i0) as [->|]; [by rewrite list_lookup_insert_eq by lia|by rewrite list_lookup_insert_ne by lia].
Qed.

Lemma sub_buf x : buf_ptr b v -> buf_ptr x v ->
  get_vbuf x v' = if x =? b then mkVbuf (vb_blockno (get_vbuf b v)) 1 (vb_data (get_vbuf b v)) else get_vbuf x v.
Proof. intros Hb Hx. by apply (get_vbuf_put v b x). Qed.

Lemma sub_ptr x : buf_ptr x v' <-> buf_ptr x v.
Proof. unfold buf_ptr. cbn [submitted v_bufs vset_dev vset_avail vset_bufs vset_info vset_desc vset_ops]. by rewrite length_alter. Qed.

Lemma sub_sizes : sizes v'.
Proof.
  destruct Hs. split; cbn [submitted v_desc v_free v_info v_ops avail_ring avail_idx used_ring used_idx seen_idx vset_dev vset_avail vset_bufs vset_info vset_desc vset_ops];
    rewrite ?length_insert, ?length_alter, ?length_ring_set; try done. apply u16_range.
Qed.

End Submit.

(** ** What a call depends on *)

Record agree v v' c : Prop := {
  ag_desc : forall i, i ∈ c_idx c -> get_desc i v' = get_desc i v;
  ag_info : get_info (c_i0 c) v' = get_info (c_i0 c) v;
  ag_op : v_ops v' !! Z.to_nat (c_i0 c) = v_ops v !! Z.to_nat (c_i0 c);
  ag_buf : get_vbuf (c_b c) v' = get_vbuf (c_b c) v;
  ag_ptr : buf_ptr (c_b c) v -> buf_ptr (c_b c) v'
}.

Lemma formatted_agree v v' c : agree v v' c -> formatted v c -> formatted v' c.
Proof.
  intros [A1 A2 A3 A4 A5] [F1 F2 F3 F4 F5 F6 F7].
  assert (Hi : forall i, i = c_i0 c \/ i = c_i1 c \/ i = c_i2 c -> get_desc i v' = get_desc i v).
  { intros i Hi. apply A1. unfold c_idx. rewrite !elem_of_cons. tauto. }
  split; [by rewrite A3, A4|rewrite Hi by tauto; done..|by rewrite A2|by apply A5|unfold buf_fit; by rewrite A4].
Qed.

Lemma phase_agree w w' c :
  agree (w_v w) (w_v w') c ->
  (c_i0 c ∈ pending w' ++ w_taken w' <-> c_i0 c ∈ pending w ++ w_taken w) -> (c_i0 c ∈ completed w' <-> c_i0 c ∈ completed w) ->
  phase w c -> phase w' c.
Proof.
  intros [_ A2 _ A4 _] H1 H2. unfold phase. rewrite A2, A4.
  destruct (decide (c_i0 c ∈ pending w ++ w_taken w)), (decide (c_i0 c ∈ pending w' ++ w_taken w')); try tauto.
  destruct (decide (c_i0 c ∈ completed w)), (decide (c_i0 c ∈ completed w')); tauto.
Qed.

Lemma call_num w c i : disk_ok w -> c ∈ w_calls w -> i ∈ c_idx c -> in_num i.
Proof. intros Hw Hc Hi. apply (dk_num w Hw). by eapply idx_of. Qed.

Lemma idx_cons c i : i = c_i0 c \/ i = c_i1 c \/ i = c_i2 c <-> i ∈ c_idx c.
Proof. unfold c_idx. rewrite !elem_of_cons, elem_of_nil. tauto. Qed.

Lemma head_known w h : disk_ok w -> h ∈ pending w ++ w_taken w ++ completed w -> exists c, c ∈ w_calls w /\ c_i0 c = h.
Proof. intros Hw Hh. apply (dk_known w Hw) in Hh. apply list_elem_of_In, in_map_iff in Hh as (c & E & Hc). exists c. by rewrite list_elem_of_In. Qed.

Lemma head_idx w h : disk_ok w -> h ∈ pending w ++ w_taken w ++ completed w -> h ∈ all_idx (w_calls w).
Proof. intros Hw Hh. destruct (head_known w h Hw Hh) as (c & Hc & <-). eapply idx_of; [done|apply head_in]. Qed.

Lemma W_div : (NUM | W).
Proof. by exists (2 ^ 13). Qed.

Lemma len_pending w : Z.of_nat (length (pending w)) = ring_len W (w_next w) (avail_idx (w_v w)).
Proof. unfold pending. rewrite length_ring, Z2Nat.id; [done|]. by apply ring_len_range. Qed.
Lemma len_completed w : Z.of_nat (length (completed w)) = ring_len W (seen_idx (w_v w)) (used_idx (w_v w)).
Proof. unfold completed. rewrite length_ring, Z2Nat.id; [done|]. by apply ring_len_range. Qed.

(** *** Submission keeps the invariant *)

Section SubmitOk.
Variables (v : V) (n : Z) (t : list Z) (m : Z -> Z) (cs : list call) (b : Z) (wr : bool) (i0 i1 i2 : Z).
Let w := mkWorld v n t m cs.
Let v3 := took i2 (took i1 (took i0 v)).
Let v' := submitted b wr (u32 (vb_blockno (get_vbuf b v) * (BSIZE / 512))) i0 i1 i2 v3.
Let c := mkCall b wr i0 i1 i2 Asked.
Let w' := mkWorld v' n t m (cs ++ [c]).
Context (Hw : disk_ok w) (Hb : buf_ptr b v) (Hfit : buf_fit b v) (Hnb : b ∉ map c_b cs) (E01 : i0 <> i1) (E02 : i0 <> i2) (E12 : i1 <> i2).
Context (Hi : forall i, i ∈ c_idx c -> in_num i /\ i ∉ all_idx cs).

Lemma sub_nums : in_num i0 /\ in_num i1 /\ in_num i2.
Proof. split_and!; apply Hi, idx_cons; cbn; tauto. Qed.

Lemma sub_v3 : sizes v3.
Proof. do 3 apply sizes_took. apply (dk_sizes w Hw). Qed.

Lemma sub_agree c' : c' ∈ cs -> agree v v' c'.
Proof.
  intros Hc'. destruct sub_nums as (N0 & N1 & N2). pose proof sub_v3 as Hs3.
  assert (Hj : forall j, j ∈ c_idx c' -> in_num j /\ j <> i0 /\ j <> i1 /\ j <> i2).
  { intros j Hj. split; [by eapply (call_num w)|]. pose proof (idx_of c' cs j Hc' Hj) as Hin.
    assert (Hx : forall x, x ∈ c_idx c -> j <> x) by (intros x Hx ->; by destruct (Hi x Hx)).
    split_and!; apply Hx, idx_cons; cbn; tauto. }
  assert (Hcb : c_b c' <> b). { intros E. apply Hnb. rewrite <-E. apply list_elem_of_In, in_map, list_elem_of_In. done. }
  pose proof (fm_buf _ _ (dk_fmt w Hw c' Hc')) as Hcp. destruct (Hj (c_i0 c') (head_in c')) as (J0 & J1 & J2 & J3). split.
  - intros j Hj'. destruct (Hj j Hj') as (K0 & K1 & K2 & K3). unfold v'. rewrite sub_desc by done. by rewrite !(proj2 (Z.eqb_neq _ _)) by done.
  - unfold v'. rewrite sub_info by done. by rewrite (proj2 (Z.eqb_neq _ _)) by done.
  - unfold v'. rewrite sub_op by done. by rewrite (proj2 (Z.eqb_neq _ _)) by done.
  - unfold v'. rewrite sub_buf by done. by rewrite (proj2 (Z.eqb_neq _ _)) by done.
  - intros _. by apply sub_ptr.
Qed.

Lemma sub_pending : pending w' = pending w ++ [i0].
Proof.
  pose proof (few_heads w Hw) as Hfew. pose proof (len_pending w) as Hlp. cbn in Hlp.
  unfold pending. cbn. apply ring_push; [done|done|apply W_div|apply (sz_avail _ (dk_sizes w Hw))|unfold NUM; lia|done].
Qed.

Lemma sub_formatted : formatted v' c.
Proof.
  destruct sub_nums as (N0 & N1 & N2). pose proof sub_v3 as Hs3. split; cbn [c c_b c_write c_i0 c_i1 c_i2].
  - unfold v'. rewrite sub_op, Z.eqb_refl by done. rewrite sub_buf, Z.eqb_refl by done. done.
  - unfold v'. rewrite sub_desc by done. by rewrite !(proj2 (Z.eqb_neq i0 _)), Z.eqb_refl by done.
  - unfold v'. rewrite sub_desc by done. by rewrite !(proj2 (Z.eqb_neq i1 _)), Z.eqb_refl by done.
  - unfold v'. rewrite sub_desc by done. by rewrite Z.eqb_refl.
  - unfold v'. rewrite sub_info by done. by rewrite Z.eqb_refl.
  - by apply sub_ptr.
  - unfold buf_fit, v'. by rewrite sub_buf, Z.eqb_refl by done.
Qed.

Lemma sub_free i : in_num i -> get_free i v' = if decide (i ∈ c_idx c) then 0 else get_free i v.
Proof.
  intros Hn. destruct sub_nums as (N0 & N1 & N2). pose proof (dk_sizes w Hw) as Hs. change (get_free i v') with (get_free i v3).
  unfold v3. rewrite !free_took by (first [done | by repeat apply sizes_took]).
  destruct (decide (i ∈ c_idx c)) as [Hin|Hin]; rewrite <-idx_cons in Hin; cbn in Hin.
  - destruct (Z.eqb_spec i i2), (Z.eqb_spec i i1), (Z.eqb_spec i i0); tauto.
  - by rewrite !(proj2 (Z.eqb_neq i _)) by tauto.
Qed.

Lemma sub_idx : all_idx (cs ++ [c]) = all_idx cs ++ c_idx c.
Proof. by rewrite idx_app. Qed.

Lemma sub_fresh : i0 ∉ pending w ++ t ++ completed w.
Proof. intros Hin. apply (head_idx w _ Hw) in Hin. destruct (Hi i0) as [_ Hn]; [apply idx_cons; by left|]. done. Qed.

Lemma submit_ok : disk_ok w'.
Proof.
  destruct sub_nums as (N0 & N1 & N2). pose proof sub_v3 as Hs3. pose proof sub_fresh as Hfr. rewrite !elem_of_app in Hfr.
  assert (Hcomp : completed w' = completed w) by done.
  split; cbn [w' w_v w_next w_taken w_calls]; rewrite ?sub_pending, ?sub_idx, ?Hcomp.
  - by apply sub_sizes.
  - apply (dk_lock w Hw).
  - apply (dk_next w Hw).
  - apply list.NoDup_app. split; [apply (dk_idx w Hw)|]. split; [intros x Hx Hx'; by destruct (Hi x Hx')|].
    unfold c_idx. cbn. rewrite !list.NoDup_cons, !elem_of_cons, !elem_of_nil. split_and!; [tauto..|constructor].
  - intros i [Hx|Hx]%elem_of_app; [by apply (dk_num w Hw)|by apply Hi].
  - intros i Hn. rewrite sub_free by done. pose proof (dk_free w Hw i Hn) as Hf. cbn in Hf. rewrite Hf. repeat case_decide; set_solver.
  - intros i Hn Hx. rewrite elem_of_app in Hx. unfold v'. rewrite sub_desc by done.
    assert (Hc : i <> i0 /\ i <> i1 /\ i <> i2) by (rewrite <-idx_cons in Hx; cbn in Hx; tauto).
    rewrite !(proj2 (Z.eqb_neq i _)) by tauto. apply (dk_zero w Hw); tauto.
  - rewrite map_app. apply list.NoDup_app. split; [apply (dk_bufs w Hw)|]. split; [|apply NoDup_singleton].
    intros x Hx Hx'. apply list_elem_of_singleton in Hx' as ->. done.
  - intros c' [Hc'|Hc']%elem_of_app.
    + eapply formatted_agree; [by apply sub_agree|]. by apply (dk_fmt w Hw).
    + apply list_elem_of_singleton in Hc' as ->. apply sub_formatted.
  - rewrite <-app_assoc. cbn [app]. rewrite <-Permutation_middle. apply list.NoDup_cons. split; [apply sub_fresh|apply (dk_heads w Hw)].
  - intros h Hh. rewrite map_app, elem_of_app. cbn. rewrite list_elem_of_singleton. rewrite !elem_of_app, list_elem_of_singleton in Hh.
    destruct (decide (h = i0)) as [->|]; [by right|left]. apply (dk_known w Hw). rewrite !elem_of_app. cbn. tauto.
  - intros c' [Hc'|Hc']%elem_of_app.
    + assert (Hne : c_i0 c' <> i0). { intros E. destruct (Hi i0) as [_ Hn]; [apply idx_cons; by left|]. apply Hn. rewrite <-E. eapply idx_of; [done|apply head_in]. }
      apply (phase_agree w); [by apply sub_agree| |done|by apply (dk_phase w Hw)]. rewrite sub_pending, !elem_of_app, list_elem_of_singleton. cbn. tauto.
    + apply list_elem_of_singleton in Hc' as ->. unfold phase. cbn [c c_i0 c_res c_b]. rewrite sub_pending. rewrite decide_True by (rewrite !elem_of_app, list_elem_of_singleton; tauto).
      split; [done|]. cbn [w_v w']. unfold v'. rewrite sub_buf, Z.eqb_refl by done. done.
Qed.

End SubmitOk.

(** ** The calls *)

Definition locked_disk v : V := vset_lock (lock_taken me (vdisk_lock v)) v.

Lemma disk_desc_state w : disk_ok w -> desc_state (w_v w).
Proof.
  intros Hw i Hi. rewrite (dk_free w Hw i Hi). case_decide; [by left|right]. split; [done|]. by apply (dk_zero w Hw).
Qed.

Lemma rw_eq v n t m cs b wr :
  disk_ok (mkWorld v n t m cs) -> buf_ptr b v ->
  virtio_disk_rw me b wr v = Ok WaitDesc v \/
  exists i0 i1 i2, i0 <> i1 /\ i0 <> i2 /\ i1 <> i2 /\ (forall i, i ∈ [i0; i1; i2] -> in_num i /\ i ∉ all_idx cs) /\
    virtio_disk_rw me b wr v =
      Ok (WaitDisk i0) (submitted b wr (u32 (vb_blockno (get_vbuf b v) * (BSIZE / 512))) i0 i1 i2 (took i2 (took i1 (took i0 v)))).
Proof.
  intros Hw Hb. pose proof (dk_lock _ Hw) as Hl. cbn in Hl.
  destruct (alloc3_spec (locked_disk v)) as (r & Ea & Hr); [by destruct (dk_sizes _ Hw)|exact (disk_desc_state _ Hw)|].
  assert (E : virtio_disk_rw me b wr v = (match r with
      | None => release_at me vdisk_lock_lens ;; ret WaitDesc
      | Some (i0, i1, i2) => rw_submit b wr (u32 (vb_blockno (get_vbuf b v) * (BSIZE / 512))) i0 i1 i2 ;; rw_wait me b i0
      end) (match r with None => locked_disk v | Some (i0, i1, i2) => took i2 (took i1 (took i0 (locked_disk v))) end)).
  { unfold virtio_disk_rw, bind at 1, gets at 1, bind at 1. rewrite acquire_at_eq by done. change (put vdisk_lock_lens _ v) with (locked_disk v).
    unfold bind at 1. by rewrite Ea. }
  rewrite E. clear E Ea. destruct r as [[[i0 i1] i2]|].
  - right. exists i0, i1, i2. destruct Hr as (E01 & E02 & E12 & Hi). split; [done|]. split; [done|]. split; [done|].
    assert (Hi' : forall i, i ∈ [i0; i1; i2] -> in_num i /\ i ∉ all_idx cs).
    { intros i Hx. destruct (Hi i Hx) as [Hn Hf]. split; [done|]. intros Hin. pose proof (dk_free _ Hw i Hn) as Hf'. cbn in Hf'.
      change (get_free i (locked_disk v)) with (get_free i v) in Hf. rewrite decide_True in Hf' by done. congruence. }
    split; [done|]. destruct (Hi' i0) as [N0 _]; [set_solver|]. destruct (Hi' i1) as [N1 _]; [set_solver|]. destruct (Hi' i2) as [N2 _]; [set_solver|].
    unfold bind at 1. rewrite rw_submit_eq by done. set (v4 := submitted _ _ _ _ _ _ _). unfold rw_wait, bind at 1, gets at 1.
    assert (Hd : vb_disk (get_vbuf b v4) = 1).
    { unfold v4. rewrite sub_buf by done. by rewrite Z.eqb_refl. }
    rewrite Hd, Z.eqb_refl. unfold bind. rewrite (release_at_eq me _ _ (vdisk_lock v)) by done. done.
  - left. unfold bind. by rewrite (release_at_eq me _ _ (vdisk_lock v)) by done; destruct v.
Qed.

Lemma desc_gave v i j : sizes v -> in_num i -> in_num j -> get_desc j (gave_back i v) = if j =? i then zero_desc else get_desc j v.
Proof. intros Hs Hi Hj. by apply (get_desc_put v i j zero_desc). Qed.

Lemma free_gave v i j : sizes v -> in_num i -> in_num j -> get_free j (gave_back i v) = if j =? i then 1 else get_free j v.
Proof. intros Hs Hi Hj. by apply (get_free_put v i j 1). Qed.

Lemma idx_middle l1 c l2 : all_idx (l1 ++ c :: l2) ≡ₚ c_idx c ++ all_idx (l1 ++ l2).
Proof. rewrite !idx_app. change (all_idx (c :: l2)) with (c_idx c ++ all_idx l2). by rewrite Permutation_app_swap_app. Qed.

(** The state after a finished request was cleaned up. *)
Definition cleared c v : V := vset_info (alter (fun f => mkInfo 0 (in_status f)) (Z.to_nat (c_i0 c)) (v_info v)) v.
Definition released c v : V := gave_back (c_i2 c) (gave_back (c_i1 c) (gave_back (c_i0 c) (cleared c v))).

Section Woken.
Variables (v : V) (n : Z) (t : list Z) (m : Z -> Z) (l1 l2 : list call) (c : call).
Let cs := l1 ++ c :: l2.
Let w := mkWorld v n t m cs.
Context (Hw : disk_ok w).

Lemma wk_in : c ∈ cs.
Proof. apply elem_of_app. right. apply elem_of_cons. by left. Qed.

Lemma wk_nodup : NoDup (c_idx c) /\ (forall i, i ∈ c_idx c -> i ∉ all_idx (l1 ++ l2)) /\ NoDup (all_idx (l1 ++ l2)).
Proof. pose proof (dk_idx w Hw) as Hnd. change (NoDup (all_idx (l1 ++ c :: l2))) in Hnd. rewrite idx_middle in Hnd. by apply list.NoDup_app in Hnd. Qed.

Lemma wk_distinct : c_i0 c <> c_i1 c /\ c_i0 c <> c_i2 c /\ c_i1 c <> c_i2 c.
Proof. destruct wk_nodup as [Hnd _]. unfold c_idx in Hnd. rewrite !list.NoDup_cons, !elem_of_cons in Hnd. tauto. Qed.

Lemma wk_nums : in_num (c_i0 c) /\ in_num (c_i1 c) /\ in_num (c_i2 c).
Proof. split_and!; apply (call_num w c _ Hw wk_in), idx_cons; tauto. Qed.

Lemma wk_sizes : sizes (cleared c v).
Proof. destruct (dk_sizes w Hw). split; try done. cbn. by rewrite length_alter. Qed.

Lemma woken_eq :
  virtio_disk_rw_woken me (c_b c) (c_i0 c) v =
    if vb_disk (get_vbuf (c_b c) v) =? 1 then Ok (WaitDisk (c_i0 c)) v else Ok RwDone (released c v).
Proof.
  pose proof (dk_lock _ Hw) as Hl. cbn in Hl. unfold virtio_disk_rw_woken, bind at 1. rewrite acquire_at_eq by done.
  change (put vdisk_lock_lens _ v) with (locked_disk v). unfold rw_wait, bind at 1, gets at 1. change (get_vbuf (c_b c) (locked_disk v)) with (get_vbuf (c_b c) v).
  destruct (vb_disk (get_vbuf (c_b c) v) =? 1).
  - unfold bind. rewrite (release_at_eq me _ _ (vdisk_lock v)) by done. by destruct v.
  - destruct wk_distinct as (E01 & E02 & E12). destruct wk_nums as (N0 & N1 & N2). destruct (dk_fmt w Hw c wk_in) as [_ F0 F1 F2 _ _ _]. cbn in F0, F1, F2.
    assert (Hz : forall i, i ∈ c_idx c -> get_free i v = 0).
    { intros i Hi. pose proof (dk_free w Hw i (call_num w c i Hw wk_in Hi)) as Hf. rewrite decide_True in Hf; [done|]. eapply idx_of; [apply wk_in|done]. }
    unfold bind at 1, put_info, modify. change (vset_info _ (locked_disk v)) with (locked_disk (cleared c v)). unfold bind at 1.
    rewrite (free_chain_spec (locked_disk (cleared c v)) (c_i0 c) (c_i1 c) (c_i2 c)); try done.
    + unfold bind. rewrite (release_at_eq me _ _ (vdisk_lock v)) by done. done.
    + by destruct wk_sizes.
    + apply Hz, idx_cons. tauto.
    + apply Hz, idx_cons. tauto.
    + apply Hz, idx_cons. tauto.
    + change (get_desc (c_i0 c) (locked_disk (cleared c v))) with (get_desc (c_i0 c) v). by rewrite F0.
    + change (get_desc (c_i0 c) (locked_disk (cleared c v))) with (get_desc (c_i0 c) v). by rewrite F0.
    + change (get_desc (c_i1 c) (locked_disk (cleared c v))) with (get_desc (c_i1 c) v). rewrite F1. by destruct (c_write c).
    + change (get_desc (c_i1 c) (locked_disk (cleared c v))) with (get_desc (c_i1 c) v). by rewrite F1.
    + change (get_desc (c_i2 c) (locked_disk (cleared c v))) with (get_desc (c_i2 c) v). by rewrite F2.
Qed.

Context (Hd : vb_disk (get_vbuf (c_b c) v) <> 1).
Let w' := mkWorld (released c v) n t m (l1 ++ l2).

Lemma wk_sub c' : c' ∈ l1 ++ l2 -> c' ∈ cs.
Proof. unfold cs. rewrite !elem_of_app, elem_of_cons. tauto. Qed.

Lemma wk_head : c_i0 c ∉ pending w ++ t ++ completed w.
Proof.
  pose proof (dk_phase w Hw c wk_in) as Hp. unfold phase in Hp. cbn [w w_v w_taken] in Hp. rewrite !elem_of_app.
  destruct (decide (c_i0 c ∈ pending w ++ t)) as [Hin|Hin]; [tauto|]. rewrite elem_of_app in Hin.
  destruct (decide (c_i0 c ∈ completed w)); tauto.
Qed.

Lemma wk_get j : in_num j ->
  get_desc j (released c v) = (if decide (j ∈ c_idx c) then zero_desc else get_desc j v) /\
  get_free j (released c v) = (if decide (j ∈ c_idx c) then 1 else get_free j v).
Proof.
  intros Hj. destruct wk_nums as (N0 & N1 & N2). pose proof wk_sizes as Hs. unfold released.
  rewrite !desc_gave, !free_gave by (first [done | by repeat apply sizes_gave]).
  destruct (decide (j ∈ c_idx c)) as [Hin|Hin]; rewrite <-idx_cons in Hin.
  - destruct (Z.eqb_spec j (c_i2 c)), (Z.eqb_spec j (c_i1 c)), (Z.eqb_spec j (c_i0 c)); tauto.
  - by rewrite !(proj2 (Z.eqb_neq j _)) by tauto.
Qed.

Lemma wk_agree c' : c' ∈ l1 ++ l2 -> agree v (released c v) c'.
Proof.
  intros Hc'. destruct wk_nodup as (_ & Hap & _). destruct wk_nums as (N0 & _ & _).
  assert (Hj : forall j, j ∈ c_idx c' -> in_num j /\ j ∉ c_idx c).
  { intros j Hj. split; [by apply (call_num w c' j Hw (wk_sub c' Hc'))|]. intros Hin. apply (Hap j Hin). by eapply idx_of. }
  destruct (Hj (c_i0 c') (head_in c')) as [J0 J1]. split; [| |done..].
  - intros j Hin. destruct (Hj j Hin) as [K0 K1]. destruct (wk_get j K0) as [-> _]. by rewrite decide_False.
  - change (get_info (c_i0 c') (released c v)) with (get_info (c_i0 c') (cleared c v)). unfold cleared.
    rewrite get_info_put by (first [done | apply (dk_sizes w Hw)]). rewrite (proj2 (Z.eqb_neq _ _)); [done|]. intros E. apply J1. rewrite E. apply head_in.
Qed.

Lemma finish_ok : disk_ok w'.
Proof.
  destruct wk_nodup as (_ & Hap & Hnd). destruct wk_nums as (N0 & N1 & N2).
  assert (Hin : forall i, i ∈ all_idx cs <-> i ∈ c_idx c \/ i ∈ all_idx (l1 ++ l2)) by (intros i; unfold cs; by rewrite idx_middle, elem_of_app).
  assert (Hpend : pending w' = pending w) by done. assert (Hcomp : completed w' = completed w) by done.
  split; cbn [w' w_v w_next w_taken w_calls]; rewrite ?Hpend, ?Hcomp.
  - unfold released. do 3 apply sizes_gave. apply wk_sizes.
  - apply (dk_lock w Hw).
  - apply (dk_next w Hw).
  - done.
  - intros i Hi. apply (dk_num w Hw), Hin. by right.
  - intros i Hi. destruct (wk_get i Hi) as [_ ->]. pose proof (dk_free w Hw i Hi) as Hf. cbn [w w_v w_calls] in Hf. rewrite Hf.
    destruct (decide (i ∈ c_idx c)) as [Hc|Hc].
    + rewrite decide_False; [done|]. by apply Hap.
    + apply decide_ext. rewrite Hin. tauto.
  - intros i Hi Hni. destruct (wk_get i Hi) as [-> _]. case_decide; [done|]. apply (dk_zero w Hw); [done|]. cbn. rewrite Hin. tauto.
  - pose proof (dk_bufs w Hw) as Hb. cbn in Hb. unfold cs in Hb. rewrite map_app in Hb |- *. cbn in Hb. rewrite <-Permutation_middle in Hb.
    by apply list.NoDup_cons in Hb as [_ ?].
  - intros c' Hc'. eapply formatted_agree; [by apply wk_agree|]. apply (dk_fmt w Hw). by apply wk_sub.
  - apply (dk_heads w Hw).
  - intros h Hh. assert (Hne : h <> c_i0 c) by (intros ->; by apply wk_head). apply (dk_known w Hw) in Hh. cbn in Hh. unfold cs in Hh.
    rewrite !map_app, !elem_of_app in *. cbn in Hh. rewrite elem_of_cons in Hh. tauto.
  - intros c' Hc'. apply (phase_agree w); [by apply wk_agree|done|done|]. apply (dk_phase w Hw). by apply wk_sub.
Qed.

End Woken.

(** *** Interrupts *)

Lemma not_buf c cs b : c ∈ cs -> b ∉ map c_b cs -> c_b c <> b.
Proof. intros Hc Hb <-. apply Hb. apply list_elem_of_In, in_map, list_elem_of_In. done. Qed.

(** The driver has seen that the request of [c] is finished. *)
Definition acked c v : V :=
  vset_seen (u16 (seen_idx v + 1)) (vset_bufs (alter (fun x => mkVbuf (vb_blockno x) 0 (vb_data x)) (Z.to_nat (c_b c - 1)) (v_bufs v)) v).

Section Interrupt.
Variables (v : V) (n : Z) (t : list Z) (m : Z -> Z) (cs : list call) (c : call) (rest : list Z).
Let w := mkWorld v n t m cs.
Let w' := mkWorld (acked c v) n t m cs.
Context (Hw : disk_ok w) (Hc : c ∈ cs) (Hcomp : completed w = c_i0 c :: rest).

Lemma in_comp : c_i0 c ∉ pending w ++ t /\ c_i0 c ∉ rest /\
  (in_status (get_info (c_i0 c) v) = 0 /\ c_res c = Moved (vb_data (get_vbuf (c_b c) v)) \/ in_status (get_info (c_i0 c) v) <> 0 /\ c_res c = Failed).
Proof.
  pose proof (dk_heads w Hw) as Hnd. cbn in Hnd. rewrite Hcomp, app_assoc in Hnd. apply list.NoDup_app in Hnd as (_ & Hap & Hnd).
  assert (Hn : c_i0 c ∉ pending w ++ t) by (intros Hin; apply (Hap _ Hin), elem_of_cons; by left).
  split; [done|]. apply list.NoDup_cons in Hnd as [Hnr _]. split; [done|].
  pose proof (dk_phase w Hw c Hc) as Hp. unfold phase in Hp. cbn [w w_v w_taken] in Hp. rewrite decide_False in Hp by done.
  rewrite decide_True in Hp by (rewrite Hcomp; apply elem_of_cons; by left). tauto.
Qed.

Lemma acked_completed : completed w' = rest.
Proof.
  enough (E : completed w = ring_get NUM (used_ring v) (seen_idx v) :: completed w') by (rewrite Hcomp in E; by injection E as _ ->).
  unfold completed. cbn. apply ring_pop; [done|done|apply W_div|].
  pose proof (len_completed w) as Hl. rewrite Hcomp in Hl. cbn [w w_v length] in Hl. lia.
Qed.

Lemma acked_buf c' : c' ∈ cs -> get_vbuf (c_b c') (acked c v) =
  if c_b c' =? c_b c then mkVbuf (vb_blockno (get_vbuf (c_b c) v)) 0 (vb_data (get_vbuf (c_b c) v)) else get_vbuf (c_b c') v.
Proof. intros Hc'. apply (get_vbuf_put v); [apply (dk_fmt w Hw c Hc)|apply (dk_fmt w Hw c' Hc')]. Qed.

Lemma acked_agree c' : c' ∈ cs -> c' <> c -> agree v (acked c v) c'.
Proof.
  intros Hc' Hne. assert (Hb : c_b c' <> c_b c) by (intros E; apply Hne; by eapply buf_inj; [apply (dk_bufs w Hw)|..]).
  split; try done; [by rewrite acked_buf, (proj2 (Z.eqb_neq _ _)) by done|]. unfold buf_ptr. cbn. by rewrite length_alter.
Qed.

Lemma acked_formatted c' : c' ∈ cs -> formatted (acked c v) c'.
Proof.
  intros Hc'. destruct (dk_fmt w Hw c' Hc') as [F1 F2 F3 F4 F5 F6 F7]. split; try done.
  - cbn [acked v_ops vset_seen vset_bufs]. rewrite acked_buf by done. destruct (Z.eqb_spec (c_b c') (c_b c)) as [E|]; [|done].
    cbn [vb_blockno]. by rewrite <-E.
  - unfold buf_ptr in *. cbn. by rewrite length_alter.
  - unfold buf_fit in *. rewrite acked_buf by done. destruct (Z.eqb_spec (c_b c') (c_b c)) as [E|]; [|done]. cbn. by rewrite <-E.
Qed.

Lemma acked_ok : in_status (get_info (c_i0 c) v) = 0 -> disk_ok w'.
Proof.
  intros Hok. assert (Hpend : pending w' = pending w) by done. destruct in_comp as (C1 & C2 & C3).
  pose proof (dk_heads w Hw) as Hnd. cbn in Hnd. rewrite Hcomp in Hnd. rewrite app_assoc, <-Permutation_middle in Hnd. apply list.NoDup_cons in Hnd as [_ Hnd].
  split; cbn [w' w_v w_next w_taken w_calls]; rewrite ?Hpend, ?acked_completed; try apply Hw.
  - destruct (dk_sizes w Hw). split; try done. cbn. apply u16_range.
  - intros c' Hc'. by apply acked_formatted.
  - by rewrite app_assoc.
  - intros h Hh. apply (dk_known w Hw). rewrite Hcomp. rewrite !elem_of_app, elem_of_cons in *. tauto.
  - intros c' Hc'. destruct (decide (c_i0 c' = c_i0 c)) as [E|E].
    + assert (c' = c) as -> by (eapply head_inj; [apply (dk_idx w Hw)|done..]). pose proof (dk_phase w Hw c Hc) as Hp. unfold phase in *. cbn [w w' w_v w_taken] in *.
      rewrite Hpend, acked_completed, !decide_False by done. rewrite acked_buf, Z.eqb_refl by done. cbn. destruct C3; tauto.
    + apply (phase_agree w); [apply acked_agree; [done|by intros ->]|done| |by apply (dk_phase w Hw)].
      rewrite acked_completed, Hcomp, elem_of_cons. tauto.
Qed.

End Interrupt.

Lemma intr_body_eq v :
  virtio_disk_intr_body tt v =
    let h := ring_get NUM (used_ring v) (seen_idx v) in
    if negb (seen_idx v =? used_idx v) then
      if negb (in_status (get_info h v) =? 0) then Panic "virtio_disk_intr status"
      else Ok (inl tt) (vset_seen (u16 (seen_idx v + 1))
        (vset_bufs (alter (fun x => mkVbuf (vb_blockno x) 0 (vb_data x)) (Z.to_nat (in_b (get_info h v) - 1)) (v_bufs v)) v))
    else Ok (inr tt) v.
Proof.
  unfold virtio_disk_intr_body, put_b_disk, wakeup, id. unfold bind, gets, modify, ret, panic. cbn zeta. destruct (negb (seen_idx v =? used_idx v)); [|done].
  by destruct (negb (in_status _ =? 0)).
Qed.

(** A request that has failed and that no interrupt has seen. *)
Definition failure w : Prop := exists c, c ∈ w_calls w /\ c_i0 c ∈ completed w /\ c_res c = Failed.

Lemma intr_loop fuel : forall v n t m cs, disk_ok (mkWorld v n t m cs) -> (length (completed (mkWorld v n t m cs)) < fuel)%nat ->
  (loop fuel virtio_disk_intr_body tt (locked_disk v) = Panic "virtio_disk_intr status" /\ failure (mkWorld v n t m cs)) \/
  exists v', loop fuel virtio_disk_intr_body tt (locked_disk v) = Ok tt (locked_disk v') /\ disk_ok (mkWorld v' n t m cs) /\
    completed (mkWorld v' n t m cs) = [] /\ vdisk_lock v' = vdisk_lock v /\ ~ failure (mkWorld v n t m cs).
Proof.
  induction fuel as [|fuel IH]; intros v n t m cs Hw Hf; [lia|]. rewrite loop_S. pose proof (dk_sizes _ Hw) as Hs. cbn in Hs.
  pose proof (len_completed (mkWorld v n t m cs)) as Hlen. cbn [w_v] in Hlen.
  assert (Ez : (seen_idx v =? used_idx v) = (Z.of_nat (length (completed (mkWorld v n t m cs))) =? 0)).
  { rewrite Hlen. apply eq_true_iff_eq. rewrite !Z.eqb_eq. symmetry. apply ring_len_zero; [done|apply Hs|apply Hs]. }
  unfold bind. rewrite intr_body_eq. cbn zeta. change (seen_idx (locked_disk v)) with (seen_idx v). change (used_idx (locked_disk v)) with (used_idx v).
  change (used_ring (locked_disk v)) with (used_ring v). rewrite Ez. destruct (completed (mkWorld v n t m cs)) as [|h rest] eqn:Ec.
  - right. exists v. split_and!; try done. intros (c & _ & Hin & _). rewrite Ec in Hin. by apply not_elem_of_nil in Hin.
  - assert (Hh : ring_get NUM (used_ring v) (seen_idx v) = h).
    { unfold completed in Ec. cbn in Ec. rewrite ring_pop in Ec by (first [done | apply W_div | rewrite <-Hlen; cbn; lia]). by injection Ec. }
    cbn [length Z.of_nat Z.eqb negb]. rewrite Hh.
    destruct (head_known _ h Hw) as (c & Hc & <-); [rewrite !elem_of_app, Ec, elem_of_cons; tauto|]. cbn in Hc.
    destruct (in_comp v n t m cs c rest Hw Hc Ec) as (_ & C2 & Hst).
    change (get_info (c_i0 c) (locked_disk v)) with (get_info (c_i0 c) v). destruct (Z.eqb_spec (in_status (get_info (c_i0 c) v)) 0) as [E0|E0]; cbn [negb].
    + pose proof (fm_b _ _ (dk_fmt _ Hw c Hc)) as Eb. cbn [w_v] in Eb. rewrite Eb.
      pose proof (acked_ok v n t m cs c rest Hw Hc Ec E0) as Hw1. pose proof (acked_completed v n t m cs c rest Ec) as Ec1.
      assert (Hfa : failure (mkWorld (acked c v) n t m cs) <-> failure (mkWorld v n t m cs)).
      { unfold failure. rewrite Ec1, Ec. cbn [w_calls]. split; intros (c' & H1 & H2 & H3); exists c'; (split; [done|]); (split; [|done]).
        - apply elem_of_cons. by right.
        - apply elem_of_cons in H2 as [E|?]; [|done]. assert (c' = c) as -> by (eapply head_inj; [apply (dk_idx _ Hw)|done..]). destruct Hst as [ [_ Hm]|[? _] ]; congruence. }
      destruct (IH (acked c v) n t m cs Hw1) as [(E & Hfl)|(v' & E & Hw' & Hc' & Hl' & Hn)]; [rewrite Ec1; cbn in Hf; lia| |].
      * left. split; [exact E|]. by apply Hfa.
      * right. exists v'. split; [exact E|]. split_and!; try done. by rewrite <-Hfa.
    + left. split; [done|]. exists c. split; [done|]. split; [rewrite Ec; apply elem_of_cons; by left|]. by destruct Hst as [ [? _]|[_ ?] ].
Qed.

Lemma regs_ok v d n t m cs : disk_ok (mkWorld v n t m cs) -> disk_ok (mkWorld (vset_dev d v) n t m cs).
Proof.
  intros Hw. pose proof Hw as [K1 K2 K3 K4 K5 K6 K7 K8 K9 K10 K11 K12]. split; try done.
  - by destruct K1.
  - intros c Hc. eapply formatted_agree; [|by apply K9]. by split.
Qed.

Lemma intr_spec v n t m cs fuel : disk_ok (mkWorld v n t m cs) -> (2 < fuel)%nat ->
  (virtio_disk_intr me fuel v = Panic "virtio_disk_intr status" /\ failure (mkWorld v n t m cs)) \/
  exists v', virtio_disk_intr me fuel v = Ok tt v' /\ disk_ok (mkWorld v' n t m cs) /\ completed (mkWorld v' n t m cs) = [] /\ ~ failure (mkWorld v n t m cs).
Proof.
  intros Hw Hf. pose proof (dk_lock _ Hw) as Hl. cbn in Hl.
  set (x := reg_read VIRTIO_MMIO_INTERRUPT_STATUS (v_dev v)). set (d' := reg_write VIRTIO_MMIO_INTERRUPT_ACK (u32 (Z.land (fst x) 3)) (snd x)).
  assert (Heq : virtio_disk_intr me fuel v = (loop fuel virtio_disk_intr_body tt ;; release_at me vdisk_lock_lens) (locked_disk (vset_dev d' v))).
  { unfold virtio_disk_intr, bind at 1. rewrite acquire_at_eq by done. unfold bind at 1, read_R at 1. cbn [v_dev put vdisk_lock_lens vset_lock]. unfold d'.
    fold x. by destruct x as [st d]. }
  rewrite Heq. unfold bind. pose proof (regs_ok v d' n t m cs Hw) as Hw1. pose proof (few_heads _ Hw1) as Hfew. cbn [w_taken] in Hfew.
  destruct (intr_loop fuel (vset_dev d' v) n t m cs Hw1 ltac:(lia)) as [(E & Hfl)|(v' & E & Hw' & Hc' & Hl' & Hn)]; rewrite E; [by left|right].
  exists v'. split; [|done]. rewrite (release_at_eq me _ _ (vdisk_lock v')); [by destruct v'|done|]. by rewrite Hl'.
Qed.

(** *** The device *)

Lemma take_ok v n t m cs :
  disk_ok (mkWorld v n t m cs) -> n <> avail_idx v -> disk_ok (mkWorld v (u16 (n + 1)) (t ++ [ring_get NUM (avail_ring v) n]) m cs).
Proof.
  intros Hw Hne. set (w := mkWorld v n t m cs) in *. set (w' := mkWorld _ _ _ _ _). pose proof (dk_next w Hw) as Hn. pose proof (sz_ai _ (dk_sizes w Hw)) as Ha. cbn in Hn, Ha.
  assert (Hpos : 0 < ring_len W n (avail_idx v)).
  { pose proof (ring_len_range W ltac:(done) n (avail_idx v)). destruct (decide (ring_len W n (avail_idx v) = 0)) as [E|]; [|lia].
    apply ring_len_zero in E; done. }
  set (h := ring_get NUM (avail_ring v) n) in *.
  assert (Hp : pending w = h :: pending w') by (unfold pending; cbn; apply ring_pop; [done|done|apply W_div|done]).
  assert (Hc : completed w' = completed w) by done.
  assert (Hperm : forall x, x ∈ pending w' ++ t ++ [h] <-> x ∈ pending w ++ t).
  { intros x. rewrite Hp, !elem_of_app, list_elem_of_singleton, elem_of_cons. tauto. }
  split; try apply Hw; cbn [w' w_v w_next w_taken w_calls]; rewrite ?Hc.
  - apply u16_range.
  - pose proof (dk_heads w Hw) as Hh. cbn in Hh. rewrite Hp in Hh. cbn [app] in Hh. rewrite <-(app_assoc t). cbn [app].
    by rewrite <-Permutation_middle, <-Permutation_middle.
  - intros x Hx. apply (dk_known w Hw). cbn. rewrite Hp. rewrite !elem_of_app, ?list_elem_of_singleton, ?elem_of_cons in *. tauto.
  - intros c Hin. apply (phase_agree w); [by split|apply Hperm|done|by apply (dk_phase w Hw)].
Qed.

Lemma touch_ok v n t m cs b d :
  disk_ok (mkWorld v n t m cs) -> buf_ptr b v -> b ∉ map c_b cs -> disk_ok (mkWorld (set_b_data b d v) n t m cs).
Proof.
  intros Hw Hb Hn. pose proof Hw as [K1 K2 K3 K4 K5 K6 K7 K8 K9 K10 K11 K12].
  assert (Hag : forall c, c ∈ cs -> agree v (set_b_data b d v) c).
  { intros c Hc. pose proof (not_buf c cs b Hc Hn) as Hne. split; try done.
    - unfold set_b_data. rewrite get_vbuf_put; [|done|apply (K9 c Hc)]. by rewrite (proj2 (Z.eqb_neq _ _)).
    - unfold buf_ptr. cbn. by rewrite length_alter. }
  split; try done.
  - by destruct K1.
  - intros c Hc. eapply formatted_agree; [by apply Hag|by apply K9].
  - intros c Hc. apply (phase_agree (mkWorld v n t m cs)); [by apply Hag|done|done|by apply K12].
Qed.

(** The sector of a block. *)
Lemma sector_eq bn : 0 <= bn < 2 ^ 31 -> SECTOR * u32 (bn * (BSIZE / 512)) = BSIZE * bn.
Proof. intros Hb. change (BSIZE / 512) with 2. rewrite u32_small by lia. unfold SECTOR. change BSIZE with 1024. lia. Qed.

Section Complete.
Variables (v : V) (n : Z) (t1 t2 : list Z) (m : Z -> Z) (cs : list call) (c : call) (st : Z).
Let w := mkWorld v n (t1 ++ c_i0 c :: t2) m cs.
Context (Hw : disk_ok w) (Hc : c ∈ cs).
Let bn := vb_blockno (get_vbuf (c_b c) v).
Let sec := u32 (bn * (BSIZE / 512)).
Let d := if st =? 0 then wanted m v c else vb_data (get_vbuf (c_b c) v).
Let v1 := if (st =? 0) && negb (c_write c) then set_b_data (c_b c) d v else v.
Let v' := device_done (c_i0 c) (c_i0 c) st v1.
Let fin := finished (c_i0 c) st m v.
Let w' m' := mkWorld v' n (t1 ++ t2) m' (map fin cs).

Lemma chain_eq : chain_of v (c_i0 c) = Some (c_write c, sec, c_b c, BSIZE, c_i0 c).
Proof.
  destruct (dk_fmt w Hw c Hc) as [F F0 F1 F2 _ _ _]. cbn [w w_v] in F, F0, F1, F2. unfold chain_of. rewrite F0. cbn [d_next d_addr d_flags d_len].
  rewrite F1. cbn [d_next d_addr d_flags d_len]. rewrite F2. cbn [d_next d_addr d_flags d_len]. rewrite F. cbn [default from_option id r_type r_sector].
  by destruct (c_write c).
Qed.


(** What the device moves is what the process wants. *)
Lemma transfer_eq : transfer (c_write c) sec (c_b c) BSIZE v m =
  if c_write c then (v, media_put (BSIZE * bn) (wanted m v c) m) else (set_b_data (c_b c) (wanted m v c) v, m).
Proof.
  destruct (fm_fit _ _ (dk_fmt w Hw c Hc)) as [Hlen Hbn]. cbn [w w_v] in Hlen, Hbn. unfold transfer, sec, bn, wanted. rewrite sector_eq by done.
  destruct (c_write c).
  - by rewrite take_ge by lia.
  - by rewrite drop_ge, app_nil_r by lia.
Qed.

Lemma length_d : length d = Z.to_nat BSIZE.
Proof. destruct (fm_fit _ _ (dk_fmt w Hw c Hc)) as [Hlen _]. unfold d, wanted. by destruct (st =? 0), (c_write c). Qed.

Lemma cp_buf c' : c' ∈ cs -> get_vbuf (c_b c') v' =
  if c_b c' =? c_b c then mkVbuf bn (vb_disk (get_vbuf (c_b c) v)) d else get_vbuf (c_b c') v.
Proof.
  intros Hc'. change (get_vbuf (c_b c') v') with (get_vbuf (c_b c') v1). unfold v1. destruct ((st =? 0) && negb (c_write c)) eqn:E.
  - apply (get_vbuf_put v); [apply (dk_fmt w Hw c Hc)|apply (dk_fmt w Hw c' Hc')].
  - assert (d = vb_data (get_vbuf (c_b c) v)) as ->. { unfold d, wanted. destruct (st =? 0); [|done]. by destruct (c_write c). }
    destruct (Z.eqb_spec (c_b c') (c_b c)) as [->|]; [|done]. unfold bn. by destruct (get_vbuf (c_b c) v).
Qed.

Lemma cp_same : v_desc v1 = v_desc v /\ v_info v1 = v_info v /\ v_ops v1 = v_ops v /\ v_free v1 = v_free v /\ used_ring v1 = used_ring v /\
  used_idx v1 = used_idx v /\ seen_idx v1 = seen_idx v /\ avail_ring v1 = avail_ring v /\ avail_idx v1 = avail_idx v /\ length (v_bufs v1) = length (v_bufs v) /\
  vdisk_lock v1 = vdisk_lock v.
Proof. unfold v1. destruct ((st =? 0) && negb (c_write c)); split_and!; try done. cbn. by rewrite length_alter. Qed.

Lemma cp_num : in_num (c_i0 c).
Proof. apply (call_num w c _ Hw Hc), head_in. Qed.

Lemma cp_sizes1 : sizes v1.
Proof. destruct cp_same as (A & B & C & E & F & G & I & J & K & _ & _). destruct (dk_sizes w Hw). split; rewrite ?A, ?B, ?C, ?E, ?F, ?G, ?I, ?J, ?K; done. Qed.

Lemma cp_info j : in_num j -> get_info j v' = if j =? c_i0 c then mkInfo (in_b (get_info (c_i0 c) v)) st else get_info j v.
Proof.
  intros Hj. destruct cp_same as (_ & B & _). transitivity (if j =? c_i0 c then mkInfo (in_b (get_info (c_i0 c) v1)) st else get_info j v1).
  - apply (get_info_put v1 (c_i0 c) j (fun f => mkInfo (in_b f) st)); [apply cp_sizes1|apply cp_num|done].
  - unfold get_info. by rewrite B.
Qed.

Lemma cp_completed m' : completed (w' m') = completed w ++ [c_i0 c].
Proof.
  pose proof (few_heads w Hw) as Hfew. pose proof (len_completed w) as Hlc. cbn in Hlc. destruct cp_same as (_ & _ & _ & _ & F & G & I & _).
  unfold completed. cbn. rewrite F, G, I. apply ring_push; [done|done|apply W_div|apply (sz_used _ (dk_sizes w Hw))|unfold NUM; lia|done].
Qed.

Lemma cp_pending m' : pending (w' m') = pending w.
Proof. destruct cp_same as (_ & _ & _ & _ & _ & _ & _ & J & K & _). unfold pending. cbn. by rewrite J, K. Qed.

Lemma fin_fields c' : c_b (fin c') = c_b c' /\ c_write (fin c') = c_write c' /\ c_idx (fin c') = c_idx c' /\
  c_i0 (fin c') = c_i0 c' /\ c_i1 (fin c') = c_i1 c' /\ c_i2 (fin c') = c_i2 c'.
Proof. unfold fin, finished. by destruct (c_i0 c' =? c_i0 c). Qed.

Lemma fin_idx : all_idx (map fin cs) = all_idx cs.
Proof. unfold all_idx. rewrite map_map. f_equal. apply map_ext. intros c'. apply fin_fields. Qed.
Lemma fin_bufs : map c_b (map fin cs) = map c_b cs.
Proof. rewrite map_map. apply map_ext. intros c'. apply fin_fields. Qed.
Lemma fin_heads : map c_i0 (map fin cs) = map c_i0 cs.
Proof. rewrite map_map. apply map_ext. intros c'. apply fin_fields. Qed.

Lemma cp_formatted c' : c' ∈ cs -> formatted v' (fin c').
Proof.
  intros Hc'. destruct (dk_fmt w Hw c' Hc') as [F F0 F1 F2 F3 F4 F5]. cbn [w w_v] in *. destruct (fin_fields c') as (E1 & E2 & _ & E4 & E5 & E6).
  destruct cp_same as (A & _ & C & _ & _ & _ & _ & _ & _ & L & _).
  assert (Hd : forall i, get_desc i v' = get_desc i v) by (intros i; unfold get_desc; cbn; by rewrite A).
  assert (N' : in_num (c_i0 c')) by (apply (call_num w c' _ Hw Hc'), head_in).
  split; rewrite ?E1, ?E2, ?E4, ?E5, ?E6, ?Hd; try done.
  - cbn [v' device_done v_ops vset_used vset_info]. rewrite C, F, cp_buf by done. destruct (Z.eqb_spec (c_b c') (c_b c)) as [->|]; done.
  - rewrite cp_info by done. destruct (Z.eqb_spec (c_i0 c') (c_i0 c)) as [E|]; [|done]. cbn. by rewrite <-E.
  - unfold buf_ptr in *. cbn. by rewrite L.
  - unfold buf_fit in *. rewrite cp_buf by done. destruct (Z.eqb_spec (c_b c') (c_b c)) as [E|]; [|done]. cbn. split; [apply length_d|]. destruct F5 as [_ F5]. by rewrite E in F5.
Qed.

Lemma cp_phase m' c' : c' ∈ cs -> phase (w' m') (fin c').
Proof.
  intros Hc'. pose proof (dk_phase w Hw c' Hc') as Hp. pose proof (dk_heads w Hw) as Hnd. cbn [w w_taken] in Hnd.
  rewrite <-app_assoc in Hnd. cbn [app] in Hnd. rewrite app_assoc, <-Permutation_middle in Hnd. apply list.NoDup_cons in Hnd as [Hn _].
  rewrite !elem_of_app in Hn. unfold phase in *. rewrite cp_pending, cp_completed. cbn [w w' w_v w_taken] in *.
  destruct (fin_fields c') as (E1 & _ & _ & E4 & _). rewrite E1, E4. assert (N' : in_num (c_i0 c')) by (apply (call_num w c' _ Hw Hc'), head_in).
  rewrite cp_buf, cp_info by done. destruct (decide (c_i0 c' = c_i0 c)) as [E|E].
  - assert (c' = c) as -> by (eapply head_inj; [apply (dk_idx w Hw)|done..]). rewrite decide_True in Hp by (rewrite !elem_of_app, elem_of_cons; tauto).
    rewrite decide_False by (rewrite !elem_of_app; tauto). rewrite decide_True by (rewrite elem_of_app, list_elem_of_singleton; tauto).
    rewrite !Z.eqb_refl. unfold fin, finished. rewrite Z.eqb_refl. cbn. unfold d. destruct (Z.eqb_spec st 0); tauto.
  - assert (Hb : c_b c' <> c_b c) by (intros Eb; apply E; f_equal; by eapply buf_inj; [apply (dk_bufs w Hw)|..]).
    rewrite !(proj2 (Z.eqb_neq _ _)) by done. unfold fin, finished. rewrite (proj2 (Z.eqb_neq _ _)) by done.
    erewrite (decide_ext (c_i0 c' ∈ pending w ++ t1 ++ t2) (c_i0 c' ∈ pending w ++ t1 ++ c_i0 c :: t2)) by (rewrite !elem_of_app, elem_of_cons; tauto).
    erewrite (decide_ext (c_i0 c' ∈ completed w ++ [c_i0 c]) (c_i0 c' ∈ completed w)) by (rewrite elem_of_app, list_elem_of_singleton; tauto). done.
Qed.

Lemma complete_ok m' : disk_ok (w' m').
Proof.
  destruct cp_same as (A & B & C & E & F & G & I & J & K & L & O).
  assert (Hd : forall i, get_desc i v' = get_desc i v) by (intros i; unfold get_desc; cbn; by rewrite A).
  assert (Hf : forall i, get_free i v' = get_free i v) by (intros i; unfold get_free; cbn; by rewrite E).
  assert (Hmem : forall c', c' ∈ map fin cs -> exists c0, c0 ∈ cs /\ c' = fin c0).
  { intros c' Hc'. apply list_elem_of_In, in_map_iff in Hc' as (c0 & <- & Hc0). exists c0. by rewrite list_elem_of_In. }
  split; cbn [w' w_v w_next w_taken w_calls]; rewrite ?cp_pending, ?cp_completed, ?fin_idx, ?fin_bufs, ?fin_heads; try apply Hw.
  - destruct cp_sizes1. split; cbn; rewrite ?length_alter, ?length_ring_set; try done. apply u16_range.
  - change (lock_free (vdisk_lock v1)). rewrite O. apply (dk_lock w Hw).
  - intros i Hi. rewrite Hf. apply (dk_free w Hw i Hi).
  - intros i Hi Hx. rewrite Hd. by apply (dk_zero w Hw i Hi).
  - intros c' Hc'. destruct (Hmem c' Hc') as (c0 & Hc0 & ->). by apply cp_formatted.
  - pose proof (dk_heads w Hw) as Hnd. cbn [w w_taken] in Hnd. rewrite <-(app_assoc t1) in Hnd. cbn [app] in Hnd.
    eapply (NoDup_Permutation_proper _ _); [|exact Hnd]. solve_Permutation.
  - intros h Hh. apply (dk_known w Hw). cbn. rewrite !elem_of_app, ?list_elem_of_singleton, ?elem_of_cons in *. tauto.
  - intros c' Hc'. destruct (Hmem c' Hc') as (c0 & Hc0 & ->). by apply cp_phase.
Qed.

End Complete.

(** What a completed transfer does to the medium. *)
Lemma put_block m bn d bn' : length d = Z.to_nat BSIZE ->
  block (media_put (BSIZE * bn) d m) bn' = if decide (bn' = bn) then d else block m bn'.
Proof.
  intros Hd. unfold block, media_get, media_put. change BSIZE with 1024 in *. case_decide as E.
  - subst bn'. apply list_eq. intros i. rewrite list_lookup_fmap. destruct (decide (i < 1024)%nat) as [Hi|Hi].
    + rewrite lookup_seqZ_lt by lia. cbn. rewrite decide_True by lia. replace (Z.to_nat (1024 * bn + Z.of_nat i - 1024 * bn)) with i by lia.
      destruct (lookup_lt_is_Some_2 d i) as [x Hx]; [lia|]. by rewrite Hx.
    + rewrite lookup_seqZ_ge by lia. symmetry. apply lookup_ge_None. lia.
  - apply map_ext_in. intros x Hx. apply list_elem_of_In, elem_of_seqZ in Hx. case_decide; [|done]. rewrite lookup_ge_None_2; [done|]. lia.
Qed.

End Facts.

(** ** Every interleaving *)

Section Interleaving.
Context {D : Type} `{VirtioRegs D}.
Local Notation V := (disk D).
Implicit Types (v : V) (w : world D) (c : call).

(** The system.  A call of the driver, on any CPU, is one step up to where it
    sleeps or returns: it holds the lock all the while. *)
Inductive disk_step : world D -> world D -> Prop :=
(** a process that owns a buffer calls virtio_disk_rw(), or tries again *)
| ds_rw me v n t m cs b wr r v' :
    buf_ptr b v -> buf_fit b v -> b ∉ map c_b cs -> virtio_disk_rw me b wr v = Ok r v' ->
    disk_step (mkWorld v n t m cs) (mkWorld v' n t m
      (match r with
       | WaitDisk i0 => let i1 := d_next (get_desc i0 v') in cs ++ [mkCall b wr i0 i1 (d_next (get_desc i1 v')) Asked]
       | _ => cs
       end))
(** a process that waits for the device is woken *)
| ds_woken me v n t m cs1 c cs2 r v' :
    virtio_disk_rw_woken me (c_b c) (c_i0 c) v = Ok r v' ->
    disk_step (mkWorld v n t m (cs1 ++ c :: cs2)) (mkWorld v' n t m (match r with RwDone => cs1 ++ cs2 | _ => cs1 ++ c :: cs2 end))
| ds_intr me v n t m cs fuel v' :
    (2 < fuel)%nat -> virtio_disk_intr me fuel v = Ok tt v' -> disk_step (mkWorld v n t m cs) (mkWorld v' n t m cs)
(** a process changes a buffer it owns *)
| ds_touch v n t m cs b d : buf_ptr b v -> b ∉ map c_b cs -> disk_step (mkWorld v n t m cs) (mkWorld (set_b_data b d v) n t m cs)
(** the device takes the next request *)
| ds_take v n t m cs :
    n <> avail_idx v ->
    disk_step (mkWorld v n t m cs) (mkWorld v (u16 (n + 1)) (t ++ [ring_get NUM (avail_ring v) n]) m cs)
(** the device completes a request, with the transfer done or with an error *)
| ds_complete v n t1 head t2 m cs wr sec b len k st :
    chain_of v head = Some (wr, sec, b, len, k) ->
    let p := if st =? 0 then transfer wr sec b len v m else (v, m) in
    disk_step (mkWorld v n (t1 ++ head :: t2) m cs)
      (mkWorld (device_done head k st (fst p)) n (t1 ++ t2) (snd p) (map (finished head st m v) cs)).

Lemma disk_step_ok w w' : disk_ok w -> disk_step w w' -> disk_ok w'.
Proof.
  intros Hw Hs. destruct Hs as [me v n t m cs b wr r v' Hb Hfit Hn E|me v n t m l1 c l2 r v' E|me v n t m cs fuel v' Hf E|v n t m cs b d Hb Hn|v n t m cs Hne|v n t1 h t2 m cs wr sec b len k st E p].
  - destruct (rw_eq me v n t m cs b wr Hw Hb) as [Er|(i0 & i1 & i2 & E01 & E02 & E12 & Hi & Er)]; rewrite Er in E; injection E as <- <-; [done|].
    pose proof (sub_formatted v n t m cs b wr i0 i1 i2 Hw Hb Hfit E01 E02 E12 Hi) as [_ F0 F1 _ _ _ _]. cbn in F0, F1. cbn zeta. rewrite F0. cbn [d_next]. rewrite F1. cbn [d_next].
    by apply submit_ok.
  - rewrite (woken_eq me v n t m l1 l2 c Hw) in E. destruct (Z.eqb_spec (vb_disk (get_vbuf (c_b c) v)) 1); injection E as <- <-; [done|]. by apply finish_ok.
  - destruct (intr_spec me v n t m cs fuel Hw Hf) as [ [E1 _]|(v1 & E1 & Hw1 & _)]; rewrite E1 in E; [done|]. by injection E as <-.
  - by apply touch_ok.
  - by apply take_ok.
  - destruct (head_known _ h Hw) as (c & Hc & <-); [rewrite !elem_of_app; cbn; rewrite elem_of_app, elem_of_cons; tauto|]. cbn in Hc.
    rewrite (chain_eq v n t1 t2 m cs c 0 Hw Hc) in E. injection E as <- <- <- <- <-. unfold p. clear p. rewrite (transfer_eq v n t1 t2 m cs c 0 Hw Hc).
    pose proof (complete_ok 0 v n t1 t2 m cs c st Hw Hc) as Hok. cbn zeta in Hok. destruct (st =? 0); [|apply Hok]. destruct (c_write c); apply Hok.
Qed.

(** The driver after virtio_disk_init(), with no request in flight. *)
Record disk_fresh v : Prop := {
  df_sizes : sizes v;
  df_lock : lock_free (vdisk_lock v);
  df_free : forall i, in_num i -> get_free i v = 1;
  df_zero : forall i, in_num i -> get_desc i v = zero_desc;
  df_used : seen_idx v = used_idx v
}.

Lemma fresh_disk_ok v m : disk_fresh v -> disk_ok (mkWorld v (avail_idx v) [] m []).
Proof.
  intros [F1 F2 F3 F4 F5]. assert (Hp : pending (mkWorld v (avail_idx v) [] m []) = []) by (by apply ring_empty).
  assert (Hc : completed (mkWorld v (avail_idx v) [] m []) = []) by (unfold completed; cbn; rewrite F5; by apply ring_empty).
  split; cbn [w_v w_next w_taken w_calls]; rewrite ?Hp, ?Hc; try done; try apply F1.
  - constructor.
  - intros i Hi. by apply not_elem_of_nil in Hi.
  - intros i Hi _. by apply F4.
  - constructor.
  - intros c Hc'. by apply not_elem_of_nil in Hc'.
  - constructor.
  - intros c Hc'. by apply not_elem_of_nil in Hc'.
Qed.

Lemma reach_ok w w' : disk_ok w -> rtc disk_step w w' -> disk_ok w'.
Proof. intros Hw Hr. induction Hr; eauto using disk_step_ok. Qed.

(** The device, working on the request of [c], finds all of it in the
    descriptors, and moves exactly the block of the buffer. *)
Definition serves v (m : Z -> Z) c : Prop :=
  let bn := vb_blockno (get_vbuf (c_b c) v) in
  exists sec len, chain_of v (c_i0 c) = Some (c_write c, sec, c_b c, len, c_i0 c) /\
    let '(v', m') := transfer (c_write c) sec (c_b c) len v m in
    if c_write c then v' = v /\ forall bn', block m' bn' = if decide (bn' = bn) then vb_data (get_vbuf (c_b c) v) else block m bn'
    else m' = m /\ vb_data (get_vbuf (c_b c) v') = block m bn /\ forall b', buf_ptr b' v -> b' <> c_b c -> get_vbuf b' v' = get_vbuf b' v.

Lemma in_work v n t1 t2 m cs c : disk_ok (mkWorld v n (t1 ++ c_i0 c :: t2) m cs) -> c ∈ cs -> serves v m c.
Proof.
  intros Hw Hc. unfold serves. exists (u32 (vb_blockno (get_vbuf (c_b c) v) * (BSIZE / 512))), BSIZE.
  split; [by apply (chain_eq v n t1 t2 m cs c 0 Hw Hc)|]. rewrite (transfer_eq v n t1 t2 m cs c 0 Hw Hc). unfold wanted.
  destruct (dk_fmt _ Hw c Hc) as [_ _ _ _ _ Hp [Hlen _] ]. cbn [w_v] in *. destruct (c_write c).
  - split; [done|]. intros bn'. by apply put_block.
  - split; [done|]. unfold set_b_data. split; [by rewrite get_vbuf_put, Z.eqb_refl by done|]. intros b' Hb' Hne. rewrite get_vbuf_put by done. by rewrite (proj2 (Z.eqb_neq _ _)).
Qed.

(** C19: disk requests neither interfere nor get lost.  Start with an idle
    driver, and let processes start transfers of buffers they own, wake up
    while they wait, change buffers that are not in transfer, let interrupts
    arrive, and the device take requests and complete them in any order, with
    the data moved or with an error.  The device follows the descriptors,
    their lengths included.  Then at every moment: virtio_disk_rw() of another
    buffer does not panic, and waits; a waiting call that wakes up goes back to
    sleep, or returns, and it returns only when the device has served its
    request without an error, so that the buffer of a read holds what its
    block held on the medium at that time; an interrupt panics exactly when a
    request has failed, and otherwise makes every finished request ready to
    return; and what the device moves for a request it works on is the whole
    block of the buffer, to or from the block's place on the medium, and
    nothing else. *)
Theorem disk_requests me v0 m0 v n t m cs :
  disk_fresh v0 -> rtc disk_step (mkWorld v0 (avail_idx v0) [] m0 []) (mkWorld v n t m cs) ->
  (forall b wr, buf_ptr b v -> b ∉ map c_b cs -> exists r v', virtio_disk_rw me b wr v = Ok r v' /\ r <> RwDone) /\
  (forall c, c ∈ cs -> exists r v', virtio_disk_rw_woken me (c_b c) (c_i0 c) v = Ok r v' /\
     (r = WaitDisk (c_i0 c) /\ v' = v \/ r = RwDone /\ c_res c = Moved (vb_data (get_vbuf (c_b c) v)))) /\
  (forall fuel, (2 < fuel)%nat ->
     (virtio_disk_intr me fuel v = Panic "virtio_disk_intr status" /\ exists c, c ∈ cs /\ c_res c = Failed) \/
     ((forall c, c ∈ cs -> c_res c <> Failed) /\ exists v', virtio_disk_intr me fuel v = Ok tt v' /\
        forall c, c ∈ cs -> c_res c <> Asked -> vb_disk (get_vbuf (c_b c) v') = 0)) /\
  (forall h, h ∈ t -> exists c, c ∈ cs /\ c_i0 c = h /\ c_res c = Asked /\ serves v m c).
Proof.
  intros Hf Hr. pose proof (reach_ok _ _ (fresh_disk_ok v0 m0 Hf) Hr) as Hw. split_and!.
  - intros b wr Hb Hn. destruct (rw_eq me v n t m cs b wr Hw Hb) as [Er|(i0 & i1 & i2 & _ & _ & _ & _ & Er)]; rewrite Er; by eexists _, _.
  - intros c Hc. pose proof (dk_phase _ Hw c Hc) as Hp. unfold phase in Hp. cbn [w_v w_taken] in Hp. apply list_elem_of_split in Hc as (l1 & l2 & ->).
    rewrite (woken_eq me v n t m l1 l2 c Hw). destruct (Z.eqb_spec (vb_disk (get_vbuf (c_b c) v)) 1) as [E|E]; eexists _, _; (split; [reflexivity|]); [by left|right].
    split; [done|]. repeat destruct (decide _); tauto.
  - intros fuel Hfu. destruct (intr_spec me v n t m cs fuel Hw Hfu) as [(E & c & Hc & _ & Hfl)|(v' & E & Hw' & Hc' & Hn)]; [left; split; [done|by exists c]|right].
    split.
    + intros c Hc Hfl. apply Hn. exists c. split; [done|]. split; [|done]. pose proof (dk_phase _ Hw c Hc) as Hp. unfold phase in Hp.
      destruct (decide (c_i0 c ∈ _ ++ _)); [destruct Hp; congruence|]. destruct (decide (c_i0 c ∈ completed _)); [done|destruct Hp; congruence].
    + exists v'. split; [done|]. intros c Hc Hres. pose proof (dk_phase _ Hw' c Hc) as Hp. unfold phase in Hp. rewrite Hc' in Hp. cbn [w_v] in Hp. destruct (decide _) as [|_]; [tauto|].
      rewrite decide_False in Hp by apply not_elem_of_nil. tauto.
  - intros h Hh. destruct (head_known _ h Hw) as (c & Hc & <-); [rewrite !elem_of_app; tauto|]. exists c. split; [done|]. split; [done|].
    pose proof (dk_phase _ Hw c Hc) as Hp. unfold phase in Hp. rewrite decide_True in Hp by (rewrite elem_of_app; tauto). split; [tauto|].
    apply list_elem_of_split in Hh as (t1 & t2 & ->). by apply (in_work v n t1 t2 m cs c).
Qed.

End Interleaving.

(** ** One read on a small machine *)
Module VirtioDemo.

#[local] Instance no_regs : VirtioRegs unit := { reg_read _ d := (0, d); reg_write _ _ d := d }.

(** Two buffers, of blocks 5 and 6; every byte of sector s is s. *)
Definition start : disk unit :=
  mkDisk (initlock "virtio_disk") (replicate 8 zero_desc) (replicate 8 0) 0 (replicate 8 0) 0 (replicate 8 1) 0
    (replicate 8 zero_info) (replicate 8 zero_req) [mkVbuf 5 0 (replicate 1024 1); mkVbuf 6 0 (replicate 1024 2)] (mkKmem (initlock "kmem") 0 ∅) tt.
Definition bytes (a : Z) : Z := a / 512.
Definition run {A} (m : M (disk unit) A) (v : disk unit) : disk unit := match m v with Ok _ v' => v' | _ => v end.

(** A read of block 5 into the first buffer was submitted, taken and
    completed. *)
Definition waiting : disk unit := run (virtio_disk_rw 0 1 false) start.
Definition finished_read : disk unit := device_done 0 0 0 (fst (transfer false 10 1 1024 waiting bytes)).
Definition the_call : call := finished 0 0 bytes waiting (mkCall 1 false 0 1 2 Asked).

Lemma start_fresh : disk_fresh start.
Proof.
  split; try done.
  - intros i Hi. unfold get_free. cbn [v_free start]. rewrite lookup_replicate_2; [done|]. unfold in_num, NUM in Hi. lia.
  - intros i Hi. unfold get_desc. cbn [v_desc start]. rewrite lookup_replicate_2; [done|]. unfold in_num, NUM in Hi. lia.
Qed.

Lemma disk_requests_witness :
  vb_data (get_vbuf 1 finished_read) = replicate 512 10 ++ replicate 512 11 /\
  ((exists c, c ∈ [the_call] /\ c_res c = Failed) \/
   exists v', virtio_disk_intr 1 3 finished_read = Ok tt v' /\ vb_disk (get_vbuf 1 v') = 0).
Proof.
  split; [by vm_compute|].
  destruct (disk_requests 1 start bytes finished_read 1 [] bytes [the_call] start_fresh) as (_ & _ & Hi & _).
  - eapply rtc_l; [apply (ds_rw 0 start 0 [] bytes [] 1 false (WaitDisk 0) waiting); [split; vm_compute; discriminate|by vm_compute|apply not_elem_of_nil|vm_compute; reflexivity]|].
    eapply rtc_l; [apply (ds_take waiting 0 [] bytes); vm_compute; discriminate|].
    eapply rtc_l; [|apply rtc_refl]. apply (ds_complete waiting 1 [] 0 [] bytes [mkCall 1 false 0 1 2 Asked] false 10 1 1024 0 0). vm_compute. reflexivity.
  - destruct (Hi 3%nat) as [ [_ Hfl]|(_ & v' & E & Hv')]; [lia|by left|right]. exists v'. split; [exact E|].
    apply (Hv' the_call); [apply elem_of_cons; by left|discriminate].
Defined.

End VirtioDemo.
