(* ===== verification/Proc.v ===== *)
(** * Processes and the scheduler (kernel/proc.c)

    The process table, the per-CPU state and every routine of proc.c.  The
    routines run on one CPU, [me]; a routine that calls swtch() is split at
    that call: [sched] is what happens before the switch and [sched_in] what
    happens when the process is switched to again, and likewise for sleep(),
    yield() and the scheduler loop.  User memory and files are reached through
    the interface [ProcEnv]; ProcSpec.v states what it promises. *)

From S2P Require Import Prelude Spinlock Mem Riscv Kalloc Vm.
Import Spinlock.

Inductive procstate := UNUSED | USED | SLEEPING | RUNNABLE | RUNNING | ZOMBIE.
#[global] Instance procstate_eq_dec : EqDecision procstate.
Proof. solve_decision. Defined.

(** struct context: ra, sp and the callee-saved s0 to s11. *)
Record context := mkContext { ctx_ra : Z; ctx_sp : Z; ctx_s : list Z }.

(** struct proc; a [struct proc *] is an index of the table, [None] is null;
    files and inodes are handles, 0 is null. *)
Record proc := mkProc {
  p_lock : spinlock;
  p_state : procstate;
  p_chan : Z;
  p_killed : Z;
  p_xstate : Z;
  p_pid : Z;
  p_parent : option Z;
  p_kstack : Z;
  p_sz : Z;
  p_pagetable : Z;
  p_trapframe : Z;
  p_context : context;
  p_ofile : list Z;
  p_cwd : Z;
  p_name : list Z
}.

Definition set_lock v p := mkProc v (p_state p) (p_chan p) (p_killed p) (p_xstate p) (p_pid p) (p_parent p) (p_kstack p) (p_sz p) (p_pagetable p) (p_trapframe p) (p_context p) (p_ofile p) (p_cwd p) (p_name p).
Definition set_state v p := mkProc (p_lock p) v (p_chan p) (p_killed p) (p_xstate p) (p_pid p) (p_parent p) (p_kstack p) (p_sz p) (p_pagetable p) (p_trapframe p) (p_context p) (p_ofile p) (p_cwd p) (p_name p).
Definition set_chan v p := mkProc (p_lock p) (p_state p) v (p_killed p) (p_xstate p) (p_pid p) (p_parent p) (p_kstack p) (p_sz p) (p_pagetable p) (p_trapframe p) (p_context p) (p_ofile p) (p_cwd p) (p_name p).
Definition set_killed v p := mkProc (p_lock p) (p_state p) (p_chan p) v (p_xstate p) (p_pid p) (p_parent p) (p_kstack p) (p_sz p) (p_pagetable p) (p_trapframe p) (p_context p) (p_ofile p) (p_cwd p) (p_name p).
Definition set_xstate v p := mkProc (p_lock p) (p_state p) (p_chan p) (p_killed p) v (p_pid p) (p_parent p) (p_kstack p) (p_sz p) (p_pagetable p) (p_trapframe p) (p_context p) (p_ofile p) (p_cwd p) (p_name p).
Definition set_pid v p := mkProc (p_lock p) (p_state p) (p_chan p) (p_killed p) (p_xstate p) v (p_parent p) (p_kstack p) (p_sz p) (p_pagetable p) (p_trapframe p) (p_context p) (p_ofile p) (p_cwd p) (p_name p).
Definition set_parent v p := mkProc (p_lock p) (p_state p) (p_chan p) (p_killed p) (p_xstate p) (p_pid p) v (p_kstack p) (p_sz p) (p_pagetable p) (p_trapframe p) (p_context p) (p_ofile p) (p_cwd p) (p_name p).
Definition set_kstack v p := mkProc (p_lock p) (p_state p) (p_chan p) (p_killed p) (p_xstate p) (p_pid p) (p_parent p) v (p_sz p) (p_pagetable p) (p_trapframe p) (p_context p) (p_ofile p) (p_cwd p) (p_name p).
Definition set_sz v p := mkProc (p_lock p) (p_state p) (p_chan p) (p_killed p) (p_xstate p) (p_pid p) (p_parent p) (p_kstack p) v (p_pagetable p) (p_trapframe p) (p_context p) (p_ofile p) (p_cwd p) (p_name p).
Definition set_pagetable v p := mkProc (p_lock p) (p_state p) (p_chan p) (p_killed p) (p_xstate p) (p_pid p) (p_parent p) (p_kstack p) (p_sz p) v (p_trapframe p) (p_context p) (p_ofile p) (p_cwd p) (p_name p).
Definition set_trapframe v p := mkProc (p_lock p) (p_state p) (p_chan p) (p_killed p) (p_xstate p) (p_pid p) (p_parent p) (p_kstack p) (p_sz p) (p_pagetable p) v (p_context p) (p_ofile p) (p_cwd p) (p_name p).
Definition set_context v p := mkProc (p_lock p) (p_state p) (p_chan p) (p_killed p) (p_xstate p) (p_pid p) (p_parent p) (p_kstack p) (p_sz p) (p_pagetable p) (p_trapframe p) v (p_ofile p) (p_cwd p) (p_name p).
Definition set_ofile v p := mkProc (p_lock p) (p_state p) (p_chan p) (p_killed p) (p_xstate p) (p_pid p) (p_parent p) (p_kstack p) (p_sz p) (p_pagetable p) (p_trapframe p) (p_context p) v (p_cwd p) (p_name p).
Definition set_cwd v p := mkProc (p_lock p) (p_state p) (p_chan p) (p_killed p) (p_xstate p) (p_pid p) (p_parent p) (p_kstack p) (p_sz p) (p_pagetable p) (p_trapframe p) (p_context p) (p_ofile p) v (p_name p).
Definition set_name v p := mkProc (p_lock p) (p_state p) (p_chan p) (p_killed p) (p_xstate p) (p_pid p) (p_parent p) (p_kstack p) (p_sz p) (p_pagetable p) (p_trapframe p) (p_context p) (p_ofile p) (p_cwd p) v.

(** safestrcpy() on two char arrays (its memory-level definition is in
    Mem.v): characters up to the NUL or the size, then a NUL. *)
Fixpoint safestrcpy (s t : list Z) (n : nat) : list Z :=
  match n with
  | O => s
  | S O => 0 :: tail s
  | S n => match t with
           | c :: t => if c =? 0 then 0 :: tail s else c :: safestrcpy (tail s) t n
           | [] => 0 :: tail s
           end
  end.

(** What a process uses of the rest of the kernel, on a state [W]. *)
Class ProcEnv (W : Type) := {
  env_kalloc : M W Z;
  env_kfree : Z -> M W unit;
  env_proc_pagetable : Z -> M W Z;
  env_proc_freepagetable : Z -> Z -> M W unit;
  env_uvmfirst : Z -> list Z -> M W unit;
  env_uvmalloc : Z -> Z -> Z -> Z -> M W Z;
  env_uvmdealloc : Z -> Z -> Z -> M W Z;
  env_uvmcopy : Z -> Z -> Z -> M W Z;
  (** copyout() and copyin() with the kernel's bytes *)
  env_copyout : Z -> Z -> list Z -> M W Z;
  env_copyin : Z -> Z -> Z -> M W (option (list Z));
  (** memmove() to and from a kernel address *)
  env_kwrite : Z -> list Z -> M W unit;
  env_kread : Z -> Z -> M W (list Z);
  (** [*dst = *src] and [tf->field = v], for trapframe pages *)
  env_tf_copy : Z -> Z -> M W unit;
  env_tf_set : Z -> Z -> Z -> M W unit;
  env_filedup : Z -> M W Z;
  env_fileclose : Z -> M W unit;
  env_idup : Z -> M W Z;
  (** begin_op(); iput(ip); end_op(); *)
  env_iput : Z -> M W unit;
  env_namei : string -> M W Z
}.

(** Offsets in struct trapframe. *)
Definition TF_EPC : Z := 24.
Definition TF_SP : Z := 48.
Definition TF_A0 : Z := 112.
Definition TF_SIZE : Z := 288.

(** The kernel as one CPU sees it: the table and the globals of proc.c, this
    CPU's registers and struct cpu, and the rest. *)
Record kstate (W : Type) := mkK {
  procs : list proc;
  initproc : option Z;
  nextpid : Z;
  pid_lock : spinlock;
  wait_lock : spinlock;
  k_hart : hart;
  c_proc : option Z;
  kenv : W
}.
Arguments mkK {W} _ _ _ _ _ _ _ _.
Arguments procs {W} _.
Arguments initproc {W} _.
Arguments nextpid {W} _.
Arguments pid_lock {W} _.
Arguments wait_lock {W} _.
Arguments k_hart {W} _.
Arguments c_proc {W} _.
Arguments kenv {W} _.

Definition dead_context : context := mkContext 0 0 (replicate 12 0).
(** A zeroed entry of the table, as in the kernel's .bss. *)
Definition zero_proc : proc :=
  mkProc (mkSpinlock 0 "" None) UNUSED 0 0 0 0 None 0 0 0 0 dead_context (replicate (Z.to_nat NOFILE) 0) 0 (replicate 16 0).

Section Proc.
Context {W : Type} `{ProcEnv W}.
Variable me : Z.
(** The address of proc[0], and of the function forkret. *)
Variables proc_base forkret_addr : Z.

Notation K := (kstate W).

Definition set_procs (f : list proc -> list proc) (s : K) : K :=
  mkK (f (procs s)) (initproc s) (nextpid s) (pid_lock s) (wait_lock s) (k_hart s) (c_proc s) (kenv s).
Definition hart_lens : lens K hart :=
  Lens k_hart (fun h s => mkK (procs s) (initproc s) (nextpid s) (pid_lock s) (wait_lock s) h (c_proc s) (kenv s)).
Definition env_lens : lens K W :=
  Lens kenv (fun w s => mkK (procs s) (initproc s) (nextpid s) (pid_lock s) (wait_lock s) (k_hart s) (c_proc s) w).
Definition pid_lock_lens : lens K spinlock :=
  Lens pid_lock (fun l s => mkK (procs s) (initproc s) (nextpid s) l (wait_lock s) (k_hart s) (c_proc s) (kenv s)).
Definition wait_lock_lens : lens K spinlock :=
  Lens wait_lock (fun l s => mkK (procs s) (initproc s) (nextpid s) (pid_lock s) l (k_hart s) (c_proc s) (kenv s)).
Definition set_cproc (v : option Z) : M K unit :=
  modify (fun s => mkK (procs s) (initproc s) (nextpid s) (pid_lock s) (wait_lock s) (k_hart s) v (kenv s)).
Definition set_initproc (v : option Z) : M K unit :=
  modify (fun s => mkK (procs s) v (nextpid s) (pid_lock s) (wait_lock s) (k_hart s) (c_proc s) (kenv s)).
Definition set_nextpid (v : Z) : M K unit :=
  modify (fun s => mkK (procs s) (initproc s) v (pid_lock s) (wait_lock s) (k_hart s) (c_proc s) (kenv s)).

(** proc[i], and assignment to its fields. *)
Definition pget (i : Z) (s : K) : proc := default zero_proc (procs s !! Z.to_nat i).
Definition getp {A} (i : Z) (f : proc -> A) : M K A := gets (fun s => f (pget i s)).
Definition setp (i : Z) (f : proc -> proc) : M K unit := modify (set_procs (alter f (Z.to_nat i))).
Definition p_lock_lens (i : Z) : lens K spinlock :=
  Lens (fun s => p_lock (pget i s)) (fun l s => set_procs (alter (set_lock l) (Z.to_nat i)) s).
Definition env {A} (m : M W A) : M K A := zoom env_lens m.

(** &proc[i], as a wait channel; sizeof(struct proc) is 360. *)
Definition proc_at (i : Z) : Z := proc_base + 360 * i.
Definition chan_of (p : option Z) : Z := match p with Some i => proc_at i | None => 0 end.

(** acquire() and release() with the interrupt nesting of this CPU. *)
Definition lock (l : lens K spinlock) : M K unit :=
  zoom hart_lens push_off ;; acquire_at me l.
Definition unlock (l : lens K spinlock) : M K unit :=
  release_at me l ;; zoom hart_lens pop_off.

(** The loops over the process table. *)
Definition for_procs (body : Z -> M K unit) : M K unit := for_range (Z.to_nat NPROC) 0 body.

Definition procinit : M K unit :=
  modify (fun s => put pid_lock_lens (initlock "nextpid") s) ;;
  modify (fun s => put wait_lock_lens (initlock "wait_lock") s) ;;
  for_procs (fun p =>
    setp p (set_lock (initlock "proc")) ;;
    setp p (set_state UNUSED) ;;
    setp p (set_kstack (KSTACK p))).

Definition myproc : M K (option Z) :=
  zoom hart_lens push_off ;;
  let! p := gets c_proc in
  zoom hart_lens pop_off ;;
  ret p.

Definition allocpid : M K Z :=
  lock pid_lock_lens ;;
  let! pid := gets nextpid in
  set_nextpid (i32 (pid + 1)) ;;
  unlock pid_lock_lens ;;
  ret pid.

Definition freeproc (p : Z) : M K unit :=
  let! tf := getp p p_trapframe in
  when (negb (tf =? 0)) (env (env_kfree tf)) ;;
  setp p (set_trapframe 0) ;;
  let! pt := getp p p_pagetable in
  when (negb (pt =? 0)) (let! sz := getp p p_sz in env (env_proc_freepagetable pt sz)) ;;
  setp p (set_pagetable 0) ;;
  setp p (set_sz 0) ;;
  setp p (set_pid 0) ;;
  setp p (set_parent None) ;;
  setp p (fun q => set_name (<[0%nat := 0]> (p_name q)) q) ;;
  setp p (set_chan 0) ;;
  setp p (set_killed 0) ;;
  setp p (set_xstate 0) ;;
  setp p (set_state UNUSED).

(** The search loop of allocproc(): it leaves with p->lock held. *)
Definition allocproc_body (p : Z) : M K (Z + option Z) :=
  if p <? NPROC then
    lock (p_lock_lens p) ;;
    let! st := getp p p_state in
    if bool_decide (st = UNUSED) then ret (inr (Some p))
    else unlock (p_lock_lens p) ;; ret (inl (p + 1))
  else ret (inr None).

Definition allocproc : M K (option Z) :=
  let! r := loop (Z.to_nat NPROC + 1) allocproc_body 0 in
  match r with
  | None => ret None
  | Some p =>
      let! pid := allocpid in
      setp p (set_pid pid) ;;
      setp p (set_state USED) ;;
      let! tf := env env_kalloc in
      setp p (set_trapframe tf) ;;
      if tf =? 0 then freeproc p ;; unlock (p_lock_lens p) ;; ret None
      else
        let! pt := env (env_proc_pagetable tf) in
        setp p (set_pagetable pt) ;;
        if pt =? 0 then freeproc p ;; unlock (p_lock_lens p) ;; ret None
        else
          setp p (set_context dead_context) ;;
          setp p (fun q => set_context (mkContext forkret_addr (ctx_sp (p_context q)) (ctx_s (p_context q))) q) ;;
          setp p (fun q => set_context (mkContext (ctx_ra (p_context q)) (u64 (p_kstack q + PGSIZE)) (ctx_s (p_context q))) q) ;;
          ret (Some p)
  end.

(** The array initcode[]. *)
Definition initcode : list Z :=
  [0x17; 0x05; 0x00; 0x00; 0x13; 0x05; 0x45; 0x02;
   0x97; 0x05; 0x00; 0x00; 0x93; 0x85; 0x35; 0x02;
   0x93; 0x08; 0x70; 0x00; 0x73; 0x00; 0x00; 0x00;
   0x93; 0x08; 0x20; 0x00; 0x73; 0x00; 0x00; 0x00;
   0xef; 0xf0; 0x9f; 0xff; 0x2f; 0x69; 0x6e; 0x69;
   0x74; 0x00; 0x00; 0x24; 0x00; 0x00; 0x00; 0x00;
   0x00; 0x00; 0x00; 0x00].

(** "initcode" *)
Definition initcode_name : list Z := [105; 110; 105; 116; 99; 111; 100; 101; 0].

(** userinit() does not look at a null result of allocproc(). *)
Definition userinit : M K unit :=
  let! r := allocproc in
  set_initproc r ;;
  match r with
  | None => panic "null pointer"
  | Some p =>
      let! pt := getp p p_pagetable in
      env (env_uvmfirst pt initcode) ;;
      setp p (set_sz PGSIZE) ;;
      let! tf := getp p p_trapframe in
      env (env_tf_set tf TF_EPC 0) ;;
      env (env_tf_set tf TF_SP PGSIZE) ;;
      setp p (fun q => set_name (safestrcpy (p_name q) initcode_name 16) q) ;;
      let! ip := env (env_namei "/") in
      setp p (set_cwd ip) ;;
      setp p (set_state RUNNABLE) ;;
      unlock (p_lock_lens p)
  end.

(** The running process; the routines below are only called by one. *)
Definition myproc' : M K Z :=
  let! p := myproc in
  match p with Some p => ret p | None => panic "null pointer" end.

Definition growproc (n : Z) : M K Z :=
  let! p := myproc' in
  let! sz := getp p p_sz in
  let! pt := getp p p_pagetable in
  if 0 <? n then
    let! sz := env (env_uvmalloc pt sz (u64 (sz + n)) PTE_W) in
    if sz =? 0 then ret (-1) else setp p (set_sz sz) ;; ret 0
  else if n <? 0 then
    let! sz := env (env_uvmdealloc pt sz (u64 (sz + n))) in
    setp p (set_sz sz) ;; ret 0
  else setp p (set_sz sz) ;; ret 0.

(** [for(i = 0; i < NOFILE; i++) if(p->ofile[i]) np->ofile[i] = filedup(p->ofile[i]);] *)
Definition dup_files (p np : Z) : M K unit :=
  for_range (Z.to_nat NOFILE) 0 (fun i =>
    let! f := getp p (fun q => default 0 (p_ofile q !! Z.to_nat i)) in
    when (negb (f =? 0))
      (let! g := env (env_filedup f) in
       setp np (fun q => set_ofile (<[Z.to_nat i := g]> (p_ofile q)) q))).

Definition fork : M K Z :=
  let! p := myproc' in
  let! r := allocproc in
  match r with
  | None => ret (-1)
  | Some np =>
      let! ppt := getp p p_pagetable in
      let! npt := getp np p_pagetable in
      let! psz := getp p p_sz in
      let! c := env (env_uvmcopy ppt npt psz) in
      if c <? 0 then freeproc np ;; unlock (p_lock_lens np) ;; ret (-1)
      else
        setp np (set_sz psz) ;;
        let! ptf := getp p p_trapframe in
        let! ntf := getp np p_trapframe in
        env (env_tf_copy ntf ptf) ;;
        env (env_tf_set ntf TF_A0 0) ;;
        dup_files p np ;;
        let! cwd := getp p p_cwd in
        let! cwd := env (env_idup cwd) in
        setp np (set_cwd cwd) ;;
        let! name := getp p p_name in
        setp np (fun q => set_name (safestrcpy (p_name q) name 16) q) ;;
        let! pid := getp np p_pid in
        unlock (p_lock_lens np) ;;
        lock wait_lock_lens ;;
        setp np (set_parent (Some p)) ;;
        unlock wait_lock_lens ;;
        lock (p_lock_lens np) ;;
        setp np (set_state RUNNABLE) ;;
        unlock (p_lock_lens np) ;;
        ret pid
  end.

Definition wakeup (chan : Z) : M K unit :=
  for_procs (fun p =>
    let! m := myproc in
    when (negb (bool_decide (Some p = m)))
      (lock (p_lock_lens p) ;;
       let! q := getp p id in
       when (bool_decide (p_state q = SLEEPING) && (p_chan q =? chan)) (setp p (set_state RUNNABLE)) ;;
       unlock (p_lock_lens p))).

Definition reparent (p : Z) : M K unit :=
  for_procs (fun q =>
    let! par := getp q p_parent in
    when (bool_decide (par = Some p))
      (let! ip := gets initproc in
       setp q (set_parent ip) ;;
       wakeup (chan_of ip))).

(** sched() up to swtch(): the process is off the CPU; the result is the
    local variable intena. *)
Definition sched : M K Z :=
  let! p := myproc' in
  let! lk := getp p p_lock in
  if negb (holding me lk) then panic "sched p->lock"
  else
    let! h := gets k_hart in
    if negb (noff h =? 1) then panic "sched locks"
    else
      let! st := getp p p_state in
      if bool_decide (st = RUNNING) then panic "sched running"
      else if negb (intr_get h =? 0) then panic "sched interruptible"
      else ret (intena h).

(** sched() after swtch() returns. *)
Definition sched_in (saved : Z) : M K unit :=
  zoom hart_lens (modify (fun h => mkHart (sstatus h) (noff h) saved)).

(** One iteration of the scheduler's loop up to swtch(): true when the CPU
    has switched to [p], whose lock it holds. *)
Definition scheduler_pick (p : Z) : M K bool :=
  lock (p_lock_lens p) ;;
  let! st := getp p p_state in
  if bool_decide (st = RUNNABLE) then
    setp p (set_state RUNNING) ;;
    set_cproc (Some p) ;;
    ret true
  else unlock (p_lock_lens p) ;; ret false.

(** The rest of the iteration, when the process has switched back. *)
Definition scheduler_back (p : Z) : M K unit :=
  set_cproc None ;;
  unlock (p_lock_lens p).

(** The start of a round. *)
Definition scheduler_round : M K unit := zoom hart_lens intr_on.

Definition yield : M K Z :=
  let! p := myproc' in
  lock (p_lock_lens p) ;;
  setp p (set_state RUNNABLE) ;;
  sched.
Definition yield_in (saved : Z) : M K unit :=
  sched_in saved ;;
  let! p := myproc' in
  unlock (p_lock_lens p).

(** forkret(), where a new process starts; [first] is its static variable and
    [fsinit] the call made the first time. *)
Definition forkret (first : bool) (fsinit : M K unit) : M K unit :=
  let! p := myproc' in
  unlock (p_lock_lens p) ;;
  when first fsinit.

Definition sleep (chan : Z) (lk : lens K spinlock) : M K Z :=
  let! p := myproc' in
  lock (p_lock_lens p) ;;
  unlock lk ;;
  setp p (set_chan chan) ;;
  setp p (set_state SLEEPING) ;;
  sched.
Definition sleep_in (lk : lens K spinlock) (saved : Z) : M K unit :=
  sched_in saved ;;
  let! p := myproc' in
  setp p (set_chan 0) ;;
  unlock (p_lock_lens p) ;;
  lock lk.

(** exit(), up to its switch away. *)
Definition exit (status : Z) : M K Z :=
  let! p := myproc' in
  let! ip := gets initproc in
  if bool_decide (Some p = ip) then panic "init exiting"
  else
    for_range (Z.to_nat NOFILE) 0 (fun fd =>
      let! f := getp p (fun q => default 0 (p_ofile q !! Z.to_nat fd)) in
      when (negb (f =? 0))
        (env (env_fileclose f) ;;
         setp p (fun q => set_ofile (<[Z.to_nat fd := 0]> (p_ofile q)) q))) ;;
    let! cwd := getp p p_cwd in
    env (env_iput cwd) ;;
    setp p (set_cwd 0) ;;
    lock wait_lock_lens ;;
    reparent p ;;
    let! par := getp p p_parent in
    wakeup (chan_of par) ;;
    lock (p_lock_lens p) ;;
    setp p (set_xstate status) ;;
    setp p (set_state ZOMBIE) ;;
    unlock wait_lock_lens ;;
    sched.
(** A zombie that runs again. *)
Definition exit_in (saved : Z) : M K unit := sched_in saved ;; panic "zombie exit".

Definition setkilled (p : Z) : M K unit :=
  lock (p_lock_lens p) ;;
  setp p (set_killed 1) ;;
  unlock (p_lock_lens p).

Definition killed (p : Z) : M K Z :=
  lock (p_lock_lens p) ;;
  let! k := getp p p_killed in
  unlock (p_lock_lens p) ;;
  ret k.

(** The scan of wait() over the table: the variables are the index and
    havekids. *)
Definition wait_body (p addr : Z) (v : Z * bool) : M K (Z * bool + (bool + Z)) :=
  let '(pp, havekids) := v in
  if pp <? NPROC then
    let! par := getp pp p_parent in
    if bool_decide (par = Some p) then
      lock (p_lock_lens pp) ;;
      let! q := getp pp id in
      if bool_decide (p_state q = ZOMBIE) then
        let pid := p_pid q in
        let! pt := getp p p_pagetable in
        let! bad :=
          (if negb (addr =? 0) then
             let! r := env (env_copyout pt addr (le_bytes 4 (u32 (p_xstate q)))) in ret (r <? 0)
           else ret false) in
        if (bad : bool) then
          unlock (p_lock_lens pp) ;;
          unlock wait_lock_lens ;;
          ret (inr (inr (-1)))
        else
          freeproc pp ;;
          unlock (p_lock_lens pp) ;;
          unlock wait_lock_lens ;;
          ret (inr (inr pid))
      else
        unlock (p_lock_lens pp) ;;
        ret (inl (pp + 1, true))
    else ret (inl (pp + 1, havekids))
  else ret (inr (inl havekids)).

(** One round of wait(), with wait_lock held: [inr] when it returns, [inl]
    (with sched()'s intena) when it sleeps; after sleep_in() the next round
    starts. *)
Definition wait_round (p addr : Z) : M K (Z + Z) :=
  let! r := loop (Z.to_nat NPROC + 1) (wait_body p addr) (0, false) in
  match r with
  | inr pid => ret (inr pid)
  | inl havekids =>
      let! k := (if negb havekids then ret 1 else killed p) in
      if negb (k =? 0) then unlock wait_lock_lens ;; ret (inr (-1))
      else let! i := sleep (proc_at p) wait_lock_lens in ret (inl i)
  end.

Definition wait (addr : Z) : M K (Z + Z) :=
  let! p := myproc' in
  lock wait_lock_lens ;;
  wait_round p addr.

Definition kill_body (pid p : Z) : M K (Z + Z) :=
  if p <? NPROC then
    lock (p_lock_lens p) ;;
    let! q := getp p id in
    if p_pid q =? pid then
      setp p (set_killed 1) ;;
      when (bool_decide (p_state q = SLEEPING)) (setp p (set_state RUNNABLE)) ;;
      unlock (p_lock_lens p) ;;
      ret (inr 0)
    else unlock (p_lock_lens p) ;; ret (inl (p + 1))
  else ret (inr (-1)).
Definition kill (pid : Z) : M K Z := loop (Z.to_nat NPROC + 1) (kill_body pid) 0.

Definition either_copyout (user_dst : bool) (dst : Z) (src : list Z) : M K Z :=
  let! p := myproc' in
  if user_dst then let! pt := getp p p_pagetable in env (env_copyout pt dst src)
  else env (env_kwrite dst src) ;; ret 0.

Definition either_copyin (user_src : bool) (src len : Z) : M K (option (list Z)) :=
  let! p := myproc' in
  if user_src then let! pt := getp p p_pagetable in env (env_copyin pt src len)
  else let! bs := env (env_kread src len) in ret (Some bs).

(** The lines procdump() prints: pid, state and name. *)
Definition state_name (st : procstate) : string :=
  match st with
  | UNUSED => "unused" | USED => "used" | SLEEPING => "sleep " | RUNNABLE => "runble"
  | RUNNING => "run   " | ZOMBIE => "zombie"
  end.
Definition procdump (s : K) : list (Z * string * list Z) :=
  map (fun p => (p_pid p, state_name (p_state p), p_name p))
    (filter (fun p => p_state p <> UNUSED) (procs s)).

End Proc.

(** ** The environment of the running kernel *)

(** The file system seen by processes. *)
Class FileRefs (F : Type) := {
  fr_filedup : Z -> M F Z;
  fr_fileclose : Z -> M F unit;
  fr_idup : Z -> M F Z;
  fr_iput : Z -> M F unit;
  fr_namei : string -> M F Z
}.

Section KernelEnv.
Context {F : Type} `{FileRefs F}.
(** [end], the trampoline page, and the kernel address the bytes passed to
    copyout() and from copyin() are at. *)
Variables (kend me trampoline kbuf : Z).

Definition mem_lens : lens (kmem * F) kmem := Lens fst (fun m s => (m, snd s)).
Definition file_lens : lens (kmem * F) F := Lens snd (fun f s => (fst s, f)).
Definition kbytes (bs : list Z) : M kmem unit := set_ram (fun m => store_bytes m kbuf bs).

Definition kernel_env : ProcEnv (kmem * F) := {|
  env_kalloc := zoom mem_lens (kalloc me);
  env_kfree pa := zoom mem_lens (kfree kend me pa);
  env_proc_pagetable tf := zoom mem_lens (proc_pagetable kend me trampoline tf);
  env_proc_freepagetable pt sz := zoom mem_lens (proc_freepagetable kend me pt sz);
  env_uvmfirst pt src :=
    zoom mem_lens (kbytes src ;; uvmfirst me pt kbuf (Z.of_nat (length src)));
  env_uvmalloc pt oldsz newsz perm := zoom mem_lens (uvmalloc kend me pt oldsz newsz perm);
  env_uvmdealloc pt oldsz newsz := zoom mem_lens (uvmdealloc kend me pt oldsz newsz);
  env_uvmcopy old new sz := zoom mem_lens (uvmcopy kend me old new sz);
  env_copyout pt dst src :=
    zoom mem_lens (kbytes src ;; copyout me pt dst kbuf (Z.of_nat (length src)));
  env_copyin pt src len :=
    zoom mem_lens (
      let! r := copyin me pt kbuf src len in
      let! bs := gets (fun s => load_bytes (ram s) kbuf (Z.to_nat len)) in
      ret (if r =? 0 then Some bs else None));
  env_kwrite dst src := zoom mem_lens (set_ram (fun m => store_bytes m dst src));
  env_kread src len := zoom mem_lens (gets (fun s => load_bytes (ram s) src (Z.to_nat len)));
  env_tf_copy dst src := zoom mem_lens (set_ram (CString.memmove dst src TF_SIZE));
  env_tf_set tf off v := zoom mem_lens (set_ram (fun m => store64 m (tf + off) v));
  env_filedup f := zoom file_lens (fr_filedup f);
  env_fileclose f := zoom file_lens (fr_fileclose f);
  env_idup ip := zoom file_lens (fr_idup ip);
  env_iput ip := zoom file_lens (fr_iput ip);
  env_namei path := zoom file_lens (fr_namei path)
|}.
End KernelEnv.
