(* ===== verification/ProcSpec.v ===== *)
(** * What the process routines do

    [ProcEnvLaws] states what proc.c relies on from memory and files, as
    ownership of resources: a trapframe page, a page table with the memory it
    maps, a reference to an open file, a reference to an inode.  [kok] is the
    invariant of the process table between two system calls; it includes that
    the table owns exactly the resources its entries name, so preserving it
    means that nothing leaks and nothing is freed twice. *)

From S2P Require Import Prelude Spinlock Mem Riscv Kalloc Vm Proc.
Import Spinlock.

(** Compute assignments to the fields of an explicit entry. *)
Ltac pcbn :=
  cbn [set_lock set_state set_chan set_killed set_xstate set_pid set_parent set_kstack set_sz set_pagetable
       set_trapframe set_context set_ofile set_cwd set_name p_lock p_state p_chan p_killed p_xstate p_pid p_parent
       p_kstack p_sz p_pagetable p_trapframe p_context p_ofile p_cwd p_name ctx_ra ctx_sp ctx_s dead_context].
Tactic Notation "pcbn" "in" hyp(H) :=
  cbn [set_lock set_state set_chan set_killed set_xstate set_pid set_parent set_kstack set_sz set_pagetable
       set_trapframe set_context set_ofile set_cwd set_name p_lock p_state p_chan p_killed p_xstate p_pid p_parent
       p_kstack p_sz p_pagetable p_trapframe p_context p_ofile p_cwd p_name ctx_ra ctx_sp ctx_s dead_context] in H.

Tactic Notation "pcbn" "everywhere" :=
  cbn [set_lock set_state set_chan set_killed set_xstate set_pid set_parent set_kstack set_sz set_pagetable
       set_trapframe set_context set_ofile set_cwd set_name p_lock p_state p_chan p_killed p_xstate p_pid p_parent
       p_kstack p_sz p_pagetable p_trapframe p_context p_ofile p_cwd p_name ctx_ra ctx_sp ctx_s dead_context] in * |-.

(** ** The contract of the environment *)

Inductive token :=
| TF (pa : Z)
| PT (pt sz : Z)
| FD (f : Z)
| CWD (ip : Z).

#[global] Instance token_eq_dec : EqDecision token.
Proof. solve_decision. Defined.

(** Permutations of token lists, by counting. *)
Lemma count_cons (x y : token) l :
  count_occ token_eq_dec (y :: l) x = ((if token_eq_dec y x then 1 else 0) + count_occ token_eq_dec l x)%nat.
Proof. cbn. by destruct (token_eq_dec y x). Qed.
Lemma count_nil (x : token) : count_occ token_eq_dec [] x = 0%nat.
Proof. done. Qed.
Lemma perm_count (l l' : list token) :
  (forall x, count_occ token_eq_dec l x = count_occ token_eq_dec l' x) -> l ≡ₚ l'.
Proof. apply (Permutation_count_occ token_eq_dec). Qed.
Lemma perm_counts (l l' : list token) x : l ≡ₚ l' -> count_occ token_eq_dec l x = count_occ token_eq_dec l' x.
Proof. intros H. by apply (Permutation_count_occ token_eq_dec). Qed.

(** The permutation facts in context are used too. *)
Ltac solve_perm :=
  apply perm_count; let x := fresh "tk" in intros x;
  repeat match goal with
  | H : ?a ≡ₚ ?b |- _ => apply (perm_counts a b x) in H
  end;
  repeat first [rewrite count_occ_app in * | rewrite count_cons in * | rewrite count_nil in *]; lia.

Class ProcEnvLaws (W : Type) `{ProcEnv W} := {
  owns : W -> list token -> Prop;
  owns_perm w L L' : L ≡ₚ L' -> owns w L -> owns w L';
  law_kalloc w L :
    owns w L ->
    wp env_kalloc w (fun r w' => (r = 0 /\ owns w' L) \/ (r <> 0 /\ owns w' (TF r :: L)));
  law_kfree w L pa : owns w (TF pa :: L) -> wp (env_kfree pa) w (fun _ w' => owns w' L);
  law_pagetable w L tf :
    owns w L -> TF tf ∈ L ->
    wp (env_proc_pagetable tf) w (fun r w' => (r = 0 /\ owns w' L) \/ (r <> 0 /\ owns w' (PT r 0 :: L)));
  law_freepagetable w L pt sz :
    owns w (PT pt sz :: L) -> wp (env_proc_freepagetable pt sz) w (fun _ w' => owns w' L);
  law_uvmcopy w L old new sz :
    owns w (PT old sz :: PT new 0 :: L) ->
    wp (env_uvmcopy old new sz) w (fun r w' =>
      (r = 0 /\ owns w' (PT old sz :: PT new sz :: L)) \/ (r = -1 /\ owns w' (PT old sz :: PT new 0 :: L)));
  law_uvmalloc w L pt sz n :
    owns w (PT pt sz :: L) -> 0 < n < 2 ^ 31 ->
    wp (env_uvmalloc pt sz (u64 (sz + n)) PTE_W) w (fun r w' =>
      (r = 0 /\ owns w' (PT pt sz :: L)) \/ (r = sz + n /\ 0 < r /\ owns w' (PT pt r :: L)));
  law_uvmdealloc w L pt sz n :
    owns w (PT pt sz :: L) -> - 2 ^ 31 <= n < 0 ->
    wp (env_uvmdealloc pt sz (u64 (sz + n))) w (fun r w' =>
      r = (if sz + n <? 0 then sz else sz + n) /\ owns w' (PT pt r :: L));
  law_copyout w L pt sz dst bs :
    owns w (PT pt sz :: L) ->
    wp (env_copyout pt dst bs) w (fun r w' => (r = 0 \/ r = -1) /\ owns w' (PT pt sz :: L));
  law_tf_copy w L dst src :
    owns w L -> TF dst ∈ L -> TF src ∈ L -> wp (env_tf_copy dst src) w (fun _ w' => owns w' L);
  law_tf_set w L tf off v :
    owns w L -> TF tf ∈ L -> 0 <= off < TF_SIZE -> wp (env_tf_set tf off v) w (fun _ w' => owns w' L);
  law_filedup w L f :
    owns w L -> FD f ∈ L -> wp (env_filedup f) w (fun r w' => r = f /\ owns w' (FD f :: L));
  law_fileclose w L f : owns w (FD f :: L) -> wp (env_fileclose f) w (fun _ w' => owns w' L);
  law_idup w L ip :
    owns w L -> CWD ip ∈ L -> wp (env_idup ip) w (fun r w' => r = ip /\ owns w' (CWD ip :: L));
  law_iput w L ip : owns w (CWD ip :: L) -> wp (env_iput ip) w (fun _ w' => owns w' L)
}.

(** The resources an entry of the table names. *)
Definition tok_if (v : Z) (t : token) : list token := if v =? 0 then [] else [t].
Definition file_tokens (fs : list Z) : list token := flat_map (fun f => tok_if f (FD f)) fs.
Definition tokens (p : proc) : list token :=
  tok_if (p_trapframe p) (TF (p_trapframe p)) ++
  tok_if (p_pagetable p) (PT (p_pagetable p) (p_sz p)) ++
  file_tokens (p_ofile p) ++ tok_if (p_cwd p) (CWD (p_cwd p)).
Definition all_tokens (ps : list proc) : list token := flat_map tokens ps.

(** Moving the tokens of one entry to the front. *)
Lemma all_tokens_split ps i p :
  ps !! i = Some p ->
  exists rest, all_tokens ps ≡ₚ tokens p ++ rest /\
    forall q, all_tokens (<[i := q]> ps) ≡ₚ tokens q ++ rest.
Proof.
  intros Hi. pose proof (lookup_lt_Some _ _ _ Hi) as Hlt.
  exists (all_tokens (take i ps) ++ all_tokens (drop (S i) ps)). unfold all_tokens.
  assert (H : forall q, flat_map tokens (<[i := q]> ps) ≡ₚ
    tokens q ++ flat_map tokens (take i ps) ++ flat_map tokens (drop (S i) ps)).
  { intros q. rewrite insert_take_drop by done. rewrite flat_map_app. cbn [flat_map].
    rewrite Permutation_app_swap_app. done. }
  split; [|done]. rewrite <-H. by rewrite list_insert_id.
Qed.

(** ** The CPU's nesting level *)

Definition lvl (h : hart) (n : Z) : Prop := hart_ok h /\ noff h = n.

Lemma lvl_intr h n : lvl h n -> 0 < n -> intr_get h = 0.
Proof. intros [(_ & _ & H) <-]. done. Qed.

Section Rules.
Context {W : Type} `{ProcEnv W}.
Variables (me proc_base forkret_addr : Z).
Notation K := (kstate W).

Lemma wp_hart_push (s : K) n (Q : unit -> K -> Prop) :
  lvl (k_hart s) n -> 0 <= n < 100 ->
  (forall h, lvl h (n + 1) -> Q tt (put hart_lens h s)) -> wp (zoom hart_lens push_off) s Q.
Proof.
  intros [Hok Hn] Hr HQ. apply wp_zoom. unfold wp. cbn [view hart_lens]. rewrite push_off_eq by lia. apply HQ.
  split; [by apply pushed_ok|]. cbn. lia.
Qed.

Lemma wp_pop (s : K) n (Q : unit -> K -> Prop) :
  lvl (k_hart s) (n + 1) -> 0 <= n < 100 ->
  (forall h, lvl h n -> Q tt (put hart_lens h s)) -> wp (zoom hart_lens pop_off) s Q.
Proof.
  intros Hl Hr HQ. pose proof (lvl_intr _ _ Hl ltac:(lia)) as Hi. destruct Hl as [(H1 & H2 & H3) Hn].
  apply wp_zoom. cbn [view hart_lens]. unfold pop_off. do 2 wp_step. rewrite Hi. cbn [negb Z.eqb]. do 2 wp_step.
  rewrite Hn, (proj2 (Z.ltb_ge _ _)) by lia. do 6 wp_step. cbn [noff intena].
  rewrite Hn, Z.add_simpl_r, i32_small by lia.
  apply wp_when; intros Hb.
  - unfold intr_on. wp_step. apply HQ. bool_simpl. subst n. split; [|done]. split_and!; cbn; [|done|done].
    apply Z.lor_nonneg. split; [done|]. done.
  - apply HQ. split; [|done]. split_and!; cbn; try done; try lia.
Qed.

Lemma wp_myproc (s : K) n (Q : option Z -> K -> Prop) :
  lvl (k_hart s) n -> 0 <= n < 100 ->
  (forall h, lvl h n -> Q (c_proc s) (put hart_lens h s)) -> wp myproc s Q.
Proof.
  intros Hl Hr HQ. unfold myproc. wp_step. apply (wp_hart_push s n); [done|lia|]. intros h1 H1. do 3 wp_step.
  apply (wp_pop _ n); [done|lia|]. intros h2 H2. wp_step. by apply HQ.
Qed.

Lemma wp_myproc' (s : K) n i (Q : Z -> K -> Prop) :
  lvl (k_hart s) n -> 0 <= n < 100 -> c_proc s = Some i ->
  (forall h, lvl h n -> Q i (put hart_lens h s)) -> wp myproc' s Q.
Proof.
  intros Hl Hr Hc HQ. unfold myproc'. wp_step. apply (wp_myproc s n); [done|lia|]. intros h Hh. rewrite Hc.
  wp_step. by apply HQ.
Qed.

Lemma wp_lock l (s : K) n (Q : unit -> K -> Prop) :
  lvl (k_hart s) n -> 0 <= n < 100 -> (forall h, view l (put hart_lens h s) = view l s) -> lock_free (view l s) ->
  (forall h, lvl h (n + 1) -> Q tt (put l (lock_taken me (view l s)) (put hart_lens h s))) ->
  wp (lock me l) s Q.
Proof.
  intros Hl Hr Hv Hf HQ. unfold lock. wp_step. apply (wp_hart_push s n); [done|lia|]. intros h Hh.
  apply wp_acquire_at; rewrite Hv; auto.
Qed.

Lemma wp_unlock l (s : K) n lk (Q : unit -> K -> Prop) :
  lvl (k_hart s) (n + 1) -> 0 <= n < 100 -> (forall v, k_hart (put l v s) = k_hart s) ->
  view l s = lock_taken me lk -> lock_free lk ->
  (forall h, lvl h n -> Q tt (put hart_lens h (put l lk s))) -> wp (unlock me l) s Q.
Proof.
  intros Hl Hr Hk Hv Hf HQ. unfold unlock. wp_step. apply (wp_release_at _ _ _ lk); [done|done|].
  apply (wp_pop _ n); [by rewrite Hk|lia|done].
Qed.

(** *** Entries of the table, on explicit states *)

Context (ps : list proc) (ip : option Z) (np : Z) (pl wl : spinlock) (h : hart) (c : option Z) (w : W).
Notation st ps h := (mkK ps ip np pl wl h c w).

Lemma wp_getp {A} i p (f : proc -> A) (Q : A -> K -> Prop) :
  ps !! Z.to_nat i = Some p -> Q (f p) (st ps h) -> wp (getp i f) (st ps h) Q.
Proof. intros Hi HQ. apply wp_gets. unfold pget. cbn [procs]. by rewrite Hi. Qed.

Lemma wp_setp i p f (Q : unit -> K -> Prop) :
  ps !! Z.to_nat i = Some p -> Q tt (st (<[Z.to_nat i := f p]> ps) h) -> wp (setp i f) (st ps h) Q.
Proof. intros Hi HQ. apply wp_modify. unfold set_procs. cbn. by rewrite (alter_insert _ _ _ p). Qed.

Lemma wp_env {A} (m : M W A) (Q : A -> K -> Prop) :
  wp m w (fun a w' => Q a (mkK ps ip np pl wl h c w')) -> wp (env m) (st ps h) Q.
Proof. intros HQ. by apply wp_zoom. Qed.

Lemma wp_plock i p n (Q : unit -> K -> Prop) :
  ps !! Z.to_nat i = Some p -> lock_free (p_lock p) -> lvl h n -> 0 <= n < 100 ->
  (forall h', lvl h' (n + 1) -> Q tt (st (<[Z.to_nat i := set_lock (lock_taken me (p_lock p)) p]> ps) h')) ->
  wp (lock me (p_lock_lens i)) (st ps h) Q.
Proof.
  intros Hi Hf Hl Hn HQ.
  apply (wp_lock _ _ n); [done|done|done|..]; cbn [view p_lock_lens]; unfold pget; cbn [procs]; rewrite Hi; [done|].
  intros h' Hh'. cbn. unfold set_procs. cbn. rewrite (alter_insert _ _ _ p) by done. by apply HQ.
Qed.

Lemma wp_punlock i p n lk (Q : unit -> K -> Prop) :
  ps !! Z.to_nat i = Some p -> p_lock p = lock_taken me lk -> lock_free lk -> lvl h (n + 1) -> 0 <= n < 100 ->
  (forall h', lvl h' n -> Q tt (st (<[Z.to_nat i := set_lock lk p]> ps) h')) ->
  wp (unlock me (p_lock_lens i)) (st ps h) Q.
Proof.
  intros Hi Hp Hf Hl Hn HQ.
  apply (wp_unlock _ _ n lk); [done|done|done|cbn [view p_lock_lens]; unfold pget; cbn [procs]; by rewrite Hi|done|].
  intros h' Hh'. cbn. rewrite (alter_insert _ _ _ p) by done. by apply HQ.
Qed.

Lemma wp_me i n (Q : Z -> K -> Prop) :
  lvl h n -> 0 <= n < 100 -> c = Some i -> (forall h', lvl h' n -> Q i (st ps h')) -> wp myproc' (st ps h) Q.
Proof. intros Hl Hn Hc HQ. apply (wp_myproc' _ n i); done. Qed.

Lemma wp_wlock n (Q : unit -> K -> Prop) :
  lvl h n -> 0 <= n < 100 -> lock_free wl ->
  (forall h', lvl h' (n + 1) -> Q tt (mkK ps ip np pl (lock_taken me wl) h' c w)) ->
  wp (lock me wait_lock_lens) (st ps h) Q.
Proof. intros Hl Hn Hf HQ. apply (wp_lock _ _ n); done. Qed.

Lemma wp_wunlock lk n (Q : unit -> K -> Prop) :
  lvl h (n + 1) -> 0 <= n < 100 -> wl = lock_taken me lk -> lock_free lk ->
  (forall h', lvl h' n -> Q tt (mkK ps ip np pl lk h' c w)) ->
  wp (unlock me wait_lock_lens) (st ps h) Q.
Proof. intros Hl Hn -> Hf HQ. apply (wp_unlock _ _ n lk); done. Qed.

(** The same on an entry that was just written. *)
Lemma wp_getp_ins {A} i q (f : proc -> A) (Q : A -> K -> Prop) :
  (Z.to_nat i < length ps)%nat -> Q (f q) (st (<[Z.to_nat i := q]> ps) h) ->
  wp (getp i f) (st (<[Z.to_nat i := q]> ps) h) Q.
Proof. intros Hi HQ. apply wp_gets. unfold pget. cbn [procs]. by rewrite list_lookup_insert_eq. Qed.

Lemma wp_setp_ins i q f (Q : unit -> K -> Prop) :
  (Z.to_nat i < length ps)%nat -> Q tt (st (<[Z.to_nat i := f q]> ps) h) ->
  wp (setp i f) (st (<[Z.to_nat i := q]> ps) h) Q.
Proof.
  intros Hi HQ. apply wp_modify. unfold set_procs. cbn.
  rewrite (alter_insert _ _ _ q) by (by rewrite list_lookup_insert_eq). by rewrite list_insert_insert_eq.
Qed.

Lemma wp_plock_ins i q n (Q : unit -> K -> Prop) :
  (Z.to_nat i < length ps)%nat -> lock_free (p_lock q) -> lvl h n -> 0 <= n < 100 ->
  (forall h', lvl h' (n + 1) -> Q tt (st (<[Z.to_nat i := set_lock (lock_taken me (p_lock q)) q]> ps) h')) ->
  wp (lock me (p_lock_lens i)) (st (<[Z.to_nat i := q]> ps) h) Q.
Proof.
  intros Hi Hf Hl Hn HQ.
  apply (wp_lock _ _ n); [done|done|done|..]; cbn [view p_lock_lens]; unfold pget; cbn [procs];
    rewrite list_lookup_insert_eq by done; [done|].
  intros h' Hh'. cbn. unfold set_procs. cbn. rewrite (alter_insert _ _ _ q) by (by rewrite list_lookup_insert_eq).
  rewrite list_insert_insert_eq. by apply HQ.
Qed.

Lemma wp_punlock_ins i q n lk (Q : unit -> K -> Prop) :
  (Z.to_nat i < length ps)%nat -> p_lock q = lock_taken me lk -> lock_free lk -> lvl h (n + 1) -> 0 <= n < 100 ->
  (forall h', lvl h' n -> Q tt (st (<[Z.to_nat i := set_lock lk q]> ps) h')) ->
  wp (unlock me (p_lock_lens i)) (st (<[Z.to_nat i := q]> ps) h) Q.
Proof.
  intros Hi Hp Hf Hl Hn HQ.
  apply (wp_unlock _ _ n lk); [done|done|done|cbn [view p_lock_lens]; unfold pget; cbn [procs]; by rewrite list_lookup_insert_eq|done|].
  intros h' Hh'. cbn. rewrite (alter_insert _ _ _ q) by (by rewrite list_lookup_insert_eq).
  rewrite list_insert_insert_eq. by apply HQ.
Qed.

End Rules.

(** ** Wakeups *)

(** The effect of wakeup() on entry [j], run by the process [c]. *)
Definition wake (c : option Z) (chan : Z) (j : nat) (p : proc) : proc :=
  if decide (c = Some (Z.of_nat j)) then p
  else if bool_decide (p_state p = SLEEPING) && (p_chan p =? chan) then set_state RUNNABLE p else p.
Definition wake_all (c : option Z) (chan : Z) (ps : list proc) : list proc := imap (wake c chan) ps.

(** The locks a wakeup takes are free. *)
Definition others_free (c : option Z) (ps : list proc) : Prop :=
  forall j p, ps !! j = Some p -> c <> Some (Z.of_nat j) -> lock_free (p_lock p).

Lemma wake_other c chan j p :
  c <> Some (Z.of_nat j) ->
  wake c chan j p = if bool_decide (p_state p = SLEEPING) && (p_chan p =? chan) then set_state RUNNABLE p else p.
Proof. intros Hc. unfold wake. by rewrite decide_False. Qed.

Lemma wake_self c chan j p : c = Some (Z.of_nat j) -> wake c chan j p = p.
Proof. intros Hc. unfold wake. by rewrite decide_True. Qed.

Lemma wake_lock c chan j p : p_lock (wake c chan j p) = p_lock p.
Proof. unfold wake. repeat case_match; done. Qed.

Lemma wake_idem c chan j p : wake c chan j (wake c chan j p) = wake c chan j p.
Proof.
  unfold wake. destruct (decide _); [done|].
  destruct (bool_decide (p_state p = SLEEPING) && (p_chan p =? chan)) eqn:E; [done|by rewrite E].
Qed.

Lemma wake_all_lookup c chan ps j : wake_all c chan ps !! j = wake c chan j <$> ps !! j.
Proof. apply list_lookup_imap. Qed.

Lemma length_wake_all c chan ps : length (wake_all c chan ps) = length ps.
Proof. apply length_imap. Qed.

Lemma set_lock_id l p : p_lock p = l -> set_lock l p = p.
Proof. intros <-. by destruct p. Qed.

(** A prefix of the table has been processed. *)
Definition upto {A} (i : Z) (f : nat -> A -> A) (l : list A) : list A :=
  imap (fun j x => if Z.of_nat j <? i then f j x else x) l.

Lemma upto_0 {A} (f : nat -> A -> A) l : upto 0 f l = l.
Proof.
  apply list_eq. intros j. unfold upto. rewrite list_lookup_imap.
  destruct (l !! j); [|done]. cbn. by rewrite (proj2 (Z.ltb_ge _ _)) by lia.
Qed.

Lemma upto_all {A} (f : nat -> A -> A) l i : Z.of_nat (length l) <= i -> upto i f l = imap f l.
Proof.
  intros Hi. apply list_eq. intros j. unfold upto. rewrite !list_lookup_imap.
  destruct (l !! j) eqn:E; [|done]. cbn. apply lookup_lt_Some in E. by rewrite (proj2 (Z.ltb_lt _ _)) by lia.
Qed.

Lemma upto_lookup {A} (f : nat -> A -> A) l i x :
  0 <= i -> l !! Z.to_nat i = Some x -> upto i f l !! Z.to_nat i = Some x.
Proof. intros Hi Hx. unfold upto. rewrite list_lookup_imap, Hx. cbn. by rewrite (proj2 (Z.ltb_ge _ _)) by lia. Qed.

Lemma upto_S {A} (f : nat -> A -> A) l i x :
  0 <= i -> l !! Z.to_nat i = Some x ->
  upto (i + 1) f l = <[Z.to_nat i := f (Z.to_nat i) x]> (upto i f l).
Proof.
  intros Hi Hx. apply list_eq. intros j. pose proof (lookup_lt_Some _ _ _ Hx).
  destruct (decide (Z.to_nat i = j)) as [<-|Hne].
  - rewrite list_lookup_insert_eq by (unfold upto; by rewrite length_imap).
    unfold upto. rewrite list_lookup_imap, Hx. cbn. by rewrite (proj2 (Z.ltb_lt _ _)) by lia.
  - rewrite list_lookup_insert_ne by done. unfold upto. rewrite !list_lookup_imap. destruct (l !! j); [|done]. cbn.
    destruct (Z.ltb_spec (Z.of_nat j) i), (Z.ltb_spec (Z.of_nat j) (i + 1)); try done; lia.
Qed.

Section Wakeup.
Context {W : Type} `{ProcEnv W}.
Variables (me proc_base forkret_addr : Z).
Notation K := (kstate W).

Lemma wp_wakeup chan ps ip np pl wl h c (w : W) n (Q : unit -> K -> Prop) :
  others_free c ps -> length ps = Z.to_nat NPROC -> lvl h n -> 0 <= n < 99 ->
  (forall h', lvl h' n -> Q tt (mkK (wake_all c chan ps) ip np pl wl h' c w)) ->
  wp (wakeup me chan) (mkK ps ip np pl wl h c w) Q.
Proof.
  intros Hf Hlen Hl Hn HQ. unfold wakeup, for_procs.
  eapply wp_mono; [apply (wp_for_range (fun i s => exists h', lvl h' n /\ s = mkK (upto i (wake c chan) ps) ip np pl wl h' c w))|].
  - exists h. by rewrite upto_0.
  - intros i s Hi (h1 & H1 & ->). destruct (lookup_lt_is_Some_2 ps (Z.to_nat i)) as [p Hp]; [lia|].
    rewrite (upto_S _ _ _ p) by (done || lia). pose proof (upto_lookup (wake c chan) ps i p ltac:(lia) Hp) as Hu.
    wp_step. apply (wp_myproc _ n); [done|lia|]. intros h2 H2. cbn.
    apply wp_when; intros Hb; bool_simpl.
    + apply bool_decide_eq_false in Hb.
      assert (Hne : c <> Some (Z.of_nat (Z.to_nat i))) by (rewrite Z2Nat.id by lia; by intros ->).
      pose proof (Hf _ _ Hp Hne) as Hfree. pose proof (lookup_lt_Some _ _ _ Hu) as Hlt.
      wp_step. apply (wp_plock me _ _ _ _ _ _ _ _ i p n); [done|done|done|lia|].
      intros h3 H3. wp_step. apply wp_getp_ins; [done|]. wp_step.
      rewrite wake_other by done. unfold id. cbn [set_lock p_state p_chan].
      apply wp_when; intros Hs; rewrite Hs.
      * apply wp_setp_ins; [done|]. apply (wp_punlock_ins me _ _ _ _ _ _ _ _ i _ n (p_lock p)); try done; [lia|].
        intros h4 H4. exists h4. by destruct p.
      * apply (wp_punlock_ins me _ _ _ _ _ _ _ _ i _ n (p_lock p)); try done; [lia|].
        intros h4 H4. exists h4. by destruct p.
    + apply bool_decide_eq_true in Hb as <-. exists h2. split; [done|]. f_equal.
      rewrite wake_self by (rewrite Z2Nat.id by lia; done). by rewrite list_insert_id.
  - intros [] s (h' & H' & ->). cbn beta. rewrite upto_all by lia. by apply HQ.
Qed.

(** *** reparent() *)

Definition reparented (p : Z) (ip : option Z) (j : nat) (q : proc) : proc :=
  if bool_decide (p_parent q = Some p) then set_parent ip q else q.
Definition has_child (p : Z) (ps : list proc) : bool :=
  existsb (fun q => bool_decide (p_parent q = Some p)) ps.
Definition reparent_all (c : option Z) (p : Z) (ip : option Z) (ps : list proc) : list proc :=
  let ps' := imap (reparented p ip) ps in
  if has_child p ps then wake_all c (chan_of proc_base ip) ps' else ps'.

Lemma wake_set_parent c chan j ip p : wake c chan j (set_parent ip p) = set_parent ip (wake c chan j p).
Proof. unfold wake. cbn. repeat case_match; done. Qed.

Lemma wake_parent c chan j p : p_parent (wake c chan j p) = p_parent p.
Proof. unfold wake. repeat case_match; done. Qed.

Lemma reparented_lock p ip j q : p_lock (reparented p ip j q) = p_lock q.
Proof. unfold reparented. by case_match. Qed.

Lemma others_free_imap c f ps :
  (forall j p, p_lock (f j p) = p_lock p) -> others_free c ps -> others_free c (imap f ps).
Proof.
  intros Hf Ho j q Hq Hc. rewrite list_lookup_imap in Hq. destruct (ps !! j) as [x|] eqn:E; [|done].
  injection Hq as <-. rewrite Hf. by eapply Ho.
Qed.

Lemma others_free_insert c ps i y q :
  others_free c ps -> ps !! i = Some y -> p_lock q = p_lock y -> others_free c (<[i := q]> ps).
Proof.
  intros Ho Hi Hq j z Hz Hc. destruct (decide (i = j)) as [<-|Hne].
  - rewrite list_lookup_insert_eq in Hz by (by eapply lookup_lt_Some). injection Hz as <-. rewrite Hq. by eapply Ho.
  - rewrite list_lookup_insert_ne in Hz by done. by eapply Ho.
Qed.

Lemma wp_reparent p ps ip np pl wl h c (w : W) n (Q : unit -> K -> Prop) :
  others_free c ps -> length ps = Z.to_nat NPROC -> lvl h n -> 0 <= n < 99 ->
  (forall h', lvl h' n -> Q tt (mkK (reparent_all c p ip ps) ip np pl wl h' c w)) ->
  wp (reparent me proc_base p) (mkK ps ip np pl wl h c w) Q.
Proof.
  intros Hf Hlen Hl Hn HQ. unfold reparent, for_procs.
  set (wk := fun (b : bool) l => if b then wake_all c (chan_of proc_base ip) l else l).
  eapply wp_mono; [apply (wp_for_range (fun i s => exists h', lvl h' n /\
    s = mkK (wk (has_child p (take (Z.to_nat i) ps)) (upto i (reparented p ip) ps)) ip np pl wl h' c w))|].
  - exists h. by rewrite upto_0.
  - intros i s Hi (h1 & H1 & ->). destruct (lookup_lt_is_Some_2 ps (Z.to_nat i)) as [x Hx]; [lia|].
    pose proof (upto_lookup (reparented p ip) ps i x ltac:(lia) Hx) as Hu.
    rewrite (upto_S _ _ _ x) by (done || lia). replace (Z.to_nat (i + 1)) with (S (Z.to_nat i)) by lia.
    rewrite (take_S_r _ _ x) by done. unfold has_child at 2. rewrite existsb_app. fold (has_child p (take (Z.to_nat i) ps)).
    set (b := has_child p (take (Z.to_nat i) ps)). cbn [existsb]. rewrite orb_false_r.
    assert (Hy : exists y, wk b (upto i (reparented p ip) ps) !! Z.to_nat i = Some y /\ p_parent y = p_parent x /\
       forall l, wake c (chan_of proc_base ip) (Z.to_nat i) (set_parent l y) = wake c (chan_of proc_base ip) (Z.to_nat i) (set_parent l x)).
    { unfold wk. destruct b; [|eauto]. rewrite wake_all_lookup, Hu. cbn. eexists; split; [done|].
      rewrite wake_parent. split; [done|]. intros l. rewrite !wake_set_parent. by rewrite wake_idem. }
    destruct Hy as (y & Hy & Hpar & Hwk).
    wp_step. apply (wp_getp _ _ _ _ _ _ _ _ i y); [done|]. rewrite Hpar.
    rewrite (eq_refl : reparented p ip (Z.to_nat i) x = if bool_decide (p_parent x = Some p) then set_parent ip x else x).
    destruct (bool_decide (p_parent x = Some p)).
    + do 4 wp_step. apply (wp_setp _ _ _ _ _ _ _ _ i y); [done|]. cbn [initproc].
      assert (Hfree : others_free c (<[Z.to_nat i:=set_parent ip y]> (wk b (upto i (reparented p ip) ps)))).
      { apply (others_free_insert c _ _ y); [|done|done]. unfold wk, wake_all, upto. destruct b;
          repeat apply others_free_imap; try done; intros j q; try apply wake_lock; case_match; try done; apply reparented_lock. }
      apply (wp_wakeup _ _ _ _ _ _ _ _ _ n); [done| |done|lia|].
      * rewrite length_insert. unfold wk, upto, wake_all. destruct b; by rewrite !length_imap.
      * intros h2 H2. exists h2. split; [done|]. f_equal. rewrite orb_true_r. cbn [wk].
        apply list_eq. intros j. rewrite !wake_all_lookup.
        destruct (decide (Z.to_nat i = j)) as [<-|Hne].
        -- rewrite !list_lookup_insert_eq by (unfold wk, wake_all, upto; destruct b; rewrite ?length_imap; by eapply lookup_lt_Some).
           cbn. by rewrite Hwk.
        -- rewrite !list_lookup_insert_ne by done. unfold wk. destruct b; [|done]. rewrite wake_all_lookup.
           destruct (upto i (reparented p ip) ps !! j); [|done]. cbn. by rewrite wake_idem.
    + rewrite orb_false_r. wp_step. exists h1. split; [done|]. by rewrite list_insert_id.
  - intros [] s (h' & H' & ->). cbn beta. rewrite upto_all by lia. rewrite take_ge by lia. by apply HQ.
Qed.

End Wakeup.

(** ** Table scans *)

Definition all_free (ps : list proc) : Prop := forall j p, ps !! j = Some p -> lock_free (p_lock p).

(** The entry kill() has found. *)
Definition victim (p : proc) : proc :=
  let q := set_killed 1 p in
  if bool_decide (p_state p = SLEEPING) then set_state RUNNABLE q else q.

Section Scans.
Context {W : Type} `{ProcEnv W}.
Variables (me proc_base forkret_addr : Z).
Notation K := (kstate W).
Implicit Types (ps : list proc) (w : W).

(** A scan that has reached [i] without finding an entry with [P]. *)
Definition scanned (P : proc -> Prop) ps (i : Z) : Prop :=
  0 <= i <= NPROC /\ forall j p, ps !! j = Some p -> Z.of_nat j < i -> ~ P p.

Lemma scanned_0 P ps : scanned P ps 0.
Proof. split; [unfold NPROC; lia|]. intros; lia. Qed.

Lemma scanned_S P ps i p :
  scanned P ps i -> i < NPROC -> ps !! Z.to_nat i = Some p -> ~ P p -> scanned P ps (i + 1).
Proof.
  intros [Hi Hs] Hlt Hp Hn. split; [lia|]. intros j q Hq Hj.
  destruct (decide (j = Z.to_nat i)) as [->|Hne]; [by simplify_eq|]. apply (Hs j); [done|lia].
Qed.

Lemma scanned_found (P : proc -> Prop) `{!forall p, Decision (P p)} ps i p :
  scanned P ps i -> ps !! Z.to_nat i = Some p -> P p -> list_find P ps = Some (Z.to_nat i, p).
Proof.
  intros [Hi Hs] Hp HP. apply list_find_Some. split_and!; [done|done|].
  intros j y Hy Hj. apply (Hs j); [done|lia].
Qed.

Lemma scanned_none (P : proc -> Prop) `{!forall p, Decision (P p)} ps :
  length ps = Z.to_nat NPROC -> scanned P ps NPROC -> list_find P ps = None.
Proof.
  intros Hl [_ Hs]. apply list_find_None, list.Forall_forall. intros x Hx.
  apply list_elem_of_lookup in Hx as [j Hj]. apply (Hs j); [done|]. apply lookup_lt_Some in Hj. lia.
Qed.

Lemma wp_kill pid ps ip np pl wl h c w (Q : Z -> K -> Prop) :
  all_free ps -> length ps = Z.to_nat NPROC -> lvl h 0 ->
  (forall h', lvl h' 0 ->
     match list_find (fun p => p_pid p = pid) ps with
     | Some (j, p) => Q 0 (mkK (<[j := victim p]> ps) ip np pl wl h' c w)
     | None => Q (-1) (mkK ps ip np pl wl h' c w)
     end) ->
  wp (kill me pid) (mkK ps ip np pl wl h c w) Q.
Proof.
  intros Hf Hlen Hl HQ. unfold kill.
  apply (wp_loop (fun i s => scanned (fun p => p_pid p = pid) ps i /\ exists h', lvl h' 0 /\ s = mkK ps ip np pl wl h' c w)
    (fun i => Z.to_nat (NPROC - i))); [|split; [apply scanned_0|eauto]|lia].
  intros i s (Hs & h1 & H1 & ->). unfold kill_body. assert (Hr := Hs). destruct Hr as [Hi _].
  destruct (Z.ltb_spec i NPROC) as [Hlt|Hge].
  - destruct (lookup_lt_is_Some_2 ps (Z.to_nat i)) as [p Hp]; [lia|]. pose proof (lookup_lt_Some _ _ _ Hp) as Hb.
    pose proof (Hf _ _ Hp) as Hfree.
    wp_step. apply (wp_plock me _ _ _ _ _ _ _ _ i p 0); [done|done|done|lia|]. intros h2 H2.
    wp_step. apply wp_getp_ins; [done|]. unfold id. cbn [set_lock p_pid p_state].
    destruct (Z.eqb_spec (p_pid p) pid) as [E|E].
    + wp_step. apply wp_setp_ins; [done|]. wp_step.
      pose proof (scanned_found _ _ _ _ Hs Hp E) as Hfind.
      apply wp_when; intros Hst.
      * apply wp_setp_ins; [done|]. wp_step.
        apply (wp_punlock_ins me _ _ _ _ _ _ _ _ i _ 0 (p_lock p)); try done. intros h3 H3. wp_step.
        specialize (HQ h3 H3). rewrite Hfind in HQ. unfold victim in HQ. rewrite Hst in HQ. by destruct p.
      * wp_step. apply (wp_punlock_ins me _ _ _ _ _ _ _ _ i _ 0 (p_lock p)); try done. intros h3 H3. wp_step.
        specialize (HQ h3 H3). rewrite Hfind in HQ. unfold victim in HQ. rewrite Hst in HQ. by destruct p.
    + wp_step. apply (wp_punlock_ins me _ _ _ _ _ _ _ _ i _ 0 (p_lock p)); try done. intros h3 H3. wp_step.
      split; [|lia]. split; [by apply (scanned_S _ _ _ p)|]. exists h3. split; [done|]. f_equal.
      rewrite list_insert_id; [done|]. rewrite Hp. by destruct p.
  - wp_step. assert (i = NPROC) as -> by lia. specialize (HQ h1 H1). by rewrite (scanned_none _ _ Hlen Hs) in HQ.
Qed.

(** allocproc()'s search: the first unused entry, locked. *)
Lemma wp_alloc_scan ps ip np pl wl h c w (Q : option Z -> K -> Prop) :
  all_free ps -> length ps = Z.to_nat NPROC -> lvl h 0 ->
  match list_find (fun p => p_state p = UNUSED) ps with
  | Some (j, p) =>
      forall h', lvl h' 1 ->
      Q (Some (Z.of_nat j)) (mkK (<[j := set_lock (lock_taken me (p_lock p)) p]> ps) ip np pl wl h' c w)
  | None => forall h', lvl h' 0 -> Q None (mkK ps ip np pl wl h' c w)
  end ->
  wp (loop (Z.to_nat NPROC + 1) (allocproc_body me) 0) (mkK ps ip np pl wl h c w) Q.
Proof.
  intros Hf Hlen Hl HQ.
  apply (wp_loop (fun i s => scanned (fun p => p_state p = UNUSED) ps i /\ exists h', lvl h' 0 /\ s = mkK ps ip np pl wl h' c w)
    (fun i => Z.to_nat (NPROC - i))); [|split; [apply scanned_0|eauto]|lia].
  intros i s (Hs & h1 & H1 & ->). unfold allocproc_body. assert (Hr := Hs). destruct Hr as [Hi _].
  destruct (Z.ltb_spec i NPROC) as [Hlt|Hge].
  - destruct (lookup_lt_is_Some_2 ps (Z.to_nat i)) as [p Hp]; [lia|]. pose proof (lookup_lt_Some _ _ _ Hp) as Hb.
    pose proof (Hf _ _ Hp) as Hfree.
    wp_step. apply (wp_plock me _ _ _ _ _ _ _ _ i p 0); [done|done|done|lia|]. intros h2 H2.
    wp_step. apply wp_getp_ins; [done|]. cbn [set_lock p_state]. case_bool_decide as E.
    + wp_step. rewrite (scanned_found _ _ _ _ Hs Hp E) in HQ. rewrite Z2Nat.id in HQ by lia. by apply HQ.
    + wp_step. apply (wp_punlock_ins me _ _ _ _ _ _ _ _ i _ 0 (p_lock p)); try done. intros h3 H3. wp_step.
      split; [|lia]. split; [by apply (scanned_S _ _ _ p)|]. exists h3. split; [done|]. f_equal.
      rewrite list_insert_id; [done|]. rewrite Hp. by destruct p.
  - wp_step. assert (i = NPROC) as -> by lia. rewrite (scanned_none _ _ Hlen Hs) in HQ. by apply HQ.
Qed.

End Scans.
