(* ===== verification/ProcLife.v ===== *)
(** * The life of a process: allocproc, fork, exit, wait

    Each routine is specified on an explicit state: the entries of the table
    it changes and the resources it takes and gives back. *)

From S2P Require Import Prelude Spinlock Mem Riscv Kalloc Vm Proc ProcSpec.
Import Spinlock.

(** The entry freeproc() leaves. *)
Definition freed (p : proc) : proc :=
  mkProc (p_lock p) UNUSED 0 0 0 0 None (p_kstack p) 0 0 0 (p_context p) (p_ofile p) (p_cwd p) (<[0%nat := 0]> (p_name p)).

(** The entry allocproc() returns, from the unused entry [p]. *)
Definition fresh (me forkret_addr pid tf pt : Z) (p : proc) : proc :=
  mkProc (lock_taken me (p_lock p)) USED (p_chan p) (p_killed p) (p_xstate p) pid (p_parent p) (p_kstack p) (p_sz p) pt tf
    (mkContext forkret_addr (u64 (p_kstack p + PGSIZE)) (replicate 12 0)) (p_ofile p) (p_cwd p) (p_name p).

Lemma tok_if_0 t : tok_if 0 t = [].
Proof. done. Qed.
Lemma tok_if_ne v t : v <> 0 -> tok_if v t = [t].
Proof. intros Hv. unfold tok_if. by rewrite (proj2 (Z.eqb_neq _ _)). Qed.

(** Read a field of the entry at the fixed index (hypothesis [Hi]) or of the
    entry just written. *)
Ltac p_get Hi := wp_step; first [eapply wp_getp; [apply Hi|] | apply wp_getp_ins; [done|]]; pcbn.

(** Membership in an explicit list of resources. *)
Ltac tok_in := repeat first [rewrite elem_of_app | rewrite elem_of_cons]; tauto.

Section Life.
Context {W : Type} `{ProcEnvLaws W}.
Variables (me proc_base forkret_addr : Z).
Notation K := (kstate W).
Implicit Types (ps : list proc) (w : W).

Lemma wp_freeproc i q ps ip np pl wl h c w L (Q : unit -> K -> Prop) :
  (Z.to_nat i < length ps)%nat ->
  owns w (tok_if (p_trapframe q) (TF (p_trapframe q)) ++ tok_if (p_pagetable q) (PT (p_pagetable q) (p_sz q)) ++ L) ->
  (forall w', owns w' L -> Q tt (mkK (<[Z.to_nat i := freed q]> ps) ip np pl wl h c w')) ->
  wp (freeproc i) (mkK (<[Z.to_nat i := q]> ps) ip np pl wl h c w) Q.
Proof.
  intros Hi Ho HQ. unfold freeproc. wp_step. apply wp_getp_ins; [done|]. wp_step.
  assert (Hrest : forall w1, owns w1 (tok_if (p_pagetable q) (PT (p_pagetable q) (p_sz q)) ++ L) ->
    wp (setp i (set_trapframe 0) ;;
        let! pt := getp i p_pagetable in
        when (negb (pt =? 0)) (let! sz := getp i p_sz in env (env_proc_freepagetable pt sz)) ;;
        setp i (set_pagetable 0) ;; setp i (set_sz 0) ;; setp i (set_pid 0) ;; setp i (set_parent None) ;;
        setp i (fun q => set_name (<[0%nat := 0]> (p_name q)) q) ;; setp i (set_chan 0) ;; setp i (set_killed 0) ;;
        setp i (set_xstate 0) ;; setp i (set_state UNUSED))
      (mkK (<[Z.to_nat i := q]> ps) ip np pl wl h c w1) Q).
  { intros w1 Ho1. wp_step. apply wp_setp_ins; [done|]. wp_step. apply wp_getp_ins; [done|]. wp_step. cbn [p_pagetable set_trapframe].
    apply wp_when; intros Hpt; bool_simpl.
    - rewrite tok_if_ne in Ho1 by done. wp_step. apply wp_getp_ins; [done|]. cbn [p_sz set_trapframe]. apply wp_env.
      eapply wp_mono; [by apply law_freepagetable|]. intros [] w2 Ho2. cbn beta in Ho2 |- *.
      repeat (wp_step; apply wp_setp_ins; [done|]). apply wp_setp_ins; [done|]. by apply HQ.
    - rewrite Hpt, tok_if_0 in Ho1. repeat (wp_step; apply wp_setp_ins; [done|]). apply wp_setp_ins; [done|]. by apply HQ. }
  apply wp_when; intros Htf; bool_simpl.
  - rewrite tok_if_ne in Ho by done. apply wp_env. eapply wp_mono; [by apply law_kfree|]. intros [] w1 Ho1. by apply Hrest.
  - rewrite Htf, tok_if_0 in Ho. by apply Hrest.
Qed.

Lemma wp_allocpid ps ip np pl wl h c w n (Q : Z -> K -> Prop) :
  lock_free pl -> 0 < np < 2 ^ 31 - 1 -> lvl h n -> 0 <= n < 99 ->
  (forall h', lvl h' n -> Q np (mkK ps ip (np + 1) pl wl h' c w)) ->
  wp (allocpid me) (mkK ps ip np pl wl h c w) Q.
Proof.
  intros Hf Hnp Hl Hn HQ. unfold allocpid, set_nextpid. wp_step. apply (wp_lock me _ _ n); [done|lia|done|done|].
  intros h1 H1. do 4 wp_step. cbn. rewrite i32_small by lia. wp_step.
  apply (wp_unlock me _ _ n pl); [done|lia|done|done|done|]. intros h2 H2. wp_step. by apply HQ.
Qed.

(** An unused entry names nothing. *)
Definition blank (p : proc) : Prop :=
  p_trapframe p = 0 /\ p_pagetable p = 0 /\ p_sz p = 0.

Lemma wp_allocproc ps ip np pl wl h c w L (Q : option Z -> K -> Prop) :
  all_free ps -> length ps = Z.to_nat NPROC -> lock_free pl -> 0 < np < 2 ^ 31 - 1 -> lvl h 0 -> owns w L ->
  (forall j p, ps !! j = Some p -> p_state p = UNUSED -> blank p) ->
  match list_find (fun p => p_state p = UNUSED) ps with
  | None => forall h', lvl h' 0 -> Q None (mkK ps ip np pl wl h' c w)
  | Some (j, p) =>
      (forall h' w', lvl h' 0 -> owns w' L -> Q None (mkK (<[j := freed p]> ps) ip (np + 1) pl wl h' c w')) /\
      (forall h' w' tf pt, lvl h' 1 -> tf <> 0 -> pt <> 0 -> owns w' (PT pt 0 :: TF tf :: L) ->
         Q (Some (Z.of_nat j)) (mkK (<[j := fresh me forkret_addr np tf pt p]> ps) ip (np + 1) pl wl h' c w'))
  end ->
  wp (allocproc me forkret_addr) (mkK ps ip np pl wl h c w) Q.
Proof.
  intros Hf Hlen Hpl Hnp Hl Ho Hb HQ. unfold allocproc. wp_step. apply wp_alloc_scan; [done|done|done|].
  destruct (list_find _ ps) as [[j p]|] eqn:E; [|intros h1 H1; wp_step; by apply HQ].
  apply list_find_Some in E as (Hj & Hun & _). pose proof (lookup_lt_Some _ _ _ Hj) as Hlt.
  destruct (Hb _ _ Hj Hun) as (Htf0 & Hpt0 & Hsz0). pose proof (Hf _ _ Hj) as Hfree.
  intros h1 H1. destruct HQ as [HQf HQs]. destruct p as [lk sta ch kl xs pid0 par ks sz0 pt0 tf0 ctx fs cwd nm]. cbn in Htf0, Hpt0, Hsz0, Hun, Hfree. subst.
  unfold fresh in HQs. pcbn in HQs. pcbn.
  rewrite <-(Nat2Z.id j) in Hlt, HQf, HQs. rewrite <-(Nat2Z.id j) at 1.
  set (i := Z.of_nat j) in *. assert (Ei : Z.of_nat (Z.to_nat i) = i) by lia. rewrite Ei in HQs. clearbody i. clear j Hj Ei.
  wp_step. apply (wp_allocpid _ _ _ _ _ _ _ _ 1); [done|done|done|lia|]. intros h2 H2.
  wp_step. apply wp_setp_ins; [done|]. wp_step. apply wp_setp_ins; [done|]. wp_step. apply wp_env. pcbn.
  eapply wp_mono; [by apply law_kalloc|].
  assert (Hfail : forall q w1, owns w1 (tok_if (p_trapframe q) (TF (p_trapframe q)) ++ tok_if (p_pagetable q) (PT (p_pagetable q) (p_sz q)) ++ L) ->
     p_lock q = lock_taken me lk -> set_lock lk (freed q) = freed (mkProc lk UNUSED ch kl xs pid0 par ks 0 0 0 ctx fs cwd nm) ->
     wp (freeproc i ;; unlock me (p_lock_lens i) ;; ret None) (mkK (<[Z.to_nat i := q]> ps) ip (np + 1) pl wl h2 c w1) Q).
  { intros q w1 Hw1 Hq Hfr. wp_step. eapply wp_freeproc; [done|exact Hw1|]. intros w2 Hw2.
    wp_step. apply (wp_punlock_ins me _ _ _ _ _ _ _ _ i _ 0 lk); try done. intros h3 H3. wp_step.
    rewrite Hfr. by apply HQf. }
  intros tf w1 [[-> Ho1]|[Htf Ho1]]; cbn beta; wp_step; (apply wp_setp_ins; [done|]); pcbn.
  - cbn [Z.eqb]. apply Hfail; done.
  - rewrite (proj2 (Z.eqb_neq _ _) Htf). wp_step. apply wp_env.
    eapply wp_mono; [apply law_pagetable; [exact Ho1|set_solver]|].
    intros pt w2 [[-> Ho2]|[Hpt Ho2]]; cbn beta; wp_step; (apply wp_setp_ins; [done|]); pcbn.
    + cbn [Z.eqb]. apply Hfail; [cbn; rewrite tok_if_ne; done|done|done].
    + rewrite (proj2 (Z.eqb_neq _ _) Hpt).  do 3 (wp_step; apply wp_setp_ins; [done|]; pcbn). wp_step. exact (HQs h2 w2 tf pt H2 Htf Hpt Ho2).
Qed.

(** *** fork() *)

(** The child fork() makes of the unused entry [x] for the parent [p] at
    index [i]. *)
Definition child (i : Z) (p x : proc) (pid tf pt : Z) : proc :=
  mkProc (p_lock x) RUNNABLE (p_chan x) (p_killed x) (p_xstate x) pid (Some i) (p_kstack x) (p_sz p) pt tf
    (mkContext forkret_addr (u64 (p_kstack x + PGSIZE)) (replicate 12 0)) (p_ofile p) (p_cwd p)
    (safestrcpy (p_name x) (p_name p) 16).

Lemma file_tokens_app a b : file_tokens (a ++ b) = file_tokens a ++ file_tokens b.
Proof. apply flat_map_app. Qed.

Lemma in_file_tokens f fs : f ∈ fs -> f <> 0 -> FD f ∈ file_tokens fs.
Proof.
  intros Hf Hn. apply list_elem_of_In, in_flat_map. exists f. split; [by apply list_elem_of_In|].
  rewrite tok_if_ne by done. by left.
Qed.

(** The loop that shares the open files: an empty table gets the parent's. *)
Lemma wp_dup_files i j p q ps ip np pl wl h c w L (Q : unit -> K -> Prop) :
  ps !! Z.to_nat i = Some p -> Z.to_nat i <> Z.to_nat j -> (Z.to_nat j < length ps)%nat ->
  length (p_ofile p) = Z.to_nat NOFILE -> p_ofile q = replicate (Z.to_nat NOFILE) 0 ->
  owns w L -> (forall f, f ∈ p_ofile p -> f <> 0 -> FD f ∈ L) ->
  (forall w', owns w' (file_tokens (p_ofile p) ++ L) ->
     Q tt (mkK (<[Z.to_nat j := set_ofile (p_ofile p) q]> ps) ip np pl wl h c w')) ->
  wp (dup_files i j) (mkK (<[Z.to_nat j := q]> ps) ip np pl wl h c w) Q.
Proof.
  intros Hi Hne Hj Hlen Hq Ho Hfd HQ. unfold dup_files.
  set (part := fun k => take (Z.to_nat k) (p_ofile p) ++ replicate (Z.to_nat NOFILE - Z.to_nat k) 0).
  eapply wp_mono; [apply (wp_for_range (fun k s => exists w', owns w' (file_tokens (take (Z.to_nat k) (p_ofile p)) ++ L) /\
    s = mkK (<[Z.to_nat j := set_ofile (part k) q]> ps) ip np pl wl h c w'))|].
  - exists w. split; [done|]. f_equal. f_equal. unfold part. cbn [take Z.to_nat app]. rewrite Nat.sub_0_r, <-Hq. by destruct q.
  - intros k s Hk (w1 & Ho1 & ->). destruct (lookup_lt_is_Some_2 (p_ofile p) (Z.to_nat k)) as [f Hf]; [lia|].
    wp_step. apply (wp_getp _ _ _ _ _ _ _ _ i p); [by rewrite list_lookup_insert_ne|]. rewrite Hf. cbn [default].
    replace (Z.to_nat (k + 1)) with (S (Z.to_nat k)) by lia. rewrite (take_S_r _ _ f) by done.
    assert (Hpart : part (k + 1) = <[Z.to_nat k := f]> (part k)).
    { unfold part. replace (Z.to_nat (k + 1)) with (S (Z.to_nat k)) by lia. rewrite (take_S_r _ _ f) by done.
      assert (Hlt : length (take (Z.to_nat k) (p_ofile p)) = Z.to_nat k) by (rewrite length_take; lia).
      rewrite insert_app_r_alt by lia. rewrite Hlt, Nat.sub_diag, <-app_assoc. f_equal.
      replace (Z.to_nat NOFILE - Z.to_nat k)%nat with (S (Z.to_nat NOFILE - S (Z.to_nat k))) by lia. done. }
    rewrite file_tokens_app. unfold default. cbn [file_tokens flat_map]. rewrite app_nil_r.
    apply wp_when; intros Hz; bool_simpl.
    + unfold id in *. wp_step. apply wp_env. eapply wp_mono; [apply law_filedup; [exact Ho1|]|].
      { apply elem_of_app. right. apply Hfd; [by eapply list_elem_of_lookup_2|done]. }
      intros g w2 [-> Ho2]. cbn beta. apply wp_setp_ins; [done|]. exists w2. split.
      * rewrite tok_if_ne by done. eapply owns_perm; [|exact Ho2]. by rewrite <-!app_assoc, Permutation_middle.
      * rewrite Hpart. by destruct q.
    + unfold id in Hz. subst f. exists w1. split; [by rewrite tok_if_0, app_nil_r|]. f_equal. f_equal. rewrite Hpart.
      rewrite list_insert_id; [done|]. unfold part. rewrite lookup_app_r by (rewrite length_take; lia).
      rewrite length_take. apply lookup_replicate. split; [done|lia].
  - intros [] s (w' & Ho' & ->). cbn beta. rewrite take_ge in Ho' by lia.
    unfold part. rewrite take_ge by lia. replace (Z.to_nat NOFILE - _)%nat with O by lia. cbn [replicate].
    rewrite app_nil_r. by apply HQ.
Qed.

Lemma wp_fork i p ps ip np pl wl h w (Q : Z -> K -> Prop) :
  all_free ps -> length ps = Z.to_nat NPROC -> lock_free pl -> lock_free wl -> 0 < np < 2 ^ 31 - 1 -> lvl h 0 ->
  0 <= i -> ps !! Z.to_nat i = Some p -> p_state p = RUNNING -> p_trapframe p <> 0 -> p_pagetable p <> 0 -> p_cwd p <> 0 ->
  length (p_ofile p) = Z.to_nat NOFILE ->
  owns w (all_tokens ps) ->
  (forall j x, ps !! j = Some x -> p_state x = UNUSED -> blank x /\ p_ofile x = replicate (Z.to_nat NOFILE) 0) ->
  (forall h', lvl h' 0 -> list_find (fun p => p_state p = UNUSED) ps = None ->
     Q (-1) (mkK ps ip np pl wl h' (Some i) w)) ->
  (forall j x ctx h' w', lvl h' 0 -> list_find (fun p => p_state p = UNUSED) ps = Some (j, x) -> owns w' (all_tokens ps) ->
     Q (-1) (mkK (<[j := set_context ctx (freed x)]> ps) ip (np + 1) pl wl h' (Some i) w')) ->
  (forall j x h' w' tf pt, lvl h' 0 -> list_find (fun p => p_state p = UNUSED) ps = Some (j, x) ->
     tf <> 0 -> pt <> 0 ->
     owns w' (tokens (child i p x np tf pt) ++ all_tokens ps) ->
     Q np (mkK (<[j := child i p x np tf pt]> ps) ip (np + 1) pl wl h' (Some i) w')) ->
  wp (fork me forkret_addr) (mkK ps ip np pl wl h (Some i) w) Q.
Proof.
  intros Hf Hlen Hpl Hwl Hnp Hl Hi0 Hi Hrun Htf Hpt Hcwd Hof Ho Hun HQ1 HQ2 HQ3. unfold fork.
  wp_step. apply (wp_me _ _ _ _ _ _ _ _ i 0); [done|lia|done|]. intros h1 H1. wp_step.
  eapply wp_allocproc; [done|done|done|done|done|exact Ho| |].
  { intros j x Hj Hx. by apply (Hun j x). }
  destruct (list_find _ ps) as [[j x]|] eqn:E; [|intros h2 H2; wp_step; by apply HQ1].
  assert (E' := E). apply list_find_Some in E' as (Hj & Hx & _).
  assert (Hne : Z.to_nat i <> j) by congruence. pose proof (lookup_lt_Some _ _ _ Hj) as Hlt.
  destruct (Hun _ _ Hj Hx) as [(Hb1 & Hb2 & Hb3) Hb4]. pose proof (Hf _ _ Hj) as Hfree.
  split; [intros h2 w2 H2 Ho2; wp_step; specialize (HQ2 j x (p_context x)); by apply HQ2|].
  intros h2 w2 tf pt H2 Htf' Hpt' Ho2.
  specialize (fun ctx h' w' => HQ2 j x ctx h' w'). specialize (fun h' w' => HQ3 j x h' w' tf pt).
  remember (Z.of_nat j) as k eqn:Ek. assert (j = Z.to_nat k) as -> by lia. clear Ek.
  assert (Hi' : forall q, <[Z.to_nat k:=q]> ps !! Z.to_nat i = Some p) by (intros q; by rewrite list_lookup_insert_ne by done).
  destruct (all_tokens_split ps (Z.to_nat i) p Hi) as (rest & Hrest & _).
  assert (Hall : all_tokens ps ≡ₚ PT (p_pagetable p) (p_sz p) :: TF (p_trapframe p) :: file_tokens (p_ofile p) ++ CWD (p_cwd p) :: rest).
  { rewrite Hrest. unfold tokens. rewrite !tok_if_ne by done. solve_perm. }
  clear Hrest.
  destruct p as [plk pst pch pkl pxs ppid ppar pks psz ppt ptf pctx pof pcwd pnm].
  destruct x as [xlk xst xch xkl xxs xpid xpar xks xsz xpt xtf xctx xof xcwd xnm]. unfold fresh. pcbn everywhere. subst. pcbn.
  assert (Ho3 : owns w2 (PT ppt psz :: PT pt 0 :: TF tf :: TF ptf :: file_tokens pof ++ CWD pcwd :: rest)).
  { eapply owns_perm; [|exact Ho2]. solve_perm. }
  do 3 p_get Hi'. wp_step. apply wp_env. eapply wp_mono; [by apply law_uvmcopy|].
  intros r w3 [[-> Ho4]|[-> Ho4]]; cbn beta; cbn [Z.ltb Z.compare].
  2: {
    wp_step. eapply wp_freeproc; [done|pcbn; rewrite !tok_if_ne by done|]. 
    2: { intros w4 Ho5. wp_step. unfold freed. pcbn.
    apply (wp_punlock_ins me _ _ _ _ _ _ _ _ k _ 0 xlk); try done. intros h3 H3. wp_step. pcbn.
      by apply (HQ2 (mkContext forkret_addr (u64 (xks + PGSIZE)) (replicate 12 0))). }
    eapply owns_perm; [|exact Ho4]. solve_perm. }
  wp_step. apply wp_setp_ins; [done|]. pcbn. do 2 p_get Hi'.
  wp_step. apply wp_env. eapply wp_mono; [apply law_tf_copy; [exact Ho4|tok_in..]|]. intros [] w4 Ho5. cbn beta in Ho5 |- *.
  wp_step. apply wp_env. eapply wp_mono; [eapply (law_tf_set _ _ tf); [exact Ho5|tok_in|done]|]. intros [] w5 Ho6. cbn beta in Ho6 |- *.
  wp_step. eapply wp_dup_files; [exact Hi|done|done|done|done|exact Ho6| |].
  { intros f Hff Hnz. pose proof (in_file_tokens f pof Hff Hnz). tok_in. }
  intros w6 Ho7. pcbn. p_get Hi'.
  wp_step. apply wp_env. eapply wp_mono; [eapply (law_idup _ _ pcwd); [exact Ho7|tok_in]|]. intros ? w7 [-> Ho8]. cbn beta.
  wp_step. apply wp_setp_ins; [done|]. p_get Hi'. wp_step. apply wp_setp_ins; [done|]. pcbn. p_get Hi'.
  wp_step. apply (wp_punlock_ins me _ _ _ _ _ _ _ _ k _ 0 xlk); try done. intros h3 H3.
  wp_step. apply (wp_wlock me _ _ _ _ _ _ _ _ 0); [done|lia|done|]. intros h4 H4.
  wp_step. apply wp_setp_ins; [done|]. pcbn.
  wp_step. apply (wp_wunlock me _ _ _ _ _ _ _ _ wl 0); try done. intros h5 H5.
  wp_step. apply (wp_plock_ins me _ _ _ _ _ _ _ _ k _ 0); [done|done|done|lia|]. intros h6 H6. pcbn.
  wp_step. apply wp_setp_ins; [done|]. pcbn.
  wp_step. apply (wp_punlock_ins me _ _ _ _ _ _ _ _ k _ 0 xlk); try done. intros h7 H7. wp_step. pcbn.
  unfold child in HQ3. pcbn in HQ3. apply (HQ3 h7 w7); try done.
  eapply owns_perm; [|exact Ho8]. unfold tokens. pcbn. rewrite !tok_if_ne by done. solve_perm.
Qed.

(** *** exit() *)

(** The loop that closes the open files. *)
Lemma wp_close_files i p ps ip np pl wl h c w L (Q : unit -> K -> Prop) :
  ps !! Z.to_nat i = Some p -> length (p_ofile p) = Z.to_nat NOFILE -> owns w (file_tokens (p_ofile p) ++ L) ->
  (forall w', owns w' L ->
     Q tt (mkK (<[Z.to_nat i := set_ofile (replicate (Z.to_nat NOFILE) 0) p]> ps) ip np pl wl h c w')) ->
  wp (for_range (Z.to_nat NOFILE) 0 (fun fd =>
      let! f := getp i (fun q => default 0 (p_ofile q !! Z.to_nat fd)) in
      when (negb (f =? 0))
        (env (env_fileclose f) ;;
         setp i (fun q => set_ofile (<[Z.to_nat fd := 0]> (p_ofile q)) q))))
    (mkK ps ip np pl wl h c w) Q.
Proof.
  intros Hi Hlen Ho HQ. pose proof (lookup_lt_Some _ _ _ Hi) as Hlt.
  set (part := fun k => replicate (Z.to_nat k) 0 ++ drop (Z.to_nat k) (p_ofile p)).
  eapply wp_mono; [apply (wp_for_range (fun k s => exists w', owns w' (file_tokens (drop (Z.to_nat k) (p_ofile p)) ++ L) /\
    s = mkK (<[Z.to_nat i := set_ofile (part k) p]> ps) ip np pl wl h c w'))|].
  - exists w. split; [done|]. f_equal. unfold part. cbn [drop Z.to_nat replicate app].
    rewrite list_insert_id; [done|]. rewrite Hi. by destruct p.
  - intros k s Hk (w1 & Ho1 & ->). destruct (lookup_lt_is_Some_2 (p_ofile p) (Z.to_nat k)) as [f Hf]; [lia|].
    wp_step. apply wp_getp_ins; [done|]. pcbn.
    assert (Hl : length (replicate (Z.to_nat k) 0) = Z.to_nat k) by apply length_replicate.
    assert (Hpf : part k !! Z.to_nat k = Some f).
    { unfold part. rewrite lookup_app_r by lia. rewrite Hl, Nat.sub_diag, lookup_drop, Nat.add_0_r. done. }
    assert (Hpart : part (k + 1) = <[Z.to_nat k := 0]> (part k)).
    { unfold part. replace (Z.to_nat (k + 1)) with (S (Z.to_nat k)) by lia. rewrite (drop_S _ f (Z.to_nat k)) by done.
      rewrite insert_app_r_alt by lia. rewrite Hl, Nat.sub_diag. rewrite replicate_S_end, <-app_assoc. reflexivity. }
    rewrite Hpf. unfold default, id.
    replace (Z.to_nat (k + 1)) with (S (Z.to_nat k)) by lia. rewrite (drop_S (p_ofile p) f (Z.to_nat k) Hf) in Ho1.
    cbn [file_tokens flat_map] in Ho1. fold (file_tokens (drop (S (Z.to_nat k)) (p_ofile p))) in Ho1.
    apply wp_when; intros Hz; bool_simpl.
    + rewrite tok_if_ne, <-app_assoc in Ho1 by done. wp_step. apply wp_env. eapply wp_mono; [by apply law_fileclose|].
      intros [] w2 Ho2. cbn beta in Ho2 |- *. apply wp_setp_ins; [done|]. pcbn. exists w2. split; [done|]. by rewrite Hpart.
    + subst f. rewrite tok_if_0 in Ho1. exists w1. split; [done|]. rewrite Hpart, (list_insert_id (part k)) by done. done.
  - intros [] s (w' & Ho' & ->). cbn beta. rewrite drop_ge in Ho' by lia.
    unfold part. rewrite drop_ge by lia. rewrite app_nil_r, Z.add_0_l, Nat2Z.id. by apply HQ.
Qed.

(** sched() of a process that holds only its own lock. *)
Lemma wp_sched i q ps ip np pl wl h w (Q : Z -> K -> Prop) :
  (Z.to_nat i < length ps)%nat -> holding me (p_lock q) = true -> p_state q <> RUNNING -> lvl h 1 ->
  (forall h' saved, lvl h' 1 -> Q saved (mkK (<[Z.to_nat i := q]> ps) ip np pl wl h' (Some i) w)) ->
  wp (sched me) (mkK (<[Z.to_nat i := q]> ps) ip np pl wl h (Some i) w) Q.
Proof.
  intros Hi Hh Hst Hl HQ. unfold sched. wp_step. apply (wp_me _ _ _ _ _ _ _ _ i 1); [done|lia|done|]. intros h1 H1.
  wp_step. apply wp_getp_ins; [done|]. rewrite Hh. cbn [negb]. wp_step. wp_step. cbn [k_hart].
  rewrite (proj2 H1). cbn [Z.eqb negb]. do 2 wp_step. apply wp_getp_ins; [done|].
  rewrite bool_decide_eq_false_2 by done. rewrite (lvl_intr h1 1) by (done || lia). cbn [Z.eqb negb].
  wp_step. by apply HQ.
Qed.

(** The entry of an exited process, still locked by its CPU. *)
Definition zombie (status : Z) (p : proc) : proc :=
  set_lock (lock_taken me (p_lock p)) (set_state ZOMBIE (set_xstate status (set_cwd 0 (set_ofile (replicate (Z.to_nat NOFILE) 0) p)))).

(** The rest of the table: children of [i] go to init, and init and the
    parent are woken. *)
Definition exit_others (i : Z) (p : proc) (ip : option Z) (ps : list proc) : list proc :=
  wake_all (Some i) (chan_of proc_base (p_parent p)) (reparent_all proc_base (Some i) i ip ps).

Lemma reparent_all_self i ip ps q :
  0 <= i -> ps !! Z.to_nat i = Some q -> p_parent q <> Some i ->
  reparent_all proc_base (Some i) i ip ps !! Z.to_nat i = Some q.
Proof.
  intros Hi Hq Hp. unfold reparent_all.
  assert (Hr : imap (reparented i ip) ps !! Z.to_nat i = Some q).
  { rewrite list_lookup_imap, Hq. cbn. unfold reparented. by rewrite bool_decide_eq_false_2. }
  destruct (has_child i ps); [|done]. rewrite wake_all_lookup, Hr. cbn. rewrite wake_self; [done|]. f_equal. lia.
Qed.

Lemma others_free_reparent c i ip ps : others_free c ps -> others_free c (reparent_all proc_base c i ip ps).
Proof.
  intros Ho. unfold reparent_all, wake_all.
  case_match; repeat apply others_free_imap; auto using wake_lock, reparented_lock.
Qed.

Lemma length_reparent_all c i ip ps : length (reparent_all proc_base c i ip ps) = length ps.
Proof. unfold reparent_all, wake_all. case_match; by rewrite ?length_imap. Qed.

Lemma exit_others_self i p ip ps q :
  0 <= i -> ps !! Z.to_nat i = Some q -> p_parent q <> Some i -> exit_others i p ip ps !! Z.to_nat i = Some q.
Proof.
  intros Hi Hq Hp. unfold exit_others. rewrite wake_all_lookup, (reparent_all_self _ _ _ q) by done. cbn.
  rewrite wake_self; [done|]. f_equal. lia.
Qed.

Lemma length_exit_others i p ip ps : length (exit_others i p ip ps) = length ps.
Proof. unfold exit_others, wake_all. by rewrite length_imap, length_reparent_all. Qed.

Lemma has_child_parents i ps : has_child i ps = existsb (fun o => bool_decide (o = Some i)) (p_parent <$> ps).
Proof. unfold has_child. induction ps as [|p ps IH]; [done|]. cbn. by rewrite IH. Qed.

Lemma has_child_insert i j p q ps :
  ps !! j = Some p -> p_parent q = p_parent p -> has_child i (<[j := q]> ps) = has_child i ps.
Proof.
  intros Hj Hq. rewrite !has_child_parents, list_fmap_insert. rewrite list_insert_id; [done|].
  by rewrite list_lookup_fmap, Hj, Hq.
Qed.

(** The exiting process's own entry does not matter for the others. *)
Lemma exit_others_insert i p ip ps q z :
  ps !! Z.to_nat i = Some p -> p_parent q = p_parent p ->
  <[Z.to_nat i := z]> (exit_others i p ip (<[Z.to_nat i := q]> ps)) = <[Z.to_nat i := z]> (exit_others i p ip ps).
Proof.
  intros Hi Hq. pose proof (lookup_lt_Some _ _ _ Hi) as Hlt. apply list_eq. intros j.
  destruct (decide (Z.to_nat i = j)) as [<-|Hne].
  - rewrite !list_lookup_insert_eq; rewrite ?length_exit_others, ?length_insert; done.
  - rewrite !list_lookup_insert_ne by done. unfold exit_others, reparent_all.
    rewrite (has_child_insert _ _ p) by done. rewrite !wake_all_lookup.
    destruct (has_child i ps); rewrite ?wake_all_lookup, !list_lookup_imap, list_lookup_insert_ne by done; done.
Qed.

Lemma wp_exit status i p ps ip np pl wl h w rest (Q : Z -> K -> Prop) :
  all_free ps -> length ps = Z.to_nat NPROC -> lock_free wl -> lvl h 0 -> 0 <= i ->
  ps !! Z.to_nat i = Some p -> p_parent p <> Some i -> ip <> Some i -> length (p_ofile p) = Z.to_nat NOFILE ->
  owns w (file_tokens (p_ofile p) ++ CWD (p_cwd p) :: rest) ->
  (forall h' w' saved, lvl h' 1 -> owns w' rest ->
     Q saved (mkK (<[Z.to_nat i := zombie status p]> (exit_others i p ip ps)) ip np pl wl h' (Some i) w')) ->
  wp (exit me proc_base status) (mkK ps ip np pl wl h (Some i) w) Q.
Proof.
  intros Hf Hlen Hwl Hl Hi0 Hi Hpar Hip Hof Ho HQ. pose proof (lookup_lt_Some _ _ _ Hi) as Hlt. unfold exit.
  wp_step. apply (wp_me _ _ _ _ _ _ _ _ i 0); [done|lia|done|]. intros h1 H1. do 2 wp_step. cbn [initproc].
  rewrite bool_decide_eq_false_2 by congruence.
  wp_step. eapply wp_close_files; [done|done|exact Ho|]. intros w1 Ho1.
  wp_step. apply wp_getp_ins; [done|]. wp_step. apply wp_env. pcbn.
  eapply wp_mono; [by apply law_iput|]. intros [] w2 Ho2. cbn beta in Ho2 |- *.
  wp_step. apply wp_setp_ins; [done|]. wp_step. apply (wp_wlock me _ _ _ _ _ _ _ _ 0); [done|lia|done|]. intros h2 H2.
  set (q := set_cwd 0 (set_ofile (replicate (Z.to_nat NOFILE) 0) p)).
  set (ps1 := <[Z.to_nat i := q]> ps).
  assert (Hf1 : others_free (Some i) ps1).
  { apply (others_free_insert _ _ _ p); [|done|done]. intros j x Hj _. by apply (Hf j). }
  assert (Hlen1 : length ps1 = Z.to_nat NPROC) by (unfold ps1; by rewrite length_insert).
  wp_step. apply (wp_reparent me proc_base _ _ _ _ _ _ _ _ _ 1); [done|done|done|lia|]. intros h3 H3.
  assert (Hq1 : ps1 !! Z.to_nat i = Some q) by (unfold ps1; by rewrite list_lookup_insert_eq).
  assert (Hq2 : reparent_all proc_base (Some i) i ip ps1 !! Z.to_nat i = Some q).
  { by apply reparent_all_self. }
  wp_step. apply (wp_getp _ _ _ _ _ _ _ _ i q); [done|]. change (p_parent q) with (p_parent p).
  wp_step. apply (wp_wakeup me _ _ _ _ _ _ _ _ _ 1); [| |done|lia|].
  { by apply others_free_reparent. } { by rewrite length_reparent_all. }
  intros h4 H4. fold (exit_others i p ip ps1).
  pose proof (exit_others_self i p ip ps1 q Hi0 Hq1 Hpar) as Hq3.
  wp_step. apply (wp_plock me _ _ _ _ _ _ _ _ i q 1); [done|by apply (Hf _ _ Hi)|done|lia|]. intros h5 H5.
  do 2 (wp_step; apply wp_setp_ins; [by rewrite length_exit_others, Hlen1, <-Hlen|]).
  wp_step. apply (wp_wunlock me _ _ _ _ _ _ _ _ wl 1); [done|lia|done|done|]. intros h6 H6.
  apply wp_sched; [by rewrite length_exit_others, Hlen1, <-Hlen| |done|done|].
  { unfold holding. cbn. by rewrite bool_decide_eq_true_2. }
  intros h7 saved H7.
  unfold ps1. rewrite exit_others_insert by done. by apply HQ.
Qed.

(** *** wait() *)

Definition exited_child (i : Z) (q : proc) : Prop := p_parent q = Some i /\ p_state q = ZOMBIE.
#[local] Instance exited_child_dec i q : Decision (exited_child i q).
Proof. unfold exited_child. apply _. Defined.

(** A process asleep in wait(), as its CPU leaves it. *)
Definition asleep (chan : Z) (p : proc) : proc :=
  set_lock (lock_taken me (p_lock p)) (set_state SLEEPING (set_chan chan p)).

Lemma wp_killed i p ps ip np pl wl h c w n (Q : Z -> K -> Prop) :
  ps !! Z.to_nat i = Some p -> lock_free (p_lock p) -> lvl h n -> 0 <= n < 99 ->
  (forall h', lvl h' n -> Q (p_killed p) (mkK ps ip np pl wl h' c w)) ->
  wp (killed me i) (mkK ps ip np pl wl h c w) Q.
Proof.
  intros Hi Hf Hl Hn HQ. pose proof (lookup_lt_Some _ _ _ Hi) as Hlt. unfold killed.
  wp_step. apply (wp_plock me _ _ _ _ _ _ _ _ i p n); [done|done|done|lia|]. intros h1 H1.
  wp_step. apply wp_getp_ins; [done|]. wp_step.
  apply (wp_punlock_ins me _ _ _ _ _ _ _ _ i _ n (p_lock p)); try done; [lia|]. intros h2 H2. wp_step.
  rewrite list_insert_id by (rewrite Hi; by destruct p). by apply HQ.
Qed.

(** The scan, when no child has exited. *)
Lemma wp_wait_scan_none i addr ps ip np pl wl h c w (Q : bool + Z -> K -> Prop) :
  all_free ps -> length ps = Z.to_nat NPROC -> lvl h 1 -> list_find (exited_child i) ps = None ->
  (forall h', lvl h' 1 -> Q (inl (has_child i ps)) (mkK ps ip np pl wl h' c w)) ->
  wp (loop (Z.to_nat NPROC + 1) (wait_body me i addr) (0, false)) (mkK ps ip np pl wl h c w) Q.
Proof.
  intros Hf Hlen Hl Hnone HQ. rewrite list_find_None, Forall_lookup in Hnone.
  apply (wp_loop (fun v s => 0 <= fst v <= NPROC /\ snd v = has_child i (take (Z.to_nat (fst v)) ps) /\
    exists h', lvl h' 1 /\ s = mkK ps ip np pl wl h' c w) (fun v => Z.to_nat (NPROC - fst v))); [|split_and!; try done; eauto|cbn; lia].
  intros [k hk] s (Hk & Hhk & h1 & H1 & ->). cbn [fst snd] in *. unfold wait_body.
  destruct (Z.ltb_spec k NPROC) as [Hlt|Hge].
  2: { wp_step. subst hk. rewrite take_ge by lia. by apply HQ. }
  destruct (lookup_lt_is_Some_2 ps (Z.to_nat k)) as [x Hx]; [lia|]. pose proof (lookup_lt_Some _ _ _ Hx) as Hb.
  assert (Hh' : has_child i (take (Z.to_nat (k + 1)) ps) = (hk || bool_decide (p_parent x = Some i))%bool).
  { replace (Z.to_nat (k + 1)) with (S (Z.to_nat k)) by lia. rewrite (take_S_r _ _ x) by done. unfold has_child.
    rewrite existsb_app. cbn. rewrite orb_false_r. by subst hk. }
  wp_step. apply (wp_getp _ _ _ _ _ _ _ _ k x); [done|]. destruct (bool_decide (p_parent x = Some i)) eqn:Ep.
  - wp_step. apply (wp_plock me _ _ _ _ _ _ _ _ k x 1); [done|by apply (Hf _ _ Hx)|done|lia|]. intros h2 H2.
    wp_step. apply wp_getp_ins; [done|]. unfold id. pcbn. rewrite bool_decide_eq_false_2.
    2: { apply bool_decide_eq_true in Ep. intros Hz. by apply (Hnone _ _ Hx). }
    wp_step. apply (wp_punlock_ins me _ _ _ _ _ _ _ _ k _ 1 (p_lock x)); try done; [by apply (Hf _ _ Hx)|]. intros h3 H3.
    wp_step. cbn [fst snd]. split; [|lia]. split_and!; [lia|lia| |].
    + rewrite Hh'. by rewrite orb_true_r.
    + exists h3. split; [done|]. rewrite list_insert_id by (rewrite Hx; by destruct x). done.
  - wp_step. cbn [fst snd]. split; [|lia]. split_and!; [lia|lia| |eauto]. by rewrite Hh', orb_false_r.
Qed.

(** The bytes of the exit status that wait() copies out. *)
Definition status_bytes (x : proc) : list Z := le_bytes 4 (u32 (p_xstate x)).

(** The scan, when [x] at [j] is the first child that has exited. *)
Lemma wp_wait_scan_some i p addr j x ps ip np pl wl lk h w rest (Q : bool + Z -> K -> Prop) :
  all_free ps -> length ps = Z.to_nat NPROC -> lvl h 1 -> list_find (exited_child i) ps = Some (j, x) ->
  wl = lock_taken me lk -> lock_free lk ->
  ps !! Z.to_nat i = Some p -> Z.to_nat i <> j -> p_trapframe x <> 0 -> p_pagetable x <> 0 ->
  owns w (PT (p_pagetable p) (p_sz p) :: TF (p_trapframe x) :: PT (p_pagetable x) (p_sz x) :: rest) ->
  (forall h' w' rc, lvl h' 0 -> addr <> 0 -> env_copyout (p_pagetable p) addr (status_bytes x) w = Ok rc w' -> rc < 0 ->
     owns w' (PT (p_pagetable p) (p_sz p) :: TF (p_trapframe x) :: PT (p_pagetable x) (p_sz x) :: rest) ->
     Q (inr (-1)) (mkK ps ip np pl lk h' (Some i) w')) ->
  (forall h' w', lvl h' 0 -> (addr <> 0 -> exists rc w1, env_copyout (p_pagetable p) addr (status_bytes x) w = Ok rc w1 /\ 0 <= rc) ->
     owns w' (PT (p_pagetable p) (p_sz p) :: rest) ->
     Q (inr (p_pid x)) (mkK (<[j := freed x]> ps) ip np pl lk h' (Some i) w')) ->
  wp (loop (Z.to_nat NPROC + 1) (wait_body me i addr) (0, false)) (mkK ps ip np pl wl h (Some i) w) Q.
Proof.
  intros Hf Hlen Hl Hfind Hwl Hlk Hi Hne Htf Hpt Ho HQ1 HQ2. assert (Hfind' := Hfind).
  apply list_find_Some in Hfind as (Hj & [Hpar Hz] & Hmin). pose proof (lookup_lt_Some _ _ _ Hj) as Hjl.
  apply (wp_loop (fun v s => 0 <= fst v <= Z.of_nat j /\ exists h', lvl h' 1 /\ s = mkK ps ip np pl wl h' (Some i) w)
    (fun v => Z.to_nat (NPROC - fst v))); [|split; cbn; [lia|eauto]|cbn; lia].
  intros [k hk] s (Hk & h1 & H1 & ->). cbn [fst snd] in *. unfold wait_body.
  rewrite (proj2 (Z.ltb_lt _ _)) by lia.
  destruct (lookup_lt_is_Some_2 ps (Z.to_nat k)) as [y Hy]; [lia|]. pose proof (lookup_lt_Some _ _ _ Hy) as Hb.
  pose proof (Hf _ _ Hy) as Hfree.
  wp_step. apply (wp_getp _ _ _ _ _ _ _ _ k y); [done|]. case_bool_decide as Ep.
  2: { wp_step. cbn [fst snd]. assert (Z.to_nat k <> j) by congruence. split; [|lia]. split; [lia|eauto]. }
  wp_step. apply (wp_plock me _ _ _ _ _ _ _ _ k y 1); [done|done|done|lia|]. intros h2 H2.
  wp_step. apply wp_getp_ins; [done|]. unfold id. pcbn. case_bool_decide as Es.
  2: { wp_step. apply (wp_punlock_ins me _ _ _ _ _ _ _ _ k _ 1 (p_lock y)); try done. intros h3 H3.
       wp_step. cbn [fst snd]. assert (Z.to_nat k <> j) by congruence. split; [|lia]. split; [lia|]. exists h3. split; [done|].
       rewrite list_insert_id by (rewrite Hy; by destruct y). done. }
  assert (Z.to_nat k = j) as <-.
  { destruct (decide (Z.to_nat k = j)); [done|]. exfalso. apply (Hmin _ _ Hy); [lia|done]. }
  assert (y = x) as -> by congruence. clear Hy.
  wp_step. eapply wp_getp; [by rewrite list_lookup_insert_ne|].
  assert (Hok : forall w1 h', lvl h' 2 -> (addr <> 0 -> exists rc w2, env_copyout (p_pagetable p) addr (status_bytes x) w = Ok rc w2 /\ 0 <= rc) -> owns w1 (PT (p_pagetable p) (p_sz p) :: TF (p_trapframe x) :: PT (p_pagetable x) (p_sz x) :: rest) ->
    wp (freeproc k ;; unlock me (p_lock_lens k) ;; unlock me wait_lock_lens ;; ret (inr (inr (p_pid x))))
      (mkK (<[Z.to_nat k := set_lock (lock_taken me (p_lock x)) x]> ps) ip np pl wl h' (Some i) w1)
      (fun (r : Z * bool + (bool + Z)) s' => match r with inl _ => False | inr b => Q b s' end)).
  { intros w1 h' Hh' Hco Ho1. wp_step. eapply wp_freeproc; [done|pcbn; rewrite !tok_if_ne by done|].
    - eapply (owns_perm _ _ (_ ++ _ ++ PT (p_pagetable p) (p_sz p) :: rest)); [|exact Ho1]. solve_perm.
    - intros w2 Ho2. wp_step. apply (wp_punlock_ins me _ _ _ _ _ _ _ _ k _ 1 (p_lock x)); try done. intros h3 H3.
      wp_step. apply (wp_wunlock me _ _ _ _ _ _ _ _ lk 0); try done. intros h4 H4. wp_step. cbn beta iota.
      apply HQ2; done. }
  wp_step. destruct (Z.eqb_spec addr 0) as [Ha|Ha]; cbn [negb].
  - wp_step. eapply wp_mono; [by apply Hok|]. intros [|] ? ?; done.
  - wp_step. apply wp_env. fold (status_bytes x). destruct (proj1 (wp_ok _ _ _) (law_copyout w _ (p_pagetable p) (p_sz p) addr (status_bytes x) Ho)) as (r & w1 & Er & Hr & Ho1).
    apply wp_ok. exists r, w1. split; [done|]. destruct Hr as [->| ->]; wp_step; cbn [Z.ltb Z.compare].
    + eapply wp_mono; [apply Hok; [done|by exists 0, w1|done]|]. intros [|] ? ?; done.
    + wp_step. apply (wp_punlock_ins me _ _ _ _ _ _ _ _ k _ 1 (p_lock x)); try done. intros h3 H3.
      wp_step. apply (wp_wunlock me _ _ _ _ _ _ _ _ lk 0); try done. intros h4 H4. wp_step.
      rewrite list_insert_id by (rewrite Hj; by destruct x). by apply (HQ1 _ _ (-1)).
Qed.

End Life.
