(* ===== verification/ProcInv.v ===== *)
(** * Invariants of the running system

    Any number of CPUs run processes out of one table.  A step of the system
    is one operation of proc.c by one CPU, from its start to its end or to the
    context switch that takes the process off the CPU; [gok] holds in every
    reachable state. *)

From S2P Require Import Prelude Spinlock Mem Riscv Kalloc Vm Proc ProcSpec ProcLife.
Import Spinlock.

Definition alive (p : proc) : Prop :=
  p_state p = SLEEPING \/ p_state p = RUNNABLE \/ p_state p = RUNNING.

Definition no_files (p : proc) : Prop := p_ofile p = replicate (Z.to_nat NOFILE) 0 /\ p_cwd p = 0.

(** What an entry's state says about its other fields. *)
Definition slot_ok (p : proc) : Prop :=
  length (p_ofile p) = Z.to_nat NOFILE /\
  match p_state p with
  | UNUSED => blank p /\ p_pid p = 0 /\ p_parent p = None /\ no_files p
  | USED => False
  | ZOMBIE => p_pid p <> 0 /\ p_trapframe p <> 0 /\ p_pagetable p <> 0 /\ no_files p
  | _ => p_pid p <> 0 /\ p_trapframe p <> 0 /\ p_pagetable p <> 0 /\ p_cwd p <> 0
  end.

Record table_ok (ps : list proc) (ip : option Z) (np : Z) : Prop := {
  t_len : length ps = Z.to_nat NPROC;
  t_free : all_free ps;
  t_slots : forall j p, ps !! j = Some p -> slot_ok p;
  (** process ids are unique, and below nextpid *)
  t_pids : forall i j p q, ps !! i = Some p -> ps !! j = Some q -> p_pid p = p_pid q -> p_pid p <> 0 -> i = j;
  t_next : 0 < np /\ forall j p, ps !! j = Some p -> p_pid p < np;
  (** init lives *)
  t_init : exists i p, ip = Some i /\ 0 <= i /\ ps !! Z.to_nat i = Some p /\ alive p;
  (** and every other process has a living parent *)
  t_tree : forall j p, ps !! j = Some p -> p_state p <> UNUSED -> ip <> Some (Z.of_nat j) ->
    exists k q, p_parent p = Some k /\ 0 <= k /\ k <> Z.of_nat j /\ ps !! Z.to_nat k = Some q /\ alive q
}.

(** ** Changes that keep the shape of the table *)

Record psim (p q : proc) : Prop := {
  sim_lock : p_lock q = p_lock p;
  sim_pid : p_pid q = p_pid p;
  sim_parent : p_parent q = p_parent p;
  sim_slot : slot_ok p -> slot_ok q;
  sim_alive : alive p -> alive q;
  sim_unused : p_state q <> UNUSED -> p_state p <> UNUSED
}.

Lemma psim_refl p : psim p p.
Proof. by split. Qed.

(** The same resources and identity, and a living state before and after. *)
Lemma psim_state p q :
  p_lock q = p_lock p -> p_pid q = p_pid p -> p_parent q = p_parent p -> alive p -> alive q ->
  length (p_ofile q) = length (p_ofile p) ->
  p_trapframe q = p_trapframe p -> p_pagetable q = p_pagetable p -> p_cwd q = p_cwd p -> psim p q.
Proof.
  intros H1 H2 H3 Ha Hb H4 H5 H6 H7. split; try done.
  - unfold slot_ok. rewrite H2, H4, H5, H6, H7. intros [Hl Hs]. split; [done|].
    destruct Ha as [E|[E|E]], Hb as [E'|[E'|E']]; rewrite E in Hs; by rewrite E'.
  - intros _. destruct Ha as [E|[E|E]]; by rewrite E.
Qed.

Lemma psim_wake c chan j p : psim p (wake c chan j p).
Proof.
  unfold wake. destruct (decide _); [apply psim_refl|]. destruct (_ && _) eqn:E; [|apply psim_refl].
  bool_simpl. apply bool_decide_eq_true in H. apply psim_state; try done; [by left|by right; left].
Qed.

Lemma psim_victim p : psim p (victim p).
Proof.
  unfold victim. case_bool_decide as E.
  - apply psim_state; try done; [by left|by right; left].
  - split; done.
Qed.

Definition tsim (ps ps' : list proc) : Prop :=
  length ps' = length ps /\
  forall j p, ps !! j = Some p -> exists q, ps' !! j = Some q /\ psim p q.

Lemma tsim_insert ps j p q : ps !! j = Some p -> psim p q -> tsim ps (<[j := q]> ps).
Proof.
  intros Hj Hs. split; [apply length_insert|]. intros k x Hx. destruct (decide (j = k)) as [<-|Hne].
  - simplify_eq. exists q. by rewrite list_lookup_insert_eq by (by eapply lookup_lt_Some).
  - exists x. rewrite list_lookup_insert_ne by done. split; [done|apply psim_refl].
Qed.

Lemma tsim_wake_all c chan ps : tsim ps (wake_all c chan ps).
Proof.
  split; [apply length_wake_all|]. intros j p Hp. rewrite wake_all_lookup, Hp. cbn. eexists; split; [done|apply psim_wake].
Qed.

Lemma tsim_back ps ps' j q : tsim ps ps' -> ps' !! j = Some q -> exists p, ps !! j = Some p /\ psim p q.
Proof.
  intros [Hl Hs] Hq. destruct (lookup_lt_is_Some_2 ps j) as [p Hp]; [rewrite <-Hl; by eapply lookup_lt_Some|].
  destruct (Hs _ _ Hp) as (q' & Hq' & Hsim). simplify_eq. eauto.
Qed.

Lemma table_ok_sim ps ps' ip np : tsim ps ps' -> table_ok ps ip np -> table_ok ps' ip np.
Proof.
  intros Hs [H1 H2 H3 H4 H5 H6 H7]. split.
  - destruct Hs. congruence.
  - intros j q Hq. destruct (tsim_back _ _ _ _ Hs Hq) as (p & Hp & Hsim). rewrite (sim_lock _ _ Hsim). eauto.
  - intros j q Hq. destruct (tsim_back _ _ _ _ Hs Hq) as (p & Hp & Hsim). apply (sim_slot _ _ Hsim). eauto.
  - intros i j p q Hp Hq. destruct (tsim_back _ _ _ _ Hs Hp) as (p' & Hp' & Hps), (tsim_back _ _ _ _ Hs Hq) as (q' & Hq' & Hqs).
    rewrite (sim_pid _ _ Hps), (sim_pid _ _ Hqs). eauto.
  - split; [apply H5|]. intros j q Hq. destruct (tsim_back _ _ _ _ Hs Hq) as (p & Hp & Hsim). rewrite (sim_pid _ _ Hsim). by eapply H5.
  - destruct H6 as (i & p & Hip & Hi & Hp & Ha). destruct (proj2 Hs _ _ Hp) as (q & Hq & Hsim).
    exists i, q. split_and!; try done. by apply (sim_alive _ _ Hsim).
  - intros j q Hq Hu Hj. destruct (tsim_back _ _ _ _ Hs Hq) as (p & Hp & Hsim).
    destruct (H7 j p Hp (sim_unused _ _ Hsim Hu) Hj) as (k & r & Hk1 & Hk2 & Hk3 & Hr & Ha).
    destruct (proj2 Hs _ _ Hr) as (r' & Hr' & Hrs). exists k, r'. rewrite (sim_parent _ _ Hsim).
    split_and!; try done. by apply (sim_alive _ _ Hrs).
Qed.

(** ** Creation and reaping *)

Lemma alive_not_unused p : alive p -> p_state p <> UNUSED.
Proof. intros [->|[->| ->]]; done. Qed.

Lemma alive_not_zombie p : alive p -> p_state p <> ZOMBIE.
Proof. intros [->|[->| ->]]; done. Qed.

(** A new process in a free entry, with a fresh id and a living parent. *)
Lemma table_ok_new ps ip np i p j x q :
  table_ok ps ip np -> ps !! j = Some x -> p_state x = UNUSED -> 0 <= i -> ps !! Z.to_nat i = Some p -> alive p ->
  lock_free (p_lock q) -> slot_ok q -> p_pid q = np -> p_parent q = Some i ->
  table_ok (<[j := q]> ps) ip (np + 1).
Proof.
  intros [H1 H2 H3 H4 H5 H6 H7] Hj Hx Hi0 Hi Ha Hl Hs Hpid Hpar. pose proof (lookup_lt_Some _ _ _ Hj) as Hlt.
  assert (Hother : forall k r, ps !! k = Some r -> alive r -> <[j := q]> ps !! k = Some r).
  { intros k r Hr Hal. rewrite list_lookup_insert_ne; [done|]. intros <-. simplify_eq. by apply alive_not_unused in Hal. }
  assert (Hcase : forall k r, <[j := q]> ps !! k = Some r -> (k = j /\ r = q) \/ (k <> j /\ ps !! k = Some r)).
  { intros k r. destruct (decide (k = j)) as [->|Hne]; [rewrite list_lookup_insert_eq by done|rewrite list_lookup_insert_ne by done]; naive_solver. }
  split.
  - by rewrite length_insert.
  - intros k r Hr. destruct (Hcase _ _ Hr) as [[-> ->]|[_ Hr']]; eauto.
  - intros k r Hr. destruct (Hcase _ _ Hr) as [[-> ->]|[_ Hr']]; eauto.
  - intros k l r t Hr Ht. destruct H5 as [H5 H5'].
    destruct (Hcase _ _ Hr) as [[-> ->]|[Hk Hr']], (Hcase _ _ Ht) as [[-> ->]|[Hl' Ht']]; try done.
    + intros E _. specialize (H5' _ _ Ht'). lia.
    + intros E _. specialize (H5' _ _ Hr'). lia.
    + eauto.
  - destruct H5 as [H5 H5']. split; [lia|]. intros k r Hr. destruct (Hcase _ _ Hr) as [[-> ->]|[_ Hr']]; [lia|].
    specialize (H5' _ _ Hr'). lia.
  - destruct H6 as (i0 & p0 & Hip & Hi0' & Hp0 & Ha0). exists i0, p0. split_and!; auto.
  - intros k r Hr Hu Hk. destruct (Hcase _ _ Hr) as [[-> ->]|[Hne Hr']].
    + exists i, p. split_and!; auto. intros ->. rewrite Nat2Z.id in Hi. simplify_eq. by apply alive_not_unused in Ha.
    + destruct (H7 _ _ Hr' Hu Hk) as (k' & r' & ? & ? & ? & ? & ?). exists k', r'. split_and!; auto.
Qed.

(** An entry that is not alive becomes, or stays, free. *)
Lemma table_ok_free ps ip np j x q :
  table_ok ps ip np -> ps !! j = Some x -> ~ alive x -> lock_free (p_lock q) -> slot_ok q -> p_state q = UNUSED ->
  table_ok (<[j := q]> ps) ip np.
Proof.
  intros [H1 H2 H3 H4 H5 H6 H7] Hj Hx Hl Hs Hq. pose proof (lookup_lt_Some _ _ _ Hj) as Hlt.
  assert (Hq0 : p_pid q = 0) by (unfold slot_ok in Hs; rewrite Hq in Hs; apply Hs).
  assert (Hother : forall k r, ps !! k = Some r -> alive r -> <[j := q]> ps !! k = Some r).
  { intros k r Hr Hal. rewrite list_lookup_insert_ne; [done|]. intros <-. by simplify_eq. }
  assert (Hcase : forall k r, <[j := q]> ps !! k = Some r -> (k = j /\ r = q) \/ (k <> j /\ ps !! k = Some r)).
  { intros k r. destruct (decide (k = j)) as [->|Hne]; [rewrite list_lookup_insert_eq by done|rewrite list_lookup_insert_ne by done]; naive_solver. }
  split.
  - by rewrite length_insert.
  - intros k r Hr. destruct (Hcase _ _ Hr) as [[-> ->]|[_ Hr']]; eauto.
  - intros k r Hr. destruct (Hcase _ _ Hr) as [[-> ->]|[_ Hr']]; eauto.
  - intros k l r t Hr Ht.
    destruct (Hcase _ _ Hr) as [[-> ->]|[Hk Hr']], (Hcase _ _ Ht) as [[-> ->]|[Hl' Ht']]; eauto; congruence.
  - destruct H5 as [H5 H5']. split; [lia|]. intros k r Hr. destruct (Hcase _ _ Hr) as [[-> ->]|[_ Hr']]; [lia|eauto].
  - destruct H6 as (i0 & p0 & Hip & Hi0' & Hp0 & Ha0). exists i0, p0. split_and!; auto.
  - intros k r Hr Hu Hk. destruct (Hcase _ _ Hr) as [[-> ->]|[Hne Hr']]; [done|].
    destruct (H7 _ _ Hr' Hu Hk) as (k' & r' & ? & ? & ? & ? & ?). exists k', r'. split_and!; auto.
Qed.

Lemma table_ok_next ps ip np np' : np <= np' -> table_ok ps ip np -> table_ok ps ip np'.
Proof.
  intros Hle [H1 H2 H3 H4 [H5 H5'] H6 H7]. split; try done. split; [lia|]. intros j p Hp. specialize (H5' _ _ Hp). lia.
Qed.

(** ** Exit *)

Lemma psim_trans p q r : psim p q -> psim q r -> psim p r.
Proof.
  intros [A1 A2 A3 A4 A5 A6] [B1 B2 B3 B4 B5 B6]. split; try congruence; auto.
Qed.

(** The entry of a process that has exited. *)
Definition exited (status : Z) (p : proc) : proc :=
  set_state ZOMBIE (set_xstate status (set_cwd 0 (set_ofile (replicate (Z.to_nat NOFILE) 0) p))).

Lemma exit_others_lookup base i p ip ps j x :
  ps !! j = Some x -> exists y, exit_others base i p ip ps !! j = Some y /\ psim (reparented i ip j x) y.
Proof.
  intros Hx. unfold exit_others, reparent_all. rewrite wake_all_lookup.
  destruct (has_child i ps); rewrite ?wake_all_lookup, list_lookup_imap, Hx; cbn; eexists; (split; [done|]);
    eauto using psim_wake, psim_trans.
Qed.

Lemma exit_others_back base i p ip ps j y :
  exit_others base i p ip ps !! j = Some y -> exists x, ps !! j = Some x /\ psim (reparented i ip j x) y.
Proof.
  intros Hy. destruct (lookup_lt_is_Some_2 ps j) as [x Hx].
  { rewrite <-(length_exit_others base i p ip). by eapply lookup_lt_Some. }
  destruct (exit_others_lookup base i p ip ps j x Hx) as (y' & Hy' & Hs). simplify_eq. eauto.
Qed.

Lemma reparented_fields i ip j x :
  p_lock (reparented i ip j x) = p_lock x /\ p_pid (reparented i ip j x) = p_pid x /\
  p_state (reparented i ip j x) = p_state x /\ (slot_ok x -> slot_ok (reparented i ip j x)) /\
  tokens (reparented i ip j x) = tokens x.
Proof.
  unfold reparented. case_bool_decide as E; [|done]. split_and!; try done.
  unfold slot_ok. destruct x; cbn in *. subst. destruct p_state; naive_solver.
Qed.

Lemma table_ok_exit base ps ip np i p status :
  table_ok ps ip np -> 0 <= i -> ps !! Z.to_nat i = Some p -> alive p -> ip <> Some i ->
  table_ok (<[Z.to_nat i := exited status p]> (exit_others base i p ip ps)) ip np.
Proof.
  intros [H1 H2 H3 H4 H5 H6 H7] Hi0 Hi Ha Hip. pose proof (lookup_lt_Some _ _ _ Hi) as Hlt.
  assert (Hlt' : (Z.to_nat i < length (exit_others base i p ip ps))%nat) by (by rewrite length_exit_others).
  assert (Hcase : forall k r, <[Z.to_nat i := exited status p]> (exit_others base i p ip ps) !! k = Some r ->
     (k = Z.to_nat i /\ r = exited status p) \/
     (k <> Z.to_nat i /\ exists x, ps !! k = Some x /\ psim (reparented i ip k x) r)).
  { intros k r. destruct (decide (k = Z.to_nat i)) as [->|Hne]; [rewrite list_lookup_insert_eq by done; naive_solver|].
    rewrite list_lookup_insert_ne by done. intros Hr. right. split; [done|]. by apply exit_others_back in Hr. }
  assert (Hlive : forall k r, 0 <= k -> k <> i -> ps !! Z.to_nat k = Some r -> alive r ->
     exists r', <[Z.to_nat i := exited status p]> (exit_others base i p ip ps) !! Z.to_nat k = Some r' /\ alive r').
  { intros k r Hk Hne Hr Hal. rewrite list_lookup_insert_ne by lia.
    destruct (exit_others_lookup base i p ip ps _ r Hr) as (y & Hy & Hs). exists y. split; [done|].
    apply (sim_alive _ _ Hs). unfold alive in *. by rewrite (proj1 (proj2 (proj2 (reparented_fields i ip (Z.to_nat k) r)))). }
  assert (Hpid : forall k r, <[Z.to_nat i := exited status p]> (exit_others base i p ip ps) !! k = Some r ->
     exists x, ps !! k = Some x /\ p_pid r = p_pid x /\ p_lock r = p_lock x /\ slot_ok r).
  { intros k r Hr. destruct (Hcase _ _ Hr) as [[-> ->]|(_ & x & Hx & Hs)].
    - exists p. split_and!; try done. pose proof (H3 _ _ Hi) as [Hl Hsl].
      split; [done|]. cbn. destruct Ha as [E|[E|E]]; rewrite E in Hsl; destruct Hsl as (? & ? & ? & ?); split_and!; done.
    - destruct (reparented_fields i ip k x) as (R1 & R2 & R3 & R4 & R5).
      exists x. split; [done|]. rewrite (sim_pid _ _ Hs), (sim_lock _ _ Hs). split_and!; try done.
      apply (sim_slot _ _ Hs), R4. eauto. }
  split.
  - by rewrite length_insert, length_exit_others.
  - intros k r Hr. destruct (Hpid _ _ Hr) as (x & Hx & _ & -> & _). eauto.
  - intros k r Hr. by destruct (Hpid _ _ Hr) as (x & _ & _ & _ & Hs).
  - intros k l r t Hr Ht. destruct (Hpid _ _ Hr) as (x & Hx & -> & _), (Hpid _ _ Ht) as (y & Hy & -> & _). eauto.
  - split; [apply H5|]. intros k r Hr. destruct (Hpid _ _ Hr) as (x & Hx & -> & _). by eapply H5.
  - destruct H6 as (i0 & p0 & -> & Hi0' & Hp0 & Ha0). destruct (Hlive i0 p0) as (r & Hr & Har); try done; [congruence|].
    exists i0, r. done.
  - intros k r Hr Hu Hk.
    assert (Hpar : exists k' q', p_parent r = Some k' /\ 0 <= k' /\ k' <> i /\ k' <> Z.of_nat k /\ ps !! Z.to_nat k' = Some q' /\ alive q').
    { destruct (Hcase _ _ Hr) as [[-> ->]|(Hne & x & Hx & Hs)].
      - destruct (H7 _ _ Hi) as (k' & q' & ? & ? & ? & ? & ?); [by apply alive_not_unused|done|].
        exists k', q'. split_and!; try done. intros ->. lia.
      - rewrite (sim_parent _ _ Hs). apply (sim_unused _ _ Hs) in Hu. rewrite (proj1 (proj2 (proj2 (reparented_fields i ip k x)))) in Hu.
        unfold reparented. case_bool_decide as Ep.
        + destruct H6 as (i0 & p0 & -> & Hi0' & Hp0 & Ha0). exists i0, p0. cbn. split_and!; try done; congruence.
        + destruct (H7 _ _ Hx Hu Hk) as (k' & q' & E & ? & ? & ? & ?). exists k', q'. split_and!; try done. congruence. }
    destruct Hpar as (k' & q' & E & E1 & E2 & E3 & E4 & E5). destruct (Hlive k' q') as (r' & Hr' & Har'); try done.
    exists k', r'. done.
Qed.

(** ** Resources *)

Lemma all_tokens_ext ps ps' :
  length ps' = length ps ->
  (forall j p q, ps !! j = Some p -> ps' !! j = Some q -> tokens q = tokens p) -> all_tokens ps' = all_tokens ps.
Proof.
  revert ps'; induction ps as [|p ps IH]; intros [|q ps'] Hl Ht; try done. cbn.
  rewrite (Ht 0%nat p q) by done. f_equal. apply IH; [by injection Hl|]. intros j. apply (Ht (S j)).
Qed.

Lemma tokens_insert ps j p q : ps !! j = Some p -> tokens q = tokens p -> all_tokens (<[j := q]> ps) = all_tokens ps.
Proof.
  intros Hj Ht. apply all_tokens_ext; [apply length_insert|]. intros k x y Hx Hy.
  destruct (decide (j = k)) as [<-|Hne].
  - rewrite list_lookup_insert_eq in Hy by (by eapply lookup_lt_Some). by simplify_eq.
  - rewrite list_lookup_insert_ne in Hy by done. by simplify_eq.
Qed.

Lemma tokens_wake c chan j p : tokens (wake c chan j p) = tokens p.
Proof. unfold wake. repeat case_match; done. Qed.

Lemma tokens_imap f ps : (forall j p, tokens (f j p) = tokens p) -> all_tokens (imap f ps) = all_tokens ps.
Proof.
  intros Hf. apply all_tokens_ext; [apply length_imap|]. intros j p q Hp Hq.
  rewrite list_lookup_imap, Hp in Hq. injection Hq as <-. apply Hf.
Qed.

Lemma tokens_exit_others base i p ip ps : all_tokens (exit_others base i p ip ps) = all_tokens ps.
Proof.
  unfold exit_others, reparent_all, wake_all. rewrite tokens_imap by apply tokens_wake.
  case_match; rewrite ?tokens_imap; auto using tokens_wake; intros j q; apply reparented_fields.
Qed.

(** ** Which processes run *)

Definition is_running (ps : list proc) (j : nat) : Prop := exists p, ps !! j = Some p /\ p_state p = RUNNING.

(** The processes in state RUNNING are those the CPUs run, each on one. *)
Record run_ok (ps : list proc) (cpus : list (hart * option Z)) : Prop := {
  r_pos : forall c h i, cpus !! c = Some (h, Some i) -> 0 <= i;
  r_iff : forall j, is_running ps j <-> exists c h, cpus !! c = Some (h, Some (Z.of_nat j));
  r_one : forall c c' h h' i, cpus !! c = Some (h, Some i) -> cpus !! c' = Some (h', Some i) -> c = c'
}.

(** CPU [c], running [cur], now runs [cur']: only these two change state. *)
Lemma run_ok_switch ps ps' cpus c h h' cur cur' :
  run_ok ps cpus -> cpus !! c = Some (h, cur) ->
  (forall i, cur' = Some i -> 0 <= i) ->
  (forall j, is_running ps' j <-> cur' = Some (Z.of_nat j) \/ (is_running ps j /\ cur <> Some (Z.of_nat j))) ->
  (forall i, cur' = Some i -> cur = Some i \/ ~ is_running ps (Z.to_nat i)) ->
  run_ok ps' (<[c := (h', cur')]> cpus).
Proof.
  intros [R1 R2 R3] Hc Hpos Hrun Hnew. pose proof (lookup_lt_Some _ _ _ Hc) as Hlt.
  assert (Hcase : forall d x, <[c := (h', cur')]> cpus !! d = Some x -> (d = c /\ x = (h', cur')) \/ (d <> c /\ cpus !! d = Some x)).
  { intros d x. destruct (decide (d = c)) as [->|Hne]; [rewrite list_lookup_insert_eq by done|rewrite list_lookup_insert_ne by done]; naive_solver. }
  assert (Hx : forall d hd i, d <> c -> cpus !! d = Some (hd, Some i) -> cur' = Some i -> False).
  { intros d hd i Hd Hi E. destruct (Hnew i E) as [E'|E'].
    - subst cur. apply Hd. by eapply R3.
    - apply E', R2. exists d, hd. rewrite Hi. do 2 f_equal. specialize (R1 _ _ _ Hi). f_equal. lia. }
  split.
  - intros d hd i Hd. destruct (Hcase _ _ Hd) as [[-> [= -> <-]]|[_ Hd']]; [by apply Hpos|eauto].
  - intros j. rewrite Hrun. split.
    + intros [->|[Hj Hne]].
      * exists c, h'. by rewrite list_lookup_insert_eq.
      * apply R2 in Hj as (d & hd & Hd). exists d, hd. rewrite list_lookup_insert_ne; [done|]. intros <-. congruence.
    + intros (d & hd & Hd). destruct (Hcase _ _ Hd) as [[-> [= -> <-]]|[Hne Hd']]; [by left|].
      right. split; [apply R2; eauto|]. intros ->. apply Hne. by eapply R3.
  - intros d d' hd hd' i Hd Hd'.
    destruct (Hcase _ _ Hd) as [[-> E1]|[Hne Hd1]], (Hcase _ _ Hd') as [[-> E2]|[Hne' Hd2]]; try done.
    + injection E1 as -> <-. exfalso. by eapply Hx.
    + injection E2 as -> <-. exfalso. by eapply Hx.
    + by eapply R3.
Qed.

(** ** The system *)

Record gstate (W : Type) := mkG {
  g_procs : list proc; g_init : option Z; g_next : Z; g_pl : spinlock; g_wl : spinlock;
  g_cpus : list (hart * option Z); g_env : W
}.
Arguments mkG {W} _ _ _ _ _ _ _.
Arguments g_procs {W} _.
Arguments g_init {W} _.
Arguments g_next {W} _.
Arguments g_pl {W} _.
Arguments g_wl {W} _.
Arguments g_cpus {W} _.
Arguments g_env {W} _.

(** Where a process that is switched to goes on. *)
Inductive resume := RYield | RSleep | RForkret.

Inductive kop :=
| OpFork | OpKill (pid : Z) | OpWait (addr : Z) | OpExit (status : Z) | OpYield | OpSleep (chan : Z)
| OpWakeup (chan : Z) | OpGrow (n : Z) | OpSwitch (p saved : Z) (how : resume).

Section System.
Context {W : Type} `{ProcEnvLaws W}.
Variables (proc_base forkret_addr : Z).
Notation K := (kstate W).
Notation G := (gstate W).

(** The kernel as CPU [c] sees it, and the system after it has run. *)
Definition load (g : G) (h : hart) (cur : option Z) : K :=
  mkK (g_procs g) (g_init g) (g_next g) (g_pl g) (g_wl g) h cur (g_env g).
Definition store (c : nat) (s : K) (g : G) : G :=
  mkG (procs s) (initproc s) (nextpid s) (pid_lock s) (wait_lock s) (<[c := (k_hart s, c_proc s)]> (g_cpus g)) (kenv s).

(** The scheduler takes over from a process that has switched away. *)
Definition back (me : Z) : M K unit :=
  let! p := gets c_proc in
  match p with Some p => scheduler_back me p | None => panic "null pointer" end.

Definition run_op (me : Z) (op : kop) : M K unit :=
  match op with
  | OpFork => let! _ := fork me forkret_addr in ret tt
  | OpKill pid => let! _ := kill me pid in ret tt
  | OpWait addr =>
      let! r := wait me proc_base addr in
      match r with inl _ => back me | inr _ => ret tt end
  | OpExit status => let! _ := exit me proc_base status in back me
  | OpYield => let! _ := yield me in back me
  | OpSleep chan => lock me wait_lock_lens ;; let! _ := sleep me chan wait_lock_lens in back me
  | OpWakeup chan => wakeup me chan
  | OpGrow n => let! _ := growproc n in ret tt
  | OpSwitch p saved how =>
      scheduler_round ;;
      let! b := scheduler_pick me p in
      if (b : bool) then
        match how with
        | RYield => yield_in me saved
        | RSleep => sleep_in me wait_lock_lens saved ;; unlock me wait_lock_lens
        | RForkret => forkret me false (ret tt)
        end
      else ret tt
  end.

(** A CPU with a process runs system calls, an idle one the scheduler; init
    does not exit, and there are ids left: nextpid is below 2^31 - 1. *)
Definition enabled (g : G) (cur : option Z) (op : kop) : Prop :=
  match op, cur with
  | OpSwitch p _ _, None => 0 <= p < NPROC
  | OpSwitch _ _ _, Some _ => False
  | OpFork, Some _ => g_next g < 2 ^ 31 - 1
  | OpExit _, Some i => g_init g <> Some i
  | OpGrow n, Some _ => - 2 ^ 31 <= n < 2 ^ 31
  | _, Some _ => True
  | _, None => False
  end.

(** A step is a whole operation of one CPU, run while the others are between
    operations; ProcLocks.v is about operations that overlap. *)
Inductive kstep : G -> G -> Prop :=
| kstep_op g c h cur op s' :
    g_cpus g !! c = Some (h, cur) -> enabled g cur op ->
    run_op (Z.of_nat c) op (load g h cur) = Ok tt s' ->
    kstep g (store c s' g).

Record gok (g : G) : Prop := {
  g_table : table_ok (g_procs g) (g_init g) (g_next g);
  g_lock1 : lock_free (g_pl g);
  g_lock2 : lock_free (g_wl g);
  g_harts : forall c h cur, g_cpus g !! c = Some (h, cur) -> lvl h 0;
  g_run : run_ok (g_procs g) (g_cpus g);
  g_own : owns (g_env g) (all_tokens (g_procs g))
}.

(** The invariant after an operation, from its parts. *)
Lemma gok_store g c h cur ps ip np pl wl h' cur' w :
  gok g -> g_cpus g !! c = Some (h, cur) ->
  table_ok ps ip np -> lock_free pl -> lock_free wl -> lvl h' 0 -> owns w (all_tokens ps) ->
  (forall i, cur' = Some i -> 0 <= i) ->
  (forall j, is_running ps j <-> cur' = Some (Z.of_nat j) \/ (is_running (g_procs g) j /\ cur <> Some (Z.of_nat j))) ->
  (forall i, cur' = Some i -> cur = Some i \/ ~ is_running (g_procs g) (Z.to_nat i)) ->
  gok (store c (mkK ps ip np pl wl h' cur' w) g).
Proof.
  intros Hg Hc Ht H1 H2 Hl Ho Hpos Hrun Hnew. split; try done.
  - intros d hd cd. cbn. pose proof (lookup_lt_Some _ _ _ Hc). destruct (decide (c = d)) as [<-|Hne].
    + rewrite list_lookup_insert_eq by done. by intros [= <- <-].
    + rewrite list_lookup_insert_ne by done. apply (g_harts _ Hg).
  - cbn. eapply run_ok_switch; [apply (g_run _ Hg)|done|done|done|done].
Qed.

(** An operation after which the CPU runs the same process, with the same
    processes running. *)
Lemma gok_stay g c h cur ps ip np pl wl h' w :
  gok g -> g_cpus g !! c = Some (h, cur) ->
  table_ok ps ip np -> lock_free pl -> lock_free wl -> lvl h' 0 -> owns w (all_tokens ps) ->
  (forall j, is_running ps j <-> is_running (g_procs g) j) ->
  gok (store c (mkK ps ip np pl wl h' cur w) g).
Proof.
  intros Hg Hc Ht H1 H2 Hl Ho Hrun. eapply gok_store; try done.
  - intros i ->. by eapply (r_pos _ _ (g_run _ Hg)).
  - intros j. rewrite Hrun. destruct (decide (cur = Some (Z.of_nat j))) as [->|Hne]; [|naive_solver].
    split; [naive_solver|]. intros _. apply (r_iff _ _ (g_run _ Hg)). eauto.
  - intros i ->. by left.
Qed.

End System.
