(* ===== verification/ProcSystem.v ===== *)
(** * Every operation keeps the system's invariant

    One lemma per operation of proc.c, and the theorems about every reachable
    state. *)

From S2P Require Import Prelude Spinlock Mem Riscv Kalloc Vm Proc ProcSpec ProcLife ProcInv.
Import Spinlock.

Lemma running_insert ps j p q k :
  ps !! j = Some p -> (p_state q = RUNNING <-> p_state p = RUNNING) ->
  is_running (<[j := q]> ps) k <-> is_running ps k.
Proof.
  intros Hj Hs. unfold is_running. destruct (decide (j = k)) as [<-|Hne].
  - rewrite list_lookup_insert_eq by (by eapply lookup_lt_Some). rewrite Hj. naive_solver.
  - by rewrite list_lookup_insert_ne.
Qed.

Lemma running_imap f ps k :
  (forall j p, p_state (f j p) = RUNNING <-> p_state p = RUNNING) -> is_running (imap f ps) k <-> is_running ps k.
Proof.
  intros Hf. unfold is_running. rewrite list_lookup_imap. destruct (ps !! k) as [p|]; cbn; [|done].
  specialize (Hf k p). naive_solver.
Qed.

Lemma running_wake c chan j p : p_state (wake c chan j p) = RUNNING <-> p_state p = RUNNING.
Proof.
  unfold wake. destruct (decide _); [done|]. destruct (_ && _) eqn:E; [|done]. bool_simpl.
  apply bool_decide_eq_true in H. rewrite H. done.
Qed.

Lemma running_exit_others base i p ip ps k : is_running (exit_others base i p ip ps) k <-> is_running ps k.
Proof.
  unfold exit_others, reparent_all, wake_all. rewrite running_imap by apply running_wake.
  case_match; rewrite ?running_imap; auto using running_wake; intros j q; by rewrite (proj1 (proj2 (proj2 (reparented_fields i ip j q)))).
Qed.

(** An entry that stops running. *)
Lemma running_leave ps j p q k :
  ps !! j = Some p -> p_state q <> RUNNING ->
  is_running (<[j := q]> ps) k <-> is_running ps k /\ k <> j.
Proof.
  intros Hj Hs. unfold is_running. destruct (decide (j = k)) as [<-|Hne].
  - rewrite list_lookup_insert_eq by (by eapply lookup_lt_Some). naive_solver.
  - rewrite list_lookup_insert_ne by done. naive_solver.
Qed.

Section Ops.
Context {W : Type} `{ProcEnvLaws W}.
Variables (proc_base forkret_addr : Z).
Notation K := (kstate W).
Notation G := (gstate W).
Notation run_op := (run_op proc_base forkret_addr).

(** The running process of a CPU. *)
Lemma current g c h i :
  gok (W := W) g -> g_cpus g !! c = Some (h, Some i) ->
  0 <= i /\ lvl h 0 /\ exists p, g_procs g !! Z.to_nat i = Some p /\ p_state p = RUNNING /\ slot_ok p.
Proof.
  intros Hg Hc. pose proof (r_pos _ _ (g_run _ Hg) _ _ _ Hc) as Hi. split; [done|]. split; [by eapply g_harts|].
  destruct (proj2 (r_iff _ _ (g_run _ Hg) (Z.to_nat i))) as (p & Hp & Hr).
  { exists c, h. rewrite Hc. do 2 f_equal. f_equal. lia. }
  exists p. split_and!; try done. by eapply t_slots; [apply g_table|].
Qed.

Lemma running_alive p : p_state p = RUNNING -> alive p.
Proof. unfold alive. auto. Qed.

Lemma op_kill g c h cur pid :
  gok g -> g_cpus g !! c = Some (h, cur) -> 
  wp (run_op (Z.of_nat c) (OpKill pid)) (load g h cur) (fun _ s' => gok (store c s' g)).
Proof.
  intros Hg Hc. cbn [ProcInv.run_op]. wp_step. pose proof (g_table _ Hg) as Ht.
  apply wp_kill; [apply Ht|apply Ht|by eapply g_harts|].
  intros h1 H1. destruct (list_find _ _) as [[j p]|] eqn:E; wp_step.
  - apply list_find_Some in E as (Hj & _). eapply gok_stay; try done; try apply Hg.
    + eapply table_ok_sim; [|done]. eapply tsim_insert; [done|apply psim_victim].
    + rewrite (tokens_insert _ _ p); [apply Hg|done|]. unfold victim. by case_bool_decide.
    + intros k. apply (running_insert _ _ p); [done|]. unfold victim. case_bool_decide as Es; cbn; [|done]. by rewrite Es.
  - eapply gok_stay; try done; try apply Hg.
Qed.

Lemma op_wakeup g c h cur chan :
  gok g -> g_cpus g !! c = Some (h, cur) ->
  wp (run_op (Z.of_nat c) (OpWakeup chan)) (load g h cur) (fun _ s' => gok (store c s' g)).
Proof.
  intros Hg Hc. cbn [ProcInv.run_op]. pose proof (g_table _ Hg) as Ht.
  apply (wp_wakeup _ _ _ _ _ _ _ _ _ _ 0); [|apply Ht|by eapply g_harts|lia|].
  { intros j p Hj _. by eapply (t_free _ _ _ Ht). }
  intros h1 H1. eapply gok_stay; try done; try apply Hg.
  - eapply table_ok_sim; [apply tsim_wake_all|done].
  - unfold wake_all. rewrite tokens_imap; [apply Hg|apply tokens_wake].
  - intros k. apply running_imap, running_wake.
Qed.

(** The entry of a process that has just switched away. *)
Lemma wp_back me i q lk ps ip np pl wl h (w : W) (Q : unit -> K -> Prop) :
  (Z.to_nat i < length ps)%nat -> p_lock q = lock_taken me lk -> lock_free lk -> lvl h 1 ->
  (forall h', lvl h' 0 -> Q tt (mkK (<[Z.to_nat i := set_lock lk q]> ps) ip np pl wl h' None w)) ->
  wp (back me) (mkK (<[Z.to_nat i := q]> ps) ip np pl wl h (Some i) w) Q.
Proof.
  intros Hi Hq Hf Hl HQ. unfold back, scheduler_back, set_cproc. do 2 wp_step. cbn [c_proc]. do 2 wp_step. cbn.
  by apply (wp_punlock_ins me _ _ _ _ _ _ _ _ i _ 0 lk).
Qed.

(** A running process that leaves its CPU alive. *)
Lemma gok_leave g c h i p q h' :
  gok g -> g_cpus g !! c = Some (h, Some i) -> g_procs g !! Z.to_nat i = Some p -> p_state p = RUNNING ->
  psim p q -> tokens q = tokens p -> p_state q <> RUNNING -> lvl h' 0 ->
  gok (store c (mkK (<[Z.to_nat i := q]> (g_procs g)) (g_init g) (g_next g) (g_pl g) (g_wl g) h' None (g_env g)) g).
Proof.
  intros Hg Hc Hi Hr Hs Ht Hq Hl. pose proof (r_pos _ _ (g_run _ Hg) _ _ _ Hc) as Hpos.
  eapply gok_store; try done; try apply Hg.
  - eapply table_ok_sim; [by eapply tsim_insert|apply Hg].
  - rewrite (tokens_insert _ _ p) by done. apply Hg.
  - intros j. rewrite (running_leave _ _ p) by done. split.
    + intros [Hj Hne]. right. split; [done|]. intros [= ->]. by rewrite Nat2Z.id in Hne.
    + intros [|[Hj Hne]]; [done|]. split; [done|]. intros ->. apply Hne. f_equal. lia.
Qed.

Lemma op_yield g c h i :
  gok g -> g_cpus g !! c = Some (h, Some i) ->
  wp (run_op (Z.of_nat c) OpYield) (load g h (Some i)) (fun _ s' => gok (store c s' g)).
Proof.
  intros Hg Hc. destruct (current g c h i Hg Hc) as (Hi0 & Hl & p & Hp & Hr & Hs).
  pose proof (lookup_lt_Some _ _ _ Hp) as Hlt. pose proof (t_free _ _ _ (g_table _ Hg) _ _ Hp) as Hf.
  cbn [ProcInv.run_op]. unfold yield, load. do 2 wp_step. apply (wp_me _ _ _ _ _ _ _ _ i 0); [done|lia|done|]. intros h1 H1.
  wp_step. apply (wp_plock _ _ _ _ _ _ _ _ _ i p 0); [done|done|done|lia|]. intros h2 H2.
  wp_step. apply wp_setp_ins; [done|]. apply wp_sched; [done| |done|done|].
  { unfold holding. cbn. by rewrite bool_decide_eq_true_2. }
  intros h3 sv H3. apply (wp_back _ _ _ (p_lock p)); try done. intros h4 H4.
  eapply (gok_leave g c h i p); try done.
  apply psim_state; try done; [by apply running_alive|by right; left].
Qed.

Lemma op_sleep g c h i chan :
  gok g -> g_cpus g !! c = Some (h, Some i) ->
  wp (run_op (Z.of_nat c) (OpSleep chan)) (load g h (Some i)) (fun _ s' => gok (store c s' g)).
Proof.
  intros Hg Hc. destruct (current g c h i Hg Hc) as (Hi0 & Hl & p & Hp & Hr & Hs).
  pose proof (lookup_lt_Some _ _ _ Hp) as Hlt. pose proof (t_free _ _ _ (g_table _ Hg) _ _ Hp) as Hf.
  cbn [ProcInv.run_op]. unfold sleep, load. wp_step.
  apply (wp_wlock _ _ _ _ _ _ _ _ _ 0); [done|lia|apply Hg|]. intros h0 Hh0.
  do 2 wp_step. apply (wp_me _ _ _ _ _ _ _ _ i 1); [done|lia|done|]. intros h1 H1.
  wp_step. apply (wp_plock _ _ _ _ _ _ _ _ _ i p 1); [done|done|done|lia|]. intros h2 H2.
  wp_step. apply (wp_wunlock _ _ _ _ _ _ _ _ _ (g_wl g) 1); [done|lia|done|apply Hg|]. intros h3 H3.
  do 2 (wp_step; apply wp_setp_ins; [done|]). apply wp_sched; [done| |done|done|].
  { unfold holding. cbn. by rewrite bool_decide_eq_true_2. }
  intros h4 sv H4. apply (wp_back _ _ _ (p_lock p)); try done. intros h5 H5.
  eapply (gok_leave g c h i p); try done.
  apply psim_state; try done; [by apply running_alive|by left].
Qed.

(** An entry that names no resources. *)
Lemma tokens_unused p : slot_ok p -> p_state p = UNUSED -> tokens p = [].
Proof.
  intros [_ Hs] E. rewrite E in Hs. destruct Hs as ((H1 & H2 & H3) & _ & _ & H4 & H5).
  unfold tokens. rewrite H1, H2, H4, H5. done.
Qed.

Lemma slot_ok_freed ctx x : slot_ok x -> no_files x -> slot_ok (set_context ctx (freed x)).
Proof. intros [Hl _] Hn. split; [done|]. cbn. done. Qed.

(** A free entry may be rewritten with anything that owns what it names. *)
Lemma owns_fill ps j x q (w : W) :
  ps !! j = Some x -> tokens x = [] -> owns w (tokens q ++ all_tokens ps) -> owns w (all_tokens (<[j := q]> ps)).
Proof.
  intros Hj Hx Ho. destruct (all_tokens_split ps j x Hj) as (rest & Hr & Hins).
  eapply owns_perm; [|exact Ho]. rewrite Hins, Hr, Hx. done.
Qed.

Lemma op_fork g c h i :
  gok g -> g_cpus g !! c = Some (h, Some i) -> g_next g < 2 ^ 31 - 1 ->
  wp (run_op (Z.of_nat c) OpFork) (load g h (Some i)) (fun _ s' => gok (store c s' g)).
Proof.
  intros Hg Hc Hnp. destruct (current g c h i Hg Hc) as (Hi0 & Hl & p & Hp & Hr & Hs).
  pose proof (g_table _ Hg) as Ht. assert (Hs' := Hs). destruct Hs' as [Hof Hsl]. rewrite Hr in Hsl.
  destruct Hsl as (Hpid & Htf & Hpt & Hcwd).
  assert (Hun : forall j x, list_find (fun p => p_state p = UNUSED) (g_procs g) = Some (j, x) ->
     g_procs g !! j = Some x /\ p_state x = UNUSED /\ slot_ok x /\ lock_free (p_lock x)).
  { intros j x E. apply list_find_Some in E as (Hj & Hx & _). split_and!; try done; by eapply Ht. }
  cbn [ProcInv.run_op]. wp_step.
  eapply wp_fork; try done; try apply Ht; try apply Hg; [split; [apply Ht|done]|..].
  - intros j x Hj Hx. pose proof (t_slots _ _ _ Ht _ _ Hj) as [_ Hsx]. rewrite Hx in Hsx.
    destruct Hsx as (Hb & _ & _ & Hn & _). done.
  - intros h1 H1 _. wp_step. eapply gok_stay; try done; apply Hg.
  - intros j x ctx h1 w1 H1 E Ho. destruct (Hun j x E) as (Hj & Hx & Hsx & Hfx). wp_step.
    assert (Hn : no_files x) by (destruct Hsx as [_ Hsx]; rewrite Hx in Hsx; apply Hsx).
    eapply gok_stay; try done; try apply Hg.
    + apply (table_ok_next _ _ (g_next g)); [lia|].
      eapply (table_ok_free _ _ _ j x); try done; [unfold alive; rewrite Hx; naive_solver|by apply slot_ok_freed].
    + eapply owns_fill; [done|by apply tokens_unused|]. by rewrite tokens_unused; [|apply slot_ok_freed|].
    + intros k. apply (running_insert _ _ x); [done|]. cbn. by rewrite Hx.
  - intros j x h1 w1 tf pt H1 E Htf' Hpt' Ho. destruct (Hun j x E) as (Hj & Hx & Hsx & Hfx). wp_step.
    eapply gok_stay; try done; try apply Hg.
    + eapply (table_ok_new _ _ _ i p j x); try done; [by apply running_alive|].
      split; [done|]. cbn. split_and!; try done. pose proof (t_next _ _ _ Ht). lia.
    + eapply owns_fill; [done|by apply tokens_unused|done].
    + intros k. apply (running_insert _ _ x); [done|]. cbn. by rewrite Hx.
Qed.

Lemma op_exit g c h i status :
  gok g -> g_cpus g !! c = Some (h, Some i) -> g_init g <> Some i ->
  wp (run_op (Z.of_nat c) (OpExit status)) (load g h (Some i)) (fun _ s' => gok (store c s' g)).
Proof.
  intros Hg Hc Hip. destruct (current g c h i Hg Hc) as (Hi0 & Hl & p & Hp & Hr & Hs).
  pose proof (g_table _ Hg) as Ht. assert (Hs' := Hs). destruct Hs' as [Hof Hsl]. rewrite Hr in Hsl.
  destruct Hsl as (Hpid & Htf & Hpt & Hcwd). pose proof (lookup_lt_Some _ _ _ Hp) as Hlt.
  destruct (all_tokens_split _ _ _ Hp) as (rest & Hrest & Hins).
  destruct (t_tree _ _ _ Ht _ _ Hp) as (k & q & Hpar & _ & Hk & _).
  { by rewrite Hr. } { rewrite Z2Nat.id by lia. done. }
  rewrite Z2Nat.id in Hk by lia.
  cbn [ProcInv.run_op]. wp_step.
  eapply (wp_exit _ _ _ _ p _ _ _ _ _ _ _ (TF (p_trapframe p) :: PT (p_pagetable p) (p_sz p) :: rest));
    try done; try apply Ht; try apply Hg; [congruence|..].
  { eapply owns_perm; [|apply Hg]. rewrite Hrest. unfold tokens. rewrite !tok_if_ne by done. solve_perm. }
  intros h1 w1 sv H1 Ho. apply (wp_back _ _ _ (p_lock p)); try done.
  { by rewrite length_exit_others. }
  { by eapply Ht. }
  intros h2 H2. replace (set_lock (p_lock p) (zombie (Z.of_nat c) status p)) with (exited status p) by (by destruct p).
  assert (Hself : exit_others proc_base i p (g_init g) (g_procs g) !! Z.to_nat i = Some p).
  { apply exit_others_self; [done|done|congruence]. }
  eapply gok_store; try done; try apply Hg.
  - apply table_ok_exit; try done. by apply running_alive.
  - eapply owns_perm; [|exact Ho].
    destruct (all_tokens_split _ _ _ Hself) as (rest' & Hrest' & Hins').
    rewrite tokens_exit_others, Hrest in Hrest'. apply Permutation_app_inv_l in Hrest'.
    rewrite Hins', <-Hrest'. unfold tokens, exited. pcbn. rewrite !tok_if_ne by done. rewrite tok_if_0.
    replace (file_tokens (replicate _ 0)) with (@nil token) by done. done.
  - intros j. rewrite (running_leave _ _ p) by done. rewrite running_exit_others. split.
    + intros [Hj Hne]. right. split; [done|]. intros [= ->]. by rewrite Nat2Z.id in Hne.
    + intros [|[Hj Hne]]; [done|]. split; [done|]. intros ->. apply Hne. f_equal. lia.
Qed.

Lemma elem_all_tokens t ps j p : ps !! j = Some p -> t ∈ tokens p -> t ∈ all_tokens ps.
Proof.
  intros Hj Ht. destruct (all_tokens_split ps j p Hj) as (rest & Hr & _). rewrite Hr. apply elem_of_app. by left.
Qed.

(** What wait() gives back when it reaps [x]. *)
Lemma wait_resources g c h i p j x :
  gok g -> g_cpus g !! c = Some (h, Some i) -> g_procs g !! Z.to_nat i = Some p ->
  list_find (exited_child i) (g_procs g) = Some (j, x) ->
  exists rest, Z.to_nat i <> j /\ p_trapframe x <> 0 /\ p_pagetable x <> 0 /\
    owns (g_env g) (PT (p_pagetable p) (p_sz p) :: TF (p_trapframe x) :: PT (p_pagetable x) (p_sz x) :: rest).
Proof.
  intros Hg Hc Hp E. destruct (current g c h i Hg Hc) as (Hi0 & Hl & p' & Hp' & Hr & Hs).
  assert (p' = p) as -> by congruence. pose proof (g_table _ Hg) as Ht.
  apply list_find_Some in E as (Hj & [Hpar Hz] & _).
  assert (Hne : Z.to_nat i <> j) by congruence. pose proof (t_slots _ _ _ Ht _ _ Hj) as Hsx.
  assert (Hsx' := Hsx). destruct Hsx' as [Hlx Hsx']. rewrite Hz in Hsx'. destruct Hsx' as (Hpx & Htx & Hptx & Hnf).
  destruct (all_tokens_split _ _ _ Hj) as (rest1 & Hr1 & Hins).
  assert (Hx : tokens x = [TF (p_trapframe x); PT (p_pagetable x) (p_sz x)]).
  { unfold tokens. destruct Hnf as [-> ->]. rewrite !tok_if_ne by done. done. }
  assert (Hfr : tokens (freed x) = []).
  { unfold tokens, freed. pcbn. destruct Hnf as [-> ->]. done. }
  destruct Hs as [Hof Hsl]. rewrite Hr in Hsl. destruct Hsl as (Hpid & Htf & Hpt & Hcwd).
  assert (Hin : PT (p_pagetable p) (p_sz p) ∈ rest1).
  { assert (Hin' : PT (p_pagetable p) (p_sz p) ∈ all_tokens (<[j := freed x]> (g_procs g))).
    { eapply (elem_all_tokens _ _ (Z.to_nat i) p); [by rewrite list_lookup_insert_ne|]. unfold tokens.
      rewrite !tok_if_ne by done. tok_in. }
    rewrite Hins, Hfr in Hin'. done. }
  apply elem_of_Permutation in Hin as [rest Hrest].
  exists rest. split_and!; try done. eapply owns_perm; [|apply Hg]. rewrite Hr1, Hx, Hrest. solve_perm.
Qed.

Lemma op_wait g c h i addr :
  gok g -> g_cpus g !! c = Some (h, Some i) ->
  wp (run_op (Z.of_nat c) (OpWait addr)) (load g h (Some i)) (fun _ s' => gok (store c s' g)).
Proof.
  intros Hg Hc. destruct (current g c h i Hg Hc) as (Hi0 & Hl & p & Hp & Hr & Hs).
  pose proof (g_table _ Hg) as Ht. pose proof (lookup_lt_Some _ _ _ Hp) as Hlt.
  pose proof (t_free _ _ _ Ht _ _ Hp) as Hf.
  cbn [ProcInv.run_op]. unfold wait, load. do 2 wp_step. apply (wp_me _ _ _ _ _ _ _ _ i 0); [done|lia|done|]. intros h1 H1.
  wp_step. apply (wp_wlock _ _ _ _ _ _ _ _ _ 0); [done|lia|apply Hg|]. intros h2 H2. unfold wait_round. wp_step.
  destruct (list_find (exited_child i) (g_procs g)) as [[j x]|] eqn:E.
  - assert (E' := E). apply list_find_Some in E' as (Hj & [Hpar Hz] & _).
    assert (Hne : Z.to_nat i <> j) by congruence. pose proof (t_slots _ _ _ Ht _ _ Hj) as Hsx.
    assert (Hsx' := Hsx). destruct Hsx' as [Hlx Hsx']. rewrite Hz in Hsx'. destruct Hsx' as (Hpx & Htx & Hptx & Hnf).
    destruct (all_tokens_split _ _ _ Hj) as (rest1 & Hr1 & Hins).
    assert (Hx : tokens x = [TF (p_trapframe x); PT (p_pagetable x) (p_sz x)]).
    { unfold tokens. destruct Hnf as [-> ->]. rewrite !tok_if_ne by done. done. }
    assert (Hfr : tokens (freed x) = []).
    { unfold tokens, freed. pcbn. destruct Hnf as [-> ->]. done. }
    destruct Hs as [Hof Hsl]. rewrite Hr in Hsl. destruct Hsl as (Hpid & Htf & Hpt & Hcwd).
    assert (Hin : PT (p_pagetable p) (p_sz p) ∈ rest1).
    { assert (Hin' : PT (p_pagetable p) (p_sz p) ∈ all_tokens (<[j := freed x]> (g_procs g))).
      { eapply (elem_all_tokens _ _ (Z.to_nat i) p); [by rewrite list_lookup_insert_ne|]. unfold tokens.
        rewrite !tok_if_ne by done. tok_in. }
      rewrite Hins, Hfr in Hin'. done. }
    apply elem_of_Permutation in Hin as [rest Hrest].
    eapply (wp_wait_scan_some _ i p addr j x _ _ _ _ _ (g_wl g) _ _ rest); try done; try apply Ht; try apply Hg.
    + eapply owns_perm; [|apply Hg]. rewrite Hr1, Hx, Hrest. solve_perm.
    + intros h3 w3 rc H3 _ _ _ Ho. do 2 wp_step. eapply gok_stay; try done; try apply Hg.
      eapply owns_perm; [|exact Ho]. rewrite Hr1, Hx, Hrest. solve_perm.
    + intros h3 w3 H3 _ Ho. do 2 wp_step. eapply gok_stay; try done; try apply Hg.
      * eapply (table_ok_free _ _ _ j x); try done; [by intros ?%alive_not_zombie|apply (t_free _ _ _ Ht _ _ Hj)].
      * eapply owns_perm; [|exact Ho]. by rewrite Hins, Hfr, Hrest.
      * intros k. apply (running_insert _ _ x); [done|]. cbn. by rewrite Hz.
  - apply wp_wait_scan_none; [apply Ht|apply Ht|done|done|]. intros h3 H3. wp_step.
    assert (Hfail : forall h4, lvl h4 1 ->
      wp (unlock (Z.of_nat c) wait_lock_lens ;; ret (inr (-1)))
        (mkK (g_procs g) (g_init g) (g_next g) (g_pl g) (lock_taken (Z.of_nat c) (g_wl g)) h4 (Some i) (g_env g))
        (fun (a : Z + Z) s' => wp (match a with inl _ => back (Z.of_nat c) | inr _ => ret tt end) s' (fun _ s' => gok (store c s' g)))).
    { intros h4 H4. wp_step. apply (wp_wunlock _ _ _ _ _ _ _ _ _ (g_wl g) 0); [done|lia|done|apply Hg|]. intros h5 H5.
      do 2 wp_step. eapply gok_stay; try done; apply Hg. }
    destruct (has_child i (g_procs g)); cbn [negb].
    + eapply (wp_killed _ i p _ _ _ _ _ _ _ _ 1); [done|done|done|lia|]. intros h4 H4.
      destruct (Z.eqb_spec (p_killed p) 0) as [Ek|Ek]; cbn [negb]; [|by apply Hfail].
      unfold sleep. do 2 wp_step. apply (wp_me _ _ _ _ _ _ _ _ i 1); [done|lia|done|]. intros h5 H5.
      wp_step. apply (wp_plock _ _ _ _ _ _ _ _ _ i p 1); [done|done|done|lia|]. intros h6 H6.
      wp_step. apply (wp_wunlock _ _ _ _ _ _ _ _ _ (g_wl g) 1); [done|lia|done|apply Hg|]. intros h7 H7.
      do 2 (wp_step; apply wp_setp_ins; [done|]). apply wp_sched; [done| |done|done|].
      { unfold holding. cbn. by rewrite bool_decide_eq_true_2. }
      intros h8 sv H8. wp_step. apply (wp_back _ _ _ (p_lock p)); try done. intros h9 H9.
      eapply (gok_leave g c h i p); try done.
      apply psim_state; try done; [by apply running_alive|by left].
    + wp_step. cbn [Z.eqb negb]. by apply Hfail.
Qed.

Lemma op_grow g c h i n :
  gok g -> g_cpus g !! c = Some (h, Some i) -> - 2 ^ 31 <= n < 2 ^ 31 ->
  wp (run_op (Z.of_nat c) (OpGrow n)) (load g h (Some i)) (fun _ s' => gok (store c s' g)).
Proof.
  intros Hg Hc Hn. destruct (current g c h i Hg Hc) as (Hi0 & Hl & p & Hp & Hr & Hs).
  pose proof (g_table _ Hg) as Ht. assert (Hs' := Hs). destruct Hs' as [Hof Hsl]. rewrite Hr in Hsl.
  destruct Hsl as (Hpid & Htf & Hpt & Hcwd).
  destruct (all_tokens_split _ _ _ Hp) as (rest & Hrest & Hins).
  assert (Htk : forall sz, tokens (set_sz sz p) ++ rest ≡ₚ PT (p_pagetable p) sz :: TF (p_trapframe p) :: file_tokens (p_ofile p) ++ CWD (p_cwd p) :: rest).
  { intros sz. unfold tokens. pcbn. rewrite !tok_if_ne by done. solve_perm. }
  assert (Ho : owns (g_env g) (PT (p_pagetable p) (p_sz p) :: TF (p_trapframe p) :: file_tokens (p_ofile p) ++ CWD (p_cwd p) :: rest)).
  { eapply owns_perm; [|apply Hg]. rewrite Hrest. rewrite <-Htk. by destruct p. }
  assert (Hfin : forall sz w' h', lvl h' 0 ->
    owns w' (PT (p_pagetable p) sz :: TF (p_trapframe p) :: file_tokens (p_ofile p) ++ CWD (p_cwd p) :: rest) ->
    gok (store c (mkK (<[Z.to_nat i := set_sz sz p]> (g_procs g)) (g_init g) (g_next g) (g_pl g) (g_wl g) h' (Some i) w') g)).
  { intros sz w' h' Hh' Ho'. eapply gok_stay; try done; try apply Hg.
    - eapply table_ok_sim; [eapply tsim_insert; [done|]|done]. apply psim_state; try done; by apply running_alive.
    - eapply owns_perm; [|exact Ho']. by rewrite Hins, Htk.
    - intros k. by apply (running_insert _ _ p). }
  cbn [ProcInv.run_op]. unfold growproc, load. do 2 wp_step. apply (wp_me _ _ _ _ _ _ _ _ i 0); [done|lia|done|]. intros h1 H1.
  do 2 (wp_step; eapply wp_getp; [done|]). destruct (Z.ltb_spec 0 n) as [Hpos|Hneg].
  - wp_step. apply wp_env. eapply wp_mono; [apply law_uvmalloc; [exact Ho|lia]|].
    intros r w1 [[-> Ho1]|(-> & Hr0 & Ho1)]; cbn beta.
    + cbn [Z.eqb]. do 2 wp_step. eapply gok_stay; try done; try apply Hg.
      eapply owns_perm; [|exact Ho1]. rewrite Hrest, <-Htk. by destruct p.
    + rewrite (proj2 (Z.eqb_neq _ _)) by lia. wp_step. eapply wp_setp; [done|]. do 2 wp_step. by apply Hfin.
  - destruct (Z.ltb_spec n 0) as [Hlt|Hz].
    + wp_step. apply wp_env. eapply wp_mono; [apply law_uvmdealloc; [exact Ho|lia]|].
      intros r w1 [_ Ho1]. cbn beta. wp_step. eapply wp_setp; [done|]. do 2 wp_step. by apply Hfin.
    + wp_step. eapply wp_setp; [done|]. do 2 wp_step. by apply Hfin.
Qed.

Lemma lvl_intena h n v : lvl h n -> lvl (mkHart (sstatus h) (noff h) v) n.
Proof. intros [(H1 & H2 & H3) H4]. split; [split_and!|]; done. Qed.

Lemma lvl_intr_on h : lvl h 0 -> lvl (set_sstatus (Z.lor (sstatus h) SSTATUS_SIE) h) 0.
Proof.
  intros [(H1 & H2 & H3) H4]. split; [split_and!|]; cbn; try done; [|lia]. apply Z.lor_nonneg. done.
Qed.

(** Switching to a runnable process, wherever it left off. *)
Lemma op_switch g c h k saved how :
  gok g -> g_cpus g !! c = Some (h, None) -> 0 <= k < NPROC ->
  wp (run_op (Z.of_nat c) (OpSwitch k saved how)) (load g h None) (fun _ s' => gok (store c s' g)).
Proof.
  intros Hg Hc Hk. pose proof (g_table _ Hg) as Ht. pose proof (g_harts _ Hg _ _ _ Hc) as Hl.
  destruct (lookup_lt_is_Some_2 (g_procs g) (Z.to_nat k)) as [p Hp]; [rewrite (t_len _ _ _ Ht); lia|].
  pose proof (lookup_lt_Some _ _ _ Hp) as Hlt. pose proof (t_free _ _ _ Ht _ _ Hp) as Hf.
  cbn [ProcInv.run_op]. unfold load, scheduler_round, scheduler_pick, intr_on. wp_step. apply wp_zoom. wp_step.
  cbn [view put hart_lens k_hart procs initproc nextpid pid_lock wait_lock c_proc kenv].
  pose proof (lvl_intr_on _ Hl) as Hl1. set (h0 := set_sstatus _ h) in *. clearbody h0.
  do 2 wp_step. apply (wp_plock _ _ _ _ _ _ _ _ _ k p 0); [done|done|done|lia|]. intros h1 H1.
  wp_step. apply wp_getp_ins; [done|]. pcbn. case_bool_decide as Es.
  2: { wp_step. apply (wp_punlock_ins _ _ _ _ _ _ _ _ _ k _ 0 (p_lock p)); try done. intros h2 H2. do 2 wp_step.
       rewrite list_insert_id by (rewrite Hp; by destruct p). eapply gok_stay; try done; apply Hg. }
  wp_step. apply wp_setp_ins; [done|]. unfold set_cproc. do 3 wp_step.
  cbn [procs initproc nextpid pid_lock wait_lock k_hart kenv].
  assert (Hfin : forall q h', lvl h' 0 -> psim p q -> tokens q = tokens p -> p_state q = RUNNING ->
    gok (store c (mkK (<[Z.to_nat k := q]> (g_procs g)) (g_init g) (g_next g) (g_pl g) (g_wl g) h' (Some k) (g_env g)) g)).
  { intros q h' Hh' Hsim Htok Hq. eapply gok_store; try done; try apply Hg.
    - eapply table_ok_sim; [by eapply tsim_insert|done].
    - rewrite (tokens_insert _ _ p) by done. apply Hg.
    - intros i [= <-]. lia.
    - intros j. unfold is_running. destruct (decide (Z.to_nat k = j)) as [<-|Hne].
      + rewrite list_lookup_insert_eq by done. rewrite Z2Nat.id by lia. naive_solver.
      + rewrite list_lookup_insert_ne by done. split; [naive_solver|]. intros [[= ->]|[? _]]; [lia|done].
    - intros i [= <-]. right. intros (p' & Hp' & Hr'). simplify_eq. congruence. }
  assert (Halive : alive p) by (right; by left).
  destruct how.
  - unfold yield_in, sched_in. wp_step. apply wp_zoom. wp_step.
    cbn [view put hart_lens k_hart procs initproc nextpid pid_lock wait_lock c_proc kenv].
    wp_step. apply (wp_me _ _ _ _ _ _ _ _ k 1); [by apply lvl_intena|lia|done|]. intros h2 H2.
    apply (wp_punlock_ins _ _ _ _ _ _ _ _ _ k _ 0 (p_lock p)); try done. intros h3 H3.
    apply Hfin; try done. apply psim_state; try done. by apply running_alive.
  - unfold sleep_in, sched_in. do 2 wp_step. apply wp_zoom. wp_step.
    cbn [view put hart_lens k_hart procs initproc nextpid pid_lock wait_lock c_proc kenv].
    wp_step. apply (wp_me _ _ _ _ _ _ _ _ k 1); [by apply lvl_intena|lia|done|]. intros h2 H2.
    wp_step. apply wp_setp_ins; [done|].
    wp_step. apply (wp_punlock_ins _ _ _ _ _ _ _ _ _ k _ 0 (p_lock p)); try done. intros h3 H3.
    apply (wp_wlock _ _ _ _ _ _ _ _ _ 0); [done|lia|apply Hg|]. intros h4 H4.
    apply (wp_wunlock _ _ _ _ _ _ _ _ _ (g_wl g) 0); [done|lia|done|apply Hg|]. intros h5 H5.
    apply Hfin; try done. apply psim_state; try done. by apply running_alive.
  - unfold forkret. wp_step. apply (wp_me _ _ _ _ _ _ _ _ k 1); [done|lia|done|]. intros h2 H2.
    wp_step. apply (wp_punlock_ins _ _ _ _ _ _ _ _ _ k _ 0 (p_lock p)); try done. intros h3 H3. wp_step.
    apply Hfin; try done. apply psim_state; try done. by apply running_alive.
Qed.

(** Every operation a CPU can start returns, and keeps the invariant. *)
Lemma op_ok g c h cur op :
  gok g -> g_cpus g !! c = Some (h, cur) -> enabled g cur op ->
  wp (run_op (Z.of_nat c) op) (load g h cur) (fun _ s' => gok (store c s' g)).
Proof.
  intros Hg Hc He. destruct op, cur as [i|]; try done; cbn in He;
    eauto using op_fork, op_kill, op_wait, op_exit, op_yield, op_sleep, op_wakeup, op_grow, op_switch.
Qed.

Lemma gok_step g g' : gok g -> kstep proc_base forkret_addr g g' -> gok g'.
Proof.
  intros Hg Hs. destruct Hs as [g c h cur op s' Hc He Hrun].
  pose proof (op_ok g c h cur op Hg Hc He) as Hw. unfold wp in Hw. by rewrite Hrun in Hw.
Qed.

Lemma gok_reach g g' : gok g -> rtc (kstep proc_base forkret_addr) g g' -> gok g'.
Proof. intros Hg Hr. induction Hr; eauto using gok_step. Qed.

End Ops.
