(* ===== verification/ProcLocks.v ===== *)
(** * The locks of the process table (kernel/proc.c)

    Which locks the routines of proc.c hold when they wait for another one, and
    which variables they change.  Here the state is any state: other CPUs may
    hold any of the locks and be in the middle of any routine.  The order of
    the locks is the one the comments of proc.c and proc.h ask for: wait_lock
    before any p->lock, p->lock before pid_lock, one p->lock at a time.  The
    routines are followed with a logic of their own, [follows], whose abstract
    state is the list of the locks this CPU holds; it says nothing of what a
    routine returns, and so covers every branch. *)

From S2P Require Import Prelude Spinlock Mem Riscv Kalloc Vm Proc ProcSpec ProcLife ProcInv.
Import Spinlock.

(** The locks of proc.c: wait_lock, pid_lock and p->lock of an entry. *)
Inductive lockid := LWait | LPid | LEntry (i : nat).

Definition name_of (l : lockid) : string :=
  match l with LWait => "wait_lock" | LPid => "nextpid" | LEntry _ => "proc" end.

(** The place of a lock in the order, by its name; the locks of the rest of
    the kernel come last. *)
Definition rank (name : string) : nat :=
  if bool_decide (name = "wait_lock") then 0
  else if bool_decide (name = "proc") then 1
  else if bool_decide (name = "nextpid") then 2
  else 3.

Section Locks.
Context {W : Type} `{PE : ProcEnv W}.
Variable me : Z.
Notation K := (kstate W).
Implicit Types (s : K) (l : lockid).

Definition lock_of s l : option spinlock :=
  match l with
  | LWait => Some (wait_lock s)
  | LPid => Some (pid_lock s)
  | LEntry i => p_lock <$> procs s !! i
  end.

Definition mine s l : Prop := exists lk, lock_of s l = Some lk /\ holding me lk = true.
(** Another CPU holds the lock. *)
Definition foreign s l : Prop := exists lk, lock_of s l = Some lk /\ locked lk <> 0 /\ holding me lk = false.

(** The fields of an entry that p->lock protects (proc.h). *)
Definition guarded (p : proc) : procstate * Z * Z * Z * Z := (p_state p, p_chan p, p_killed p, p_xstate p, p_pid p).

(** From [s] to [s'] nothing has changed that another CPU has locked: not the
    lock, not nextpid under pid_lock, not the guarded fields of an entry. *)
Definition respects s s' : Prop :=
  forall l, foreign s l -> lock_of s' l = lock_of s l /\
    match l with
    | LWait => True
    | LPid => nextpid s' = nextpid s
    | LEntry i => guarded <$> procs s' !! i = guarded <$> procs s !! i
    end.

(** What is known of the state: the locks in [fst v] are those this CPU holds,
    and it runs the process [snd v]. *)
Record at_locks (v : list lockid * option Z) s : Prop := {
  al_len : length (procs s) = Z.to_nat NPROC;
  al_cur : c_proc s = snd v;
  al_range : forall p, snd v = Some p -> 0 <= p < NPROC;
  al_name : forall l lk, lock_of s l = Some lk -> lk_name lk = name_of l;
  al_mine : forall l, mine s l <-> l ∈ fst v
}.

(** Every lock held comes before the lock [name]. *)
Definition below (name : string) (H : list lockid) : Prop := Forall (fun k => rank (name_of k) < rank name)%nat H.

(** From a state described by [v], [m] respects the other CPUs' locks, waits
    only for locks above those it holds, and when it returns [Q] holds. *)
Definition follows {A} (v : list lockid * option Z) (m : M K A) (Q : A -> list lockid * option Z -> Prop) : Prop :=
  forall s, at_locks v s ->
    match m s with
    | Ok a s' => exists v', Q a v' /\ at_locks v' s' /\ respects s s'
    | Spin name s' => exists v', below name (fst v') /\ at_locks v' s' /\ respects s s'
    | _ => True
    end.

Lemma below_nin l H : below (name_of l) H -> l ∉ H.
Proof. unfold below. rewrite list.Forall_forall. intros Hb Hin. specialize (Hb _ Hin). lia. Qed.

Lemma respects_refl s : respects s s.
Proof. intros l _. split; [done|]. by destruct l. Qed.

Lemma respects_trans s s1 s2 : respects s s1 -> respects s1 s2 -> respects s s2.
Proof.
  intros H1 H2 l Hf. destruct (H1 l Hf) as [E1 G1].
  assert (Hf1 : foreign s1 l) by (destruct Hf as (lk & E & F); exists lk; by rewrite E1).
  destruct (H2 l Hf1) as [E2 G2]. split; [congruence|]. destruct l; congruence.
Qed.

(** ** The rules *)

Lemma follows_ret {A} v (a : A) (Q : A -> list lockid * option Z -> Prop) : Q a v -> follows v (ret a) Q.
Proof. intros HQ s Hs. exists v. split; [done|]. split; [done|apply respects_refl]. Qed.

Lemma follows_bind {A B} v (m : M K A) (k : A -> M K B) Q :
  follows v m (fun a v' => follows v' (k a) Q) -> follows v (bind m k) Q.
Proof.
  intros Hm s Hs. specialize (Hm s Hs). unfold bind. destruct (m s) as [a s1|e|c s1|n s1|]; try done.
  destruct Hm as (v1 & Hk & H1 & R1). specialize (Hk s1 H1). destruct (k a s1) as [b s2|e|c s2|n s2|]; try done;
    destruct Hk as (v2 & HQ & H2 & R2); exists v2; (split; [done|]); (split; [done|]); by eapply respects_trans.
Qed.

Lemma follows_mono {A} v (m : M K A) (P Q : A -> list lockid * option Z -> Prop) :
  follows v m P -> (forall a v', P a v' -> Q a v') -> follows v m Q.
Proof.
  intros Hm HPQ s Hs. specialize (Hm s Hs). destruct (m s); try done. destruct Hm as (v' & HP & Hr). exists v'. by auto.
Qed.

Lemma follows_gets {A} v (f : K -> A) (Q : A -> list lockid * option Z -> Prop) : (forall a, Q a v) -> follows v (gets f) Q.
Proof. intros HQ s Hs. exists v. split; [apply HQ|]. split; [done|apply respects_refl]. Qed.

Lemma follows_cproc v (Q : option Z -> list lockid * option Z -> Prop) : Q (snd v) v -> follows v (gets c_proc) Q.
Proof. intros HQ s Hs. exists v. split; [by rewrite (al_cur _ _ Hs)|]. split; [done|apply respects_refl]. Qed.

Lemma follows_panic {A} v e (Q : A -> list lockid * option Z -> Prop) : follows v (panic e) Q.
Proof. by intros s Hs. Qed.

Lemma follows_when v b (m : M K unit) (Q : unit -> list lockid * option Z -> Prop) :
  follows v m Q -> Q tt v -> follows v (when b m) Q.
Proof. intros Hm HQ. destruct b; [done|by apply follows_ret]. Qed.

Lemma follows_loop {A B} (I : A -> list lockid * option Z -> Prop) (body : A -> M K (A + B)) (Q : B -> list lockid * option Z -> Prop) :
  (forall a v, I a v -> follows v (body a) (fun r v' => match r with inl a' => I a' v' | inr b => Q b v' end)) ->
  forall fuel a v, I a v -> follows v (loop fuel body a) Q.
Proof.
  intros Hb fuel. induction fuel as [|fuel IH]; intros a v HI; [by intros s Hs|]. rewrite loop_S. apply follows_bind.
  eapply follows_mono; [by apply Hb|]. intros [a'|b] v' Hr; [by apply IH|by apply follows_ret].
Qed.

Lemma follows_range v n body (Q : unit -> list lockid * option Z -> Prop) : forall lo,
  (forall i, lo <= i < lo + Z.of_nat n -> follows v (body i) (fun _ v' => v' = v)) -> Q tt v -> follows v (for_range n lo body) Q.
Proof.
  induction n as [|n IH]; intros lo Hb HQ; cbn [for_range]; [by apply follows_ret|]. apply follows_bind.
  eapply follows_mono; [apply Hb; lia|]. intros [] v' ->. apply IH; [|done]. intros i Hi. apply Hb. lia.
Qed.

(** A step outside the process table. *)
Definition same_table s s' : Prop :=
  procs s' = procs s /\ nextpid s' = nextpid s /\ pid_lock s' = pid_lock s /\ wait_lock s' = wait_lock s /\ c_proc s' = c_proc s.

Lemma same_lock_of s s' l : same_table s s' -> lock_of s' l = lock_of s l.
Proof. intros (E1 & _ & E2 & E3 & _). destruct l; cbn; congruence. Qed.

Lemma at_locks_same v s s' : same_table s s' -> at_locks v s -> at_locks v s' /\ respects s s'.
Proof.
  intros Hs [A1 A2 A3 A4 A5]. pose proof Hs as (E1 & E2 & _ & _ & E5). split.
  - split; [congruence|congruence|done| |].
    + intros l lk. rewrite (same_lock_of s) by done. apply A4.
    + intros l. unfold mine. rewrite (same_lock_of s) by done. apply A5.
  - intros l _. split; [by apply same_lock_of|]. destruct l; [done|congruence|by rewrite E1].
Qed.

Lemma follows_hart {A} v (m : M hart A) (Q : A -> list lockid * option Z -> Prop) :
  (forall h n h', m h <> Spin n h') -> (forall a, Q a v) -> follows v (zoom hart_lens m) Q.
Proof.
  intros Hn HQ s Hs. unfold zoom. specialize (Hn (view hart_lens s)). destruct (m (view hart_lens s)) as [a h| | |n h|]; try done; [|by destruct (Hn n h)].
  exists v. split; [done|]. by apply at_locks_same.
Qed.

(** The calls into the rest of the kernel. *)
Inductive env_call : forall A, M W A -> Prop :=
| ec_kalloc : env_call Z env_kalloc
| ec_kfree a : env_call unit (env_kfree a)
| ec_pagetable a : env_call Z (env_proc_pagetable a)
| ec_freepagetable a b : env_call unit (env_proc_freepagetable a b)
| ec_uvmalloc a b c d : env_call Z (env_uvmalloc a b c d)
| ec_uvmdealloc a b c : env_call Z (env_uvmdealloc a b c)
| ec_uvmcopy a b c : env_call Z (env_uvmcopy a b c)
| ec_copyout a b c : env_call Z (env_copyout a b c)
| ec_tf_copy a b : env_call unit (env_tf_copy a b)
| ec_tf_set a b c : env_call unit (env_tf_set a b c)
| ec_filedup a : env_call Z (env_filedup a)
| ec_fileclose a : env_call unit (env_fileclose a)
| ec_idup a : env_call Z (env_idup a)
| ec_iput a : env_call unit (env_iput a).

(** The rest of the kernel has locks of its own: what it waits for is none of
    the locks of proc.c. *)
Class EnvLocks : Prop :=
  env_spin : forall A (m : M W A) w n w', env_call A m -> m w = Spin n w' -> rank n = 3%nat.

Context {EL : EnvLocks}.

Lemma rank_name l : (rank (name_of l) < 3)%nat.
Proof. destruct l; vm_compute; lia. Qed.

Lemma follows_env {A} v (m : M W A) (Q : A -> list lockid * option Z -> Prop) :
  env_call A m -> (forall a, Q a v) -> follows v (env m) Q.
Proof.
  intros Hm HQ s Hs. unfold env, zoom. destruct (m (view env_lens s)) as [a w| | |n w|] eqn:E; try done; exists v; (split; [|by apply at_locks_same]).
  - done.
  - apply env_spin in E; [|done]. apply Forall_forall. intros l _. rewrite E. apply rank_name.
Qed.

#[local] Instance lockid_eq_dec : EqDecision lockid.
Proof. solve_decision. Defined.

(** Changing an entry: its lock stays, and the guarded fields change only
    under the entry's lock. *)
Lemma lock_of_setp i f s l : (forall p, p_lock (f p) = p_lock p) -> lock_of (set_procs (alter f i) s) l = lock_of s l.
Proof.
  intros Hf. destruct l as [| |j]; [done|done|]. cbn. destruct (decide (i = j)) as [->|Hne].
  - rewrite list_lookup_alter_eq. destruct (procs s !! j); cbn; [by rewrite Hf|done].
  - by rewrite list_lookup_alter_ne.
Qed.

Lemma follows_setp H cur i f (Q : unit -> list lockid * option Z -> Prop) :
  (forall p, p_lock (f p) = p_lock p) -> (forall p, guarded (f p) = guarded p) \/ LEntry (Z.to_nat i) ∈ H ->
  Q tt (H, cur) -> follows (H, cur) (setp i f) Q.
Proof.
  intros Hl Hg HQ s [A1 A2 A3 A4 A5]. unfold setp, modify. exists (H, cur). split; [done|]. split; [split|].
  - cbn. by rewrite length_alter.
  - done.
  - done.
  - intros l lk. rewrite lock_of_setp by done. apply A4.
  - intros l. unfold mine. rewrite lock_of_setp by done. apply A5.
  - intros l Hf. split; [by apply lock_of_setp|]. destruct l as [| |j]; [done|done|]. cbn.
    destruct (decide (Z.to_nat i = j)) as [<-|Hne]; [|by rewrite list_lookup_alter_ne].
    destruct Hg as [Hg|Hg].
    + rewrite list_lookup_alter_eq. destruct (procs s !! Z.to_nat i); cbn; [by rewrite Hg|done].
    + apply A5 in Hg. destruct Hg as (lk & E & Hh), Hf as (lk' & E' & _ & Hh'). congruence.
Qed.

Lemma follows_nextpid H cur x (Q : unit -> list lockid * option Z -> Prop) :
  LPid ∈ H -> Q tt (H, cur) -> follows (H, cur) (set_nextpid x) Q.
Proof.
  intros Hin HQ s [A1 A2 A3 A4 A5]. exists (H, cur). split; [done|]. split; [by split|]. intros l Hf. split; [done|]. destruct l as [| |j]; [done| |done].
  apply A5 in Hin. destruct Hin as (lk & E & Hh), Hf as (lk' & E' & _ & Hh'). congruence.
Qed.

Lemma follows_set_cproc H cur x (Q : unit -> list lockid * option Z -> Prop) :
  (forall p, x = Some p -> 0 <= p < NPROC) -> Q tt (H, x) -> follows (H, cur) (set_cproc x) Q.
Proof. intros Hx HQ s [A1 A2 A3 A4 A5]. exists (H, x). split; [done|]. split; [by split|]. intros l _. split; [done|]. by destruct l. Qed.

(** A lens that is the lock [l], and no other variable of the table. *)
Record is_lock (ls : lens K spinlock) l : Prop := {
  il_view : forall s, length (procs s) = Z.to_nat NPROC -> lock_of s l = Some (view ls s);
  il_put : forall s lk k, length (procs s) = Z.to_nat NPROC -> lock_of (put ls lk s) k = if decide (k = l) then Some lk else lock_of s k;
  il_rest : forall s lk, length (procs (put ls lk s)) = length (procs s) /\ nextpid (put ls lk s) = nextpid s /\ c_proc (put ls lk s) = c_proc s /\
    forall i, guarded <$> procs (put ls lk s) !! i = guarded <$> procs s !! i
}.

Lemma is_wait : is_lock wait_lock_lens LWait.
Proof. split; [done| |done]. intros s lk [| |i] _; cbn; by case_decide. Qed.
Lemma is_pid : is_lock pid_lock_lens LPid.
Proof. split; [done| |done]. intros s lk [| |i] _; cbn; by case_decide. Qed.
Lemma is_entry i : 0 <= i < NPROC -> is_lock (p_lock_lens i) (LEntry (Z.to_nat i)).
Proof.
  intros Hi. split.
  - intros s Hl. cbn. unfold pget. destruct (lookup_lt_is_Some_2 (procs s) (Z.to_nat i)) as [p ->]; [lia|done].
  - intros s lk k Hl. cbn. case_decide as Hk; [subst k|].
    + cbn. rewrite list_lookup_alter_eq. destruct (lookup_lt_is_Some_2 (procs s) (Z.to_nat i)) as [p ->]; [lia|done].
    + destruct k as [| |j]; [done|done|]. cbn. by rewrite list_lookup_alter_ne by congruence.
  - intros s lk. cbn. rewrite length_alter. split_and!; try done. intros j. destruct (decide (Z.to_nat i = j)) as [<-|Hne].
    + rewrite list_lookup_alter_eq. by destruct (procs s !! _).
    + by rewrite list_lookup_alter_ne.
Qed.

Lemma push_no_spin h n h' : push_off h <> Spin n h'.
Proof. unfold push_off, intr_off; run_unfold. by destruct (_ =? 0). Qed.
Lemma pop_no_spin h n h' : pop_off h <> Spin n h'.
Proof. unfold pop_off, intr_on; run_unfold. destruct (negb _); [done|]. destruct (_ <? _); [done|]. by destruct (_ && _). Qed.

(** The lock [l] changes hands: from free to [me], or back. *)
Lemma at_locks_put H H' cur ls l lk s :
  is_lock ls l -> at_locks (H, cur) s -> ~ foreign s l -> lk_name lk = name_of l ->
  (forall k, k <> l -> k ∈ H' <-> k ∈ H) -> (holding me lk = true <-> l ∈ H') -> at_locks (H', cur) (put ls lk s) /\ respects s (put ls lk s).
Proof.
  intros [L1 L2 L3] [A1 A2 A3 A4 A5] Hf Hn Hsame Hl. destruct (L3 s lk) as (R1 & R2 & R3 & R4). split; [split|].
  - by rewrite R1.
  - by rewrite R3.
  - done.
  - intros k lk'. rewrite L2 by done. case_decide as Hk; [intros [= <-]; by rewrite Hk|apply A4].
  - intros k. unfold mine. rewrite L2 by done. case_decide as Hk; cbn [fst].
    + rewrite Hk, <-Hl. split; [by intros (? & [= <-] & ?)|intros ?; by exists lk].
    + rewrite (Hsame k) by done. apply A5.
  - intros k Hk. rewrite L2 by done. rewrite decide_False by (by intros ->). split; [done|]. destruct k; [done|done|apply R4].
Qed.

Lemma follows_lock H cur ls l (Q : unit -> list lockid * option Z -> Prop) :
  is_lock ls l -> below (name_of l) H -> Q tt (l :: H, cur) -> follows (H, cur) (lock me ls) Q.
Proof.
  intros Hl Hb HQ. unfold lock. apply follows_bind, follows_hart; [apply push_no_spin|]. intros _ s Hs. pose proof Hs as [A1 A2 A3 A4 A5].
  pose proof (il_view _ _ Hl s A1) as Ev. unfold acquire_at. destruct (holding me (view ls s)) eqn:Eh; [done|].
  destruct (Z.eqb_spec (locked (view ls s)) 0) as [E0|E0]; cbn [negb].
  - exists (l :: H, cur). split; [done|]. eapply at_locks_put; [done|done| |exact (A4 _ _ Ev)| |].
    + intros (lk & E & Hne & _). congruence.
    + intros k Hk. rewrite elem_of_cons. naive_solver.
    + unfold holding. cbn. rewrite bool_decide_eq_true_2 by done. split; [intros _; apply elem_of_cons; by left|done].
  - exists (H, cur). rewrite (A4 _ _ Ev). split; [done|]. split; [done|apply respects_refl].
Qed.

Lemma follows_unlock H H' cur ls l (Q : unit -> list lockid * option Z -> Prop) :
  is_lock ls l -> H ≡ₚ l :: H' -> l ∉ H' -> Q tt (H', cur) -> follows (H, cur) (unlock me ls) Q.
Proof.
  intros Hl Hp Hn HQ. unfold unlock. apply follows_bind. intros s Hs. pose proof Hs as [A1 A2 A3 A4 A5]. pose proof (il_view _ _ Hl s A1) as Ev.
  unfold release_at. destruct (holding me (view ls s)) eqn:Eh; [|done]. cbn [negb].
  exists (H', cur). split; [apply follows_hart; [apply pop_no_spin|by intros []]|]. eapply at_locks_put; [done|done| |exact (A4 _ _ Ev)| |].
  - intros (lk & E & _ & Hh). congruence.
  - intros k Hk. rewrite Hp, elem_of_cons. naive_solver.
  - by cbn.
Qed.

(** ** The routines *)

Variables proc_base forkret_addr : Z.

Lemma follows_myproc v (Q : option Z -> list lockid * option Z -> Prop) : Q (snd v) v -> follows v myproc Q.
Proof.
  intros HQ. unfold myproc. apply follows_bind, follows_hart; [apply push_no_spin|]. intros _. apply follows_bind, follows_cproc.
  apply follows_bind, follows_hart; [apply pop_no_spin|]. intros _. by apply follows_ret.
Qed.

Lemma follows_mine H cur (Q : Z -> list lockid * option Z -> Prop) :
  (forall p, cur = Some p -> 0 <= p < NPROC -> Q p (H, Some p)) -> follows (H, cur) myproc' Q.
Proof.
  intros HQ s Hs. revert s Hs. destruct cur as [p|].
  - intros s Hs. pose proof (al_range _ _ Hs p eq_refl) as Hp. revert s Hs. change (follows (H, Some p) myproc' Q).
    apply follows_bind, follows_myproc, follows_ret. by apply HQ.
  - change (follows (H, None) myproc' Q). apply follows_bind, follows_myproc, follows_panic.
Qed.

(** One step of a routine. *)
Ltac locks_below := first [done | by repeat constructor; vm_compute; lia | (repeat constructor; cbn; vm_compute; lia)].
Ltac fl_step := cbn beta; first
  [ lazymatch goal with |- follows _ (bind _ _) _ => apply follows_bind end
  | apply follows_ret
  | apply follows_panic
  | apply follows_mine; intros ? ? ?; subst
  | apply follows_myproc
  | apply follows_when
  | (apply follows_env; [by constructor|intros ?])
  | (apply follows_lock with (l := LWait); [apply is_wait|locks_below|])
  | (apply follows_lock with (l := LPid); [apply is_pid|locks_below|])
  | (eapply follows_lock; [apply is_entry; lia|locks_below|])
  | (eapply (follows_unlock _ _ _ _ LWait); [apply is_wait|first [reflexivity|apply Permutation_swap]|set_solver|])
  | (eapply (follows_unlock _ _ _ _ LPid); [apply is_pid|reflexivity|set_solver|])
  | (eapply follows_unlock; [apply is_entry; lia|reflexivity|first [done|set_solver]|])
  | (apply follows_setp; [by intros []|first [left; by intros []|right; set_solver]|])
  | (apply follows_nextpid; [set_solver|])
  | (apply follows_gets; intros ?) ].

Lemma follows_allocpid H cur (Q : Z -> list lockid * option Z -> Prop) :
  below (name_of LPid) H -> (forall a, Q a (H, cur)) -> follows (H, cur) (allocpid me) Q.
Proof.
  intros Hb HQ. unfold allocpid. apply follows_bind, (follows_lock _ _ _ LPid); [apply is_pid|done|]. do 4 fl_step. apply follows_bind. eapply (follows_unlock _ _ _ _ LPid); [apply is_pid|reflexivity|by apply below_nin|]. by fl_step.
Qed.

Lemma follows_freeproc H cur p (Q : unit -> list lockid * option Z -> Prop) :
  LEntry (Z.to_nat p) ∈ H -> Q tt (H, cur) -> follows (H, cur) (freeproc p) Q.
Proof. intros Hin HQ. unfold freeproc, getp. repeat (fl_step; try done). Qed.

Lemma follows_allocproc H cur (Q : option Z -> list lockid * option Z -> Prop) :
  below (name_of (LEntry 0)) H -> (forall p, 0 <= p < NPROC -> Q (Some p) (LEntry (Z.to_nat p) :: H, cur)) -> Q None (H, cur) ->
  follows (H, cur) (allocproc me forkret_addr) Q.
Proof.
  intros Hb H1 H2. assert (Hn : forall i, LEntry i ∉ H) by (intros i; by apply below_nin).
  assert (Hp : forall i, below (name_of LPid) (LEntry i :: H)).
  { intros i. constructor; [vm_compute; lia|]. eapply Forall_impl; [|exact Hb]. cbn. intros k Hk. etrans; [exact Hk|vm_compute; lia]. }
  assert (Hfail : forall p, 0 <= p < NPROC -> follows (LEntry (Z.to_nat p) :: H, cur) (freeproc p ;; unlock me (p_lock_lens p) ;; ret None) Q).
  { intros p Hr. apply follows_bind, follows_freeproc; [set_solver|]. by repeat fl_step. }
  unfold allocproc, getp. apply follows_bind.
  apply (follows_loop (fun p v => 0 <= p /\ v = (H, cur))); [|done].
  - intros p v [Hp0 ->]. unfold allocproc_body, getp. destruct (Z.ltb_spec p NPROC) as [Hlt|_]; [|by repeat fl_step].
    apply follows_bind. eapply follows_lock; [apply is_entry; lia|done|]. do 2 fl_step. destruct (bool_decide _); do 3 try fl_step; [|split; [lia|done]].
    apply follows_allocpid; [apply Hp|]. intros pid. do 8 fl_step. destruct (_ =? 0); [apply Hfail; lia|].
    do 4 fl_step. destruct (_ =? 0); [apply Hfail; lia|]. repeat fl_step. apply H1. lia.
Qed.

Lemma follows_growproc cur n (Q : Z -> list lockid * option Z -> Prop) :
  (forall r, Q r ([], cur)) -> follows ([], cur) (growproc n) Q.
Proof.
  intros HQ. unfold growproc, getp. do 6 fl_step. destruct (0 <? n); [|destruct (n <? 0)].
  - do 2 fl_step. destruct (_ =? 0); by repeat fl_step.
  - by repeat fl_step.
  - by repeat fl_step.
Qed.

Lemma follows_fork cur (Q : Z -> list lockid * option Z -> Prop) :
  (forall r, Q r ([], cur)) -> follows ([], cur) (fork me forkret_addr) Q.
Proof.
  intros HQ. unfold fork, getp. do 2 fl_step. apply follows_bind, follows_allocproc; [constructor| |by fl_step].
  intros np Hnp. do 8 fl_step. destruct (_ <? 0).
  { apply follows_bind, follows_freeproc; [set_solver|]. by repeat fl_step. }
  do 10 fl_step. apply follows_bind. unfold dup_files, getp. apply follows_range.
  { intros i _. do 2 fl_step. fl_step; [|done]. by repeat fl_step. }
  by repeat fl_step.
Qed.

Lemma follows_wakeup H cur chan (Q : unit -> list lockid * option Z -> Prop) :
  below (name_of (LEntry 0)) H -> Q tt (H, cur) -> follows (H, cur) (wakeup me chan) Q.
Proof.
  intros Hb HQ. assert (Hn : forall i, LEntry i ∉ H) by (intros i; by apply below_nin). unfold wakeup, for_procs, getp. apply follows_range; [|done].
  intros i Hi. assert (0 <= i < NPROC) by (change NPROC with 64 in *; lia). do 2 fl_step. fl_step; [|done].
  apply follows_bind. eapply follows_lock; [apply is_entry; lia|done|]. do 3 fl_step. fl_step; [fl_step|]; by fl_step.
Qed.

Lemma follows_reparent H cur p (Q : unit -> list lockid * option Z -> Prop) :
  below (name_of (LEntry 0)) H -> Q tt (H, cur) -> follows (H, cur) (reparent me proc_base p) Q.
Proof.
  intros Hb HQ. unfold reparent, for_procs, getp. apply follows_range; [|done]. intros i Hi. do 2 fl_step. fl_step; [|done].
  do 4 fl_step. by apply follows_wakeup.
Qed.

Lemma follows_sched v (Q : Z -> list lockid * option Z -> Prop) : (forall r, Q r v) -> follows v (sched me) Q.
Proof.
  destruct v as [H cur]. intros HQ. unfold sched, getp. do 4 fl_step. destruct (negb _); [fl_step|]. do 2 fl_step. destruct (negb _); [fl_step|]. do 2 fl_step.
  destruct (bool_decide _); [fl_step|]. destruct (negb _); by fl_step.
Qed.

Lemma follows_yield cur (Q : Z -> list lockid * option Z -> Prop) :
  (forall p r, 0 <= p < NPROC -> Q r ([LEntry (Z.to_nat p)], Some p)) -> follows ([], cur) (yield me) Q.
Proof. intros HQ. unfold yield. do 6 fl_step. apply follows_sched. intros r. by apply HQ. Qed.

Lemma follows_sleep cur chan (Q : Z -> list lockid * option Z -> Prop) :
  (forall p r, 0 <= p < NPROC -> Q r ([LEntry (Z.to_nat p)], Some p)) -> follows ([LWait], cur) (sleep me chan wait_lock_lens) Q.
Proof. intros HQ. unfold sleep. do 10 fl_step. apply follows_sched. intros r. by apply HQ. Qed.

Lemma follows_exit cur status (Q : Z -> list lockid * option Z -> Prop) :
  (forall p r, 0 <= p < NPROC -> Q r ([LEntry (Z.to_nat p)], Some p)) -> follows ([], cur) (exit me proc_base status) Q.
Proof.
  intros HQ. unfold exit, getp. do 4 fl_step. destruct (bool_decide _); [fl_step|]. apply follows_bind, follows_range.
  { intros i _. do 2 fl_step. fl_step; [|done]. by repeat fl_step. }
  do 8 fl_step. apply follows_bind, follows_reparent; [locks_below|]. do 2 fl_step. apply follows_bind, follows_wakeup; [locks_below|].
  do 8 fl_step. apply follows_sched. intros r. by apply HQ.
Qed.

Lemma follows_killed H cur p (Q : Z -> list lockid * option Z -> Prop) :
  0 <= p < NPROC -> below (name_of (LEntry 0)) H -> (forall r, Q r (H, cur)) -> follows (H, cur) (killed me p) Q.
Proof.
  intros Hp Hb HQ. assert (Hn : forall i, LEntry i ∉ H) by (intros i; by apply below_nin). unfold killed, getp. apply follows_bind.
  eapply follows_lock; [apply is_entry; lia|done|]. by repeat fl_step.
Qed.

Lemma follows_wait cur addr (Q : Z + Z -> list lockid * option Z -> Prop) :
  (forall r, Q (inr r) ([], cur)) -> (forall p r, 0 <= p < NPROC -> Q (inl r) ([LEntry (Z.to_nat p)], Some p)) ->
  follows ([], cur) (wait me proc_base addr) Q.
Proof.
  intros H1 H2. unfold wait. do 4 fl_step. unfold wait_round. apply follows_bind.
  apply (follows_loop (fun pp v => 0 <= fst pp /\ v = ([LWait], Some p))); [|done].
  intros [pp kids] v [Hpp ->]. cbn [fst] in Hpp. unfold wait_body, getp. destruct (Z.ltb_spec pp NPROC) as [Hlt|_].
  - do 2 fl_step. destruct (bool_decide _); [|by repeat fl_step; split; [cbn; lia|]]. do 4 fl_step. destruct (bool_decide _).
    + do 2 fl_step. apply follows_bind. destruct (negb _).
      * do 3 fl_step. destruct (_ <? 0).
        -- by repeat fl_step.
        -- apply follows_bind, follows_freeproc; [set_solver|]. by repeat fl_step.
      * fl_step. apply follows_bind, follows_freeproc; [set_solver|]. by repeat fl_step.
    + repeat fl_step. by split; [cbn; lia|].
  - fl_step. apply follows_bind. destruct (negb kids).
    + fl_step. cbn [Z.eqb negb]. by repeat fl_step.
    + apply follows_killed; [done|locks_below|]. intros k. destruct (negb _); [by repeat fl_step|]. apply follows_bind, follows_sleep. intros p' r Hp'. fl_step. by apply H2.
Qed.

Lemma follows_kill cur pid (Q : Z -> list lockid * option Z -> Prop) :
  (forall r, Q r ([], cur)) -> follows ([], cur) (kill me pid) Q.
Proof.
  intros HQ. unfold kill. apply (follows_loop (fun p v => 0 <= p /\ v = ([], cur))); [|done]. intros p v [Hp ->]. unfold kill_body, getp.
  destruct (Z.ltb_spec p NPROC) as [Hlt|_]; [|by repeat fl_step]. do 4 fl_step. destruct (_ =? pid).
  - do 3 fl_step. fl_step; by repeat fl_step.
  - repeat fl_step. by split; [lia|].
Qed.

Lemma follows_back p (Q : unit -> list lockid * option Z -> Prop) :
  0 <= p < NPROC -> Q tt ([], None) -> follows ([LEntry (Z.to_nat p)], Some p) (back me) Q.
Proof.
  intros Hp HQ. unfold back. apply follows_bind, follows_cproc. cbn [snd]. unfold scheduler_back. apply follows_bind, follows_set_cproc; [done|]. by repeat fl_step.
Qed.

(** The operations of the system. *)
Definition op_valid (op : kop) : Prop := match op with OpSwitch p _ _ => 0 <= p < NPROC | _ => True end.

Lemma follows_op cur op : op_valid op -> follows ([], cur) (run_op proc_base forkret_addr me op) (fun _ v => fst v = []).
Proof.
  intros Hop. destruct op as [|pid|addr|status| |chan|chan|n|p saved how]; cbn [run_op op_valid] in *.
  - apply follows_bind, follows_fork. intros r. by fl_step.
  - apply follows_bind, follows_kill. intros r. by fl_step.
  - apply follows_bind, follows_wait; [intros r; by fl_step|]. intros p r Hp. by apply follows_back.
  - apply follows_bind, follows_exit. intros p r Hp. by apply follows_back.
  - apply follows_bind, follows_yield. intros p r Hp. by apply follows_back.
  - do 2 fl_step. apply follows_bind, follows_sleep. intros p r Hp. by apply follows_back.
  - apply follows_wakeup; [constructor|done].
  - apply follows_bind, follows_growproc. intros r. by fl_step.
  - unfold scheduler_round. apply follows_bind, follows_hart; [done|]. intros _. apply follows_bind. unfold scheduler_pick, getp. do 4 fl_step. destruct (bool_decide _); [|by repeat fl_step].
    do 3 fl_step. apply follows_set_cproc; [by intros ? [= <-]|]. fl_step. destruct how; cbn [run_op].
    + unfold yield_in, sched_in. apply follows_bind, follows_hart; [done|]. intros _. do 2 fl_step. simplify_eq. by repeat fl_step.
    + unfold sleep_in, sched_in. apply follows_bind, follows_bind, follows_hart; [done|]. intros _. do 2 fl_step. simplify_eq. by repeat fl_step.
    + unfold forkret. do 2 fl_step. simplify_eq. do 2 fl_step. fl_step; by repeat fl_step.
Qed.

(** ** What the other CPUs can rely on *)

(** A CPU between two operations: it holds none of the locks. *)
Definition quiet s : Prop := at_locks ([], c_proc s) s.

Definition quietb s : bool :=
  bool_decide (length (procs s) = Z.to_nat NPROC) && match c_proc s with Some p => (0 <=? p) && (p <? NPROC) | None => true end &&
  (bool_decide (lk_name (wait_lock s) = "wait_lock") && negb (holding me (wait_lock s))) && (bool_decide (lk_name (pid_lock s) = "nextpid") && negb (holding me (pid_lock s))) &&
  forallb (fun p => bool_decide (lk_name (p_lock p) = "proc") && negb (holding me (p_lock p))) (procs s).

Lemma quietb_ok s : quietb s = true -> quiet s.
Proof.
  unfold quietb. rewrite !andb_true_iff, !bool_decide_eq_true, !negb_true_iff, forallb_forall. intros [[[[E1 E2] [N1 M1]] [N2 M2]] Hp].
  assert (He : forall l lk, lock_of s l = Some lk -> lk_name lk = name_of l /\ holding me lk = false).
  { intros [| |i] lk; cbn; [by intros [= <-]|by intros [= <-]|]. destruct (procs s !! i) as [p|] eqn:E; [|done]. intros [= <-].
    specialize (Hp p). rewrite andb_true_iff, bool_decide_eq_true, negb_true_iff in Hp. apply Hp, list_elem_of_In. by eapply list_elem_of_lookup_2. }
  split; [done|done| | |].
  - cbn. intros p Ep. rewrite Ep in E2. lia.
  - intros l lk E. by apply He.
  - intros l. cbn. split; [|by intros ?%elem_of_nil]. intros (lk & E & Hh). destruct (He l lk E). congruence.
Qed.

Lemma op_respects op s s' :
  quiet s -> op_valid op ->
  run_op proc_base forkret_addr me op s = Ok tt s' \/ (exists n, run_op proc_base forkret_addr me op s = Spin n s') -> respects s s'.
Proof. intros Hq Hop Hrun. pose proof (follows_op (c_proc s) op Hop s Hq) as Hf. destruct Hrun as [E|[n E]]; rewrite E in Hf; by destruct Hf as (v & _ & _ & Hr). Qed.

Lemma op_waits op s n s' :
  quiet s -> op_valid op -> run_op proc_base forkret_addr me op s = Spin n s' -> forall l, mine s' l -> (rank (name_of l) < rank n)%nat.
Proof.
  intros Hq Hop E l Hl. pose proof (follows_op (c_proc s) op Hop s Hq) as Hf. rewrite E in Hf. destruct Hf as (v & Hb & Ha & _).
  apply (al_mine _ _ Ha) in Hl. unfold below in Hb. rewrite list.Forall_forall in Hb. by apply Hb.
Qed.

End Locks.

(** ** Deadlock *)

Section Deadlock.
Context {W : Type} `{PE : ProcEnv W} {EL : EnvLocks}.
Variables proc_base forkret_addr : Z.
Notation K := (kstate W).

(** A CPU that spins: its number, the state and the name of the lock. *)
Definition waiting (w : Z * K * string) : Prop :=
  let '(me, s, n) := w in exists op s0, quiet me s0 /\ op_valid op /\ run_op proc_base forkret_addr me op s0 = Spin n s.
(** The lock that the first waits for is one of those the second holds. *)
Definition waits_for (w w' : Z * K * string) : Prop :=
  let '(_, _, n) := w in let '(me', s', _) := w' in exists l, mine me' s' l /\ name_of l = n.
(** Each waits for the next, and the last for the first. *)
Definition circular (ws : list (Z * K * string)) : Prop := ws <> [] /\ Forall2 waits_for ws (tail ws ++ take 1 ws).

Lemma sum_lt {A} (f : A -> nat) l l' : l <> [] -> Forall2 (fun x y => f x < f y)%nat l l' -> (sum_list_with f l < sum_list_with f l')%nat.
Proof.
  intros Hne Hl. assert (Hle : forall m m', Forall2 (fun x y => f x < f y)%nat m m' -> (sum_list_with f m <= sum_list_with f m')%nat) by (induction 1; cbn; lia).
  destruct Hl as [|x y l l' Hxy Hl]; [done|]. cbn. specialize (Hle _ _ Hl). lia.
Qed.

Lemma no_circular ws : Forall waiting ws -> ~ circular ws.
Proof.
  intros Hw [Hne Hc]. assert (Hr : Forall2 (fun w w' : Z * K * string => rank w.2 < rank w'.2)%nat ws (tail ws ++ take 1 ws)).
  { assert (Hw' : Forall waiting (tail ws ++ take 1 ws)) by (destruct ws as [|w ws]; [done|]; cbn; apply list.Forall_cons in Hw as [H1 H2]; apply Forall_app; split; [done|by constructor]).
    clear Hne Hw. revert Hw'. induction Hc as [|[[me s] n] [[me' s'] n'] l l' (k & Hk & <-) _ IH]; [constructor|]. intros Hw. apply list.Forall_cons in Hw as [(op & s0 & Hq & Hop & E) Hw'].
    constructor; [by eapply op_waits|by apply IH]. }
  apply sum_lt in Hr; [|done]. destruct ws as [|w ws]; [done|]. rewrite sum_list_with_app in Hr. cbn [tail take sum_list_with] in Hr. rewrite take_0 in Hr. cbn in Hr. lia.
Qed.

End Deadlock.
