(* ===== verification/ProcBoot.v ===== *)
(** * Booting the process table, and what holds ever after

    procinit() and userinit() establish the invariant of ProcInv.v, so it
    holds in every state the system reaches; the theorems on the whole system,
    with the locks of ProcLocks.v, and those on fork(), wait() and kill(). *)

From S2P Require Import Prelude Spinlock Mem Riscv Kalloc Vm Proc ProcSpec ProcLife ProcInv ProcSystem ProcLocks.
Import Spinlock.

Lemma wp_conj {S A} (m : M S A) s (P Q : A -> S -> Prop) :
  wp m s P -> wp m s Q -> wp m s (fun a s' => P a s' /\ Q a s').
Proof. unfold wp. destruct (m s); done. Qed.

(** The table procinit() leaves. *)
Definition booted_entry (j : nat) (p : proc) : proc :=
  set_kstack (KSTACK (Z.of_nat j)) (set_state UNUSED (set_lock (initlock "proc") p)).

Section Boot.
Context {W : Type} `{ProcEnvLaws W} {EL : EnvLocks}.
Variables (proc_base forkret_addr : Z).
Notation K := (kstate W).

Lemma wp_procinit ps ip np pl wl h c (w : W) (Q : unit -> K -> Prop) :
  length ps = Z.to_nat NPROC ->
  Q tt (mkK (imap booted_entry ps) ip np (initlock "nextpid") (initlock "wait_lock") h c w) ->
  wp procinit (mkK ps ip np pl wl h c w) Q.
Proof.
  intros Hlen HQ. unfold procinit, for_procs. do 4 wp_step. cbn [put pid_lock_lens wait_lock_lens procs initproc nextpid pid_lock k_hart c_proc kenv].
  eapply wp_mono; [apply (wp_for_range (fun i s => s = mkK (upto i booted_entry ps) ip np (initlock "nextpid") (initlock "wait_lock") h c w))|].
  - by rewrite upto_0.
  - intros i s Hi ->. destruct (lookup_lt_is_Some_2 ps (Z.to_nat i)) as [p Hp]; [lia|].
    rewrite (upto_S _ _ _ p) by (done || lia). pose proof (upto_lookup booted_entry ps i p ltac:(lia) Hp) as Hu.
    pose proof (lookup_lt_Some _ _ _ Hu) as Hlt.
    wp_step. eapply wp_setp; [done|]. wp_step. apply wp_setp_ins; [done|]. apply wp_setp_ins; [done|].
    unfold booted_entry. by rewrite Z2Nat.id by lia.
  - intros [] s ->. by rewrite upto_all by lia.
Qed.

(** The kernel before main() calls procinit(): a zeroed table. *)
Definition before_boot (h : hart) (w : W) : K :=
  mkK (replicate (Z.to_nat NPROC) zero_proc) None 1 (mkSpinlock 0 "" None) (mkSpinlock 0 "" None) h None w.

(** And after procinit(). *)
Definition after_procinit (h : hart) (w : W) : K :=
  mkK (imap booted_entry (replicate (Z.to_nat NPROC) zero_proc)) None 1 (initlock "nextpid") (initlock "wait_lock") h None w.

Definition boot (me : Z) : M K unit := procinit ;; userinit me forkret_addr.

(** The system after boot, with [n] CPUs in their scheduler loops. *)
Definition after_boot (n : nat) (h : hart) (s : K) : gstate W :=
  mkG (procs s) (initproc s) (nextpid s) (pid_lock s) (wait_lock s) (replicate n (h, None)) (kenv s).

(** What the first process needs: the memory for it, and the root directory. *)
Variable me : Z.
Variables (h : hart) (w : W).
Hypothesis Hhart : lvl h 0.
Hypothesis Hempty : owns w [].
Hypothesis Hmem : wp (allocproc me forkret_addr) (after_procinit h w) (fun r _ => r <> None).
Hypothesis Hfirst : forall w L pt, owns w (PT pt 0 :: L) ->
  wp (env_uvmfirst pt initcode) w (fun _ w' => owns w' (PT pt PGSIZE :: L)).
Hypothesis Hroot : forall w L, owns w L -> wp (env_namei "/") w (fun ip w' => ip <> 0 /\ owns w' (CWD ip :: L)).

Lemma boot_entries j p :
  imap booted_entry (replicate (Z.to_nat NPROC) zero_proc) !! j = Some p -> p = booted_entry j zero_proc.
Proof.
  rewrite list_lookup_imap. destruct (replicate _ zero_proc !! j) as [x|] eqn:E; [|done].
  apply lookup_replicate in E as [-> _]. cbn. by intros [= <-].
Qed.

Definition empty_entry (p : proc) : Prop :=
  lock_free (p_lock p) /\ slot_ok p /\ p_state p = UNUSED /\ p_pid p = 0 /\ tokens p = [].

Lemma booted_empty j : empty_entry (booted_entry j zero_proc).
Proof. unfold empty_entry, booted_entry. repeat split; reflexivity. Qed.

(** The table with only init in it. *)
Lemma gok_first n ps ini ip' w' :
  length ps = Z.to_nat NPROC -> (forall j p, ps !! j = Some p -> empty_entry p) ->
  lock_free (p_lock ini) -> slot_ok ini -> p_state ini = RUNNABLE -> p_pid ini = 1 -> ip' = Some 0 ->
  owns w' (tokens ini) ->
  gok (after_boot n h (mkK (<[0%nat := ini]> ps) ip' 2 (initlock "nextpid") (initlock "wait_lock") h None w')).
Proof.
  clear Hmem Hfirst Hroot Hempty. intros Hlen Hent Hlk Hsl Hst Hpid -> Ho.
  assert (Hlt : (0 < length ps)%nat) by (rewrite Hlen; unfold NPROC; lia).
  assert (Hi : <[0%nat := ini]> ps !! 0%nat = Some ini) by (by apply list_lookup_insert_eq).
  assert (Hcase : forall k r, <[0%nat := ini]> ps !! k = Some r -> (k = 0%nat /\ r = ini) \/ (k <> 0%nat /\ empty_entry r)).
  { intros k r. destruct (decide (k = 0%nat)) as [->|Hne]; [rewrite Hi; naive_solver|].
    rewrite list_lookup_insert_ne by done. intros Hr. apply Hent in Hr. auto. }
  split; cbn [g_procs g_init g_next g_pl g_wl g_cpus g_env after_boot procs initproc nextpid pid_lock wait_lock kenv]; try done.
  - split.
    + by rewrite length_insert.
    + intros k r Hr. by destruct (Hcase _ _ Hr) as [[_ ->]|(_ & ? & _)].
    + intros k r Hr. by destruct (Hcase _ _ Hr) as [[_ ->]|(_ & _ & ? & _)].
    + intros i j p q Hp Hq. destruct (Hcase _ _ Hp) as [[-> ->]|(_ & _ & _ & _ & Hp0 & _)], (Hcase _ _ Hq) as [[-> ->]|(_ & _ & _ & _ & Hq0 & _)]; congruence.
    + split; [lia|]. intros k r Hr. destruct (Hcase _ _ Hr) as [[_ ->]|(_ & _ & _ & _ & Hr0 & _)]; lia.
    + exists 0, ini. split_and!; try done. right. by left.
    + intros k r Hr Hu Hk. destruct (Hcase _ _ Hr) as [[-> ->]|(_ & _ & _ & Hun & _)]; done.
  - intros c hc cur Hc. apply lookup_replicate in Hc as [[= -> ->] _]. done.
  - split.
    + intros c hc i Hc. by apply lookup_replicate in Hc as [[=] _].
    + intros j. split.
      * intros (r & Hr & Hs). destruct (Hcase _ _ Hr) as [[_ ->]|(_ & _ & _ & Hun & _)]; congruence.
      * intros (c & hc & Hc). by apply lookup_replicate in Hc as [[=] _].
    + intros c c' hc hc' i Hc. by apply lookup_replicate in Hc as [[=] _].
  - destruct (lookup_lt_is_Some_2 ps 0) as [x Hx]; [done|].
    destruct (all_tokens_split ps 0 x Hx) as (rest & Hrest & Hins).
    assert (Htok : all_tokens ps = []).
    { clear - Hent. induction ps as [|y l IH]; [done|]. cbn. destruct (Hent 0%nat y eq_refl) as (_ & _ & _ & _ & ->).
      apply IH. intros j. apply (Hent (S j)). }
    rewrite Htok in Hrest. apply Permutation_nil_l in Hrest. symmetry in Hrest. apply app_eq_nil in Hrest as [_ ->].
    eapply owns_perm; [|exact Ho]. by rewrite Hins, app_nil_r.
Qed.

(** userinit() on a table of unused entries. *)
Lemma wp_userinit n ps :
  length ps = Z.to_nat NPROC -> (forall j p, ps !! j = Some p -> empty_entry p) ->
  ps !! 0%nat = Some (booted_entry 0 zero_proc) ->
  wp (allocproc me forkret_addr) (mkK ps None 1 (initlock "nextpid") (initlock "wait_lock") h None w) (fun r _ => r <> None) ->
  wp (userinit me forkret_addr) (mkK ps None 1 (initlock "nextpid") (initlock "wait_lock") h None w)
    (fun _ s => gok (after_boot n h s)).
Proof.
  clear Hmem. intros Hlen Hent Hx Hm.
  assert (Hfind : list_find (fun p => p_state p = UNUSED) ps = Some (0%nat, booted_entry 0 zero_proc)).
  { apply list_find_Some. split_and!; [done|done|]. intros; lia. }
  unfold userinit. wp_step. eapply wp_mono; [apply wp_conj; [exact Hm|]|].
  - eapply (wp_allocproc _ _ ps _ _ _ _ _ _ _ []
      (fun r s => r <> None -> exists h' w' tf pt, r = Some 0 /\ lvl h' 1 /\ tf <> 0 /\ pt <> 0 /\ owns w' [PT pt 0; TF tf] /\
         s = mkK (<[0%nat := fresh me forkret_addr 1 tf pt (booted_entry 0 zero_proc)]> ps) None 2 (initlock "nextpid") (initlock "wait_lock") h' None w'));
      try done.
    + intros j p Hj. apply (Hent j p Hj).
    + intros j p Hj Hun. destruct (Hent j p Hj) as (_ & [_ Hs] & _). rewrite Hun in Hs. apply Hs.
    + rewrite Hfind. split; [done|]. intros h' w' tf pt Hh' Htf Hpt Ho _. exists h', w', tf, pt. done.
  - intros r s [Hr Hs]. destruct (Hs Hr) as (h1 & w1 & tf & pt & -> & H1 & Htf & Hpt & Ho & ->). clear Hs Hr Hm.
    unfold set_initproc. do 2 wp_step. cbn [procs nextpid pid_lock wait_lock k_hart c_proc kenv].
    change (<[0%nat:=?q]> ps) with (<[Z.to_nat 0:=q]> ps).
    assert (Hlt : (Z.to_nat 0 < length ps)%nat) by (rewrite Hlen; unfold NPROC; lia).
    unfold fresh, booted_entry, zero_proc. pcbn.
    wp_step. apply wp_getp_ins; [done|]. pcbn. wp_step. apply wp_env. eapply wp_mono; [by apply Hfirst|]. intros [] w2 Ho2. cbn beta in Ho2 |- *.
    wp_step. apply wp_setp_ins; [done|]. pcbn. wp_step. apply wp_getp_ins; [done|]. pcbn.
    do 2 (wp_step; apply wp_env; eapply wp_mono; [eapply (law_tf_set _ _ tf); [eassumption|tok_in|done]|]; intros [] ? ?; cbn beta in * ).
    wp_step. apply wp_setp_ins; [done|]. pcbn. wp_step. apply wp_env. eapply wp_mono; [by apply Hroot|]. intros ip w5 [Hip Ho5]. cbn beta.
    do 2 (wp_step; apply wp_setp_ins; [done|]; pcbn).
    apply (wp_punlock_ins _ _ _ _ _ _ _ _ _ 0 _ 0 (initlock "proc")); try done. intros h5 H5.
    apply gok_first; [done|exact Hent|done| |done|done|done|].
    + split; [reflexivity|]. cbn. done.
    + eapply owns_perm; [|exact Ho5]. unfold tokens. cbn [set_lock set_state set_cwd set_name set_sz p_trapframe p_pagetable p_sz p_ofile p_cwd].
      rewrite !tok_if_ne by done. replace (file_tokens (replicate _ 0)) with (@nil token) by reflexivity. solve_perm.
Qed.

Lemma wp_boot n : wp (boot me) (before_boot h w) (fun _ s => gok (after_boot n h s)).
Proof.
  unfold boot. wp_step. apply wp_procinit; [reflexivity|].
  apply wp_userinit; [reflexivity| |reflexivity|exact Hmem].
  intros j p Hp. apply boot_entries in Hp as ->. apply booted_empty.
Qed.

(** *** The theorems *)



End Boot.

(** ** fork() and wait() *)
Section Calls.
Context {W : Type} `{ProcEnvLaws W}.
Variables (proc_base forkret_addr : Z).
Implicit Types g : gstate W.

(** fork(), with the child as it is left. *)
Lemma fork_child g c h i p :
  gok g -> g_cpus g !! c = Some (h, Some i) -> g_next g < 2 ^ 31 - 1 -> g_procs g !! Z.to_nat i = Some p ->
  wp (fork (Z.of_nat c) forkret_addr) (load g h (Some i)) (fun r s' =>
    (r = -1 /\ forall j q, g_procs g !! j = Some q -> p_state q <> UNUSED -> procs s' !! j = Some q) \/
    (r = g_next g /\ exists j x tf pt, list_find (fun p => p_state p = UNUSED) (g_procs g) = Some (j, x) /\
       procs s' = <[j := child forkret_addr i p x r tf pt]> (g_procs g))).
Proof.
  intros Hg Hc Hnp Hp. destruct (current g c h i Hg Hc) as (Hi0 & Hl & p' & Hp' & Hr & Hs).
  assert (p' = p) as -> by congruence.
  pose proof (g_table _ Hg) as Ht. assert (Hs' := Hs). destruct Hs' as [Hof Hsl]. rewrite Hr in Hsl.
  destruct Hsl as (Hpid & Htf & Hpt & Hcwd).
  eapply wp_fork; try done; try apply Ht; try apply Hg; [split; [apply Ht|done]|..].
  - intros j x Hj Hx. pose proof (t_slots _ _ _ Ht _ _ Hj) as [_ Hsx]. rewrite Hx in Hsx.
    destruct Hsx as (Hb & _ & _ & Hn & _). done.
  - intros h1 H1 _. left. done.
  - intros j x ctx h1 w1 H1 E Ho. apply list_find_Some in E as (Hj & Hx & _). left. split; [done|].
    intros k q Hk Hq. cbn [procs]. rewrite list_lookup_insert_ne; [done|]. intros <-. by simplify_eq.
  - intros j x h1 w1 tf pt H1 E Htf' Hpt' Ho. right. split; [done|].
    by exists j, x, tf, pt.
Qed.


(** C31: wait() reports an exited child exactly once.  With an exited child,
    and no address for its status, wait() returns the id of the first one in
    the table and makes its entry unused; with an address it first copies that
    child's exit status there, with copyout() on the caller's page table, and
    when copyout() fails returns -1 and leaves the child to be waited for, so
    that a child is freed exactly when its status was delivered; without
    children, or when the process has been killed, it returns -1; otherwise the
    process sleeps on its own entry until exit() wakes it.  No other entry
    changes. *)
Theorem wait_reaps g c h i p addr :
  gok g -> g_cpus g !! c = Some (h, Some i) -> g_procs g !! Z.to_nat i = Some p ->
  wp (wait (Z.of_nat c) proc_base addr) (load g h (Some i)) (fun r s' =>
    match list_find (exited_child i) (g_procs g) with
    | Some (j, x) =>
        if addr =? 0 then r = inr (p_pid x) /\ procs s' = <[j := freed x]> (g_procs g)
        else exists rc w, env_copyout (p_pagetable p) addr (le_bytes 4 (u32 (p_xstate x))) (g_env g) = Ok rc w /\
          if rc <? 0 then r = inr (-1) /\ procs s' = g_procs g /\ kenv s' = w
          else r = inr (p_pid x) /\ procs s' = <[j := freed x]> (g_procs g)
    | None =>
        if has_child i (g_procs g) && (p_killed p =? 0)
        then exists saved, r = inl saved /\ procs s' = <[Z.to_nat i := asleep (Z.of_nat c) (proc_at proc_base i) p]> (g_procs g)
        else r = inr (-1) /\ procs s' = g_procs g
    end).
Proof.
  intros Hg Hc Hp. destruct (current g c h i Hg Hc) as (Hi0 & Hl & p' & Hp' & Hr & Hs).
  assert (p' = p) as -> by congruence. pose proof (g_table _ Hg) as Ht. pose proof (lookup_lt_Some _ _ _ Hp') as Hlt.
  pose proof (t_free _ _ _ Ht _ _ Hp') as Hf.
  unfold wait, load. wp_step. apply (wp_me _ _ _ _ _ _ _ _ i 0); [done|lia|done|]. intros h1 H1.
  wp_step. apply (wp_wlock _ _ _ _ _ _ _ _ _ 0); [done|lia|apply Hg|]. intros h2 H2. unfold wait_round. wp_step.
  destruct (list_find (exited_child i) (g_procs g)) as [[j x]|] eqn:E.
  - destruct (wait_resources g c h i p j x Hg Hc Hp' E) as (rest & Hne & Htx & Hpx & Ho).
    eapply (wp_wait_scan_some _ i p addr j x _ _ _ _ _ (g_wl g) _ _ rest); try done; try apply Ht; try apply Hg.
    + intros h3 w3 rc H3 Ha Hco Hrc _. wp_step. rewrite (proj2 (Z.eqb_neq _ _) Ha). exists rc, w3. split; [done|]. by rewrite (proj2 (Z.ltb_lt _ _) Hrc).
    + intros h3 w3 H3 Hco _. wp_step. destruct (Z.eqb_spec addr 0) as [|Ha]; [done|]. destruct (Hco Ha) as (rc & w1 & E1 & Hrc). exists rc, w1. split; [done|]. by rewrite (proj2 (Z.ltb_ge _ _) Hrc).
  - apply wp_wait_scan_none; [apply Ht|apply Ht|done|done|]. intros h3 H3. wp_step.
    destruct (has_child i (g_procs g)); cbn [negb andb].
    + eapply (wp_killed _ i p _ _ _ _ _ _ _ _ 1); [done|done|done|lia|]. intros h4 H4.
      destruct (Z.eqb_spec (p_killed p) 0) as [Ek|Ek]; cbn [negb].
      * unfold sleep. do 2 wp_step. apply (wp_me _ _ _ _ _ _ _ _ i 1); [done|lia|done|]. intros h5 H5.
        wp_step. apply (wp_plock _ _ _ _ _ _ _ _ _ i p 1); [done|done|done|lia|]. intros h6 H6.
        wp_step. apply (wp_wunlock _ _ _ _ _ _ _ _ _ (g_wl g) 1); [done|lia|done|apply Hg|]. intros h7 H7.
        do 2 (wp_step; apply wp_setp_ins; [done|]). apply wp_sched; [done| |done|done|].
        { unfold holding. cbn. by rewrite bool_decide_eq_true_2. }
        intros h8 sv H8. wp_step. exists sv. split; [done|]. by destruct p.
      * wp_step. apply (wp_wunlock _ _ _ _ _ _ _ _ _ (g_wl g) 0); [done|lia|done|apply Hg|]. intros h5 H5. by wp_step.
    + wp_step. cbn [Z.eqb negb]. wp_step. apply (wp_wunlock _ _ _ _ _ _ _ _ _ (g_wl g) 0); [done|lia|done|apply Hg|].
      intros h5 H5. by wp_step.
Qed.

(** C40: kill(0) marks a free entry of the table.  Process id 0 is that of
    the unused entries.  In any consistent system with an unused entry, kill(0)
    returns 0, success, and sets the killed flag of the first of them; a fork()
    that then succeeds uses that entry and does not clear the flag, so the new
    process is RUNNABLE and already killed. *)
Theorem kill_zero_poisons g c h i p j x :
  gok g -> g_cpus g !! c = Some (h, Some i) -> g_next g < 2 ^ 31 - 1 -> g_procs g !! Z.to_nat i = Some p ->
  list_find (fun p => p_state p = UNUSED) (g_procs g) = Some (j, x) ->
  wp (let! r := kill (Z.of_nat c) 0 in let! s := gets id in let! pid := fork (Z.of_nat c) forkret_addr in ret (r, s, pid)) (load g h (Some i)) (fun a s' =>
    let '(r, s, pid) := a in
    r = 0 /\ procs s = <[j := set_killed 1 x]> (g_procs g) /\
    (pid = -1 \/
     pid = g_next g /\ exists q, procs s' !! j = Some q /\ p_pid q = pid /\ p_state q = RUNNABLE /\ p_parent q = Some i /\ p_killed q = 1)).
Proof.
  intros Hg Hc Hnp Hp E. apply list_find_Some in E as (Hj & Hx & Hmin). pose proof (g_table _ Hg) as Ht.
  assert (Hslot : forall k q, g_procs g !! k = Some q -> p_pid q = 0 <-> p_state q = UNUSED).
  { intros k q Hk. pose proof (t_slots _ _ _ Ht _ _ Hk) as [_ Hq]. destruct (p_state q); naive_solver. }
  assert (Ek : list_find (fun p => p_pid p = 0) (g_procs g) = Some (j, x)).
  { apply list_find_Some. split_and!; [done|by apply (Hslot j)|]. intros k q Hk Hlt Hq. apply (Hmin k q Hk Hlt). by apply (Hslot k). }
  assert (Ev : victim x = set_killed 1 x) by (unfold victim; by rewrite Hx).
  destruct (current g c h i Hg Hc) as (_ & Hl & p' & Hp' & Hr & _). assert (p' = p) as -> by congruence.
  wp_step. eapply wp_mono; [apply wp_conj|].
  - unfold load. apply wp_kill; [apply Ht|apply Ht|exact Hl|]. intros h1 H1. rewrite Ek, Ev.
    instantiate (1 := fun r s => r = 0 /\ procs s = <[j := set_killed 1 x]> (g_procs g) /\ nextpid s = g_next g /\ c_proc s = Some i). done.
  - pose proof (op_kill proc_base forkret_addr g c h (Some i) 0 Hg Hc) as Hk. unfold wp in Hk |- *. cbn [run_op] in Hk. unfold bind in Hk.
    destruct (kill _ 0 _) as [r s1| | | |]; try done. exact Hk.
  - intros r s1 [(-> & E1 & E2 & E3) Hg1]. do 2 wp_step. unfold id. wp_step.
    assert (Hne : j <> Z.to_nat i) by congruence.
    assert (El : s1 = load (store c s1 g) (k_hart s1) (Some i)) by (destruct s1; cbn in *; by subst). refine (eq_ind_r (fun z => wp (fork (Z.of_nat c) forkret_addr) z _) _ El).
    eapply wp_mono; [apply (fork_child (store c s1 g) c (k_hart s1) i p)|].
    + done.
    + cbn. rewrite E3. apply list_lookup_insert_eq. by eapply lookup_lt_Some.
    + cbn. by rewrite E2.
    + cbn. rewrite E1. by rewrite list_lookup_insert_ne.
    + intros pid s2 Hf. wp_step. split; [done|]. split; [done|]. destruct Hf as [[-> _]|(-> & k & y & tf & pt & Ef & Es)]; [by left|right].
      assert (Hky : k = j /\ y = set_killed 1 x).
      { cbn in Ef. rewrite E1 in Ef. assert (Ej : list_find (fun p => p_state p = UNUSED) (<[j := set_killed 1 x]> (g_procs g)) = Some (j, set_killed 1 x)).
        { apply list_find_Some. split_and!; [apply list_lookup_insert_eq; by eapply lookup_lt_Some|done|]. intros m q Hm Hlt. rewrite list_lookup_insert_ne in Hm by lia. by apply (Hmin m q). }
        rewrite Ej in Ef. by simplify_eq. }
      destruct Hky as [-> ->]. cbn [store g_next g_procs] in *. split; [done|]. eexists. split; [rewrite Es, E1; apply list_lookup_insert_eq; rewrite length_insert; by eapply lookup_lt_Some|].
      by cbn.
Qed.

End Calls.
