(* ===== verification/ProcDemo.v ===== *)
(** * A concrete process system

    [Ledger] implements the interface of ProcSpec.v by a list of the resources
    handed out.  The theorems about the process system are applied to it, and
    the routines are run on it. *)

From S2P Require Import Prelude Spinlock Mem Riscv Kalloc Vm Proc ProcSpec ProcLife ProcInv ProcSystem ProcLocks ProcBoot.
Import Spinlock.

Module Ledger.

(** The next handle to give out, and the resources held. *)
Record ledger := mkLedger { lg_next : Z; lg_held : list token }.

Fixpoint drop1 (t : token) (l : list token) : list token :=
  match l with
  | [] => []
  | x :: l => if token_eq_dec x t then l else x :: drop1 t l
  end.

Lemma drop1_perm t L l : l ≡ₚ t :: L -> drop1 t l ≡ₚ L.
Proof.
  revert L; induction l as [|x l IH]; intros L Hp; [by apply Permutation_nil_cons in Hp|]. cbn.
  destruct (token_eq_dec x t) as [->|Hne]; [by apply Permutation_cons_inv in Hp|].
  assert (Hx : x ∈ L).
  { assert (x ∈ t :: L) as Hx by (rewrite <-Hp; left). apply elem_of_cons in Hx as [->|]; done. }
  apply elem_of_Permutation in Hx as [L' HL]. rewrite HL. apply perm_skip, IH.
  rewrite HL in Hp. rewrite (perm_swap x t) in Hp. by apply Permutation_cons_inv in Hp.
Qed.

Definition take_new (mk : Z -> token) : M ledger Z :=
  fun l => Ok (lg_next l) (mkLedger (lg_next l + 1) (mk (lg_next l) :: lg_held l)).
Definition give (t : token) : M ledger unit := modify (fun l => mkLedger (lg_next l) (drop1 t (lg_held l))).
Definition have (t : token) : M ledger unit := modify (fun l => mkLedger (lg_next l) (t :: lg_held l)).

#[global] Instance ledger_env : ProcEnv ledger := {
  env_kalloc := take_new TF;
  env_kfree pa := give (TF pa);
  env_proc_pagetable _ := take_new (fun pt => PT pt 0);
  env_proc_freepagetable pt sz := give (PT pt sz);
  env_uvmfirst pt _ := give (PT pt 0) ;; have (PT pt PGSIZE);
  env_uvmalloc pt oldsz newsz _ :=
    if newsz <? 2 ^ 40 then give (PT pt oldsz) ;; have (PT pt newsz) ;; ret newsz else ret 0;
  env_uvmdealloc pt oldsz newsz :=
    if oldsz <=? newsz then ret oldsz else give (PT pt oldsz) ;; have (PT pt newsz) ;; ret newsz;
  env_uvmcopy _ new sz := give (PT new 0) ;; have (PT new sz) ;; ret 0;
  env_copyout _ dst _ := ret (if dst <? 4096 then 0 else -1);
  env_copyin _ _ _ := ret None;
  env_kwrite _ _ := ret tt;
  env_kread _ _ := ret [];
  env_tf_copy _ _ := ret tt;
  env_tf_set _ _ _ := ret tt;
  env_filedup f := have (FD f) ;; ret f;
  env_fileclose f := give (FD f);
  env_idup ip := have (CWD ip) ;; ret ip;
  env_iput ip := give (CWD ip);
  env_namei _ := take_new CWD
}.

(** Memory sizes stay in range, handles are not null. *)
Definition sized (t : token) : Prop := match t with PT _ sz => 0 <= sz < 2 ^ 40 | _ => True end.
Definition lg_owns (l : ledger) (L : list token) : Prop := lg_held l ≡ₚ L /\ 0 < lg_next l /\ Forall sized L.

Lemma own_take l L mk : lg_owns l L -> sized (mk (lg_next l)) ->
  wp (take_new mk) l (fun r l' => r <> 0 /\ lg_owns l' (mk r :: L)).
Proof.
  intros (Hp & Hn & Hs) Hm. unfold wp, take_new, lg_owns. cbn. split_and!; [lia|by rewrite Hp|lia|by constructor].
Qed.

Lemma own_give l L t : lg_owns l (t :: L) -> wp (give t) l (fun _ l' => lg_owns l' L).
Proof.
  intros (Hp & Hn & Hs). apply wp_modify. split_and!; [by apply drop1_perm|done|by inversion Hs].
Qed.

Lemma own_have l L t : lg_owns l L -> sized t -> wp (have t) l (fun _ l' => lg_owns l' (t :: L)).
Proof. intros (Hp & Hn & Hs) Ht. apply wp_modify. split_and!; cbn; [by rewrite Hp|done|by constructor]. Qed.

Lemma own_change l L t t' : lg_owns l (t :: L) -> sized t' -> wp (give t ;; have t') l (fun _ l' => lg_owns l' (t' :: L)).
Proof. intros Ho Ht. wp_step. eapply wp_mono; [by apply own_give|]. intros [] l1 Ho1. by apply own_have. Qed.

Lemma own_head l t L : lg_owns l (t :: L) -> sized t.
Proof. intros (_ & _ & Hs). by inversion Hs. Qed.

Lemma own_elem l t L : lg_owns l L -> t ∈ L -> sized t.
Proof. intros (_ & _ & Hs) Ht. rewrite list.Forall_forall in Hs. by apply Hs. Qed.

Lemma own_perm l L L' : L ≡ₚ L' -> lg_owns l L -> lg_owns l L'.
Proof. intros HL (Hp & Hn & Hs). split_and!; [by rewrite <-HL|done|by rewrite <-HL]. Qed.

#[global] Instance ledger_laws : ProcEnvLaws ledger.
Proof.
  refine {| owns := lg_owns |}.
  - apply own_perm.
  - intros w L Ho. eapply wp_mono; [by apply own_take|]. cbn. intros r w'. tauto.
  - intros w L pa. apply own_give.
  - intros w L tf Ho _. eapply wp_mono; [by apply (own_take _ L (fun pt => PT pt 0))|]. cbn. intros r w'. tauto.
  - intros w L pt sz. apply own_give.
  - intros w L old new sz Ho. cbn [env_uvmcopy ledger_env].
    assert (Ho' : lg_owns w (PT new 0 :: PT old sz :: L)) by (eapply own_perm; [apply perm_swap|done]).
    pose proof (own_head _ _ _ Ho) as Hsz. wp_step. eapply wp_mono; [by apply own_give|]. intros [] w1 Ho1.
    wp_step. eapply wp_mono; [by apply (own_have _ (PT old sz :: L) (PT new sz))|]. intros [] w2 Ho2. wp_step. left. split; [done|].
    eapply own_perm; [apply perm_swap|done].
  - intros w L pt sz n Ho Hn. cbn [env_uvmalloc ledger_env]. pose proof (own_head _ _ _ Ho) as Hsz. cbn in Hsz.
    rewrite u64_small by lia. wp_step.
    + bool_simpl. wp_step. eapply wp_mono; [by apply own_give|]. intros [] w1 Ho1. wp_step.
      eapply wp_mono; [apply (own_have _ L (PT pt (sz + n))); [done|cbn; lia]|]. intros [] w2 Ho2. wp_step. right. split_and!; [done|lia|done].
    + wp_step. by left.
  - intros w L pt sz n Ho Hn. cbn [env_uvmdealloc ledger_env]. pose proof (own_head _ _ _ Ho) as Hsz. cbn in Hsz.
    destruct (Z.ltb_spec (sz + n) 0) as [Hneg|Hpos].
    + replace (u64 (sz + n)) with (sz + n + 2 ^ 64) by (unfold u64; rewrite <-(Z_mod_plus_full _ 1), Z.mod_small; lia).
      rewrite (proj2 (Z.leb_le _ _)) by lia. wp_step. done.
    + rewrite u64_small by lia. rewrite (proj2 (Z.leb_gt _ _)) by lia. wp_step. eapply wp_mono; [by apply own_give|]. intros [] w1 Ho1.
      wp_step. eapply wp_mono; [apply (own_have _ L (PT pt (sz + n))); [done|cbn; lia]|]. intros [] w2 Ho2. wp_step. done.
  - intros w L pt sz dst bs Ho. cbn [env_copyout ledger_env]. wp_step. split; [|done]. destruct (dst <? 4096); auto.
  - intros w L dst src Ho _ _. by apply wp_ret.
  - intros w L tf off v Ho _ _. by apply wp_ret.
  - intros w L f Ho Hf. cbn [env_filedup ledger_env]. wp_step. eapply wp_mono; [by apply own_have|]. intros [] w1 Ho1. by wp_step.
  - intros w L f. apply own_give.
  - intros w L ip Ho Hf. cbn [env_idup ledger_env]. wp_step. eapply wp_mono; [by apply own_have|]. intros [] w1 Ho1. by wp_step.
  - intros w L ip. apply own_give.
Defined.

Definition start : ledger := mkLedger 1 [].
Definition hart0 : hart := mkHart 0 0 0.

Lemma hart0_ok : lvl hart0 0.
Proof. split; [split_and!|]; done. Qed.
Lemma start_empty : owns start [].
Proof. split_and!; done. Qed.
Lemma start_mem : wp (allocproc 0 0x80001000) (after_procinit hart0 start) (fun r _ => r <> None).
Proof. vm_compute. discriminate. Qed.
Lemma start_first w L pt : owns w (PT pt 0 :: L) -> wp (env_uvmfirst pt initcode) w (fun _ w' => owns w' (PT pt PGSIZE :: L)).
Proof. intros Ho. by apply own_change. Qed.
Lemma start_root w L : owns w L -> wp (env_namei "/") w (fun ip w' => ip <> 0 /\ owns w' (CWD ip :: L)).
Proof. intros Ho. by apply own_take. Qed.

Definition PB : Z := 0x80010000.

(** *** Init running on CPU 1 *)

(** The final state of a run that returns. *)
Definition final {S A} (m : M S A) (s : S) : S := match m s with Ok _ s' => s' | _ => s end.

Lemma wp_final {S A} (m : M S A) s (P : S -> Prop) : wp m s (fun _ s' => P s') -> P (final m s).
Proof. unfold wp, final. by destruct (m s). Qed.

Definition sys0 : gstate ledger := after_boot 2 hart0 (final (boot 0x80001000 0) (before_boot hart0 start)).
Definition sys1 : gstate ledger :=
  store 1 (final (run_op PB 0x80001000 1 (OpSwitch 0 0 RForkret)) (load sys0 hart0 None)) sys0.
Definition hart1 : hart := match g_cpus sys1 !! 1%nat with Some (h, _) => h | None => hart0 end.

Lemma sys0_ok : gok sys0.
Proof.
  apply (wp_final _ _ (fun s => gok (after_boot 2 hart0 s))).
  apply (wp_boot 0x80001000 0 hart0 start hart0_ok start_empty start_mem start_first start_root 2).
Qed.

Lemma sys1_ok : gok sys1.
Proof.
  apply (wp_final _ _ (fun s => gok (store 1 s sys0))). apply (op_switch PB 0x80001000 sys0 1); [apply sys0_ok|done|].
  unfold NPROC. lia.
Qed.

Lemma sys1_cpu : g_cpus sys1 !! 1%nat = Some (hart1, Some 0).
Proof. vm_compute. reflexivity. Qed.

Definition init1 : proc := match g_procs sys1 !! 0%nat with Some p => p | None => zero_proc end.


(** Init forks on CPU 1, and its child runs on CPU 0 and exits with status 7. *)
Definition after (c : nat) (op : kop) (g : gstate ledger) : gstate ledger :=
  match g_cpus g !! c with
  | Some (h, cur) => store c (final (run_op PB 0x80001000 (Z.of_nat c) op) (load g h cur)) g
  | None => g
  end.
Definition sys2 : gstate ledger := after 1 OpFork sys1.
Definition sys3 : gstate ledger := after 0 (OpSwitch 1 0 RForkret) sys2.
Definition sys4 : gstate ledger := after 0 (OpExit 7) sys3.

Lemma after_ok g c h cur op : gok g -> g_cpus g !! c = Some (h, cur) -> enabled g cur op -> gok (after c op g).
Proof.
  intros Hg Hc He. unfold after. rewrite Hc. apply (wp_final _ _ (fun s => gok (store c s g))). by apply (op_ok PB 0x80001000 g c h cur op).
Qed.

Definition cpu_of (g : gstate ledger) (c : nat) : hart * option Z := default (hart0, None) (g_cpus g !! c).

Lemma sys4_ok : gok sys4.
Proof.
  apply (after_ok _ 0 (fst (cpu_of sys3 0)) (Some 1)); [|vm_compute; reflexivity|vm_compute; discriminate].
  apply (after_ok _ 0 (fst (cpu_of sys2 0)) None); [|vm_compute; reflexivity|cbn; unfold NPROC; lia].
  apply (after_ok _ 1 hart1 (Some 0)); [exact sys1_ok|exact sys1_cpu|vm_compute; reflexivity].
Qed.

Lemma ledger_copyout pt dst bs (w w' : ledger) rc : env_copyout pt dst bs w = Ok rc w' -> rc = if dst <? 4096 then 0 else -1.
Proof. cbn. by intros [= <-]. Qed.

Definition hart4 : hart := fst (cpu_of sys4 1).
Definition init4 : proc := default zero_proc (g_procs sys4 !! 0%nat).
Definition child4 : proc := default zero_proc (g_procs sys4 !! 1%nat).

(** Init has the status 7 copied to address 100, and gets the child's id; at
    address 8192 the copy fails. *)
Lemma wait_reaps_witness :
  wp (wait 1 PB 100) (load sys4 hart4 (Some 0)) (fun r s' => r = inr 2 /\ procs s' = <[1%nat := freed child4]> (g_procs sys4)) /\
  wp (wait 1 PB 8192) (load sys4 hart4 (Some 0)) (fun r s' => r = inr (-1) /\ procs s' = g_procs sys4) /\
  p_xstate child4 = 7.
Proof.
  assert (E1 : list_find (exited_child 0) (g_procs sys4) = Some (1%nat, child4)) by (vm_compute; reflexivity).
  assert (Hc : g_cpus sys4 !! 1%nat = Some (hart4, Some 0)) by (vm_compute; reflexivity).
  assert (Hp : g_procs sys4 !! Z.to_nat 0 = Some init4) by (vm_compute; reflexivity).
  assert (Ep : p_pid child4 = 2) by (vm_compute; reflexivity).
  split; [|split].
  - eapply wp_mono; [apply (wait_reaps PB sys4 1 hart4 0 init4 100 sys4_ok Hc Hp)|]. intros r s' Hw. rewrite E1 in Hw. change (100 =? 0) with false in Hw. cbv iota in Hw.
    destruct Hw as (rc & w & E & Hw). apply ledger_copyout in E as ->. change (100 <? 4096) with true in Hw. cbv iota in Hw. change (0 <? 0) with false in Hw. rewrite Ep in Hw. exact Hw.
  - eapply wp_mono; [apply (wait_reaps PB sys4 1 hart4 0 init4 8192 sys4_ok Hc Hp)|]. intros r s' Hw. rewrite E1 in Hw. change (8192 =? 0) with false in Hw. cbv iota in Hw.
    destruct Hw as (rc & w & E & Hw). apply ledger_copyout in E as ->. change (8192 <? 4096) with false in Hw. cbv iota in Hw. change (-1 <? 0) with true in Hw. cbv iota in Hw.
    destruct Hw as (H1 & H2 & _). split; [exact H1|exact H2].
  - vm_compute. reflexivity.
Defined.

(** *** Two CPUs *)

#[local] Instance ledger_locks : EnvLocks (W := ledger).
Proof. intros A m w n w' Hc. destruct Hc; cbn; unfold take_new, give, have, bind, gets, modify, ret; intros E; repeat (case_match; simplify_eq); discriminate. Qed.

(** CPU 0 holds pid_lock, or wait_lock, while init on CPU 1 makes a call. *)
Definition pid_busy : kstate ledger := put pid_lock_lens (lock_taken 0 (initlock "nextpid")) (load sys1 hart1 (Some 0)).
Definition wait_busy : kstate ledger := put wait_lock_lens (lock_taken 0 (initlock "wait_lock")) (load sys1 hart1 (Some 0)).
Definition spun {S A} (m : M S A) (s : S) : S := match m s with Spin _ s' => s' | _ => s end.

Lemma pid_busy_quiet : quiet 1 pid_busy.
Proof. apply quietb_ok. vm_compute. reflexivity. Qed.
Lemma wait_busy_quiet : quiet 1 wait_busy.
Proof. apply quietb_ok. vm_compute. reflexivity. Qed.
Lemma pid_busy_spins : run_op PB 0x80001000 1 OpFork pid_busy = Spin "nextpid" (spun (run_op PB 0x80001000 1 OpFork) pid_busy).
Proof. vm_compute. reflexivity. Qed.
Lemma wait_busy_spins : run_op PB 0x80001000 1 OpFork wait_busy = Spin "wait_lock" (spun (run_op PB 0x80001000 1 OpFork) wait_busy).
Proof. vm_compute. reflexivity. Qed.

Lemma pid_busy_foreign : foreign 1 pid_busy LPid.
Proof. exists (lock_taken 0 (initlock "nextpid")). split; [reflexivity|]. split; [discriminate|reflexivity]. Qed.



(** *** kill(0) *)

(** Entry 1 is free; the run of kill(0) and fork() there. *)
Definition poison : M (kstate ledger) (Z * kstate ledger * Z) :=
  let! r := kill 1 0 in let! s := gets id in let! pid := fork 1 0x80001000 in ret (r, s, pid).
Definition entry1 : proc := default zero_proc (g_procs sys1 !! 1%nat).

Lemma kill_zero_poisons_witness :
  wp poison (load sys1 hart1 (Some 0)) (fun a s' =>
    a.1.1 = 0 /\ procs a.1.2 = <[1%nat := set_killed 1 entry1]> (g_procs sys1) /\
    (a.2 = -1 \/ a.2 = 2 /\ exists q, procs s' !! 1%nat = Some q /\ p_pid q = 2 /\ p_state q = RUNNABLE /\ p_killed q = 1)) /\
  (exists s s', poison (load sys1 hart1 (Some 0)) = Ok (0, s, 2) s').
Proof.
  assert (E1 : list_find (fun p => p_state p = UNUSED) (g_procs sys1) = Some (1%nat, entry1)) by (vm_compute; reflexivity).
  split.
  - eapply wp_mono; [apply (kill_zero_poisons PB 0x80001000 sys1 1 hart1 0 init1 1 entry1 sys1_ok sys1_cpu); [vm_compute; reflexivity|vm_compute; reflexivity|exact E1]|].
    intros [[r s] pid] s' (-> & Hs & Hp). cbn [fst snd]. split; [reflexivity|]. split; [exact Hs|].
    destruct Hp as [->|(-> & q & H1 & H2 & H3 & _ & H4)]; [left; reflexivity|right]. split; [vm_compute; reflexivity|]. exists q. split; [exact H1|]. split; [rewrite H2; vm_compute; reflexivity|]. split; [exact H3|exact H4].
  - exists (final (kill 1 0) (load sys1 hart1 (Some 0))), (final poison (load sys1 hart1 (Some 0))). vm_compute. reflexivity.
Defined.

End Ledger.
