(* ===== verification/SleepRace.v ===== *)
(** * Sleep and wakeup under every interleaving (kernel/proc.c)

    Any number of processes wait for a condition in the way all kernel code
    does: take the lock [lk] that protects the condition, and call sleep(chan,
    lk) while the condition is false.  Any number of others make it true, with
    [lk] held, and call wakeup(chan).  A step is one action between two
    lock operations of one of them: sleep() takes p->lock before it gives up
    lk, and wakeup() looks at a process only with its p->lock held.  The
    theorem is that this order loses no wakeup. *)

From S2P Require Import Prelude Proc.

(** Who holds a lock: process [i] that waits (or the scheduler on its
    behalf), or process [j] that wakes. *)
Inductive tid := Sl (i : nat) | Wk (j : nat).
#[global] Instance tid_eq_dec : EqDecision tid.
Proof. solve_decision. Defined.

(** A waiting process: outside; holding lk, about to test the condition;
    in sleep(), before acquire(&p->lock); before release(lk); before the
    assignments to p->chan and p->state; in sched(), before the scheduler's
    release(&p->lock); off the CPU; switched to again, before
    release(&p->lock); before acquire(lk). *)
Inductive spc := SOut | STest | SPlock | SRelease | SAssign | SSched | SOff | SBack | SRelock.

(** A waking process: outside; holding lk, about to set the condition; in
    wakeup()'s loop at entry [k], before and after acquire(&p->lock); after the
    loop, before release(lk). *)
Inductive wpc := WOut | WSet | WLoop (k : nat) | WLook (k : nat) | WDone.

Record world := mkWorld {
  n_procs : nat;
  cond : bool;
  lk : option tid;
  plk : nat -> option tid;
  state : nat -> procstate;
  onchan : nat -> bool;
  spcs : nat -> spc;
  wpcs : nat -> wpc
}.

Definition upd {A} (f : nat -> A) (i : nat) (v : A) : nat -> A := fun x => if decide (x = i) then v else f x.

(** One action; the comments name the statement. *)
Inductive step : world -> world -> Prop :=
(* acquire(lk) *)
| s_acquire n c pl st ch sp wp i : (i < n)%nat -> sp i = SOut ->
    step (mkWorld n c None pl st ch sp wp) (mkWorld n c (Some (Sl i)) pl st ch (upd sp i STest) wp)
(* the condition holds: use it up or not, and release(lk) *)
| s_leave n c' pl st ch sp wp i : sp i = STest ->
    step (mkWorld n true (Some (Sl i)) pl st ch sp wp) (mkWorld n c' None pl st ch (upd sp i SOut) wp)
(* the condition does not hold: call sleep() *)
| s_sleep n pl st ch sp wp i : sp i = STest ->
    step (mkWorld n false (Some (Sl i)) pl st ch sp wp) (mkWorld n false (Some (Sl i)) pl st ch (upd sp i SPlock) wp)
(* acquire(&p->lock) *)
| s_plock n c l pl st ch sp wp i : sp i = SPlock -> pl i = None ->
    step (mkWorld n c l pl st ch sp wp) (mkWorld n c l (upd pl i (Some (Sl i))) st ch (upd sp i SRelease) wp)
(* release(lk) *)
| s_release n c pl st ch sp wp i : sp i = SRelease ->
    step (mkWorld n c (Some (Sl i)) pl st ch sp wp) (mkWorld n c None pl st ch (upd sp i SAssign) wp)
(* p->chan = chan; p->state = SLEEPING; *)
| s_assign n c l pl st ch sp wp i : sp i = SAssign ->
    step (mkWorld n c l pl st ch sp wp) (mkWorld n c l pl (upd st i SLEEPING) (upd ch i true) (upd sp i SSched) wp)
(* sched(), and the scheduler's release(&p->lock) *)
| s_sched n c l pl st ch sp wp i : sp i = SSched -> pl i = Some (Sl i) ->
    step (mkWorld n c l pl st ch sp wp) (mkWorld n c l (upd pl i None) st ch (upd sp i SOff) wp)
(* the scheduler finds it runnable: acquire(&p->lock), RUNNING, swtch() *)
| s_run n c l pl st ch sp wp i : sp i = SOff -> pl i = None -> st i = RUNNABLE ->
    step (mkWorld n c l pl st ch sp wp) (mkWorld n c l (upd pl i (Some (Sl i))) (upd st i RUNNING) ch (upd sp i SBack) wp)
(* p->chan = 0; release(&p->lock) *)
| s_back n c l pl st ch sp wp i : sp i = SBack -> pl i = Some (Sl i) ->
    step (mkWorld n c l pl st ch sp wp) (mkWorld n c l (upd pl i None) st (upd ch i false) (upd sp i SRelock) wp)
(* acquire(lk), and back to the test *)
| s_relock n c pl st ch sp wp i : sp i = SRelock ->
    step (mkWorld n c None pl st ch sp wp) (mkWorld n c (Some (Sl i)) pl st ch (upd sp i STest) wp)
(* acquire(lk) *)
| w_acquire n c pl st ch sp wp j : wp j = WOut ->
    step (mkWorld n c None pl st ch sp wp) (mkWorld n c (Some (Wk j)) pl st ch sp (upd wp j WSet))
(* make the condition true and call wakeup() *)
| w_set n c pl st ch sp wp j : wp j = WSet ->
    step (mkWorld n c (Some (Wk j)) pl st ch sp wp) (mkWorld n true (Some (Wk j)) pl st ch sp (upd wp j (WLoop 0)))
(* acquire(&p->lock) *)
| w_plock n c l pl st ch sp wp j k : wp j = WLoop k -> (k < n)%nat -> pl k = None ->
    step (mkWorld n c l pl st ch sp wp) (mkWorld n c l (upd pl k (Some (Wk j))) st ch sp (upd wp j (WLook k)))
(* if(p->state == SLEEPING && p->chan == chan) p->state = RUNNABLE; release(&p->lock) *)
| w_look n c l pl st ch sp wp j k : wp j = WLook k ->
    step (mkWorld n c l pl st ch sp wp)
      (mkWorld n c l (upd pl k None)
         (upd st k (if bool_decide (st k = SLEEPING) && ch k then RUNNABLE else st k)) ch sp (upd wp j (WLoop (S k))))
(* the end of the loop *)
| w_end n c l pl st ch sp wp j k : wp j = WLoop k -> (n <= k)%nat ->
    step (mkWorld n c l pl st ch sp wp) (mkWorld n c l pl st ch sp (upd wp j WDone))
(* release(lk) *)
| w_release n c pl st ch sp wp j : wp j = WDone ->
    step (mkWorld n c (Some (Wk j)) pl st ch sp wp) (mkWorld n c None pl st ch sp (upd wp j WOut)).

Definition init (n : nat) : world :=
  mkWorld n false None (fun _ => None) (fun _ => RUNNING) (fun _ => false) (fun _ => SOut) (fun _ => WOut).

Definition s_has_lk (p : spc) : bool := match p with STest | SPlock | SRelease => true | _ => false end.
Definition s_has_plk (p : spc) : bool := match p with SRelease | SAssign | SSched | SBack => true | _ => false end.
Definition w_has_lk (p : wpc) : bool := match p with WOut => false | _ => true end.
Definition w_before (p : wpc) (i : nat) : Prop :=
  match p with WLoop k | WLook k => (k <= i)%nat | _ => False end.

Record inv (w : world) : Prop := {
  i_lk_s : forall i, s_has_lk (spcs w i) = true <-> lk w = Some (Sl i);
  i_lk_w : forall j, w_has_lk (wpcs w j) = true <-> lk w = Some (Wk j);
  i_plk_s : forall i, s_has_plk (spcs w i) = true <-> plk w i = Some (Sl i);
  i_plk_w : forall i j, plk w i = Some (Wk j) -> wpcs w j = WLook i;
  i_plk_w' : forall i j, wpcs w j = WLook i -> plk w i = Some (Wk j);
  i_state : forall i, state w i = SLEEPING -> (spcs w i = SSched \/ spcs w i = SOff) /\ onchan w i = true;
  i_range : forall i, spcs w i <> SOut -> (i < n_procs w)%nat;
  i_cond : forall i, spcs w i = SPlock \/ spcs w i = SRelease -> cond w = false;
  (** no process can be left asleep while the condition holds *)
  i_main : forall i, cond w = true -> spcs w i = SAssign \/ state w i = SLEEPING ->
    exists j, w_before (wpcs w j) i
}.

Lemma race_init n : inv (init n).
Proof. split; cbn; try naive_solver. Qed.

Ltac use_upd :=
  unfold upd in *;
  repeat match goal with
  | H : context [decide (?a = ?b)] |- _ => destruct (decide (a = b)); subst
  | |- context [decide (?a = ?b)] => destruct (decide (a = b)); subst
  end.

Ltac crunch :=
  intros; repeat match goal with H : _ \/ _ |- _ => destruct H end;
  repeat match goal with H : ?f ?x = ?c |- _ => is_var f; rewrite H in * end;
  cbn in *; solve [intuition congruence].

Lemma step_lk w w' :
  step w w' -> inv w ->
  (forall i, s_has_lk (spcs w' i) = true <-> lk w' = Some (Sl i)) /\
  (forall j, w_has_lk (wpcs w' j) = true <-> lk w' = Some (Wk j)).
Proof.
  intros Hs [H1 H2 _ _ _ _ _ _ _].
  destruct Hs; cbn in *; split; intros x; pose proof (H1 x); pose proof (H2 x); try pose proof (H1 i); try pose proof (H2 j);
    clear H1 H2; use_upd; crunch.
Qed.

Lemma step_plk w w' :
  step w w' -> inv w ->
  (forall i, s_has_plk (spcs w' i) = true <-> plk w' i = Some (Sl i)) /\
  (forall i j, plk w' i = Some (Wk j) -> wpcs w' j = WLook i) /\
  (forall i j, wpcs w' j = WLook i -> plk w' i = Some (Wk j)).
Proof.
  intros Hs [_ _ H3 H4 H5 _ _ _ _].
  destruct Hs; cbn in *; (split_and!; [intros x|intros x y|intros x y]);
    pose proof (H3 x); try pose proof (H3 i); try pose proof (H3 k);
    try pose proof (H4 x y); try pose proof (H5 x y); try pose proof (H4 i y); try pose proof (H5 i y);
    try pose proof (H4 k j); try pose proof (H5 k j); try pose proof (H4 x j); try pose proof (H5 x j);
    clear H3 H4 H5; use_upd; crunch.
Qed.

Lemma step_rest w w' :
  step w w' -> inv w ->
  (forall i, state w' i = SLEEPING -> (spcs w' i = SSched \/ spcs w' i = SOff) /\ onchan w' i = true) /\
  (forall i, spcs w' i <> SOut -> (i < n_procs w')%nat) /\
  (forall i, spcs w' i = SPlock \/ spcs w' i = SRelease -> cond w' = false).
Proof.
  intros Hs [H1 H2 H3 _ _ H6 H7 H8 _].
  destruct Hs; cbn in *; split_and!; intros x;
    pose proof (H1 x); try pose proof (H2 j); try pose proof (H1 i); pose proof (H6 x); pose proof (H7 x); pose proof (H8 x);
    try pose proof (H6 i); try pose proof (H7 i); try pose proof (H8 i); try pose proof (H6 k);
    clear H1 H2 H3 H6 H7 H8; use_upd; try destruct (bool_decide (st k = SLEEPING) && ch k) eqn:?; crunch.
Qed.

(** A process that could be left asleep is still ahead of the waker. *)
Lemma step_main w w' :
  step w w' -> inv w ->
  forall i, cond w' = true -> spcs w' i = SAssign \/ state w' i = SLEEPING -> exists j, w_before (wpcs w' j) i.
Proof.
  intros Hs [H1 H2 H3 H4 H5 H6 H7 H8 H9] x.
  assert (Hone : forall j j', w_has_lk (wpcs w j) = true -> w_before (wpcs w j') x -> j' = j).
  { intros j j' Hj Hb. assert (Hj' : w_has_lk (wpcs w j') = true) by (by destruct (wpcs w j')).
    apply H2 in Hj. apply H2 in Hj'. congruence. }
  destruct Hs as [ | | | |n c pl st ch sp wp i Hi|n c l pl st ch sp wp i Hi| | | | |n c pl st ch sp wp j Hj
    |n c pl st ch sp wp j Hj|n c l pl st ch sp wp j k Hj Hk Hpl|n c l pl st ch sp wp j k Hj|n c l pl st ch sp wp j k Hj Hk
    |n c pl st ch sp wp j Hj]; cbn in *; pose proof (H9 x) as Hx;
    try (intros Hc Hd; apply Hx; [done|]; use_upd; naive_solver).
  - intros Hc Hd. destruct (Hx Hc Hd) as (j' & Hj'). exists j'. use_upd; [by rewrite Hj in Hj'|done].
  - intros _ _. exists j. use_upd; [cbn; lia|done].
  - intros Hc Hd. destruct (Hx Hc Hd) as (j' & Hj').
    assert (j' = j) as -> by (apply Hone; [by rewrite Hj|done]). exists j. rewrite Hj in Hj'. use_upd; done.
  - (* the waker has looked at entry k *)
    intros Hc Hd. assert (Hd' : sp x = SAssign \/ st x = SLEEPING).
    { destruct Hd as [|Hd]; [by left|]. right. unfold upd in Hd. destruct (decide (x = k)) as [->|]; [|done].
      destruct (bool_decide (st k = SLEEPING) && ch k); done. }
    destruct (Hx Hc Hd') as (j' & Hj'). assert (j' = j) as -> by (apply Hone; [by rewrite Hj|done]).
    exists j. rewrite Hj in Hj'. unfold upd at 1. rewrite decide_True by done. cbn in *.
    destruct (decide (x = k)) as [->|]; [|lia]. exfalso.
    pose proof (H5 k j Hj) as Hp. unfold upd in Hd. rewrite decide_True in Hd by done. destruct Hd as [Hd|Hd].
    + assert (s_has_plk (sp k) = true) as Hpk by (by rewrite Hd). apply H3 in Hpk. congruence.
    + destruct (bool_decide (st k = SLEEPING) && ch k) eqn:Eb; [done|]. destruct (H6 k Hd) as [_ Ech].
      rewrite Ech, andb_true_r in Eb. by apply bool_decide_eq_false in Eb.
  - intros Hc Hd. destruct (Hx Hc Hd) as (j' & Hj'). assert (j' = j) as -> by (apply Hone; [by rewrite Hj|done]).
    rewrite Hj in Hj'. cbn in Hj'. exfalso.
    assert (sp x <> SOut) as Hin; [|apply H7 in Hin; lia].
    destruct Hd as [Hd|Hd]; [by rewrite Hd|]. by destruct (H6 x Hd) as [[-> | ->] _].
  - intros Hc Hd. destruct (Hx Hc Hd) as (j' & Hj'). assert (j' = j) as -> by (apply Hone; [by rewrite Hj|done]).
    by rewrite Hj in Hj'.
Qed.

Lemma race_step w w' : step w w' -> inv w -> inv w'.
Proof.
  intros Hs Hi. destruct (step_lk _ _ Hs Hi), (step_plk _ _ Hs Hi) as (? & ? & ?), (step_rest _ _ Hs Hi) as (? & ? & ?).
  split; try done. by apply (step_main w).
Qed.

Lemma race_reach n w : rtc step (init n) w -> inv w.
Proof.
  intros Hr. assert (H : forall w0, rtc step w0 w -> inv w0 -> inv w).
  { clear. induction 1; eauto using race_step. }
  eauto using race_init.
Qed.

(** C25: no wakeup is lost.  In every interleaving of the lock operations and
    assignments of any number of processes that wait for a condition with
    sleep() and of processes that make it true and call wakeup(): whenever the
    lock is free and the condition holds, no process is asleep on the channel
    and none is about to be.  Moreover a process that is asleep while the
    condition holds will be reached by the loop of a wakeup() in progress. *)
Theorem no_lost_wakeup n w :
  rtc step (init n) w -> cond w = true ->
  (lk w = None -> forall i, state w i <> SLEEPING /\ spcs w i <> SAssign) /\
  (forall i, state w i = SLEEPING -> exists j, w_before (wpcs w j) i /\ lk w = Some (Wk j)).
Proof.
  intros Hr Hc. destruct (race_reach n w Hr) as [H1 H2 H3 H4 H5 H6 H7 H8 H9].
  assert (Hb : forall i, spcs w i = SAssign \/ state w i = SLEEPING -> exists j, w_before (wpcs w j) i /\ lk w = Some (Wk j)).
  { intros i Hi. destruct (H9 i Hc Hi) as (j & Hj). exists j. split; [done|]. apply H2. by destruct (wpcs w j). }
  split; [|auto]. intros Hl i. split; intros Hi; destruct (Hb i) as (j & _ & Hj); auto; congruence.
Qed.

(** One process goes to sleep and another wakes it. *)
Lemma no_lost_wakeup_witness : exists w, cond w = true /\ state w 0%nat = SLEEPING /\
  (exists j, w_before (wpcs w j) 0 /\ lk w = Some (Wk j)).
Proof.
  eexists. split; [|split].
  3: { refine (proj2 (no_lost_wakeup 1 _ _ _) 0%nat _).
       - eapply rtc_l; [apply (s_acquire 1 false _ _ _ _ _ 0); [lia|reflexivity]|].
         eapply rtc_l; [apply (s_sleep 1 _ _ _ _ _ 0); reflexivity|].
         eapply rtc_l; [apply (s_plock 1 false _ _ _ _ _ _ 0); reflexivity|].
         eapply rtc_l; [apply (s_release 1 false _ _ _ _ _ 0); reflexivity|].
         eapply rtc_l; [apply (s_assign 1 false _ _ _ _ _ _ 0); reflexivity|].
         eapply rtc_l; [apply (s_sched 1 false _ _ _ _ _ _ 0); reflexivity|].
         eapply rtc_l; [apply (w_acquire 1 false _ _ _ _ _ 0); reflexivity|].
         eapply rtc_l; [apply (w_set 1 false _ _ _ _ _ 0); reflexivity|]. apply rtc_refl.
       - reflexivity.
       - reflexivity. }
  - reflexivity.
  - reflexivity.
Defined.
