(* ===== verification/BlockStore.v ===== *)
(** * Blocks inside a transaction

    The file system reads blocks with bread(), changes them in place, hands
    them to log_write() and releases them with brelse().  [LogOps] are these
    routines on some state [T]; [LogStore] is what fs.c relies on.  [log_ops]
    are the routines of Log.v; [ramdisk] is a store without a cache or a log,
    on which the file system can be run and its theorems instantiated. *)

From S2P Require Import Prelude Spinlock Riscv BufCache Log.

Class LogOps (T : Type) := {
  l_bread : Z -> Z -> M T Z;
  l_brelse : Z -> M T unit;
  l_bdata : Z -> M T (list Z);
  l_set_bdata : Z -> list Z -> M T unit;
  l_log_write : Z -> M T unit
}.

(** The routines of bio.c and log.c. *)
Definition log_ops {S} `{BufOps S} (me : Z) : LogOps (lstate S) := {|
  l_bread dev blk := bcall (bread dev blk);
  l_brelse b := bcall (brelse b);
  l_bdata b := bcall (bdata b);
  l_set_bdata b d := bcall (set_bdata b d);
  l_log_write b := log_write me b
|}.

(** What a transaction sees: the contents of the blocks, the blocks whose
    buffer it holds, those it has changed and not yet logged, and how many
    more calls of log_write() there is room for. *)
Record tview := mkTview {
  tcontents : Z -> list Z;
  theld : gmap Z Z;
  tdirty : gset Z;
  troom : nat
}.

Definition t_hold (blk b : Z) (v : tview) : tview :=
  mkTview (tcontents v) (<[blk := b]> (theld v)) (tdirty v) (troom v).
Definition t_drop (blk : Z) (v : tview) : tview :=
  mkTview (tcontents v) (delete blk (theld v)) (tdirty v) (troom v).
Definition t_set (blk : Z) (d : list Z) (v : tview) : tview :=
  mkTview (fupd blk d (tcontents v)) (theld v) ({[blk]} ∪ tdirty v) (troom v).
Definition t_logged (blk : Z) (v : tview) : tview :=
  mkTview (tcontents v) (theld v) (tdirty v ∖ {[blk]}) (pred (troom v)).

(** A buffer cache has room for a bounded number of held blocks: bget() panics
    when every buffer is in use.  The file system never holds more than two
    blocks at once (bmap() holds an indirect block while balloc() reads the
    bitmap), so a store owes a further block only to a caller that holds at
    most one. *)
Definition spare (v : tview) : Prop := (size (theld v) <= 1)%nat.
Lemma spare_empty v : theld v = ∅ -> spare v.
Proof. unfold spare. intros ->. rewrite map_size_empty. lia. Qed.
Lemma spare_hold blk b v : theld v = ∅ -> spare (t_hold blk b v).
Proof. unfold spare. cbn. intros ->. rewrite map_size_insert, map_size_empty, lookup_empty. cbn. lia. Qed.

Class LogStore (T : Type) `{LogOps T} (dv : Z) (R : T -> tview -> Prop) : Prop := {
  t_len : forall t v blk, R t v -> length (tcontents v blk) = Z.to_nat BSIZE;
  t_bytes : forall t v blk, R t v -> Forall is_byte (tcontents v blk);
  t_bread : forall t v blk, R t v -> 0 <= blk < 2 ^ 32 -> theld v !! blk = None -> spare v ->
    wp (l_bread dv blk) t (fun b t' => R t' (t_hold blk b v));
  t_brelse : forall t v blk b, R t v -> theld v !! blk = Some b -> blk ∉ tdirty v ->
    wp (l_brelse b) t (fun _ t' => R t' (t_drop blk v));
  t_bdata : forall t v blk b, R t v -> theld v !! blk = Some b ->
    wp (l_bdata b) t (fun d t' => d = tcontents v blk /\ t' = t);
  t_set_bdata : forall t v blk b d, R t v -> theld v !! blk = Some b -> length d = Z.to_nat BSIZE -> Forall is_byte d ->
    wp (l_set_bdata b d) t (fun _ t' => R t' (t_set blk d v));
  t_log_write : forall t v blk b, R t v -> theld v !! blk = Some b -> (0 < troom v)%nat ->
    wp (l_log_write b) t (fun _ t' => R t' (t_logged blk v))
}.

(** ** A store in memory *)

(** A buffer is the number of its block. *)
Record ramdisk := mkRam { rd_blocks : gmap Z (list Z); rd_held : gset Z; rd_room : nat }.

Definition zero_block : list Z := replicate (Z.to_nat BSIZE) 0.
Definition rd_block (r : ramdisk) (b : Z) : list Z := default zero_block (rd_blocks r !! b).

#[global] Instance ram_ops : LogOps ramdisk := {
  l_bread _ blk := fun r =>
    if decide (blk ∈ rd_held r) then Sleep blk r else Ok blk (mkRam (rd_blocks r) ({[blk]} ∪ rd_held r) (rd_room r));
  l_brelse b := fun r =>
    if decide (b ∈ rd_held r) then Ok tt (mkRam (rd_blocks r) (rd_held r ∖ {[b]}) (rd_room r)) else Panic "brelse";
  l_bdata b := gets (fun r => rd_block r b);
  l_set_bdata b d := modify (fun r => mkRam (<[b := d]> (rd_blocks r)) (rd_held r) (rd_room r));
  l_log_write b := fun r =>
    match rd_room r with
    | O => Panic "too big a transaction"
    | S n => Ok tt (mkRam (rd_blocks r) (rd_held r) n)
    end
}.

Record ram_ok (r : ramdisk) (v : tview) : Prop := {
  rk_contents : forall b, tcontents v b = rd_block r b;
  rk_len : forall b, length (rd_block r b) = Z.to_nat BSIZE;
  rk_bytes : forall b, Forall is_byte (rd_block r b);
  rk_held : forall b x, theld v !! b = Some x <-> b ∈ rd_held r /\ x = b;
  rk_room : troom v = rd_room r
}.

#[global] Instance ram_store dv : LogStore ramdisk dv ram_ok.
Proof.
  split.
  - intros r v b [H1 H2 _ _ _]. by rewrite H1.
  - intros r v b [H1 _ H2 _ _]. by rewrite H1.
  - intros r v b [H1 H2 H3 H4 H5] _ Hb _. unfold wp; cbn. rewrite decide_False.
    + split; try done. intros b' x. cbn. destruct (decide (b = b')) as [<-|Hne].
      * rewrite lookup_insert_eq. set_solver.
      * rewrite lookup_insert_ne by done. rewrite H4. set_solver.
    + intros Hin. assert (theld v !! b = Some b) by (by apply H4). congruence.
  - intros r v b x [H1 H2 H3 H4 H5] Hb _. apply H4 in Hb as [Hb ->]. unfold wp; cbn. rewrite decide_True by done.
    split; try done. intros b' x. cbn. destruct (decide (b = b')) as [<-|Hne].
    + rewrite lookup_delete_eq. set_solver.
    + rewrite lookup_delete_ne by done. rewrite H4. set_solver.
  - intros r v b x [H1 H2 H3 H4 H5] Hb. apply H4 in Hb as [Hb ->]. apply wp_gets. by rewrite H1.
  - intros r v b x d [H1 H2 H3 H4 H5] Hb Hd Hd'. apply H4 in Hb as [Hb ->]. apply wp_modify.
    assert (Hblk : forall b', rd_block (mkRam (<[b:=d]> (rd_blocks r)) (rd_held r) (rd_room r)) b' = fupd b d (rd_block r) b').
    { intros b'. unfold rd_block. cbn. destruct (decide (b = b')) as [<-|Hne].
      - by rewrite lookup_insert_eq, fupd_eq.
      - by rewrite lookup_insert_ne, fupd_ne by done. }
    split; try done; intros b'; rewrite ?Hblk; cbn; unfold fupd; case_decide; auto.
  - intros r v b x [H1 H2 H3 H4 H5] Hb Hr. unfold wp; cbn. rewrite H5 in Hr. destruct (rd_room r) eqn:E; [lia|].
    split; try done. cbn. by rewrite H5.
Qed.
