(* ===== verification/Fs.v ===== *)
(** * The file system (kernel/fs.c)

    Block allocator, inodes, file contents, directories and path names, over
    the transactional blocks of BlockStore.v.  On-disk structures are the
    bytes of blocks, at the offsets of struct superblock, struct dinode and
    struct dirent.  An inode in memory is an entry of the inode table, known
    by its index; [None] is the null pointer.  Bytes move to and from the
    caller through [UserIO] (UserIO.v). *)

From S2P Require Import Prelude Spinlock Riscv Mem BufCache Log UserIO BlockStore.

Definition ROOTINO : Z := 1.
Definition FSMAGIC : Z := 0x10203040.
Definition NDIRECT : Z := 12.
Definition NINDIRECT : Z := BSIZE / 4.
Definition MAXFILE : Z := NDIRECT + NINDIRECT.
Definition IPB : Z := BSIZE / 64.
Definition BPB : Z := BSIZE * 8.
Definition DIRSIZ : Z := 14.
Definition T_DIR : Z := 1.
Definition T_FILE : Z := 2.
Definition T_DEVICE : Z := 3.

Definition IBLOCK (i : Z) (sb : superblock) : Z := i / IPB + sb_inodestart sb.
Definition BBLOCK (b : Z) (sb : superblock) : Z := b / BPB + sb_bmapstart sb.

(** ** Structures in a block *)

Definition get_u16 (d : list Z) (off : nat) : Z := le_val (take 2 (drop off d)).
Definition put_u16 (d : list Z) (off : nat) (v : Z) : list Z :=
  take off d ++ le_bytes 2 v ++ drop (off + 2) d.

(** struct superblock, as memmove() copies it out of block 1. *)
Definition get_super (d : list Z) : superblock :=
  mkSuper (get_u32 d 0) (get_u32 d 4) (get_u32 d 8) (get_u32 d 12) (get_u32 d 16)
    (get_u32 d 20) (get_u32 d 24) (get_u32 d 28).

(** struct dinode: four shorts, size, addrs\[NDIRECT+1\]; 64 bytes. *)
Record dinode := mkDinode {
  di_type : Z; di_major : Z; di_minor : Z; di_nlink : Z; di_size : Z; di_addrs : list Z
}.
Definition dinode_off (inum : Z) : nat := Z.to_nat (64 * (inum mod IPB)).
Definition get_dinode (d : list Z) (o : nat) : dinode :=
  mkDinode (i16 (get_u16 d o)) (i16 (get_u16 d (o + 2))) (i16 (get_u16 d (o + 4))) (i16 (get_u16 d (o + 6)))
    (get_u32 d (o + 8)) (map (fun i => get_u32 d (o + 12 + 4 * i)) (seq 0 13)).

(** Writing an array of uints. *)
Fixpoint put_u32s (d : list Z) (o : nat) (vs : list Z) : list Z :=
  match vs with
  | [] => d
  | v :: vs => put_u32s (put_u32 d o v) (o + 4) vs
  end.
Definition put_dinode (d : list Z) (o : nat) (di : dinode) : list Z :=
  let d := put_u16 d o (di_type di) in
  let d := put_u16 d (o + 2) (di_major di) in
  let d := put_u16 d (o + 4) (di_minor di) in
  let d := put_u16 d (o + 6) (di_nlink di) in
  let d := put_u32 d (o + 8) (di_size di) in
  put_u32s d (o + 12) (di_addrs di).

(** The copy of [bs] into [d] at [o]. *)
Definition splice (d : list Z) (o : nat) (bs : list Z) : list Z := take o d ++ bs ++ drop (o + length bs) d.

(** struct inode *)
Record inode := mkInode {
  i_dev : Z; i_inum : Z; i_ref : Z; i_lock : sleeplock; i_valid : Z; i_di : dinode
}.
Definition i_type ip := di_type (i_di ip).
Definition i_nlink ip := di_nlink (i_di ip).
Definition i_size ip := di_size (i_di ip).
Definition i_addrs ip := di_addrs (i_di ip).

Definition set_iref v ip := mkInode (i_dev ip) (i_inum ip) v (i_lock ip) (i_valid ip) (i_di ip).
Definition set_ilock v ip := mkInode (i_dev ip) (i_inum ip) (i_ref ip) v (i_valid ip) (i_di ip).
Definition set_ivalid v ip := mkInode (i_dev ip) (i_inum ip) (i_ref ip) (i_lock ip) v (i_di ip).
Definition set_idi v ip := mkInode (i_dev ip) (i_inum ip) (i_ref ip) (i_lock ip) (i_valid ip) v.
Definition set_itype v ip := set_idi (mkDinode v (di_major (i_di ip)) (di_minor (i_di ip)) (di_nlink (i_di ip)) (di_size (i_di ip)) (di_addrs (i_di ip))) ip.
Definition set_inlink v ip := set_idi (mkDinode (di_type (i_di ip)) (di_major (i_di ip)) (di_minor (i_di ip)) v (di_size (i_di ip)) (di_addrs (i_di ip))) ip.
Definition set_isize v ip := set_idi (mkDinode (di_type (i_di ip)) (di_major (i_di ip)) (di_minor (i_di ip)) (di_nlink (i_di ip)) v (di_addrs (i_di ip))) ip.
Definition set_iaddr (k v : Z) ip := set_idi (mkDinode (di_type (i_di ip)) (di_major (i_di ip)) (di_minor (i_di ip)) (di_nlink (i_di ip)) (di_size (i_di ip)) (<[Z.to_nat k := v]> (di_addrs (i_di ip)))) ip.

Definition zero_dinode : dinode := mkDinode 0 0 0 0 0 (replicate 13 0).
Definition zero_inode : inode := mkInode 0 0 0 (initsleeplock "inode") 0 zero_dinode.

(** The file system: sb, itable, and below it the blocks and the caller. *)
Record fstate (T U : Type) := mkF {
  f_sb : superblock; it_lock : spinlock; inodes : list inode; ft : T; fu : U
}.
Arguments mkF {T U} _ _ _ _ _.
Arguments f_sb {T U} _.
Arguments it_lock {T U} _.
Arguments inodes {T U} _.
Arguments ft {T U} _.
Arguments fu {T U} _.

(** ** Path elements *)

Definition SLASH : Z := 47.

(** The loop that skips slashes. *)
Fixpoint skip_slashes (path : list Z) : list Z :=
  match path with
  | c :: path' => if c =? SLASH then skip_slashes path' else path
  | [] => []
  end.

(** The loop that runs to the next slash or the NUL: the element passed over and
    the rest; a path is its characters before the NUL. *)
Fixpoint take_elem (path : list Z) : list Z * list Z :=
  match path with
  | c :: path' => if c =? SLASH then ([], path) else let '(e, r) := take_elem path' in (c :: e, r)
  | [] => ([], [])
  end.

(** skipelem(path, name): the rest of the path and the buffer [name]; None
    for a null result. *)
Definition skipelem (path name : list Z) : option (list Z * list Z) :=
  match skip_slashes path with
  | [] => None
  | path =>
      let '(s, path) := take_elem path in
      let len := Z.of_nat (length s) in
      let name :=
        if DIRSIZ <=? len then splice name 0 (take (Z.to_nat DIRSIZ) s)
        else splice (splice name 0 s) (length s) [0] in
      Some (skip_slashes path, name)
  end.

(** namecmp(): strncmp() on two buffers of DIRSIZ bytes. *)
Fixpoint strncmp (n : nat) (p q : list Z) : Z :=
  match n with
  | O => 0
  | S n =>
      let a := hd 0 p in
      let b := hd 0 q in
      if negb (a =? 0) && (a =? b) then strncmp n (tail p) (tail q) else a - b
  end.
Definition namecmp (s t : list Z) : Z := strncmp (Z.to_nat DIRSIZ) s t.

(** strncpy(de.name, name, DIRSIZ): characters up to the NUL, then NULs. *)
Fixpoint strncpy (n : nat) (t : list Z) : list Z :=
  match n with
  | O => []
  | S n => match t with
           | c :: t => if c =? 0 then 0 :: replicate n 0 else c :: strncpy n t
           | [] => replicate (S n) 0
           end
  end.

Section Fs.
Context {T U : Type} `{LogOps T} `{UserIO U}.
Variables (me pid : Z).
(** Kernel addresses of the local [struct dirent de] and how its bytes are
    read back. *)
Variable de_addr : Z.
Variable kload : Z -> nat -> U -> list Z.

Notation F := (fstate T U).

Definition blk_lens : lens F T := Lens ft (fun t s => mkF (f_sb s) (it_lock s) (inodes s) t (fu s)).
Definition it_lock_lens : lens F spinlock := Lens it_lock (fun l s => mkF (f_sb s) l (inodes s) (ft s) (fu s)).
Definition iget_at (i : Z) (s : F) : inode := default zero_inode (inodes s !! Z.to_nat i).
Definition geti {A} (i : Z) (f : inode -> A) : M F A := gets (fun s => f (iget_at i s)).
Definition seti (i : Z) (f : inode -> inode) : M F unit :=
  modify (fun s => mkF (f_sb s) (it_lock s) (alter f (Z.to_nat i) (inodes s)) (ft s) (fu s)).
Definition i_lock_lens (i : Z) : lens F sleeplock :=
  Lens (fun s => i_lock (iget_at i s)) (fun l s => mkF (f_sb s) (it_lock s) (alter (set_ilock l) (Z.to_nat i) (inodes s)) (ft s) (fu s)).
Definition blk {A} (m : M T A) : M F A := zoom blk_lens m.
Definition set_fu (u : U) : M F unit := modify (fun s => mkF (f_sb s) (it_lock s) (inodes s) (ft s) u).

Definition readsb (dev : Z) : M F superblock :=
  let! bp := blk (l_bread dev 1) in
  let! d := blk (l_bdata bp) in
  blk (l_brelse bp) ;;
  ret (get_super d).

(** [initlog] is the call into the log. *)
Definition fsinit (initlog : Z -> superblock -> M F unit) (dev : Z) : M F unit :=
  let! sb := readsb dev in
  modify (fun s => mkF sb (it_lock s) (inodes s) (ft s) (fu s)) ;;
  if negb (sb_magic sb =? FSMAGIC) then panic "invalid file system"
  else initlog dev sb.

Definition bzero (dev bno : Z) : M F unit :=
  let! bp := blk (l_bread dev bno) in
  blk (l_set_bdata bp (replicate (Z.to_nat BSIZE) 0)) ;;
  blk (l_log_write bp) ;;
  blk (l_brelse bp).

(** Bit [bi] of the bitmap in a block. *)
Definition bit_mask (bi : Z) : Z := Z.shiftl 1 (bi mod 8).
Definition bit_byte (d : list Z) (bi : Z) : Z := default 0 (d !! Z.to_nat (bi / 8)).
Definition bit_free (d : list Z) (bi : Z) : bool := Z.land (bit_byte d bi) (bit_mask bi) =? 0.

(** The inner loop of balloc(), from bit [bi]: the first free one. *)
Fixpoint balloc_scan (n : nat) (size : Z) (d : list Z) (b bi : Z) : option Z :=
  match n with
  | O => None
  | S n =>
      if (bi <? BPB) && (b + bi <? size) then
        if bit_free d bi then Some bi else balloc_scan n size d b (bi + 1)
      else None
  end.

Definition balloc_body (dev b : Z) : M F (Z + Z) :=
  let! sb := gets f_sb in
  if b <? sb_size sb then
    let! bp := blk (l_bread dev (BBLOCK b sb)) in
    let! d := blk (l_bdata bp) in
    match balloc_scan (Z.to_nat BPB) (sb_size sb) d b 0 with
    | Some bi =>
        blk (l_set_bdata bp (<[Z.to_nat (bi / 8) := u8 (Z.lor (bit_byte d bi) (bit_mask bi))]> d)) ;;
        blk (l_log_write bp) ;;
        blk (l_brelse bp) ;;
        bzero dev (b + bi) ;;
        ret (inr (b + bi))
    | None =>
        blk (l_brelse bp) ;;
        ret (inl (b + BPB))
    end
  else ret (inr 0).

(** The message that printf() gives before 0 is returned is left out, here and
    in ialloc(). *)
Definition balloc (dev : Z) : M F Z :=
  let! sb := gets f_sb in
  loop (Z.to_nat (sb_size sb / BPB) + 2) (balloc_body dev) 0.

Definition bfree (dev b : Z) : M F unit :=
  let! sb := gets f_sb in
  let! bp := blk (l_bread dev (BBLOCK b sb)) in
  let bi := b mod BPB in
  let! d := blk (l_bdata bp) in
  if bit_free d bi then panic "freeing free block"
  else
    blk (l_set_bdata bp (<[Z.to_nat (bi / 8) := u8 (Z.land (bit_byte d bi) (Z.lnot (bit_mask bi)))]> d)) ;;
    blk (l_log_write bp) ;;
    blk (l_brelse bp).

Definition iinit : M F unit :=
  modify (fun s => mkF (f_sb s) (initlock "itable") (inodes s) (ft s) (fu s)) ;;
  for_range (Z.to_nat NINODE) 0 (fun i => seti i (set_ilock (initsleeplock "inode"))).

(** The loop of iget(): the variables are the index and [empty]. *)
Definition iget_body (dev inum : Z) (v : Z * option Z) : M F (Z * option Z + (Z + option Z)) :=
  let '(i, empty) := v in
  if i <? NINODE then
    let! ip := geti i id in
    if (0 <? i_ref ip) && (i_dev ip =? dev) && (i_inum ip =? inum) then
      seti i (fun ip => set_iref (i32 (i_ref ip + 1)) ip) ;;
      release_at me it_lock_lens ;;
      ret (inr (inl i))
    else
      let empty := match empty with
                   | Some _ => empty
                   | None => if i_ref ip =? 0 then Some i else None
                   end in
      ret (inl (i + 1, empty))
  else ret (inr (inr empty)).

Definition iget (dev inum : Z) : M F Z :=
  acquire_at me it_lock_lens ;;
  let! r := loop (Z.to_nat NINODE + 1) (iget_body dev inum) (0, None) in
  match r with
  | inl i => ret i
  | inr None => panic "iget: no inodes"
  | inr (Some i) =>
      seti i (fun ip => mkInode dev inum 1 (i_lock ip) 0 (i_di ip)) ;;
      release_at me it_lock_lens ;;
      ret i
  end.

Definition ialloc_body (dev type inum : Z) : M F (Z + option Z) :=
  let! sb := gets f_sb in
  if inum <? sb_ninodes sb then
    let! bp := blk (l_bread dev (IBLOCK inum sb)) in
    let! d := blk (l_bdata bp) in
    if di_type (get_dinode d (dinode_off inum)) =? 0 then
      let d' := splice d (dinode_off inum) (replicate 64 0) in
      blk (l_set_bdata bp (put_u16 d' (dinode_off inum) type)) ;;
      blk (l_log_write bp) ;;
      blk (l_brelse bp) ;;
      let! i := iget dev inum in
      ret (inr (Some i))
    else
      blk (l_brelse bp) ;;
      ret (inl (inum + 1))
  else ret (inr None).
Definition ialloc (dev type : Z) : M F (option Z) :=
  let! sb := gets f_sb in
  loop (Z.to_nat (sb_ninodes sb) + 1) (ialloc_body dev type) 1.

Definition iupdate (i : Z) : M F unit :=
  let! ip := geti i id in
  let! sb := gets f_sb in
  let! bp := blk (l_bread (i_dev ip) (IBLOCK (i_inum ip) sb)) in
  let! d := blk (l_bdata bp) in
  blk (l_set_bdata bp (put_dinode d (dinode_off (i_inum ip)) (i_di ip))) ;;
  blk (l_log_write bp) ;;
  blk (l_brelse bp).

Definition idup (i : Z) : M F Z :=
  acquire_at me it_lock_lens ;;
  seti i (fun ip => set_iref (i32 (i_ref ip + 1)) ip) ;;
  release_at me it_lock_lens ;;
  ret i.

Definition ilock (i : Z) : M F unit :=
  let! ip := geti i id in
  if i_ref ip <? 1 then panic "ilock"
  else
    zoom (i_lock_lens i) (acquiresleep me pid i) ;;
    let! ip := geti i id in
    when (i_valid ip =? 0)
      (let! sb := gets f_sb in
       let! bp := blk (l_bread (i_dev ip) (IBLOCK (i_inum ip) sb)) in
       let! d := blk (l_bdata bp) in
       seti i (set_idi (get_dinode d (dinode_off (i_inum ip)))) ;;
       blk (l_brelse bp) ;;
       seti i (set_ivalid 1) ;;
       let! ip := geti i id in
       if i_type ip =? 0 then panic "ilock: no type" else ret tt).

Definition iunlock (i : Z) : M F unit :=
  let! h := zoom (i_lock_lens i) (holdingsleep me pid) in
  let! ip := geti i id in
  if negb h || (i_ref ip <? 1) then panic "iunlock"
  else zoom (i_lock_lens i) (releasesleep me i).

(** The uints of an indirect block. *)
Definition ind_get (d : list Z) (j : Z) : Z := get_u32 d (4 * Z.to_nat j).
Definition ind_put (d : list Z) (j v : Z) : list Z := put_u32 d (4 * Z.to_nat j) v.

Definition bmap (i bn : Z) : M F Z :=
  let! ip := geti i id in
  if bn <? NDIRECT then
    let addr := default 0 (i_addrs ip !! Z.to_nat bn) in
    if addr =? 0 then
      let! addr := balloc (i_dev ip) in
      if addr =? 0 then ret 0
      else seti i (set_iaddr bn addr) ;; ret addr
    else ret addr
  else
    let bn := bn - NDIRECT in
    if bn <? NINDIRECT then
      let addr := default 0 (i_addrs ip !! Z.to_nat NDIRECT) in
      let! addr :=
        (if addr =? 0 then
           let! addr := balloc (i_dev ip) in
           when (negb (addr =? 0)) (seti i (set_iaddr NDIRECT addr)) ;;
           ret addr
         else ret addr) in
      if addr =? 0 then ret 0
      else
        let! bp := blk (l_bread (i_dev ip) addr) in
        let! a := blk (l_bdata bp) in
        let addr := ind_get a bn in
        let! addr :=
          (if addr =? 0 then
             let! addr := balloc (i_dev ip) in
             when (negb (addr =? 0))
               (let! a := blk (l_bdata bp) in
                blk (l_set_bdata bp (ind_put a bn addr)) ;;
                blk (l_log_write bp)) ;;
             ret addr
           else ret addr) in
        blk (l_brelse bp) ;;
        ret addr
    else panic "bmap: out of range".

Definition itrunc (i : Z) : M F unit :=
  for_range (Z.to_nat NDIRECT) 0 (fun k =>
    let! ip := geti i id in
    let a := default 0 (i_addrs ip !! Z.to_nat k) in
    when (negb (a =? 0)) (bfree (i_dev ip) a ;; seti i (set_iaddr k 0))) ;;
  let! ip := geti i id in
  let ind := default 0 (i_addrs ip !! Z.to_nat NDIRECT) in
  when (negb (ind =? 0))
    (let! bp := blk (l_bread (i_dev ip) ind) in
     let! a := blk (l_bdata bp) in
     for_range (Z.to_nat NINDIRECT) 0 (fun j =>
       when (negb (ind_get a j =? 0)) (bfree (i_dev ip) (ind_get a j))) ;;
     blk (l_brelse bp) ;;
     bfree (i_dev ip) ind ;;
     seti i (set_iaddr NDIRECT 0)) ;;
  seti i (set_isize 0) ;;
  iupdate i.

Definition iput (i : Z) : M F unit :=
  acquire_at me it_lock_lens ;;
  let! ip := geti i id in
  when ((i_ref ip =? 1) && negb (i_valid ip =? 0) && (i_nlink ip =? 0))
    (zoom (i_lock_lens i) (acquiresleep me pid i) ;;
     release_at me it_lock_lens ;;
     itrunc i ;;
     seti i (set_itype 0) ;;
     iupdate i ;;
     seti i (set_ivalid 0) ;;
     zoom (i_lock_lens i) (releasesleep me i) ;;
     acquire_at me it_lock_lens) ;;
  seti i (fun ip => set_iref (i32 (i_ref ip - 1)) ip) ;;
  release_at me it_lock_lens.

Definition iunlockput (i : Z) : M F unit := iunlock i ;; iput i.

(** struct stat *)
Definition stati (ip : inode) : Z * Z * Z * Z * Z := (i_dev ip, i_inum ip, i_type ip, i_nlink ip, i_size ip).

(** ** File contents *)

(** The loop of readi(): its variables are tot, off and dst. *)
Definition readi_body (i : Z) (user_dst : bool) (n : Z) (v : Z * Z * Z) : M F (Z * Z * Z + Z) :=
  let '(tot, off, dst) := v in
  if tot <? n then
    let! addr := bmap i (off / BSIZE) in
    if addr =? 0 then ret (inr tot)
    else
      let! dev := geti i i_dev in
      let! bp := blk (l_bread dev addr) in
      let m := Z.min (n - tot) (BSIZE - off mod BSIZE) in
      let! d := blk (l_bdata bp) in
      let! r := gets (fun s => either_copyout user_dst dst (take (Z.to_nat m) (drop (Z.to_nat (off mod BSIZE)) d)) (fu s)) in
      set_fu (snd r) ;;
      if negb (fst r) then blk (l_brelse bp) ;; ret (inr (-1))
      else
        blk (l_brelse bp) ;;
        ret (inl (u32 (tot + m), u32 (off + m), u64 (dst + m)))
  else ret (inr tot).

Definition readi (i : Z) (user_dst : bool) (dst off n : Z) : M F Z :=
  let! ip := geti i id in
  if (i_size ip <? off) || (u32 (off + n) <? off) then ret 0
  else
    let n := if i_size ip <? u32 (off + n) then i_size ip - off else n in
    let! tot := loop (Z.to_nat (n / BSIZE) + 3) (readi_body i user_dst n) (0, off, dst) in
    ret (i32 tot).

(** The loop of writei(): it ends with tot and off. *)
Definition writei_body (i : Z) (user_src : bool) (n : Z) (v : Z * Z * Z) : M F (Z * Z * Z + Z * Z) :=
  let '(tot, off, src) := v in
  if tot <? n then
    let! addr := bmap i (off / BSIZE) in
    if addr =? 0 then ret (inr (tot, off))
    else
      let! dev := geti i i_dev in
      let! bp := blk (l_bread dev addr) in
      let m := Z.min (n - tot) (BSIZE - off mod BSIZE) in
      let! d := blk (l_bdata bp) in
      let! r := gets (fun s => either_copyin user_src src m (fu s)) in
      match r with
      | None =>
          (* what was copied before the failure stays in the buffer *)
          let! part := gets (fun s => partial_copyin user_src src m (fu s)) in
          blk (l_set_bdata bp (splice d (Z.to_nat (off mod BSIZE)) part)) ;;
          blk (l_brelse bp) ;; ret (inr (tot, off))
      | Some bs =>
          blk (l_set_bdata bp (splice d (Z.to_nat (off mod BSIZE)) bs)) ;;
          blk (l_log_write bp) ;;
          blk (l_brelse bp) ;;
          ret (inl (u32 (tot + m), u32 (off + m), u64 (src + m)))
      end
  else ret (inr (tot, off)).

Definition writei (i : Z) (user_src : bool) (src off n : Z) : M F Z :=
  let! ip := geti i id in
  if (i_size ip <? off) || (u32 (off + n) <? off) then ret (-1)
  else if MAXFILE * BSIZE <? u32 (off + n) then ret (-1)
  else
    let! (tot, off) := loop (Z.to_nat (n / BSIZE) + 3) (writei_body i user_src n) (0, off, src) in
    let! ip := geti i id in
    when (i_size ip <? off) (seti i (set_isize off)) ;;
    iupdate i ;;
    ret (i32 tot).

(** ** Directories *)

Definition SIZEOF_DE : Z := 16.
Definition de_inum (bs : list Z) : Z := get_u16 bs 0.
Definition de_name (bs : list Z) : list Z := drop 2 bs.
Definition read_de (u : U) : list Z := kload de_addr (Z.to_nat SIZEOF_DE) u.

(** dirlookup(): the inode found and the offset of its entry. *)
Definition dirlookup_body (i : Z) (name : list Z) (off : Z) : M F (Z + option (Z * Z)) :=
  let! ip := geti i id in
  if off <? i_size ip then
    let! r := readi i false de_addr off SIZEOF_DE in
    if negb (r =? SIZEOF_DE) then panic "dirlookup read"
    else
      let! de := gets (fun s => read_de (fu s)) in
      if de_inum de =? 0 then ret (inl (u32 (off + SIZEOF_DE)))
      else if namecmp name (de_name de) =? 0 then
        let! j := iget (i_dev ip) (de_inum de) in
        ret (inr (Some (j, off)))
      else ret (inl (u32 (off + SIZEOF_DE)))
  else ret (inr None).

Definition dirlookup (i : Z) (name : list Z) : M F (option (Z * Z)) :=
  let! ip := geti i id in
  if negb (i_type ip =? T_DIR) then panic "dirlookup not DIR"
  else loop (Z.to_nat (i_size ip / SIZEOF_DE) + 2) (dirlookup_body i name) 0.

(** The search of dirlink() for an empty entry: its offset. *)
Definition dirlink_body (i : Z) (off : Z) : M F (Z + Z) :=
  let! ip := geti i id in
  if off <? i_size ip then
    let! r := readi i false de_addr off SIZEOF_DE in
    if negb (r =? SIZEOF_DE) then panic "dirlink read"
    else
      let! de := gets (fun s => read_de (fu s)) in
      if de_inum de =? 0 then ret (inr off) else ret (inl (off + SIZEOF_DE))
  else ret (inr off).

Definition dirlink (i : Z) (name : list Z) (inum : Z) : M F Z :=
  let! r := dirlookup i name in
  match r with
  | Some (j, _) => iput j ;; ret (-1)
  | None =>
      let! ip := geti i id in
      let! off := loop (Z.to_nat (i_size ip / SIZEOF_DE) + 2) (dirlink_body i) 0 in
      let de := le_bytes 2 (u16 inum) ++ strncpy (Z.to_nat DIRSIZ) name in
      let! w := gets (fun s => either_copyout false de_addr de (fu s)) in
      set_fu (snd w) ;;
      let! r := writei i false de_addr off SIZEOF_DE in
      if negb (r =? SIZEOF_DE) then ret (-1) else ret 0
  end.

(** ** Path names *)

(** One iteration of the loop of namex(), on inode, path and name buffer. *)
Definition namex_body (parent : bool) (v : Z * list Z * list Z)
  : M F (Z * list Z * list Z + option (Z * list Z)) :=
  let '(ip, path, name) := v in
  match skipelem path name with
  | None => if parent then iput ip ;; ret (inr None) else ret (inr (Some (ip, name)))
  | Some (path, name) =>
      ilock ip ;;
      let! ty := geti ip i_type in
      if negb (ty =? T_DIR) then iunlockput ip ;; ret (inr None)
      else if parent && (match path with [] => true | _ => false end) then
        iunlock ip ;; ret (inr (Some (ip, name)))
      else
        let! next := dirlookup ip name in
        match next with
        | None => iunlockput ip ;; ret (inr None)
        | Some (next, _) => iunlockput ip ;; ret (inl (next, path, name))
        end
  end.

(** [cwd] is myproc()->cwd. *)
Definition namex (cwd : Z) (path : list Z) (parent : bool) (name : list Z) : M F (option (Z * list Z)) :=
  let! ip := (if hd 0 path =? SLASH then iget ROOTDEV ROOTINO else idup cwd) in
  loop (length path + 2) (namex_body parent) (ip, path, name).

(** The local array name starts with zeroes; namex() stores an element before
    it is read. *)
Definition namei (cwd : Z) (path : list Z) : M F (option Z) :=
  let! r := namex cwd path false (replicate (Z.to_nat DIRSIZ) 0) in
  ret (fst <$> r).

Definition nameiparent (cwd : Z) (path name : list Z) : M F (option (Z * list Z)) :=
  namex cwd path true name.

End Fs.
