(* ===== verification/File.v ===== *)
(** * Open files (kernel/file.c and pipealloc of kernel/pipe.c)

    The table of open files and the calls on a [struct file].  What a file
    refers to (a pipe, an inode, a device) is reached through the interface
    [FileEnv]; FileFacts.v proves the reference counting against it, and
    Sysfile.v implements it with the file system and the pipes. *)

From S2P Require Import Prelude Spinlock Riscv BufCache Log Fs.

Inductive ftype := FD_NONE | FD_PIPE | FD_INODE | FD_DEVICE.
#[global] Instance ftype_eq_dec : EqDecision ftype.
Proof. solve_decision. Defined.

(** struct file.  A [struct file *] is one more than its index in the table,
    and 0 is null; a pipe is the address of its page. *)
Record file := mkFile {
  fl_type : ftype; fl_ref : Z; fl_readable : Z; fl_writable : Z;
  fl_pipe : Z; fl_ip : Z; fl_off : Z; fl_major : Z
}.
Definition set_ftype v f := mkFile v (fl_ref f) (fl_readable f) (fl_writable f) (fl_pipe f) (fl_ip f) (fl_off f) (fl_major f).
Definition set_fref v f := mkFile (fl_type f) v (fl_readable f) (fl_writable f) (fl_pipe f) (fl_ip f) (fl_off f) (fl_major f).
Definition set_freadable v f := mkFile (fl_type f) (fl_ref f) v (fl_writable f) (fl_pipe f) (fl_ip f) (fl_off f) (fl_major f).
Definition set_fwritable v f := mkFile (fl_type f) (fl_ref f) (fl_readable f) v (fl_pipe f) (fl_ip f) (fl_off f) (fl_major f).
Definition set_fpipe v f := mkFile (fl_type f) (fl_ref f) (fl_readable f) (fl_writable f) v (fl_ip f) (fl_off f) (fl_major f).
Definition set_fip v f := mkFile (fl_type f) (fl_ref f) (fl_readable f) (fl_writable f) (fl_pipe f) v (fl_off f) (fl_major f).
Definition set_foff v f := mkFile (fl_type f) (fl_ref f) (fl_readable f) (fl_writable f) (fl_pipe f) (fl_ip f) v (fl_major f).
Definition set_fmajor v f := mkFile (fl_type f) (fl_ref f) (fl_readable f) (fl_writable f) (fl_pipe f) (fl_ip f) (fl_off f) v.

(** struct stat, as stati() fills it. *)
Record stat := mkStat { st_dev : Z; st_ino : Z; st_type : Z; st_nlink : Z; st_size : Z }.

(** What the routines of file.c call, on a state [X]. *)
Class FileEnv (X : Type) := {
  fe_pipeclose : Z -> bool -> M X unit;
  fe_piperead : Z -> Z -> Z -> M X Z;
  fe_pipewrite : Z -> Z -> Z -> M X Z;
  (** pipealloc() of the page: kalloc(), and the assignments to *pi *)
  fe_kalloc : M X Z;
  fe_kfree : Z -> M X unit;
  fe_pipe_init : Z -> M X unit;
  fe_begin_op : M X unit;
  fe_end_op : M X unit;
  fe_iput : Z -> M X unit;
  fe_ilock : Z -> M X unit;
  fe_iunlock : Z -> M X unit;
  fe_stati : Z -> M X stat;
  fe_readi : Z -> Z -> Z -> Z -> M X Z;
  fe_writei : Z -> Z -> Z -> Z -> M X Z;
  (** devsw[major].read and .write; None for a null pointer *)
  fe_devread : Z -> option (Z -> Z -> M X Z);
  fe_devwrite : Z -> option (Z -> Z -> M X Z);
  (** copyout(myproc()->pagetable, addr, bytes) *)
  fe_copyout : Z -> list Z -> M X Z
}.

(** ftable, and everything below it. *)
Record ftab (X : Type) := mkFtab { ft_lock : spinlock; files : list file; ft_env : X }.
Arguments mkFtab {X} _ _ _.
Arguments ft_lock {X} _.
Arguments files {X} _.
Arguments ft_env {X} _.

Definition zero_file : file := mkFile FD_NONE 0 0 0 0 0 0 0.

Section File.
Context {X : Type} `{FileEnv X}.
Variable me : Z.
(** The four bytes of padding in struct stat, whatever is on the stack. *)
Variable st_pad : list Z.

Definition ft_lock_lens : lens (ftab X) spinlock := Lens ft_lock (fun l s => mkFtab l (files s) (ft_env s)).
Definition ft_env_lens : lens (ftab X) X := Lens ft_env (fun x s => mkFtab (ft_lock s) (files s) x).
Definition fenv {A} (m : M X A) : M (ftab X) A := zoom ft_env_lens m.
Definition fslot (f : Z) : nat := Z.to_nat (f - 1).
Definition fget (f : Z) (s : ftab X) : file := default zero_file (files s !! fslot f).
Definition getf {A} (f : Z) (g : file -> A) : M (ftab X) A := gets (fun s => g (fget f s)).
Definition setf (f : Z) (g : file -> file) : M (ftab X) unit :=
  modify (fun s => mkFtab (ft_lock s) (alter g (fslot f) (files s)) (ft_env s)).

Definition fileinit : M (ftab X) unit :=
  modify (fun s => mkFtab (initlock "ftable") (files s) (ft_env s)).

(** The search loop of filealloc(). *)
Definition filealloc_body (f : Z) : M (ftab X) (Z + Z) :=
  if f <? 1 + NFILE then
    let! r := getf f fl_ref in
    if r =? 0 then
      setf f (set_fref 1) ;;
      release_at me ft_lock_lens ;;
      ret (inr f)
    else ret (inl (f + 1))
  else
    release_at me ft_lock_lens ;;
    ret (inr 0).

Definition filealloc : M (ftab X) Z :=
  acquire_at me ft_lock_lens ;;
  loop (Z.to_nat NFILE + 1) filealloc_body 1.

Definition filedup (f : Z) : M (ftab X) Z :=
  acquire_at me ft_lock_lens ;;
  let! r := getf f fl_ref in
  if r <? 1 then panic "filedup"
  else
    setf f (set_fref (i32 (r + 1))) ;;
    release_at me ft_lock_lens ;;
    ret f.

Definition fileclose (f : Z) : M (ftab X) unit :=
  acquire_at me ft_lock_lens ;;
  let! r := getf f fl_ref in
  if r <? 1 then panic "fileclose"
  else
    setf f (set_fref (r - 1)) ;;
    if 0 <? r - 1 then release_at me ft_lock_lens
    else
      let! ff := getf f id in
      setf f (set_fref 0) ;;
      setf f (set_ftype FD_NONE) ;;
      release_at me ft_lock_lens ;;
      match fl_type ff with
      | FD_PIPE => fenv (fe_pipeclose (fl_pipe ff) (negb (fl_writable ff =? 0)))
      | FD_INODE | FD_DEVICE => fenv (fe_begin_op) ;; fenv (fe_iput (fl_ip ff)) ;; fenv (fe_end_op)
      | FD_NONE => ret tt
      end.

(** The bytes of a struct stat. *)
Definition stat_bytes (st : stat) : list Z :=
  le_bytes 4 (st_dev st) ++ le_bytes 4 (st_ino st) ++ le_bytes 2 (st_type st) ++ le_bytes 2 (st_nlink st)
  ++ st_pad ++ le_bytes 8 (st_size st).

Definition filestat (f addr : Z) : M (ftab X) Z :=
  let! fl := getf f id in
  match fl_type fl with
  | FD_INODE | FD_DEVICE =>
      fenv (fe_ilock (fl_ip fl)) ;;
      let! st := fenv (fe_stati (fl_ip fl)) in
      fenv (fe_iunlock (fl_ip fl)) ;;
      let! r := fenv (fe_copyout addr (stat_bytes st)) in
      if r <? 0 then ret (-1) else ret 0
  | _ => ret (-1)
  end.

Definition fileread (f addr n : Z) : M (ftab X) Z :=
  let! fl := getf f id in
  if fl_readable fl =? 0 then ret (-1)
  else
    match fl_type fl with
    | FD_PIPE => fenv (fe_piperead (fl_pipe fl) addr n)
    | FD_DEVICE =>
        if (fl_major fl <? 0) || (NDEV <=? fl_major fl) then ret (-1)
        else match fe_devread (fl_major fl) with
             | None => ret (-1)
             | Some rd => fenv (rd addr n)
             end
    | FD_INODE =>
        fenv (fe_ilock (fl_ip fl)) ;;
        let! r := fenv (fe_readi (fl_ip fl) addr (fl_off fl) (u32 n)) in
        when (0 <? r) (setf f (fun fl => set_foff (u32 (fl_off fl + r)) fl)) ;;
        fenv (fe_iunlock (fl_ip fl)) ;;
        ret r
    | FD_NONE => panic "fileread"
    end.

(** The largest number of bytes written in one transaction. *)
Definition filewrite_max : Z := (MAXOPBLOCKS - 1 - 1 - 2) / 2 * BSIZE.

(** One iteration of the loop of filewrite(). *)
Definition filewrite_body (f addr n i : Z) : M (ftab X) (Z + Z) :=
  if i <? n then
    let n1 := if filewrite_max <? n - i then filewrite_max else n - i in
    let! ip := getf f fl_ip in
    fenv fe_begin_op ;;
    fenv (fe_ilock ip) ;;
    let! off := getf f fl_off in
    let! r := fenv (fe_writei ip (u64 (addr + i)) off n1) in
    when (0 <? r) (setf f (fun fl => set_foff (u32 (fl_off fl + r)) fl)) ;;
    fenv (fe_iunlock ip) ;;
    fenv fe_end_op ;;
    if negb (r =? n1) then ret (inr i) else ret (inl (i + r))
  else ret (inr i).

Definition filewrite (f addr n : Z) : M (ftab X) Z :=
  let! fl := getf f id in
  if fl_writable fl =? 0 then ret (-1)
  else
    match fl_type fl with
    | FD_PIPE => fenv (fe_pipewrite (fl_pipe fl) addr n)
    | FD_DEVICE =>
        if (fl_major fl <? 0) || (NDEV <=? fl_major fl) then ret (-1)
        else match fe_devwrite (fl_major fl) with
             | None => ret (-1)
             | Some wr => fenv (wr addr n)
             end
    | FD_INODE =>
        let! i := loop (Z.to_nat (n / filewrite_max) + 2) (filewrite_body f addr n) 0 in
        ret (if i =? n then n else -1)
    | FD_NONE => panic "filewrite"
    end.

(** pipealloc(): the two files, or None for -1. *)
Definition pipealloc : M (ftab X) (option (Z * Z)) :=
  let bad pi f0 f1 :=
    when (negb (pi =? 0)) (fenv (fe_kfree pi)) ;;
    when (negb (f0 =? 0)) (fileclose f0) ;;
    when (negb (f1 =? 0)) (fileclose f1) ;;
    ret None in
  let! f0 := filealloc in
  if f0 =? 0 then bad 0 f0 0
  else
    let! f1 := filealloc in
    if f1 =? 0 then bad 0 f0 f1
    else
      let! pi := fenv fe_kalloc in
      if pi =? 0 then bad pi f0 f1
      else
        fenv (fe_pipe_init pi) ;;
        setf f0 (set_ftype FD_PIPE) ;;
        setf f0 (set_freadable 1) ;;
        setf f0 (set_fwritable 0) ;;
        setf f0 (set_fpipe pi) ;;
        setf f1 (set_ftype FD_PIPE) ;;
        setf f1 (set_freadable 0) ;;
        setf f1 (set_fwritable 1) ;;
        setf f1 (set_fpipe pi) ;;
        ret (Some (f0, f1)).

End File.
