(* ===== verification/FileFacts.v ===== *)
(** * References to open files

    A slot of the file table is shared by every descriptor that refers to it;
    filealloc(), filedup() and fileclose() count them.  [holders] is the count
    from the outside: how many references were handed out and not yet closed.
    The proofs show, over every sequence of calls, that the two agree, that a
    slot in use is never handed out again, and that what the file refers to is
    released by exactly the last close. *)

From S2P Require Import Prelude Spinlock Riscv BufCache Log Fs File.

Section Refs.
Context {X : Type} `{FileEnv X}.
Variable me : Z.
Local Notation T := (ftab X).
Implicit Types (s : T) (h : Z -> Z).

(** A [struct file *] that points into the table. *)
Definition in_table (f : Z) : Prop := 1 <= f <= NFILE.

(** What the last close of a file does. *)
Definition release_object (ff : file) : M X unit :=
  match fl_type ff with
  | FD_PIPE => fe_pipeclose (fl_pipe ff) (negb (fl_writable ff =? 0))
  | FD_INODE | FD_DEVICE => fe_begin_op ;; fe_iput (fl_ip ff) ;; fe_end_op
  | FD_NONE => ret tt
  end.

(** The state with slot [f] changed. *)
Definition with_file (f : Z) (g : file -> file) s : T := mkFtab (ft_lock s) (alter g (fslot f) (files s)) (ft_env s).
Definition gave (f v : Z) h : Z -> Z := fun g => if g =? f then v else h g.

(** Calls of the three routines, and the assignments that the owner of a
    reference makes to the other fields of its file. *)
Inductive ref_step : T * (Z -> Z) -> T * (Z -> Z) -> Prop :=
| rs_alloc s h f s' : filealloc me s = Ok f s' -> ref_step (s, h) (s', if f =? 0 then h else gave f 1 h)
| rs_dup s h f s' : in_table f -> 0 < h f < 2 ^ 31 - 1 -> filedup me f s = Ok f s' -> ref_step (s, h) (s', gave f (h f + 1) h)
| rs_close s h f s' : in_table f -> 0 < h f -> fileclose me f s = Ok tt s' -> ref_step (s, h) (s', gave f (h f - 1) h)
| rs_assign s h f g : in_table f -> 0 < h f -> (forall fl, fl_ref (g fl) = fl_ref fl) -> ref_step (s, h) (with_file f g s, h).

Record refs_ok s h : Prop := {
  ro_len : length (files s) = Z.to_nat NFILE;
  ro_lock : lock_free (ft_lock s);
  ro_count : forall f, in_table f -> fl_ref (fget f s) = h f;
  ro_pos : forall f, in_table f -> 0 <= h f
}.

Lemma fslot_inj f g : in_table f -> in_table g -> fslot f = fslot g -> f = g.
Proof. unfold in_table, fslot. lia. Qed.

Lemma file_at s f : length (files s) = Z.to_nat NFILE -> in_table f -> files s !! fslot f = Some (fget f s).
Proof.
  intros Hl Hf. unfold fget. destruct (lookup_lt_is_Some_2 (files s) (fslot f)) as [x Hx]; [|by rewrite Hx].
  unfold in_table, fslot, NFILE in *. lia.
Qed.

Lemma fget_with f g e s :
  length (files s) = Z.to_nat NFILE -> in_table f -> in_table g -> fget g (with_file f e s) = if g =? f then e (fget f s) else fget g s.
Proof.
  intros Hl Hf Hg. unfold fget at 1, with_file. cbn. destruct (Z.eqb_spec g f) as [->|Hne].
  - by rewrite list_lookup_alter_eq, (file_at s f).
  - rewrite list_lookup_alter_ne; [done|]. intros E. apply Hne. symmetry. by apply fslot_inj.
Qed.

Lemma with_file_twice f e1 e2 s : with_file f e2 (with_file f e1 s) = with_file f (fun fl => e2 (e1 fl)) s.
Proof.
  unfold with_file. cbn. f_equal. apply list_eq. intros j. destruct (decide (fslot f = j)) as [<-|Hne].
  - rewrite !list_lookup_alter_eq. by destruct (files s !! fslot f).
  - by rewrite !list_lookup_alter_ne.
Qed.

(** With the table locked. *)
Definition table_locked s : T := mkFtab (lock_taken me (ft_lock s)) (files s) (ft_env s).

Lemma unlock s : lock_free (ft_lock s) -> release_at me ft_lock_lens (table_locked s) = Ok tt s.
Proof.
  intros Hl. rewrite (release_at_eq me ft_lock_lens _ (ft_lock s)) by done. by destruct s.
Qed.

Lemma wp_table_unlock s (Q : unit -> T -> Prop) : lock_free (ft_lock s) -> Q tt s -> wp (release_at me ft_lock_lens) (table_locked s) Q.
Proof. intros Hl HQ. unfold wp. by rewrite unlock. Qed.

Lemma lock_ok s : lock_free (ft_lock s) -> acquire_at me ft_lock_lens s = Ok tt (table_locked s).
Proof. intros Hl. by rewrite acquire_at_eq. Qed.

(** ** The routines *)

Lemma filealloc_spec s :
  length (files s) = Z.to_nat NFILE -> lock_free (ft_lock s) ->
  exists f, filealloc me s = Ok f (if f =? 0 then s else with_file f (set_fref 1) s) /\
    if f =? 0 then forall g, in_table g -> fl_ref (fget g s) <> 0 else in_table f /\ fl_ref (fget f s) = 0.
Proof.
  intros Hl Hk. enough (wp (filealloc me) s (fun f s' => s' = (if f =? 0 then s else with_file f (set_fref 1) s) /\
    if f =? 0 then forall g, in_table g -> fl_ref (fget g s) <> 0 else in_table f /\ fl_ref (fget f s) = 0)) as Hw.
  { apply wp_ok in Hw as (f & s' & E & -> & Hf). by exists f. }
  unfold filealloc. wp_step. apply wp_acquire_at; [done|]. change (put ft_lock_lens _ s) with (table_locked s).
  apply (wp_loop (fun f s1 => s1 = table_locked s /\ 1 <= f <= 1 + NFILE /\ forall g, 1 <= g < f -> fl_ref (fget g s) <> 0)
    (fun f => Z.to_nat (1 + NFILE - f))).
  - intros f s1 (-> & Hf & Hno). unfold filealloc_body. destruct (Z.ltb_spec f (1 + NFILE)) as [Hlt|Hge].
    + unfold getf. do 2 wp_step. change (fget f (table_locked s)) with (fget f s). destruct (Z.eqb_spec (fl_ref (fget f s)) 0) as [E|E].
      * unfold setf. do 3 wp_step. change (mkFtab _ _ _) with (table_locked (with_file f (set_fref 1) s)). apply wp_table_unlock; [done|]. wp_step.
        rewrite (proj2 (Z.eqb_neq f 0)) by lia. unfold in_table. split; [done|]. split; [lia|done].
      * wp_step. split; [|lia]. split; [done|]. split; [lia|]. intros g Hg. destruct (decide (g = f)) as [->|]; [done|]. apply Hno. lia.
    + wp_step. apply wp_table_unlock; [done|]. wp_step. split; [done|]. intros g Hg. apply Hno. unfold in_table in Hg. lia.
  - split; [done|]. split; [unfold NFILE; lia|]. intros g Hg. lia.
  - unfold NFILE. lia.
Qed.

Lemma filedup_spec s f :
  lock_free (ft_lock s) -> 0 < fl_ref (fget f s) < 2 ^ 31 - 1 ->
  filedup me f s = Ok f (with_file f (set_fref (fl_ref (fget f s) + 1)) s).
Proof.
  intros Hk Hr. unfold filedup, getf, setf. run_unfold. rewrite lock_ok by done. change (fget f (table_locked s)) with (fget f s).
  rewrite (proj2 (Z.ltb_ge _ _)), i32_small by lia. change (mkFtab _ _ _) with (table_locked (with_file f (set_fref (fl_ref (fget f s) + 1)) s)).
  by rewrite unlock.
Qed.

(** The slot after the last close. *)
Definition freed (f : Z) s : T := with_file f (fun fl => set_ftype FD_NONE (set_fref 0 fl)) s.

Lemma setf_locked f g s : setf f g (table_locked s) = Ok tt (table_locked (with_file f g s)).
Proof. reflexivity. Qed.

Lemma fenv_seq (a b c : M X unit) s : fenv (a ;; b ;; c) s = (fenv a ;; fenv b ;; fenv c) s.
Proof. unfold fenv, zoom, bind. destruct s as [l fs x]. cbn. destruct (a x) as [[] x1| | | |]; cbn; try done. by destruct (b x1). Qed.

Lemma fileclose_spec s f :
  length (files s) = Z.to_nat NFILE -> in_table f -> lock_free (ft_lock s) -> 0 < fl_ref (fget f s) ->
  fileclose me f s =
    if fl_ref (fget f s) =? 1 then fenv (release_object (fget f s)) (freed f s)
    else Ok tt (with_file f (set_fref (fl_ref (fget f s) - 1)) s).
Proof.
  intros Hl Hf Hk Hr. unfold fileclose, getf. unfold bind at 1. rewrite lock_ok by done. unfold bind at 1, gets at 1.
  change (fget f (table_locked s)) with (fget f s). rewrite (proj2 (Z.ltb_ge _ _)) by lia. unfold bind at 1. rewrite setf_locked.
  destruct (Z.eqb_spec (fl_ref (fget f s)) 1) as [E|E].
  - rewrite E. change (0 <? 1 - 1) with false. cbn beta iota. unfold bind at 1, gets at 1. unfold bind at 1. rewrite setf_locked.
    unfold bind at 1. rewrite setf_locked, !with_file_twice. unfold bind at 1. rewrite unlock by done.
    change (fget f (table_locked ?x)) with (fget f x). rewrite fget_with, Z.eqb_refl by done. change (with_file f _ s) with (freed f s).
    unfold id, release_object. cbn [fl_type set_fref fl_pipe fl_writable fl_ip].
    destruct (fl_type (fget f s)); by rewrite ?fenv_seq.
  - rewrite (proj2 (Z.ltb_lt 0 _)) by lia. by apply unlock.
Qed.

(** ** The count is the number of references *)

Lemma refs_with s h f e v :
  refs_ok s h -> in_table f -> 0 <= v -> (forall fl, fl_ref fl = h f -> fl_ref (e fl) = v) -> refs_ok (with_file f e s) (gave f v h).
Proof.
  intros [R1 R2 R3 R4] Hf Hv He. split; [cbn; by rewrite length_alter|done| |].
  - intros g Hg. rewrite fget_with by done. unfold gave. destruct (Z.eqb_spec g f) as [->|]; [|by apply R3]. by apply He, R3.
  - intros g Hg. unfold gave. destruct (g =? f); [done|by apply R4].
Qed.

Lemma gave_same f h : forall g, gave f (h f) h g = h g.
Proof. intros g. unfold gave. destruct (Z.eqb_spec g f) as [->|]; done. Qed.

(** The object's own routines do not touch the table. *)
Lemma fenv_table {A} (m : M X A) s a s' : fenv m s = Ok a s' -> s' = mkFtab (ft_lock s) (files s) (ft_env s').
Proof. unfold fenv, zoom. destruct (m _); intros [= <- <-]. done. Qed.

Lemma refs_step g g' : refs_ok (fst g) (snd g) -> ref_step g g' -> refs_ok (fst g') (snd g').
Proof.
  intros Hg Hs. destruct Hs as [s h f s' E|s h f s' Hf Hh E|s h f s' Hf Hh E|s h f e Hf Hh He]; cbn [fst snd] in *; pose proof Hg as [R1 R2 R3 R4].
  - destruct (filealloc_spec s R1 R2) as (f1 & E1 & Hf1). rewrite E1 in E. injection E as <- <-. destruct (f1 =? 0); [done|].
    destruct Hf1 as [Hf1 _]. by apply refs_with.
  - rewrite filedup_spec in E by (rewrite ?R3 by done; done). injection E as <-. rewrite R3 by done. apply refs_with; try done. lia.
  - rewrite fileclose_spec in E by (rewrite ?R3 by done; done). rewrite R3 in E by done. destruct (Z.eqb_spec (h f) 1) as [E1|E1].
    + apply fenv_table in E. rewrite E. rewrite E1. assert (Hr : refs_ok (freed f s) (gave f (1 - 1) h)) by (by apply refs_with).
      destruct Hr. by split.
    + injection E as <-. apply refs_with; try done. lia.
  - assert (Hr : refs_ok (with_file f e s) (gave f (h f) h)) by (apply refs_with; [done|done|lia|]; intros fl <-; apply He).
    destruct Hr as [A B C1 C2]. split; try done; intros g Hg'; rewrite <-(gave_same f h g); auto.
Qed.

Lemma refs_reachable s h s' h' : refs_ok s h -> rtc ref_step (s, h) (s', h') -> refs_ok s' h'.
Proof.
  intros Hi Hr. change (refs_ok (fst (s', h')) (snd (s', h'))). change (refs_ok (fst (s, h)) (snd (s, h))) in Hi. revert Hi.
  generalize (s, h) (s', h') Hr. intros g g' Hrtc. induction Hrtc; eauto using refs_step.
Qed.

(** C18: open files are counted correctly.  After any sequence of filealloc(),
    filedup() and fileclose() calls and assignments by the holders of a
    file, starting from an empty table, the count in every slot is the number
    of references that were handed out and not closed.  Hence filealloc()
    finds a slot that nobody holds, or returns 0 because all are held, and
    changes no other slot; filedup() and fileclose() of a file that is held do
    not panic; and fileclose() releases the pipe or inode of the file exactly
    when the last reference goes, after the slot was made free, and otherwise
    only decrements the count. *)
Theorem file_references s0 s h :
  length (files s0) = Z.to_nat NFILE -> lock_free (ft_lock s0) -> Forall (fun fl => fl_ref fl = 0) (files s0) ->
  rtc ref_step (s0, fun _ => 0) (s, h) ->
  (forall f, in_table f -> fl_ref (fget f s) = h f) /\
  (exists f, filealloc me s = Ok f (if f =? 0 then s else with_file f (set_fref 1) s) /\
     if f =? 0 then forall g, in_table g -> 0 < h g else in_table f /\ h f = 0) /\
  (forall f, in_table f -> 0 < h f ->
     (h f < 2 ^ 31 - 1 -> filedup me f s = Ok f (with_file f (set_fref (h f + 1)) s)) /\
     fileclose me f s = if h f =? 1 then fenv (release_object (fget f s)) (freed f s) else Ok tt (with_file f (set_fref (h f - 1)) s)).
Proof.
  intros Hl Hk Hz Hr. assert (Hi : refs_ok s0 (fun _ => 0)).
  { split; try done. intros f Hf. pose proof (file_at s0 f Hl Hf) as Hx. exact (Forall_lookup_1 _ _ _ _ Hz Hx). }
  destruct (refs_reachable _ _ _ _ Hi Hr) as [R1 R2 R3 R4]. split; [done|]. split.
  - destruct (filealloc_spec s R1 R2) as (f & E & Hf). exists f. split; [done|]. destruct (f =? 0).
    + intros g Hg. specialize (Hf g Hg). specialize (R4 g Hg). rewrite R3 in Hf by done. lia.
    + destruct Hf as [Hf E0]. by rewrite R3 in E0.
  - intros f Hf Hh. rewrite <-(R3 f Hf). split; [intros Hlt; apply filedup_spec; [done|]; split; [by rewrite R3|done]|].
    apply fileclose_spec; try done. by rewrite R3.
Qed.

End Refs.

(** ** A table over objects that record their release *)
Module FileDemo.

(** The objects released so far. *)
#[local] Instance recorder : FileEnv (list Z) := {
  fe_pipeclose p _ := modify (fun l => l ++ [p]);
  fe_piperead _ _ _ := ret 0; fe_pipewrite _ _ _ := ret 0;
  fe_kalloc := ret 0; fe_kfree _ := ret tt; fe_pipe_init _ := ret tt;
  fe_begin_op := ret tt; fe_end_op := ret tt;
  fe_iput i := modify (fun l => l ++ [i]);
  fe_ilock _ := ret tt; fe_iunlock _ := ret tt;
  fe_stati _ := ret (mkStat 0 0 0 0 0);
  fe_readi _ _ _ _ := ret 0; fe_writei _ _ _ _ := ret 0;
  fe_devread _ := None; fe_devwrite _ := None;
  fe_copyout _ _ := ret 0
}.

Definition empty : ftab (list Z) := mkFtab (initlock "ftable") (replicate 100 zero_file) [].
Definition inode7 (f : file) : file := set_fip 7 (set_ftype FD_INODE f).
Definition opened : ftab (list Z) := with_file 1 inode7 (with_file 1 (set_fref 1) empty).
Definition shared : ftab (list Z) := with_file 1 (set_fref 2) opened.

(** A file is opened and duplicated; of its two references, the first close
    only decrements the count. *)
Lemma file_references_witness :
  fl_ref (fget 1 shared) = 2 /\ fileclose 0 1 shared = Ok tt (with_file 1 (set_fref 1) shared).
Proof.
  destruct (file_references 0 empty shared (gave 1 2 (gave 1 1 (fun _ => 0)))) as (A & _ & B).
  - reflexivity.
  - split; reflexivity.
  - by apply Forall_replicate.
  - eapply rtc_l; [apply (rs_alloc 0 empty (fun _ => 0) 1 (with_file 1 (set_fref 1) empty)); vm_compute; reflexivity|].
    eapply rtc_l; [apply (rs_assign 0 _ _ 1 inode7); [split; vm_compute; discriminate|vm_compute; reflexivity|reflexivity]|].
    eapply rtc_l; [|apply rtc_refl].
    apply (rs_dup 0 opened (gave 1 1 (fun _ => 0)) 1 shared); [split; vm_compute; discriminate|split; vm_compute; reflexivity|vm_compute; reflexivity].
  - assert (Hin : in_table 1) by (split; vm_compute; discriminate). split; [exact (A 1 Hin)|].
    exact (proj2 (B 1 Hin ltac:(vm_compute; reflexivity))).
Defined.

End FileDemo.
