(* ===== verification/Syscall.v ===== *)
(** * System call arguments and dispatch (kernel/syscall.c)

    The routines that fetch arguments of the running process and the
    dispatcher, over any kernel state [S] with a running process
    ([CurProc]). *)

From S2P Require Import Prelude.

(** The running process: its trapframe's a0 to a5 and a7, its size, its
    memory as copyin() and copyinstr() read it. *)
Class CurProc (S : Type) := {
  cur_arg : nat -> S -> Z;
  cur_a7 : S -> Z;
  cur_set_a0 : Z -> M S unit;
  cur_sz : S -> Z;
  cur_copyin : Z -> Z -> S -> option (list Z);
  (** The string of at most [max] bytes at an address, less its NUL. *)
  cur_copyinstr : Z -> Z -> S -> option (list Z)
}.

Definition SYS_fork : Z := 1.
Definition SYS_exit : Z := 2.
Definition SYS_wait : Z := 3.
Definition SYS_pipe : Z := 4.
Definition SYS_read : Z := 5.
Definition SYS_kill : Z := 6.
Definition SYS_exec : Z := 7.
Definition SYS_fstat : Z := 8.
Definition SYS_chdir : Z := 9.
Definition SYS_dup : Z := 10.
Definition SYS_getpid : Z := 11.
Definition SYS_sbrk : Z := 12.
Definition SYS_sleep : Z := 13.
Definition SYS_uptime : Z := 14.
Definition SYS_open : Z := 15.
Definition SYS_write : Z := 16.
Definition SYS_mknod : Z := 17.
Definition SYS_unlink : Z := 18.
Definition SYS_link : Z := 19.
Definition SYS_mkdir : Z := 20.
Definition SYS_close : Z := 21.
Definition SYS_nanotime : Z := 22.

Section Syscall.
Context {S : Type} `{CurProc S}.

(** fetchaddr(addr, ip): the word, or None for -1. *)
Definition fetchaddr (addr : Z) : M S (option Z) :=
  let! sz := gets cur_sz in
  if (sz <=? addr) || (sz <? u64 (addr + 8)) then ret None
  else
    let! r := gets (cur_copyin addr 8) in
    ret (le_val <$> r).

(** fetchstr(addr, buf, max): the string, whose length the C code returns, or
    None for -1. *)
Definition fetchstr (addr max : Z) : M S (option (list Z)) := gets (cur_copyinstr addr max).

Definition argraw (n : Z) : M S Z :=
  if (0 <=? n) && (n <=? 5) then gets (cur_arg (Z.to_nat n)) else panic "argraw".
Definition argint (n : Z) : M S Z := let! v := argraw n in ret (i32 v).
Definition argaddr (n : Z) : M S Z := argraw n.
Definition argstr (n max : Z) : M S (option (list Z)) :=
  let! addr := argaddr n in
  fetchstr addr max.

(** The handlers by number; [complain] is the printf for an unknown one. *)
Definition syscall (syscalls : gmap Z (M S Z)) (complain : Z -> M S unit) : M S unit :=
  let! a7 := gets cur_a7 in
  let num := i32 a7 in
  if (0 <? num) && (num <? SYS_nanotime + 1) then
    match syscalls !! num with
    | Some h => let! r := h in cur_set_a0 (u64 r)
    | None => complain num ;; cur_set_a0 (u64 (-1))
    end
  else complain num ;; cur_set_a0 (u64 (-1)).

End Syscall.
