(* ===== verification/Trap.v ===== *)
(** * Traps, the clock, the interrupt controller and the process system calls
    (kernel/trap.c, kernel/plic.c, kernel/sysproc.c)

    The routines run on the process table of Proc.v; [TrapEnv] says where in
    the rest of the kernel the trap registers, the clock and the devices are.
    A routine that gives up the CPU is split there, as in Proc.v: usertrap()
    into the part before the system call or the device interrupt, and the part
    after it.  The theorems are about the way of a process into the kernel and
    back, and about sleeping for a number of clock ticks. *)

From S2P Require Import Prelude Spinlock Mem Riscv Kalloc Vm Proc ProcSpec ProcLife ProcInv ProcSystem Syscall.
Import Spinlock.

Definition SSTATUS_SPP : Z := Z.shiftl 1 8.
Definition SSTATUS_SPIE : Z := Z.shiftl 1 5.
Definition PLIC_SENABLE (hart : Z) : Z := PLIC + 0x2080 + hart * 0x100.
Definition PLIC_SPRIORITY (hart : Z) : Z := PLIC + 0x201000 + hart * 0x2000.
Definition PLIC_SCLAIM (hart : Z) : Z := PLIC + 0x201004 + hart * 0x2000.

(** Offsets in struct trapframe. *)
Definition TF_KSATP : Z := 0.
Definition TF_KSP : Z := 8.
Definition TF_KTRAP : Z := 16.
Definition TF_KHARTID : Z := 32.

(** A format that ends in a newline. *)
Definition line (fmt : string) : string := fmt +:+ String (Ascii.ascii_of_nat 10) EmptyString.

(** The trap registers of a CPU. *)
Record tregs := mkTregs { scause : Z; sepc : Z; stval : Z; stvec : Z; sip : Z; satp : Z }.
Definition set_sepc x r := mkTregs (scause r) x (stval r) (stvec r) (sip r) (satp r).
Definition set_stvec x r := mkTregs (scause r) (sepc r) (stval r) x (sip r) (satp r).
Definition set_sip x r := mkTregs (scause r) (sepc r) (stval r) (stvec r) x (satp r).

(** The clock, the registers and the devices in the kernel state [W]. *)
Class TrapEnv (W : Type) := {
  tk_ticks : lens W Z;
  tk_lock : lens W spinlock;
  tr_regs : lens W tregs;
  td_load32 : Z -> M W Z;
  td_store32 : Z -> Z -> M W unit;
  (** the nanosecond timer *)
  td_load64 : Z -> M W Z;
  td_uartintr : M W unit;
  td_virtio_disk_intr : M W unit;
  td_printf : string -> list Z -> M W unit
}.

(** Where usertrap() gives up control: exit() has switched away, the system
    call is to be run, or a device interrupt was handled. *)
Inductive entered := EnterExit (saved : Z) | EnterSyscall | EnterDev (which : Z).
(** How usertrap() ends: exit() or yield() have switched away, or it jumps to
    user space with this page table. *)
Inductive left := LeaveExit (saved : Z) | LeaveYield (saved : Z) | LeaveUser (satp : Z).

Section Trap.
Context {W : Type} `{ProcEnv W} `{TrapEnv W}.
Variable me : Z.
(** Addresses: proc[0], forkret, kernelvec, the labels of trampoline.S,
    usertrap and the variable ticks. *)
Variables proc_base kernelvec trampoline uservec userret usertrap_addr ticks_addr : Z.
Notation K := (kstate W).

Definition get_reg {A} (f : tregs -> A) : M K A := env (gets (fun w => f (view tr_regs w))).
Definition set_reg (f : tregs -> tregs) : M K unit := env (modify (fun w => put tr_regs (f (view tr_regs w)) w)).
Definition r_sstatus : M K Z := gets (fun s => sstatus (k_hart s)).
Definition w_sstatus (x : Z) : M K unit := zoom hart_lens (modify (set_sstatus x)).
Definition tickslock_lens : lens K spinlock :=
  Lens (fun s => view tk_lock (kenv s)) (fun l s => put env_lens (put tk_lock l (kenv s)) s).
(** A trapframe's field. *)
Definition tf_get (tf off : Z) : M K Z := let! bs := env (env_kread (tf + off) 8) in ret (le_val bs).
Definition tf_set (tf off v : Z) : M K unit := env (env_tf_set tf off v).

Definition trapinit : M K unit := env (modify (put tk_lock (initlock "time"))).
Definition trapinithart : M K unit := set_reg (set_stvec kernelvec).

Definition plicinit : M K unit :=
  env (td_store32 (PLIC + UART0_IRQ * 4) 1) ;;
  env (td_store32 (PLIC + VIRTIO0_IRQ * 4) 1).
Definition plicinithart : M K unit :=
  env (td_store32 (PLIC_SENABLE me) (Z.lor (Z.shiftl 1 UART0_IRQ) (Z.shiftl 1 VIRTIO0_IRQ))) ;;
  env (td_store32 (PLIC_SPRIORITY me) 0).
Definition plic_claim : M K Z := let! irq := env (td_load32 (PLIC_SCLAIM me)) in ret (i32 irq).
Definition plic_complete (irq : Z) : M K unit := env (td_store32 (PLIC_SCLAIM me) (u32 irq)).

Definition clockintr : M K unit :=
  lock me tickslock_lens ;;
  env (modify (fun w => put tk_ticks (u32 (view tk_ticks w + 1)) w)) ;;
  wakeup me ticks_addr ;;
  unlock me tickslock_lens.

Definition devintr : M K Z :=
  let! c := get_reg scause in
  if negb (Z.land c (2 ^ 63) =? 0) && (Z.land c 255 =? 9) then
    let! irq := plic_claim in
    (if irq =? UART0_IRQ then env td_uartintr
     else if irq =? VIRTIO0_IRQ then env td_virtio_disk_intr
     else when (negb (irq =? 0)) (env (td_printf (line "unexpected interrupt irq=%d") [irq]))) ;;
    when (negb (irq =? 0)) (plic_complete irq) ;;
    ret 1
  else if c =? 2 ^ 63 + 1 then
    when (me =? 0) clockintr ;;
    let! x := get_reg sip in
    set_reg (set_sip (Z.land x (Z.lnot 2))) ;;
    ret 2
  else ret 0.

Definition usertrapret : M K Z :=
  let! p := myproc' in
  zoom hart_lens intr_off ;;
  set_reg (set_stvec (u64 (TRAMPOLINE + (uservec - trampoline)))) ;;
  let! tf := getp p p_trapframe in
  let! ks := get_reg satp in
  tf_set tf TF_KSATP ks ;;
  let! kst := getp p p_kstack in
  tf_set tf TF_KSP (u64 (kst + PGSIZE)) ;;
  tf_set tf TF_KTRAP usertrap_addr ;;
  tf_set tf TF_KHARTID me ;;
  let! x := r_sstatus in
  let x := Z.land x (Z.lnot SSTATUS_SPP) in
  let x := Z.lor x SSTATUS_SPIE in
  w_sstatus x ;;
  let! epc := tf_get tf TF_EPC in
  set_reg (set_sepc epc) ;;
  let! pt := getp p p_pagetable in
  ret (MAKE_SATP pt).

(** usertrap() up to the call of syscall(), or past devintr(). *)
Definition usertrap : M K entered :=
  let! x := r_sstatus in
  if negb (Z.land x SSTATUS_SPP =? 0) then panic "usertrap: not from user mode"
  else
    set_reg (set_stvec kernelvec) ;;
    let! p := myproc' in
    let! tf := getp p p_trapframe in
    let! pc := get_reg sepc in
    tf_set tf TF_EPC pc ;;
    let! c := get_reg scause in
    if c =? 8 then
      let! k := killed me p in
      if negb (k =? 0) then let! i := exit me proc_base (-1) in ret (EnterExit i)
      else
        let! epc := tf_get tf TF_EPC in
        tf_set tf TF_EPC (u64 (epc + 4)) ;;
        zoom hart_lens intr_on ;;
        ret EnterSyscall
    else
      let! which_dev := devintr in
      if negb (which_dev =? 0) then ret (EnterDev which_dev)
      else
        let! pid := getp p p_pid in
        let! c := get_reg scause in
        env (td_printf (line "usertrap(): unexpected scause %p pid=%d") [c; pid]) ;;
        let! pc := get_reg sepc in
        let! v := get_reg stval in
        env (td_printf (line "            sepc=%p stval=%p") [pc; v]) ;;
        setkilled me p ;;
        ret (EnterDev 0).

(** usertrap() after syscall() or devintr(). *)
Definition usertrap_end (which_dev : Z) : M K left :=
  let! p := myproc' in
  let! k := killed me p in
  if negb (k =? 0) then let! i := exit me proc_base (-1) in ret (LeaveExit i)
  else if which_dev =? 2 then let! i := yield me in ret (LeaveYield i)
  else let! t := usertrapret in ret (LeaveUser t).

(** usertrap() after yield() returns. *)
Definition usertrap_resumed (saved : Z) : M K left :=
  yield_in me saved ;; let! t := usertrapret in ret (LeaveUser t).

(** kerneltrap(); [inl] when it yields, with its variables sepc and sstatus. *)
Definition kerneltrap : M K ((Z * Z * Z) + unit) :=
  let! pc := get_reg sepc in
  let! st := r_sstatus in
  let! c := get_reg scause in
  if Z.land st SSTATUS_SPP =? 0 then panic "kerneltrap: not from supervisor mode"
  else
    let! i := gets (fun s => intr_get (k_hart s)) in
    if negb (i =? 0) then panic "kerneltrap: interrupts enabled"
    else
      let! which_dev := devintr in
      if which_dev =? 0 then
        env (td_printf (line "scause %p") [c]) ;;
        let! pc := get_reg sepc in
        let! v := get_reg stval in
        env (td_printf (line "sepc=%p stval=%p") [pc; v]) ;;
        panic "kerneltrap"
      else
        let! y :=
          (if which_dev =? 2 then
             let! p := myproc in
             match p with
             | Some p =>
                 let! _ := myproc in
                 let! st := getp p p_state in
                 ret (bool_decide (st = RUNNING))
             | None => ret false
             end
           else ret false) in
        if (y : bool) then let! i := yield me in ret (inl (i, pc, st))
        else
          set_reg (set_sepc pc) ;;
          w_sstatus st ;;
          ret (inr tt).

(** kerneltrap() after yield() returns. *)
Definition kerneltrap_resumed (saved pc st : Z) : M K unit :=
  yield_in me saved ;;
  set_reg (set_sepc pc) ;;
  w_sstatus st.

(** ** sysproc.c *)

Context `{CurProc (kstate W)}.

(** exit() has switched away. *)
Definition sys_exit : M K Z := let! n := argint 0 in exit me proc_base n.
Definition sys_getpid : M K Z := let! p := myproc' in getp p p_pid.
Definition sys_fork (forkret_addr : Z) : M K Z := fork me forkret_addr.
(** [inl] when it sleeps. *)
Definition sys_wait : M K (Z + Z) := let! p := argaddr 0 in wait me proc_base p.

Definition sys_sbrk : M K Z :=
  let! n := argint 0 in
  let! p := myproc' in
  let! addr := getp p p_sz in
  let! r := growproc n in
  if r <? 0 then ret (-1) else ret addr.

(** The loop of sys_sleep(), with the lock held: [inl] when it sleeps. *)
Definition sys_sleep_loop (ticks0 n : Z) : M K (Z + Z) :=
  let! t := env (gets (view tk_ticks)) in
  if u32 (t - ticks0) <? u32 n then
    let! p := myproc' in
    let! k := killed me p in
    if negb (k =? 0) then unlock me tickslock_lens ;; ret (inr (-1))
    else let! i := sleep me ticks_addr tickslock_lens in ret (inl i)
  else
    unlock me tickslock_lens ;;
    ret (inr 0).

(** The start: the value of ticks0 and the outcome of the loop. *)
Definition sys_sleep : M K (Z * Z * (Z + Z)) :=
  let! n := argint 0 in
  lock me tickslock_lens ;;
  let! ticks0 := env (gets (view tk_ticks)) in
  let! r := sys_sleep_loop ticks0 n in
  ret (ticks0, n, r).

(** sys_sleep() after sleep() returns. *)
Definition sys_sleep_resumed (saved ticks0 n : Z) : M K (Z + Z) :=
  sleep_in me tickslock_lens saved ;;
  sys_sleep_loop ticks0 n.

Definition sys_kill : M K Z := let! pid := argint 0 in kill me pid.

Definition sys_uptime : M K Z :=
  lock me tickslock_lens ;;
  let! x := env (gets (view tk_ticks)) in
  unlock me tickslock_lens ;;
  ret x.

Definition sys_nanotime : M K Z := env (td_load64 GOLDFISH).

End Trap.

(** ** Into the kernel and back *)

(** What the theorems use of the rest of the kernel: the clock, its lock and
    the trap registers are separate variables, and a trapframe is memory of
    its own. *)
Class TrapLaws (W : Type) `{ProcEnv W} `{TrapEnv W} := {
  tl_field : Z -> Z -> W -> Z;
  tl_regs :: LensLaws tr_regs;
  tl_lock :: LensLaws tk_lock;
  tl_ticks :: LensLaws tk_ticks;
  tl_kread : forall tf off w, wp (env_kread (tf + off) 8) w (fun bs w' => w' = w /\ le_val bs = tl_field tf off w);
  tl_set : forall tf off v w, 0 <= v < 2 ^ 64 ->
    wp (env_tf_set tf off v) w (fun _ w' => tl_field tf off w' = v /\ view tr_regs w' = view tr_regs w /\
      forall off', off <> off' -> (8 | off) -> (8 | off') -> tl_field tf off' w' = tl_field tf off' w);
  tl_put : forall tf off r w, tl_field tf off (put tr_regs r w) = tl_field tf off w;
  tl_ticks_lock : forall l w, view tk_ticks (put tk_lock l w) = view tk_ticks w;
  tl_lock_ticks : forall t w, view tk_lock (put tk_ticks t w) = view tk_lock w
}.

Section Facts.
Context {W : Type} `{ProcEnv W} `{TrapEnv W} `{!TrapLaws W}.
Variable me : Z.
Variables proc_base kernelvec trampoline uservec userret usertrap_addr ticks_addr : Z.
Notation K := (kstate W).
Implicit Types (w : W) (s : K).

(** Everything but the registers of the CPU and the rest of the kernel. *)
Definition same_procs s s' : Prop :=
  procs s' = procs s /\ initproc s' = initproc s /\ nextpid s' = nextpid s /\ pid_lock s' = pid_lock s /\ wait_lock s' = wait_lock s /\ c_proc s' = c_proc s.
Definition regs_of s : tregs := view tr_regs (kenv s).

Lemma wp_get_reg {A} (f : tregs -> A) s (Q : A -> K -> Prop) : Q (f (regs_of s)) s -> wp (get_reg f) s Q.
Proof. intros HQ. unfold get_reg, env. apply wp_zoom. wp_step. cbn. destruct s. exact HQ. Qed.

Definition with_regs (r : tregs) s : K := put env_lens (put tr_regs r (kenv s)) s.

Lemma wp_set_reg f s (Q : unit -> K -> Prop) : Q tt (with_regs (f (regs_of s)) s) -> wp (set_reg f) s Q.
Proof. intros HQ. unfold set_reg, env. apply wp_zoom. wp_step. exact HQ. Qed.

Lemma wp_tf_get tf off s (Q : Z -> K -> Prop) : Q (tl_field tf off (kenv s)) s -> wp (tf_get tf off) s Q.
Proof.
  intros HQ. unfold tf_get, env. wp_step. apply wp_zoom. eapply wp_mono; [apply tl_kread|]. intros bs w' [-> E]. cbn. wp_step. rewrite E.
  by destruct s.
Qed.

(** The state of a process on its CPU: its entry is unlocked, no lock is held. *)
Record on_cpu (i : Z) (p : proc) s : Prop := {
  oc_proc : c_proc s = Some i;
  oc_entry : procs s !! Z.to_nat i = Some p;
  oc_free : lock_free (p_lock p);
  oc_lvl : lvl (k_hart s) 0
}.

(** A step that only changes the CPU's registers and the rest. *)
Definition moved w h s : K := mkK (procs s) (initproc s) (nextpid s) (pid_lock s) (wait_lock s) h (c_proc s) w.

Lemma wp_mine i p s (Q : Z -> K -> Prop) :
  on_cpu i p s -> (forall h, lvl h 0 -> Q i (moved (kenv s) h s)) -> wp myproc' s Q.
Proof. intros [A B C E] HQ. apply (wp_myproc' s 0 i); [done|lia|done|]. intros h Hh. apply HQ. done. Qed.

Lemma wp_my_killed i p s (Q : Z -> K -> Prop) :
  on_cpu i p s -> (forall h, lvl h 0 -> Q (p_killed p) (moved (kenv s) h s)) -> wp (killed me i) s Q.
Proof. intros [A B C E] HQ. destruct s. by apply (wp_killed me i p _ _ _ _ _ _ _ _ 0). Qed.

Lemma wp_my_field {A} i p (f : proc -> A) s (Q : A -> K -> Prop) : on_cpu i p s -> Q (f p) s -> wp (getp i f) s Q.
Proof. intros [_ B _ _] HQ. apply wp_gets. unfold pget. by rewrite B. Qed.

Lemma on_cpu_moved i p w h s : on_cpu i p s -> lvl h 0 -> on_cpu i p (moved w h s).
Proof. intros [A B C E] Hh. by split. Qed.

(** Bits of sstatus. *)
Lemma lvl_on h : lvl h 0 -> lvl (set_sstatus (Z.lor (sstatus h) SSTATUS_SIE) h) 0.
Proof. intros [(A & B & C) E]. split; [|done]. split; [apply Z.lor_nonneg; by split|]. split; [done|]. cbn. lia. Qed.

Lemma on_bit x : Z.testbit (Z.lor x SSTATUS_SIE) 1 = true.
Proof. rewrite Z.lor_spec. by rewrite orb_true_r. Qed.

Lemma lvl_any h x : lvl h 0 -> 0 <= x -> lvl (set_sstatus x h) 0.
Proof. intros [(A & B & C) E] Hx. split; [|done]. split; [done|]. split; [done|]. cbn. lia. Qed.

(** usertrap() of a system call, in a process that was not killed. *)
Lemma wp_usertrap_call i p s (Q : entered -> K -> Prop) :
  on_cpu i p s -> p_killed p = 0 -> Z.land (sstatus (k_hart s)) SSTATUS_SPP = 0 -> scause (regs_of s) = 8 -> 0 <= sepc (regs_of s) < 2 ^ 64 ->
  (forall w h, lvl h 0 -> Z.testbit (sstatus h) 1 = true -> view tr_regs w = set_stvec kernelvec (regs_of s) ->
     tl_field (p_trapframe p) TF_EPC w = u64 (sepc (regs_of s) + 4) -> Q EnterSyscall (moved w h s)) ->
  wp (usertrap me proc_base kernelvec ticks_addr) s Q.
Proof.
  intros Ho Hk Hspp Hsc Hpc HQ. unfold usertrap, r_sstatus. do 2 wp_step. rewrite Hspp. cbn [Z.eqb negb]. wp_step. apply wp_set_reg.
  set (s1 := with_regs _ s). assert (Ho1 : on_cpu i p s1) by (apply (on_cpu_moved i p _ _ s Ho), Ho).
  assert (Hr1 : regs_of s1 = set_stvec kernelvec (regs_of s)) by (apply view_put).
  wp_step. eapply (wp_mine i p); [done|]. intros h1 H1. pose proof (on_cpu_moved i p (kenv s1) h1 s1 Ho1 H1) as Ho2. set (s2 := moved _ h1 s1) in *.
  assert (Hr2 : regs_of s2 = set_stvec kernelvec (regs_of s)) by exact Hr1.
  wp_step. eapply (wp_my_field i p); [done|]. wp_step. apply wp_get_reg. rewrite Hr2. cbn [sepc set_stvec].
  wp_step. unfold tf_set, env. apply wp_zoom. eapply wp_mono; [apply tl_set; done|]. intros [] w3 (F1 & F2 & _). cbn [view put env_lens].
  set (s3 := mkK _ _ _ _ _ _ _ w3). assert (Ho3 : on_cpu i p s3) by (apply (on_cpu_moved i p w3 _ s2 Ho2), Ho2).
  assert (Hr3 : regs_of s3 = set_stvec kernelvec (regs_of s)) by (etransitivity; [exact F2|exact Hr2]).
  wp_step. apply wp_get_reg. rewrite Hr3. cbn [scause set_stvec]. rewrite Hsc. cbn [Z.eqb Pos.eqb].
  wp_step. eapply (wp_my_killed i p); [done|]. intros h4 H4. rewrite Hk. cbn [Z.eqb negb]. set (s4 := moved _ h4 s3).
  wp_step. apply wp_tf_get. change (kenv s4) with w3. rewrite F1. wp_step. apply wp_zoom.
  eapply wp_mono; [apply tl_set; apply u64_range|]. intros [] w5 (G1 & G2 & _). cbn [view put env_lens]. wp_step. apply wp_zoom. unfold intr_on. wp_step. wp_step.
  cbn [view put hart_lens k_hart]. apply HQ; [by apply lvl_on|apply on_bit| |done]. etransitivity; [exact G2|]. exact Hr3.
Qed.

(** The status register that usertrapret() sets up. *)
Definition user_status (x : Z) : Prop := Z.testbit x 8 = false /\ Z.testbit x 5 = true /\ Z.testbit x 1 = false.

Lemma user_status_of x : 0 <= x -> user_status (Z.lor (Z.land (Z.land x (Z.lnot SSTATUS_SIE)) (Z.lnot SSTATUS_SPP)) SSTATUS_SPIE).
Proof.
  intros Hx. unfold user_status. rewrite !Z.lor_spec, !Z.land_spec, !Z.lnot_spec by lia.
  change (Z.testbit SSTATUS_SPP 8) with true. change (Z.testbit SSTATUS_SPIE 8) with false. change (Z.testbit SSTATUS_SPIE 5) with true.
  change (Z.testbit SSTATUS_SIE 1) with true. change (Z.testbit SSTATUS_SPIE 1) with false. cbn [negb].
  by rewrite !andb_false_r, orb_true_r.
Qed.

(** What the trapframe holds for the next trap. *)
Record frame_ready (p : proc) (ksatp : Z) w : Prop := {
  fr_satp : tl_field (p_trapframe p) TF_KSATP w = ksatp;
  fr_sp : tl_field (p_trapframe p) TF_KSP w = u64 (p_kstack p + PGSIZE);
  fr_trap : tl_field (p_trapframe p) TF_KTRAP w = usertrap_addr;
  fr_hart : tl_field (p_trapframe p) TF_KHARTID w = me
}.

(** A trapframe field is set. *)
Lemma wp_tf_set tf off v s (Q : unit -> K -> Prop) :
  0 <= v < 2 ^ 64 ->
  (forall w, tl_field tf off w = v -> view tr_regs w = regs_of s ->
     (forall off', off <> off' -> (8 | off) -> (8 | off') -> tl_field tf off' w = tl_field tf off' (kenv s)) -> Q tt (moved w (k_hart s) s)) ->
  wp (tf_set tf off v) s Q.
Proof. intros Hv HQ. unfold tf_set, env. apply wp_zoom. eapply wp_mono; [by apply tl_set|]. intros [] w (A & B & C). by apply HQ. Qed.

Lemma offsets : (8 | TF_KSATP) /\ (8 | TF_KSP) /\ (8 | TF_KTRAP) /\ (8 | TF_EPC) /\ (8 | TF_KHARTID).
Proof. split_and!; [by exists 0|by exists 1|by exists 2|by exists 3|by exists 4]. Qed.

Lemma wp_usertrapret i p s (Q : Z -> K -> Prop) :
  on_cpu i p s -> 0 <= satp (regs_of s) < 2 ^ 64 -> 0 <= me < 2 ^ 64 -> 0 <= usertrap_addr < 2 ^ 64 ->
  (forall w h, lvl h 0 -> user_status (sstatus h) -> frame_ready p (satp (regs_of s)) w ->
     tl_field (p_trapframe p) TF_EPC w = tl_field (p_trapframe p) TF_EPC (kenv s) ->
     view tr_regs w = set_sepc (tl_field (p_trapframe p) TF_EPC (kenv s)) (set_stvec (u64 (TRAMPOLINE + (uservec - trampoline))) (regs_of s)) ->
     Q (MAKE_SATP (p_pagetable p)) (moved w h s)) ->
  wp (usertrapret me trampoline uservec usertrap_addr) s Q.
Proof.
  intros Ho Hsa Hme Hut HQ. destruct offsets as (O1 & O2 & O3 & O4 & O5). unfold usertrapret, r_sstatus, w_sstatus.
  wp_step. eapply (wp_mine i p); [done|]. intros h1 H1. wp_step. apply wp_zoom. unfold intr_off. wp_step. cbn [view put hart_lens k_hart moved].
  set (h2 := set_sstatus _ h1). assert (H2 : lvl h2 0) by (apply lvl_any; [done|]; apply Z.land_nonneg; left; apply H1).
  wp_step. apply wp_set_reg. set (s2 := with_regs _ _). assert (Ho2 : on_cpu i p s2) by (by apply (on_cpu_moved i p _ h2 s)).
  assert (R2 : regs_of s2 = set_stvec (u64 (TRAMPOLINE + (uservec - trampoline))) (regs_of s)) by (apply view_put).
  assert (F2 : forall off, tl_field (p_trapframe p) off (kenv s2) = tl_field (p_trapframe p) off (kenv s)) by (intros off; apply tl_put).
  wp_step. eapply (wp_my_field i p); [done|]. wp_step. apply wp_get_reg. rewrite R2. cbn [satp set_stvec].
  wp_step. apply wp_tf_set; [done|]. intros w3 A3 B3 C3. wp_step. eapply (wp_my_field i p); [by apply (on_cpu_moved i p w3 h2 s)|].
  wp_step. apply wp_tf_set; [apply u64_range|]. intros w4 A4 B4 C4. wp_step. apply wp_tf_set; [done|]. intros w5 A5 B5 C5.
  wp_step. apply wp_tf_set; [done|]. intros w6 A6 B6 C6. cbn [kenv moved] in C4, C5, C6. unfold regs_of in B3, B4, B5, B6. cbn [kenv moved] in B4, B5, B6.
  assert (E6 : tl_field (p_trapframe p) TF_EPC w6 = tl_field (p_trapframe p) TF_EPC (kenv s)) by (rewrite C6, C5, C4, C3; done).
  wp_step. wp_step. wp_step. apply wp_zoom. wp_step. cbn [view put hart_lens k_hart moved]. set (h7 := set_sstatus _ _).
  assert (S7 : user_status (sstatus h7)) by (apply user_status_of, H1).
  assert (H7 : lvl h7 0). { apply lvl_any; [done|]. apply Z.lor_nonneg. split; [|done]. apply Z.land_nonneg. left. apply H2. }
  wp_step. apply wp_tf_get. cbn [kenv moved]. rewrite E6. wp_step. apply wp_set_reg. set (s8 := with_regs _ _).
  wp_step. eapply (wp_my_field i p); [by apply (on_cpu_moved i p (kenv s8) h7 s)|]. wp_step. apply (HQ (kenv s8) h7); [done|done| | |].
  - split; unfold s8, with_regs; cbn [put env_lens kenv]; rewrite tl_put.
    + rewrite C6, C5, C4; done.
    + rewrite C6, C5; done.
    + rewrite C6; done.
    + done.
  - unfold s8, with_regs. cbn [put env_lens kenv]. by rewrite tl_put.
  - unfold s8, with_regs. cbn [put env_lens kenv]. rewrite view_put. f_equal. unfold regs_of. cbn [kenv]. rewrite B6, B5, B4, B3. exact R2.
Qed.

(** usertrap() around a system call [sc], with the state in which [sc] ended. *)
Definition usertrap_call (sc : M K unit) : M K (K * left) :=
  let! e := usertrap me proc_base kernelvec ticks_addr in
  match e with
  | EnterSyscall => sc ;; let! s2 := gets id in let! l := usertrap_end me proc_base trampoline uservec usertrap_addr 0 in ret (s2, l)
  | _ => hang
  end.

(** The state in which syscall() is called: traps go to the kernel, interrupts
    are on and the saved program counter is past the ecall. *)
Definition at_syscall p s s1 : Prop :=
  same_procs s s1 /\ lvl (k_hart s1) 0 /\ Z.testbit (sstatus (k_hart s1)) 1 = true /\
  regs_of s1 = set_stvec kernelvec (regs_of s) /\ tl_field (p_trapframe p) TF_EPC (kenv s1) = u64 (sepc (regs_of s) + 4).

(** The call is over: the process runs, was not killed, and has the page table
    [pt] and the saved program counter [pc]. *)
Definition call_over i p (pt pc : Z) s2 : Prop :=
  exists p2, on_cpu i p2 s2 /\ p_killed p2 = 0 /\ p_trapframe p2 = p_trapframe p /\ p_kstack p2 = p_kstack p /\
    p_pagetable p2 = pt /\ tl_field (p_trapframe p) TF_EPC (kenv s2) = pc /\ 0 <= satp (regs_of s2) < 2 ^ 64.

(** usertrap() leaves for user mode at [pc] on the page table [pt], with the
    trapframe set for the next trap. *)
Definition in_user p (pt pc : Z) (r : K * left) s' : Prop :=
  let '(s2, l) := r in
  l = LeaveUser (MAKE_SATP pt) /\ user_status (sstatus (k_hart s')) /\
  sepc (regs_of s') = pc /\ stvec (regs_of s') = u64 (TRAMPOLINE + (uservec - trampoline)) /\
  frame_ready p (satp (regs_of s2)) (kenv s').

Lemma call_returns i p s (sc : M K unit) pt pc :
  on_cpu i p s -> p_killed p = 0 -> Z.land (sstatus (k_hart s)) SSTATUS_SPP = 0 -> scause (regs_of s) = 8 -> 0 <= sepc (regs_of s) < 2 ^ 64 ->
  0 <= me < 2 ^ 64 -> 0 <= usertrap_addr < 2 ^ 64 ->
  (forall s1, at_syscall p s s1 -> wp sc s1 (fun _ s2 => call_over i p pt pc s2)) ->
  wp (usertrap_call sc) s (in_user p pt pc).
Proof.
  intros Ho Hk Hspp Hsc Hpc Hme Hut Hcall. unfold usertrap_call. wp_step. apply (wp_usertrap_call i p); [done..|]. intros w1 h1 H1 Hon Hr1 He1. wp_step.
  eapply wp_mono; [apply Hcall; by split_and!|].
  intros [] s2 (p2 & Ho2 & Hk2 & Htf & Hks & Hpt & Hpc2 & Hsa). cbn beta. do 2 wp_step. unfold id. wp_step. unfold usertrap_end. wp_step.
  eapply (wp_mine i p2); [done|]. intros h3 H3. pose proof (on_cpu_moved i p2 (kenv s2) h3 s2 Ho2 H3) as Ho3. wp_step.
  eapply (wp_my_killed i p2); [done|]. intros h4 H4. rewrite Hk2. cbn [Z.eqb negb]. wp_step.
  pose proof (on_cpu_moved i p2 (kenv s2) h4 _ Ho3 H4) as Ho4. eapply (wp_usertrapret i p2); [exact Ho4|done..|].
  intros w5 h5 H5 Hst [F1 F2 F3 F4] Hepc Hr5. rewrite Htf in F1, F2, F3, F4, Hepc, Hr5. rewrite Hks in F2. wp_step. wp_step. rewrite Hpt. unfold in_user, regs_of. cbn [kenv moved k_hart]. rewrite Hr5.
  split_and!; try done.
Qed.

(** C26: a system call returns to the instruction after its ecall.  usertrap()
    of a process that was not killed saves the user program counter, moved past
    the ecall instruction, points the trap vector to the kernel and enables
    interrupts before the system call [sc] runs.  When the call is over, and
    the process still runs on this CPU and was not killed, usertrap() turns
    interrupts off, prepares the trapframe for the next trap (kernel page
    table, kernel stack, usertrap, this CPU), and leaves for user mode with
    interrupts on after the switch.  When the call left the saved program
    counter and the page table of the process alone, that is at the address of
    the ecall plus 4 on the same page table; when it replaced them, as exec
    does, it is at the new program counter on the new page table. *)
Theorem system_call_returns i p s (sc : M K unit) :
  on_cpu i p s -> p_killed p = 0 -> Z.land (sstatus (k_hart s)) SSTATUS_SPP = 0 -> scause (regs_of s) = 8 -> 0 <= sepc (regs_of s) < 2 ^ 64 ->
  0 <= me < 2 ^ 64 -> 0 <= usertrap_addr < 2 ^ 64 ->
  ((forall s1, at_syscall p s s1 -> wp sc s1 (fun _ s2 => call_over i p (p_pagetable p) (tl_field (p_trapframe p) TF_EPC (kenv s1)) s2)) ->
   wp (usertrap_call sc) s (in_user p (p_pagetable p) (u64 (sepc (regs_of s) + 4)))) /\
  (forall pt pc, (forall s1, at_syscall p s s1 -> wp sc s1 (fun _ s2 => call_over i p pt pc s2)) ->
   wp (usertrap_call sc) s (in_user p pt pc)).
Proof.
  intros Ho Hk Hspp Hsc Hpc Hme Hut. split; [intros Hcall|intros pt pc Hcall; by apply (call_returns i)].
  apply (call_returns i); try done. intros s1 Hs1. eapply wp_mono; [by apply Hcall|]. destruct Hs1 as (_ & _ & _ & _ & ->). done.
Qed.

(** ** Sleeping *)

Lemma wp_ticks_unlock lk n s (Q : unit -> K -> Prop) :
  lvl (k_hart s) (n + 1) -> 0 <= n < 100 -> view tk_lock (kenv s) = lock_taken me lk -> lock_free lk ->
  (forall h, lvl h n -> Q tt (moved (put tk_lock lk (kenv s)) h s)) -> wp (unlock me tickslock_lens) s Q.
Proof. intros Hl Hn Hv Hf HQ. by apply (wp_unlock me tickslock_lens s n lk). Qed.

Lemma sleep_over t0 j n : 0 <= j < 2 ^ 32 -> (u32 (u32 (t0 + j) - t0) <? u32 n) = negb (u32 n <=? j).
Proof.
  intros Hj. unfold u32 at 1 2. rewrite Zminus_mod_idemp_l. replace (t0 + j - t0) with j by lia. rewrite Z.mod_small by lia.
  by rewrite Z.leb_antisym, negb_involutive.
Qed.

(** C35: sleep counts clock ticks.  A test of the loop of sys_sleep(), made [j]
    clock ticks after the call (fewer than 2^32), returns 0 exactly when [j] is
    at least the argument, read as an unsigned number; before that the process
    goes to sleep on the clock, giving back the lock, or returns -1 if it was
    killed.  A clock interrupt advances the clock by one tick, also across the
    wrap of the counter, and makes every process that sleeps on it runnable. *)
Theorem sleep_ticks i p s lk t0 n j :
  c_proc s = Some i -> procs s !! Z.to_nat i = Some p -> lock_free (p_lock p) -> lvl (k_hart s) 1 ->
  view tk_lock (kenv s) = lock_taken me lk -> lock_free lk -> 0 <= j < 2 ^ 32 -> view tk_ticks (kenv s) = u32 (t0 + j) ->
  wp (sys_sleep_loop me ticks_addr t0 n) s (fun r s' =>
    view tk_lock (kenv s') = lk /\ view tk_ticks (kenv s') = u32 (t0 + j) /\
    if u32 n <=? j then r = inr 0 /\ procs s' = procs s
    else if p_killed p =? 0 then (exists saved, r = inl saved) /\ procs s' = <[Z.to_nat i := asleep me ticks_addr p]> (procs s)
    else r = inr (-1) /\ procs s' = procs s) /\
  (forall s0, others_free (c_proc s0) (procs s0) -> length (procs s0) = Z.to_nat NPROC -> lvl (k_hart s0) 0 -> lock_free (view tk_lock (kenv s0)) ->
    wp (clockintr me ticks_addr) s0 (fun _ s' =>
      view tk_ticks (kenv s') = u32 (view tk_ticks (kenv s0) + 1) /\ lock_free (view tk_lock (kenv s')) /\
      procs s' = wake_all (c_proc s0) ticks_addr (procs s0))).
Proof.
  intros Hc Hi Hf Hl Hv Hfl Hj Ht. split.
  - pose proof (lookup_lt_Some _ _ _ Hi) as Hlt. unfold sys_sleep_loop, env. wp_step. apply wp_zoom. wp_step. cbn [view env_lens put]. rewrite Ht, sleep_over by done.
    destruct s as [ps ip np pl wl h c w]. cbn [procs initproc nextpid pid_lock wait_lock k_hart c_proc kenv] in *. subst c.
    destruct (Z.leb_spec (u32 n) j) as [Hge|Hsl]; cbn [negb].
    + wp_step. apply (wp_ticks_unlock lk 0); [done|lia|done|done|]. intros h1 H1. wp_step. cbn. rewrite view_put, tl_ticks_lock. done.
    + wp_step. apply (wp_me _ _ _ _ _ _ _ _ i 1); [done|lia|done|]. intros h1 H1. wp_step.
      eapply (wp_killed me i p _ _ _ _ _ _ _ _ 1); [done|done|done|lia|]. intros h2 H2. destruct (Z.eqb_spec (p_killed p) 0) as [Ek|Ek]; cbn [negb].
      * unfold sleep. do 2 wp_step. apply (wp_me _ _ _ _ _ _ _ _ i 1); [done|lia|done|]. intros h3 H3.
        wp_step. apply (wp_plock _ _ _ _ _ _ _ _ _ i p 1); [done|done|done|lia|]. intros h4 H4.
        wp_step. apply (wp_ticks_unlock lk 1); [done|lia|done|done|]. intros h5 H5. cbn [moved procs initproc nextpid pid_lock wait_lock c_proc kenv].
        do 2 (wp_step; apply wp_setp_ins; [done|]). apply wp_sched; [done| |done|done|].
        { unfold holding. cbn. by rewrite bool_decide_eq_true_2. }
        intros h6 sv H6. wp_step. cbn. rewrite view_put, tl_ticks_lock. split; [done|]. split; [done|]. split; [by exists sv|]. by destruct p.
      * wp_step. apply (wp_ticks_unlock lk 0); [done|lia|done|done|]. intros h3 H3. wp_step. cbn. rewrite view_put, tl_ticks_lock. done.
  - intros [ps ip np pl wl h c w] Hof Hlen Hlv Hfr. cbn in *. unfold clockintr, env. wp_step. apply (wp_lock me tickslock_lens _ 0); [done|lia|done|done|].
    intros h1 H1. wp_step. apply wp_zoom. wp_step. cbn. wp_step. apply (wp_wakeup me ticks_addr _ _ _ _ _ _ _ _ 1); [done|done|done|lia|].
    intros h2 H2. apply (wp_ticks_unlock (view tk_lock w) 0); [done|lia| |done|].
    + cbn. by rewrite tl_lock_ticks, view_put.
    + intros h3 H3. cbn. rewrite tl_ticks_lock, view_put, tl_ticks_lock, view_put. done.
Qed.

End Facts.

(** ** A machine with one process *)
Module TrapDemo.

Record machine := mkMachine { mregs : tregs; mticks : Z; mlock : spinlock; mtf : Z -> Z }.

#[local] Instance machine_env : ProcEnv machine := {
  env_kalloc := ret 0; env_kfree _ := ret tt; env_proc_pagetable _ := ret 0; env_proc_freepagetable _ _ := ret tt;
  env_uvmfirst _ _ := ret tt; env_uvmalloc _ _ _ _ := ret 0; env_uvmdealloc _ sz _ := ret sz; env_uvmcopy _ _ _ := ret (-1);
  env_copyout _ _ _ := ret (-1); env_copyin _ _ _ := ret None; env_kwrite _ _ := ret tt;
  env_kread a _ := gets (fun m => le_bytes 8 (mtf m a));
  env_tf_copy _ _ := ret tt;
  env_tf_set tf off v := modify (fun m => mkMachine (mregs m) (mticks m) (mlock m) (fun a => if a =? tf + off then v else mtf m a));
  env_filedup f := ret f; env_fileclose _ := ret tt; env_idup ip := ret ip; env_iput _ := ret tt; env_namei _ := ret 0
}.

#[local] Instance machine_trap : TrapEnv machine := {
  tk_ticks := Lens mticks (fun t m => mkMachine (mregs m) t (mlock m) (mtf m));
  tk_lock := Lens mlock (fun l m => mkMachine (mregs m) (mticks m) l (mtf m));
  tr_regs := Lens mregs (fun r m => mkMachine r (mticks m) (mlock m) (mtf m));
  td_load32 _ := ret 0; td_store32 _ _ := ret tt; td_load64 _ := ret 0;
  td_uartintr := ret tt; td_virtio_disk_intr := ret tt; td_printf _ _ := ret tt
}.

#[local] Instance machine_laws : TrapLaws machine.
Proof.
  refine {| tl_field tf off m := mtf m (tf + off) mod 2 ^ 64 |}; try (split; by intros; repeat match goal with m : machine |- _ => destruct m end).
  - intros tf off w. split; [done|]. exact (le_val_le_bytes 8 (mtf w (tf + off))).
  - intros tf off v w Hv. unfold wp, env_tf_set, machine_env, modify. cbn [mtf]. rewrite Z.eqb_refl, Z.mod_small by done. split; [done|]. split; [done|]. intros off' Hne _ _.
    by rewrite (proj2 (Z.eqb_neq _ _)) by lia.
Defined.

Definition alone : proc := set_trapframe 4096 (set_pagetable 8192 (set_state RUNNING (set_lock (initlock "proc") zero_proc))).
(** An ecall at address 1000. *)
Definition trapped : kstate machine :=
  mkK [alone] None 2 (initlock "nextpid") (initlock "wait_lock") (mkHart 0 0 0) (Some 0)
    (mkMachine (mkTregs 8 1000 0 0 0 0) 41 (initlock "time") (fun _ => 0)).

(** getpid() goes back to address 1004, and a call that installs another page
    table and program counter goes there. *)
Definition to_2000 : M (kstate machine) unit :=
  tf_set 4096 TF_EPC 2000 ;; modify (fun s => put (Lens procs (fun ps s => mkK ps (initproc s) (nextpid s) (pid_lock s) (wait_lock s) (k_hart s) (c_proc s) (kenv s))) [set_pagetable 12288 alone] s).

Lemma system_call_returns_witness :
  wp (usertrap_call 0 0 0 0 0 0 0 (let! _ := sys_getpid in ret tt)) trapped (in_user 0 0 0 0 alone 8192 1004) /\
  wp (usertrap_call 0 0 0 0 0 0 0 to_2000) trapped (in_user 0 0 0 0 alone 12288 2000).
Proof.
  assert (Ho : on_cpu 0 alone trapped) by (split; done). assert (Hm : 0 <= 0 < 2 ^ 64) by lia.
  split.
  - destruct (system_call_returns 0 0 0 0 0 0 0 0 alone trapped (let! _ := sys_getpid in ret tt) Ho ltac:(reflexivity) ltac:(reflexivity) ltac:(reflexivity) ltac:(cbn; lia) Hm Hm) as [H1 _]. apply H1.
    intros s1 ((Hp & _ & _ & _ & _ & Hc) & Hl & _ & Hr & _). assert (Ho1 : on_cpu 0 alone s1) by (split; [rewrite Hc; reflexivity|rewrite Hp; reflexivity|apply Ho|exact Hl]). clear Ho Hm H1.
    unfold sys_getpid. do 2 wp_step. apply (wp_mine 0 alone); [done|]. intros h Hh. pose proof (on_cpu_moved 0 alone (kenv s1) h s1 Ho1 Hh) as Ho2. eapply (wp_my_field 0 alone); [exact Ho2|]. wp_step.
    exists alone. split_and!; try done; unfold regs_of in *; cbn [kenv moved]; rewrite Hr; cbn; lia.
  - destruct (system_call_returns 0 0 0 0 0 0 0 0 alone trapped to_2000 Ho ltac:(reflexivity) ltac:(reflexivity) ltac:(reflexivity) ltac:(cbn; lia) Hm Hm) as [_ H2]. apply H2.
    intros s1 ((Hp & _ & _ & _ & _ & Hc) & Hl & _ & Hr & _). clear Ho Hm H2. unfold to_2000. wp_step. apply wp_tf_set; [lia|]. intros w A B C. wp_step.
    exists (set_pagetable 12288 alone). split_and!; try done; unfold regs_of in *; cbn [kenv moved put]; rewrite ?B, ?Hr; cbn; try lia.
Defined.

(** One tick after sleep(3) at tick 40, with the lock held. *)
Definition ticking : kstate machine :=
  mkK [alone] None 2 (initlock "nextpid") (initlock "wait_lock") (mkHart 0 1 0) (Some 0)
    (mkMachine (mkTregs 8 1000 0 0 0 0) 41 (lock_taken 0 (initlock "time")) (fun _ => 0)).

Lemma sleep_ticks_witness :
  wp (sys_sleep_loop 0 500 40 3) ticking (fun r s' => (exists saved, r = inl saved) /\ procs s' = [asleep 0 500 alone]).
Proof.
  eapply wp_mono; [apply (sleep_ticks 0 500 0 alone ticking (initlock "time") 40 3 1)|].
  - reflexivity.
  - reflexivity.
  - done.
  - done.
  - reflexivity.
  - done.
  - lia.
  - reflexivity.
  - intros r s' (_ & _ & Hr). exact Hr.
Defined.

End TrapDemo.
