(* ===== verification/Boot.v ===== *)
(** * Start-up (kernel/start.c, kernel/main.c)

    [start] runs in machine mode on every CPU; the control registers are a
    function of their names, the memory holds timer_scratch and the registers
    of the CLINT, where the code stores.  It ends with the mret instruction,
    whose effect on the mode and the program counter is [mret].  [step]
    interleaves the harts in main(): each hart has the calls it is still to
    make, and a hart other than 0 waits for [started]; what a call needs of
    the earlier ones is [needs].  The fences order memory accesses that this
    model does not reorder. *)

From S2P Require Import Prelude Mem Riscv.

(** ** start() *)

Module Start.

Inductive reg := Mstatus | Mepc | Satp | Medeleg | Mideleg | Sie | Pmpaddr0 | Pmpcfg0 | Mscratch | Mtvec | Mie | Tp | Mhartid.
#[global] Instance reg_eq_dec : EqDecision reg.
Proof. solve_decision. Defined.

Record machine := mkMachine { regs : reg -> Z; phys : mem }.
Definition r_reg (r : reg) : M machine Z := gets (fun s => regs s r).
Definition upd (r : reg) (x : Z) (f : reg -> Z) : reg -> Z := fun r' => if decide (r' = r) then x else f r'.
Definition w_reg (r : reg) (x : Z) : M machine unit := modify (fun s => mkMachine (upd r x (regs s)) (phys s)).
Definition load (a : Z) : M machine Z := gets (fun s => load64 (phys s) a).
Definition store (a v : Z) : M machine unit := modify (fun s => mkMachine (regs s) (store64 (phys s) a v)).

Definition MSTATUS_MPP_MASK : Z := Z.shiftl 3 11.
Definition MSTATUS_MPP_S : Z := Z.shiftl 1 11.
Definition MSTATUS_MIE : Z := Z.shiftl 1 3.
Definition SIE_SEIE : Z := Z.shiftl 1 9.
Definition SIE_STIE : Z := Z.shiftl 1 5.
Definition SIE_SSIE : Z := Z.shiftl 1 1.
Definition MIE_MTIE : Z := Z.shiftl 1 7.
Definition CLINT : Z := 0x2000000.
Definition CLINT_MTIMECMP (hartid : Z) : Z := CLINT + 0x4000 + 8 * hartid.
Definition CLINT_MTIME : Z := CLINT + 0xBFF8.
Definition NCPU : Z := 8.

Section Start.
(** The addresses of main, timervec and timer_scratch. *)
Variable (a_main a_timervec timer_scratch : Z).

Definition interval : Z := 1000000.
(** &timer_scratch[id][0] *)
Definition scratch_of (id : Z) : Z := timer_scratch + 8 * (5 * id).

Definition timerinit : M machine unit :=
  let! id := r_reg Mhartid in
  let! now := load CLINT_MTIME in
  store (CLINT_MTIMECMP id) (u64 (now + interval)) ;;
  let scratch := scratch_of id in
  store (scratch + 8 * 3) (CLINT_MTIMECMP id) ;;
  store (scratch + 8 * 4) interval ;;
  w_reg Mscratch scratch ;;
  w_reg Mtvec a_timervec ;;
  let! x := r_reg Mstatus in
  w_reg Mstatus (Z.lor x MSTATUS_MIE) ;;
  let! x := r_reg Mie in
  w_reg Mie (Z.lor x MIE_MTIE).

(** start() up to the mret. *)
Definition start : M machine unit :=
  let! x := r_reg Mstatus in
  let x := Z.land x (Z.lnot MSTATUS_MPP_MASK) in
  let x := Z.lor x MSTATUS_MPP_S in
  w_reg Mstatus x ;;
  w_reg Mepc a_main ;;
  w_reg Satp 0 ;;
  w_reg Medeleg 0xffff ;;
  w_reg Mideleg 0xffff ;;
  let! x := r_reg Sie in
  w_reg Sie (Z.lor (Z.lor (Z.lor x SIE_SEIE) SIE_STIE) SIE_SSIE) ;;
  w_reg Pmpaddr0 0x3fffffffffffff ;;
  w_reg Pmpcfg0 0xf ;;
  timerinit ;;
  let! id := r_reg Mhartid in
  w_reg Tp id.
End Start.

(** The mode and the program counter after mret: the field MPP of mstatus,
    0 for user, 1 for supervisor, 3 for machine mode, and mepc. *)
Definition mret (s : machine) : Z * Z := (Z.land (Z.shiftr (regs s Mstatus) 11) 3, regs s Mepc).

End Start.

(** ** main() *)

Module Main.

(** The calls of main(), in the order of the source; [PrintBooting] is its
    first three calls of printf(). *)
Inductive action :=
| Consoleinit | Printfinit | PrintBooting | Kinit | Kvminit | Kvminithart | Procinit | Trapinit | Trapinithart
| Plicinit | Plicinithart | Binit | Iinit | Fileinit | VirtioDiskInit | Userinit | SetStarted
| WaitStarted | PrintHart | Scheduler.
#[global] Instance action_eq_dec : EqDecision action.
Proof. solve_decision. Defined.

(** The calls of a hart, given cpuid(). *)
Definition main (cpuid : nat) : list action :=
  if decide (cpuid = 0%nat) then
    [Consoleinit; Printfinit; PrintBooting; Kinit; Kvminit; Kvminithart; Procinit; Trapinit; Trapinithart;
     Plicinit; Plicinithart; Binit; Iinit; Fileinit; VirtioDiskInit; Userinit; SetStarted; Scheduler]
  else [WaitStarted; PrintHart; Kvminithart; Trapinithart; Plicinithart; Scheduler].

(** [started], the calls each hart has left, and the calls made so far. *)
Record state := mkState { started : bool; left : nat -> list action; log : list (nat * action) }.
Definition boot : state := mkState false main [].

(** Hart [h] makes its next call; [WaitStarted] is left when [started] is set. *)
Inductive step : state -> state -> Prop :=
| step_call s h a rest :
    left s h = a :: rest -> (a = WaitStarted -> started s = true) ->
    step s (mkState (started s || bool_decide (a = SetStarted)) (fun k => if decide (k = h) then rest else left s k) (log s ++ [(h, a)])).

(** The calls that a call on hart [h] relies on, with the hart that has to
    have made them: printf() on the serial port and the lock of printf,
    kvminit() on pages from kalloc(), paging on the kernel page table, kernel
    traps on the lock of the clock, the disk on pages, the first process on
    the process table, pages and the inode table, and the scheduler on all of
    this and on the set-up of its own hart. *)
Definition needs (h : nat) (a : action) : list (nat * action) :=
  match a with
  | PrintBooting | PrintHart => [(0%nat, Consoleinit); (0%nat, Printfinit)]
  | Kvminit | VirtioDiskInit => [(0%nat, Kinit)]
  | Kvminithart => [(0%nat, Kvminit)]
  | Trapinithart => [(0%nat, Trapinit)]
  | Plicinithart => [(0%nat, Plicinit)]
  | Userinit => [(0%nat, Procinit); (0%nat, Kinit); (0%nat, Iinit); (0%nat, Fileinit)]
  | Scheduler =>
      [(0%nat, Userinit); (0%nat, Binit); (0%nat, VirtioDiskInit); (h, Kvminithart); (h, Trapinithart); (h, Plicinithart)]
  | _ => []
  end.

End Main.

(** ** The state start() leaves *)

Section StartSpec.
Import Start.
Variable (a_main a_timervec timer_scratch : Z).
Context (Hscratch : KERNBASE <= timer_scratch).

(** MPP of a value start() computes for mstatus. *)
Lemma mpp_supervisor x : Z.land (Z.shiftr (Z.lor (Z.lor (Z.land x (Z.lnot MSTATUS_MPP_MASK)) MSTATUS_MPP_S) MSTATUS_MIE) 11) 3 = 1.
Proof.
  apply Z.bits_inj'. intros n Hn. change 3 with (Z.ones 2). rewrite Z.land_spec, Z.shiftr_spec, !Z.lor_spec, Z.land_spec, Z.lnot_spec by lia.
  destruct (decide (n = 0)) as [->|]; [cbn; by rewrite andb_false_r|]. destruct (decide (n = 1)) as [->|]; [cbn; by rewrite andb_false_r|].
  rewrite Z.ones_spec_high, andb_false_r by lia. symmetry. change 1 with (Z.ones 1). apply Z.ones_spec_high. lia.
Qed.

(** The bits of mstatus that are not MPP or MIE are kept. *)
Lemma mstatus_kept x n : 0 <= n -> n <> 3 -> n <> 11 -> n <> 12 ->
  Z.testbit (Z.lor (Z.lor (Z.land x (Z.lnot MSTATUS_MPP_MASK)) MSTATUS_MPP_S) MSTATUS_MIE) n = Z.testbit x n.
Proof.
  intros Hn H3 H11 H12. rewrite !Z.lor_spec, Z.land_spec, Z.lnot_spec by lia. unfold MSTATUS_MPP_S, MSTATUS_MIE, MSTATUS_MPP_MASK.
  rewrite !Z.shiftl_spec by lia.
  assert (E1 : Z.testbit 1 (n - 11) = false) by (destruct (decide (n < 11)); [by apply Z.testbit_neg_r; lia|change 1 with (Z.ones 1); apply Z.ones_spec_high; lia]).
  assert (E2 : Z.testbit 1 (n - 3) = false) by (destruct (decide (n < 3)); [by apply Z.testbit_neg_r; lia|change 1 with (Z.ones 1); apply Z.ones_spec_high; lia]).
  assert (E3 : Z.testbit 3 (n - 11) = false) by (destruct (decide (n < 11)); [by apply Z.testbit_neg_r; lia|change 3 with (Z.ones 2); apply Z.ones_spec_high; lia]).
  rewrite E1, E2, E3. cbn. by rewrite andb_true_r, !orb_false_r.
Qed.

(** What timervec and devintr() find set up for hart [id]. *)
Record timer_ready (id now : Z) (m : mem) : Prop := {
  tr_cmp : load64 m (CLINT_MTIMECMP id) = u64 (now + interval);
  tr_addr : load64 m (scratch_of timer_scratch id + 24) = CLINT_MTIMECMP id;
  tr_interval : load64 m (scratch_of timer_scratch id + 32) = interval
}.

Lemma timer_stores id now m :
  0 <= id < NCPU ->
  let m1 := store64 m (CLINT_MTIMECMP id) (u64 (now + interval)) in
  let m2 := store64 m1 (scratch_of timer_scratch id + 24) (CLINT_MTIMECMP id) in
  let m3 := store64 m2 (scratch_of timer_scratch id + 32) interval in
  timer_ready id now m3 /\ forall id' t, 0 <= id' < NCPU -> id' <> id -> timer_ready id' t m -> timer_ready id' t m3.
Proof.
  intros Hid m1 m2 m3. unfold NCPU in *.
  assert (Hr : forall i, 0 <= i < 8 -> CLINT_MTIMECMP i + 8 <= scratch_of timer_scratch id /\ CLINT_MTIMECMP i = 0x2004000 + 8 * i).
  { intros i Hi. unfold scratch_of, CLINT_MTIMECMP, CLINT, KERNBASE in *. lia. }
  destruct (Hr id Hid) as [H1 H2]. split.
  - split; unfold m3, m2, m1.
    + rewrite 2!load64_store64_ne, load64_store64_eq by lia. apply u64_small, u64_range.
    + rewrite load64_store64_ne, load64_store64_eq by lia. apply u64_small. lia.
    + by rewrite load64_store64_eq.
  - intros i t Hi Hne [A B C]. destruct (Hr i Hi) as [H3 H4]. unfold scratch_of, KERNBASE in *.
    split; unfold m3, m2, m1, scratch_of; rewrite !load64_store64_ne by lia; done.
Qed.

Lemma wp_w_reg r x s (Q : unit -> machine -> Prop) : Q tt (mkMachine (upd r x (regs s)) (phys s)) -> wp (w_reg r x) s Q.
Proof. done. Qed.
Lemma wp_r_reg r s (Q : Z -> machine -> Prop) : Q (regs s r) s -> wp (r_reg r) s Q.
Proof. done. Qed.
Lemma wp_load_word a s (Q : Z -> machine -> Prop) : Q (load64 (phys s) a) s -> wp (load a) s Q.
Proof. done. Qed.
Lemma wp_store_word a v s (Q : unit -> machine -> Prop) : Q tt (mkMachine (regs s) (store64 (phys s) a v)) -> wp (store a v) s Q.
Proof. done. Qed.
Lemma upd_eq r x f : upd r x f r = x.
Proof. unfold upd. by rewrite decide_True. Qed.
Lemma upd_ne r r' x f : r' <> r -> upd r x f r' = f r'.
Proof. intros. unfold upd. by rewrite decide_False. Qed.
Ltac upd_simpl := repeat first [rewrite upd_eq|rewrite upd_ne by discriminate].
Ltac reg_step :=
  lazymatch goal with
  | |- wp (bind _ _) _ _ => apply wp_bind
  | |- wp (r_reg _) _ _ => apply wp_r_reg
  | |- wp (w_reg _ _) _ _ => apply wp_w_reg
  | |- wp (load _) _ _ => apply wp_load_word
  | |- wp (store _ _) _ _ => apply wp_store_word
  | |- wp (timerinit _ _) _ _ => unfold timerinit
  end; cbn beta zeta; cbn [regs phys]; upd_simpl.

(** start() leaves a hart ready for the kernel: mret enters main() in
    supervisor mode with paging off and the hart's number in tp; interrupts
    and exceptions are delegated, and the external, timer and software
    interrupts of the supervisor and the timer interrupt of the machine
    enabled; the timer is set one interval ahead, and the words timervec reads
    are in place, in an area that no other hart's start() touches; the other
    bits of mstatus are as they were. *)
Theorem start_ready s :
  let id := regs s Mhartid in
  let now := load64 (phys s) CLINT_MTIME in
  0 <= id < NCPU ->
  wp (start a_main a_timervec timer_scratch) s (fun _ s' =>
    mret s' = (1, a_main) /\ regs s' Satp = 0 /\ regs s' Tp = id /\
    regs s' Medeleg = 0xffff /\ regs s' Mideleg = 0xffff /\
    (forall n, n = 9 \/ n = 5 \/ n = 1 -> Z.testbit (regs s' Sie) n = true) /\
    Z.testbit (regs s' Mstatus) 3 = true /\ Z.testbit (regs s' Mie) 7 = true /\
    regs s' Mtvec = a_timervec /\ regs s' Mscratch = scratch_of timer_scratch id /\
    timer_ready id now (phys s') /\
    (forall id' t, 0 <= id' < NCPU -> id' <> id -> timer_ready id' t (phys s) -> timer_ready id' t (phys s')) /\
    (forall n, 0 <= n -> n <> 3 -> n <> 11 -> n <> 12 -> Z.testbit (regs s' Mstatus) n = Z.testbit (regs s Mstatus) n)).
Proof.
  intros id now Hid. destruct (timer_stores id now (phys s) Hid) as [Ht Ho]. cbn zeta in Ht, Ho.
  unfold start. repeat reg_step. change (8 * 3) with 24. change (8 * 4) with 32. fold id now. unfold mret. cbn [regs phys]. upd_simpl.
  split_and!; try done.
  - f_equal. apply mpp_supervisor.
  - intros n Hn. upd_simpl. rewrite !Z.lor_spec. destruct Hn as [->|[->| ->]]; cbn; by rewrite ?orb_true_r.
  - rewrite Z.lor_spec. apply orb_true_r.
  - rewrite Z.lor_spec. apply orb_true_r.
  - intros n. upd_simpl. apply mstatus_kept.
Qed.
End StartSpec.

(** Hart 2 of a machine with its timer at 5. *)
Lemma start_ready_witness :
  let s := Start.mkMachine (fun r => if decide (r = Start.Mhartid) then 2 else 0x1800) (store64 ∅ Start.CLINT_MTIME 5) in
  wp (Start.start 0x80001000 0x80005000 0x80009000) s (fun _ s' =>
    Start.mret s' = (1, 0x80001000) /\ load64 (Start.phys s') 0x2004010 = 1000005).
Proof.
  intros s. eapply wp_mono; [apply (start_ready 0x80001000 0x80005000 0x80009000 ltac:(unfold KERNBASE; lia) s); vm_compute; split; [discriminate|reflexivity]|].
  intros _ s' (Hm & _ & _ & _ & _ & _ & _ & _ & _ & _ & Ht & _). split; [exact Hm|].
  transitivity (u64 (load64 (Start.phys s) Start.CLINT_MTIME + Start.interval)); [exact (tr_cmp _ _ _ _ Ht)|vm_compute; reflexivity].
Defined.

(** ** The order of the calls of main() *)

Section Order.
Import Main.

(** The calls hart [h] has made. *)
Definition calls_of (h : nat) (l : list (nat * action)) : list action :=
  map snd (List.filter (fun x => bool_decide (fst x = h)) l).

Lemma calls_app h l l' : calls_of h (l ++ l') = calls_of h l ++ calls_of h l'.
Proof. unfold calls_of. by rewrite List.filter_app, map_app. Qed.
Lemma calls_one h k a : calls_of h [(k, a)] = if decide (k = h) then [a] else [].
Proof. unfold calls_of. cbn. rewrite bool_decide_decide. by destruct (decide (k = h)). Qed.
Lemma calls_in h a l : a ∈ calls_of h l -> (h, a) ∈ l.
Proof.
  unfold calls_of. rewrite !list_elem_of_In, in_map_iff. intros ([k b] & <- & Hf). apply filter_In in Hf as [Hi Hb].
  apply bool_decide_eq_true in Hb. cbn in *. by subst k.
Qed.

(** What every run keeps: the calls made and the calls left of a hart are its
    main(), [started] is set by hart 0, and no hart gets past its wait before. *)
Record inv (s : state) : Prop := {
  inv_split : forall h, calls_of h (log s) ++ left s h = main h;
  inv_started : started s = true <-> (0%nat, SetStarted) ∈ log s;
  inv_wait : forall l1 h l2, log s = l1 ++ (h, WaitStarted) :: l2 -> (0%nat, SetStarted) ∈ l1
}.

Lemma inv_boot : inv boot.
Proof. split; [done|cbn; split; [done|set_solver]|]. intros [|] ? ?; done. Qed.

Lemma main_self h a : a ∈ main h -> a = SetStarted -> h = 0%nat.
Proof. unfold main. destruct (decide (h = 0%nat)); [done|]. intros Ha ->. set_solver. Qed.

Lemma inv_step s s' : inv s -> step s s' -> inv s'.
Proof.
  intros Hinv Hstep. destruct Hstep as [s h a rest Hl Hwait]. destruct Hinv as [Hs Hst Hw]. split; cbn [log left started].
  - intros k. rewrite calls_app, calls_one. destruct (decide (k = h)) as [->|Hne].
    + rewrite decide_True by done. rewrite <-app_assoc. cbn. by rewrite <-Hl.
    + rewrite decide_False by done. rewrite app_nil_r. apply Hs.
  - rewrite orb_true_iff, bool_decide_eq_true, elem_of_app, list_elem_of_singleton, Hst. split; intros [H|H]; [by left| |by left|right; congruence].
    subst a. right. assert (h = 0%nat) as ->; [|done].
    apply (main_self h SetStarted); [|done]. rewrite <-Hs, Hl. set_solver.
  - intros l1 k l2 E. destruct l2 as [|x l2 _] using rev_ind.
    + apply app_inj_tail in E as [<- [= -> ->]]. by apply Hst, Hwait.
    + rewrite app_comm_cons, app_assoc in E. apply app_inj_tail in E as [E _]. by eapply Hw.
Qed.

Lemma inv_reachable s : rtc step boot s -> inv s.
Proof. intros H. refine (rtc_ind_r (fun t => inv t) boot inv_boot _ s H). intros x y _ Hxy Hx. by eapply inv_step. Qed.

(** Everything hart 0 does before it sets [started]. *)
Definition others : list action := [WaitStarted; PrintHart; Kvminithart; Trapinithart; Plicinithart; Scheduler].
Lemma main_other h : h <> 0%nat -> main h = others.
Proof. intros H. unfold main. by rewrite decide_False. Qed.

Lemma prefix_at {A} (p q l : list A) a : p ++ a :: q = l -> l !! length p = Some a /\ p = take (length p) l.
Proof. intros <-. split; [by apply list_lookup_middle|by rewrite take_app_length]. Qed.

(** Within hart 0 the list has every call after those it needs. *)
Lemma needs_first p a q : p ++ a :: q = main 0 -> Forall (fun n => fst n = 0%nat /\ snd n ∈ p) (needs 0 a).
Proof.
  intros E. destruct (prefix_at _ _ _ _ E) as [Ha Hp]. rewrite Hp. clear E Hp. revert Ha. generalize (length p). intros i Ha.
  assert (Hi : (i < 18)%nat) by (apply lookup_lt_Some in Ha; exact Ha).
  do 18 (destruct i as [|i]; [injection Ha as <-; cbn [needs]; repeat constructor; cbn; set_solver|]). lia.
Qed.

(** The other harts need what was done before [started] was set, or what they
    did themselves. *)
Lemma needs_other h p a q : h <> 0%nat -> p ++ a :: q = main h ->
  a = WaitStarted \/ (WaitStarted ∈ p /\
    Forall (fun n => (fst n = 0%nat /\ snd n ∈ take 16 (main 0)) \/ (fst n = h /\ snd n ∈ p)) (needs h a)).
Proof.
  intros Hh E. rewrite (main_other h Hh) in E. destruct (prefix_at _ _ _ _ E) as [Ha Hp]. rewrite Hp. clear E Hp.
  revert Ha. generalize (length p). intros i Ha. assert (Hi : (i < 6)%nat) by (apply lookup_lt_Some in Ha; exact Ha).
  destruct i as [|i]; [left; by injection Ha as <-|right; split; [set_solver|]].
  do 5 (destruct i as [|i]; [injection Ha as <-; cbn [needs]; repeat constructor; cbn; set_solver|]). lia.
Qed.

Lemma calls_before l1 h a l2 s : inv s -> log s = l1 ++ (h, a) :: l2 -> exists q, calls_of h l1 ++ a :: q = main h.
Proof.
  intros [Hs _ _] E. rewrite <-(Hs h), E, calls_app. change ((h, a) :: l2) with ([(h, a)] ++ l2). rewrite calls_app, calls_one, decide_True by done.
  rewrite <-!app_assoc. cbn [app]. eauto.
Qed.

(** When hart 0 has set [started] it has made all its calls before. *)
Lemma started_done l1 l2 s : inv s -> log s = l1 ++ l2 -> (0%nat, SetStarted) ∈ l1 -> forall a, a ∈ take 16 (main 0) -> (0%nat, a) ∈ l1.
Proof.
  intros Hi E Hin a Ha. apply list_elem_of_split in Hin as (k1 & k2 & ->). rewrite <-app_assoc in E.
  destruct (calls_before _ _ _ _ s Hi E) as (q & Eq). apply prefix_at in Eq as [Hp1 Hp2].
  assert (Hl : length (calls_of 0 k1) = 16%nat).
  { revert Hp1. generalize (length (calls_of 0 k1)). intros i Hs. assert (Hi18 : (i < 18)%nat) by (apply lookup_lt_Some in Hs; exact Hs).
    do 18 (destruct i as [|i]; [done|]). lia. }
  apply elem_of_app. left. apply calls_in. by rewrite Hp2, Hl.
Qed.

(** C27: the harts start up in order: in every interleaving of any number of
    harts, whenever main() makes a call on some hart, every call it relies on
    was made before: no hart prints before the console and printf are set up,
    turns on paging before the kernel page table exists, takes traps before
    their set-up or schedules before the first process, the buffer cache and
    the disk are ready and the hart's own page table, trap vector and
    interrupts are set. *)
Theorem boot_order s l1 h a l2 :
  rtc step boot s -> log s = l1 ++ (h, a) :: l2 -> Forall (fun n => n ∈ l1) (needs h a).
Proof.
  intros Hr E. pose proof (inv_reachable s Hr) as Hi. destruct (calls_before _ _ _ _ s Hi E) as (q & Eq).
  destruct (decide (h = 0%nat)) as [->|Hh].
  - eapply list.Forall_impl; [apply (needs_first _ _ _ Eq)|]. intros [k b] [Hk Hb]. cbn in *. subst k. by apply calls_in.
  - destruct (needs_other h _ _ _ Hh Eq) as [->|[Hw Hf]]; [constructor|].
    assert (Hst : (0%nat, SetStarted) ∈ l1).
    { apply calls_in, list_elem_of_split in Hw as (k1 & k2 & ->). rewrite <-app_assoc in E. apply elem_of_app. left. by eapply (inv_wait s Hi). }
    eapply list.Forall_impl; [exact Hf|]. intros [k b] [[Hk Hb]|[Hk Hb]]; cbn in *; subst k; [by eapply started_done|by apply calls_in].
Qed.

(** Some hart can go on until every one is in scheduler(). *)
Lemma boot_progress s h : rtc step boot s -> left s h <> [] -> exists s', step s s'.
Proof.
  intros Hr Hh. pose proof (inv_reachable s Hr) as [Hs Hst Hw]. destruct (left s 0) as [|a rest] eqn:E0.
  - destruct (left s h) as [|b rest] eqn:Eh; [done|]. eexists. eapply (step_call s h b rest Eh). intros ->.
    apply Hst, calls_in. specialize (Hs 0%nat). rewrite E0, app_nil_r in Hs. rewrite Hs. cbn. set_solver.
  - eexists. eapply (step_call s 0 a rest E0). intros ->. exfalso. specialize (Hs 0%nat). rewrite E0 in Hs.
    assert (WaitStarted ∈ main 0) as Hin by (rewrite <-Hs; set_solver). cbn in Hin. set_solver.
Qed.
End Order.

(** Two harts: hart 1 goes on as soon as [started] is set. *)
Module BootDemo.
Import Main.

Fixpoint run_harts (hs : list nat) (s : state) : option state :=
  match hs with
  | [] => Some s
  | h :: hs =>
      match left s h with
      | [] => None
      | a :: rest =>
          if bool_decide (a = WaitStarted) && negb (started s) then None
          else run_harts hs (mkState (started s || bool_decide (a = SetStarted)) (fun k => if decide (k = h) then rest else left s k) (log s ++ [(h, a)]))
      end
  end.

Lemma run_harts_steps hs s s' : run_harts hs s = Some s' -> rtc step s s'.
Proof.
  revert s. induction hs as [|h hs IH]; intros s; cbn [run_harts]; [by intros [= ->]|].
  destruct (left s h) as [|a rest] eqn:E; [done|]. destruct (bool_decide (a = WaitStarted)) eqn:Ea; cbn [andb].
  - destruct (started s) eqn:Es; cbn [negb]; [|done]. intros H%IH. eapply rtc_l; [by apply (step_call s h a rest)|]. by rewrite Es.
  - intros H%IH. eapply rtc_l; [|exact H]. apply (step_call s h a rest E). intros ->. by rewrite bool_decide_eq_true_2 in Ea.
Qed.

Definition schedule : list nat := replicate 17 0%nat ++ [1; 1; 0; 1]%nat.

Lemma boot_order_witness :
  exists s, run_harts schedule boot = Some s /\ Forall (fun n => n ∈ take 20 (log s)) (needs 1 Kvminithart) /\ log s !! 20%nat = Some (1%nat, Kvminithart).
Proof.
  eexists. split; [vm_compute; reflexivity|]. split; [|reflexivity].
  eapply (boot_order _ _ 1 Kvminithart []); [apply (run_harts_steps schedule); vm_compute; reflexivity|reflexivity].
Defined.
End BootDemo.
