(* ===== verification/Sysfile.v ===== *)
(** * File system calls (kernel/sysfile.c)

    The handlers of sysfile.c, composed from the open-file table (File.v), the
    file system (Fs.v), the pipes (Pipe.v) and the argument fetchers
    (Syscall.v).  sys_exec is in Exec.v. *)

From S2P Require Import Prelude Spinlock Riscv Ring UserIO BufCache Log BlockStore Fs Pipe File Syscall.

(** begin_op() and end_op(). *)
Class TxOps (T : Type) := { tx_begin : M T unit; tx_end : M T unit }.

(** The routines of Log.v. *)
Definition log_tx {S} `{BufOps S} (me : Z) : TxOps (lstate S) := {|
  tx_begin := begin_op me;
  tx_end := end_op me
|}.

(** What sysfile.c uses of the process's memory and of kalloc.c. *)
Class UserPages (U : Type) := {
  up_kalloc : M U Z;
  up_kfree : Z -> M U unit;
  up_copyin : Z -> Z -> U -> option (list Z);
  up_copyinstr : Z -> Z -> U -> option (list Z)
}.

(** Below the file table: the file system with the process's memory in it,
    the pipes by the address of their page, and p->killed. *)
Record below (T U : Type) := mkBelow { b_fs : fstate T U; b_pipes : gmap Z pipe; b_killed : Z }.
Arguments mkBelow {T U} _ _ _.
Arguments b_fs {T U} _.
Arguments b_pipes {T U} _.
Arguments b_killed {T U} _.

(** A system call runs on the file table and the running process: its open
    files, its current directory, its size and its trapframe. *)
Record sys (T U : Type) := mkSys {
  y_ft : ftab (below T U); y_ofile : list Z; y_cwd : Z; y_sz : Z; y_args : list Z; y_a7 : Z
}.
Arguments mkSys {T U} _ _ _ _ _ _.
Arguments y_ft {T U} _.
Arguments y_ofile {T U} _.
Arguments y_cwd {T U} _.
Arguments y_sz {T U} _.
Arguments y_args {T U} _.
Arguments y_a7 {T U} _.

Definition O_RDONLY : Z := 0x000.
Definition O_WRONLY : Z := 0x001.
Definition O_RDWR : Z := 0x002.
Definition O_CREATE : Z := 0x200.
Definition O_TRUNC : Z := 0x400.

Section Below.
Context {T U : Type} `{LogOps T} `{TxOps T} `{UserIO U} `{UserPages U}.
Variables (me pid de_addr : Z) (kload : Z -> nat -> U -> list Z).

Definition b_fs_lens : lens (below T U) (fstate T U) := Lens b_fs (fun f b => mkBelow f (b_pipes b) (b_killed b)).
Definition b_user_lens : lens (below T U) U :=
  Lens (fun b => fu (b_fs b))
    (fun u b => mkBelow (mkF (f_sb (b_fs b)) (it_lock (b_fs b)) (inodes (b_fs b)) (ft (b_fs b)) u) (b_pipes b) (b_killed b)).
Definition no_pipe : pipe := pipe_init (replicate (Z.to_nat PIPESIZE) 0).
Definition pipe_lens (pi : Z) : lens (below T U) (penv U) :=
  Lens (fun b => mkPenv (default no_pipe (b_pipes b !! pi)) (b_killed b) (fu (b_fs b)))
    (fun p b => put b_user_lens (um p) (mkBelow (b_fs b) (<[pi := pp p]> (b_pipes b)) (b_killed b))).
Definition fs {A} (m : M (fstate T U) A) : M (below T U) A := zoom b_fs_lens m.
Definition tx (m : M T unit) : M (below T U) unit := fs (blk m).

(** The devices of devsw[]. *)
Variables devread devwrite : Z -> option (Z -> Z -> M (below T U) Z).

#[global] Instance below_env : FileEnv (below T U) := {
  fe_pipeclose pi w :=
    let! dead := zoom (pipe_lens pi) (pipeclose me w) in
    when dead (zoom b_user_lens (up_kfree pi));
  fe_piperead pi addr n :=
    let! r := zoom (pipe_lens pi) (piperead me addr n) in
    match r with inr r => ret r | inl _ => sleep_on (pi + NREAD) end;
  fe_pipewrite pi addr n :=
    let! r := zoom (pipe_lens pi) (pipewrite me addr n 0) in
    match r with inr r => ret r | inl _ => sleep_on (pi + NWRITE) end;
  fe_kalloc := zoom b_user_lens up_kalloc;
  fe_kfree pi := zoom b_user_lens (up_kfree pi);
  (* kalloc() has filled the page with 5s *)
  fe_pipe_init pi := modify (fun b => mkBelow (b_fs b) (<[pi := pipe_init (replicate (Z.to_nat PIPESIZE) 5)]> (b_pipes b)) (b_killed b));
  fe_begin_op := tx tx_begin;
  fe_end_op := tx tx_end;
  fe_iput i := fs (iput me pid i);
  fe_ilock i := fs (ilock me pid i);
  fe_iunlock i := fs (iunlock me pid i);
  fe_stati i := fs (geti i (fun ip => mkStat (i_dev ip) (i_inum ip) (i_type ip) (i_nlink ip) (i_size ip)));
  fe_readi i addr off n := fs (readi i true addr off n);
  fe_writei i addr off n := fs (writei i true addr off n);
  fe_devread := devread;
  fe_devwrite := devwrite;
  fe_copyout addr bs :=
    let! r := zoom b_user_lens (gets (either_copyout true addr bs)) in
    zoom b_user_lens (modify (fun _ => snd r)) ;;
    ret (if fst r then 0 else -1)
}.

Notation Y := (sys T U).

#[global] Instance sys_cur : CurProc Y := {
  cur_arg n s := default 0 (y_args s !! n);
  cur_a7 := y_a7;
  cur_set_a0 v := modify (fun s => mkSys (y_ft s) (y_ofile s) (y_cwd s) (y_sz s) (<[0%nat := v]> (y_args s)) (y_a7 s));
  cur_sz := y_sz;
  cur_copyin a n s := up_copyin a n (fu (b_fs (ft_env (y_ft s))));
  cur_copyinstr a n s := up_copyinstr a n (fu (b_fs (ft_env (y_ft s))))
}.

Definition y_ft_lens : lens Y (ftab (below T U)) :=
  Lens y_ft (fun t s => mkSys t (y_ofile s) (y_cwd s) (y_sz s) (y_args s) (y_a7 s)).
Definition ftb {A} (m : M (ftab (below T U)) A) : M Y A := zoom y_ft_lens m.
Definition ifs {A} (m : M (fstate T U) A) : M Y A := ftb (fenv (fs m)).
Definition begin_op' : M Y unit := ftb (fenv fe_begin_op).
Definition end_op' : M Y unit := ftb (fenv fe_end_op).
Definition set_ofile (fd f : Z) : M Y unit :=
  modify (fun s => mkSys (y_ft s) (<[Z.to_nat fd := f]> (y_ofile s)) (y_cwd s) (y_sz s) (y_args s) (y_a7 s)).

(** argfd(n, &fd, &f): the descriptor and its file, or None for -1. *)
Definition argfd (n : Z) : M Y (option (Z * Z)) :=
  let! fd := argint n in
  if (fd <? 0) || (NOFILE <=? fd) then ret None
  else
    let! f := gets (fun s => default 0 (y_ofile s !! Z.to_nat fd)) in
    if f =? 0 then ret None else ret (Some (fd, f)).

Definition fdalloc_body (f fd : Z) : M Y (Z + Z) :=
  if fd <? NOFILE then
    let! g := gets (fun s => default 0 (y_ofile s !! Z.to_nat fd)) in
    if g =? 0 then set_ofile fd f ;; ret (inr fd) else ret (inl (fd + 1))
  else ret (inr (-1)).
Definition fdalloc (f : Z) : M Y Z := loop (Z.to_nat NOFILE + 1) (fdalloc_body f) 0.

Definition sys_dup : M Y Z :=
  let! r := argfd 0 in
  match r with
  | None => ret (-1)
  | Some (_, f) =>
      let! fd := fdalloc f in
      if fd <? 0 then ret (-1)
      else ftb (filedup me f) ;; ret fd
  end.

Definition sys_read : M Y Z :=
  let! p := argaddr 1 in
  let! n := argint 2 in
  let! r := argfd 0 in
  match r with
  | None => ret (-1)
  | Some (_, f) => ftb (fileread f p n)
  end.

Definition sys_write : M Y Z :=
  let! p := argaddr 1 in
  let! n := argint 2 in
  let! r := argfd 0 in
  match r with
  | None => ret (-1)
  | Some (_, f) => ftb (filewrite f p n)
  end.

Definition sys_close : M Y Z :=
  let! r := argfd 0 in
  match r with
  | None => ret (-1)
  | Some (fd, f) =>
      set_ofile fd 0 ;;
      ftb (fileclose me f) ;;
      ret 0
  end.

Variable st_pad : list Z.
Definition sys_fstat : M Y Z :=
  let! st := argaddr 1 in
  let! r := argfd 0 in
  match r with
  | None => ret (-1)
  | Some (_, f) => ftb (filestat st_pad f st)
  end.

(** The uninitialised [char name[DIRSIZ]] of the callers below. *)
Variable name0 : list Z.

Definition namei' (path : list Z) : M Y (option Z) :=
  let! cwd := gets y_cwd in ifs (namei me pid de_addr kload cwd path).
Definition nameiparent' (path : list Z) : M Y (option (Z * list Z)) :=
  let! cwd := gets y_cwd in ifs (nameiparent me pid de_addr kload cwd path name0).
Definition igets {A} (i : Z) (f : inode -> A) : M Y A := ifs (geti i f).
Definition add_nlink (d : Z) (i : Z) : M Y unit :=
  ifs (seti i (fun ip => set_inlink (i16 (i_nlink ip + d)) ip)).

Definition sys_link : M Y Z :=
  let! old := argstr 0 MAXPATH in
  match old with
  | None => ret (-1)
  | Some old =>
      let! new := argstr 1 MAXPATH in
      match new with
      | None => ret (-1)
      | Some new =>
          begin_op' ;;
          let! r := namei' old in
          match r with
          | None => end_op' ;; ret (-1)
          | Some ip =>
              ifs (ilock me pid ip) ;;
              let! ty := igets ip i_type in
              if ty =? T_DIR then
                ifs (iunlockput me pid ip) ;; end_op' ;; ret (-1)
              else
                let bad :=
                  ifs (ilock me pid ip) ;;
                  add_nlink (-1) ip ;;
                  ifs (iupdate ip) ;;
                  ifs (iunlockput me pid ip) ;;
                  end_op' ;;
                  ret (-1) in
                add_nlink 1 ip ;;
                ifs (iupdate ip) ;;
                ifs (iunlock me pid ip) ;;
                let! r := nameiparent' new in
                match r with
                | None => bad
                | Some (dp, name) =>
                    ifs (ilock me pid dp) ;;
                    let! ddev := igets dp i_dev in
                    let! idev := igets ip i_dev in
                    let! inum := igets ip i_inum in
                    let! r := (if negb (ddev =? idev) then ret (-1)
                               else ifs (dirlink me pid de_addr kload dp name inum)) in
                    if r <? 0 then ifs (iunlockput me pid dp) ;; bad
                    else
                      ifs (iunlockput me pid dp) ;;
                      ifs (iput me pid ip) ;;
                      end_op' ;;
                      ret 0
                end
          end
      end
  end.

(** isdirempty(): true for 1. *)
Definition isdirempty_body (dp off : Z) : M (fstate T U) (Z + bool) :=
  let! size := geti dp i_size in
  if off <? size then
    let! r := readi dp false de_addr off SIZEOF_DE in
    if negb (r =? SIZEOF_DE) then panic "isdirempty: readi"
    else
      let! de := gets (fun s => read_de de_addr kload (fu s)) in
      if negb (de_inum de =? 0) then ret (inr false) else ret (inl (off + SIZEOF_DE))
  else ret (inr true).
Definition isdirempty (dp : Z) : M (fstate T U) bool :=
  let! size := geti dp i_size in
  loop (Z.to_nat (size / SIZEOF_DE) + 2) (isdirempty_body dp) (2 * SIZEOF_DE).

(** "." and ".." *)
Definition dot : list Z := [46; 0].
Definition dotdot : list Z := [46; 46; 0].

Definition sys_unlink : M Y Z :=
  let! path := argstr 0 MAXPATH in
  match path with
  | None => ret (-1)
  | Some path =>
      begin_op' ;;
      let! r := nameiparent' path in
      match r with
      | None => end_op' ;; ret (-1)
      | Some (dp, name) =>
          let bad := ifs (iunlockput me pid dp) ;; end_op' ;; ret (-1) in
          ifs (ilock me pid dp) ;;
          if (namecmp name dot =? 0) || (namecmp name dotdot =? 0) then bad
          else
            let! r := ifs (dirlookup me de_addr kload dp name) in
            match r with
            | None => bad
            | Some (ip, off) =>
                ifs (ilock me pid ip) ;;
                let! nl := igets ip i_nlink in
                if nl <? 1 then panic "unlink: nlink < 1"
                else
                  let! ty := igets ip i_type in
                  let! busy := (if ty =? T_DIR then let! e := ifs (isdirempty ip) in ret (negb e) else ret false) in
                  if busy then ifs (iunlockput me pid ip) ;; bad
                  else
                    let! w := ifs (gets (fun s => either_copyout false de_addr (replicate (Z.to_nat SIZEOF_DE) 0) (fu s))) in
                    ifs (set_fu (snd w)) ;;
                    let! r := ifs (writei dp false de_addr off SIZEOF_DE) in
                    if negb (r =? SIZEOF_DE) then panic "unlink: writei"
                    else
                      (if ty =? T_DIR then add_nlink (-1) dp ;; ifs (iupdate dp) else ret tt) ;;
                      ifs (iunlockput me pid dp) ;;
                      add_nlink (-1) ip ;;
                      ifs (iupdate ip) ;;
                      ifs (iunlockput me pid ip) ;;
                      end_op' ;;
                      ret 0
            end
      end
  end.

(** create(): the inode, locked; None for a null result. *)
Definition create (path : list Z) (type major minor : Z) : M Y (option Z) :=
  let! r := nameiparent' path in
  match r with
  | None => ret None
  | Some (dp, name) =>
      ifs (ilock me pid dp) ;;
      let! r := ifs (dirlookup me de_addr kload dp name) in
      match r with
      | Some (ip, _) =>
          ifs (iunlockput me pid dp) ;;
          ifs (ilock me pid ip) ;;
          let! ty := igets ip i_type in
          if (type =? T_FILE) && ((ty =? T_FILE) || (ty =? T_DEVICE)) then ret (Some ip)
          else ifs (iunlockput me pid ip) ;; ret None
      | None =>
          let! dev := igets dp i_dev in
          let! r := ifs (ialloc me dev type) in
          match r with
          | None => ifs (iunlockput me pid dp) ;; ret None
          | Some ip =>
              let fail :=
                ifs (seti ip (set_inlink 0)) ;;
                ifs (iupdate ip) ;;
                ifs (iunlockput me pid ip) ;;
                ifs (iunlockput me pid dp) ;;
                ret None in
              ifs (ilock me pid ip) ;;
              ifs (seti ip (fun q => set_idi (mkDinode (i_type q) (i16 major) (i16 minor) 1 (i_size q) (i_addrs q)) q)) ;;
              ifs (iupdate ip) ;;
              let! inum := igets ip i_inum in
              let! dinum := igets dp i_inum in
              let! r1 := (if type =? T_DIR then
                            let! a := ifs (dirlink me pid de_addr kload ip dot inum) in
                            if a <? 0 then ret (-1) else ifs (dirlink me pid de_addr kload ip dotdot dinum)
                          else ret 0) in
              if r1 <? 0 then fail
              else
                let! r2 := ifs (dirlink me pid de_addr kload dp name inum) in
                if r2 <? 0 then fail
                else
                  (if type =? T_DIR then add_nlink 1 dp ;; ifs (iupdate dp) else ret tt) ;;
                  ifs (iunlockput me pid dp) ;;
                  ret (Some ip)
          end
      end
  end.

(** The first part of sys_open(): the inode, locked. *)
Definition open_inode (path : list Z) (omode : Z) : M Y (option Z) :=
  if negb (Z.land omode O_CREATE =? 0) then create path T_FILE 0 0
  else
    let! r := namei' path in
    match r with
    | None => ret None
    | Some ip =>
        ifs (ilock me pid ip) ;;
        let! ty := igets ip i_type in
        if (ty =? T_DIR) && negb (omode =? O_RDONLY) then ifs (iunlockput me pid ip) ;; ret None
        else ret (Some ip)
    end.

Definition sys_open : M Y Z :=
  let! omode := argint 1 in
  let! path := argstr 0 MAXPATH in
  match path with
  | None => ret (-1)
  | Some path =>
      begin_op' ;;
      let! r := open_inode path omode in
      match r with
      | None => end_op' ;; ret (-1)
      | Some ip =>
          let! q := igets ip id in
          let major := di_major (i_di q) in
          if (i_type q =? T_DEVICE) && ((major <? 0) || (NDEV <=? major)) then
            ifs (iunlockput me pid ip) ;; end_op' ;; ret (-1)
          else
            let! f := ftb (filealloc me) in
            let! fd := (if f =? 0 then ret (-1) else fdalloc f) in
            if fd <? 0 then
              (if negb (f =? 0) then ftb (fileclose me f) else ret tt) ;;
              ifs (iunlockput me pid ip) ;; end_op' ;; ret (-1)
            else
              (if i_type q =? T_DEVICE then
                 ftb (setf f (set_ftype FD_DEVICE)) ;; ftb (setf f (set_fmajor major))
               else
                 ftb (setf f (set_ftype FD_INODE)) ;; ftb (setf f (set_foff 0))) ;;
              ftb (setf f (set_fip ip)) ;;
              ftb (setf f (set_freadable (if Z.land omode O_WRONLY =? 0 then 1 else 0))) ;;
              ftb (setf f (set_fwritable (if (Z.land omode O_WRONLY =? 0) && (Z.land omode O_RDWR =? 0) then 0 else 1))) ;;
              (if negb (Z.land omode O_TRUNC =? 0) && (i_type q =? T_FILE) then ifs (itrunc ip) else ret tt) ;;
              ifs (iunlock me pid ip) ;;
              end_op' ;;
              ret fd
      end
  end.

Definition sys_mkdir : M Y Z :=
  begin_op' ;;
  let! path := argstr 0 MAXPATH in
  let! r := (match path with None => ret None | Some path => create path T_DIR 0 0 end) in
  match r with
  | None => end_op' ;; ret (-1)
  | Some ip => ifs (iunlockput me pid ip) ;; end_op' ;; ret 0
  end.

Definition sys_mknod : M Y Z :=
  begin_op' ;;
  let! major := argint 1 in
  let! minor := argint 2 in
  let! path := argstr 0 MAXPATH in
  let! r := (match path with None => ret None | Some path => create path T_DEVICE (i16 major) (i16 minor) end) in
  match r with
  | None => end_op' ;; ret (-1)
  | Some ip => ifs (iunlockput me pid ip) ;; end_op' ;; ret 0
  end.

Definition sys_chdir : M Y Z :=
  begin_op' ;;
  let! path := argstr 0 MAXPATH in
  let! r := (match path with None => ret None | Some path => namei' path end) in
  match r with
  | None => end_op' ;; ret (-1)
  | Some ip =>
      ifs (ilock me pid ip) ;;
      let! ty := igets ip i_type in
      if negb (ty =? T_DIR) then ifs (iunlockput me pid ip) ;; end_op' ;; ret (-1)
      else
        ifs (iunlock me pid ip) ;;
        let! cwd := gets y_cwd in
        ifs (iput me pid cwd) ;;
        end_op' ;;
        modify (fun s => mkSys (y_ft s) (y_ofile s) ip (y_sz s) (y_args s) (y_a7 s)) ;;
        ret 0
  end.

Definition sys_pipe : M Y Z :=
  let! fdarray := argaddr 0 in
  let! r := ftb (pipealloc me) in
  match r with
  | None => ret (-1)
  | Some (rf, wf) =>
      let! fd0 := fdalloc rf in
      let! fd1 := (if fd0 <? 0 then ret (-1) else fdalloc wf) in
      let close := ftb (fileclose me rf) ;; ftb (fileclose me wf) ;; ret (-1) in
      if fd1 <? 0 then
        (if 0 <=? fd0 then set_ofile fd0 0 else ret tt) ;; close
      else
        let! c0 := ftb (fenv (fe_copyout fdarray (le_bytes 4 fd0))) in
        let! c1 := (if c0 <? 0 then ret (-1) else ftb (fenv (fe_copyout (u64 (fdarray + 4)) (le_bytes 4 fd1)))) in
        if c1 <? 0 then
          set_ofile fd0 0 ;; set_ofile fd1 0 ;; close
        else ret 0
  end.

End Below.
