(* ===== verification/Exec.v ===== *)
(** * exec (kernel/exec.c, and sys_exec of kernel/sysfile.c)

    Replacing the memory of the running process by a program read from an
    inode.  Page tables are reached through [ExecVm], whose operations are
    those of Vm.v. *)

From S2P Require Import Prelude Spinlock Mem Riscv UserIO BufCache Log BlockStore Fs File Syscall Sysfile.
From S2P Require Proc.

(** The routines of vm.c that exec() calls on page tables in [U]. *)
Class ExecVm (U : Type) := {
  xv_proc_pagetable : M U Z;
  xv_freepagetable : Z -> Z -> M U unit;
  xv_uvmalloc : Z -> Z -> Z -> Z -> M U Z;
  xv_uvmclear : Z -> Z -> M U unit;
  xv_copyout : Z -> Z -> list Z -> M U Z;
  xv_walkaddr : Z -> Z -> M U Z;
  xv_vmprint : Z -> M U unit
}.

Definition ELF_MAGIC : Z := 0x464C457F.
Definition ELF_PROG_LOAD : Z := 1.
Definition get_u64 (d : list Z) (off : nat) : Z := le_val (take 8 (drop off d)).

(** struct elfhdr and struct proghdr: the fields exec() uses. *)
Record elfhdr := mkElf { e_magic : Z; e_entry : Z; e_phoff : Z; e_phnum : Z }.
Definition SIZEOF_ELF : Z := 64.
Definition get_elf (d : list Z) : elfhdr := mkElf (get_u32 d 0) (get_u64 d 24) (get_u64 d 32) (get_u16 d 56).
Record proghdr := mkPh { ph_type : Z; ph_flags : Z; ph_off : Z; ph_vaddr : Z; ph_filesz : Z; ph_memsz : Z }.
Definition SIZEOF_PH : Z := 56.
Definition get_ph (d : list Z) : proghdr :=
  mkPh (get_u32 d 0) (get_u32 d 4) (get_u64 d 8) (get_u64 d 16) (get_u64 d 32) (get_u64 d 40).

Definition flags2perm (flags : Z) : Z :=
  let perm := if negb (Z.land flags 1 =? 0) then PTE_X else 0 in
  if negb (Z.land flags 2 =? 0) then Z.lor perm PTE_W else perm.

(** The process exec() works on, around the state of a system call. *)
Record xproc (T U : Type) := mkX {
  x_sys : sys T U; x_pid : Z; x_name : list Z; x_pagetable : Z; x_epc : Z; x_sp : Z
}.
Arguments mkX {T U} _ _ _ _ _ _.
Arguments x_sys {T U} _.
Arguments x_pid {T U} _.
Arguments x_name {T U} _.
Arguments x_pagetable {T U} _.
Arguments x_epc {T U} _.
Arguments x_sp {T U} _.

(** The last element of a path: after its last slash. *)
Fixpoint path_last (s last : list Z) : list Z :=
  match s with
  | [] => last
  | c :: s => path_last s (if c =? SLASH then s else last)
  end.

Section Exec.
Context {T U : Type} `{LogOps T} `{TxOps T} `{UserIO U} `{UserPages U} `{ExecVm U}.
Variables (me pid de_addr : Z) (kload : Z -> nat -> U -> list Z).
Variables devread devwrite : Z -> option (Z -> Z -> M (below T U) Z).
(** Kernel addresses of the locals elf and ph. *)
Variables elf_addr ph_addr : Z.

Notation X := (xproc T U).
Notation env := (@below_env T U _ _ _ _ me pid devread devwrite).

Definition x_sys_lens : lens X (sys T U) :=
  Lens x_sys (fun y s => mkX y (x_pid s) (x_name s) (x_pagetable s) (x_epc s) (x_sp s)).
Definition sy {A} (m : M (sys T U) A) : M X A := zoom x_sys_lens m.
Definition xfs {A} (m : M (fstate T U) A) : M X A := sy (ifs m).
Definition usr {A} (m : M U A) : M X A := sy (ftb (fenv (zoom b_user_lens m))).
Definition kbytes (addr n : Z) : M X (list Z) := usr (gets (kload addr (Z.to_nat n))).
Definition x_begin_op : M X unit := sy (ftb (fenv (fe_begin_op (FileEnv := env)))).
Definition x_end_op : M X unit := sy (ftb (fenv (fe_end_op (FileEnv := env)))).

(** One iteration of loadseg(); [inr] with its result. *)
Definition loadseg_body (pagetable va ip offset sz i : Z) : M X (Z + Z) :=
  if i <? sz then
    let! pa := usr (xv_walkaddr pagetable (u64 (va + i))) in
    if pa =? 0 then panic "loadseg: address should exist"
    else
      let n := if sz - i <? PGSIZE then sz - i else PGSIZE in
      let! r := xfs (readi ip false pa (u32 (offset + i)) n) in
      if negb (u32 r =? n) then ret (inr (-1)) else ret (inl (u32 (i + PGSIZE)))
  else ret (inr 0).
Definition loadseg (pagetable va ip offset sz : Z) : M X Z :=
  loop (Z.to_nat (sz / PGSIZE) + 2) (loadseg_body pagetable va ip offset sz) 0.

(** One program header: the variables are i, off and sz; the loop is left
    with whether all went well, and sz. *)
Definition exec_load_body (pagetable ip phnum : Z) (v : Z * Z * Z) : M X (Z * Z * Z + bool * Z) :=
  let '(i, off, sz) := v in
  if i <? phnum then
    let next sz := ret (inl (i + 1, i32 (off + SIZEOF_PH), sz)) in
    let bad sz := ret (inr (false, sz)) in
    let! r := xfs (readi ip false ph_addr (u32 off) SIZEOF_PH) in
    if negb (r =? SIZEOF_PH) then bad sz
    else
      let! bs := kbytes ph_addr SIZEOF_PH in
      let ph := get_ph bs in
      if negb (ph_type ph =? ELF_PROG_LOAD) then next sz
      else if ph_memsz ph <? ph_filesz ph then bad sz
      else if u64 (ph_vaddr ph + ph_memsz ph) <? ph_vaddr ph then bad sz
      else if negb (ph_vaddr ph mod PGSIZE =? 0) then bad sz
      else
        let! sz1 := usr (xv_uvmalloc pagetable sz (u64 (ph_vaddr ph + ph_memsz ph)) (flags2perm (ph_flags ph))) in
        if sz1 =? 0 then bad sz
        else
          let! l := loadseg pagetable (ph_vaddr ph) ip (u32 (ph_off ph)) (u32 (ph_filesz ph)) in
          if l <? 0 then bad sz1 else next sz1
  else ret (inr (true, sz)).

(** Pushing the argument strings: argc, sp and ustack; None for [goto bad]. *)
Fixpoint exec_push (argv : list (list Z)) (pagetable stackbase argc sp : Z) (ustack : list Z)
  : M X (option (Z * Z * list Z)) :=
  match argv with
  | [] => ret (Some (argc, sp, ustack))
  | a :: argv =>
      if MAXARG <=? argc then ret None
      else
        let sp := u64 (sp - (Z.of_nat (length a) + 1)) in
        let sp := sp - sp mod 16 in
        if sp <? stackbase then ret None
        else
          let! c := usr (xv_copyout pagetable sp (a ++ [0])) in
          if c <? 0 then ret None
          else exec_push argv pagetable stackbase (argc + 1) sp (ustack ++ [sp])
  end.

(** From the stack pages to the commit; None for [goto bad], with the size
    the page table then has. *)
Definition exec_stack (path : list Z) (argv : list (list Z)) (pagetable sz entry : Z) : M X (Z + Z) :=
  let! oldsz := gets (fun s => y_sz (x_sys s)) in
  let sz := PGROUNDUP sz in
  let! sz1 := usr (xv_uvmalloc pagetable sz (u64 (sz + 2 * PGSIZE)) PTE_W) in
  if sz1 =? 0 then ret (inl sz)
  else
    let sz := sz1 in
    usr (xv_uvmclear pagetable (sz - 2 * PGSIZE)) ;;
    let stackbase := sz - PGSIZE in
    let! r := exec_push argv pagetable stackbase 0 sz [] in
    match r with
    | None => ret (inl sz)
    | Some (argc, sp, ustack) =>
        let sp := u64 (sp - (argc + 1) * 8) in
        let sp := sp - sp mod 16 in
        if sp <? stackbase then ret (inl sz)
        else
          let! c := usr (xv_copyout pagetable sp (concat (map (le_bytes 8) (ustack ++ [0])))) in
          if c <? 0 then ret (inl sz)
          else
            sy (modify (fun y => mkSys (y_ft y) (y_ofile y) (y_cwd y) (y_sz y) (<[1%nat := sp]> (y_args y)) (y_a7 y))) ;;
            modify (fun s => mkX (x_sys s) (x_pid s) (Proc.safestrcpy (x_name s) (path_last path path) 16) (x_pagetable s) (x_epc s) (x_sp s)) ;;
            let! oldpagetable := gets x_pagetable in
            modify (fun s => mkX (x_sys s) (x_pid s) (x_name s) pagetable (x_epc s) (x_sp s)) ;;
            sy (modify (fun y => mkSys (y_ft y) (y_ofile y) (y_cwd y) sz (y_args y) (y_a7 y))) ;;
            modify (fun s => mkX (x_sys s) (x_pid s) (x_name s) (x_pagetable s) entry sp) ;;
            usr (xv_freepagetable oldpagetable oldsz) ;;
            let! p := gets x_pid in
            when (p =? 1) (usr (xv_vmprint pagetable)) ;;
            ret (inr argc)
    end.

Definition exec (path : list Z) (argv : list (list Z)) : M X Z :=
  x_begin_op ;;
  let! r := sy (namei' me pid de_addr kload path) in
  match r with
  | None => x_end_op ;; ret (-1)
  | Some ip =>
      let put_ip := xfs (iunlockput me pid ip) ;; x_end_op in
      xfs (ilock me pid ip) ;;
      let! n := xfs (readi ip false elf_addr 0 SIZEOF_ELF) in
      if negb (n =? SIZEOF_ELF) then put_ip ;; ret (-1)
      else
        let! bs := kbytes elf_addr SIZEOF_ELF in
        let elf := get_elf bs in
        if negb (e_magic elf =? ELF_MAGIC) then put_ip ;; ret (-1)
        else
          let! pagetable := usr xv_proc_pagetable in
          if pagetable =? 0 then put_ip ;; ret (-1)
          else
            let! (ok, sz) := loop (Z.to_nat (e_phnum elf) + 1) (exec_load_body pagetable ip (e_phnum elf)) (0, i32 (e_phoff elf), 0) in
            if negb ok then
              usr (xv_freepagetable pagetable sz) ;; put_ip ;; ret (-1)
            else
              put_ip ;;
              let! r := exec_stack path argv pagetable sz (e_entry elf) in
              match r with
              | inl sz => usr (xv_freepagetable pagetable sz) ;; ret (-1)
              | inr argc => ret argc
              end
  end.

(** ** sys_exec *)

(** kfree() of the pages of argv[]. *)
Fixpoint free_pages (pages : list Z) : M X unit :=
  match pages with
  | [] => ret tt
  | p :: pages => usr (up_kfree p) ;; free_pages pages
  end.

(** The loop that copies argv: [args] are the pages and strings so far;
    [inr (inl pages)] for [goto bad]. *)
Definition sys_exec_body (uargv : Z) (args : list (Z * list Z))
  : M X (list (Z * list Z) + (list Z + list (Z * list Z))) :=
  let i := Z.of_nat (length args) in
  let bad pages := ret (inr (inl pages)) in
  if MAXARG <=? i then bad (map fst args)
  else
    let! r := sy (fetchaddr (u64 (uargv + 8 * i))) in
    match r with
    | None => bad (map fst args)
    | Some uarg =>
        if uarg =? 0 then ret (inr (inr args))
        else
          let! page := usr up_kalloc in
          if page =? 0 then bad (map fst args)
          else
            let! s := sy (fetchstr uarg PGSIZE) in
            match s with
            | None => bad (map fst args ++ [page])
            | Some s => ret (inl (args ++ [(page, s)]))
            end
    end.

Definition sys_exec : M X Z :=
  let! uargv := sy (argaddr 1) in
  let! path := sy (argstr 0 MAXPATH) in
  match path with
  | None => ret (-1)
  | Some path =>
      let! r := loop (Z.to_nat MAXARG + 1) (sys_exec_body uargv) [] in
      match r with
      | inl pages => free_pages pages ;; ret (-1)
      | inr args =>
          let! res := exec path (map snd args) in
          free_pages (map fst args) ;;
          ret res
      end
  end.

End Exec.
