(* ===== verification/Sh.v ===== *)
(** * The shell (user/sh.c): commands, parser, runner

    The parser works on the line in [buf], a NUL-terminated array; a pointer
    into it is an offset, and [es] is the offset of the NUL.  panic() ends
    the process, so a parse either yields a command or an error message.  In
    parseexec() the node made by execcmd() is still filled in after
    parseredirs() has wrapped it: the model keeps the arguments and the
    redirections apart until the node is complete.  malloc() is taken to
    succeed, as sh.c takes it to. *)

From S2P Require Import Prelude.
From S2P Require Import Sysfile.

(** The commands; [A] is what stands for a string: a pair of pointers while
    parsing, the string itself once it is resolved. *)
Inductive cmd (A : Type) :=
| EXEC (argv : list A)
| REDIR (c : cmd A) (file : A) (mode fd : Z)
| PIPE (left right : cmd A)
| LIST (left right : cmd A)
| BACK (c : cmd A).
Arguments EXEC {A} _.
Arguments REDIR {A} _ _ _ _.
Arguments PIPE {A} _ _.
Arguments LIST {A} _ _.
Arguments BACK {A} _.

Definition MAXARGS : Z := 10.

(** Characters. *)
Definition ch_lt : Z := 60.
Definition ch_gt : Z := 62.
Definition ch_bar : Z := 124.
Definition ch_amp : Z := 38.
Definition ch_semi : Z := 59.
Definition ch_lp : Z := 40.
Definition ch_rp : Z := 41.
Definition ch_plus : Z := 43.
Definition ch_a : Z := 97.

Definition whitespace : list Z := [32; 9; 13; 10; 11].
Definition symbols : list Z := [ch_lt; ch_bar; ch_gt; ch_amp; ch_semi; ch_lp; ch_rp].

(** strchr(set, c) as a truth value; it does not find the NUL. *)
Definition strchr (set : list Z) (c : Z) : bool := existsb (Z.eqb c) set.

(** A parse: a result and the new value of *ps; or the message of panic(),
    with the leftovers that parsecmd() prints before it; or out of fuel. *)
Inductive parse (A : Type) := POk (a : A) (ps : nat) | PErr (leftovers : option (list Z)) (msg : string) | PFuel.
Arguments POk {A} _ _.
Arguments PErr {A} _ _.
Arguments PFuel {A}.
Definition pbind {A B} (p : parse A) (k : A -> nat -> parse B) : parse B :=
  match p with POk a s => k a s | PErr l e => PErr l e | PFuel => PFuel end.
Notation "'let?' ( x , s ) := p 'in' k" := (pbind p (fun x s => k))
  (at level 10, x pattern, s name, p at level 200, k at level 200) : kernel_scope.

Section Parser.
Variable buf : list Z.

Definition es : nat := length buf.
Definition chr (s : nat) : Z := default 0 (buf !! s).

(** [while(s < es && strchr(whitespace, ch)) s++;] and the like: the first
    offset from [s] at which [stop] holds, at most [es]. *)
Fixpoint run_from (stop : Z -> bool) (l : list Z) (s : nat) : nat :=
  match l with
  | [] => s
  | c :: l => if stop c then s else run_from stop l (S s)
  end.
Definition skip (stop : Z -> bool) (s : nat) : nat := run_from stop (drop s buf) s.
Definition skip_ws : nat -> nat := skip (fun c => negb (strchr whitespace c)).
Definition skip_word : nat -> nat := skip (fun c => strchr whitespace c || strchr symbols c).

(** gettoken(): the token, *q, *eq and *ps. *)
Definition gettoken (ps : nat) : Z * nat * nat * nat :=
  let s := skip_ws ps in
  let q := s in
  let c := chr s in
  let '(tok, s) :=
    if c =? 0 then (c, s)
    else if (c =? ch_bar) || (c =? ch_lp) || (c =? ch_rp) || (c =? ch_semi) || (c =? ch_amp) || (c =? ch_lt)
    then (c, S s)
    else if c =? ch_gt then
      if chr (S s) =? ch_gt then (ch_plus, S (S s)) else (c, S s)
    else (ch_a, skip_word s) in
  (tok, q, s, skip_ws s).

(** peek(): its truth value and *ps. *)
Definition peek (ps : nat) (toks : list Z) : bool * nat :=
  let s := skip_ws ps in
  (negb (chr s =? 0) && strchr toks (chr s), s).

Definition ptr : Type := nat * nat.
Definition redir : Type := ptr * Z * Z.
(** redircmd(), for each redirection in turn. *)
Definition add_redirs (c : cmd ptr) (rs : list redir) : cmd ptr :=
  fold_left (fun c r => let '(f, mode, fd) := r in REDIR c f mode fd) rs c.

(** parseredirs(): the redirections it wraps around its argument. *)
Fixpoint parseredirs (fuel : nat) (ps : nat) : parse (list redir) :=
  match fuel with
  | O => PFuel
  | S fuel =>
      let '(b, ps) := peek ps [ch_lt; ch_gt] in
      if b then
        let '(tok, _, _, ps) := gettoken ps in
        let '(tok2, q, eq, ps) := gettoken ps in
        if negb (tok2 =? ch_a) then PErr None "missing file for redirection"
        else
          let r := if tok =? ch_lt then [((q, eq), O_RDONLY, 0)]
                   else if tok =? ch_gt then [((q, eq), Z.lor (Z.lor O_WRONLY O_CREATE) O_TRUNC, 1)]
                   else if tok =? ch_plus then [((q, eq), Z.lor O_WRONLY O_CREATE, 1)]
                   else [] in
          let? (rs, ps) := parseredirs fuel ps in POk (r ++ rs) ps
      else POk [] ps
  end.

(** The loop of parseexec() over the arguments, after [argv] and [rs]. *)
Fixpoint parseargs (fuel : nat) (argv : list ptr) (rs : list redir) (ps : nat) : parse (list ptr * list redir) :=
  match fuel with
  | O => PFuel
  | S fuel' =>
      let '(b, ps) := peek ps [ch_bar; ch_rp; ch_amp; ch_semi] in
      if b then POk (argv, rs) ps
      else
        let '(tok, q, eq, ps) := gettoken ps in
        if tok =? 0 then POk (argv, rs) ps
        else if negb (tok =? ch_a) then PErr None "syntax"
        else
          let argv := argv ++ [(q, eq)] in
          if MAXARGS <=? Z.of_nat (length argv) then PErr None "too many args"
          else
            let? (rs', ps) := parseredirs fuel' ps in
            parseargs fuel' argv (rs ++ rs') ps
  end.

(** [while(peek(ps, es, "&")) ...] *)
Fixpoint parseback (fuel : nat) (c : cmd ptr) (ps : nat) : parse (cmd ptr) :=
  match fuel with
  | O => PFuel
  | S fuel =>
      let '(b, ps) := peek ps [ch_amp] in
      if b then let '(_, _, _, ps) := gettoken ps in parseback fuel (BACK c) ps
      else POk c ps
  end.

Fixpoint parseline (fuel : nat) (ps : nat) : parse (cmd ptr) :=
  match fuel with
  | O => PFuel
  | S fuel =>
      let? (c, ps) := parsepipe fuel ps in
      let? (c, ps) := parseback fuel c ps in
      let '(b, ps) := peek ps [ch_semi] in
      if b then
        let '(_, _, _, ps) := gettoken ps in
        let? (r, ps) := parseline fuel ps in POk (LIST c r) ps
      else POk c ps
  end
with parsepipe (fuel : nat) (ps : nat) : parse (cmd ptr) :=
  match fuel with
  | O => PFuel
  | S fuel =>
      let? (c, ps) := parseexec fuel ps in
      let '(b, ps) := peek ps [ch_bar] in
      if b then
        let '(_, _, _, ps) := gettoken ps in
        let? (r, ps) := parsepipe fuel ps in POk (PIPE c r) ps
      else POk c ps
  end
with parseblock (fuel : nat) (ps : nat) : parse (cmd ptr) :=
  match fuel with
  | O => PFuel
  | S fuel =>
      let '(b, ps) := peek ps [ch_lp] in
      if negb b then PErr None "parseblock"
      else
        let '(_, _, _, ps) := gettoken ps in
        let? (c, ps) := parseline fuel ps in
        let '(b, ps) := peek ps [ch_rp] in
        if negb b then PErr None "syntax - missing )"
        else
          let '(_, _, _, ps) := gettoken ps in
          let? (rs, ps) := parseredirs fuel ps in POk (add_redirs c rs) ps
  end
with parseexec (fuel : nat) (ps : nat) : parse (cmd ptr) :=
  match fuel with
  | O => PFuel
  | S fuel =>
      let '(b, ps) := peek ps [ch_lp] in
      if b then parseblock fuel ps
      else
        let? (rs, ps) := parseredirs fuel ps in
        let? ((argv, rs), ps) := parseargs fuel [] rs ps in
        POk (add_redirs (EXEC argv) rs) ps
  end.

(** Each level of the grammar takes at most four calls per character. *)
Definition parse_fuel : nat := 4 * length buf + 8.

(** parsecmd() before nulterminate(). *)
Definition parsetree : parse (cmd ptr) :=
  let? (c, ps) := parseline parse_fuel 0 in
  let '(_, ps) := peek ps [] in
  if negb (Nat.eqb ps es) then PErr (Some (drop ps buf)) "syntax" else POk c ps.

End Parser.

(** nulterminate(): the stores [*eq = 0]; the array has room for the NUL. *)
Definition put_nul (eq : nat) (line : list Z) : list Z := <[eq := 0]> line.
Fixpoint nulterminate (c : cmd ptr) (line : list Z) : list Z :=
  match c with
  | EXEC argv => fold_left (fun line a => put_nul (snd a) line) argv line
  | REDIR c f _ _ => put_nul (snd f) (nulterminate c line)
  | PIPE l r | LIST l r => nulterminate r (nulterminate l line)
  | BACK c => nulterminate c line
  end.

(** parsecmd(): the tree and the line, NULs included. *)
Definition parsecmd (buf : list Z) : parse (cmd ptr * list Z) :=
  let? (c, ps) := parsetree buf in
  POk (c, nulterminate c (buf ++ [0])) ps.

(** The C string at an offset. *)
Fixpoint cstring (l : list Z) : list Z :=
  match l with
  | [] => []
  | c :: l => if c =? 0 then [] else c :: cstring l
  end.
(** The tree with the strings its pointers point to. *)
Fixpoint resolve (line : list Z) (c : cmd ptr) : cmd (list Z) :=
  match c with
  | EXEC argv => EXEC (map (fun a => cstring (drop (fst a) line)) argv)
  | REDIR c f mode fd => REDIR (resolve line c) (cstring (drop (fst f) line)) mode fd
  | PIPE l r => PIPE (resolve line l) (resolve line r)
  | LIST l r => LIST (resolve line l) (resolve line r)
  | BACK c => BACK (resolve line c)
  end.

(** ** Running a command

    The system calls of the shell as a tree: a call and what is done with its
    result; a fork has the child's program and the parent's. *)
Inductive syscall :=
| SysClose (fd : Z) | SysOpen (path : list Z) (mode : Z) | SysDup (fd : Z) | SysWait
| SysExec (path : list Z) (argv : list (list Z)) | SysPipe | SysPrint (msg : string) (arg : list Z)
| SysRead (fd : Z) | SysWrite (fd : Z) (bytes : list Z) | SysChdir (path : list Z).
Inductive prog :=
| Exit (status : Z)
| Cut
| Call (c : syscall) (k : Z -> Z -> Z -> prog)
| Fork (failed : prog) (k : bool -> prog).

(** [Call]'s continuation takes the result and, for a pipe, its two
    descriptors, for a read of one character, the character; [Fork] has what
    is done when it fails, and the rest, given whether it runs in the child.
    [Cut] is where a loop unfolded a bounded number of times goes on. *)
Definition call (c : syscall) (k : prog) : prog := Call c (fun _ _ _ => k).

(** panic(s) *)
Definition sh_panic (s : string) : prog := call (SysPrint s []) (Exit 1).
(** fork1(): a failed fork panics. *)
Definition fork1 (k : bool -> prog) : prog := Fork (sh_panic "fork") k.

Fixpoint runcmd (c : cmd (list Z)) : prog :=
  match c with
  | EXEC [] => Exit 1
  | EXEC (a :: argv) =>
      call (SysExec a (a :: argv)) (call (SysPrint "exec failed" a) (Exit 0))
  | REDIR c file mode fd =>
      call (SysClose fd)
        (Call (SysOpen file mode) (fun r _ _ =>
           if r <? 0 then call (SysPrint "open failed" file) (Exit 1) else runcmd c))
  | LIST l r => fork1 (fun child => if child then runcmd l else call SysWait (runcmd r))
  | PIPE l r =>
      Call SysPipe (fun res p0 p1 =>
        if res <? 0 then sh_panic "pipe"
        else
          fork1 (fun child =>
            if child then
              call (SysClose 1) (call (SysDup p1) (call (SysClose p0) (call (SysClose p1) (runcmd l))))
            else
              fork1 (fun child =>
                if child then
                  call (SysClose 0) (call (SysDup p0) (call (SysClose p0) (call (SysClose p1) (runcmd r))))
                else
                  call (SysClose p0) (call (SysClose p1) (call SysWait (call SysWait (Exit 0)))))))
  | BACK c => fork1 (fun child => if child then runcmd c else Exit 0)
  end.

(** ** Reading commands *)

Definition newline : Z := 10.
Definition return_ch : Z := 13.

(** gets() of user/ulib.c: the loop, which may still store [n] characters,
    at [i]; then the NUL. *)
Fixpoint gets_loop (n i : nat) (buf : list Z) (k : list Z -> nat -> prog) : prog :=
  match n with
  | O => k buf i
  | S n =>
      Call (SysRead 0) (fun cc c _ =>
        if cc <? 1 then k buf i
        else
          let buf := <[i := c]> buf in
          if (c =? newline) || (c =? return_ch) then k buf (S i) else gets_loop n (S i) buf k)
  end.
Definition gets (buf : list Z) (max : nat) (k : list Z -> prog) : prog :=
  gets_loop (max - 1) 0 buf (fun buf i => k (<[i := 0]> buf)).

(** memset(buf, 0, nbuf) *)
Definition clear_buf (buf : list Z) (nbuf : nat) : list Z := replicate nbuf 0 ++ drop nbuf buf.
Definition prompt : syscall := SysWrite 2 [36; 32].
Definition getcmd (buf : list Z) (nbuf : nat) (k : Z -> list Z -> prog) : prog :=
  call prompt
    (gets (clear_buf buf nbuf) nbuf (fun buf => if default 0 (buf !! 0%nat) =? 0 then k (-1) buf else k 0 buf)).

(** runcmd(parsecmd(buf)) *)
Definition run_line (line : list Z) : prog :=
  match parsecmd line with
  | POk (c, line) _ => runcmd (resolve line c)
  | PErr None msg => sh_panic msg
  | PErr (Some s) msg => call (SysPrint "leftovers:" s) (sh_panic msg)
  | PFuel => Cut
  end.

Definition console : list Z := [99; 111; 110; 115; 111; 108; 101].
(** The loop of main() that opens the console, unfolded [fuel] times. *)
Fixpoint open_console (fuel : nat) (k : prog) : prog :=
  match fuel with
  | O => Cut
  | S fuel =>
      Call (SysOpen console O_RDWR) (fun fd _ _ =>
        if fd <? 0 then k else if 3 <=? fd then call (SysClose fd) k else open_console fuel k)
  end.

Definition NBUF : nat := 100.
Definition is_cd (buf : list Z) : bool :=
  (default 0 (buf !! 0%nat) =? 99) && (default 0 (buf !! 1%nat) =? 100) && (default 0 (buf !! 2%nat) =? 32).
(** The loop of main() over the commands, unfolded [fuel] times. *)
Fixpoint main_loop (fuel : nat) (buf : list Z) : prog :=
  match fuel with
  | O => Cut
  | S fuel =>
      getcmd buf NBUF (fun r buf =>
        if r <? 0 then Exit 0
        else if is_cd buf then
          let buf := <[(length (cstring buf) - 1)%nat := 0]> buf in
          let path := cstring (drop 3 buf) in
          Call (SysChdir path) (fun r _ _ =>
            if r <? 0 then call (SysPrint "cannot cd" path) (main_loop fuel buf) else main_loop fuel buf)
        else
          fork1 (fun child => if child then run_line (cstring buf) else call SysWait (main_loop fuel buf)))
  end.
(** main(): the first loop runs at most four times, as descriptors 0, 1 and
    2 can each be opened once. *)
Definition sh_main (fuel : nat) : prog := open_console 4 (main_loop fuel (replicate NBUF 0)).
