(* ===== verification/Grep.v ===== *)
(** * grep (user/grep.c)

    The regular-expression matcher and the loop that reads a file through a
    fixed buffer.  Strings are their characters before the NUL.  The theorems:
    the matcher decides the language of the expression ([matches]), and what
    grep() prints are the matching lines of the file, however read() cuts it
    into pieces. *)

From S2P Require Import Prelude.

Definition caret : Z := 94.
Definition star : Z := 42.
Definition dollar : Z := 36.
Definition dotc : Z := 46.
Definition newline : Z := 10.

(** [re[0]=='.' || re[0]==*text], and the test of matchstar(). *)
Definition accepts (c x : Z) : bool := (c =? dotc) || (c =? x).

(** The loop of matchstar(), with matchhere(re, _) as [k]. *)
Fixpoint matchstar (k : list Z -> bool) (c : Z) (text : list Z) : bool :=
  k text ||
  match text with
  | [] => false
  | x :: text => accepts c x && matchstar k c text
  end.

Fixpoint matchhere (re text : list Z) {struct re} : bool :=
  match re with
  | [] => true
  | r0 :: re1 =>
      match re1 with
      | r1 :: re2 =>
          if r1 =? star then matchstar (matchhere re2) r0 text
          else match text with
               | x :: text => accepts r0 x && matchhere re1 text
               | [] => false
               end
      | [] =>
          if r0 =? dollar then match text with [] => true | _ => false end
          else match text with
               | x :: text => accepts r0 x && matchhere re1 text
               | [] => false
               end
      end
  end.

(** The do-while loop of match(). *)
Fixpoint match_any (re text : list Z) : bool :=
  matchhere re text ||
  match text with
  | [] => false
  | _ :: text => match_any re text
  end.

Definition matchre (re text : list Z) : bool :=
  match re with
  | r :: re' => if r =? caret then matchhere re' text else match_any re text
  | [] => match_any re text
  end.

(** ** The loop over the file *)

Definition BUFSZ : Z := 1024.

(** strchr(p, '\n') from [p]: the line before the newline and what follows;
    the buffer is NUL-terminated, and a NUL in it ends the search. *)
Fixpoint split_line (p : list Z) : option (list Z * list Z) :=
  match p with
  | [] => None
  | c :: p =>
      if c =? newline then Some ([], p)
      else if c =? 0 then None
      else match split_line p with
           | Some (l, r) => Some (c :: l, r)
           | None => None
           end
  end.

(** The inner loop: the lines of the buffer, matched and written; the result
    is what was written and where [p] ends up. *)
Fixpoint grep_lines (fuel : nat) (pattern p : list Z) : list Z * list Z :=
  match fuel with
  | O => ([], p)
  | S fuel =>
      match split_line p with
      | None => ([], p)
      | Some (l, r) =>
          let '(out, rest) := grep_lines fuel pattern r in
          ((if matchre pattern l then l ++ [newline] else []) ++ out, rest)
      end
  end.

(** grep(), on the results of its calls of read(): [reads] are the bytes each
    returns, the list ends where read() returns 0 or less.  The buffer holds
    [carry] when read() is called with room for sizeof(buf)-m-1 bytes; a call
    with no room returns 0 and ends the loop. *)
Fixpoint grep (pattern carry : list Z) (reads : list (list Z)) : list Z :=
  match reads with
  | [] => []
  | n :: reads =>
      if Z.of_nat (length n) =? 0 then []
      else
        let p := carry ++ n in
        let '(out, rest) := grep_lines (length p) pattern p in
        out ++ grep pattern rest reads
  end.

(** The results of read() on a file whose bytes from the offset on are
    [file]: up to the room there is, at least one byte unless the file is at
    its end or there is no room, when read() returns 0. *)
Inductive reading (pattern : list Z) : list Z -> list Z -> list (list Z) -> Prop :=
| reading_end carry file :
    file = [] \/ BUFSZ - Z.of_nat (length carry) - 1 <= 0 -> reading pattern carry file []
| reading_more carry n file reads :
    0 < Z.of_nat (length n) <= BUFSZ - Z.of_nat (length carry) - 1 ->
    reading pattern (snd (grep_lines (length (carry ++ n)) pattern (carry ++ n))) file reads ->
    reading pattern carry (n ++ file) (n :: reads).

(** ** What a pattern means *)

Inductive item := Many (c : Z) | One (c : Z).

(** The items of a pattern and whether it ends in the anchor [$]. *)
Fixpoint items (re : list Z) : list item * bool :=
  match re with
  | [] => ([], false)
  | c :: re' =>
      match re' with
      | s :: re'' =>
          if s =? star then let '(l, e) := items re'' in (Many c :: l, e)
          else let '(l, e) := items re' in (One c :: l, e)
      | [] => if c =? dollar then ([], true) else ([One c], false)
      end
  end.

(** The strings a list of items describes. *)
Fixpoint lang (l : list item) (s : list Z) : Prop :=
  match l with
  | [] => s = []
  | One c :: l => exists x s', s = x :: s' /\ accepts c x = true /\ lang l s'
  | Many c :: l => exists a b, s = a ++ b /\ Forall (fun x => accepts c x = true) a /\ lang l b
  end.

(** A pattern matches a text some part of which is in its language, at its
    beginning for [^] and at its end for [$]. *)
Definition matches_at (re text : list Z) : Prop :=
  exists s t, text = s ++ t /\ lang (fst (items re)) s /\ (snd (items re) = true -> t = []).
Definition matches (re text : list Z) : Prop :=
  match re with
  | r :: re' => if r =? caret then matches_at re' text else exists a b, text = a ++ b /\ matches_at re b
  | [] => exists a b, text = a ++ b /\ matches_at re b
  end.

Lemma matchstar_spec k c text :
  matchstar k c text = true <->
  exists a b, text = a ++ b /\ Forall (fun x => accepts c x = true) a /\ k b = true.
Proof.
  induction text as [|x text IH]; cbn [matchstar].
  - rewrite orb_false_r. split; [intros Hk; by exists [], []|].
    intros (a & b & E & _ & Hk). symmetry in E. by apply app_eq_nil in E as [-> ->].
  - rewrite orb_true_iff, andb_true_iff, IH. split.
    + intros [Hk|[Hx (a & b & -> & Ha & Hk)]]; [by exists [], (x :: text)|].
      exists (x :: a), b. by repeat constructor.
    + intros (a & b & E & Ha & Hk). destruct a as [|y a]; [left; cbn in E; by subst b|right].
      injection E as -> ->. inversion Ha; subst. split; [done|]. by exists a, b.
Qed.

Lemma matches_one c re text :
  (exists l, items (c :: re) = (One c :: fst (items re), l) /\ l = snd (items re)) ->
  matches_at (c :: re) text <-> exists x t, text = x :: t /\ accepts c x = true /\ matches_at re t.
Proof.
  intros (l & E & ->). unfold matches_at. rewrite E. cbn [fst snd lang]. split.
  - intros (s & t & -> & (x & s' & -> & Hx & Hl) & He). exists x, (s' ++ t). split_and!; try done. by exists s', t.
  - intros (x & t & -> & Hx & s & t' & -> & Hl & He). exists (x :: s), t'. split_and!; try done. by exists x, s.
Qed.

Lemma items_one c re :
  (match re with s :: _ => s <> star | [] => c <> dollar end) ->
  exists l, items (c :: re) = (One c :: fst (items re), l) /\ l = snd (items re).
Proof.
  intros Hc. cbn [items]. destruct re as [|s re].
  - rewrite (proj2 (Z.eqb_neq _ _) Hc). by eexists.
  - rewrite (proj2 (Z.eqb_neq _ _) Hc). destruct (items (s :: re)). by eexists.
Qed.

Lemma matchhere_spec re text : matchhere re text = true <-> matches_at re text.
Proof.
  revert text. induction re as [re IH] using (induction_ltof1 _ (@length Z)); unfold ltof in IH. intros text.
  destruct re as [|c re].
  { cbn. split; [intros _; by exists [], text|done]. }
  assert (Hone : (match re with s :: _ => s <> star | [] => c <> dollar end) ->
    (match text with x :: text => accepts c x && matchhere re text | [] => false end) = true <-> matches_at (c :: re) text).
  { intros Hc. rewrite matches_one by by apply items_one. destruct text as [|x text].
    - split; [done|]. by intros (? & ? & ? & _).
    - rewrite andb_true_iff, IH by (cbn; lia). split; [intros []; by exists x, text|].
      by intros (? & ? & [= -> ->] & ? & ?). }
  cbn [matchhere]. destruct re as [|s re].
  - destruct (Z.eqb_spec c dollar) as [->|Hc]; [|by apply Hone]. unfold matches_at; cbn. destruct text; split; try done.
    + intros _. by exists [], [].
    + intros (s & t & E & -> & Ht). by rewrite Ht in E.
  - destruct (Z.eqb_spec s star) as [->|Hs]; [|by apply Hone]. rewrite matchstar_spec. unfold matches_at. cbn [items].
    rewrite Z.eqb_refl. destruct (items re) as [l e] eqn:E. cbn [fst snd lang]. setoid_rewrite IH; [|cbn; lia]. unfold matches_at. rewrite E. split.
    + intros (a & b & -> & Ha & s & t & -> & Hl & He). exists (a ++ s), t. rewrite app_assoc. split_and!; try done. by exists a, s.
    + intros (s & t & -> & (a & b & -> & Ha & Hl) & He). exists a, (b ++ t). rewrite app_assoc. split_and!; try done. by exists b, t.
Qed.

Lemma match_any_spec re text : match_any re text = true <-> exists a b, text = a ++ b /\ matches_at re b.
Proof.
  induction text as [|x text IH]; cbn [match_any]; rewrite orb_true_iff, matchhere_spec.
  - split; [intros [Hm|?]; [by exists [], []|done]|]. intros (a & b & E & Hm). symmetry in E. apply app_eq_nil in E as [-> ->]. by left.
  - rewrite IH. split.
    + intros [Hm|(a & b & -> & Hm)]; [by exists [], (x :: text)|by exists (x :: a), b].
    + intros (a & b & E & Hm). destruct a as [|y a]; [left; cbn in E; by subst b|right]. injection E as -> ->. by exists a, b.
Qed.

(** C28: the matcher of grep decides the language of the pattern: a text
    matches exactly when some part of it (the beginning for [^], the end for
    [$]) is a string the items of the pattern describe. *)
Theorem match_decides re text : matchre re text = true <-> matches re text.
Proof.
  unfold matchre, matches. destruct re as [|r re]; [apply match_any_spec|].
  case_match; [apply matchhere_spec|apply match_any_spec].
Qed.

(** ** What grep prints *)

(** The lines of a file that end in a newline, and what is left. *)
Fixpoint lines (l : list Z) : list (list Z) * list Z :=
  match l with
  | [] => ([], [])
  | c :: l =>
      let '(ls, r) := lines l in
      if c =? newline then ([] :: ls, r)
      else match ls with
           | [] => ([], c :: r)
           | l :: ls => ((c :: l) :: ls, r)
           end
  end.

Definition print_matching (pattern : list Z) (ls : list (list Z)) : list Z :=
  concat (map (fun l => if matchre pattern l then l ++ [newline] else []) ls).

Lemma split_line_spec p :
  Forall (fun c => c <> 0) p ->
  match split_line p with
  | Some (l, r) => p = l ++ newline :: r /\ lines p = (l :: fst (lines r), snd (lines r))
  | None => lines p = ([], p)
  end.
Proof.
  induction 1 as [|c p Hc _ IH]; cbn [split_line lines]; [done|].
  destruct (Z.eqb_spec c newline) as [->|Hn]; [by destruct (lines p)|].
  rewrite (proj2 (Z.eqb_neq _ _) Hc). destruct (split_line p) as [[l r]|]; [|by rewrite IH].
  destruct IH as [-> ->]. done.
Qed.

Lemma grep_lines_spec pattern fuel p :
  (length p <= fuel)%nat -> Forall (fun c => c <> 0) p ->
  grep_lines fuel pattern p = (print_matching pattern (fst (lines p)), snd (lines p)).
Proof.
  revert p. induction fuel as [|fuel IH]; intros p Hf Hp; [by destruct p; [|cbn in Hf; lia]|].
  cbn [grep_lines]. pose proof (split_line_spec p Hp) as Hs. destruct (split_line p) as [[l r]|]; [|by rewrite Hs].
  destruct Hs as [-> ->]. rewrite length_app in Hf. cbn in Hf. apply Forall_app in Hp as [_ Hp]. inversion Hp; subst.
  rewrite IH by (done || lia). done.
Qed.

Lemma lines_app p q :
  lines (p ++ q) = (fst (lines p) ++ fst (lines (snd (lines p) ++ q)), snd (lines (snd (lines p) ++ q))).
Proof.
  induction p as [|c p IH]; [cbn; by destruct (lines q)|cbn [app lines]].
  rewrite IH. destruct (lines p) as [ls r]; cbn [fst snd].
  destruct (Z.eqb_spec c newline) as [->|Hn]; [done|]. destruct ls as [|l ls]; cbn [app fst snd]; [|done].
  cbn [lines]. destruct (lines (r ++ q)) as [ls' r']. cbn [fst snd].
  rewrite (proj2 (Z.eqb_neq _ _) Hn). by destruct ls'.
Qed.

Lemma lines_rest p : fst (lines (snd (lines p))) = [] /\ snd (lines (snd (lines p))) = snd (lines p).
Proof.
  induction p as [|c p [IH1 IH2]]; [done|]. cbn [lines]. destruct (lines p) as [ls r]; cbn [fst snd] in *.
  destruct (Z.eqb_spec c newline) as [|Hn]; [done|]. destruct ls; [|done]. cbn [fst snd lines].
  destruct (lines r); cbn [fst snd] in *; subst. by rewrite (proj2 (Z.eqb_neq _ _) Hn).
Qed.

Lemma lines_none p : fst (lines p) = [] -> snd (lines p) = p.
Proof.
  induction p as [|c p IH]; [done|]. cbn [lines]. destruct (lines p) as [ls r]; cbn [fst snd] in *.
  destruct (Z.eqb_spec c newline); [done|]. destruct ls; [|done]. cbn. intros _. by rewrite IH.
Qed.

Lemma lines_suffix p : exists q, p = q ++ snd (lines p).
Proof.
  induction p as [|c p [q IH]]; [by exists []|]. cbn [lines]. pose proof (lines_none p) as Hn.
  destruct (lines p) as [ls r]; cbn [fst snd] in *.
  destruct (Z.eqb_spec c newline); [exists (c :: q); by rewrite IH at 1|].
  destruct ls; [|exists (c :: q); by rewrite IH at 1].
  exists []. by rewrite Hn.
Qed.

(** A file no line of which is too long for the buffer. *)
Definition short_lines (file : list Z) : Prop :=
  Forall (fun l => Z.of_nat (length l) < BUFSZ - 1) (fst (lines file)) /\ Z.of_nat (length (snd (lines file))) < BUFSZ - 1.

(** The line being read starts with what the buffer holds of it. *)
Lemma lines_carry q f :
  fst (lines q) = [] ->
  match fst (lines (q ++ f)) with
  | l :: _ => exists t, l = q ++ t
  | [] => exists t, snd (lines (q ++ f)) = q ++ t
  end.
Proof.
  induction q as [|c q IH]; cbn [app lines]; intros Hq.
  - destruct (fst (lines f)); eauto.
  - destruct (lines q) as [ls r]. destruct (Z.eqb_spec c newline); [done|]. destruct ls; [|done].
    specialize (IH eq_refl). destruct (lines (q ++ f)) as [ls' r']. cbn [fst snd] in *.
    destruct ls' as [|l ls']; destruct IH as [t ->]; cbn [fst snd]; by exists t.
Qed.

Lemma short_carry q f : fst (lines q) = [] -> short_lines (q ++ f) -> Z.of_nat (length q) < BUFSZ - 1.
Proof.
  intros Hq [Hs1 Hs2]. pose proof (lines_carry q f Hq) as H.
  destruct (fst (lines (q ++ f))) as [|l ls]; destruct H as [t E].
  - rewrite E, length_app in Hs2. lia.
  - subst l. inversion Hs1 as [|? ? Hl]; subst. rewrite length_app in Hl. lia.
Qed.

Lemma grep_reads pattern carry file reads :
  reading pattern carry file reads ->
  fst (lines carry) = [] -> Forall (fun c => c <> 0) (carry ++ file) -> short_lines (carry ++ file) ->
  grep pattern carry reads = print_matching pattern (fst (lines (carry ++ file))).
Proof.
  induction 1 as [carry file [->|Hroom]|carry n file reads Hn Hr IH]; intros Hc H0 Hs.
  - by rewrite app_nil_r, Hc.
  - apply short_carry in Hs; [lia|done].
  - cbn [grep]. rewrite (proj2 (Z.eqb_neq _ _)) by lia. rewrite app_assoc in *.
    pose proof (proj1 (proj1 (Forall_app _ _ _) H0)) as H1.
    rewrite grep_lines_spec in * by done. cbn [snd] in *.
    destruct (lines_rest (carry ++ n)) as [Hl1 Hl2].
    assert (Hrest : Forall (fun c => c <> 0) (snd (lines (carry ++ n)))).
    { pose proof (lines_suffix (carry ++ n)) as [p Hp]. rewrite Hp in H1. by apply Forall_app in H1 as [_ ?]. }
    rewrite IH; [|done| |].
    + rewrite (lines_app (carry ++ n) file). cbn [fst]. unfold print_matching. by rewrite map_app, concat_app.
    + apply Forall_app. split; [done|]. by apply Forall_app in H0 as [_ ?].
    + destruct Hs as [Hs1 Hs2]. rewrite lines_app in Hs1, Hs2. cbn [fst snd] in *.
      apply Forall_app in Hs1 as [_ ?]. by split.
Qed.

(** C29: for a file without NULs whose lines fit the buffer, grep prints
    exactly the matching lines that end in a newline, in order, whatever
    pieces read() returns. *)
Theorem grep_prints_matching pattern file reads :
  reading pattern [] file reads -> Forall (fun c => c <> 0) file -> short_lines file ->
  grep pattern [] reads = print_matching pattern (fst (lines file)).
Proof. intros Hr H0 Hs. by apply (grep_reads pattern [] file reads). Qed.

(** Pattern [^ab*$] on the lines [abb], [xab] and [a], read in two pieces. *)
Lemma grep_prints_matching_witness :
  let pattern := [94; 97; 98; 42; 36] in
  let file := [97; 98; 98; 10; 120; 97; 98; 10; 97; 10] in
  let reads := [[97; 98]; [98; 10; 120; 97; 98; 10; 97; 10]] in
  grep pattern [] reads = [97; 98; 98; 10; 97; 10] /\
  grep pattern [] reads = print_matching pattern (fst (lines file)).
Proof.
  cbv zeta. split; [reflexivity|]. apply grep_prints_matching.
  - apply (reading_more _ [] [97; 98] [98; 10; 120; 97; 98; 10; 97; 10]); [vm_compute; split; congruence|].
    apply (reading_more _ _ [98; 10; 120; 97; 98; 10; 97; 10] []); [vm_compute; split; congruence|].
    apply reading_end. by left.
  - by repeat constructor.
  - split; [by repeat constructor|done].
Defined.
