(* ===== verification/Utils.v ===== *)
(** * User programs that filter and list (user/wc.c, user/cat.c, user/ls.c,
    user/echo.c)

    A program's calls of read() are given by what they return: the bytes of
    each call and, at the end, the result that is not positive.  [fds] holds
    the bytes written to descriptors 1 and 2.  A store outside of an array has
    no result, so that a theorem that ls() returns shows its path buffer to be
    large enough. *)

From Stdlib Require Import Ascii.
From S2P Require Import Prelude Format Ulib Fs Sh.
Import UPrintf.

Record fds := mkFds { fd1 : list Z; fd2 : list Z }.
Definition fd1_lens : lens fds (list Z) := Lens fd1 (fun o f => mkFds o (fd2 f)).
Definition fd2_lens : lens fds (list Z) := Lens fd2 (fun o f => mkFds (fd1 f) o).

(** How a routine ends: it returns, or it calls exit(). *)
Inductive ending := Returns | Exits (status : Z).

(** ** wc *)

Module Wc.

Record counts := mkCounts { l : Z; w : Z; c : Z; inword : bool }.

(** [" \r\t\n\v"] *)
Definition blanks : list Z := [32; 13; 9; 10; 11].

(** The body of the inner loop. *)
Definition count (n : counts) (b : Z) : counts :=
  let c' := i32 (c n + 1) in
  let l' := if b =? 10 then i32 (l n + 1) else l n in
  if strchr blanks b then mkCounts l' (w n) c' false
  else if negb (inword n) then mkCounts l' (i32 (w n + 1)) c' true
  else mkCounts l' (w n) c' (inword n).

(** [reads] is what the calls of read() return while it is positive, [last]
    the result that ends the loop. *)
Definition wc (stack : list Z) (reads : list (list Z)) (last : Z) (name : list Z) : M fds ending :=
  let n := fold_left (fun n buf => fold_left count buf n) reads (mkCounts 0 0 0 false) in
  if last <? 0 then zoom fd1_lens (fprintf stack (bytes_of "wc: read error" ++ [10]) []) ;; ret (Exits 1)
  else
    zoom fd1_lens (fprintf stack (bytes_of "%d %d %d %s" ++ [10]) [UInt (l n); UInt (w n); UInt (c n); UStr (Some name)]) ;;
    ret Returns.

End Wc.

(** ** cat *)

Section Cat.
(** What write(1, buf, n) returns, given the bytes; it writes as many. *)
Variable write1 : list Z -> Z.
Definition do_write (bs : list Z) : M fds Z :=
  modify (fun f => mkFds (fd1 f ++ take (Z.to_nat (write1 bs)) bs) (fd2 f)) ;; ret (write1 bs).

Fixpoint cat (stack : list Z) (reads : list (list Z)) (last : Z) : M fds ending :=
  match reads with
  | [] =>
      if last <? 0 then zoom fd2_lens (fprintf stack (bytes_of "cat: read error" ++ [10]) []) ;; ret (Exits 1)
      else ret Returns
  | buf :: reads =>
      let! r := do_write buf in
      if negb (r =? Z.of_nat (length buf)) then
        zoom fd2_lens (fprintf stack (bytes_of "cat: write error" ++ [10]) []) ;; ret (Exits 1)
      else cat stack reads last
  end.
End Cat.

(** ** echo *)

(** The loop of main() of echo.c over argv[1] to argv[argc-1]. *)
Fixpoint echo (argv : list (list Z)) : list Z :=
  match argv with
  | [] => []
  | a :: argv => a ++ (match argv with [] => [10] | _ => [32] end) ++ echo argv
  end.

(** ** ls *)

Definition slash : Z := 47.

(** [for(p=path+strlen(path); p >= path && *p != '/'; p--); p++;]: the offset
    of [p], from one past offset [n]. *)
Fixpoint after_slash (path : list Z) (n : nat) : nat :=
  match n with
  | O => O
  | S k => if default 0 (path !! k) =? slash then S k else after_slash path k
  end.
Definition fmtname (path : list Z) : list Z :=
  let p := drop (after_slash path (S (length path))) path in
  if DIRSIZ <=? Z.of_nat (length p) then p
  else p ++ replicate (Z.to_nat (DIRSIZ - Z.of_nat (length p))) 32.

(** struct stat, as far as it is printed. *)
Record ustat := mkStat { u_type : Z; u_ino : Z; u_size : Z }.

(** Stores [bs] at an offset of an array. *)
Definition store_at (off : nat) (bs buf : list Z) : option (list Z) :=
  if (off + length bs <=? length buf)%nat then Some (take off buf ++ bs ++ drop (off + length bs) buf) else None.

Section Ls.
(** stat(path, &st), and the stack of printint(). *)
Variable (stat : list Z -> option ustat) (stack : list Z).
Definition say (fmt : list Z) (ap : list uarg) : M fds unit := zoom fd1_lens (fprintf stack (fmt ++ [10]) ap).

(** The loop over the entries; [p] is the offset after the slash. *)
Fixpoint ls_entries (buf : list Z) (p : nat) (des : list (Z * list Z)) : M fds unit :=
  match des with
  | [] => ret tt
  | (inum, name) :: des =>
      if inum =? 0 then ls_entries buf p des
      else
        match store_at p name buf with
        | None => hang
        | Some buf =>
            match store_at (p + Z.to_nat DIRSIZ) [0] buf with
            | None => hang
            | Some buf =>
                match stat (cstring buf) with
                | None => say (bytes_of "ls: cannot stat %s") [UStr (Some (cstring buf))]
                | Some st =>
                    say (bytes_of "%s %d %d %d") [UStr (Some (fmtname (cstring buf))); UInt (u_type st); UInt (u_ino st); UInt (i32 (u_size st))]
                end ;;
                ls_entries buf p des
            end
        end
  end.

(** [buf] is what the stack held; [fstat] and the entries are what the
    descriptor gives when open() succeeds. *)
Definition ls (buf path : list Z) (opened : bool) (fstat : option ustat) (des : list (Z * list Z)) : M fds unit :=
  if negb opened then
    zoom fd2_lens (fprintf stack (bytes_of "ls: cannot open %s" ++ [10]) [UStr (Some path)])
  else
    match fstat with
    | None => zoom fd2_lens (fprintf stack (bytes_of "ls: cannot stat %s" ++ [10]) [UStr (Some path)])
    | Some st =>
        if (u_type st =? T_DEVICE) || (u_type st =? T_FILE) then
          say (bytes_of "%s %d %d %l") [UStr (Some (fmtname path)); UInt (u_type st); UInt (u_ino st); UInt64 (u_size st)]
        else if u_type st =? T_DIR then
          if 512 <? Z.of_nat (length path) + 1 + DIRSIZ + 1 then say (bytes_of "ls: path too long") []
          else
            match store_at 0 (path ++ [0]) buf with
            | None => hang
            | Some buf =>
                match store_at (length path) [slash] buf with
                | None => hang
                | Some buf => ls_entries buf (S (length path)) des
                end
            end
        else ret tt
    end.
End Ls.

(** ** What wc prints *)

Section WcSpec.
Import Wc.

Definition blank_char (b : Z) : bool := strchr blanks b.
(** A word starts at [i]: a character that is not a blank, at the start or
    after a blank. *)
Definition starts (bs : list Z) (i : nat) : bool :=
  negb (blank_char (default 32 (bs !! i))) && match i with O => true | S j => blank_char (default 32 (bs !! j)) end.
Definition lines_in (bs : list Z) : Z := Z.of_nat (length (List.filter (Z.eqb 10) bs)).
Definition words_in (bs : list Z) : Z := Z.of_nat (length (List.filter (starts bs) (seq 0 (length bs)))).
Definition ends_in_word (bs : list Z) : bool := match list.last bs with Some b => negb (blank_char b) | None => false end.
Definition counted (bs : list Z) : counts := mkCounts (lines_in bs) (words_in bs) (Z.of_nat (length bs)) (ends_in_word bs).

Lemma starts_app bs b i : (i < length bs)%nat -> starts (bs ++ [b]) i = starts bs i.
Proof. intros Hi. unfold starts. rewrite lookup_app_l by done. destruct i as [|j]; [done|]. by rewrite lookup_app_l by lia. Qed.

Lemma starts_last bs b : starts (bs ++ [b]) (length bs) = negb (blank_char b) && negb (ends_in_word bs).
Proof.
  unfold starts, ends_in_word. rewrite lookup_app_r, Nat.sub_diag by done. cbn [lookup list_lookup default]. f_equal.
  destruct bs as [|x bs _] using rev_ind; [done|]. rewrite length_app, Nat.add_1_r, <-app_assoc, lookup_app_r, Nat.sub_diag, last_snoc by done.
  cbn. by rewrite negb_involutive.
Qed.

Lemma words_snoc bs b : words_in (bs ++ [b]) = words_in bs + (if negb (blank_char b) && negb (ends_in_word bs) then 1 else 0).
Proof.
  unfold words_in. rewrite length_app, Nat.add_1_r, seq_S, List.filter_app, length_app. cbn [Nat.add List.filter].
  rewrite starts_last, (List.filter_ext_in (starts (bs ++ [b])) (starts bs)).
  - destruct (_ && _); cbn; lia.
  - intros i Hi%in_seq. apply starts_app. lia.
Qed.

Lemma lines_snoc bs b : lines_in (bs ++ [b]) = lines_in bs + (if b =? 10 then 1 else 0).
Proof. unfold lines_in. rewrite List.filter_app, length_app. cbn [List.filter]. rewrite (Z.eqb_sym 10). destruct (b =? 10); cbn; lia. Qed.

Lemma filter_bound {A} (f : A -> bool) l : (length (List.filter f l) <= length l)%nat.
Proof. induction l as [|a l IH]; cbn; [done|]. destruct (f a); cbn; lia. Qed.

Lemma counts_bound bs : 0 <= lines_in bs <= Z.of_nat (length bs) /\ 0 <= words_in bs <= Z.of_nat (length bs).
Proof.
  unfold lines_in, words_in. pose proof (filter_bound (Z.eqb 10) bs). pose proof (filter_bound (starts bs) (seq 0 (length bs))).
  rewrite length_seq in *. lia.
Qed.

Lemma count_all bs : Z.of_nat (length bs) < 2 ^ 31 -> fold_left count bs (mkCounts 0 0 0 false) = counted bs.
Proof.
  induction bs as [|b bs IH] using rev_ind; [done|]. rewrite length_app. cbn [length]. intros Hl. rewrite fold_left_app, IH by lia. cbn [fold_left].
  destruct (counts_bound bs). unfold counted, count. cbn [l w c inword]. rewrite words_snoc, lines_snoc, length_app. cbn [length].
  rewrite !i32_small by lia. fold (blank_char b).
  replace (if b =? 10 then lines_in bs + 1 else lines_in bs) with (lines_in bs + (if b =? 10 then 1 else 0)) by (destruct (b =? 10); lia).
  replace (Z.of_nat (length bs + 1)) with (Z.of_nat (length bs) + 1) by lia.
  destruct (blank_char b) eqn:Eb; cbn [negb andb]; unfold ends_in_word; rewrite ?last_snoc, ?Eb; [by rewrite Z.add_0_r|].
  fold (ends_in_word bs). destruct (ends_in_word bs); cbn; by rewrite ?Z.add_0_r.
Qed.

Lemma count_reads reads n : fold_left (fun n buf => fold_left count buf n) reads n = fold_left count (concat reads) n.
Proof. revert n. induction reads as [|r reads IH]; intros n; [done|]. cbn. by rewrite IH, fold_left_app. Qed.
End WcSpec.

(** ** What the programs write *)

Section Output.
Variable stack : list Z.
Context (Hstack : length stack = 16%nat).

Lemma wp_fd1 is_ fmt ap f (Q : unit -> fds -> Prop) :
  fmt = concat (map uitem_fmt is_) -> ap = concat (map uitem_arg is_) -> Forall uitem_ok is_ ->
  Q tt (mkFds (fd1 f ++ concat (map uitem_text is_)) (fd2 f)) -> wp (zoom fd1_lens (fprintf stack fmt ap)) f Q.
Proof. intros -> -> Hi HQ. apply wp_zoom. eapply wp_mono; [by apply fprintf_renders|]. by intros [] o' ->. Qed.

Lemma wp_fd2 is_ fmt ap f (Q : unit -> fds -> Prop) :
  fmt = concat (map uitem_fmt is_) -> ap = concat (map uitem_arg is_) -> Forall uitem_ok is_ ->
  Q tt (mkFds (fd1 f) (fd2 f ++ concat (map uitem_text is_))) -> wp (zoom fd2_lens (fprintf stack fmt ap)) f Q.
Proof. intros -> -> Hi HQ. apply wp_zoom. eapply wp_mono; [by apply fprintf_renders|]. by intros [] o' ->. Qed.

(** A text without directives. *)
Definition lits (bs : list Z) : list uitem := map ULit bs.
Lemma lits_fmt bs : concat (map uitem_fmt (lits bs)) = bs /\ concat (map uitem_arg (lits bs)) = [] /\ concat (map uitem_text (lits bs)) = bs.
Proof. induction bs as [|b bs (E1 & E2 & E3)]; [done|]. cbn. fold (lits bs). by rewrite E1, E2, E3. Qed.

Lemma lits_ok bs : forallb (fun c => (0 <? c) && (c <? 256) && negb (c =? ch "%")) bs = true -> Forall uitem_ok (lits bs).
Proof.
  intros H. rewrite forallb_forall in H. apply List.Forall_map, List.Forall_forall. intros c Hc%H.
  apply andb_true_iff in Hc as [Hc Hp]. apply andb_true_iff in Hc as [H0 H1]. apply negb_true_iff, Z.eqb_neq in Hp.
  split; [|done]. unfold plain, is_byte. lia.
Qed.

Lemma wp_message2 bs f (Q : unit -> fds -> Prop) :
  forallb (fun c => (0 <? c) && (c <? 256) && negb (c =? ch "%")) bs = true ->
  Q tt (mkFds (fd1 f) (fd2 f ++ bs)) -> wp (zoom fd2_lens (fprintf stack bs [])) f Q.
Proof.
  intros Hb HQ. destruct (lits_fmt bs) as (E1 & E2 & E3). apply (wp_fd2 (lits bs)); [done|done|by apply lits_ok|by rewrite E3].
Qed.
Lemma wp_message1 bs f (Q : unit -> fds -> Prop) :
  forallb (fun c => (0 <? c) && (c <? 256) && negb (c =? ch "%")) bs = true ->
  Q tt (mkFds (fd1 f ++ bs) (fd2 f)) -> wp (zoom fd1_lens (fprintf stack bs [])) f Q.
Proof.
  intros Hb HQ. destruct (lits_fmt bs) as (E1 & E2 & E3). apply (wp_fd1 (lits bs)); [done|done|by apply lits_ok|by rewrite E3].
Qed.

Definition sp : uitem := ULit 32.
Definition nl : uitem := ULit 10.
Lemma sp_ok : uitem_ok sp.
Proof. by repeat split. Qed.
Lemma nl_ok : uitem_ok nl.
Proof. by repeat split. Qed.
Ltac items_ok := repeat first [apply Forall_nil_2|apply Forall_cons_2]; try apply sp_ok; try apply nl_ok.

(** The line of wc(). *)
Definition wc_items (bs name : list Z) : list uitem :=
  [UDec (lines_in bs); sp; UDec (words_in bs); sp; UDec (Z.of_nat (length bs)); sp; UString (Some name); nl].

(** wc() prints the number of lines, words and characters of the whole
    input, however read() cuts it into pieces: the newlines, the places where
    a character that is not a blank follows a blank or the start, and the
    bytes; a read error is reported and ends the program with status 1. *)
Theorem wc_counts reads last name f :
  Z.of_nat (length (concat reads)) < 2 ^ 31 -> Forall plain name ->
  wp (Wc.wc stack reads last name) f (fun e f' =>
    if last <? 0 then e = Exits 1 /\ f' = mkFds (fd1 f ++ bytes_of "wc: read error" ++ [10]) (fd2 f)
    else e = Returns /\ f' = mkFds (fd1 f ++ concat (map uitem_text (wc_items (concat reads) name))) (fd2 f)).
Proof.
  intros Hl Hn. unfold Wc.wc. destruct (last <? 0).
  - wp_step. apply wp_message1; [reflexivity|]. by wp_step.
  - rewrite count_reads, count_all by done. cbn [Wc.l Wc.w Wc.c counted]. destruct (counts_bound (concat reads)). wp_step.
    apply (wp_fd1 (wc_items (concat reads) name)); [reflexivity|reflexivity| |by wp_step].
    unfold wc_items. items_ok; cbn; lia || done.
Qed.

(** *** cat *)

Section CatSpec.
Variable write1 : list Z -> Z.
(** write() writes at most what it is given. *)
Context (Hwrite : forall bs, write1 bs <= Z.of_nat (length bs)).

(** The pieces before the first that write() does not write whole, and that
    piece. *)
Fixpoint whole (reads : list (list Z)) : list (list Z) * option (list Z) :=
  match reads with
  | [] => ([], None)
  | r :: reads =>
      if write1 r =? Z.of_nat (length r) then let '(a, b) := whole reads in (r :: a, b) else ([], Some r)
  end.

Lemma cat_writes reads last f :
  wp (cat write1 stack reads last) f (fun e f' =>
    let '(done_, short) := whole reads in
    match short with
    | Some r => e = Exits 1 /\
        f' = mkFds (fd1 f ++ concat done_ ++ take (Z.to_nat (write1 r)) r) (fd2 f ++ bytes_of "cat: write error" ++ [10])
    | None =>
        if last <? 0 then e = Exits 1 /\ f' = mkFds (fd1 f ++ concat done_) (fd2 f ++ bytes_of "cat: read error" ++ [10])
        else e = Returns /\ f' = mkFds (fd1 f ++ concat done_) (fd2 f)
    end).
Proof.
  revert f. induction reads as [|r reads IH]; intros f; cbn [cat whole].
  - destruct (last <? 0); [|wp_step; by rewrite app_nil_r; destruct f]. wp_step. apply wp_message2; [reflexivity|]. wp_step. by rewrite app_nil_r.
  - wp_step. unfold do_write. do 3 wp_step. destruct (Z.eqb_spec (write1 r) (Z.of_nat (length r))) as [E|E]; cbn [negb].
    + eapply wp_mono; [apply IH|]. intros e f'. cbn [fd1 fd2]. rewrite E, Nat2Z.id, firstn_all. destruct (whole reads) as [a b]. cbn [concat].
      destruct b as [b|]; [|destruct (last <? 0)]; intros [-> ->]; by rewrite <-?app_assoc.
    + wp_step. apply wp_message2; [reflexivity|]. by wp_step.
Qed.
End CatSpec.

(** *** ls *)

(** The name after the last slash, padded with blanks to DIRSIZ. *)
Definition pad14 (name : list Z) : list Z := name ++ replicate (Z.to_nat DIRSIZ - length name) 32.

Lemma after_slash_S path k : after_slash path (S k) = if default 0 (path !! k) =? slash then S k else after_slash path k.
Proof. done. Qed.

Lemma after_slash_no name path n : Forall (fun c => c <> slash) name -> (n <= length name)%nat ->
  after_slash (path ++ slash :: name) (S (length path) + n) = S (length path).
Proof.
  intros Hf Hn. induction n as [|n IH].
  - rewrite Nat.add_0_r. cbn [after_slash]. by rewrite lookup_app_r, Nat.sub_diag by done.
  - destruct (lookup_lt_is_Some_2 name n) as [x Hx]; [lia|].
    assert (E : (path ++ slash :: name) !! (S (length path) + n)%nat = Some x).
    { rewrite lookup_app_r by lia. by replace (S (length path) + n - length path)%nat with (S n) by lia. }
    rewrite Nat.add_succ_r, after_slash_S, E. change (default 0 (Some x)) with x. rewrite (proj2 (Z.eqb_neq _ _) (Forall_lookup_1 _ _ _ _ Hf Hx)). apply IH. lia.
Qed.

Lemma fmtname_pads path name : Forall (fun c => c <> slash) name -> fmtname (path ++ slash :: name) = pad14 name.
Proof.
  intros Hf. unfold fmtname. rewrite length_app. cbn [length]. replace (S (length path + S (length name))) with (S (S (length path) + length name)) by lia.
  rewrite after_slash_S, lookup_ge_None_2 by (rewrite length_app; cbn; lia). change (default 0 None =? slash) with false. cbn iota.
  rewrite after_slash_no by done. replace (S (length path)) with (length (path ++ [slash])) by (rewrite length_app; cbn; lia).
  change (slash :: name) with ([slash] ++ name). rewrite app_assoc, drop_app_length. unfold pad14.
  destruct (Z.leb_spec DIRSIZ (Z.of_nat (length name))).
  - replace (Z.to_nat DIRSIZ - length name)%nat with 0%nat by lia. by rewrite app_nil_r.
  - do 2 f_equal. lia.
Qed.

Section LsSpec.
Variable stat : list Z -> option ustat.
Context (Hstat : forall p st, stat p = Some st -> - 2 ^ 31 <= u_type st < 2 ^ 31 /\ - 2 ^ 31 <= u_ino st < 2 ^ 31).

Lemma store_at_mid a m b x : length x = length m -> store_at (length a) x (a ++ m ++ b) = Some (a ++ x ++ b).
Proof.
  intros E. unfold store_at. rewrite !length_app, E. rewrite (proj2 (Nat.leb_le _ _)) by lia.
  rewrite take_app_length, <-drop_drop, drop_app_length, drop_app_length. done.
Qed.

Lemma cstring_nonzero a b : Forall (fun c => c <> 0) a -> cstring (a ++ b) = a ++ cstring b.
Proof. induction 1 as [|c a Hc _ IH]; [done|]. cbn. by rewrite (proj2 (Z.eqb_neq _ _) Hc), IH. Qed.
Lemma cstring_nul a b : cstring (a ++ 0 :: b) = cstring a.
Proof. induction a as [|c a IH]; [done|]. cbn. by rewrite IH. Qed.

(** An entry of the directory [path], as the directory holds it. *)
Definition entry_ok (de : Z * list Z) : Prop :=
  length (snd de) = Z.to_nat DIRSIZ /\ Forall plain (cstring (snd de)) /\ Forall (fun c => c <> slash) (cstring (snd de)).
Definition entry_path (path : list Z) (de : Z * list Z) : list Z := path ++ slash :: cstring (snd de).
Definition stat_items (name : list Z) (st : ustat) (last : uitem) : list uitem :=
  [UString (Some name); sp; UDec (u_type st); sp; UDec (u_ino st); sp; last; nl].
(** What is printed for an entry: nothing for a free one. *)
Definition entry_text (path : list Z) (de : Z * list Z) : list Z :=
  if fst de =? 0 then []
  else match stat (entry_path path de) with
       | None => bytes_of "ls: cannot stat " ++ entry_path path de ++ [10]
       | Some st => concat (map uitem_text (stat_items (pad14 (cstring (snd de))) st (UDec (i32 (u_size st)))))
       end.

Lemma wp_stat_line name st last last_fmt arg f (Q : unit -> fds -> Prop) :
  Forall plain name -> - 2 ^ 31 <= u_type st < 2 ^ 31 -> - 2 ^ 31 <= u_ino st < 2 ^ 31 -> uitem_ok last ->
  last_fmt = bytes_of "%s %d %d " ++ uitem_fmt last -> [arg] = uitem_arg last ->
  Q tt (mkFds (fd1 f ++ concat (map uitem_text (stat_items name st last))) (fd2 f)) ->
  wp (say stack last_fmt [UStr (Some name); UInt (u_type st); UInt (u_ino st); arg]) f Q.
Proof.
  intros Hn Ht Hi Hl -> Ha HQ. unfold say. apply (wp_fd1 (stat_items name st last)); [| |unfold stat_items; items_ok; done|done].
  - unfold stat_items. cbn [map concat uitem_fmt]. rewrite <-app_assoc. reflexivity.
  - unfold stat_items. cbn [map concat uitem_arg]. rewrite <-Ha. reflexivity.
Qed.

Lemma pad14_plain name : Forall plain name -> Forall plain (pad14 name).
Proof. intros H. apply Forall_app. split; [done|]. apply Forall_replicate. by split. Qed.

Lemma plain_nonzero name : Forall plain name -> Forall (fun c => c <> 0) name.
Proof. intros H. eapply list.Forall_impl; [exact H|]. by intros c []. Qed.

(** The two stores of a turn: the name and the NUL after it. *)
Lemma entry_stores path mid x rest name :
  length mid = Z.to_nat DIRSIZ -> length name = Z.to_nat DIRSIZ ->
  exists buf, store_at (S (length path)) name ((path ++ [slash]) ++ mid ++ x :: rest) = Some buf /\
    store_at (S (length path) + Z.to_nat DIRSIZ) [0] buf = Some ((path ++ [slash]) ++ name ++ 0 :: rest).
Proof.
  intros Hm Hl. assert (El : S (length path) = length (path ++ [slash])) by (rewrite length_app; cbn; lia). rewrite El.
  eexists. split; [by apply store_at_mid; rewrite Hl|].
  rewrite <-Hl, <-length_app, app_assoc. rewrite (store_at_mid _ [x] rest [0]) by done. by rewrite <-app_assoc.
Qed.

Lemma entry_cstring path name rest : Forall plain path ->
  cstring ((path ++ [slash]) ++ name ++ 0 :: rest) = path ++ slash :: cstring name.
Proof.
  intros Hp. rewrite cstring_nonzero, cstring_nul, <-app_assoc; [done|]. apply Forall_app. split; [by apply plain_nonzero|by repeat constructor].
Qed.

Lemma wp_ls_entries path des : Forall plain path -> Forall entry_ok des -> forall mid x rest f, length mid = Z.to_nat DIRSIZ ->
  wp (ls_entries stat stack ((path ++ [slash]) ++ mid ++ x :: rest) (S (length path)) des) f (fun _ f' =>
    f' = mkFds (fd1 f ++ concat (map (entry_text path) des)) (fd2 f)).
Proof.
  intros Hp Hd. induction Hd as [|[inum name] des (Hl & Hc & Hs) _ IH]; intros mid x rest f Hm.
  { cbn. rewrite app_nil_r. by destruct f. }
  cbn [ls_entries map concat]. unfold entry_text at 1. cbn [fst snd] in *. destruct (inum =? 0); [by apply IH|].
  destruct (entry_stores path mid x rest name Hm Hl) as (buf & -> & ->). rewrite entry_cstring by done. change (path ++ slash :: cstring name) with (entry_path path (inum, name)).
  wp_step. destruct (stat (entry_path path (inum, name))) as [st|] eqn:Est.
  - destruct (Hstat _ _ Est) as [Ht Hi]. unfold entry_path at 1. cbn [snd]. rewrite fmtname_pads by done.
    apply (wp_stat_line _ st (UDec (i32 (u_size st)))); [by apply pad14_plain|done|done|apply i32_range|reflexivity|reflexivity|].
    eapply wp_mono; [apply IH; done|]. intros [] f' ->. cbn [fd1 fd2]. by rewrite <-app_assoc.
  - unfold say. apply (wp_fd1 (lits (bytes_of "ls: cannot stat ") ++ [UString (Some (entry_path path (inum, name))); nl])).
    + reflexivity.
    + reflexivity.
    + apply Forall_app. split; [by apply lits_ok|]. items_ok. apply Forall_app. split; [done|]. by constructor.
    + rewrite map_app, concat_app, (proj2 (proj2 (lits_fmt _))). eapply wp_mono; [apply IH; done|]. intros [] f' ->. cbn [fd1 fd2].
      cbn [map concat uitem_text default nl]. by rewrite !app_nil_r, <-!app_assoc.
Qed.

(** C38: ls() prints a line for every entry in use of a directory, in the
    order of the directory: its name padded to 14 characters with the type,
    inode number and size that stat() gives for the path of the entry, or that
    stat() fails; and the stores into its 512-byte path buffer stay inside for
    every path that passes its length test.  A longer path is refused. *)
Theorem ls_lists path des st buf f :
  Forall plain path -> Forall entry_ok des -> length buf = 512%nat -> u_type st = T_DIR ->
  wp (ls stat stack buf path true (Some st) des) f (fun _ f' =>
    f' = mkFds (fd1 f ++ if 512 <? Z.of_nat (length path) + 16 then bytes_of "ls: path too long" ++ [10]
                         else concat (map (entry_text path) des)) (fd2 f)).
Proof.
  intros Hp Hd Hb Ht. unfold ls. rewrite Ht. cbn [negb]. change ((T_DIR =? T_DEVICE) || (T_DIR =? T_FILE)) with false. change (T_DIR =? T_DIR) with true. cbn iota.
  replace (Z.of_nat (length path) + 1 + DIRSIZ + 1) with (Z.of_nat (length path) + 16) by (unfold DIRSIZ; lia).
  destruct (Z.ltb_spec 512 (Z.of_nat (length path) + 16)) as [Hlong|Hshort]; [by apply wp_message1|].
  assert (E1 : store_at 0 (path ++ [0]) buf = Some (path ++ [0] ++ drop (S (length path)) buf)).
  { unfold store_at. rewrite length_app. cbn [length]. rewrite (proj2 (Nat.leb_le _ _)) by lia. cbn [take app]. by rewrite <-app_assoc, Nat.add_0_l, Nat.add_1_r. }
  rewrite E1, store_at_mid by done. pose proof (length_drop buf (S (length path))) as Hr. set (r := drop _ _) in *.
  destruct (drop 14 r) as [|x rest] eqn:Ed; [apply (f_equal length) in Ed; rewrite length_drop in Ed; cbn in Ed; lia|].
  rewrite <-(take_drop 14 r), Ed, app_assoc. apply wp_ls_entries; [done|done|]. rewrite length_take. change (Z.to_nat DIRSIZ) with 14%nat. lia.
Qed.
End LsSpec.
End Output.

(** "a b\nc" in two pieces. *)
Lemma wc_counts_witness :
  Wc.wc (replicate 16 0) [[97; 32]; [98; 10; 99]] 0 [120] (mkFds [] []) = Ok Returns (mkFds (bytes_of "1 3 5 x" ++ [10]) []) /\
  wp (Wc.wc (replicate 16 0) [[97; 32]; [98; 10; 99]] 0 [120]) (mkFds [] []) (fun e f' =>
    e = Returns /\ f' = mkFds (concat (map uitem_text (wc_items [97; 32; 98; 10; 99] [120]))) []).
Proof.
  split; [vm_compute; reflexivity|].
  apply (wc_counts (replicate 16 0) eq_refl [[97; 32]; [98; 10; 99]] 0 [120] (mkFds [] [])); [cbn; lia|by repeat constructor].
Defined.

(** [ls d] with a file [a], a free entry and an entry that stat() refuses. *)
Module LsDemo.
Definition name14 (n : list Z) : list Z := n ++ replicate (14 - length n) 0.
Definition dir : list (Z * list Z) := [(5, name14 [97]); (0, name14 [120]); (6, name14 [98])].
Definition stat (p : list Z) : option ustat := if decide (p = [100; 47; 97]) then Some (mkStat T_FILE 5 70) else None.

Lemma ls_lists_witness :
  ls stat (replicate 16 0) (replicate 512 7) [100] true (Some (mkStat T_DIR 1 48)) dir (mkFds [] []) =
    Ok tt (mkFds (bytes_of "a              2 5 70" ++ [10] ++ bytes_of "ls: cannot stat d/b" ++ [10]) []) /\
  wp (ls stat (replicate 16 0) (replicate 512 7) [100] true (Some (mkStat T_DIR 1 48)) dir) (mkFds [] []) (fun _ f' =>
    f' = mkFds (concat (map (entry_text stat [100]) dir)) []).
Proof.
  split; [vm_compute; reflexivity|].
  apply (ls_lists (replicate 16 0) eq_refl stat ltac:(intros p st; unfold stat; case_decide; [intros [= <-]; cbn [u_type u_ino]; unfold T_FILE; lia|done])
    [100] dir (mkStat T_DIR 1 48) (replicate 512 7) (mkFds [] [])); [by repeat constructor| |reflexivity|reflexivity].
  repeat first [apply Forall_nil_2|apply Forall_cons_2]; split_and!; try done; by repeat constructor.
Defined.
End LsDemo.
