(* ===== verification/ShLex.v ===== *)
(** * The tokens of a command line

    [toks buf ps l]: from offset [ps] on, gettoken() and peek() see the tokens
    [l]; a word token comes with its string.  [render] writes tokens out, and
    [toks_render] is that they are read back.  ShFacts.v uses it for the
    parser. *)

From S2P Require Import Prelude Sysfile Sh.

(** ** Characters *)

Definition wordchar (c : Z) : bool := negb (c =? 0) && negb (strchr whitespace c) && negb (strchr symbols c).

Lemma strchr_in set c : strchr set c = true <-> c ∈ set.
Proof.
  unfold strchr. rewrite existsb_exists. split.
  - intros (x & Hx & ->%Z.eqb_eq). by apply list_elem_of_In.
  - intros Hc. exists c. split; [by apply list_elem_of_In|apply Z.eqb_refl].
Qed.

Lemma wordchar_spec c : wordchar c = true <-> c <> 0 /\ strchr whitespace c = false /\ strchr symbols c = false.
Proof. unfold wordchar. rewrite !andb_true_iff, !negb_true_iff, Z.eqb_neq. tauto. Qed.

Lemma not_ws_symbol c : c ∈ symbols -> negb (strchr whitespace c) = true /\ c <> 0 /\ c <> ch_a /\ c <> ch_plus.
Proof. unfold symbols. intros H. repeat (apply elem_of_cons in H as [->|H]; [done|]). by apply elem_of_nil in H. Qed.

Section Lex.
Variable buf : list Z.
Notation es := (es buf).
Notation chr := (chr buf).
Notation skip := (skip buf).
Notation skip_ws := (skip_ws buf).
Notation skip_word := (skip_word buf).
Notation gettoken := (gettoken buf).
Notation peek := (peek buf).

Lemma run_from_app stop a b s :
  Forall (fun c => stop c = false) a -> match b with c :: _ => stop c = true | [] => True end ->
  run_from stop (a ++ b) s = (s + length a)%nat.
Proof.
  intros Ha Hb. revert s. induction Ha as [|c a Hc Ha IH]; intros s; cbn.
  - destruct b; cbn; [|rewrite Hb]; lia.
  - rewrite Hc, IH. lia.
Qed.

Lemma run_from_split stop l s :
  exists a b, l = a ++ b /\ Forall (fun c => stop c = false) a /\
    match b with c :: _ => stop c = true | [] => True end /\ run_from stop l s = (s + length a)%nat.
Proof.
  revert s. induction l as [|c l IH]; intros s; [exists [], []; split_and!; [done|constructor|done|cbn; lia]|].
  cbn. destruct (stop c) eqn:Hc; [exists [], (c :: l); split_and!; [done|constructor|done|cbn; lia]|].
  destruct (IH (S s)) as (a & b & -> & Ha & Hb & ->). exists (c :: a), b. split_and!; [done|by constructor|done|cbn; lia].
Qed.

Lemma chr_drop s c r : drop s buf = c :: r -> chr s = c.
Proof. intros E. unfold Sh.chr. rewrite <-(Nat.add_0_r s), <-lookup_drop, E. done. Qed.

(** Where a scan stops. *)
Lemma skip_range stop s : (s <= es)%nat -> (s <= skip stop s <= es)%nat.
Proof.
  intros Hs. unfold Sh.skip. destruct (run_from_split stop (drop s buf) s) as (a & b & E & _ & _ & ->).
  apply (f_equal length) in E. rewrite length_drop, length_app in E. unfold Sh.es in *. lia.
Qed.

Lemma skip_stop stop s : (s <= es)%nat -> skip stop s = es \/ ((skip stop s < es)%nat /\ stop (chr (skip stop s)) = true).
Proof.
  intros Hs. unfold Sh.skip. destruct (run_from_split stop (drop s buf) s) as (a & b & E & _ & Hb & ->).
  pose proof (f_equal length E) as El. rewrite length_drop, length_app in El. unfold Sh.es in *.
  destruct b as [|c b]; cbn in El; [left; lia|right]. split; [lia|].
  rewrite (chr_drop _ c b); [done|]. rewrite <-drop_drop, E, drop_app_length. done.
Qed.

Lemma skip_idem stop s : (s <= es)%nat -> skip stop (skip stop s) = skip stop s.
Proof.
  intros Hs. pose proof (skip_range stop s Hs). destruct (skip_stop stop s Hs) as [E|[Hlt Hst]].
  - rewrite E. unfold Sh.skip. by rewrite drop_ge by done.
  - unfold Sh.skip at 1. destruct (drop (skip stop s) buf) as [|c r] eqn:E; [done|].
    rewrite (chr_drop _ _ _ E) in Hst. cbn. by rewrite Hst.
Qed.

Lemma skip_prefix stop pre a b :
  buf = pre ++ a ++ b -> Forall (fun c => stop c = false) a -> match b with c :: _ => stop c = true | [] => True end ->
  skip stop (length pre) = (length pre + length a)%nat.
Proof. intros E Ha Hb. unfold Sh.skip. rewrite E, drop_app_length. by apply run_from_app. Qed.

Lemma skip_ws_idem s : (s <= es)%nat -> skip_ws (skip_ws s) = skip_ws s.
Proof. apply skip_idem. Qed.
Lemma skip_ws_range s : (s <= es)%nat -> (s <= skip_ws s <= es)%nat.
Proof. apply skip_range. Qed.
Lemma skip_word_range s : (s <= es)%nat -> (s <= skip_word s <= es)%nat.
Proof. apply skip_range. Qed.

Lemma chr_es : chr es = 0.
Proof. unfold Sh.chr, Sh.es. by rewrite lookup_ge_None_2 by lia. Qed.

Lemma gettoken_ws s : (s <= es)%nat -> gettoken (skip_ws s) = gettoken s.
Proof. intros Hs. unfold Sh.gettoken. by rewrite skip_ws_idem. Qed.
Lemma peek_ws s set : (s <= es)%nat -> peek (skip_ws s) set = peek s set.
Proof. intros Hs. unfold Sh.peek. by rewrite skip_ws_idem. Qed.

(** ** Tokens *)

(** gettoken()'s result, and the string of a word. *)
Definition token : Type := Z * list Z.

(** The word [w] lies between two offsets. *)
Record word_at (q eq : nat) (w : list Z) : Prop := {
  wa_text : exists pre post, buf = pre ++ w ++ post /\ length pre = q /\ match post with c :: _ => wordchar c = false | [] => True end;
  wa_end : eq = (q + length w)%nat;
  wa_chars : Forall (fun c => wordchar c = true) w
}.

Definition tok_at (c t : Z) (q eq : nat) (w : list Z) : Prop :=
  (t = ch_a /\ strchr symbols c = false /\ word_at q eq w) \/
  (t = ch_plus /\ c = ch_gt /\ w = []) \/
  (t ∈ symbols /\ c = t /\ w = []).

Inductive toks : nat -> list token -> Prop :=
| toks_nil ps : (ps <= es)%nat -> skip_ws ps = es -> toks ps []
| toks_cons ps t w q eq ps' l :
    (ps <= es)%nat -> gettoken ps = (t, q, eq, ps') -> chr (skip_ws ps) <> 0 -> tok_at (chr (skip_ws ps)) t q eq w ->
    toks ps' l -> toks ps ((t, w) :: l).

Lemma toks_le ps l : toks ps l -> (ps <= es)%nat.
Proof. by destruct 1. Qed.

Lemma toks_ws ps l : toks ps l -> toks (skip_ws ps) l.
Proof.
  intros Hl. pose proof (skip_ws_range ps (toks_le _ _ Hl)). destruct Hl.
  - apply toks_nil; [lia|]. by rewrite skip_ws_idem.
  - econstructor; eauto; rewrite ?skip_ws_idem, ?gettoken_ws by done; eauto. lia.
Qed.

(** What peek() tests of the first token. *)
Definition tok_in (set : list Z) (l : list token) : bool :=
  match l with
  | [] => false
  | (t, _) :: _ => if t =? ch_plus then strchr set ch_gt else if t =? ch_a then false else strchr set t
  end.

Lemma peek_toks set ps l :
  toks ps l -> Forall (fun c => c ∈ symbols) set ->
  peek ps set = (tok_in set l, skip_ws ps) /\ toks (skip_ws ps) l.
Proof.
  intros Hl Hset. split; [|by apply toks_ws]. unfold Sh.peek. f_equal. destruct Hl as [ps Hps E|ps t w q eq ps' l Hps Hg Hc Ht Hl].
  - by rewrite E, chr_es.
  - rewrite (proj2 (Z.eqb_neq _ _) Hc). cbn [negb andb tok_in].
    destruct Ht as [(-> & Hs & _)|[(-> & -> & _)|(Hs & -> & _)]]; cbn.
    + apply not_true_iff_false. rewrite strchr_in. intros Hin. rewrite list.Forall_forall in Hset.
      apply Hset, strchr_in in Hin. congruence.
    + done.
    + destruct (not_ws_symbol t Hs) as (_ & _ & H2 & H1).
      by rewrite (proj2 (Z.eqb_neq _ _) H1), (proj2 (Z.eqb_neq _ _) H2).
Qed.

Lemma gettoken_toks ps t w l :
  toks ps ((t, w) :: l) -> exists q eq ps', gettoken ps = (t, q, eq, ps') /\ toks ps' l /\ (t = ch_a -> word_at q eq w).
Proof.
  inversion 1 as [|? ? ? q eq ps' ? Hps Hg Hc Ht Hl]; subst. exists q, eq, ps'. split_and!; try done.
  intros ->. destruct Ht as [(_ & _ & ?)|[(? & _)|(Hs & _)]]; [done|done|]. by destruct (not_ws_symbol _ Hs) as (_ & _ & ? & _).
Qed.

Lemma gettoken_end ps : toks ps [] -> gettoken ps = (0, es, es, es).
Proof.
  inversion 1 as [? Hps E|]; subst. unfold Sh.gettoken. rewrite E, chr_es. cbn. f_equal. rewrite <-E. by apply skip_ws_idem.
Qed.

(** ** Writing tokens out *)

Definition tok_text (t : token) : list Z :=
  if fst t =? ch_a then snd t else if fst t =? ch_plus then [ch_gt; ch_gt] else [fst t].
Definition render (l : list token) : list Z := concat (map (fun t => 32 :: tok_text t) l).
Definition token_ok (t : token) : Prop :=
  (fst t = ch_a /\ snd t <> [] /\ Forall (fun c => wordchar c = true) (snd t)) \/
  (fst t = ch_plus /\ snd t = []) \/ (fst t ∈ symbols /\ snd t = []).

(** What may follow a token: nothing, or a whitespace character. *)
Definition ws_head (r : list Z) : Prop := match r with c :: _ => c ∈ whitespace | [] => True end.
Definition blank (r : list Z) : Prop := Forall (fun c => c ∈ whitespace) r.

Lemma render_head l sfx : blank sfx -> ws_head (render l ++ sfx).
Proof. destruct l; cbn; [destruct 1; done|set_solver]. Qed.

Lemma ws_not_word c : c ∈ whitespace -> strchr whitespace c = true /\ wordchar c = false /\ c <> ch_gt.
Proof. unfold whitespace. intros H. repeat (apply elem_of_cons in H as [->|H]; [done|]). by apply elem_of_nil in H. Qed.

Lemma ws_stops r : ws_head r -> match r with c :: _ => wordchar c = false | [] => True end.
Proof. destruct r as [|c r]; [done|]. apply ws_not_word. Qed.

(** The text of a token after a space, and what follows it. *)
Lemma skip_space pre t r :
  token_ok t -> buf = pre ++ 32 :: tok_text t ++ r -> skip_ws (length pre) = S (length pre).
Proof.
  intros Ht E. assert (Hh : exists c x, tok_text t = c :: x /\ negb (strchr whitespace c) = true).
  { destruct t as [t w]. destruct Ht as [(H1 & H2 & H3)|[(H1 & H2)|(H1 & H2)]]; cbn [fst snd] in *; subst; unfold tok_text; cbn [fst snd].
    - destruct w as [|c w]; [done|]. inversion H3 as [|? ? Hc]; subst. apply wordchar_spec in Hc as (_ & Hc & _). exists c, w. by rewrite Hc.
    - by eexists _, _.
    - destruct (not_ws_symbol t H1) as (Hw & _ & Ha & Hp). rewrite (proj2 (Z.eqb_neq _ _) Ha), (proj2 (Z.eqb_neq _ _) Hp). by eexists _, _. }
  destruct Hh as (c & x & E' & Hc). rewrite E' in E. unfold Sh.skip_ws.
  rewrite (skip_prefix _ pre [32%Z] (c :: x ++ r)); [cbn; lia|done|by repeat constructor|done].
Qed.

Lemma chr_at pre c r : buf = pre ++ c :: r -> chr (length pre) = c.
Proof. intros ->. unfold Sh.chr. by rewrite lookup_app_r, Nat.sub_diag by done. Qed.

Lemma gettoken_render pre t rest :
  token_ok t -> ws_head rest -> buf = pre ++ 32%Z :: tok_text t ++ rest ->
  exists q eq, gettoken (length pre) = (fst t, q, eq, skip_ws (length (pre ++ 32%Z :: tok_text t))) /\
    chr (S (length pre)) <> 0 /\ tok_at (chr (S (length pre))) (fst t) q eq (snd t).
Proof.
  intros Ht Hrest E. unfold Sh.gettoken. rewrite (skip_space pre t rest Ht E).
  assert (E2 : buf = (pre ++ [32%Z]) ++ tok_text t ++ rest) by (by rewrite <-app_assoc).
  assert (Hlen : S (length pre) = length (pre ++ [32%Z])) by (rewrite length_app; cbn; lia). rewrite Hlen.
  assert (Hl' : length (pre ++ 32%Z :: tok_text t) = (length (pre ++ [32%Z]) + length (tok_text t))%nat).
  { rewrite !length_app. cbn. lia. }
  rewrite Hl'. destruct t as [t w]. destruct Ht as [(H1 & H2 & H3)|[(H1 & H2)|(H1 & H2)]]; cbn [fst snd] in *; try subst t; try subst w;
    unfold tok_text in *; cbn [fst snd] in *.
  - change (ch_a =? ch_a) with true in *. cbn iota in *. destruct w as [|c w]; [done|]. cbn [app] in E2.
    rewrite (chr_at _ _ _ E2). pose proof H3 as H3'. inversion H3' as [|? ? Hc Hw]; subst. apply wordchar_spec in Hc as (Hc0 & Hcw & Hcs).
    rewrite (proj2 (Z.eqb_neq _ _) Hc0). assert (Hns : forall x, x ∈ symbols -> (c =? x) = false).
    { intros x Hx. apply Z.eqb_neq. intros ->. apply strchr_in in Hx. congruence. }
    rewrite !Hns by (unfold symbols; set_solver). cbn [orb].
    assert (Hsk : skip_word (length (pre ++ [32%Z])) = (length (pre ++ [32%Z]) + length (c :: w))%nat).
    { unfold Sh.skip_word. apply (skip_prefix _ _ _ rest); [done| |].
      - eapply list.Forall_impl; [exact H3|]. intros x (_ & -> & ->)%wordchar_spec. done.
      - destruct rest as [|r rest]; [done|]. by destruct (ws_not_word r Hrest) as [-> _]. }
    rewrite Hsk. eexists _, _. split; [done|]. split; [done|]. left. split_and!; [done|done|]. split; [|done|done].
    exists (pre ++ [32%Z]), rest. split_and!; [done|done|by apply ws_stops].
  - change (ch_plus =? ch_a) with false in *. change (ch_plus =? ch_plus) with true in *. cbn iota in *. cbn [app] in E2.
    rewrite (chr_at _ _ _ E2). assert (E3 : buf = (pre ++ [32%Z; ch_gt]) ++ ch_gt :: rest) by (by rewrite <-app_assoc).
    assert (Hl2 : S (length (pre ++ [32%Z])) = length (pre ++ [32%Z; ch_gt])) by (rewrite !length_app; cbn; lia).
    cbn. rewrite Hl2, (chr_at _ _ _ E3). cbn. eexists _, _. rewrite <-Hl2. replace (length (pre ++ [32%Z]) + 2)%nat with (S (S (length (pre ++ [32%Z])))) by lia.
    split; [done|]. split; [done|]. right; left. done.
  - destruct (not_ws_symbol t H1) as (Hw & H0 & Ha & Hp).
    rewrite (proj2 (Z.eqb_neq _ _) Ha), (proj2 (Z.eqb_neq _ _) Hp) in *. cbn [app] in E2. rewrite (chr_at _ _ _ E2), (proj2 (Z.eqb_neq _ _) H0).
    cbn [length]. rewrite Nat.add_1_r. destruct (decide (t = ch_gt)) as [->|Hgt].
    + cbn. assert (chr (S (length (pre ++ [32%Z]))) <> ch_gt) as Hn.
      { assert (E3 : buf = (pre ++ [32%Z; ch_gt]) ++ rest) by (by rewrite <-app_assoc).
        assert (Hl2 : S (length (pre ++ [32%Z])) = length (pre ++ [32%Z; ch_gt])) by (rewrite !length_app; cbn; lia). rewrite Hl2.
        destruct rest as [|c r]; [|rewrite (chr_at _ _ _ E3); by apply ws_not_word].
        assert (length (pre ++ [32%Z; ch_gt]) = es) as -> by (unfold Sh.es; by rewrite E3, app_nil_r). by rewrite chr_es. }
      rewrite (proj2 (Z.eqb_neq _ _) Hn). eexists _, _. split; [done|]. split; [done|]. by right; right.
    + assert (Hor : ((t =? ch_bar) || (t =? ch_lp) || (t =? ch_rp) || (t =? ch_semi) || (t =? ch_amp) || (t =? ch_lt)) = true).
      { clear -H1 Hgt. unfold symbols in H1. repeat (apply elem_of_cons in H1 as [->|H1]; [done|]). by apply elem_of_nil in H1. }
      rewrite Hor. eexists _, _. split; [done|]. split; [done|]. by right; right.
Qed.

Lemma toks_render pre l sfx : Forall token_ok l -> blank sfx -> buf = pre ++ render l ++ sfx -> toks (length pre) l.
Proof.
  intros Hl Hsfx. revert pre. induction l as [|t l IH]; intros pre E.
  - cbn in E. assert (He : es = (length pre + length sfx)%nat) by (unfold Sh.es; by rewrite E, length_app).
    apply toks_nil; [lia|]. unfold Sh.skip_ws.
    rewrite (skip_prefix _ pre sfx []); [done|by rewrite app_nil_r| |done].
    eapply list.Forall_impl; [exact Hsfx|]. intros c Hc. by destruct (ws_not_word c Hc) as [-> _].
  - inversion Hl as [|? ? Ht Hl']; subst. unfold render in E. cbn [map concat] in E. fold (render l) in E. rewrite <-!app_comm_cons, <-app_assoc in E.
    assert (E' : buf = (pre ++ 32%Z :: tok_text t) ++ render l ++ sfx) by (by rewrite <-app_assoc).
    destruct (gettoken_render pre t _ Ht (render_head l sfx Hsfx) E) as (q & eq & Hg & Hc & Hta). destruct t as [t w]; cbn [fst snd] in *.
    pose proof (skip_space pre (t, w) _ Ht E) as Hsk.
    eapply toks_cons; [|exact Hg|by rewrite Hsk|by rewrite Hsk|by apply toks_ws, IH].
    unfold Sh.es. rewrite E, length_app. lia.
Qed.

End Lex.
