(* ===== verification/ShFacts.v ===== *)
(** * The shell's parser is right

    [print] writes a command the way a user would type it; the parser reads
    it back to the same command, strings included, and the parser terminates
    on every line. *)

From S2P Require Import Prelude Sysfile Sh ShLex.

(** ** Writing a command *)

Definition sredir : Type := list Z * Z * Z.
Definition redir_toks (r : sredir) : list token :=
  let '(f, mode, _) := r in
  [(if mode =? O_RDONLY then ch_lt else if Z.land mode O_TRUNC =? 0 then ch_plus else ch_gt, []); (ch_a, f)].
Definition word_toks (ws : list (list Z)) : list token := map (fun w => (ch_a, w)) ws.
Definition sym (c : Z) : token := (c, []).
Definition parens (b : bool) (l : list token) : list token := if b then sym ch_lp :: l ++ [sym ch_rp] else l.

(** The tokens of a command at one of the levels of the grammar: 0 for what
    parseexec() reads, 1 for parsepipe(), 2 for a command before [;], 3 for
    parseline(). *)
Fixpoint tks (k : nat) (c : cmd (list Z)) : list token :=
  match c with
  | EXEC argv => word_toks argv
  | REDIR c f mode fd => tks 0 c ++ redir_toks (f, mode, fd)
  | PIPE l r => parens (k <? 1)%nat (tks 0 l ++ sym ch_bar :: tks 1 r)
  | BACK c => parens (k <? 2)%nat (tks 2 c ++ [sym ch_amp])
  | LIST l r => parens (k <? 3)%nat (tks 2 l ++ sym ch_semi :: tks 3 r)
  end.
Definition print (c : cmd (list Z)) : list Z := render (tks 3 c).

Definition word_ok (w : list Z) : Prop := w <> [] /\ Forall (fun c => wordchar c = true) w.
Definition redir_ok (mode fd : Z) : Prop :=
  (mode = O_RDONLY /\ fd = 0) \/ (mode = Z.lor (Z.lor O_WRONLY O_CREATE) O_TRUNC /\ fd = 1) \/ (mode = Z.lor O_WRONLY O_CREATE /\ fd = 1).
(** The commands that can be written. *)
Fixpoint cmd_ok (c : cmd (list Z)) : Prop :=
  match c with
  | EXEC argv => Forall word_ok argv /\ Z.of_nat (length argv) < MAXARGS
  | REDIR c f mode fd => cmd_ok c /\ word_ok f /\ redir_ok mode fd
  | PIPE l r | LIST l r => cmd_ok l /\ cmd_ok r
  | BACK c => cmd_ok c
  end.

Lemma sym_ok c : c ∈ symbols -> token_ok (sym c).
Proof. right; right. done. Qed.
Lemma word_toks_ok ws : Forall word_ok ws -> Forall token_ok (word_toks ws).
Proof. intros H. apply List.Forall_map. eapply list.Forall_impl; [exact H|]. intros w []. by left. Qed.
Lemma redir_toks_ok f mode fd : word_ok f -> redir_ok mode fd -> Forall token_ok (redir_toks (f, mode, fd)).
Proof.
  intros [H1 H2] Hr. constructor; [|constructor; [by left|constructor]].
  destruct Hr as [[-> ->]|[[-> ->]|[-> ->]]]; [right; right; cbn; set_solver|right; right; cbn; set_solver|right; left; done].
Qed.

Lemma tks_ok c k : cmd_ok c -> Forall token_ok (tks k c).
Proof.
  assert (Hp : forall b l, Forall token_ok l -> Forall token_ok (parens b l)).
  { intros b l Hl. destruct b; [|exact Hl]. constructor; [by apply sym_ok; unfold symbols; set_solver|]. apply Forall_app. split; [done|].
    constructor; [apply sym_ok; unfold symbols; set_solver|constructor]. }
  revert k. induction c; intros k Hc; cbn [tks cmd_ok] in *; [apply word_toks_ok, Hc|apply Forall_app; split|apply Hp, Forall_app; split..].
  - apply IHc, Hc.
  - apply redir_toks_ok; apply Hc.
  - apply IHc1, Hc.
  - constructor; [by apply sym_ok; unfold symbols; set_solver|apply IHc2, Hc].
  - apply IHc1, Hc.
  - constructor; [by apply sym_ok; unfold symbols; set_solver|apply IHc2, Hc].
  - apply IHc, Hc.
  - constructor; [by apply sym_ok; unfold symbols; set_solver|constructor].
Qed.

(** ** What the parser reads *)

Definition add_sredirs (c : cmd (list Z)) (rs : list sredir) : cmd (list Z) :=
  fold_left (fun c r => let '(f, mode, fd) := r in REDIR c f mode fd) rs c.

(** Redirections around a base that is a command with arguments, or is
    written in parentheses. *)
Definition base_toks (b : cmd (list Z)) : list token :=
  match b with EXEC argv => word_toks argv | _ => parens true (tks 3 b) end.
Definition is_redir {A} (c : cmd A) : bool := match c with REDIR _ _ _ _ => true | _ => false end.

Fixpoint csize (c : cmd (list Z)) : nat :=
  match c with
  | EXEC _ => 1
  | REDIR c _ _ _ | BACK c => S (csize c)
  | PIPE l r | LIST l r => S (csize l + csize r)
  end.

Lemma redirs_split c : cmd_ok c ->
  exists b rs, c = add_sredirs b rs /\ tks 0 c = base_toks b ++ concat (map redir_toks rs) /\
    is_redir b = false /\ cmd_ok b /\ (csize b + length rs = csize c)%nat /\
    Forall (fun r => word_ok (fst (fst r)) /\ redir_ok (snd (fst r)) (snd r)) rs.
Proof.
  induction c as [argv|c IH f mode fd|l _ r _|l _ r _|c _]; cbn [tks cmd_ok]; intros Hc;
    try (eexists _, []; cbn; rewrite ?app_nil_r; split_and!; try done; lia).
  destruct Hc as (Hc & Hf & Hr). destruct (IH Hc) as (b & rs & -> & E & Hb1 & Hb2 & Hs & Hrs).
  exists b, (rs ++ [(f, mode, fd)]).
  assert (add_sredirs b (rs ++ [(f, mode, fd)]) = REDIR (add_sredirs b rs) f mode fd) as -> by (unfold add_sredirs; by rewrite fold_left_app).
  rewrite map_app, concat_app, length_app, E, <-app_assoc. split_and!; try done; [cbn [csize length]; lia|].
  apply Forall_app. split; [done|]. constructor; [done|constructor].
Qed.

Section Parse.
Variable buf : list Z.
Notation toks := (toks buf).
Notation word_at := (word_at buf).

(** The tree with pointers shows the tree with strings. *)
Inductive shows : cmd ptr -> cmd (list Z) -> Prop :=
| sh_exec av ws : Forall2 (fun p w => word_at (fst p) (snd p) w) av ws -> shows (EXEC av) (EXEC ws)
| sh_redir c' c p w mode fd : shows c' c -> word_at (fst p) (snd p) w -> shows (REDIR c' p mode fd) (REDIR c w mode fd)
| sh_pipe l' l r' r : shows l' l -> shows r' r -> shows (PIPE l' r') (PIPE l r)
| sh_list l' l r' r : shows l' l -> shows r' r -> shows (LIST l' r') (LIST l r)
| sh_back c' c : shows c' c -> shows (BACK c') (BACK c).

Definition redir_shows (r' : redir) (r : sredir) : Prop :=
  let '(p, m', fd') := r' in let '(w, m, fd) := r in word_at (fst p) (snd p) w /\ m' = m /\ fd' = fd.

Lemma shows_redirs c' c rs' rs : shows c' c -> Forall2 redir_shows rs' rs -> shows (add_redirs c' rs') (add_sredirs c rs).
Proof.
  intros Hc Hr. revert c' c Hc. induction Hr as [|[[p m'] fd'] [[w m] fd] rs' rs (Hw & -> & ->) Hr IH]; intros c' c Hc; [done|].
  cbn. apply IH. by constructor.
Qed.

(** Tokens that may follow a command. *)
Definition follow (set : list Z) (l : list token) : Prop := match l with [] => True | (t, _) :: _ => t ∈ set end.

Lemma follow_tok_in set set' l :
  follow set l -> Forall (fun c => negb (strchr set' c) && negb (c =? ch_a) && negb (c =? ch_plus) = true) set -> tok_in set' l = false.
Proof.
  destruct l as [|[t w] l]; [done|]. cbn. intros Ht Hset. rewrite list.Forall_forall in Hset. apply Hset in Ht.
  bool_simpl. rewrite (proj2 (Z.eqb_neq t ch_a)), (proj2 (Z.eqb_neq t ch_plus)) by done. done.
Qed.

Lemma redirs_follow rs l set :
  Forall (fun r => word_ok (fst (fst r)) /\ redir_ok (snd (fst r)) (snd r)) rs -> strchr set ch_lt = false -> strchr set ch_gt = false ->
  tok_in set l = false -> tok_in set (concat (map redir_toks rs) ++ l) = false.
Proof.
  intros Hrs Hlt Hgt Hl. destruct rs as [|[[f m] fd] rs]; [done|]. inversion Hrs as [|? ? [_ Hr] _]; subst. cbn in *.
  destruct Hr as [[-> ->]|[[-> ->]|[-> ->]]]; cbn; done.
Qed.

Ltac sub := repeat constructor; unfold symbols; set_solver.

Lemma parseredirs_ok rs : forall fuel ps l,
  Forall (fun r => word_ok (fst (fst r)) /\ redir_ok (snd (fst r)) (snd r)) rs ->
  toks ps (concat (map redir_toks rs) ++ l) -> tok_in [ch_lt; ch_gt] l = false -> (length rs < fuel)%nat ->
  exists rs' ps', parseredirs buf fuel ps = POk rs' ps' /\ toks ps' l /\ Forall2 redir_shows rs' rs.
Proof.
  induction rs as [|[[f m] fd] rs IH]; intros fuel ps l Hrs Ht Hl Hf; destruct fuel as [|fuel]; try (cbn in Hf; lia); cbn [parseredirs].
  - destruct (peek_toks buf [ch_lt; ch_gt] ps l Ht) as [-> Ht']; [sub|]. rewrite Hl. by eexists _, _.
  - inversion Hrs as [|? ? [_ Hr] Hrs']; subst. cbn [fst snd] in Hr. cbn [map concat redir_toks app] in Ht.
    destruct (peek_toks buf [ch_lt; ch_gt] ps _ Ht) as [-> Ht']; [sub|].
    destruct (gettoken_toks buf _ _ _ _ Ht') as (q1 & e1 & ps1 & -> & Ht1 & _).
    destruct (gettoken_toks buf _ _ _ _ Ht1) as (q2 & e2 & ps2 & -> & Ht2 & Hw). specialize (Hw eq_refl).
    destruct (IH fuel ps2 l Hrs' Ht2 Hl) as (rs' & ps' & -> & Ht3 & Hs); [cbn in Hf; lia|].
    destruct Hr as [[-> ->]|[[-> ->]|[-> ->]]]; cbn; eexists _, ps'; (split; [done|]; split; [done|]; constructor; [done|exact Hs]).
Qed.

Lemma parseargs_ok ws : forall fuel argv rs0 ps rs l,
  Forall (fun r => word_ok (fst (fst r)) /\ redir_ok (snd (fst r)) (snd r)) rs ->
  (ws = [] -> rs = []) -> Z.of_nat (length argv + length ws) < MAXARGS ->
  toks ps (word_toks ws ++ concat (map redir_toks rs) ++ l) -> follow [ch_bar; ch_rp; ch_amp; ch_semi] l ->
  (length ws + length rs + 1 < fuel)%nat ->
  exists av rs' ps', parseargs buf fuel argv rs0 ps = POk (argv ++ av, rs0 ++ rs') ps' /\ toks ps' l /\
    Forall2 (fun p w => word_at (fst p) (snd p) w) av ws /\ Forall2 redir_shows rs' rs.
Proof.
  induction ws as [|w ws IH]; intros fuel argv rs0 ps rs l Hrs Hnil Hlen Ht Hl Hf; destruct fuel as [|fuel]; try lia; cbn [parseargs].
  - rewrite (Hnil eq_refl) in *. cbn [word_toks map concat app] in Ht.
    destruct (peek_toks buf [ch_bar; ch_rp; ch_amp; ch_semi] ps l Ht) as [-> Ht']; [sub|].
    exists [], []. rewrite !app_nil_r. destruct l as [|[t w] l].
    + cbn. rewrite (gettoken_end buf _ Ht'). cbn. eexists. split; [done|]. split; [|by split].
      apply toks_nil; [done|]. unfold skip_ws, skip. by rewrite drop_ge by done.
    + destruct (tok_in _ _) eqn:Et; [eexists; split; [done|]; by split|]. exfalso. revert Et. cbn in Hl |- *.
      repeat (apply elem_of_cons in Hl as [->|Hl]; [done|]). by apply elem_of_nil in Hl.
  - cbn [word_toks map app] in Ht.
    destruct (peek_toks buf [ch_bar; ch_rp; ch_amp; ch_semi] ps _ Ht) as [-> Ht']; [sub|]. cbn [tok_in]. cbn [Z.eqb ch_a ch_plus Pos.eqb].
    destruct (gettoken_toks buf _ _ _ _ Ht') as (q & e & ps1 & -> & Ht1 & Hw). specialize (Hw eq_refl). cbn [Z.eqb ch_a Pos.eqb negb].
    rewrite length_app. cbn [length] in *. rewrite (proj2 (Z.leb_gt _ _)) by lia.
    assert (Hfol : forall set, Forall (fun c => negb (strchr set c) && negb (c =? ch_a) && negb (c =? ch_plus) = true) [ch_bar; ch_rp; ch_amp; ch_semi] -> tok_in set l = false).
    { intros set. by apply follow_tok_in. }
    destruct ws as [|w' ws].
    + destruct (parseredirs_ok rs fuel ps1 l Hrs Ht1) as (rs' & ps2 & -> & Ht2 & Hs); [apply Hfol; by repeat constructor|lia|]. cbn [pbind].
      destruct (IH fuel (argv ++ [(q, e)]) (rs0 ++ rs') ps2 [] l) as (av & rs2 & ps3 & -> & Ht3 & Hav & Hrs2); try done; [rewrite length_app; cbn; lia|cbn; lia|].
      apply Forall2_nil_inv_r in Hav as ->. apply Forall2_nil_inv_r in Hrs2 as ->.
      exists [(q, e)], rs', ps3. rewrite !app_nil_r. split; [done|]. split; [done|]. split; [constructor; [done|constructor]|done].
    + destruct (parseredirs_ok [] fuel ps1 (word_toks (w' :: ws) ++ concat (map redir_toks rs) ++ l)) as (rs' & ps2 & -> & Ht2 & Hs); try done; [cbn; lia|]. cbn [pbind].
      apply Forall2_nil_inv_r in Hs as ->. rewrite app_nil_r.
      destruct (IH fuel (argv ++ [(q, e)]) rs0 ps2 rs l) as (av & rs2 & ps3 & -> & Ht3 & Hav & Hrs2); try done; [rewrite length_app; cbn in *; lia|cbn in *; lia|].
      exists ((q, e) :: av), rs2, ps3. rewrite <-app_assoc. split; [done|]. split; [done|]. split; [by constructor|done].
Qed.

Fixpoint backs {A} (n : nat) (c : cmd A) : cmd A := match n with O => c | S n => BACK (backs n c) end.

Lemma parseback_ok n : forall fuel c' c ps l,
  toks ps (replicate n (sym ch_amp) ++ l) -> tok_in [ch_amp] l = false -> (n < fuel)%nat -> shows c' c ->
  exists c2 ps', parseback buf fuel c' ps = POk c2 ps' /\ toks ps' l /\ shows c2 (backs n c).
Proof.
  induction n as [|n IH]; intros fuel c' c ps l Ht Hl Hf Hc; destruct fuel as [|fuel]; try lia; cbn [parseback].
  - destruct (peek_toks buf [ch_amp] ps l Ht) as [-> Ht']; [sub|]. rewrite Hl. by eexists _, _.
  - cbn [replicate app] in Ht. destruct (peek_toks buf [ch_amp] ps _ Ht) as [-> Ht']; [sub|]. cbn [tok_in sym].
    destruct (gettoken_toks buf _ _ _ _ Ht') as (q & e & ps1 & Hg & Ht1 & _). cbn -[gettoken]. rewrite Hg.
    destruct (IH fuel (BACK c') (BACK c) ps1 l Ht1 Hl) as (c2 & ps' & E & ? & Hs); [lia|by constructor|].
    exists c2, ps'. split; [done|]. split; [done|]. cbn. replace (BACK (backs n c)) with (backs n (BACK c)); [done|].
    clear. induction n as [|n IHn]; cbn; [done|by rewrite IHn].
Qed.

Lemma tok_in_self c l : c ∈ symbols -> tok_in [c] (sym c :: l) = true.
Proof. intros H. repeat (apply elem_of_cons in H as [->|H]; [done|]). by apply elem_of_nil in H. Qed.
Ltac self := rewrite tok_in_self by (unfold symbols; set_solver).

(** What each routine of the grammar does with the tokens of a command. *)
Definition f_exec := [ch_bar; ch_rp; ch_amp; ch_semi].
Definition f_pipe := [ch_rp; ch_amp; ch_semi].
Definition f_line := [ch_rp].
Definition reads (run : nat -> nat -> parse (cmd ptr)) (k : nat) (set : list Z) (extra : nat) (c : cmd (list Z)) : Prop :=
  forall l ps fuel, follow set l -> toks ps (tks k c ++ l) -> (4 * length (tks k c) + extra <= fuel)%nat ->
  exists c' ps', run fuel ps = POk c' ps' /\ toks ps' l /\ shows c' c.
Notation exec_ok := (reads (parseexec buf) 0 f_exec 3).
Notation pipe_ok := (reads (parsepipe buf) 1 f_pipe 4).
Notation line_ok := (reads (parseline buf) 3 f_line 5).

Lemma follow_cons set t w l : t ∈ set -> follow set ((t, w) :: l).
Proof. done. Qed.
Lemma follow_mono set set' l : follow set l -> set ⊆ set' -> follow set' l.
Proof. destruct l as [|[]]; cbn; set_solver. Qed.

Lemma fol_no set set' l :
  follow set l -> forallb (fun c => negb (strchr set' c) && negb (c =? ch_a) && negb (c =? ch_plus)) set = true -> tok_in set' l = false.
Proof. intros Hl Hb. apply (follow_tok_in set); [done|]. apply list.Forall_forall. intros c Hc. rewrite forallb_forall in Hb. by apply Hb, list_elem_of_In. Qed.

Lemma exec_words argv rs : cmd_ok (EXEC argv) -> forall l ps fuel,
  Forall (fun r => word_ok (fst (fst r)) /\ redir_ok (snd (fst r)) (snd r)) rs ->
  follow f_exec l -> toks ps (word_toks argv ++ concat (map redir_toks rs) ++ l) -> (length argv + length rs + 2 < fuel)%nat ->
  exists c' ps', parseexec buf fuel ps = POk c' ps' /\ toks ps' l /\ shows c' (add_sredirs (EXEC argv) rs).
Proof.
  intros [Hw Hn] l ps fuel Hrs Hl Ht Hf. destruct fuel as [|fuel]; [lia|]. cbn [parseexec].
  assert (Hlp : tok_in [ch_lp] (word_toks argv ++ concat (map redir_toks rs) ++ l) = false).
  { destruct argv as [|w argv]; [|done]. cbn [word_toks map app]. apply redirs_follow; try done. by apply (fol_no f_exec). }
  destruct (peek_toks buf [ch_lp] ps _ Ht) as [-> Ht']; [sub|]. rewrite Hlp.
  destruct argv as [|w argv].
  - destruct (parseredirs_ok rs fuel _ l Hrs Ht') as (rs' & ps1 & -> & Ht1 & Hs); [by apply (fol_no f_exec)|lia|]. cbn [pbind].
    destruct (parseargs_ok [] fuel [] rs' ps1 [] l) as (av & rs2 & ps2 & -> & Ht2 & Hav & Hrs2); try done; [cbn; lia|]. cbn [pbind].
    apply Forall2_nil_inv_r in Hav as ->. apply Forall2_nil_inv_r in Hrs2 as ->. rewrite app_nil_r.
    eexists _, _. split; [done|]. split; [done|]. apply shows_redirs; [apply sh_exec; constructor|by rewrite app_nil_r].
  - destruct (parseredirs_ok [] fuel (skip_ws buf ps) (word_toks (w :: argv) ++ concat (map redir_toks rs) ++ l)) as (rs' & ps1 & -> & Ht1 & Hs); try done; [cbn; lia|].
    cbn [pbind]. apply Forall2_nil_inv_r in Hs as ->.
    destruct (parseargs_ok (w :: argv) fuel [] [] ps1 rs l) as (av & rs2 & ps2 & -> & Ht2 & Hav & Hrs2); try done; [lia|]. cbn [pbind app].
    eexists _, _. split; [done|]. split; [done|]. apply shows_redirs; [by apply sh_exec|done].
Qed.

Lemma exec_block b rs : line_ok b -> forall l ps fuel,
  Forall (fun r => word_ok (fst (fst r)) /\ redir_ok (snd (fst r)) (snd r)) rs ->
  follow f_exec l -> toks ps (parens true (tks 3 b) ++ concat (map redir_toks rs) ++ l) ->
  (4 * length (tks 3 b) + length rs + 7 <= fuel)%nat ->
  exists c' ps', parseexec buf fuel ps = POk c' ps' /\ toks ps' l /\ shows c' (add_sredirs b rs).
Proof.
  intros Hb l ps fuel Hrs Hl Ht Hf. destruct fuel as [|[|fuel]]; [lia..|]. cbn [parens] in Ht. rewrite <-app_comm_cons, <-app_assoc in Ht. cbn [app] in Ht.
  cbn [parseexec]. destruct (peek_toks buf [ch_lp] ps _ Ht) as [-> Ht']; [sub|]. self.
  cbn [parseblock]. destruct (peek_toks buf [ch_lp] _ _ Ht') as [-> Ht2]; [sub|]. self. cbn [negb].
  destruct (gettoken_toks buf _ _ _ _ Ht2) as (q & e & ps1 & -> & Ht3 & _).
  destruct (Hb (sym ch_rp :: concat (map redir_toks rs) ++ l) ps1 fuel) as (c' & ps2 & -> & Ht4 & Hs); [apply follow_cons; set_solver|done|lia|]. cbn [pbind].
  destruct (peek_toks buf [ch_rp] _ _ Ht4) as [-> Ht5]; [sub|]. self. cbn [negb].
  destruct (gettoken_toks buf _ _ _ _ Ht5) as (q' & e' & ps3 & -> & Ht6 & _).
  destruct (parseredirs_ok rs fuel ps3 l Hrs Ht6) as (rs' & ps4 & -> & Ht7 & Hs'); [by apply (fol_no f_exec)|lia|]. cbn [pbind].
  eexists _, _. split; [done|]. split; [done|]. by apply shows_redirs.
Qed.

Lemma exec_level b rs : cmd_ok b -> is_redir b = false -> ((forall argv, b <> EXEC argv) -> line_ok b) ->
  Forall (fun r => word_ok (fst (fst r)) /\ redir_ok (snd (fst r)) (snd r)) rs ->
  tks 0 (add_sredirs b rs) = base_toks b ++ concat (map redir_toks rs) -> exec_ok (add_sredirs b rs).
Proof.
  intros Hb Hr Hline Hrs E l ps fuel Hl Ht Hf. rewrite E in *. rewrite <-app_assoc in Ht. rewrite length_app in Hf.
  assert (Hlen : length (concat (map redir_toks rs)) = (2 * length rs)%nat).
  { clear. induction rs as [|[[? ?] ?] rs IH]; cbn in *; lia. }
  rewrite Hlen in Hf. destruct b as [argv|c ? ? ?|l' r|l' r|c]; [|done|..].
  { cbn [base_toks] in *. unfold word_toks in Hf. rewrite length_map in Hf. apply exec_words; try done. lia. }
  all: cbn [base_toks] in *; unfold parens in Hf; cbn [length] in Hf; rewrite length_app in Hf; cbn [length] in Hf;
    eapply exec_block; try done; [by apply Hline|lia].
Qed.

Lemma pipe_level l r : exec_ok l -> pipe_ok r -> forall l0 ps fuel,
  follow f_pipe l0 -> toks ps ((tks 0 l ++ sym ch_bar :: tks 1 r) ++ l0) ->
  (4 * length (tks 0 l ++ sym ch_bar :: tks 1 r) + 4 <= fuel)%nat ->
  exists c' ps', parsepipe buf fuel ps = POk c' ps' /\ toks ps' l0 /\ shows c' (PIPE l r).
Proof.
  intros Hl Hr l0 ps fuel Hf Ht Hfu. rewrite length_app in Hfu. cbn [length] in Hfu. destruct fuel as [|fuel]; [lia|].
  rewrite <-app_assoc, <-app_comm_cons in Ht. cbn [parsepipe].
  destruct (Hl (sym ch_bar :: tks 1 r ++ l0) ps fuel) as (c1 & ps1 & -> & Ht1 & Hs1); [apply follow_cons; unfold f_exec; set_solver|done|lia|]. cbn [pbind].
  destruct (peek_toks buf [ch_bar] _ _ Ht1) as [-> Ht2]; [sub|]. self. cbn [negb].
  destruct (gettoken_toks buf _ _ _ _ Ht2) as (q & e & ps2 & -> & Ht3 & _).
  destruct (Hr l0 ps2 fuel) as (c2 & ps3 & -> & Ht4 & Hs2); [done|done|lia|]. cbn [pbind].
  eexists _, _. split; [done|]. split; [done|]. by constructor.
Qed.

(** A command before [;] is a number of [&] after a pipeline. *)
Lemma back_split c : cmd_ok c ->
  exists n c0, c = backs n c0 /\ tks 2 c = tks 1 c0 ++ replicate n (sym ch_amp) /\ cmd_ok c0 /\ (csize c = csize c0 + n)%nat /\ (forall c1, c0 <> BACK c1).
Proof.
  induction c as [argv|c _ f mode fd|l _ r _|l _ r _|c IH]; intros Hc;
    try (exists 0%nat; eexists; cbn [backs replicate]; rewrite app_nil_r; split_and!; [done|done|done|lia|done]).
  destruct (IH Hc) as (n & c0 & -> & E & Hc0 & Hs & Hn). exists (S n), c0. cbn [backs tks csize]. change (2 <? 2)%nat with false. cbn [parens].
  rewrite E, <-app_assoc. split_and!; try done; [|lia]. f_equal. change [sym ch_amp] with (replicate 1 (sym ch_amp)). rewrite <-replicate_add. by rewrite Nat.add_comm.
Qed.

(** parsepipe() and the loop over [&]. *)
Lemma back_level n c0 : pipe_ok c0 -> forall l ps fuel,
  follow [ch_rp; ch_semi] l -> toks ps (tks 1 c0 ++ replicate n (sym ch_amp) ++ l) ->
  (4 * length (tks 1 c0) + n + 4 <= fuel)%nat ->
  exists c' ps', (let? (c, ps) := parsepipe buf fuel ps in parseback buf fuel c ps) = POk c' ps' /\ toks ps' l /\ shows c' (backs n c0).
Proof.
  intros Hp l ps fuel Hl Ht Hf.
  destruct (Hp (replicate n (sym ch_amp) ++ l) ps fuel) as (c1 & ps1 & -> & Ht1 & Hs1); [|done|lia|].
  { destruct n; cbn; [|unfold f_pipe; set_solver]. eapply follow_mono; [exact Hl|]. unfold f_pipe. set_solver. }
  cbn [pbind]. eapply parseback_ok; [exact Ht1| |lia|done]. by apply (fol_no [ch_rp; ch_semi]).
Qed.

(** parseline() on what stands before [;], and on the rest of the list. *)
Lemma line_single n c0 : pipe_ok c0 -> forall l ps fuel,
  follow f_line l -> toks ps (tks 1 c0 ++ replicate n (sym ch_amp) ++ l) ->
  (4 * length (tks 1 c0) + n + 5 <= fuel)%nat ->
  exists c' ps', parseline buf fuel ps = POk c' ps' /\ toks ps' l /\ shows c' (backs n c0).
Proof.
  intros Hp l ps fuel Hl Ht Hf. destruct fuel as [|fuel]; [lia|].
  destruct (back_level n c0 Hp l ps fuel) as (c1 & ps1 & Hb & Ht1 & Hs1); [eapply follow_mono; [exact Hl|unfold f_line; set_solver]|done|lia|].
  cbn [parseline]. destruct (parsepipe buf fuel ps) as [c2 ps2| |]; try done. cbn [pbind] in *. rewrite Hb. cbn [pbind].
  destruct (peek_toks buf [ch_semi] _ _ Ht1) as [-> Ht2]; [sub|]. rewrite (fol_no f_line) by done. by eexists _, _.
Qed.

Lemma line_list n c0 r : pipe_ok c0 -> line_ok r -> forall l ps fuel,
  follow f_line l -> toks ps (tks 1 c0 ++ replicate n (sym ch_amp) ++ sym ch_semi :: tks 3 r ++ l) ->
  (4 * (length (tks 1 c0) + n + S (length (tks 3 r))) + 5 <= fuel)%nat ->
  exists c' ps', parseline buf fuel ps = POk c' ps' /\ toks ps' l /\ shows c' (LIST (backs n c0) r).
Proof.
  intros Hp Hr l ps fuel Hl Ht Hf. destruct fuel as [|fuel]; [lia|].
  destruct (back_level n c0 Hp (sym ch_semi :: tks 3 r ++ l) ps fuel) as (c1 & ps1 & Hb & Ht1 & Hs1); [apply follow_cons; set_solver|done|lia|].
  cbn [parseline]. destruct (parsepipe buf fuel ps) as [c2 ps2| |]; try done. cbn [pbind] in *. rewrite Hb. cbn [pbind].
  destruct (peek_toks buf [ch_semi] _ _ Ht1) as [-> Ht2]; [sub|]. self.
  destruct (gettoken_toks buf _ _ _ _ Ht2) as (q & e & ps3 & -> & Ht3 & _).
  destruct (Hr l ps3 fuel) as (c3 & ps4 & -> & Ht4 & Hs2); [done|done|lia|]. cbn [pbind].
  eexists _, _. split; [done|]. split; [done|]. by constructor.
Qed.

Lemma pipe_of_exec c : exec_ok c -> tks 1 c = tks 0 c -> pipe_ok c.
Proof.
  intros He E l ps fuel Hl Ht Hf. rewrite E in *. destruct fuel as [|fuel]; [lia|]. cbn [parsepipe].
  destruct (He l ps fuel) as (c' & ps1 & -> & Ht1 & Hs); [eapply follow_mono; [exact Hl|unfold f_pipe, f_exec; set_solver]|done|lia|]. cbn [pbind].
  destruct (peek_toks buf [ch_bar] _ _ Ht1) as [-> Ht2]; [sub|]. rewrite (fol_no f_pipe) by done. by eexists _, _.
Qed.

Lemma grammar_ok n : forall c, (csize c <= n)%nat -> cmd_ok c -> exec_ok c /\ pipe_ok c /\ line_ok c.
Proof.
  induction n as [|n IH]; intros c Hn Hc; [destruct c; cbn in Hn; lia|].
  (* a pipeline *)
  assert (Hpipe : forall l r, c = PIPE l r -> pipe_ok c).
  { intros l r -> l0 ps fuel Hf Ht Hfu. cbn in Hn, Hc. cbn [tks] in Ht, Hfu. apply pipe_level; try done; apply IH; try lia; apply Hc. }
  (* a list, or a command in the background *)
  assert (Hbg : forall c1, c = BACK c1 -> line_ok c).
  { intros c1 -> l ps fuel Hf Ht Hfu. destruct (back_split (BACK c1) Hc) as (m & c0 & E & Et & Hc0 & Hs & Hnb).
    change (tks 3 (BACK c1)) with (tks 2 (BACK c1)) in *. rewrite Et in *. rewrite <-app_assoc in Ht. rewrite length_app, length_replicate in Hfu.
    rewrite E. destruct m; [by destruct (Hnb c1)|]. eapply line_single; [apply IH; [lia|done]|done|done|lia]. }
  assert (Hlist : forall l r, c = LIST l r -> line_ok c).
  { intros l r -> l0 ps fuel Hf Ht Hfu. cbn in Hn, Hc. destruct Hc as [Hcl Hcr].
    destruct (back_split l Hcl) as (m & c0 & E & Et & Hc0 & Hs & _).
    cbn [tks] in Ht, Hfu. change (3 <? 3)%nat with false in *. cbn [parens] in *. rewrite Et in *. rewrite <-!app_assoc in Ht.
    rewrite !length_app, length_replicate in Hfu. cbn [length app] in *. rewrite E.
    eapply line_list; [apply IH; [lia|done]|apply IH; [lia|done]|done|done|lia]. }
  (* a pipeline as a line *)
  assert (Hsingle : (forall c1, c <> BACK c1) -> (forall l r, c <> LIST l r) -> pipe_ok c -> line_ok c).
  { intros Hnb Hnl Hp l ps fuel Hf Ht Hfu. assert (E : tks 3 c = tks 1 c) by (destruct c; try done; [by destruct (Hnl c1 c2)|by destruct (Hnb c)]).
    rewrite E in *. eapply (line_single 0); [exact Hp|done|done|lia]. }
  assert (Hexec : exec_ok c).
  { destruct (redirs_split c Hc) as (b & rs & E & Et & Hr & Hb & Hs & Hrs). rewrite E in Et |- *. apply exec_level; try done.
    intros Hne. destruct rs as [|r0 rs]; [|apply IH; [cbn in Hs; lia|done]]. cbn in E. rewrite <-E in *. clear E.
    destruct c as [av|c0 f m fd|l r|l r|c0]; [by destruct (Hne av)|done| | |].
    - apply Hsingle; try done. by eapply Hpipe.
    - by eapply Hlist.
    - by eapply Hbg. }
  assert (Hp : pipe_ok c).
  { destruct c; first [by eapply Hpipe|by apply pipe_of_exec]. }
  split_and!; [done|done|]. destruct c; [by apply Hsingle..|by eapply Hlist|by eapply Hbg].
Qed.

End Parse.

(** ** The strings after nulterminate() *)

Section Nul.
Variable buf : list Z.

(** The line while NULs are stored: its words are still there. *)
Record cut (line : list Z) : Prop := {
  cut_len : length line = S (length buf);
  cut_end : line !! length buf = Some 0;
  cut_word : forall i c, buf !! i = Some c -> wordchar c = true -> line !! i = Some c
}.

Lemma cut_start : cut (buf ++ [0]).
Proof.
  split; [rewrite length_app; cbn; lia|by rewrite lookup_app_r, Nat.sub_diag by done|].
  intros i c Hi _. by apply lookup_app_l_Some.
Qed.

Lemma word_end q eq w : word_at buf q eq w -> (eq <= length buf)%nat /\ (forall c, buf !! eq = Some c -> wordchar c = false).
Proof.
  intros [(pre & post & E & Hq & Hpost) -> Hw]. rewrite E. split; [rewrite !length_app; lia|].
  intros c. rewrite lookup_app_r by lia. rewrite lookup_app_r by lia. replace (q + length w - length pre - length w)%nat with 0%nat by lia.
  destruct post; cbn; [done|]. by intros [= ->].
Qed.

Lemma cut_nul q eq w line : word_at buf q eq w -> cut line -> cut (put_nul eq line) /\ put_nul eq line !! eq = Some 0.
Proof.
  intros Hw [Hl He Hc]. destruct (word_end _ _ _ Hw) as [Hle Hnw]. unfold put_nul. split; [|apply list_lookup_insert_eq; lia].
  split; [by rewrite length_insert| |].
  - destruct (decide (eq = length buf)) as [->|Hne]; [apply list_lookup_insert_eq; lia|by rewrite list_lookup_insert_ne].
  - intros i c Hi Hwc. rewrite list_lookup_insert_ne; [by apply Hc|]. intros ->. apply Hnw in Hi. congruence.
Qed.

Definition nuls (line line' : list Z) : Prop := forall i, line !! i = Some 0 -> line' !! i = Some 0.
Lemma nuls_put eq line : nuls line (put_nul eq line).
Proof.
  intros i Hi. unfold put_nul. destruct (decide (eq = i)) as [->|Hne]; [|by rewrite list_lookup_insert_ne].
  apply list_lookup_insert_eq. by apply lookup_lt_Some in Hi.
Qed.

(** Every string of the tree ends in a NUL. *)
Fixpoint ended (c : cmd ptr) (line : list Z) : Prop :=
  match c with
  | EXEC argv => Forall (fun a => line !! snd a = Some 0) argv
  | REDIR c f _ _ => ended c line /\ line !! snd f = Some 0
  | PIPE l r | LIST l r => ended l line /\ ended r line
  | BACK c => ended c line
  end.

Lemma ended_nuls c line line' : nuls line line' -> ended c line -> ended c line'.
Proof. intros Hn. induction c; cbn; try tauto; [|naive_solver]. intros H. eapply list.Forall_impl; [exact H|]. auto. Qed.

Lemma nul_args av ws line :
  Forall2 (fun p w => word_at buf (fst p) (snd p) w) av ws -> cut line ->
  let line' := fold_left (fun line a => put_nul (snd a) line) av line in
  cut line' /\ nuls line line' /\ Forall (fun a => line' !! snd a = Some 0) av.
Proof.
  intros Hw. revert line. induction Hw as [|a w av ws Ha Hw IH]; intros line Hc; cbn; [split_and!; [done|by intros i|constructor]|].
  destruct (cut_nul _ _ _ _ Ha Hc) as [Hc1 H0]. destruct (IH _ Hc1) as (Hc2 & Hn & Hf). split_and!; [done| |].
  - intros i Hi. by apply Hn, nuls_put.
  - constructor; [by apply Hn|done].
Qed.

Lemma nulterminate_ok c' c line :
  shows buf c' c -> cut line -> cut (nulterminate c' line) /\ nuls line (nulterminate c' line) /\ ended c' (nulterminate c' line).
Proof.
  intros Hs. revert line. induction Hs as [av ws Hw|c' c p w mode fd Hs IH Hw|l' l r' r Hl IHl Hr IHr|l' l r' r Hl IHl Hr IHr|c' c Hs IH];
    intros line Hc; cbn [nulterminate ended].
  1: by eapply nul_args.
  1: { destruct (IH line Hc) as (H1 & H2 & H3). destruct (cut_nul _ _ _ _ Hw H1) as [H4 H5]. split_and!; try done.
       - intros i Hi. by apply nuls_put, H2.
       - by apply (ended_nuls _ _ _ (nuls_put _ _)). }
  1,2: destruct (IHl line Hc) as (H1 & H2 & H3); destruct (IHr _ H1) as (H4 & H5 & H6); split_and!; try done;
       [intros i Hi; by apply H5, H2|by apply (ended_nuls _ _ _ H5)].
  by apply IH.
Qed.

Lemma cstring_word w r : Forall (fun c => wordchar c = true) w -> cstring (w ++ 0 :: r) = w.
Proof. induction 1 as [|c w Hc _ IH]; [done|]. cbn. apply wordchar_spec in Hc as (Hc & _). by rewrite (proj2 (Z.eqb_neq _ _) Hc), IH. Qed.

Lemma cstring_at q eq w line : word_at buf q eq w -> cut line -> line !! eq = Some 0 -> cstring (drop q line) = w.
Proof.
  intros [(pre & post & E & Hq & _) -> Hw] [Hl _ Hc] H0.
  assert (Ed : drop q line = w ++ 0 :: drop (S (q + length w)) line); [|rewrite Ed; by apply cstring_word].
  rewrite <-(take_drop (length w) (drop q line)). rewrite drop_drop, (drop_S _ _ _ H0). f_equal.
  apply list_eq. intros i. destruct (decide (i < length w)%nat) as [Hi|Hi].
  - rewrite lookup_take_lt, lookup_drop by lia. destruct (w !! i) as [c|] eqn:Ei; [|apply lookup_ge_None in Ei; lia].
    apply Hc; [|by apply (Forall_lookup_1 _ _ _ _ Hw Ei)]. rewrite E, lookup_app_r by lia. rewrite lookup_app_l by lia. by replace (q + i - length pre)%nat with i by lia.
  - rewrite lookup_take_ge, (lookup_ge_None_2 w) by lia. done.
Qed.

Lemma resolve_ok c' c line : shows buf c' c -> cut line -> ended c' line -> resolve line c' = c.
Proof.
  intros Hs Hc. induction Hs as [av ws Hw|c' c p w mode fd Hs IH Hw|l' l r' r Hl IHl Hr IHr|l' l r' r Hl IHl Hr IHr|c' c Hs IH]; cbn [ended resolve]; intros He.
  - f_equal. induction Hw as [|a w av ws Ha Hw IH]; [done|]. inversion He; subst. cbn. rewrite IH by done. f_equal. by eapply cstring_at.
  - destruct He as [He Hf]. rewrite IH by done. f_equal. by eapply cstring_at.
  - destruct He. by rewrite IHl, IHr.
  - destruct He. by rewrite IHl, IHr.
  - by rewrite IH.
Qed.
End Nul.

Lemma length_render l : Forall token_ok l -> (2 * length l <= length (render l))%nat.
Proof.
  induction 1 as [|t l Ht _ IH]; [done|]. unfold render in *. cbn [map concat length]. rewrite length_app. cbn [length].
  assert (1 <= length (tok_text t))%nat; [|lia]. unfold tok_text. destruct Ht as [(-> & Hn & _)|[(-> & _)|(Hs & _)]]; cbn; [destruct (snd t); [done|cbn; lia]|lia|].
  destruct (not_ws_symbol _ Hs) as (_ & _ & Ha & Hp). by rewrite (proj2 (Z.eqb_neq _ _) Ha), (proj2 (Z.eqb_neq _ _) Hp).
Qed.

(** The text of a command, with spaces or a newline after it, parses to the
    command. *)
Lemma parse_text c sfx :
  cmd_ok c -> blank sfx -> exists c' line ps, parsecmd (print c ++ sfx) = POk (c', line) ps /\ resolve line c' = c.
Proof.
  intros Hc Hsfx. set (buf := print c ++ sfx). pose proof (tks_ok c 3 Hc) as Hok.
  assert (Ht : toks buf 0 (tks 3 c)) by (by apply (toks_render buf [] _ sfx)).
  destruct (grammar_ok buf (csize c) c) as (_ & _ & Hl); [done|done|].
  destruct (Hl [] 0%nat (parse_fuel buf)) as (c' & ps & Hp & Ht' & Hs); [done|by rewrite app_nil_r| |].
  { unfold parse_fuel. pose proof (length_render _ Hok). fold (print c) in *. subst buf. rewrite length_app. lia. }
  exists c', (nulterminate c' (buf ++ [0])), (es buf). unfold parsecmd, parsetree. rewrite Hp. cbn [pbind].
  destruct (peek_toks buf [] _ _ Ht') as [-> _]; [constructor|]. inversion Ht' as [? _ E|]; subst. rewrite E, Nat.eqb_refl. cbn [negb pbind].
  split; [done|]. destruct (nulterminate_ok buf c' c _ Hs (cut_start buf)) as (H1 & _ & H2). by apply (resolve_ok buf).
Qed.

(** C4: the shell parses back what a command is written as: for every
    command whose words are not empty and have no special characters, with
    fewer than MAXARGS arguments, parsecmd() on its text, followed by any
    whitespace, returns the same tree, and after nulterminate() the tree's
    pointers are its strings. *)
Theorem parse_print c sfx :
  cmd_ok c -> blank sfx -> exists c' line ps, parsecmd (print c ++ sfx) = POk (c', line) ps /\ resolve line c' = c.
Proof. apply parse_text. Qed.

(** [ls -l < f | wc & ; ( a ; b ) >> o] *)
Lemma parse_print_witness :
  let c := LIST (BACK (PIPE (REDIR (EXEC [[108; 115]; [45; 108]]) [102] O_RDONLY 0) (EXEC [[119; 99]])))
             (REDIR (LIST (EXEC [[97]]) (EXEC [[98]])) [111] (Z.lor O_WRONLY O_CREATE) 1) in
  print c = [32; 108; 115; 32; 45; 108; 32; 60; 32; 102; 32; 124; 32; 119; 99; 32; 38; 32; 59; 32; 40; 32; 97; 32; 59; 32; 98; 32; 41; 32; 62; 62; 32; 111] /\
  exists c' line ps, parsecmd (print c ++ [10]) = POk (c', line) ps /\ resolve line c' = c.
Proof.
  cbv zeta. split; [reflexivity|]. apply parse_print; [|repeat constructor]. cbn [cmd_ok]. unfold word_ok, redir_ok.
  split_and!; try done; try (by repeat constructor); auto.
Defined.

(** ** Termination *)

Section Total.
Variable buf : list Z.
Notation es := (es buf).

(** A scan for a token that is not the end moves on. *)
Lemma gettoken_moves ps t q eq ps' :
  (ps <= es)%nat -> gettoken buf ps = (t, q, eq, ps') -> (ps <= ps' <= es)%nat /\ (t <> 0 -> (ps < ps')%nat).
Proof.
  intros Hps. unfold gettoken. pose proof (skip_ws_range buf ps Hps) as H1.
  set (s := skip_ws buf ps) in *. destruct (Z.eqb_spec (chr buf s) 0) as [E0|E0].
  { intros [= <- <- <- <-]. pose proof (skip_ws_range buf s ltac:(lia)). split; [lia|congruence]. }
  assert (Hlt : (s < es)%nat).
  { destruct (decide (s = es)) as [E|]; [|lia]. by rewrite E, chr_es in E0. }
  assert (Hend : forall e, (s < e <= es)%nat -> (ps <= skip_ws buf e <= es)%nat /\ (ps < skip_ws buf e)%nat).
  { intros e He. pose proof (skip_ws_range buf e ltac:(lia)). lia. }
  assert (Hnext : chr buf (S s) = ch_gt -> (S s < es)%nat).
  { intros E. destruct (decide (S s < es)%nat) as [|Hge]; [done|]. unfold chr in E. rewrite lookup_ge_None_2 in E; [done|]. unfold Sh.es in *. lia. }
  destruct (_ || _) eqn:Ho; [intros [= <- <- <- <-]; split; [|intros _]; apply Hend; lia|].
  destruct (chr buf s =? ch_gt) eqn:Eg.
  { destruct (Z.eqb_spec (chr buf (S s)) ch_gt) as [E|E]; intros [= <- <- <- <-]; (split; [|intros _]; apply Hend); try lia; specialize (Hnext E); lia. }
  intros [= <- <- <- <-]. assert (Hw : (s < skip_word buf s <= es)%nat); [|split; [|intros _]; apply Hend; lia].
  pose proof (skip_word_range buf s ltac:(lia)). destruct (decide (skip_word buf s = s)) as [Es|]; [|lia]. exfalso.
  unfold skip_word in Es. destruct (skip_stop buf (fun c => strchr whitespace c || strchr symbols c) s ltac:(lia)) as [E|[_ Hst]]; [rewrite E in Es; lia|]. rewrite Es in Hst.
  apply orb_true_iff in Hst as [Hst|Hst].
  - unfold s, skip_ws in Hst, Hlt. destruct (skip_stop buf (fun c => negb (strchr whitespace c)) ps Hps) as [E|[_ Hn]]; [lia|]. by rewrite Hst in Hn.
  - apply strchr_in in Hst. unfold symbols in Hst. bool_simpl. rewrite !elem_of_cons, elem_of_nil in Hst. naive_solver.
Qed.

Lemma peek_moves ps set b ps' :
  (ps <= es)%nat -> peek buf ps set = (b, ps') -> (ps <= ps' <= es)%nat /\ (b = true -> chr buf ps' <> 0).
Proof.
  intros Hps. unfold peek. intros [= <- <-]. split; [by apply skip_ws_range|]. intros Hb. bool_simpl. done.
Qed.

(** The token after a successful peek() is not the end. *)
Lemma peeked ps set ps' : (ps <= es)%nat -> peek buf ps set = (true, ps') ->
  forall t q eq ps'', gettoken buf ps' = (t, q, eq, ps'') -> (ps' < ps'' <= es)%nat.
Proof.
  intros Hps Hp t q eq ps'' Hg. destruct (peek_moves _ _ _ _ Hps Hp) as [Hr Hc]. specialize (Hc eq_refl).
  destruct (gettoken_moves _ _ _ _ _ (proj2 Hr) Hg) as [Hr' Ht]. split; [apply Ht|lia].
  unfold peek in Hp. injection Hp as _ <-. unfold gettoken in Hg. rewrite skip_ws_idem in Hg by done.
  rewrite (proj2 (Z.eqb_neq _ _) Hc) in Hg. destruct (_ || _); [by injection Hg as <- _ _ _|].
  destruct (_ =? ch_gt); [|by injection Hg as <- _ _ _]. by destruct (_ =? ch_gt); injection Hg as <- _ _ _.
Qed.

(** A parse that ends, and does not go back. *)
Definition ends {A} (ps : nat) (p : parse A) : Prop :=
  match p with POk _ ps' => (ps <= ps' <= es)%nat | PErr _ _ => True | PFuel => False end.

Lemma ends_bind {A B} ps (p : parse A) (k : A -> nat -> parse B) :
  ends ps p -> (forall a ps', (ps <= ps' <= es)%nat -> ends ps' (k a ps')) -> ends ps (pbind p k).
Proof. destruct p as [a ps'| |]; cbn; [|done..]. intros Hr Hk. specialize (Hk a ps' Hr). destruct (k a ps'); cbn in *; [lia|done|done]. Qed.

Lemma ends_le {A} ps ps' (p : parse A) : ends ps' p -> (ps <= ps')%nat -> ends ps p.
Proof. destruct p; cbn; [lia|done..]. Qed.

Ltac peek_step := match goal with
  | |- context [peek buf ?ps ?set] =>
      let b := fresh "b" in let p := fresh "p" in let E := fresh "E" in let Hr := fresh "Hr" in
      destruct (peek buf ps set) as [b p] eqn:E; destruct (peek_moves ps set b p ltac:(lia) E) as [Hr _]; destruct b; cbn [negb]
  end.
Ltac tok_step := match goal with
  | Hp : peek buf ?ps ?set = (true, ?p) |- context [gettoken buf ?p] =>
      let E := fresh "E" in let H := fresh "H" in
      destruct (gettoken buf p) as [[[? ?] ?] ?] eqn:E; pose proof (peeked ps set p ltac:(lia) Hp _ _ _ _ E) as H; clear Hp
  | |- context [gettoken buf ?p] =>
      let E := fresh "E" in
      destruct (gettoken buf p) as [[[? ?] ?] ?] eqn:E; pose proof (gettoken_moves p _ _ _ _ ltac:(lia) E) as [? Hnz]
  end.

Lemma parseredirs_ends fuel ps : (ps <= es)%nat -> (es - ps < fuel)%nat -> ends ps (parseredirs buf fuel ps).
Proof.
  revert ps. induction fuel as [|fuel IH]; intros ps Hps Hf; [lia|]. cbn [parseredirs]. peek_step; [|cbn; lia].
  tok_step. tok_step. destruct (negb _); [done|]. apply (ends_le _ n4); [|lia]. apply ends_bind; [apply IH; lia|]. intros rs ps' Hr'. cbn. lia.
Qed.

Lemma parseargs_ends fuel argv rs ps : (ps <= es)%nat -> (es - ps + 1 < fuel)%nat -> ends ps (parseargs buf fuel argv rs ps).
Proof.
  revert argv rs ps. induction fuel as [|fuel IH]; intros argv rs ps Hps Hf; [lia|]. cbn [parseargs]. peek_step; [cbn; lia|].
  tok_step. destruct (Z.eqb_spec z 0) as [|Hz]; [cbn; lia|]. destruct (negb _); [done|]. case_match; [done|]. specialize (Hnz Hz).
  apply (ends_le _ n1); [|lia]. apply ends_bind; [apply parseredirs_ends; lia|]. intros rs' ps' Hr'. apply IH; lia.
Qed.

Lemma parseback_ends fuel c ps : (ps <= es)%nat -> (es - ps < fuel)%nat -> ends ps (parseback buf fuel c ps).
Proof.
  revert c ps. induction fuel as [|fuel IH]; intros c ps Hps Hf; [lia|]. cbn [parseback]. peek_step; [|cbn; lia].
  tok_step. apply (ends_le _ n1); [|lia]. apply IH; lia.
Qed.

Lemma grammar_ends fuel : forall ps, (ps <= es)%nat ->
  ((4 * (es - ps) + 5 <= fuel)%nat -> ends ps (parseline buf fuel ps)) /\
  ((4 * (es - ps) + 4 <= fuel)%nat -> ends ps (parsepipe buf fuel ps)) /\
  ((4 * (es - ps) + 2 <= fuel)%nat -> (exists p0, (p0 <= es)%nat /\ peek buf p0 [ch_lp] = (true, ps)) -> ends ps (parseblock buf fuel ps)) /\
  ((4 * (es - ps) + 3 <= fuel)%nat -> ends ps (parseexec buf fuel ps)).
Proof.
  induction fuel as [|fuel IH]; intros ps Hps; [split_and!; intros; lia|].
  split_and!.
  - intros Hf. cbn [parseline]. apply ends_bind; [apply IH; lia|]. intros c1 ps1 H1.
    apply ends_bind; [apply parseback_ends; lia|]. intros c2 ps2 H2. peek_step; [|cbn; lia]. tok_step.
    apply (ends_le _ n1); [|lia]. apply ends_bind; [apply IH; lia|]. intros c3 ps3 H3. cbn. lia.
  - intros Hf. cbn [parsepipe]. apply ends_bind; [apply IH; lia|]. intros c1 ps1 H1. peek_step; [|cbn; lia]. tok_step.
    apply (ends_le _ n1); [|lia]. apply ends_bind; [apply IH; lia|]. intros c3 ps3 H3. cbn. lia.
  - intros Hf (p0 & Hp0 & Hpk). cbn [parseblock]. peek_step; [|done]. tok_step.
    apply (ends_le _ n1); [|lia]. apply ends_bind; [apply IH; lia|]. intros c1 ps1 H1. peek_step; [|done]. tok_step.
    apply (ends_le _ n4); [|lia]. apply ends_bind; [apply parseredirs_ends; lia|]. intros rs ps2 H2. cbn. lia.
  - intros Hf. cbn [parseexec]. peek_step.
    + apply (ends_le _ p); [|lia]. apply IH; [lia|lia|eauto].
    + apply (ends_le _ p); [|lia]. apply ends_bind; [apply parseredirs_ends; lia|]. intros rs ps1 H1.
      apply ends_bind; [apply parseargs_ends; lia|]. intros [av rs'] ps2 H2. cbn. lia.
Qed.

(** C32: the shell's parser terminates on every line: it returns a command or
    ends with one of its error messages, and never runs out of the fuel that
    bounds its recursion. *)
Theorem parsecmd_terminates : parsecmd buf <> PFuel.
Proof.
  unfold parsecmd, parsetree. destruct (grammar_ends (parse_fuel buf) 0) as (Hl & _); [lia|].
  specialize (Hl ltac:(unfold parse_fuel, Sh.es; lia)). destruct (parseline buf _ 0) as [c ps| |]; [|done|done].
  cbn [pbind]. destruct (peek buf ps []) as [b p]. by destruct (negb _).
Qed.
End Total.
