(* ===== verification/ShMain.v ===== *)
(** * A session with the shell

    [run] executes the system calls of a shell process against a kernel that
    is given by what it answers; [Terminal] is what the shell relies on: the
    characters of the input come one per read, and nothing but the shell
    takes them.  Typing commands, each on a line, makes the shell run exactly
    those commands, in order, waiting for each. *)

From S2P Require Import Prelude Sysfile Sh ShLex ShFacts.

Inductive event := ECall (c : syscall) | EFork (child : prog).

(** ** Running a process *)

Section Run.
Context {W : Type} (sys : syscall -> W -> (Z * Z * Z) * W) (fork_ok : W -> bool * W).

(** The calls a process makes and the status it exits with; [None] when the
    program was cut.  A fork goes on in the parent. *)
Fixpoint run (p : prog) (w : W) : list event * option Z * W :=
  match p with
  | Exit st => ([], Some st, w)
  | Cut => ([], None, w)
  | Call c k =>
      let '((r, a, b), w) := sys c w in
      let '(l, st, w) := run (k r a b) w in (ECall c :: l, st, w)
  | Fork failed k =>
      let '(ok, w) := fork_ok w in
      if ok then let '(l, st, w) := run (k false) w in (EFork (k true) :: l, st, w)
      else run failed w
  end.

Definition is_read (c : syscall) : bool := match c with SysRead _ => true | _ => false end.

(** What the shell expects of the kernel: reads of descriptor 0 give the
    input, whose [None] is a read that returns nothing; other calls leave it;
    open gives the lowest free descriptor. *)
Class Terminal (input : W -> list (option Z)) (fds : W -> gset Z) := {
  term_read : forall w c r, input w = Some c :: r -> exists w', sys (SysRead 0) w = ((1, c, 0), w') /\ input w' = r;
  term_end : forall w, match input w with Some _ :: _ => False | _ => True end ->
    exists cc c b w', sys (SysRead 0) w = ((cc, c, b), w') /\ cc < 1 /\ input w' = tl (input w);
  term_call : forall c w, is_read c = false -> input (snd (sys c w)) = input w;
  term_fork : forall w, fst (fork_ok w) = true /\ input (snd (fork_ok w)) = input w;
  term_open : forall p m w, let r := fst (fst (fst (sys (SysOpen p m) w))) in let w' := snd (sys (SysOpen p m) w) in
    r < 0 \/ (r ∉ fds w /\ fds w' = {[r]} ∪ fds w /\ forall x, 0 <= x < r -> x ∈ fds w);
  term_close : forall fd w, fds (snd (sys (SysClose fd) w)) = fds w ∖ {[fd]}
}.

Context {input : W -> list (option Z)} {fds : W -> gset Z} {T : Terminal input fds}.

(** The trace of [q] is what follows the events [l]. *)
Definition after (l : list event) (r : list event * option Z * W) : list event * option Z * W :=
  let '(l', st, w) := r in (l ++ l', st, w).
Lemma after_nil r : after [] r = r.
Proof. by destruct r as [[]]. Qed.
Lemma after_app a b r : after a (after b r) = after (a ++ b) r.
Proof. destruct r as [[]]; cbn. by rewrite app_assoc. Qed.

Lemma run_Call c k w : run (Call c k) w =
  let '((r, a, b), w) := sys c w in after [ECall c] (run (k r a b) w).
Proof. reflexivity. Qed.

Lemma run_call c k w : is_read c = false -> exists w', run (call c k) w = after [ECall c] (run k w') /\ input w' = input w.
Proof.
  intros Hc. pose proof (term_call c w Hc) as H. unfold call. rewrite run_Call.
  destruct (sys c w) as [[[r a] b] w']. by exists w'.
Qed.

Lemma run_fork1 k w : exists w', run (fork1 k) w = after [EFork (k true)] (run (k false) w') /\ input w' = input w.
Proof.
  destruct (term_fork w) as [Hf Hi]. cbn. destruct (fork_ok w) as [ok w']. cbn in Hf, Hi. subst ok. by exists w'.
Qed.

(** ** gets() *)

Definition line_end (c : Z) : bool := (c =? newline) || (c =? return_ch).
Abbreviation reads n := (replicate n (ECall (SysRead 0))).

(** A line that fits: its characters, then the end of the line; [a] is what
    was stored before, [b] the rest of the array. *)
Lemma gets_loop_line t e rest : forall n a b k w,
  Forall (fun c => line_end c = false) t -> line_end e = true -> (length t < n)%nat -> (length t < length b)%nat ->
  input w = map Some (t ++ [e]) ++ rest ->
  exists w', run (gets_loop n (length a) (a ++ b) k) w =
      after (reads (S (length t))) (run (k (a ++ t ++ e :: drop (S (length t)) b) (length a + S (length t))%nat) w') /\
    input w' = rest.
Proof.
  induction t as [|c t IH]; intros n a b k w Ht He Hn Hb Hi; destruct n as [|n]; cbn in Hn; try lia;
    destruct b as [|x b]; cbn in Hb; try lia; cbn [gets_loop]; rewrite run_Call.
  - destruct (term_read w e rest Hi) as (w' & -> & Hi'). change (1 <? 1) with false. cbn beta iota zeta. unfold line_end in He. rewrite He.
    exists w'. split; [|done]. cbn. by rewrite insert_app_r_alt, Nat.sub_diag, Nat.add_1_r by done.
  - inversion Ht as [|? ? Hc Ht']; subst. destruct (term_read w c (map Some (t ++ [e]) ++ rest) Hi) as (w' & -> & Hi').
    change (1 <? 1) with false. cbn beta iota zeta. unfold line_end in Hc. rewrite Hc. cbn [length] in *.
    rewrite insert_app_r_alt, Nat.sub_diag by done. cbn [list_insert].
    destruct (IH n (a ++ [c]) b k w' Ht' He) as (w2 & Hr & Hi2); [lia|lia|done|].
    rewrite length_app, Nat.add_1_r, <-!app_assoc in Hr. cbn in Hr. exists w2. split; [|done]. cbn. rewrite Hr, after_app. cbn.
    by replace (length a + S (S (length t)))%nat with (S (length a + S (length t))) by lia.
Qed.

Lemma gets_loop_end n i buf k w :
  match input w with Some _ :: _ => False | _ => True end ->
  exists w', run (gets_loop (S n) i buf k) w = after (reads 1) (run (k buf i) w').
Proof.
  intros Hi. destruct (term_end w Hi) as (cc & c & b & w2 & Hs & Hcc & _). exists w2. cbn [gets_loop].
  rewrite run_Call, Hs. by rewrite (proj2 (Z.ltb_lt cc 1) Hcc).
Qed.

(** The buffer of main() with the line [l] in it. *)
Definition line_buf (l : list Z) : list Z := l ++ replicate (NBUF - length l) 0.

Lemma clear_buf_all buf : length buf = NBUF -> clear_buf buf NBUF = replicate NBUF 0.
Proof. intros H. unfold clear_buf. rewrite drop_ge by lia. apply app_nil_r. Qed.

Lemma nul_after l : (length l < NBUF)%nat -> <[length l := 0]> (line_buf l) = line_buf l.
Proof.
  intros H. unfold line_buf. rewrite insert_app_r_alt, Nat.sub_diag by done. f_equal.
  by destruct (NBUF - length l)%nat.
Qed.

Lemma length_line_buf l : (length l <= NBUF)%nat -> length (line_buf l) = NBUF.
Proof. intros H. unfold line_buf. rewrite length_app, length_replicate. lia. Qed.

Lemma getcmd_line t e rest buf k w :
  length buf = NBUF -> Forall (fun c => line_end c = false) t -> line_end e = true -> (S (length t) < NBUF)%nat ->
  default 0 ((t ++ [e]) !! 0%nat) <> 0 -> input w = map Some (t ++ [e]) ++ rest ->
  exists w', run (getcmd buf NBUF k) w =
      after (ECall prompt :: reads (S (length t))) (run (k 0 (line_buf (t ++ [e]))) w') /\ input w' = rest.
Proof.
  intros Hb Ht He Hn H0 Hi. unfold getcmd. rewrite clear_buf_all by done.
  destruct (run_call prompt (gets (replicate NBUF 0) NBUF (fun buf => if default 0 (buf !! 0%nat) =? 0 then k (-1) buf else k 0 buf)) w eq_refl)
    as (w1 & -> & Hi1). unfold gets. rewrite Hi in Hi1.
  edestruct (gets_loop_line t e rest (NBUF - 1) [] (replicate NBUF 0)) as (w2 & Hr & Hi2); [done|done|lia| |done|].
  { rewrite length_replicate. lia. }
  exists w2. split; [|done]. cbn [length app Nat.add] in Hr. rewrite Hr, after_app. cbn [app]. f_equal. f_equal.
  assert (E : t ++ e :: drop (S (length t)) (replicate NBUF 0) = line_buf (t ++ [e])).
  { unfold line_buf. rewrite length_app, <-app_assoc, drop_replicate, Nat.add_1_r. done. }
  rewrite E. pose proof (nul_after (t ++ [e])) as Hnul. rewrite length_app, Nat.add_1_r in Hnul. rewrite Hnul by lia.
  assert (E0 : line_buf (t ++ [e]) !! 0%nat = (t ++ [e]) !! 0%nat) by (by destruct t).
  rewrite E0. by rewrite (proj2 (Z.eqb_neq _ _) H0).
Qed.

Lemma getcmd_end buf k w :
  length buf = NBUF -> match input w with Some _ :: _ => False | _ => True end ->
  exists w', run (getcmd buf NBUF k) w = after [ECall prompt; ECall (SysRead 0)] (run (k (-1) (replicate NBUF 0)) w').
Proof.
  intros Hb Hi. unfold getcmd. rewrite clear_buf_all by done.
  destruct (run_call prompt (gets (replicate NBUF 0) NBUF (fun buf => if default 0 (buf !! 0%nat) =? 0 then k (-1) buf else k 0 buf)) w eq_refl)
    as (w1 & -> & Hi1). rewrite <-Hi1 in Hi. unfold gets. change (NBUF - 1)%nat with (S 98).
  edestruct (gets_loop_end 98 0 (replicate NBUF 0)) as (w2 & ->); [done|]. exists w2. by rewrite after_app.
Qed.

(** ** The loop over the commands *)

(** What is typed on a line: a command, or a change of directory. *)
Inductive item := Typed (c : cmd (list Z)) | Cd (dir : list Z).
Definition cd_word : list Z := [99; 100; 32].
Definition item_text (i : item) : list Z := match i with Typed c => print c | Cd d => cd_word ++ d end.
Definition item_ok (i : item) : Prop :=
  Z.of_nat (length (item_text i)) < 99 /\
  match i with Typed c => cmd_ok c | Cd d => Forall (fun c => c <> 0 /\ line_end c = false) d end.
(** What the shell does about it. *)
Definition item_events (i : item) : list event :=
  match i with
  | Typed c => [ECall prompt; EFork (runcmd c); ECall SysWait]
  | Cd d => [ECall prompt; ECall (SysChdir d)]
  end.
(** The events that are not about reading a line, printing a message or the
    descriptors of the console. *)
Definition observed (e : event) : bool :=
  match e with
  | ECall (SysRead _) | ECall (SysPrint _ _) | ECall (SysOpen _ _) | ECall (SysClose _) => false
  | _ => true
  end.
Definition trace (r : list event * option Z * W) : list event * option Z :=
  (List.filter observed (fst (fst r)), snd (fst r)).

Lemma trace_after l r : trace (after l r) = (List.filter observed l ++ fst (trace r), snd (trace r)).
Proof. destruct r as [[l' st] w]. unfold trace; cbn. by rewrite List.filter_app. Qed.

Lemma observed_reads n : List.filter observed (reads n) = [].
Proof. by induction n. Qed.

Lemma plain_text c : wordchar c = true \/ c ∈ symbols \/ c = 32 -> c <> 0 /\ line_end c = false.
Proof.
  intros [H|[H| ->]]; [|unfold symbols in H; repeat (apply elem_of_cons in H as [->|H]; [done|]); by apply elem_of_nil in H|done].
  apply wordchar_spec in H as (H0 & Hw & _). split; [done|]. unfold strchr, whitespace in Hw. cbn in Hw. unfold line_end, newline, return_ch. lia.
Qed.

Lemma render_plain l : Forall token_ok l -> Forall (fun c => c <> 0 /\ line_end c = false) (render l).
Proof.
  induction 1 as [|t l Ht _ IH]; [constructor|]. unfold render. cbn [map concat]. apply Forall_app. split; [|exact IH].
  constructor; [apply plain_text; auto|]. unfold tok_text. destruct Ht as [(-> & _ & Hw)|[(-> & _)|(Hs & _)]].
  - eapply list.Forall_impl; [exact Hw|]. intros c Hc. apply plain_text; auto.
  - repeat constructor; done.
  - destruct (not_ws_symbol _ Hs) as (_ & _ & Ha & Hp). rewrite (proj2 (Z.eqb_neq _ _) Ha), (proj2 (Z.eqb_neq _ _) Hp).
    repeat constructor; apply plain_text; auto.
Qed.

Lemma item_plain i : item_ok i -> Forall (fun c => c <> 0 /\ line_end c = false) (item_text i).
Proof.
  intros [_ Hi]. destruct i as [c|d]; cbn [item_text].
  - apply render_plain, tks_ok, Hi.
  - apply Forall_app. split; [|done]. by repeat constructor.
Qed.

Lemma cstring_app l r : Forall (fun c => c <> 0) l -> cstring (l ++ 0 :: r) = l.
Proof. induction 1 as [|c l Hc _ IH]; [done|]. cbn. by rewrite (proj2 (Z.eqb_neq _ _) Hc), IH. Qed.

Lemma cstring_line l : Forall (fun c => c <> 0) l -> (length l < NBUF)%nat -> cstring (line_buf l) = l.
Proof.
  intros Hl Hn. unfold line_buf. destruct (NBUF - length l)%nat as [|m] eqn:E; [lia|]. by apply cstring_app.
Qed.

Lemma item_nonzero i e : item_ok i -> line_end e = true -> Forall (fun c => c <> 0) (item_text i ++ [e]).
Proof.
  intros Hi He. apply Forall_app. split; [|constructor; [|constructor]].
  - eapply list.Forall_impl; [by apply item_plain|]. by intros c [].
  - unfold line_end, newline, return_ch in He. lia.
Qed.

Lemma run_line_print c e : cmd_ok c -> line_end e = true -> run_line (print c ++ [e]) = runcmd c.
Proof.
  intros Hc He. destruct (parse_text c [e] Hc) as (c' & line & ps & Hp & Hr).
  { constructor; [|constructor]. unfold line_end, newline, return_ch in He. unfold whitespace.
    apply orb_true_iff in He as [->%Z.eqb_eq| ->%Z.eqb_eq]; set_solver. }
  unfold run_line. by rewrite Hp, Hr.
Qed.

Lemma typed_not_cd c e : line_end e = true -> is_cd (line_buf (print c ++ [e])) = false.
Proof.
  intros He. unfold is_cd, line_buf, print, render. destruct (tks 3 c) as [|t l]; cbn; [|done].
  unfold line_end, newline, return_ch in He. lia.
Qed.

(** A change of directory: the end of the line is replaced by the NUL. *)
Lemma cd_chop d e : Forall (fun c => c <> 0) d -> Z.of_nat (length d) < 96 -> e <> 0 ->
  let buf := line_buf (cd_word ++ d ++ [e]) in
  let buf' := <[(length (cstring buf) - 1)%nat := 0]> buf in
  cstring (drop 3 buf') = d /\ length buf' = NBUF.
Proof.
  intros Hd Hl He buf buf'.
  assert (Hlen : length (cd_word ++ d ++ [e]) = (4 + length d)%nat) by (rewrite !length_app; cbn; lia).
  assert (Hc : cstring buf = cd_word ++ d ++ [e]).
  { apply cstring_line; [|rewrite Hlen; unfold NBUF; lia]. apply Forall_app. split; [by repeat constructor|]. apply Forall_app. split; [done|by repeat constructor]. }
  assert (Hb : buf' = cd_word ++ d ++ 0 :: replicate (NBUF - (4 + length d)) 0).
  { subst buf'. rewrite Hc, Hlen. subst buf. unfold line_buf. rewrite Hlen.
    replace (4 + length d - 1)%nat with (length (cd_word ++ d)) by (rewrite length_app; cbn; lia).
    rewrite !app_assoc, <-(app_assoc (cd_word ++ d)), insert_app_r_alt, Nat.sub_diag by done. by rewrite <-!app_assoc. }
  split; [|subst buf' buf; rewrite length_insert; apply length_line_buf; rewrite Hlen; unfold NBUF; lia].
  rewrite Hb. change 3%nat with (length cd_word). rewrite drop_app_length. by apply cstring_app.
Qed.

(** One turn of the loop. *)
Lemma main_loop_item fuel i e rest buf w :
  item_ok i -> line_end e = true -> length buf = NBUF -> input w = map Some (item_text i ++ [e]) ++ rest ->
  exists buf' w', trace (run (main_loop (S fuel) buf) w) =
      (item_events i ++ fst (trace (run (main_loop fuel buf') w')), snd (trace (run (main_loop fuel buf') w'))) /\
    length buf' = NBUF /\ input w' = rest.
Proof.
  intros Hi He Hb Hin. cbn [main_loop]. pose proof (item_nonzero i e Hi He) as Hnz. pose proof (proj1 Hi) as Hlen.
  edestruct (getcmd_line (item_text i) e rest buf) as (w1 & Hr & Hi1); [done| |done|unfold NBUF; lia| |done|].
  { eapply list.Forall_impl; [by apply item_plain|]. by intros c []. }
  { destruct (item_text i ++ [e]) eqn:E; [by destruct (item_text i)|]. cbn. by inversion Hnz. }
  rewrite Hr, trace_after. clear Hr. change (List.filter observed (ECall prompt :: ?l)) with (ECall prompt :: List.filter observed l).
  rewrite observed_reads. cbn [Z.ltb Z.compare]. destruct i as [c|d]; cbn [item_text item_events] in *.
  - rewrite typed_not_cd, cstring_line, run_line_print by (try done; try apply Hi; rewrite length_app; cbn; unfold NBUF; lia).
    destruct (run_fork1 (fun child => if child then runcmd c else call SysWait (main_loop fuel (line_buf (print c ++ [e])))) w1) as (w2 & -> & Hi2).
    edestruct (run_call SysWait) as (w3 & Hr & Hi3); [done|]. cbn beta iota. rewrite Hr, after_app, trace_after.
    exists (line_buf (print c ++ [e])), w3. split_and!; [done| |congruence]. apply length_line_buf. rewrite length_app; cbn; unfold NBUF; lia.
  - destruct (cd_chop d e) as [Hc Hl].
    { eapply list.Forall_impl; [apply (proj2 Hi)|]. by intros x []. }
    { rewrite length_app in Hlen. cbn in Hlen. lia. }
    { apply Forall_app in Hnz as [_ Hz]. by inversion Hz. }
    change (is_cd _) with true. cbn iota. rewrite <-app_assoc, Hc, run_Call.
    pose proof (term_call (SysChdir d) w1 eq_refl) as Hi2. destruct (sys (SysChdir d) w1) as [[[r a] b] w2]. cbn in Hi2.
    rewrite trace_after. eexists. destruct (r <? 0); [|exists w2; split_and!; [done|done|congruence]].
    edestruct (run_call (SysPrint "cannot cd" d)) as (w3 & Hr & Hi3); [done|]. rewrite Hr, trace_after.
    exists w3. split_and!; [done|done|congruence].
Qed.

Lemma main_loop_end fuel buf w :
  length buf = NBUF -> input w = [] -> trace (run (main_loop (S fuel) buf) w) = ([ECall prompt], Some 0).
Proof.
  intros Hb Hi. cbn [main_loop]. edestruct (getcmd_end buf) as (w' & Hr); [done|by rewrite Hi|]. by rewrite Hr.
Qed.

Definition typed (items : list (item * Z)) : list Z := concat (map (fun ie => item_text (fst ie) ++ [snd ie]) items).

Lemma main_loop_session items : forall fuel buf w,
  Forall (fun ie => item_ok (fst ie) /\ line_end (snd ie) = true) items -> (length items < fuel)%nat ->
  length buf = NBUF -> input w = map Some (typed items) ->
  trace (run (main_loop fuel buf) w) = (concat (map (fun ie => item_events (fst ie)) items) ++ [ECall prompt], Some 0).
Proof.
  induction items as [|[i e] items IH]; intros fuel buf w Hok Hf Hb Hi; destruct fuel as [|fuel]; cbn in Hf; try lia.
  - by apply main_loop_end.
  - inversion Hok as [|? ? [Hi1 He] Hok']; subst. unfold typed in Hi. cbn [map concat fst snd] in *. rewrite map_app in Hi.
    destruct (main_loop_item fuel i e _ buf w Hi1 He Hb Hi) as (buf' & w' & -> & Hb' & Hi').
    rewrite (IH fuel buf' w') by (done || lia). cbn. by rewrite app_assoc.
Qed.

(** ** The descriptors of the console *)

(** Descriptors 0, 1 and 2 that are not open. *)
Definition std_fds : gset Z := list_to_set [0; 1; 2].
Definition missing (w : W) : gset Z := std_fds ∖ fds w.

Lemma open_console_runs n : forall k w, (size (missing w) < n)%nat ->
  exists l w', run (open_console n k) w = after l (run k w') /\ List.filter observed l = [] /\ input w' = input w /\
    ((exists w0, fst (fst (fst (sys (SysOpen console O_RDWR) w0))) < 0) \/ missing w' = ∅).
Proof.
  induction n as [|n IH]; intros k w Hn; [lia|]. cbn [open_console]. rewrite run_Call.
  pose proof (term_open console O_RDWR w) as Ho. pose proof (term_call (SysOpen console O_RDWR) w eq_refl) as Hi.
  destruct (sys (SysOpen console O_RDWR) w) as [[[r a] b] w1] eqn:Es. cbn zeta in *. cbn [fst snd] in *.
  destruct (Z.ltb_spec r 0) as [Hr|Hr].
  { exists [ECall (SysOpen console O_RDWR)], w1. split_and!; [done|done|done|left; exists w; by rewrite Es]. }
  destruct Ho as [Ho|(Hnew & Hfds & Hlow)]; [lia|]. destruct (Z.leb_spec 3 r) as [H3|H3].
  - unfold call. rewrite run_Call. pose proof (term_close r w1) as Hcl. pose proof (term_call (SysClose r) w1 eq_refl) as Hi2.
    destruct (sys (SysClose r) w1) as [[[? ?] ?] w2]. cbn [snd] in *. rewrite after_app.
    eexists _, w2. split_and!; [done|done|congruence|right]. unfold missing. rewrite Hcl, Hfds.
    assert (0 ∈ fds w /\ 1 ∈ fds w /\ 2 ∈ fds w) as (? & ? & ?) by (split_and!; apply Hlow; lia).
    apply leibniz_equiv. intros x. unfold std_fds. rewrite elem_of_difference, elem_of_list_to_set, !elem_of_cons, elem_of_nil.
    split; [|set_solver]. intros [Hx Hno]. exfalso. apply Hno. set_unfold. destruct Hx as [->|[->|[->|[]]]]; (split; [by right|lia]).
  - destruct (IH k w1) as (l & w2 & -> & Hl & Hi2 & Hm); [|rewrite after_app; eexists _, w2; split_and!; [done|done|congruence|done]].
    assert (missing w1 ⊂ missing w) as Hs%subset_size; [|lia]. unfold missing. rewrite Hfds. split; [set_solver|].
    intros Hsub. assert (r ∈ std_fds ∖ fds w) as Hin%Hsub by (unfold std_fds; set_unfold; split; [lia|done]). set_solver.
Qed.

(** The first loop of main() ends with descriptors 0, 1 and 2 open, unless
    the console cannot be opened. *)
Lemma sh_main_runs fuel w :
  exists w', trace (run (sh_main fuel) w) = trace (run (main_loop fuel (replicate NBUF 0)) w') /\ input w' = input w /\
    ((exists w0, fst (fst (fst (sys (SysOpen console O_RDWR) w0))) < 0) \/ missing w' = ∅).
Proof.
  destruct (open_console_runs 4 (main_loop fuel (replicate NBUF 0)) w) as (l & w' & Hr & Hl & Hi & Hm).
  { unfold missing. assert (size (std_fds ∖ fds w) <= size std_fds)%nat by (apply subseteq_size; set_solver).
    change (size std_fds) with 3%nat in *. lia. }
  exists w'. unfold sh_main. rewrite Hr, trace_after, Hl. split; [|done]. by destruct (trace _).
Qed.

(** C5: typing commands makes the shell run them: when the input is a
    sequence of lines, each a command as it is written or a change of
    directory, with fewer than 99 characters, the shell prompts before each
    line, forks a child that runs exactly the command written and waits for
    it, or changes the directory to the one written, and exits at the end of
    the input. *)
Theorem shell_session items fuel w :
  Forall (fun ie => item_ok (fst ie) /\ line_end (snd ie) = true) items -> (length items < fuel)%nat ->
  input w = map Some (typed items) ->
  trace (run (sh_main fuel) w) = (concat (map (fun ie => item_events (fst ie)) items) ++ [ECall prompt], Some 0).
Proof.
  intros Hok Hf Hi. destruct (sh_main_runs fuel w) as (w' & -> & Hi' & _).
  apply main_loop_session; [done|done|apply length_replicate|congruence].
Qed.
End Run.

(** ** A terminal *)

(** The input that is left and the number of open descriptors. *)
Record tty := mk_tty { t_in : list (option Z); t_fds : gset Z }.
Definition lowest (s : gset Z) : Z := default (-1) (list_find (fun x => x ∉ s) [0; 1; 2; 3; 4; 5; 6; 7] ≫= fun p => Some (snd p)).
Definition tty_sys (c : syscall) (w : tty) : (Z * Z * Z) * tty :=
  match c with
  | SysRead _ =>
      match t_in w with
      | Some c :: r => ((1, c, 0), mk_tty r (t_fds w))
      | l => ((0, 0, 0), mk_tty (tl l) (t_fds w))
      end
  | SysOpen _ _ =>
      let fd := lowest (t_fds w) in
      if fd <? 0 then ((fd, 0, 0), w) else ((fd, 0, 0), mk_tty (t_in w) ({[fd]} ∪ t_fds w))
  | SysClose fd => ((0, 0, 0), mk_tty (t_in w) (t_fds w ∖ {[fd]}))
  | _ => ((0, 0, 0), w)
  end.
Definition tty_fork (w : tty) : bool * tty := (true, w).

Lemma lowest_spec s : let fd := lowest s in fd < 0 \/ (fd ∉ s /\ forall x, 0 <= x < fd -> x ∈ s).
Proof.
  unfold lowest. destruct (list_find _ _) as [[i x]|] eqn:E; cbn; [right|left; lia].
  apply list_find_Some in E as (Hi & Hx & Hlow). split; [done|].
  assert (Hid : forall (j : nat) y, [0; 1; 2; 3; 4; 5; 6; 7] !! j = Some y -> y = Z.of_nat j).
  { intros j y. do 8 (destruct j as [|j]; [by intros [= <-]|]). done. }
  rewrite (Hid _ _ Hi). intros y Hy. pose proof (lookup_lt_Some _ _ _ Hi).
  destruct (lookup_lt_is_Some_2 [0; 1; 2; 3; 4; 5; 6; 7] (Z.to_nat y)) as [z Hz]; [lia|].
  pose proof (Hid _ _ Hz) as Ez. rewrite Z2Nat.id in Ez by lia. subst z.
  destruct (decide (y ∈ s)) as [|Hn]; [done|]. exfalso. by apply (Hlow (Z.to_nat y) y Hz); [lia|].
Qed.

#[export] Instance tty_terminal : Terminal tty_sys tty_fork t_in t_fds.
Proof.
  split.
  - intros w c r E. cbn. rewrite E. by eexists.
  - intros w Hw. cbn. destruct (t_in w) as [|[c|] l]; [|done|]; by eexists _, _, _, _.
  - intros [] w Hc; try done. cbn. by destruct (_ <? 0).
  - done.
  - intros p m w. unfold tty_sys. pose proof (lowest_spec (t_fds w)) as H. cbn zeta in *.
    destruct (Z.ltb_spec (lowest (t_fds w)) 0); cbn [fst snd t_fds]; [by left|right].
    destruct H as [|[]]; [lia|]. done.
  - done.
Qed.

(** [ ls > f], [cd d] and an empty line. *)
Lemma shell_session_witness :
  let out := Z.lor (Z.lor O_WRONLY O_CREATE) O_TRUNC in
  let items := [(Typed (REDIR (EXEC [[108; 115]]) [102] out 1), 10); (Cd [100], 13); (Typed (EXEC []), 10)] in
  typed items = [32; 108; 115; 32; 62; 32; 102; 10; 99; 100; 32; 100; 13; 10] /\
  trace (run tty_sys tty_fork (sh_main 4) (mk_tty (map Some (typed items)) ∅)) =
    ([ECall prompt; EFork (runcmd (REDIR (EXEC [[108; 115]]) [102] out 1)); ECall SysWait;
      ECall prompt; ECall (SysChdir [100]);
      ECall prompt; EFork (runcmd (EXEC [])); ECall SysWait; ECall prompt], Some 0).
Proof.
  cbv zeta. split; [reflexivity|].
  apply (shell_session tty_sys tty_fork
    [(Typed (REDIR (EXEC [[108; 115]]) [102] (Z.lor (Z.lor O_WRONLY O_CREATE) O_TRUNC) 1), 10); (Cd [100], 13); (Typed (EXEC []), 10)]);
    [|cbn; lia|reflexivity].
  unfold item_ok. cbn [fst snd item_text cmd_ok]. unfold redir_ok, word_ok.
  repeat first [apply Forall_nil_2|apply Forall_cons_2]; split_and!; try done; try (by repeat constructor); auto.
Defined.

(** The last line of a file that does not end in a newline loses its last
    character when it changes the directory: [cd ab] goes to [a]. *)
Example cd_chops_last :
  trace (run tty_sys tty_fork (sh_main 2) (mk_tty (map Some (cd_word ++ [97; 98])) ∅)) =
    ([ECall prompt; ECall (SysChdir [97]); ECall prompt], Some 0).
Proof. vm_compute. reflexivity. Qed.
