(* ===== verification/FsAlloc.v ===== *)
(** * The block allocator (balloc, bfree of kernel/fs.c)

    Proved against the contract [LogStore] of the block layer: what a block
    contains, which buffers are held and how much room the transaction has
    left is the view [tview] of BlockStore.v. *)

From S2P Require Import Prelude Spinlock Riscv Mem BufCache Log UserIO BlockStore Fs.

(** ** Bits of the bitmap *)

Lemma bit_mask_land x bi : 0 <= bi -> (Z.land x (bit_mask bi) =? 0) = negb (Z.testbit x (bi mod 8)).
Proof.
  intros Hbi. unfold bit_mask. assert (Hm : 0 <= bi mod 8) by (apply Z.mod_pos_bound; lia).
  rewrite Z.shiftl_1_l. destruct (Z.testbit x (bi mod 8)) eqn:E; cbn [negb].
  - apply Z.eqb_neq. intros H0. apply (f_equal (fun z => Z.testbit z (bi mod 8))) in H0.
    rewrite Z.land_spec, E, Z.pow2_bits_true, Z.bits_0 in H0 by done. done.
  - apply Z.eqb_eq, Z.bits_inj'. intros n Hn. rewrite Z.land_spec, Z.bits_0.
    destruct (decide (n = bi mod 8)) as [->|Hne]; [by rewrite E|]. rewrite Z.pow2_bits_false, andb_false_r by done. done.
Qed.

Lemma testbit_u8 x n : 0 <= n < 8 -> Z.testbit (u8 x) n = Z.testbit x n.
Proof. intros Hn. unfold u8. apply Z.mod_pow2_bits_low. lia. Qed.

Lemma bit_free_spec d bi : 0 <= bi -> bit_free d bi = negb (Z.testbit (bit_byte d bi) (bi mod 8)).
Proof. apply bit_mask_land. Qed.

(** The two stores into the bitmap. *)
Definition bit_set (d : list Z) (bi : Z) : list Z := <[Z.to_nat (bi / 8) := u8 (Z.lor (bit_byte d bi) (bit_mask bi))]> d.
Definition bit_clear (d : list Z) (bi : Z) : list Z := <[Z.to_nat (bi / 8) := u8 (Z.land (bit_byte d bi) (Z.lnot (bit_mask bi)))]> d.

Lemma bit_byte_insert d bi k x :
  0 <= bi < 8 * Z.of_nat (length d) -> 0 <= k ->
  bit_byte (<[Z.to_nat (bi / 8) := x]> d) k = if decide (k / 8 = bi / 8) then x else bit_byte d k.
Proof.
  intros Hb Hk. unfold bit_byte. pose proof (Z.div_lt_upper_bound bi 8 (Z.of_nat (length d))).
  pose proof (Z.div_pos bi 8). pose proof (Z.div_pos k 8). case_decide as E.
  - rewrite E, list_lookup_insert_eq by lia. done.
  - rewrite list_lookup_insert_ne by lia. done.
Qed.

Lemma same_bit k bi : k / 8 = bi / 8 -> k mod 8 = bi mod 8 <-> k = bi.
Proof. intros E. pose proof (Z.div_mod k 8). pose proof (Z.div_mod bi 8). lia. Qed.

Lemma bit_set_free d bi k :
  0 <= bi < 8 * Z.of_nat (length d) -> 0 <= k -> bit_free (bit_set d bi) k = if decide (k = bi) then false else bit_free d k.
Proof.
  intros Hb Hk. pose proof (Z.mod_pos_bound k 8). rewrite !bit_free_spec by lia. unfold bit_set. rewrite bit_byte_insert by done.
  case_decide as E; [|rewrite decide_False; [done|congruence]]. rewrite testbit_u8, Z.lor_spec by lia. unfold bit_mask. rewrite Z.shiftl_1_l.
  assert (bit_byte d k = bit_byte d bi) as -> by (unfold bit_byte; by rewrite E). case_decide as Ek.
  - subst. rewrite Z.pow2_bits_true, orb_true_r by lia. done.
  - rewrite Z.pow2_bits_false, orb_false_r; [done|]. intros Em. symmetry in Em. apply (same_bit k bi E) in Em. congruence.
Qed.

Lemma bit_clear_free d bi k :
  0 <= bi < 8 * Z.of_nat (length d) -> 0 <= k -> bit_free (bit_clear d bi) k = if decide (k = bi) then true else bit_free d k.
Proof.
  intros Hb Hk. pose proof (Z.mod_pos_bound k 8). rewrite !bit_free_spec by lia. unfold bit_clear. rewrite bit_byte_insert by done.
  case_decide as E; [|rewrite decide_False; [done|congruence]]. rewrite testbit_u8, Z.land_spec, Z.lnot_spec by lia. unfold bit_mask. rewrite Z.shiftl_1_l.
  assert (bit_byte d k = bit_byte d bi) as -> by (unfold bit_byte; by rewrite E). case_decide as Ek.
  - subst. rewrite Z.pow2_bits_true, andb_false_r by lia. done.
  - rewrite Z.pow2_bits_false, andb_true_r; [done|]. intros Em. symmetry in Em. apply (same_bit k bi E) in Em. congruence.
Qed.

Lemma bit_set_bytes d bi : Forall is_byte d -> Forall is_byte (bit_set d bi).
Proof. intros H. apply Forall_insert; [done|apply u8_range]. Qed.
Lemma bit_clear_bytes d bi : Forall is_byte d -> Forall is_byte (bit_clear d bi).
Proof. intros H. apply Forall_insert; [done|apply u8_range]. Qed.

(** The scan finds the first free bit. *)
Lemma balloc_scan_spec size d b n : forall bi, BPB <= bi + Z.of_nat n ->
  match balloc_scan n size d b bi with
  | Some k => bi <= k < BPB /\ b + k < size /\ bit_free d k = true /\ (forall j, bi <= j < k -> bit_free d j = false)
  | None => forall j, bi <= j < BPB -> b + j < size -> bit_free d j = false
  end.
Proof.
  induction n as [|n IH]; intros bi Hn; cbn [balloc_scan]; [intros; lia|].
  destruct ((bi <? BPB) && (b + bi <? size)) eqn:E.
  - bool_simpl. destruct (bit_free d bi) eqn:Ef; [split_and!; try done; lia|]. specialize (IH (bi + 1) ltac:(lia)).
    destruct (balloc_scan n size d b (bi + 1)) as [k|].
    + destruct IH as (H1 & H2 & H3 & H4). split_and!; try done; [lia|lia|]. intros j Hj. destruct (decide (j = bi)) as [->|]; [done|apply H4; lia].
    + intros j Hj Hs. destruct (decide (j = bi)) as [->|]; [done|apply IH; lia].
  - intros j Hj Hs. apply andb_false_iff in E as [E|E]; bool_simpl; lia.
Qed.

(** ** Views *)

(** The view after a block has been rewritten and logged. *)
Definition t_put (b : Z) (d : list Z) (v : tview) : tview :=
  mkTview (fupd b d (tcontents v)) (theld v) (tdirty v) (pred (troom v)).

Lemma t_drop_hold b bp v : theld v !! b = None -> t_drop b (t_hold b bp v) = v.
Proof. intros Hb. unfold t_drop, t_hold. cbn. rewrite delete_insert_id by done. by destruct v. Qed.
Lemma t_drop_put b bp d v : theld v !! b = None -> b ∉ tdirty v -> t_drop b (t_logged b (t_set b d (t_hold b bp v))) = t_put b d v.
Proof.
  intros Hb Hd. unfold t_drop, t_logged, t_set, t_hold, t_put. cbn. rewrite delete_insert_id by done. f_equal.
  apply leibniz_equiv. set_solver.
Qed.

Section Alloc.
Context {T U : Type} `{LogOps T} `{UserIO U} (dv : Z) (R : T -> tview -> Prop) `{!LogStore T dv R}.
Notation F := (fstate T U).
Implicit Types (s : F) (v : tview).

Definition with_ft (t : T) s : F := mkF (f_sb s) (it_lock s) (inodes s) t (fu s).

Lemma with_ft_same s : with_ft (ft s) s = s.
Proof. by destruct s. Qed.

Lemma wp_blk {A} (m : M T A) s Q : wp m (ft s) (fun a t => Q a (with_ft t s)) -> wp (blk m) s Q.
Proof. intros Hm. by apply wp_zoom. Qed.

(** A transaction at rest: every changed block is logged. *)
Definition at_rest v : Prop := tdirty v = ∅.

(** Rules for the blocks, in the order fs.c calls them. *)
Lemma wp_l_bread s v b (Q : Z -> F -> Prop) :
  R (ft s) v -> 0 <= b < 2 ^ 32 -> theld v !! b = None -> spare v ->
  (forall bp t, R t (t_hold b bp v) -> Q bp (with_ft t s)) -> wp (blk (l_bread dv b)) s Q.
Proof.
  intros HR Hb Hh Hsp HQ. apply wp_blk. eapply wp_mono; [by apply (t_bread (ft s) v b)|]. auto.
Qed.
Lemma wp_l_bdata s v b bp (Q : list Z -> F -> Prop) :
  R (ft s) v -> theld v !! b = Some bp -> Q (tcontents v b) s -> wp (blk (l_bdata bp)) s Q.
Proof.
  intros HR Hb HQ. apply wp_blk. eapply wp_mono; [by apply (t_bdata (ft s) v b bp)|]. intros d t [-> ->]. by rewrite with_ft_same.
Qed.
Lemma wp_l_brelse s v b bp (Q : unit -> F -> Prop) :
  R (ft s) v -> theld v !! b = Some bp -> b ∉ tdirty v ->
  (forall t, R t (t_drop b v) -> Q tt (with_ft t s)) -> wp (blk (l_brelse bp)) s Q.
Proof. intros HR Hb Hd HQ. apply wp_blk. eapply wp_mono; [by apply (t_brelse (ft s) v b bp)|]. intros [] t. auto. Qed.

(** A store into a held block, its log_write() and its release. *)
Lemma wp_blk_store s v b bp d (Q : unit -> F -> Prop) :
  R (ft s) (t_hold b bp v) -> theld v !! b = None -> at_rest v -> (0 < troom v)%nat ->
  length d = Z.to_nat BSIZE -> Forall is_byte d ->
  (forall t, R t (t_put b d v) -> Q tt (with_ft t s)) ->
  wp (blk (l_set_bdata bp d) ;; blk (l_log_write bp) ;; blk (l_brelse bp)) s Q.
Proof.
  intros HR Hh Hr Hroom Hl Hd HQ. unfold at_rest in Hr.
  apply wp_bind, wp_blk. eapply wp_mono; [apply (t_set_bdata (ft s) (t_hold b bp v) b bp d); try done; apply lookup_insert_eq|]. intros [] t1 H1. cbn beta.
  apply wp_bind, wp_blk. eapply wp_mono; [apply (t_log_write t1 (t_set b d (t_hold b bp v)) b bp); [exact H1|apply lookup_insert_eq|done]|]. intros [] t2 H2. cbn beta.
  eapply wp_l_brelse; [exact H2|apply lookup_insert_eq|cbn; set_solver|]. intros t3 H3. rewrite t_drop_put in H3 by (try done; set_solver).
  by apply HQ.
Qed.

Lemma wp_blk_store_k {A} s v b bp d (k : M F A) (Q : A -> F -> Prop) :
  R (ft s) (t_hold b bp v) -> theld v !! b = None -> at_rest v -> (0 < troom v)%nat ->
  length d = Z.to_nat BSIZE -> Forall is_byte d ->
  (forall t, R t (t_put b d v) -> wp k (with_ft t s) Q) ->
  wp (blk (l_set_bdata bp d) ;; blk (l_log_write bp) ;; blk (l_brelse bp) ;; k) s Q.
Proof.
  intros HR Hh Hr Hroom Hl Hd HQ.
  pose proof (wp_blk_store s v b bp d (fun _ s' => wp k s' Q) HR Hh Hr Hroom Hl Hd HQ) as Hw.
  unfold wp at 1, bind in Hw. unfold wp at 1, bind.
  destruct (blk (l_set_bdata bp d) s) as [? s1|?|? ?|? ?|]; try done. destruct (blk (l_log_write bp) s1) as [? s2|?|? ?|? ?|]; try done.
  by destruct (blk (l_brelse bp) s2).
Qed.

(** ** The allocator *)

Definition used (sb : superblock) v (b : Z) : bool := negb (bit_free (tcontents v (BBLOCK b sb)) (b mod BPB)).

(** A sane superblock: the bitmap lies within the disk. *)
Record sb_ok (sb : superblock) : Prop := {
  sbk_size : 0 < sb_size sb < 2 ^ 32;
  sbk_bmap : 0 < sb_bmapstart sb;
  sbk_end : forall b, 0 <= b < sb_size sb -> BBLOCK b sb < sb_size sb
}.
(** The boot block and the bitmap's own blocks are not free. *)
Record bitmap_ok (sb : superblock) v : Prop := {
  bmk_boot : used sb v 0 = true;
  bmk_map : forall b, 0 <= b < sb_size sb -> used sb v (BBLOCK b sb) = true
}.
(** Nothing the allocator touches is held, and at most one block is. *)
Definition unheld (sb : superblock) v : Prop :=
  spare v /\ forall b, 0 <= b < sb_size sb -> used sb v b = false \/ (exists k, 0 <= k < sb_size sb /\ b = BBLOCK k sb) -> theld v !! b = None.

(** The view after balloc() has returned [b]. *)
Definition allocated (sb : superblock) (b : Z) v : tview :=
  t_put b zero_block (t_put (BBLOCK b sb) (bit_set (tcontents v (BBLOCK b sb)) (b mod BPB)) v).

Lemma BPB_pos : 0 < BPB.
Proof. done. Qed.

Lemma wp_bzero s v b (Q : unit -> F -> Prop) :
  R (ft s) v -> 0 <= b < 2 ^ 32 -> theld v !! b = None -> spare v -> at_rest v -> (0 < troom v)%nat ->
  (forall t, R t (t_put b zero_block v) -> Q tt (with_ft t s)) -> wp (bzero dv b) s Q.
Proof.
  intros HR Hb Hh Hsp Hr Hroom HQ. unfold bzero. apply wp_bind. eapply wp_l_bread; try done. intros bp t H1.
  eapply wp_blk_store; [exact H1|exact Hh|exact Hr|exact Hroom|by rewrite length_replicate|by apply Forall_replicate|]. intros t2 H2. by apply HQ.
Qed.

Lemma BBLOCK_near b bi sb : (BPB | b) -> 0 <= bi < BPB -> BBLOCK (b + bi) sb = BBLOCK b sb /\ (b + bi) mod BPB = bi.
Proof.
  intros [q ->] Hbi. unfold BBLOCK. replace (q * BPB + bi) with (bi + q * BPB) by lia. rewrite Z.div_add, Z.mod_add, Z.div_mul by (pose proof BPB_pos; lia).
  rewrite Z.mod_small, Z.div_small by lia. done.
Qed.

Lemma BBLOCK_range sb b : sb_ok sb -> 0 <= b < sb_size sb -> 0 <= BBLOCK b sb < sb_size sb.
Proof.
  intros [H1 H2 H3] Hb. split; [|by apply H3]. unfold BBLOCK. pose proof (Z.div_pos b BPB). pose proof BPB_pos. lia.
Qed.

Lemma contents_len s v b : R (ft s) v -> 8 * Z.of_nat (length (tcontents v b)) = BPB.
Proof. intros HR. rewrite (t_len _ _ b HR). done. Qed.

Lemma used_at sb v b bi : (BPB | b) -> 0 <= bi < BPB -> used sb v (b + bi) = negb (bit_free (tcontents v (BBLOCK b sb)) bi).
Proof. intros Hd Hb. unfold used. by destruct (BBLOCK_near b bi sb Hd Hb) as [-> ->]. Qed.

(** One block of the bitmap: either all of it is in use, or its first free
    block is taken. *)
Lemma wp_balloc_body s v b (Q : Z + Z -> F -> Prop) :
  let sb := f_sb s in
  R (ft s) v -> at_rest v -> (2 <= troom v)%nat -> sb_ok sb -> bitmap_ok sb v -> unheld sb v ->
  (BPB | b) -> 0 <= b < sb_size sb ->
  (forall t, R t v -> (forall k, b <= k < b + BPB -> k < sb_size sb -> used sb v k = true) -> Q (inl (b + BPB)) (with_ft t s)) ->
  (forall t k, R t (allocated sb k v) -> b <= k < sb_size sb -> used sb v k = false -> (forall j, b <= j < k -> used sb v j = true) ->
     Q (inr k) (with_ft t s)) ->
  wp (balloc_body dv b) s Q.
Proof.
  intros sb HR Hr Hroom Hsb Hbm [Hsp Hun] Hdiv Hb Hnone Hsome. unfold balloc_body. wp_step. wp_step. fold sb.
  rewrite (proj2 (Z.ltb_lt _ _)) by lia. pose proof (BBLOCK_range sb b Hsb Hb) as Hbb. pose proof (sbk_size _ Hsb) as Hsz.
  assert (Hh : theld v !! BBLOCK b sb = None) by (apply Hun; [done|right; by exists b]).
  apply wp_bind. eapply wp_l_bread; [exact HR|lia|exact Hh|exact Hsp|]. intros bp t1 H1. cbn beta.
  apply wp_bind. eapply wp_l_bdata; [exact H1|apply lookup_insert_eq|]. cbn [tcontents t_hold].
  pose proof (balloc_scan_spec (sb_size sb) (tcontents v (BBLOCK b sb)) b (Z.to_nat BPB) 0 ltac:(done)) as Hsc.
  destruct (balloc_scan _ _ _ _ _) as [bi|].
  - destruct Hsc as (Hbi & Hlt & Hfree & Hfirst). destruct (BBLOCK_near b bi sb Hdiv Hbi) as [Eb Em].
    assert (Hu : used sb v (b + bi) = false) by (rewrite used_at by done; by rewrite Hfree).
    eapply (wp_blk_store_k _ v (BBLOCK b sb)); [exact H1|exact Hh|exact Hr|lia|by rewrite length_insert, (t_len _ _ _ HR)|apply bit_set_bytes, (t_bytes _ _ _ HR)|].
    fold (bit_set (tcontents v (BBLOCK b sb)) bi). intros t2 H2. cbn beta. wp_step.
    eapply wp_bzero; [exact H2|cbn in *; lia|by apply Hun; [lia|left]|exact Hsp|done|cbn; lia|]. intros t3 H3. cbn [ft with_ft] in *. wp_step.
    apply (Hsome t3); [|lia|done|].
    + unfold allocated. by rewrite Eb, Em.
    + intros j Hj. replace j with (b + (j - b)) by lia. rewrite used_at by (try done; lia). rewrite Hfirst by lia. done.
  - wp_step. eapply wp_l_brelse; [exact H1|apply lookup_insert_eq|unfold at_rest in Hr; cbn; rewrite Hr; set_solver|]. rewrite t_drop_hold by done. intros t2 H2. wp_step.
    apply (Hnone t2 H2). intros k Hk Hks. replace k with (b + (k - b)) by lia. rewrite used_at by (try done; lia). rewrite Hsc by lia. done.
Qed.

(** balloc() takes the first free block, or returns 0 when there is none. *)
Lemma wp_balloc s v (Q : Z -> F -> Prop) :
  let sb := f_sb s in
  R (ft s) v -> at_rest v -> (2 <= troom v)%nat -> sb_ok sb -> bitmap_ok sb v -> unheld sb v ->
  (forall t, R t v -> (forall k, 0 <= k < sb_size sb -> used sb v k = true) -> Q 0 (with_ft t s)) ->
  (forall t b, R t (allocated sb b v) -> 0 < b < sb_size sb -> used sb v b = false -> (forall j, 0 <= j < b -> used sb v j = true) ->
     Q b (with_ft t s)) ->
  wp (balloc dv) s Q.
Proof.
  intros sb HR Hr Hroom Hsb Hbm Hun Hnone Hsome. unfold balloc. wp_step. wp_step. fold sb. pose proof (sbk_size _ Hsb) as Hsz.
  apply (wp_loop (fun b s' => (BPB | b) /\ 0 <= b /\ (forall k, 0 <= k < b -> k < sb_size sb -> used sb v k = true) /\ exists t, s' = with_ft t s /\ R t v)
    (fun b => Z.to_nat ((sb_size sb - b) / BPB + 1))).
  - intros b s' (Hdiv & Hb & Hbelow & t & -> & Ht). destruct (decide (b < sb_size sb)) as [Hlt|Hge].
    + eapply wp_balloc_body; [exact Ht|exact Hr|exact Hroom|exact Hsb|exact Hbm|exact Hun|exact Hdiv|split; [exact Hb|exact Hlt]| |].
      * intros t' Ht' Hall. cbn beta iota. change (f_sb (with_ft t s)) with sb in *. split.
        -- split_and!; [by apply Z.divide_add_r; [|apply Z.divide_refl]|pose proof BPB_pos; lia| |by exists t'].
           intros k Hk Hks. destruct (decide (k < b)); [by apply Hbelow; [lia|]|apply Hall; [lia|done]].
        -- pose proof BPB_pos. replace (sb_size sb - (b + BPB)) with (sb_size sb - b + (-1) * BPB) by lia. rewrite Z.div_add by lia.
           assert (0 <= (sb_size sb - b) / BPB) by (apply Z.div_pos; lia). lia.
      * intros t' k Ht' Hk Hu Hj. cbn beta iota. change (f_sb (with_ft t s)) with sb in *. apply (Hsome t' k); try done.
        -- destruct (decide (k = 0)) as [->|]; [|lia]. destruct Hbm as [Hboot _]. congruence.
        -- intros j Hj'. destruct (decide (j < b)); [by apply Hbelow; [lia|lia]|apply Hj; lia].
    + unfold balloc_body. wp_step. wp_step. cbn [f_sb with_ft]. fold sb. rewrite (proj2 (Z.ltb_ge _ _)) by lia. wp_step.
      apply (Hnone t Ht). intros k Hk. apply Hbelow; lia.
  - split_and!; [apply Z.divide_0_r|lia|intros; lia|]. exists (ft s). by rewrite with_ft_same.
  - rewrite Z.sub_0_r. assert (0 <= sb_size sb / BPB) by (apply Z.div_pos; [lia|done]). lia.
Qed.

(** ** What allocation and freeing do to the bitmap *)

Lemma used_put sb v b d k : BBLOCK k sb <> b -> used sb (t_put b d v) k = used sb v k.
Proof. intros Hne. unfold used. cbn. by rewrite fupd_ne. Qed.

Lemma same_bblock b k sb : BBLOCK k sb = BBLOCK b sb -> k mod BPB = b mod BPB -> k = b.
Proof. unfold BBLOCK. intros E1 E2. pose proof BPB_pos. pose proof (Z.div_mod k BPB). pose proof (Z.div_mod b BPB). assert (k / BPB = b / BPB) by lia. lia. Qed.

Lemma used_bitmap sb s v b k (f : list Z -> Z -> list Z) (x : bool) :
  R (ft s) v -> 0 <= b -> 0 <= k ->
  (forall d bi j, 0 <= bi < 8 * Z.of_nat (length d) -> 0 <= j -> bit_free (f d bi) j = if decide (j = bi) then x else bit_free d j) ->
  used sb (t_put (BBLOCK b sb) (f (tcontents v (BBLOCK b sb)) (b mod BPB)) v) k = if decide (k = b) then negb x else used sb v k.
Proof.
  intros HR Hb Hk Hf. pose proof (Z.mod_pos_bound b BPB BPB_pos). pose proof (Z.mod_pos_bound k BPB BPB_pos).
  destruct (decide (BBLOCK k sb = BBLOCK b sb)) as [E|Hne].
  - unfold used. cbn [tcontents t_put]. rewrite E, fupd_eq. rewrite Hf by (rewrite ?(contents_len s v _ HR); lia).
    destruct (decide (k = b)) as [->|Hkb]; [by rewrite decide_True|]. rewrite decide_False; [done|]. intros Em. by apply Hkb, (same_bblock b k sb).
  - rewrite used_put by done. rewrite decide_False; [done|]. intros ->. done.
Qed.

Lemma used_allocated sb s v b k :
  R (ft s) v -> sb_ok sb -> bitmap_ok sb v -> 0 <= b < sb_size sb -> used sb v b = false -> 0 <= k < sb_size sb ->
  used sb (allocated sb b v) k = if decide (k = b) then true else used sb v k.
Proof.
  intros HR Hsb Hbm Hb Hu Hk. unfold allocated. rewrite used_put.
  - rewrite (used_bitmap sb s v b k bit_set false) by (try done; try lia; intros; by apply bit_set_free). done.
  - intros E. destruct Hbm as [_ Hmap]. specialize (Hmap k Hk). congruence.
Qed.

Lemma wp_bfree s v b (Q : unit -> F -> Prop) :
  let sb := f_sb s in
  R (ft s) v -> at_rest v -> (1 <= troom v)%nat -> sb_ok sb -> 0 <= b < sb_size sb -> theld v !! BBLOCK b sb = None -> spare v ->
  used sb v b = true ->
  (forall t, R t (t_put (BBLOCK b sb) (bit_clear (tcontents v (BBLOCK b sb)) (b mod BPB)) v) -> Q tt (with_ft t s)) ->
  wp (bfree dv b) s Q.
Proof.
  intros sb HR Hr Hroom Hsb Hb Hh Hsp Hu HQ. unfold bfree. wp_step. wp_step. fold sb. pose proof (BBLOCK_range sb b Hsb Hb) as Hbb. pose proof (sbk_size _ Hsb) as Hsz.
  apply wp_bind. eapply wp_l_bread; [exact HR|lia|exact Hh|exact Hsp|]. intros bp t1 H1. cbn beta.
  apply wp_bind. eapply wp_l_bdata; [exact H1|apply lookup_insert_eq|]. cbn [tcontents t_hold].
  unfold used in Hu. apply negb_true_iff in Hu. rewrite Hu.
  eapply (wp_blk_store _ v (BBLOCK b sb)); [exact H1|exact Hh|exact Hr|lia|by rewrite length_insert, (t_len _ _ _ HR)|apply bit_clear_bytes, (t_bytes _ _ _ HR)|].
  intros t2 H2. by apply HQ.
Qed.

(** Freeing a free block is a panic. *)
Lemma bfree_free s v b :
  let sb := f_sb s in
  R (ft s) v -> sb_ok sb -> 0 <= b < sb_size sb -> theld v !! BBLOCK b sb = None -> spare v -> used sb v b = false ->
  bfree dv b s = Panic "freeing free block".
Proof.
  intros sb HR Hsb Hb Hh Hsp Hu. pose proof (BBLOCK_range sb b Hsb Hb) as Hbb. pose proof (sbk_size _ Hsb) as Hsz. unfold used in Hu. apply negb_false_iff in Hu.
  assert (Hp : wp (let! bp := blk (l_bread dv (BBLOCK b sb)) in let! d := blk (l_bdata bp) in ret d) s (fun d s' => d = tcontents v (BBLOCK b sb))).
  { apply wp_bind. eapply wp_l_bread; [exact HR|lia|exact Hh|exact Hsp|]. intros bp t1 H1. cbn beta.
    apply wp_bind. eapply wp_l_bdata; [exact H1|apply lookup_insert_eq|]. done. }
  unfold wp, bind in Hp. unfold bfree. fold sb. unfold bind, gets. fold sb. destruct (blk (l_bread dv (BBLOCK b sb)) s) as [bp s1|?|? ?|? ?|]; try done.
  destruct (blk (l_bdata bp) s1) as [d s2|?|? ?|? ?|]; try done. unfold ret in Hp. subst d. by rewrite Hu.
Qed.

Lemma held_put b d v : theld (t_put b d v) = theld v.
Proof. done. Qed.

(** C15: the block allocator.  balloc() returns 0 exactly when every block is
    in use, and then changes nothing; otherwise it returns the first free
    block, marks it and only it as used, and fills it with zeroes, leaving
    every block but that and its bitmap block alone.  bfree() then makes the
    bitmap what it was, and a second bfree() is a panic.  (The caller holds no
    block the allocator needs, and at most one in all.) *)
Theorem balloc_bfree_exact s v :
  let sb := f_sb s in
  R (ft s) v -> at_rest v -> (3 <= troom v)%nat -> sb_ok sb -> bitmap_ok sb v -> unheld sb v ->
  wp (balloc dv) s (fun b s1 => exists v1, R (ft s1) v1 /\ s1 = with_ft (ft s1) s /\
    ((b = 0 /\ v1 = v /\ forall k, 0 <= k < sb_size sb -> used sb v k = true) \/
     (0 < b < sb_size sb /\ used sb v b = false /\ (forall k, 0 <= k < b -> used sb v k = true) /\
      tcontents v1 b = zero_block /\
      (forall k, 0 <= k < sb_size sb -> used sb v1 k = if decide (k = b) then true else used sb v k) /\
      (forall k, k <> b -> k <> BBLOCK b sb -> tcontents v1 k = tcontents v k) /\
      wp (bfree dv b) s1 (fun _ s2 => exists v2, R (ft s2) v2 /\
        (forall k, 0 <= k < sb_size sb -> used sb v2 k = used sb v k) /\
        bfree dv b s2 = Panic "freeing free block")))).
Proof.
  intros sb HR Hr Hroom Hsb Hbm Hunh. pose proof Hunh as [Hsp Hun]. eapply wp_balloc; [exact HR|exact Hr|lia|exact Hsb|exact Hbm|exact Hunh| |].
  { intros t Ht Hall. exists v. split; [done|]. split; [done|]. by left. }
  fold sb. intros t b Ht Hb Hu Hfirst. exists (allocated sb b v). split; [done|]. split; [done|]. right.
  assert (Hua : forall k, 0 <= k < sb_size sb -> used sb (allocated sb b v) k = if decide (k = b) then true else used sb v k).
  { intros k Hk. apply (used_allocated sb s); try done. lia. }
  assert (Hbb : theld v !! BBLOCK b sb = None).
  { apply Hun; [by apply BBLOCK_range; [|lia]|]. right. exists b. split; [lia|done]. }
  split_and!; [lia|lia|done|done|cbn; by rewrite fupd_eq|done|intros k H1 H2; cbn; by rewrite !fupd_ne by done|].
  eapply wp_bfree; [exact Ht|exact Hr|cbn; lia|exact Hsb|cbn [f_sb with_ft]; fold sb; lia|exact Hbb|exact Hsp|change (f_sb (with_ft t s)) with sb; rewrite Hua by lia; by rewrite decide_True|].
  change (f_sb (with_ft t s)) with sb. intros t2 H2. eexists. split; [exact H2|].
  assert (Hu2 : forall k, 0 <= k < sb_size sb -> used sb (t_put (BBLOCK b sb) (bit_clear (tcontents (allocated sb b v) (BBLOCK b sb)) (b mod BPB)) (allocated sb b v)) k = used sb v k).
  { intros k Hk. rewrite (used_bitmap sb (with_ft t s) (allocated sb b v) b k bit_clear true Ht) by (try lia; intros; by apply bit_clear_free).
    case_decide as Ek; [by subst|]. rewrite Hua by done. by rewrite decide_False. }
  split; [exact Hu2|]. eapply bfree_free; [exact H2|exact Hsb|cbn [f_sb with_ft]; fold sb; lia|exact Hbb|exact Hsp|]. change (f_sb (with_ft t2 (with_ft t s))) with sb. rewrite Hu2 by lia. exact Hu.
Qed.

End Alloc.
