(* ===== verification/FsBmap.v ===== *)
(** * The blocks of a file (bmap of kernel/fs.c)

    [daddr] is the block number a file has for its [k]-th block, 0 if none.
    [file_ok] says that the blocks of a file are its own; bmap() keeps it,
    gives the [k]-th block, and changes nothing else a file consists of. *)

From S2P Require Import Prelude Spinlock Riscv Mem BufCache Log LogFacts UserIO BlockStore Fs FsAlloc.

Definition ind_addr (ip : inode) : Z := default 0 (i_addrs ip !! Z.to_nat NDIRECT).
Definition daddr (v : tview) (ip : inode) (k : Z) : Z :=
  if k <? NDIRECT then default 0 (i_addrs ip !! Z.to_nat k)
  else if ind_addr ip =? 0 then 0 else ind_get (tcontents v (ind_addr ip)) (k - NDIRECT).

(** ** Words of an indirect block *)

Lemma length_ind_put d j v : length d = Z.to_nat BSIZE -> 0 <= j < NINDIRECT -> length (ind_put d j v) = Z.to_nat BSIZE.
Proof. intros Hd Hj. unfold ind_put. rewrite length_put_u32; [done|]. rewrite Hd. change NINDIRECT with 256 in *; change BSIZE with 1024 in *. lia. Qed.
Lemma ind_put_bytes d j v : Forall is_byte d -> Forall is_byte (ind_put d j v).
Proof. intros Hd. unfold ind_put, put_u32. apply Forall_app. split; [by apply Forall_take|]. apply Forall_app. split; [apply le_bytes_is_byte|by apply Forall_drop]. Qed.
Lemma ind_get_put d j v k :
  length d = Z.to_nat BSIZE -> 0 <= j < NINDIRECT -> 0 <= k < NINDIRECT -> 0 <= v < 2 ^ 32 ->
  ind_get (ind_put d j v) k = if decide (k = j) then v else ind_get d k.
Proof.
  intros Hd Hj Hk Hv. unfold ind_get, ind_put; change NINDIRECT with 256 in *; change BSIZE with 1024 in *. case_decide as E.
  - subst. rewrite get_put_u32 by lia. by apply u32_small.
  - apply get_put_u32_ne; lia.
Qed.
Lemma ind_get_zero k : 0 <= k < NINDIRECT -> ind_get zero_block k = 0.
Proof.
  intros Hk. unfold ind_get, get_u32, zero_block. rewrite drop_replicate, take_replicate.
  replace (Init.Nat.min 4 _) with 4%nat; [done|]. change NINDIRECT with 256 in *; change BSIZE with 1024 in *. lia.
Qed.
Lemma get_u32_range d o : Forall is_byte d -> 0 <= get_u32 d o < 2 ^ 32.
Proof.
  intros Hd. unfold get_u32. assert (Hb : Forall is_byte (take 4 (drop o d))) by (by apply Forall_take, Forall_drop).
  pose proof (le_val_bound _ Hb) as Hl. assert (Z.of_nat (length (take 4 (drop o d))) <= 4) by (rewrite length_take; lia).
  assert (256 ^ Z.of_nat (length (take 4 (drop o d))) <= 256 ^ 4) by (apply Z.pow_le_mono_r; lia). lia.
Qed.

Section Bmap.
Context {T U : Type} `{LogOps T} `{UserIO U} (dv : Z) (R : T -> tview -> Prop) `{!LogStore T dv R}.
(** The first data block. *)
Context (D : Z).
Notation F := (fstate T U).
Implicit Types (s : F) (v : tview) (ip : inode).

(** Everything below the data blocks is in use, the bitmap included. *)
Record layout_ok (sb : superblock) v : Prop := {
  ly_sb : sb_ok sb;
  ly_data : 0 < D <= sb_size sb;
  ly_map : forall b, 0 <= b < sb_size sb -> BBLOCK b sb < D;
  ly_meta : forall b, 0 <= b < D -> used sb v b = true
}.
Definition data_block (sb : superblock) v (b : Z) : Prop := D <= b < sb_size sb /\ used sb v b = true.

Record file_ok (sb : superblock) v ip : Prop := {
  fk_len : length (i_addrs ip) = 13%nat;
  fk_ind : ind_addr ip <> 0 -> data_block sb v (ind_addr ip);
  fk_blk : forall k, 0 <= k < MAXFILE -> daddr v ip k <> 0 -> data_block sb v (daddr v ip k) /\ daddr v ip k <> ind_addr ip;
  fk_inj : forall j k, 0 <= j < MAXFILE -> 0 <= k < MAXFILE -> daddr v ip j <> 0 -> daddr v ip j = daddr v ip k -> j = k
}.

(** What a call that may allocate leaves of the rest of the disk. *)
Record extends (sb : superblock) (keep : Z -> Prop) v v' : Prop := {
  ex_used : forall b, 0 <= b < sb_size sb -> used sb v b = true -> used sb v' b = true;
  ex_data : forall b, data_block sb v b -> keep b -> tcontents v' b = tcontents v b;
  ex_meta : forall b, 0 <= b < D -> (forall k, 0 <= k < sb_size sb -> b <> BBLOCK k sb) -> tcontents v' b = tcontents v b
}.

Lemma layout_bitmap sb v : layout_ok sb v -> bitmap_ok sb v.
Proof.
  intros [H1 H2 H3 H4]. split; [apply H4; lia|]. intros b Hb. apply H4. split; [apply BBLOCK_range; [done|lia]|by apply H3].
Qed.

Lemma not_data sb v b : layout_ok sb v -> 0 <= b < sb_size sb -> used sb v b = false -> D <= b.
Proof. intros [_ _ _ Hm] Hb Hu. destruct (decide (b < D)); [|lia]. rewrite Hm in Hu by lia. done. Qed.

(** *** After an allocation *)

Section Allocated.
Context (s : F) (v : tview) (b : Z) (sb := f_sb s).
Context (HR : R (ft s) v) (Hly : layout_ok sb v) (Hb : 0 < b < sb_size sb) (Hu : used sb v b = false).

Lemma alloc_used k : 0 <= k < sb_size sb -> used sb (allocated sb b v) k = if decide (k = b) then true else used sb v k.
Proof. intros Hk. apply (used_allocated dv R sb s); try done; [apply Hly|by apply layout_bitmap|lia]. Qed.

Lemma alloc_contents k : k <> b -> k <> BBLOCK b sb -> tcontents (allocated sb b v) k = tcontents v k.
Proof. intros H1 H2. cbn. by rewrite !fupd_ne by done. Qed.

Lemma alloc_layout : layout_ok sb (allocated sb b v).
Proof.
  destruct Hly as [H1 H2 H3 H4]. split; try done. intros k Hk. rewrite alloc_used by lia. case_decide; [done|by apply H4].
Qed.

Lemma alloc_extends keep : extends sb keep v (allocated sb b v).
Proof.
  split.
  - intros k Hk Hku. rewrite alloc_used by done. by case_decide.
  - intros k [Hk Hku] _. apply alloc_contents; [congruence|]. pose proof (ly_map _ _ Hly b ltac:(lia)). lia.
  - intros k Hk Hne. apply alloc_contents; [|apply Hne; lia]. intros ->. rewrite (ly_meta _ _ Hly) in Hu by done. done.
Qed.

Lemma alloc_data : data_block sb (allocated sb b v) b.
Proof. split; [|rewrite alloc_used by lia; by rewrite decide_True]. split; [|lia]. apply (not_data sb v); [done|lia|done]. Qed.

Lemma data_mono k : data_block sb v k -> data_block sb (allocated sb b v) k /\ k <> b.
Proof. intros [H1 H2]. destruct Hly as [_ Hd _ _]. split; [|congruence]. split; [done|]. rewrite alloc_used by lia. by case_decide. Qed.

Lemma data_contents k : data_block sb v k -> tcontents (allocated sb b v) k = tcontents v k.
Proof. intros Hk. by apply (alloc_extends (fun _ => True)). Qed.

(** The file itself is as before. *)
Lemma alloc_daddr ip k : file_ok sb v ip -> daddr (allocated sb b v) ip k = daddr v ip k.
Proof.
  intros Hf. unfold daddr. destruct (_ <? _); [done|]. destruct (Z.eqb_spec (ind_addr ip) 0); [done|]. rewrite data_contents; [done|]. by apply Hf.
Qed.
Lemma alloc_file ip : file_ok sb v ip -> file_ok sb (allocated sb b v) ip.
Proof.
  intros Hf. split.
  - apply Hf.
  - intros Hi. by apply data_mono, Hf.
  - intros k Hk. rewrite alloc_daddr by done. intros Hd. destruct (fk_blk _ _ _ Hf k Hk Hd). split; [by apply data_mono|done].
  - intros j k Hj Hk. rewrite !alloc_daddr by done. by apply Hf.
Qed.
(** The new block is none of the file's. *)
Lemma alloc_fresh ip : file_ok sb v ip -> ind_addr ip <> b /\ forall k, 0 <= k < MAXFILE -> daddr v ip k <> b.
Proof.
  intros Hf. split.
  - intros E. destruct (fk_ind _ _ _ Hf) as [_ ?]; [lia|]. congruence.
  - intros k Hk E. destruct (fk_blk _ _ _ Hf k Hk) as [[_ ?] _]; [lia|]. congruence.
Qed.
End Allocated.

(** *** Giving a block to the file *)

(** [ip'] is [ip] with other block addresses. *)
Definition same_inode ip ip' : Prop :=
  i_dev ip' = i_dev ip /\ i_inum ip' = i_inum ip /\ i_size ip' = i_size ip /\ i_type ip' = i_type ip /\ di_major (i_di ip') = di_major (i_di ip) /\
  di_minor (i_di ip') = di_minor (i_di ip) /\ i_nlink ip' = i_nlink ip /\ i_valid ip' = i_valid ip /\ i_ref ip' = i_ref ip /\ i_lock ip' = i_lock ip.

Lemma ind_set_addr ip k a : length (i_addrs ip) = 13%nat -> 0 <= k <= NDIRECT ->
  ind_addr (set_iaddr k a ip) = if decide (k = NDIRECT) then a else ind_addr ip.
Proof.
  intros Hl Hk. unfold ind_addr, set_iaddr, i_addrs, set_idi in *. cbn. case_decide as E.
  - subst. rewrite list_lookup_insert_eq; [done|]. rewrite Hl. unfold NDIRECT. lia.
  - rewrite list_lookup_insert_ne; [done|]. unfold NDIRECT in *. lia.
Qed.

Lemma daddr_set_direct v ip k a j : length (i_addrs ip) = 13%nat -> 0 <= k < NDIRECT -> 0 <= j ->
  daddr v (set_iaddr k a ip) j = if decide (j = k) then a else daddr v ip j.
Proof.
  intros Hl Hk Hj. unfold daddr. rewrite ind_set_addr by (try done; lia). rewrite (decide_False (P := k = NDIRECT)) by lia.
  destruct (Z.ltb_spec j NDIRECT); [|rewrite decide_False by lia; done].
  unfold set_iaddr, i_addrs, set_idi in *. cbn. case_decide as E.
  - subst. rewrite list_lookup_insert_eq; [done|]. rewrite Hl. unfold NDIRECT in *. lia.
  - rewrite list_lookup_insert_ne; [done|]. lia.
Qed.

Lemma daddr_set_ind v ip a j : length (i_addrs ip) = 13%nat -> ind_addr ip = 0 -> a <> 0 -> tcontents v a = zero_block -> 0 <= j < MAXFILE ->
  daddr v (set_iaddr NDIRECT a ip) j = daddr v ip j.
Proof.
  intros Hl Hi Ha Hz Hj. unfold daddr. rewrite ind_set_addr by (try done; unfold NDIRECT; lia). rewrite (decide_True (P := NDIRECT = NDIRECT)) by done.
  destruct (Z.ltb_spec j NDIRECT).
  - unfold set_iaddr, i_addrs, set_idi in *. cbn. rewrite list_lookup_insert_ne; [done|]. unfold NDIRECT in *. lia.
  - rewrite Hi, (proj2 (Z.eqb_neq _ _) Ha), Hz, Z.eqb_refl. rewrite ind_get_zero; [done|]. change MAXFILE with (NDIRECT + NINDIRECT) in *. lia.
Qed.

Lemma same_set_addr ip k a : same_inode ip (set_iaddr k a ip).
Proof. done. Qed.

Lemma length_set_addr ip k a : length (i_addrs (set_iaddr k a ip)) = length (i_addrs ip).
Proof. unfold set_iaddr, i_addrs, set_idi. cbn. apply length_insert. Qed.

(** A fresh block [b] as block [k] of a file: the new numbering. *)
Lemma file_add sb v v' ip ip' b k :
  file_ok sb v ip -> 0 <= k < MAXFILE -> daddr v ip k = 0 -> data_block sb v' b ->
  (forall x, data_block sb v x -> data_block sb v' x /\ x <> b) ->
  length (i_addrs ip') = 13%nat -> ind_addr ip' = ind_addr ip ->
  (forall j, 0 <= j < MAXFILE -> daddr v' ip' j = if decide (j = k) then b else daddr v ip j) ->
  file_ok sb v' ip'.
Proof.
  intros Hf Hk Hk0 Hb Hmono Hl Hi Hd. split; [done| | |].
  - rewrite Hi. intros Hne. by apply Hmono, Hf.
  - intros j Hj. rewrite Hd, Hi by done. case_decide as E.
    + intros Hne. split; [done|]. intros Eb. destruct (decide (ind_addr ip = 0)) as [|Hn0]; [congruence|].
      apply (fk_ind _ _ _ Hf), Hmono in Hn0 as [_ ?]. congruence.
    + intros Hne. destruct (fk_blk _ _ _ Hf j Hj Hne). split; [by apply Hmono|done].
  - intros i j Hi' Hj. rewrite !Hd by done. repeat case_decide; subst; intros Hne E; try done.
    + exfalso. destruct (fk_blk _ _ _ Hf j Hj) as [Hdb _]; [congruence|]. apply Hmono in Hdb as [_ ?]. congruence.
    + exfalso. destruct (fk_blk _ _ _ Hf i Hi' Hne) as [Hdb _]. apply Hmono in Hdb as [_ ?]. congruence.
    + by eapply (fk_inj _ _ _ Hf).
Qed.

(** ** bmap *)

(** A state whose inode [i] has become [ip'] and whose blocks are [t]. *)
Definition upd (i : Z) ip' (t : T) s : F := mkF (f_sb s) (it_lock s) (<[Z.to_nat i := ip']> (inodes s)) t (fu s).

Lemma upd_same i ip t s : inodes s !! Z.to_nat i = Some ip -> with_ft t s = upd i ip t s.
Proof. intros Hi. unfold upd, with_ft. by rewrite list_insert_id. Qed.
Lemma upd_upd i ip ip' t t' s : upd i ip' t' (upd i ip t s) = upd i ip' t' s.
Proof. unfold upd. cbn. by rewrite list_insert_insert_eq. Qed.
Lemma with_upd i ip t t' s : with_ft t' (upd i ip t s) = upd i ip t' s.
Proof. done. Qed.
Lemma upd_lookup i ip ip0 t s : inodes s !! Z.to_nat i = Some ip0 -> inodes (upd i ip t s) !! Z.to_nat i = Some ip.
Proof. intros Hi. cbn. apply list_lookup_insert_eq. by eapply lookup_lt_Some. Qed.

Lemma wp_geti {A} i s ip (f : inode -> A) (Q : A -> F -> Prop) : inodes s !! Z.to_nat i = Some ip -> Q (f ip) s -> wp (geti i f) s Q.
Proof. intros Hi HQ. apply wp_gets. unfold iget_at. by rewrite Hi. Qed.
Lemma wp_seti i s ip f (Q : unit -> F -> Prop) :
  inodes s !! Z.to_nat i = Some ip -> Q tt (upd i (f ip) (ft s) s) -> wp (seti i f) s Q.
Proof. intros Hi HQ. apply wp_modify. unfold upd in HQ. by rewrite (alter_insert _ _ _ ip). Qed.

(** What bmap() returns and leaves. *)
Record mapped (sb : superblock) (cost : nat) v v' ip ip' (k r : Z) : Prop := {
  mp_file : file_ok sb v' ip';
  mp_layout : layout_ok sb v';
  mp_rest : at_rest v';
  mp_held : theld v' = theld v;
  mp_room : (troom v <= troom v' + cost)%nat;
  mp_inode : same_inode ip ip';
  mp_res : r = daddr v' ip' k;
  mp_old : daddr v ip k <> 0 -> r = daddr v ip k;
  mp_new : daddr v ip k = 0 -> r <> 0 -> used sb v r = false /\ tcontents v' r = zero_block;
  mp_others : forall j, 0 <= j < MAXFILE -> j <> k -> daddr v' ip' j = daddr v ip j;
  mp_ind : ind_addr ip' <> 0 -> ind_addr ip' = ind_addr ip \/ used sb v (ind_addr ip') = false;
  mp_ext : extends sb (fun b => b <> ind_addr ip) v v';
  mp_full : r = 0 -> forall b, 0 <= b < sb_size sb -> used sb v' b = true
}.

Lemma mapped_same sb v ip k : file_ok sb v ip -> layout_ok sb v -> at_rest v -> daddr v ip k <> 0 -> mapped sb 0 v v ip ip k (daddr v ip k).
Proof. intros Hf Hl Hr Hne. split; try done; try lia; try congruence; by (left || split). Qed.

Lemma mapped_full sb v ip k : file_ok sb v ip -> layout_ok sb v -> at_rest v -> daddr v ip k = 0 ->
  (forall b, 0 <= b < sb_size sb -> used sb v b = true) -> mapped sb 0 v v ip ip k 0.
Proof. intros Hf Hl Hr E Hall. split; try done; try lia; try congruence; by (left || split). Qed.

Lemma unheld_data sb v : layout_ok sb v -> spare v -> (forall b, is_Some (theld v !! b) -> data_block sb v b) -> unheld sb v.
Proof.
  intros Hl Hsp Hh. split; [done|]. intros b Hb Hor. apply eq_None_not_Some. intros Hs. apply Hh in Hs as [Hr Hu]. destruct Hor as [Hf|(k & Hk & ->)]; [congruence|].
  pose proof (ly_map _ _ Hl k Hk). lia.
Qed.

(** The direct blocks. *)
Lemma mapped_direct s v ip k b :
  let sb := f_sb s in
  R (ft s) v -> layout_ok sb v -> file_ok sb v ip -> at_rest v -> 0 <= k < NDIRECT -> daddr v ip k = 0 ->
  0 < b < sb_size sb -> used sb v b = false -> mapped sb 2 v (allocated sb b v) ip (set_iaddr k b ip) k b.
Proof.
  intros sb HR Hl Hf Hr Hk E Hb Hu.
  assert (Hd : forall j, 0 <= j < MAXFILE -> daddr (allocated sb b v) (set_iaddr k b ip) j = if decide (j = k) then b else daddr v ip j).
  { intros j Hj. rewrite daddr_set_direct by (try apply Hf; lia). case_decide; [done|]. by apply (alloc_daddr s). }
  assert (HkM : 0 <= k < MAXFILE) by (change MAXFILE with (NDIRECT + 256); change NDIRECT with 12 in *; lia).
  split; try done.
  - eapply (file_add sb v _ ip _ b k); try done; [by apply (alloc_data s)|by apply (data_mono s)|rewrite length_set_addr; apply Hf|].
    rewrite ind_set_addr by (try apply Hf; lia). by rewrite decide_False by lia.
  - by apply (alloc_layout s).
  - cbn. lia.
  - rewrite Hd by done. by rewrite decide_True.
  - intros _ _. split; [done|]. cbn. by rewrite fupd_eq.
  - intros j Hj Hne. rewrite Hd by done. by rewrite decide_False.
  - intros _. left. rewrite ind_set_addr by (try apply Hf; lia). by rewrite decide_False by lia.
  - by apply (alloc_extends s).
  - lia.
Qed.

Lemma mapped_cost sb c c' v v' ip ip' k r : mapped sb c v v' ip ip' k r -> (c <= c')%nat -> mapped sb c' v v' ip ip' k r.
Proof. intros [] Hc. split; try done. lia. Qed.

(** Entering a fresh block into the indirect block. *)
Definition ind_entered (sb : superblock) (ip : inode) (k b : Z) v : tview :=
  t_put (ind_addr ip) (ind_put (tcontents v (ind_addr ip)) (k - NDIRECT) b) (allocated sb b v).

Lemma used_put_data sb v b d k : layout_ok sb v -> D <= b -> 0 <= k < sb_size sb -> used sb (t_put b d v) k = used sb v k.
Proof. intros Hl Hb Hk. apply used_put. pose proof (ly_map _ _ Hl k Hk). lia. Qed.

(** Writing a block that is not one of the bitmap. *)
Definition not_bitmap (sb : superblock) (b : Z) : Prop := forall k, 0 <= k < sb_size sb -> BBLOCK k sb <> b.
Lemma data_not_bitmap sb v b : layout_ok sb v -> D <= b -> not_bitmap sb b.
Proof. intros Hl Hb k Hk. pose proof (ly_map _ _ Hl k Hk). lia. Qed.

Lemma layout_put sb v b d : layout_ok sb v -> not_bitmap sb b -> layout_ok sb (t_put b d v).
Proof. intros Hl Hb. destruct (Hl) as [H1 H2 H3 H4]. split; try done. intros k Hk. rewrite used_put by (apply Hb; lia). by apply H4. Qed.
Lemma data_put sb v b d x : layout_ok sb v -> not_bitmap sb b -> data_block sb v x -> data_block sb (t_put b d v) x.
Proof. intros Hl Hb [Hx Hu]. split; [done|]. destruct (Hl) as [_ Hd _ _]. rewrite used_put; [done|]. apply Hb. lia. Qed.
Lemma daddr_put v b d ip k : ind_addr ip <> b \/ ind_addr ip = 0 -> daddr (t_put b d v) ip k = daddr v ip k.
Proof. intros Hi. unfold daddr. repeat case_match; try done. bool_simpl. cbn. rewrite fupd_ne; [done|]. naive_solver. Qed.
Lemma file_put sb v b d ip : layout_ok sb v -> not_bitmap sb b -> ind_addr ip <> b \/ ind_addr ip = 0 -> file_ok sb v ip -> file_ok sb (t_put b d v) ip.
Proof.
  intros Hl Hb Hi Hf. split.
  - apply Hf.
  - intros Hne. by apply data_put, Hf.
  - intros k Hk. rewrite daddr_put by done. intros Hne. destruct (fk_blk _ _ _ Hf k Hk Hne). split; [by apply data_put|done].
  - intros j k Hj Hk. rewrite !daddr_put by done. by apply Hf.
Qed.

Section Indirect.
Context (s : F) (v : tview) (ip : inode) (k b : Z) (sb := f_sb s).
Context (HR : R (ft s) v) (Hl : layout_ok sb v) (Hf : file_ok sb v ip) (Hr : at_rest v).
Context (Hk : NDIRECT <= k < MAXFILE) (Hi : ind_addr ip <> 0) (E : daddr v ip k = 0).
Context (Hb : 0 < b < sb_size sb) (Hu : used sb v b = false).

Lemma ind_data : data_block sb v (ind_addr ip).
Proof. by apply Hf. Qed.

Lemma entered_daddr j : 0 <= j < MAXFILE -> daddr (ind_entered sb ip k b v) ip j = if decide (j = k) then b else daddr v ip j.
Proof.
  intros Hj. unfold daddr. destruct (Z.ltb_spec j NDIRECT); [rewrite decide_False by lia; done|].
  rewrite (proj2 (Z.eqb_neq _ _) Hi). unfold ind_entered. cbn [tcontents t_put]. rewrite fupd_eq.
  change MAXFILE with (NDIRECT + NINDIRECT) in *. pose proof (sbk_size _ (ly_sb _ _ Hl)).
  rewrite ind_get_put by (try apply (t_len _ _ _ HR); lia). repeat case_decide; done || lia.
Qed.

Lemma mapped_indirect : mapped sb 3 v (ind_entered sb ip k b v) ip ip k b.
Proof.
  pose proof ind_data as Hid. assert (HiD : D <= ind_addr ip) by apply Hid.
  pose proof (alloc_layout s v b HR Hl Hb Hu) as Hla. assert (HkM : 0 <= k < MAXFILE) by (change NDIRECT with 12 in *; lia).
  destruct (data_mono s v b HR Hl Hb Hu _ Hid) as [Hia Hib].
  split; try done.
  - eapply (file_add sb v _ ip _ b k); try done.
    + apply data_put; [done|by eapply data_not_bitmap|by apply (alloc_data s)].
    + intros x Hx. destruct (data_mono s v b HR Hl Hb Hu x Hx). split; [|done]. apply data_put; [done|by eapply data_not_bitmap|done].
    + apply Hf.
    + apply entered_daddr.
  - apply layout_put; [done|by eapply data_not_bitmap].
  - cbn. lia.
  - rewrite entered_daddr by done. by rewrite decide_True.
  - intros _ _. split; [done|]. unfold ind_entered. cbn [tcontents t_put]. rewrite fupd_ne by done. cbn. by rewrite fupd_eq.
  - intros j Hj Hne. rewrite entered_daddr by done. by rewrite decide_False.
  - by left.
  - destruct (alloc_extends s v b HR Hl Hb Hu (fun b => b <> ind_addr ip)) as [H1 H2 H3]. split.
    + intros x Hx Hux. unfold ind_entered. rewrite used_put_data by done. by apply H1.
    + intros x Hx Hne. unfold ind_entered. cbn [tcontents t_put]. rewrite fupd_ne by done. by apply H2.
    + intros x Hx Hne. unfold ind_entered. cbn [tcontents t_put]. rewrite fupd_ne by lia. by apply H3.
  - lia.
Qed.
End Indirect.

(** A fresh indirect block: the file has the blocks it had. *)
Lemma fresh_indirect s v ip b :
  let sb := f_sb s in
  R (ft s) v -> layout_ok sb v -> file_ok sb v ip -> ind_addr ip = 0 -> 0 < b < sb_size sb -> used sb v b = false ->
  file_ok sb (allocated sb b v) (set_iaddr NDIRECT b ip) /\ ind_addr (set_iaddr NDIRECT b ip) = b /\
  forall j, 0 <= j < MAXFILE -> daddr (allocated sb b v) (set_iaddr NDIRECT b ip) j = daddr v ip j.
Proof.
  intros sb HR Hl Hf Hi Hb Hu.
  assert (Hd : forall j, 0 <= j < MAXFILE -> daddr (allocated sb b v) (set_iaddr NDIRECT b ip) j = daddr v ip j).
  { intros j Hj. rewrite daddr_set_ind; [by apply (alloc_daddr s)|apply Hf|done|lia|cbn; by rewrite fupd_eq|done]. }
  assert (Hia : ind_addr (set_iaddr NDIRECT b ip) = b) by (rewrite ind_set_addr by (try apply Hf; done); by rewrite decide_True).
  split; [|done]. destruct (alloc_fresh s v b Hb Hu ip Hf) as [_ Hfr]. split.
  - rewrite length_set_addr. apply Hf.
  - rewrite Hia. intros _. by apply (alloc_data s).
  - intros j Hj. rewrite Hd, Hia by done. intros Hne. split; [|by apply Hfr]. destruct (fk_blk _ _ _ Hf j Hj Hne). by apply (data_mono s).
  - intros i j Hi' Hj. rewrite !Hd by done. by apply Hf.
Qed.

Lemma mapped_after_fresh s v ip b c v' k r :
  let sb := f_sb s in let v1 := allocated sb b v in let ip1 := set_iaddr NDIRECT b ip in
  R (ft s) v -> layout_ok sb v -> file_ok sb v ip -> (2 <= troom v)%nat -> ind_addr ip = 0 -> 0 < b < sb_size sb -> used sb v b = false ->
  0 <= k < MAXFILE -> daddr v ip k = 0 -> mapped sb c v1 v' ip1 ip1 k r -> mapped sb (c + 2) v v' ip ip1 k r.
Proof.
  intros sb v1 ip1 HR Hl Hf Hroom Hi Hb Hu Hk E [M1 M2 M3 M4 M5 M6 M7 M8 M9 M10 _ M11 M12].
  destruct (fresh_indirect s v ip b HR Hl Hf Hi Hb Hu) as (Hf1 & Hi1 & Hd1). fold sb v1 ip1 in Hf1, Hi1, Hd1.
  split; try done.
  - subst v1. cbn in M5. lia.
  - intros _ Hr. rewrite Hd1 in M9 by done. destruct (M9 E Hr) as [Hur Hz]. split; [|done]. destruct (used sb v r) eqn:Eu; [|done].
    exfalso. assert (0 <= r < sb_size sb).
    { rewrite M7 in Hr |- *. destruct (fk_blk _ _ _ M1 k Hk Hr) as [[? _] _]. destruct (ly_data _ _ Hl). lia. }
    pose proof (alloc_used s v b HR Hl Hb Hu r ltac:(done)) as Ha. fold sb v1 in Ha. rewrite Ha in Hur. case_decide; congruence.
  - intros j Hj Hne. rewrite M10 by done. by apply Hd1.
  - intros _. right. by rewrite Hi1.
  - destruct (alloc_extends s v b HR Hl Hb Hu (fun _ => True)) as [A1 A2 A3]. destruct M11 as [B1 B2 B3]. fold sb v1 in A1, A2, A3. split.
    + intros x Hx Hux. by apply B1, A1.
    + intros x Hx _. destruct (data_mono s v b HR Hl Hb Hu x Hx) as [Hx1 Hxb]. rewrite B2 by (try done; by rewrite Hi1). by apply A2.
    + intros x Hx Hne. rewrite B3 by done. by apply A3.
Qed.

Lemma layout_hold sb v b bp : layout_ok sb v -> layout_ok sb (t_hold b bp v).
Proof. by intros [? ? ? ?]. Qed.

(** The rules for the two stores of an entry into the indirect block. *)
Lemma wp_l_set s v b bp d (Q : unit -> F -> Prop) :
  R (ft s) v -> theld v !! b = Some bp -> length d = Z.to_nat BSIZE -> Forall is_byte d ->
  (forall t, R t (t_set b d v) -> Q tt (with_ft t s)) -> wp (blk (l_set_bdata bp d)) s Q.
Proof. intros HR Hb Hl Hd HQ. apply (wp_blk (T := T)). eapply wp_mono; [by apply (t_set_bdata (ft s) v b bp d)|]. intros [] t. auto. Qed.
Lemma wp_l_log s v b bp (Q : unit -> F -> Prop) :
  R (ft s) v -> theld v !! b = Some bp -> (0 < troom v)%nat ->
  (forall t, R t (t_logged b v) -> Q tt (with_ft t s)) -> wp (blk (l_log_write bp)) s Q.
Proof. intros HR Hb Hr HQ. apply (wp_blk (T := T)). eapply wp_mono; [by apply (t_log_write (ft s) v b bp)|]. intros [] t. auto. Qed.

(** The part of bmap() that looks into the indirect block. *)
Definition bmap_entry (addr bn : Z) : M F Z :=
  let! bp := blk (l_bread dv addr) in
  let! a := blk (l_bdata bp) in
  let addr := ind_get a bn in
  let! addr :=
    (if addr =? 0 then
       let! addr := balloc dv in
       when (negb (addr =? 0))
         (let! a := blk (l_bdata bp) in
          blk (l_set_bdata bp (ind_put a bn addr)) ;;
          blk (l_log_write bp)) ;;
       ret addr
     else ret addr) in
  blk (l_brelse bp) ;;
  ret addr.

Lemma wp_bmap_entry s v ip k (Q : Z -> F -> Prop) :
  let sb := f_sb s in
  R (ft s) v -> layout_ok sb v -> file_ok sb v ip -> at_rest v -> theld v = ∅ -> (3 <= troom v)%nat ->
  NDIRECT <= k < MAXFILE -> ind_addr ip <> 0 ->
  (forall r v' t, R t v' -> mapped sb 3 v v' ip ip k r -> Q r (with_ft t s)) ->
  wp (bmap_entry (ind_addr ip) (k - NDIRECT)) s Q.
Proof.
  intros sb HR Hl Hf Hr Hheld Hroom Hk Hi HQ. destruct (fk_ind _ _ _ Hf Hi) as [Hir Hiu].
  pose proof (ly_data _ _ Hl) as HD. pose proof (sbk_size _ (ly_sb _ _ Hl)) as Hsz.
  assert (Hh : theld v !! ind_addr ip = None) by (by rewrite Hheld).
  assert (Eaddr : daddr v ip k = ind_get (tcontents v (ind_addr ip)) (k - NDIRECT)).
  { unfold daddr. rewrite (proj2 (Z.ltb_ge k NDIRECT)) by lia. by rewrite (proj2 (Z.eqb_neq _ _) Hi). }
  unfold bmap_entry. apply wp_bind. eapply (wp_l_bread dv R); [exact HR|lia|exact Hh|by apply spare_empty|]. intros bp t1 H1. cbn beta.
  apply wp_bind. eapply (wp_l_bdata dv R); [exact H1|apply lookup_insert_eq|]. cbn [tcontents t_hold]. rewrite <-Eaddr. apply wp_bind.
  destruct (Z.eqb_spec (daddr v ip k) 0) as [E0|E0].
  2: { wp_step. wp_step. eapply (wp_l_brelse dv R); [exact H1|apply lookup_insert_eq|unfold at_rest in Hr; cbn; rewrite Hr; set_solver|].
       rewrite t_drop_hold by done. intros t2 H2. wp_step. apply (HQ _ v t2 H2). eapply mapped_cost; [by apply mapped_same|lia]. }
  apply wp_bind. eapply (wp_balloc dv R); [exact H1|exact Hr|cbn; lia|apply Hl|apply layout_bitmap, layout_hold, Hl| | |].
  { apply unheld_data; [by apply layout_hold|by apply spare_hold|]. cbn [theld t_hold]. intros b Hb. destruct (decide (b = ind_addr ip)) as [->|Hne]; [by split|].
    rewrite lookup_insert_ne, Hheld in Hb by done. by destruct Hb. }
  - intros t2 H2 Hall. cbn beta. change (negb (0 =? 0)) with false. do 4 wp_step.
    eapply (wp_l_brelse dv R); [exact H2|apply lookup_insert_eq|unfold at_rest in Hr; cbn; rewrite Hr; set_solver|].
    rewrite t_drop_hold by done. intros t3 H3. wp_step. apply (HQ _ v t3 H3). eapply mapped_cost; [exact (mapped_full sb v ip k Hf Hl Hr E0 Hall)|lia].
  - intros t2 b H2 Hb Hu _. change (f_sb (with_ft t1 s)) with sb in *. cbn beta. wp_step. rewrite (proj2 (Z.eqb_neq b 0)) by lia. cbn [negb]. wp_step.
    change (allocated sb b (t_hold (ind_addr ip) bp v)) with (t_hold (ind_addr ip) bp (allocated sb b v)) in H2.
    apply wp_bind. eapply (wp_l_bdata dv R); [exact H2|apply lookup_insert_eq|]. cbn [tcontents t_hold].
    rewrite (data_contents s v b HR Hl Hb Hu) by (by split).
    apply wp_bind. eapply wp_l_set; [exact H2|apply lookup_insert_eq| |apply ind_put_bytes, (t_bytes _ _ _ HR)|].
    { apply length_ind_put; [apply (t_len _ _ _ HR)|]. change MAXFILE with (NDIRECT + NINDIRECT) in *. lia. }
    intros t3 H3. cbn beta. eapply wp_l_log; [exact H3|apply lookup_insert_eq|cbn; lia|]. intros t4 H4. wp_step. wp_step.
    eapply (wp_l_brelse dv R); [exact H4|apply lookup_insert_eq|cbn; set_solver|]. rewrite t_drop_put by (try done; unfold at_rest in Hr; cbn; rewrite Hr; set_solver).
    intros t5 H5. wp_step. apply (HQ _ _ t5 H5). by apply (mapped_indirect s).
Qed.

Lemma wp_bmap s v i ip k (Q : Z -> F -> Prop) :
  let sb := f_sb s in
  R (ft s) v -> layout_ok sb v -> file_ok sb v ip -> at_rest v -> theld v = ∅ -> (5 <= troom v)%nat ->
  inodes s !! Z.to_nat i = Some ip -> i_dev ip = dv -> 0 <= k < MAXFILE ->
  (forall r v' ip' t, R t v' -> mapped sb 5 v v' ip ip' k r -> Q r (upd i ip' t s)) ->
  wp (bmap i k) s Q.
Proof.
  intros sb HR Hl Hf Hr Hheld Hroom Hip Hdev Hk HQ. unfold bmap. apply wp_bind. eapply wp_geti; [exact Hip|]. cbn beta. change (id ip) with ip. rewrite !Hdev.
  assert (Hunh : unheld sb v) by (apply unheld_data; [done|by apply spare_empty|]; rewrite Hheld; intros b Hb; by destruct Hb).
  destruct (Z.ltb_spec k NDIRECT) as [Hkd|Hkd].
  - assert (Ed : daddr v ip k = default 0 (i_addrs ip !! Z.to_nat k)) by (unfold daddr; by rewrite (proj2 (Z.ltb_lt k NDIRECT))).
    rewrite <-Ed. destruct (Z.eqb_spec (daddr v ip k) 0) as [E0|E0].
    + apply wp_bind. eapply (wp_balloc dv R); [exact HR|exact Hr|lia|apply Hl|by apply layout_bitmap|exact Hunh| |].
      * intros t Ht Hall. cbn. wp_step. rewrite (upd_same i ip) by done. apply (HQ _ v ip t Ht). eapply mapped_cost; [exact (mapped_full sb v ip k Hf Hl Hr E0 Hall)|lia].
      * intros t b Ht Hb Hu _. cbn beta. fold sb in Ht, Hb, Hu. rewrite (proj2 (Z.eqb_neq b 0)) by lia. apply wp_bind. eapply wp_seti; [exact Hip|].
        wp_step. apply (HQ _ (allocated sb b v) _ t Ht). eapply mapped_cost; [apply (mapped_direct s); try done; lia|lia].
    + wp_step. rewrite <-(with_ft_same s), (upd_same i ip) by done. apply (HQ _ v ip (ft s) HR). eapply mapped_cost; [by apply mapped_same|lia].
  - rewrite (proj2 (Z.ltb_lt (k - NDIRECT) NINDIRECT)) by (change MAXFILE with (NDIRECT + NINDIRECT) in *; lia).
    fold (ind_addr ip). apply wp_bind. destruct (Z.eqb_spec (ind_addr ip) 0) as [Ei|Ei].
    + assert (E0 : daddr v ip k = 0) by (unfold daddr; rewrite (proj2 (Z.ltb_ge k NDIRECT)) by lia; by rewrite Ei).
      apply wp_bind. eapply (wp_balloc dv R); [exact HR|exact Hr|lia|apply Hl|by apply layout_bitmap|exact Hunh| |].
      * intros t Ht Hall. cbn. wp_step. wp_step. wp_step. wp_step. rewrite (upd_same i ip) by done. apply (HQ _ v ip t Ht). eapply mapped_cost; [exact (mapped_full sb v ip k Hf Hl Hr E0 Hall)|lia].
      * intros t b Ht Hb Hu _. cbn beta. fold sb in Ht, Hb, Hu. rewrite (proj2 (Z.eqb_neq b 0)) by lia. cbn [negb]. apply wp_bind.
        eapply wp_seti; [exact Hip|]. wp_step. rewrite (proj2 (Z.eqb_neq b 0)) by lia.
        destruct (fresh_indirect s v ip b HR Hl Hf Ei Hb Hu) as (Hf1 & Hi1 & Hd1). fold sb in Hf1, Hd1.
        change (wp (bmap_entry b (k - NDIRECT)) (upd i (set_iaddr NDIRECT b ip) t s) Q). rewrite <-Hi1 at 1.
        eapply (wp_bmap_entry (upd i (set_iaddr NDIRECT b ip) t s) (allocated sb b v));
          [exact Ht|by apply (alloc_layout s)|exact Hf1|exact Hr|exact Hheld|cbn; lia|lia|rewrite Hi1; lia|].
        intros r v' t' Ht' Hm. rewrite with_upd. apply (HQ _ v' _ t' Ht'). apply (mapped_after_fresh s v ip b 3 v' k r); try done; lia.
    + wp_step. rewrite (proj2 (Z.eqb_neq _ _) Ei). eapply wp_bmap_entry; [exact HR|exact Hl|exact Hf|exact Hr|exact Hheld|lia|lia|exact Ei|].
      intros r v' t Ht Hm. rewrite (upd_same i ip) by done. apply (HQ _ v' ip t Ht). eapply mapped_cost; [exact Hm|lia].
Qed.

(** On a block the file has, bmap() only reads. *)
Lemma wp_bmap_old s v i ip k (Q : Z -> F -> Prop) :
  let sb := f_sb s in
  R (ft s) v -> layout_ok sb v -> file_ok sb v ip -> at_rest v -> theld v = ∅ ->
  inodes s !! Z.to_nat i = Some ip -> i_dev ip = dv -> 0 <= k < MAXFILE -> daddr v ip k <> 0 ->
  (forall t, R t v -> Q (daddr v ip k) (with_ft t s)) -> wp (bmap i k) s Q.
Proof.
  intros sb HR Hl Hf Hr Hheld Hip Hdev Hk Hne HQ. unfold bmap. apply wp_bind. eapply wp_geti; [exact Hip|]. cbn beta. change (id ip) with ip. rewrite !Hdev.
  pose proof (sbk_size _ (ly_sb _ _ Hl)) as Hsz. pose proof (ly_data _ _ Hl) as HD. unfold daddr in *. destruct (Z.ltb_spec k NDIRECT) as [Hkd|Hkd].
  - rewrite (proj2 (Z.eqb_neq _ _) Hne). wp_step. specialize (HQ (ft s) HR). by rewrite with_ft_same in HQ.
  - rewrite (proj2 (Z.ltb_lt (k - NDIRECT) NINDIRECT)) by (change MAXFILE with (NDIRECT + NINDIRECT) in *; lia).
    fold (ind_addr ip). destruct (Z.eqb_spec (ind_addr ip) 0) as [|Hi]; [done|]. wp_step. wp_step. rewrite (proj2 (Z.eqb_neq _ _) Hi).
    destruct (fk_ind _ _ _ Hf Hi) as [Hir _]. assert (Hh : theld v !! ind_addr ip = None) by (by rewrite Hheld).
    apply wp_bind. eapply (wp_l_bread dv R); [exact HR|lia|exact Hh|by apply spare_empty|]. intros bp t1 H1. cbn beta.
    apply wp_bind. eapply (wp_l_bdata dv R); [exact H1|apply lookup_insert_eq|]. cbn [tcontents t_hold]. rewrite (proj2 (Z.eqb_neq _ _) Hne). wp_step. wp_step.
    wp_step. eapply (wp_l_brelse dv R); [exact H1|apply lookup_insert_eq|unfold at_rest in Hr; cbn; rewrite Hr; set_solver|].
    rewrite t_drop_hold by done. intros t2 H2. wp_step. by apply HQ.
Qed.

End Bmap.
