(* ===== verification/FsData.v ===== *)
(** * File contents (readi, writei, iupdate of kernel/fs.c)

    [fbyte v ip o] is byte [o] of a file.  writei() replaces the bytes it is
    given and leaves every other byte of the file and every block of other
    files alone; readi() delivers them; iupdate() brings the inode to disk. *)

From S2P Require Import Prelude Spinlock Riscv Mem BufCache Log LogFacts UserIO BlockStore Fs FsAlloc FsBmap.

(** ** Blocks of a range of bytes *)

(** How many blocks the bytes from [p] to [e] touch: the iterations left. *)
Definition nblk (p e : Z) : Z := if p <? e then (e - 1) / BSIZE - p / BSIZE + 1 else 0.
(** What one iteration moves. *)
Definition chunk (p e : Z) : Z := Z.min (e - p) (BSIZE - p mod BSIZE).

Lemma chunk_range p e : 0 <= p < e -> 0 < chunk p e <= BSIZE - p mod BSIZE /\ chunk p e <= e - p.
Proof. intros Hp. unfold chunk. pose proof (Z.mod_pos_bound p BSIZE). change BSIZE with 1024 in *. lia. Qed.

Lemma nblk_step p e : 0 <= p < e -> 0 <= nblk (p + chunk p e) e < nblk p e.
Proof.
  intros Hp. unfold nblk, chunk. rewrite (proj2 (Z.ltb_lt p e)) by lia. change BSIZE with 1024.
  pose proof (Z.div_mod p 1024). pose proof (Z.mod_pos_bound p 1024). pose proof (Z.div_mod (e - 1) 1024). pose proof (Z.mod_pos_bound (e - 1) 1024).
  destruct (Z.ltb_spec (p + Z.min (e - p) (1024 - p mod 1024)) e) as [Hlt|Hge].
  - assert (E : (p + Z.min (e - p) (1024 - p mod 1024)) / 1024 = p / 1024 + 1).
    { replace (p + Z.min (e - p) (1024 - p mod 1024)) with ((p / 1024 + 1) * 1024) by lia. by rewrite Z.div_mul. }
    rewrite E. lia.
  - lia.
Qed.

Lemma nblk_bound p n : 0 <= p -> 0 <= n -> 0 <= nblk p (p + n) <= n / BSIZE + 2.
Proof.
  intros Hp Hn. unfold nblk. change BSIZE with 1024. pose proof (Z.div_mod p 1024). pose proof (Z.mod_pos_bound p 1024).
  pose proof (Z.div_mod (p + n - 1) 1024). pose proof (Z.mod_pos_bound (p + n - 1) 1024). pose proof (Z.div_mod n 1024). pose proof (Z.mod_pos_bound n 1024).
  destruct (Z.ltb_spec p (p + n)); lia.
Qed.

Lemma same_block p o : p <= o < p + (BSIZE - p mod BSIZE) -> o / BSIZE = p / BSIZE /\ o mod BSIZE = p mod BSIZE + (o - p).
Proof.
  intros Ho. change BSIZE with 1024 in *. pose proof (Z.div_mod p 1024). pose proof (Z.mod_pos_bound p 1024).
  assert (o / 1024 = p / 1024) by (symmetry; apply (Z.div_unique o 1024 (p / 1024) (p mod 1024 + (o - p))); lia).
  split; [done|]. symmetry. apply (Z.mod_unique o 1024 (p / 1024)); lia.
Qed.

(** ** The bytes of a file *)

Definition fbyte (v : tview) (ip : inode) (o : Z) : Z :=
  default 0 (tcontents v (daddr v ip (o / BSIZE)) !! Z.to_nat (o mod BSIZE)).
Definition fbytes (v : tview) (ip : inode) (off n : Z) : list Z := map (fbyte v ip) (seqZ off n).

Lemma fbytes_app v ip off n m : 0 <= n -> 0 <= m -> fbytes v ip off (n + m) = fbytes v ip off n ++ fbytes v ip (off + n) m.
Proof. intros Hn Hm. unfold fbytes. by rewrite seqZ_app, map_app by lia. Qed.
Lemma length_fbytes v ip off n : length (fbytes v ip off n) = Z.to_nat n.
Proof. unfold fbytes. by rewrite length_map, length_seqZ. Qed.

Lemma fbytes_ext v ip v' ip' off n : (forall o, off <= o < off + n -> fbyte v ip o = fbyte v' ip' o) -> fbytes v ip off n = fbytes v' ip' off n.
Proof. intros Hx. apply map_ext_in. intros o Ho. apply list_elem_of_In, elem_of_seqZ in Ho. apply Hx. lia. Qed.

(** The part of a block one iteration of readi() copies. *)
Lemma fbytes_chunk v ip p m :
  length (tcontents v (daddr v ip (p / BSIZE))) = Z.to_nat BSIZE -> 0 <= p -> 0 < m <= BSIZE - p mod BSIZE ->
  take (Z.to_nat m) (drop (Z.to_nat (p mod BSIZE)) (tcontents v (daddr v ip (p / BSIZE)))) = fbytes v ip p m.
Proof.
  intros Hlen Hp Hm. pose proof (Z.mod_pos_bound p BSIZE ltac:(done)). apply list_eq. intros i. destruct (decide (i < Z.to_nat m)%nat) as [Hi|Hi].
  - rewrite lookup_take_lt, lookup_drop by lia. unfold fbytes. rewrite list_lookup_fmap, lookup_seqZ_lt by lia. cbn. unfold fbyte.
    destruct (same_block p (p + Z.of_nat i)) as [-> ->]; [lia|].
    replace (Z.to_nat (p mod BSIZE + (p + Z.of_nat i - p))) with (Z.to_nat (p mod BSIZE) + i)%nat by lia.
    destruct (lookup_lt_is_Some_2 (tcontents v (daddr v ip (p / BSIZE))) (Z.to_nat (p mod BSIZE) + i)) as [x Hx]; [lia|]. by rewrite Hx.
  - rewrite lookup_take_ge by lia. symmetry. apply lookup_ge_None. rewrite length_fbytes. lia.
Qed.

(** ** The on-disk inode *)

Lemma put_u16_eq d o v : put_u16 d o v = splice d o (le_bytes 2 v).
Proof. unfold put_u16, splice. by rewrite length_le_bytes. Qed.
Lemma put_u32_eq d o v : put_u32 d o v = splice d o (le_bytes 4 v).
Proof. unfold put_u32, splice. by rewrite length_le_bytes. Qed.

Lemma length_splice d o bs : (o + length bs <= length d)%nat -> length (splice d o bs) = length d.
Proof. intros Hl. unfold splice. rewrite !length_app, length_take, length_drop. lia. Qed.

Lemma splice_lookup d o bs i : (o + length bs <= length d)%nat ->
  splice d o bs !! i = if decide (o <= i < o + length bs)%nat then bs !! (i - o)%nat else d !! i.
Proof.
  intros Hl. unfold splice. case_decide as E.
  - rewrite lookup_app_r by (rewrite length_take; lia). rewrite length_take, Nat.min_l by lia. by rewrite lookup_app_l by lia.
  - destruct (decide (i < o)%nat).
    + rewrite lookup_app_l by (rewrite length_take; lia). by rewrite lookup_take_lt.
    + rewrite lookup_app_r by (rewrite length_take; lia). rewrite length_take, Nat.min_l by lia. rewrite lookup_app_r by lia.
      rewrite lookup_drop. f_equal. lia.
Qed.

Lemma splice_bytes d o bs : Forall is_byte d -> Forall is_byte bs -> Forall is_byte (splice d o bs).
Proof. intros Hd Hb. unfold splice. rewrite !Forall_app. split_and!; [by apply Forall_take|done|by apply Forall_drop]. Qed.

(** Reading [w] bytes where [bs] was, or beside it. *)
Lemma read_splice d o bs : (o + length bs <= length d)%nat -> take (length bs) (drop o (splice d o bs)) = bs.
Proof. intros Hl. unfold splice. rewrite drop_app_length' by (rewrite length_take; lia). by rewrite take_app_length. Qed.
Lemma read_splice_ne d o bs p w : (o + length bs <= length d)%nat -> (p + w <= o \/ o + length bs <= p)%nat ->
  take w (drop p (splice d o bs)) = take w (drop p d).
Proof.
  intros Hl Hd. apply list_eq. intros i. destruct (decide (i < w)%nat); [|by rewrite !lookup_take_ge by lia].
  rewrite !lookup_take_lt, !lookup_drop, splice_lookup by lia. case_decide; [lia|done].
Qed.

Definition dinode_ok (di : dinode) : Prop :=
  - 2 ^ 15 <= di_type di < 2 ^ 15 /\ - 2 ^ 15 <= di_major di < 2 ^ 15 /\ - 2 ^ 15 <= di_minor di < 2 ^ 15 /\
  - 2 ^ 15 <= di_nlink di < 2 ^ 15 /\ 0 <= di_size di < 2 ^ 32 /\ length (di_addrs di) = 13%nat /\ Forall (fun a => 0 <= a < 2 ^ 32) (di_addrs di).

Lemma i16_bytes x : - 2 ^ 15 <= x < 2 ^ 15 -> i16 (le_val (le_bytes 2 x)) = x.
Proof.
  intros Hx. rewrite le_val_le_bytes. change (256 ^ Z.of_nat 2) with (2 ^ 16). unfold i16.
  rewrite Z.add_mod_idemp_l by lia. rewrite Z.mod_small by lia. lia.
Qed.

(** put_dinode() in terms of one splice. *)
Definition dinode_bytes (di : dinode) : list Z :=
  le_bytes 2 (di_type di) ++ le_bytes 2 (di_major di) ++ le_bytes 2 (di_minor di) ++ le_bytes 2 (di_nlink di)
  ++ le_bytes 4 (di_size di) ++ concat (map (le_bytes 4) (di_addrs di)).

Lemma splice_splice d o a b : (o + length a + length b <= length d)%nat ->
  splice (splice d o a) (o + length a) b = splice d o (a ++ b).
Proof.
  intros Hl. apply list_eq. intros i. rewrite !splice_lookup by (rewrite ?length_splice, ?length_app; lia). rewrite length_app.
  repeat case_decide; try lia; try done.
  - rewrite lookup_app_r by lia. f_equal. lia.
  - rewrite lookup_app_l by lia. done.
Qed.

Lemma length_u32s l : length (concat (map (le_bytes 4) l)) = (4 * length l)%nat.
Proof. induction l as [|a l IH]; [done|]. cbn [map concat]. rewrite length_app, length_le_bytes, IH. cbn. lia. Qed.

Lemma put_u32s_eq vs : forall d o, (o + 4 * length vs <= length d)%nat -> put_u32s d o vs = splice d o (concat (map (le_bytes 4) vs)).
Proof.
  induction vs as [|a vs IH]; intros d o Hl; cbn [put_u32s map concat length] in *.
  - unfold splice. cbn. by rewrite Nat.add_0_r, take_drop.
  - rewrite put_u32_eq, IH by (rewrite length_splice; rewrite ?length_le_bytes; lia).
    pose proof (splice_splice d o (le_bytes 4 a) (concat (map (le_bytes 4) vs))) as Hs. rewrite length_le_bytes, length_u32s in Hs. apply Hs. lia.
Qed.

Lemma length_dinode di : length (di_addrs di) = 13%nat -> length (dinode_bytes di) = 64%nat.
Proof. intros Ha. unfold dinode_bytes. rewrite !length_app, length_u32s, !length_le_bytes, Ha. done. Qed.

Lemma put_dinode_eq d o di : length (di_addrs di) = 13%nat -> (o + 64 <= length d)%nat -> put_dinode d o di = splice d o (dinode_bytes di).
Proof.
  intros Ha Hl. unfold put_dinode, dinode_bytes. rewrite !put_u16_eq, put_u32_eq.
  assert (Hs : forall a b n, length a = n -> (o + n + length b <= length d)%nat -> splice (splice d o a) (o + n) b = splice d o (a ++ b)).
  { intros a b n <- Hn. apply splice_splice. lia. }
  rewrite (Hs (le_bytes 2 (di_type di)) _ 2%nat) by (rewrite ?length_le_bytes; lia).
  rewrite (Hs _ _ 4%nat) by (rewrite ?length_app, ?length_le_bytes; lia). rewrite (Hs _ _ 6%nat) by (rewrite ?length_app, ?length_le_bytes; lia).
  rewrite (Hs _ _ 8%nat) by (rewrite ?length_app, ?length_le_bytes; lia).
  rewrite put_u32s_eq by (rewrite length_splice; rewrite ?length_app, ?length_le_bytes; lia).
  rewrite (Hs _ _ 12%nat) by (rewrite ?length_app, ?length_u32s, ?length_le_bytes; lia). by rewrite <-!app_assoc.
Qed.

Lemma read_in d o bs k w : (o + length bs <= length d)%nat -> (k + w <= length bs)%nat ->
  take w (drop (o + k) (splice d o bs)) = take w (drop k bs).
Proof.
  intros Hl Hk. apply list_eq. intros i. destruct (decide (i < w)%nat); [|by rewrite !lookup_take_ge by lia].
  rewrite !lookup_take_lt, !lookup_drop, splice_lookup by lia. rewrite decide_True by lia. f_equal. lia.
Qed.

Lemma drop_past {A} (a b : list A) k n : length a = n -> (n <= k)%nat -> drop k (a ++ b) = drop (k - n) b.
Proof. intros Ha Hk. rewrite drop_app_ge by lia. by rewrite Ha. Qed.

Lemma drop_u32s l i : (i < length l)%nat -> take 4 (drop (4 * i) (concat (map (le_bytes 4) l))) = le_bytes 4 (default 0 (l !! i)).
Proof.
  revert i. induction l as [|a l IH]; intros i Hi; [cbn in Hi; lia|]. cbn [map concat]. destruct i as [|i].
  - rewrite Nat.mul_0_r, drop_0. cbn [lookup list_lookup default]. apply take_app_length'. by rewrite length_le_bytes.
  - rewrite (drop_past _ _ _ 4) by (rewrite ?length_le_bytes; lia). replace (4 * S i - 4)%nat with (4 * i)%nat by lia. apply IH. cbn in Hi. lia.
Qed.

(** What iupdate() writes ilock() reads back. *)
Lemma get_put_dinode d o di : dinode_ok di -> (o + 64 <= length d)%nat -> get_dinode (put_dinode d o di) o = di.
Proof.
  intros (H1 & H2 & H3 & H4 & H5 & H6 & H7) Hl. rewrite put_dinode_eq by done. pose proof (length_dinode di H6) as Hlen.
  assert (Hrd : forall k w, (k + w <= 64)%nat -> take w (drop (o + k) (splice d o (dinode_bytes di))) = take w (drop k (dinode_bytes di))).
  { intros k w Hk. apply read_in; lia. }
  assert (Hads : map (fun i => get_u32 (splice d o (dinode_bytes di)) (o + 12 + 4 * i)) (seq 0 13) = di_addrs di).
  { apply list_eq. intros i. rewrite list_lookup_fmap. destruct (decide (i < 13)%nat) as [Hi|Hi].
    - rewrite lookup_seq_lt by done. cbn [fmap option_fmap option_map]. unfold get_u32. rewrite <-Nat.add_assoc, Hrd by lia. unfold dinode_bytes.
      rewrite !app_assoc. rewrite (drop_past _ _ _ 12) by (rewrite ?length_app, ?length_le_bytes; lia). replace (12 + 4 * (0 + i) - 12)%nat with (4 * i)%nat by lia.
      rewrite drop_u32s by lia. rewrite le_val_le_bytes. destruct (lookup_lt_is_Some_2 (di_addrs di) i) as [x Hx]; [lia|]. rewrite Hx. cbn [default from_option].
      f_equal. apply Z.mod_small. by apply (Forall_lookup_1 _ _ _ _ H7 Hx).
    - rewrite lookup_seq_ge by lia. symmetry. apply lookup_ge_None. lia. }
  unfold get_dinode. rewrite Hads. unfold get_u16, get_u32. rewrite <-(Nat.add_0_r o) at 1. rewrite !Hrd by lia.
  change (take 2 (drop 0 (dinode_bytes di))) with (le_bytes 2 (di_type di)).
  change (take 2 (drop 2 (dinode_bytes di))) with (le_bytes 2 (di_major di)).
  change (take 2 (drop 4 (dinode_bytes di))) with (le_bytes 2 (di_minor di)).
  change (take 2 (drop 6 (dinode_bytes di))) with (le_bytes 2 (di_nlink di)).
  change (take 4 (drop 8 (dinode_bytes di))) with (le_bytes 4 (di_size di)).
  rewrite !i16_bytes by done. rewrite le_val_le_bytes. change (256 ^ Z.of_nat 4) with (2 ^ 32). rewrite Z.mod_small by done. by destruct di.
Qed.

Lemma put_dinode_bytes d o di : dinode_ok di -> (o + 64 <= length d)%nat -> Forall is_byte d -> Forall is_byte (put_dinode d o di) /\ length (put_dinode d o di) = length d.
Proof.
  intros (_ & _ & _ & _ & _ & H6 & _) Hl Hd. rewrite put_dinode_eq by done. split; [|apply length_splice; rewrite length_dinode; done].
  apply splice_bytes; [done|]. unfold dinode_bytes. rewrite !Forall_app. split_and!; try apply le_bytes_is_byte.
  apply Forall_concat, List.Forall_map, list.Forall_forall. intros. apply le_bytes_is_byte.
Qed.

Section Data.
Context {T U : Type} `{LogOps T} `{UserIO U} (dv : Z) (R : T -> tview -> Prop) `{!LogStore T dv R} (D : Z).
Notation F := (fstate T U).
Notation layout_ok := (layout_ok D).
Notation file_ok := (file_ok D).
Notation data_block := (data_block D).
Implicit Types (s : F) (v : tview) (ip : inode).

(** A file whose size its blocks cover. *)
Record inode_ok (sb : superblock) v ip : Prop := {
  ik_file : file_ok sb v ip;
  ik_size : 0 <= i_size ip <= MAXFILE * BSIZE;
  ik_has : forall k, 0 <= k -> k * BSIZE < i_size ip -> daddr v ip k <> 0
}.

Lemma block_index o m : 0 <= o < m * BSIZE -> 0 <= o / BSIZE < m /\ o / BSIZE * BSIZE <= o.
Proof. intros Ho. change BSIZE with 1024 in *. pose proof (Z.div_mod o 1024). pose proof (Z.mod_pos_bound o 1024). split; [split; [apply Z.div_pos|apply Z.div_lt_upper_bound]|]; lia. Qed.

(** ** readi *)

Definition with_tu (t : T) (u : U) s : F := mkF (f_sb s) (it_lock s) (inodes s) t u.

Lemma u64_step a x m : u64 (u64 (a + x) + m) = u64 (a + (x + m)).
Proof. unfold u64. rewrite Z.add_mod_idemp_l by lia. f_equal. lia. Qed.

(** The caller accepts the bytes of a buffer at [dst] piece by piece: [got]
    tells what it has so far. *)
Definition accepts_upto (got : list Z -> U -> Prop) (ud : bool) (dst len : Z) : Prop :=
  forall pre c u, got pre u -> Z.of_nat (length pre + length c) <= len ->
    exists u', either_copyout ud (u64 (dst + Z.of_nat (length pre))) c u = (true, u') /\ got (pre ++ c) u'.

Lemma wp_readi s v i ip ud dst off n got (Q : Z -> F -> Prop) :
  let sb := f_sb s in let n' := Z.min n (i_size ip - off) in
  R (ft s) v -> layout_ok sb v -> inode_ok sb v ip -> at_rest v -> theld v = ∅ ->
  inodes s !! Z.to_nat i = Some ip -> i_dev ip = dv -> 0 <= off <= i_size ip -> 0 <= n -> off + n < 2 ^ 32 ->
  0 <= dst < 2 ^ 64 -> got [] (fu s) -> accepts_upto got ud dst n' ->
  (forall t u, R t v -> got (fbytes v ip off n') u -> Q n' (with_tu t u s)) ->
  wp (readi i ud dst off n) s Q.
Proof.
  intros sb n' HR Hl Hik Hr Hheld Hip Hdev Hoff Hn Hov Hdst Hg0 Hacc HQ. pose proof (ik_size _ _ _ Hik) as Hsz.
  assert (Hmax : MAXFILE * BSIZE < 2 ^ 31) by done.
  unfold readi. apply wp_bind. eapply (wp_geti i s ip); [exact Hip|]. cbn beta. change (id ip) with ip.
  rewrite u32_small by lia. rewrite (proj2 (Z.ltb_ge (i_size ip) off)), (proj2 (Z.ltb_ge (off + n) off)) by lia. cbn [orb].
  assert (En : (if i_size ip <? off + n then i_size ip - off else n) = n') by (destruct (Z.ltb_spec (i_size ip) (off + n)); lia). rewrite En. clear En.
  apply wp_bind. apply (wp_loop (fun '(tot, o, d) s' => 0 <= tot <= n' /\ o = off + tot /\ d = u64 (dst + tot) /\
      exists t u, s' = with_tu t u s /\ R t v /\ got (fbytes v ip off tot) u) (fun '(tot, _, _) => Z.to_nat (nblk (off + tot) (off + n')))).
  - intros [[tot o] d] s' (Htot & -> & -> & t & u & -> & Ht & Hg). unfold readi_body. destruct (Z.ltb_spec tot n') as [Hlt|Hge].
    2: { wp_step. wp_step. rewrite i32_small by lia. assert (tot = n') as -> by lia. by apply HQ. }
    destruct (block_index (off + tot) MAXFILE) as [Hk Hkb]; [lia|].
    assert (Hne : daddr v ip ((off + tot) / BSIZE) <> 0) by (apply (ik_has _ _ _ Hik); lia).
    destruct (fk_blk _ _ _ _ (ik_file _ _ _ Hik) _ Hk Hne) as [[Hbr _] _].
    pose proof (sbk_size _ (ly_sb _ _ _ Hl)) as Hsz'. pose proof (ly_data _ _ _ Hl) as HD.
    pose proof (chunk_range (off + tot) (off + n') ltac:(lia)) as Hm. pose proof (nblk_step (off + tot) (off + n') ltac:(lia)) as Hnb.
    assert (Em : Z.min (n' - tot) (BSIZE - (off + tot) mod BSIZE) = chunk (off + tot) (off + n')) by (unfold chunk; f_equal; lia).
    set (m := chunk (off + tot) (off + n')) in *. set (addr := daddr v ip ((off + tot) / BSIZE)) in *.
    apply wp_bind. eapply (wp_bmap_old dv R D (with_tu t u s) v i ip); [exact Ht|exact Hl|apply Hik|exact Hr|exact Hheld|exact Hip|exact Hdev|exact Hk|exact Hne|].
    intros t1 H1. cbn beta. fold addr. rewrite (proj2 (Z.eqb_neq _ _) Hne). apply wp_bind. eapply (wp_geti i _ ip); [exact Hip|]. cbn beta. rewrite Hdev.
    apply wp_bind. eapply (wp_l_bread dv R); [exact H1|lia|by rewrite Hheld|by apply spare_empty|]. intros bp t2 H2. cbn beta.
    apply wp_bind. eapply (wp_l_bdata dv R); [exact H2|apply lookup_insert_eq|]. cbn [tcontents t_hold]. rewrite Em.
    unfold addr. rewrite fbytes_chunk by (try apply (t_len _ _ _ H1); lia). fold addr.
    destruct (Hacc (fbytes v ip off tot) (fbytes v ip (off + tot) m) u Hg) as (u' & Hco & Hg'); [rewrite !length_fbytes; lia|].
    rewrite length_fbytes, Z2Nat.id in Hco by lia.
    wp_step. wp_step. cbn [fu with_ft with_tu]. rewrite Hco. cbn [fst snd]. wp_step. unfold set_fu. wp_step. cbn [negb]. wp_step.
    eapply (wp_l_brelse dv R); [exact H2|apply lookup_insert_eq|unfold at_rest in Hr; cbn; rewrite Hr; set_solver|].
    rewrite t_drop_hold by (by rewrite Hheld). intros t3 H3. wp_step.
    rewrite !u32_small by lia. rewrite u64_step. split; [|rewrite Z.add_assoc; lia]. split_and!; [lia|lia|lia|done|].
    exists t3, u'. split; [done|]. split; [done|]. rewrite fbytes_app by lia. exact Hg'.
  - split_and!; [lia|lia|lia|rewrite Z.add_0_r; by rewrite u64_small|]. exists (ft s), (fu s). split; [by destruct s|]. done.
  - pose proof (nblk_bound off n' ltac:(lia) ltac:(lia)). rewrite Z.add_0_r. assert (0 <= n' / BSIZE) by (apply Z.div_pos; [lia|done]). lia.
Qed.

(** ** writei *)

(** The first [tot] bytes of [bs] are in the file at [off]; the rest of the
    file, and the blocks of other files, are as they were. *)
Record written (sb : superblock) v v' ip ip' (off tot : Z) (bs : list Z) : Prop := {
  wr_layout : layout_ok sb v';
  wr_file : file_ok sb v' ip';
  wr_rest : at_rest v';
  wr_held : theld v' = ∅;
  wr_inode : same_inode ip ip';
  wr_has : forall k, 0 <= k -> k * BSIZE < Z.max (i_size ip) (off + tot) -> daddr v' ip' k <> 0;
  wr_bytes : forall o, 0 <= o < Z.max (i_size ip) (off + tot) ->
    fbyte v' ip' o = if decide (off <= o < off + tot) then default 0 (bs !! Z.to_nat (o - off)) else fbyte v ip o;
  wr_frame : forall b, data_block sb v b -> (forall k, 0 <= k < MAXFILE -> daddr v ip k <> b) -> b <> ind_addr ip ->
    data_block sb v' b /\ tcontents v' b = tcontents v b /\ (forall k, 0 <= k < MAXFILE -> daddr v' ip' k <> b) /\ b <> ind_addr ip';
  wr_meta : forall b, 0 <= b < D -> not_bitmap sb b -> tcontents v' b = tcontents v b
}.

Lemma written_start sb v ip off bs : layout_ok sb v -> inode_ok sb v ip -> at_rest v -> theld v = ∅ -> 0 <= off <= i_size ip ->
  written sb v v ip ip off 0 bs.
Proof.
  intros Hl [Hf Hs Hh] Hr Hheld Hoff. split; try done.
  - intros k Hk Hlt. apply Hh; lia.
  - intros o Ho. rewrite decide_False by lia. done.
Qed.

Lemma same_inode_trans ip ip' ip2 : same_inode ip ip' -> same_inode ip' ip2 -> same_inode ip ip2.
Proof. unfold same_inode. intros. intuition congruence. Qed.

(** One iteration: a block from bmap(), and the bytes copied into it. *)
Section Step.
Context (sb : superblock) (s : F) (v v' v2 : tview) (ip ip' ip2 : inode) (off tot n c r : Z) (bs : list Z) (cost : nat).
Let p := off + tot.
Let e := off + n.
Let k := p / BSIZE.
Let m := chunk p e.
Let d2 := splice (tcontents v2 r) (Z.to_nat (p mod BSIZE)) (take (Z.to_nat m) (drop (Z.to_nat tot) bs)).
Let v3 := t_put r d2 v2.
Context (Hw : written sb v v' ip ip' off tot bs) (Hm : mapped D sb cost v' v2 ip' ip2 k r) (Hr0 : r <> 0).
Context (Hoff : 0 <= off) (Htot : 0 <= tot < n) (Hmax : off + n <= MAXFILE * BSIZE) (Hsz : 0 <= i_size ip <= MAXFILE * BSIZE).
Context (Hbs : Z.of_nat (length bs) = n) (Hlen : forall b, length (tcontents v2 b) = Z.to_nat BSIZE).

Lemma st_k : 0 <= k < MAXFILE /\ k * BSIZE <= p.
Proof. apply block_index. unfold p. lia. Qed.
Lemma st_m : 0 < m <= BSIZE - p mod BSIZE /\ m <= e - p.
Proof. apply chunk_range. unfold p, e. lia. Qed.

Lemma st_r : data_block sb v2 r /\ r <> ind_addr ip2 /\ not_bitmap sb r.
Proof.
  pose proof (mp_res _ _ _ _ _ _ _ _ _ Hm) as E. destruct (fk_blk _ _ _ _ (mp_file _ _ _ _ _ _ _ _ _ Hm) k (proj1 st_k)) as [Hd Hi]; [congruence|].
  rewrite <-E in Hd, Hi. split_and!; [done|done|]. eapply data_not_bitmap; [exact (mp_layout _ _ _ _ _ _ _ _ _ Hm)|apply Hd].
Qed.

Lemma st_daddr j : daddr v3 ip2 j = daddr v2 ip2 j.
Proof. apply daddr_put. left. by destruct st_r as (_ & ? & _). Qed.
Lemma st_daddr_ne j : 0 <= j < MAXFILE -> j <> k -> daddr v3 ip2 j = daddr v' ip' j.
Proof. intros Hj Hne. rewrite st_daddr. by apply (mp_others _ _ _ _ _ _ _ _ _ Hm). Qed.
Lemma st_daddr_k : daddr v3 ip2 k = r.
Proof. rewrite st_daddr. symmetry. apply (mp_res _ _ _ _ _ _ _ _ _ Hm). Qed.

Lemma st_chunk_len : length (take (Z.to_nat m) (drop (Z.to_nat tot) bs)) = Z.to_nat m.
Proof. pose proof st_m. rewrite length_take, length_drop. unfold e, p in *. lia. Qed.

Lemma st_d2 o : o / BSIZE = k -> 0 <= o -> p <= o < p + m -> default 0 (d2 !! Z.to_nat (o mod BSIZE)) = default 0 (bs !! Z.to_nat (o - off)).
Proof.
  intros Ek Ho Hin. pose proof st_m as Hmm. pose proof (Z.mod_pos_bound p BSIZE ltac:(done)). pose proof st_chunk_len as Hc.
  destruct (same_block p o ltac:(lia)) as [_ Em]. unfold d2. rewrite splice_lookup by (rewrite Hlen, Hc; lia).
  rewrite decide_True by (rewrite Hc; lia). rewrite lookup_take_lt, lookup_drop by lia. do 2 f_equal. unfold p in *. lia.
Qed.
Lemma st_d2_out o : o / BSIZE = k -> 0 <= o -> ~ (p <= o < p + m) -> d2 !! Z.to_nat (o mod BSIZE) = tcontents v2 r !! Z.to_nat (o mod BSIZE).
Proof.
  intros Ek Ho Hout. pose proof st_m as Hmm. pose proof (Z.mod_pos_bound p BSIZE ltac:(done)). pose proof (Z.mod_pos_bound o BSIZE ltac:(done)). pose proof st_chunk_len as Hc.
  unfold d2. rewrite splice_lookup by (rewrite Hlen, Hc; lia). rewrite decide_False; [done|]. rewrite Hc.
  pose proof (Z.div_mod o BSIZE ltac:(done)). pose proof (Z.div_mod p BSIZE ltac:(done)). unfold k in *. rewrite Ek in *. lia.
Qed.

(** Blocks of the file that are not block [k] keep their contents. *)
Lemma st_keep b : data_block sb v' b -> b <> ind_addr ip' -> b <> r -> tcontents v3 b = tcontents v' b.
Proof. intros Hb Hi Hr. unfold v3. cbn. rewrite fupd_ne by done. by apply (ex_data _ _ _ _ _ (mp_ext _ _ _ _ _ _ _ _ _ Hm)). Qed.

Lemma st_bytes o : 0 <= o < Z.max (i_size ip) (off + (tot + m)) ->
  fbyte v3 ip2 o = if decide (off <= o < off + (tot + m)) then default 0 (bs !! Z.to_nat (o - off)) else fbyte v ip o.
Proof.
  intros Ho. pose proof st_m as Hmm. destruct st_k as [Hk Hkp]. assert (HoM : o < MAXFILE * BSIZE) by (unfold e, p in *; lia).
  destruct (block_index o MAXFILE ltac:(lia)) as [Hko Hkob]. unfold fbyte. destruct (decide (o / BSIZE = k)) as [Ek|Ek].
  - rewrite Ek, st_daddr_k. unfold v3. cbn [tcontents t_put]. rewrite fupd_eq. destruct (decide (p <= o < p + m)) as [Hin|Hout].
    { rewrite st_d2 by (try done; lia). rewrite decide_True by (unfold p in *; lia). done. }
    rewrite st_d2_out by (try done; lia).
    assert (Hold : o < Z.max (i_size ip) (off + tot)) by (unfold p in *; lia).
    assert (Hne : daddr v' ip' k <> 0) by (apply (wr_has _ _ _ _ _ _ _ _ Hw); [lia|rewrite <-Ek; lia]).
    pose proof (mp_old _ _ _ _ _ _ _ _ _ Hm Hne) as Er. destruct (fk_blk _ _ _ _ (wr_file _ _ _ _ _ _ _ _ Hw) k Hk Hne) as [Hdb Hni].
    rewrite Er, (ex_data _ _ _ _ _ (mp_ext _ _ _ _ _ _ _ _ _ Hm)) by done.
    pose proof (wr_bytes _ _ _ _ _ _ _ _ Hw o ltac:(lia)) as Hb. unfold fbyte in Hb. rewrite Ek in Hb. rewrite Hb.
    unfold p in *. repeat case_decide; try lia; done.
  - assert (Hold : o < Z.max (i_size ip) (off + tot)).
    { destruct (decide (o < Z.max (i_size ip) (off + tot))); [done|]. exfalso. apply Ek. destruct (same_block p o) as [E _]; [unfold p in *; lia|]. exact E. }
    assert (Hne : daddr v' ip' (o / BSIZE) <> 0) by (apply (wr_has _ _ _ _ _ _ _ _ Hw); lia).
    destruct (fk_blk _ _ _ _ (wr_file _ _ _ _ _ _ _ _ Hw) _ Hko Hne) as [Hdb Hni].
    rewrite st_daddr_ne by done. rewrite st_keep; [|done|done|].
    + pose proof (wr_bytes _ _ _ _ _ _ _ _ Hw o ltac:(lia)) as Hb. unfold fbyte in Hb. rewrite Hb.
      destruct (decide (off <= o < off + tot)); [rewrite decide_True by lia; done|]. rewrite decide_False; [done|]. intros Hin.
      apply Ek. destruct (same_block p o) as [E _]; [unfold p in *; lia|]. exact E.
    + intros Er. apply Ek. assert (Ed : daddr v2 ip2 (o / BSIZE) = daddr v2 ip2 k).
      { rewrite (mp_others _ _ _ _ _ _ _ _ _ Hm) by done. rewrite Er. apply (mp_res _ _ _ _ _ _ _ _ _ Hm). }
      eapply (fk_inj _ _ _ _ (mp_file _ _ _ _ _ _ _ _ _ Hm)); [done|done| |exact Ed]. rewrite (mp_others _ _ _ _ _ _ _ _ _ Hm) by done. done.
Qed.

Lemma st_has j : 0 <= j -> j * BSIZE < Z.max (i_size ip) (off + (tot + m)) -> daddr v3 ip2 j <> 0.
Proof.
  intros Hj Hlt. destruct (decide (j = k)) as [->|Hne]; [by rewrite st_daddr_k|]. pose proof st_m as Hmm. destruct st_k as [Hk Hkp].
  assert (HjM : j < MAXFILE) by (change BSIZE with 1024 in *; unfold e, p in *; lia).
  rewrite st_daddr_ne by (done || lia). apply (wr_has _ _ _ _ _ _ _ _ Hw); [done|].
  destruct (decide (j * BSIZE < i_size ip)); [lia|]. assert (j < k); [|change BSIZE with 1024 in *; unfold p in *; lia].
  pose proof (Z.div_mod p BSIZE ltac:(done)). fold k in H1. change BSIZE with 1024 in *. unfold p in *. lia.
Qed.

Lemma st_frame b : data_block sb v b -> (forall j, 0 <= j < MAXFILE -> daddr v ip j <> b) -> b <> ind_addr ip ->
  data_block sb v3 b /\ tcontents v3 b = tcontents v b /\ (forall j, 0 <= j < MAXFILE -> daddr v3 ip2 j <> b) /\ b <> ind_addr ip2.
Proof.
  intros Hb Hd Hi. destruct (wr_frame _ _ _ _ _ _ _ _ Hw b Hb Hd Hi) as (F1 & F2 & F3 & F4). destruct st_k as [Hk _]. destruct st_r as (Hrd & _ & Hrb).
  pose proof (ly_data _ _ _ (wr_layout _ _ _ _ _ _ _ _ Hw)) as HD.
  assert (F1' : data_block sb v2 b).
  { destruct F1 as [Hbr Hbu]. split; [done|]. apply (ex_used _ _ _ _ _ (mp_ext _ _ _ _ _ _ _ _ _ Hm)); [lia|done]. }
  assert (Hrne : r <> b).
  { destruct (decide (daddr v' ip' k = 0)) as [E0|E0].
    - destruct (mp_new _ _ _ _ _ _ _ _ _ Hm E0 Hr0) as [Hu _]. destruct F1 as [_ ?]. congruence.
    - rewrite (mp_old _ _ _ _ _ _ _ _ _ Hm E0). by apply F3. }
  split_and!.
  - apply data_put; [exact (mp_layout _ _ _ _ _ _ _ _ _ Hm)|done|done].
  - rewrite st_keep by done. done.
  - intros j Hj. destruct (decide (j = k)) as [->|Hne]; [by rewrite st_daddr_k|]. rewrite st_daddr_ne by done. by apply F3.
  - intros E. assert (Hi0 : ind_addr ip2 <> 0) by (destruct F1; lia). destruct (mp_ind _ _ _ _ _ _ _ _ _ Hm Hi0) as [E2|E2]; [congruence|].
    destruct F1 as [_ ?]. congruence.
Qed.

Lemma written_step : written sb v v3 ip ip2 off (tot + m) bs.
Proof.
  destruct st_r as (Hrd & Hri & Hrb). pose proof (mp_layout _ _ _ _ _ _ _ _ _ Hm) as Hl2. split.
  - by apply layout_put.
  - apply file_put; try done; [by left|apply (mp_file _ _ _ _ _ _ _ _ _ Hm)].
  - apply (mp_rest _ _ _ _ _ _ _ _ _ Hm).
  - unfold v3. cbn. rewrite (mp_held _ _ _ _ _ _ _ _ _ Hm). apply (wr_held _ _ _ _ _ _ _ _ Hw).
  - eapply same_inode_trans; [apply (wr_inode _ _ _ _ _ _ _ _ Hw)|apply (mp_inode _ _ _ _ _ _ _ _ _ Hm)].
  - apply st_has.
  - apply st_bytes.
  - apply st_frame.
  - intros b Hb Hnb. unfold v3. cbn. rewrite fupd_ne by (destruct Hrd; lia). rewrite (ex_meta _ _ _ _ _ (mp_ext _ _ _ _ _ _ _ _ _ Hm)); [|done|].
    + by apply (wr_meta _ _ _ _ _ _ _ _ Hw).
    + intros j Hj E. by apply (Hnb j Hj).
Qed.
End Step.

(** When bmap() finds no block, at most an indirect block was added. *)
Lemma written_full sb v v' v2 ip ip' ip2 off tot bs cost k :
  written sb v v' ip ip' off tot bs -> mapped D sb cost v' v2 ip' ip2 k 0 -> 0 <= k < MAXFILE ->
  0 <= i_size ip <= MAXFILE * BSIZE -> off + tot <= MAXFILE * BSIZE -> written sb v v2 ip ip2 off tot bs.
Proof.
  intros Hw Hm Hk Hsz Hmax.
  assert (Hd : forall j, 0 <= j < MAXFILE -> daddr v2 ip2 j = daddr v' ip' j).
  { intros j Hj. destruct (decide (j = k)) as [->|Hne]; [|by apply (mp_others _ _ _ _ _ _ _ _ _ Hm)].
    rewrite <-(mp_res _ _ _ _ _ _ _ _ _ Hm). destruct (decide (daddr v' ip' k = 0)) as [|E]; [done|]. by apply (mp_old _ _ _ _ _ _ _ _ _ Hm). }
  pose proof (ly_data _ _ _ (wr_layout _ _ _ _ _ _ _ _ Hw)) as HD.
  split; try apply Hm.
  - rewrite (mp_held _ _ _ _ _ _ _ _ _ Hm). apply (wr_held _ _ _ _ _ _ _ _ Hw).
  - eapply same_inode_trans; [apply (wr_inode _ _ _ _ _ _ _ _ Hw)|apply (mp_inode _ _ _ _ _ _ _ _ _ Hm)].
  - intros j Hj Hlt. rewrite Hd by (change BSIZE with 1024 in *; lia). by apply (wr_has _ _ _ _ _ _ _ _ Hw).
  - intros o Ho. rewrite <-(wr_bytes _ _ _ _ _ _ _ _ Hw o Ho). destruct (block_index o MAXFILE ltac:(lia)) as [Hko Hkob]. unfold fbyte. rewrite Hd by done.
    assert (Hne : daddr v' ip' (o / BSIZE) <> 0) by (apply (wr_has _ _ _ _ _ _ _ _ Hw); lia).
    destruct (fk_blk _ _ _ _ (wr_file _ _ _ _ _ _ _ _ Hw) _ Hko Hne). by rewrite (ex_data _ _ _ _ _ (mp_ext _ _ _ _ _ _ _ _ _ Hm)).
  - intros b Hb Hdb Hi. destruct (wr_frame _ _ _ _ _ _ _ _ Hw b Hb Hdb Hi) as ([Hbr Hbu] & F2 & F3 & F4). split_and!.
    + split; [done|]. apply (ex_used _ _ _ _ _ (mp_ext _ _ _ _ _ _ _ _ _ Hm)); [lia|done].
    + by rewrite (ex_data _ _ _ _ _ (mp_ext _ _ _ _ _ _ _ _ _ Hm)).
    + intros j Hj. rewrite Hd by done. by apply F3.
    + intros E. destruct (mp_ind _ _ _ _ _ _ _ _ _ Hm ltac:(lia)) as [E2|E2]; congruence.
  - intros b Hb Hnb. rewrite (ex_meta _ _ _ _ _ (mp_ext _ _ _ _ _ _ _ _ _ Hm)); [by apply (wr_meta _ _ _ _ _ _ _ _ Hw)|done|]. intros j Hj E. by apply (Hnb j Hj).
Qed.

(** The caller's buffer at [src] holds the bytes [bs]. *)
Definition sends (us : bool) (src : Z) (bs : list Z) (u : U) : Prop :=
  forall j m, 0 <= j -> 0 < m -> j + m <= Z.of_nat (length bs) ->
    either_copyin us (u64 (src + j)) m u = Some (take (Z.to_nat m) (drop (Z.to_nat j) bs)).

Definition no_free (sb : superblock) v : Prop := forall b, 0 <= b < sb_size sb -> used sb v b = true.

Lemma wp_writei_loop s v i ip us src off bs (Q : Z * Z -> F -> Prop) :
  let sb := f_sb s in let n := Z.of_nat (length bs) in
  R (ft s) v -> layout_ok sb v -> inode_ok sb v ip -> at_rest v -> theld v = ∅ ->
  inodes s !! Z.to_nat i = Some ip -> i_dev ip = dv -> 0 <= off <= i_size ip -> off + n <= MAXFILE * BSIZE ->
  0 <= src < 2 ^ 64 -> sends us src bs (fu s) -> Forall is_byte bs -> 6 * (n / BSIZE + 2) + 1 <= Z.of_nat (troom v) ->
  (forall t v' ip' tot, R t v' -> written sb v v' ip ip' off tot bs -> 0 <= tot <= n -> (tot < n -> no_free sb v') -> (0 < troom v')%nat ->
     Q (tot, off + tot) (upd i ip' t s)) ->
  wp (loop (Z.to_nat (n / BSIZE) + 3) (writei_body i us n) (0, off, src)) s Q.
Proof.
  intros sb n HR Hl Hik Hr Hheld Hip Hdev Hoff Hmax Hsrc Hsend Hbs Hroom HQ. pose proof (ik_size _ _ _ Hik) as Hsz.
  assert (Hlim : MAXFILE * BSIZE < 2 ^ 31) by done. pose proof (nblk_bound off n ltac:(lia) ltac:(lia)) as Hnb0.
  apply (wp_loop (fun '(tot, o, sr) s' => 0 <= tot <= n /\ o = off + tot /\ sr = u64 (src + tot) /\
      exists t v' ip', s' = upd i ip' t s /\ R t v' /\ written sb v v' ip ip' off tot bs /\ 6 * nblk (off + tot) (off + n) + 1 <= Z.of_nat (troom v'))
      (fun '(tot, _, _) => Z.to_nat (nblk (off + tot) (off + n)))).
  - intros [[tot o] sr] s' (Htot & -> & -> & t & v' & ip' & -> & Ht & Hw & Hrm). unfold writei_body. destruct (Z.ltb_spec tot n) as [Hlt|Hge].
    2: { wp_step. assert (tot = n) as -> by lia. apply (HQ t v' ip' n); [done|done|lia|intros; lia|].
         unfold nblk in Hrm. rewrite Z.ltb_irrefl in Hrm. lia. }
    pose proof (chunk_range (off + tot) (off + n) ltac:(lia)) as Hm. pose proof (nblk_step (off + tot) (off + n) ltac:(lia)) as Hnb.
    destruct (block_index (off + tot) MAXFILE) as [Hk Hkb]; [lia|].
    destruct (wr_inode _ _ _ _ _ _ _ _ Hw) as (Hdev' & _). pose proof (wr_layout _ _ _ _ _ _ _ _ Hw) as Hl'.
    apply wp_bind. eapply (wp_bmap dv R D (upd i ip' t s) v' i ip'); [exact Ht|exact Hl'|apply (wr_file _ _ _ _ _ _ _ _ Hw)|apply (wr_rest _ _ _ _ _ _ _ _ Hw)|apply (wr_held _ _ _ _ _ _ _ _ Hw)|lia|by eapply upd_lookup|congruence|exact Hk|].
    intros r v2 ip2 t2 H2 Hmp. change (f_sb (upd i ip' t s)) with sb in Hmp. rewrite upd_upd. cbn beta. pose proof (mp_room _ _ _ _ _ _ _ _ _ Hmp) as Hcost.
    destruct (Z.eqb_spec r 0) as [Er|Er].
    { wp_step. subst r. apply (HQ t2 v2 ip2 tot); [done|eapply written_full; try done; lia|lia|intros _; exact (mp_full _ _ _ _ _ _ _ _ _ Hmp eq_refl)|lia]. }
    assert (Hst : data_block sb v2 r /\ r <> ind_addr ip2 /\ not_bitmap sb r) by (eapply (st_r _ _ _ _ _ off tot n); try done; lia).
    destruct Hst as ((Hrr & Hru) & Hri & Hrb).
    pose proof (mp_layout _ _ _ _ _ _ _ _ _ Hmp) as Hl2. pose proof (sbk_size _ (ly_sb _ _ _ Hl2)) as Hsz2. pose proof (ly_data _ _ _ Hl2) as HD.
    assert (Hheld2 : theld v2 = ∅) by (rewrite (mp_held _ _ _ _ _ _ _ _ _ Hmp); apply (wr_held _ _ _ _ _ _ _ _ Hw)).
    assert (Em : Z.min (n - tot) (BSIZE - (off + tot) mod BSIZE) = chunk (off + tot) (off + n)) by (unfold chunk; f_equal; lia).
    set (m := chunk (off + tot) (off + n)) in *.
    apply wp_bind. eapply (wp_geti i _ ip2); [by eapply upd_lookup|]. cbn beta. destruct (mp_inode _ _ _ _ _ _ _ _ _ Hmp) as (Hdev2 & _). rewrite Hdev2, Hdev', Hdev.
    apply wp_bind. eapply (wp_l_bread dv R); [exact H2|lia|by rewrite Hheld2|by apply spare_empty|]. intros bp t3 H3. cbn beta.
    apply wp_bind. eapply (wp_l_bdata dv R); [exact H3|apply lookup_insert_eq|]. cbn [tcontents t_hold]. rewrite Em. wp_step. wp_step.
    cbn [fu with_ft upd]. rewrite (Hsend tot m) by lia. cbn beta iota.
    assert (Hcl : length (take (Z.to_nat m) (drop (Z.to_nat tot) bs)) = Z.to_nat m) by (rewrite length_take, length_drop; lia).
    pose proof (Z.mod_pos_bound (off + tot) BSIZE ltac:(done)) as Hmod.
    eapply (wp_blk_store_k dv R _ v2 r); [exact H3|by rewrite Hheld2|apply (mp_rest _ _ _ _ _ _ _ _ _ Hmp)|lia| | |].
    { rewrite length_splice; rewrite ?Hcl, (t_len _ _ _ H2); [done|lia]. }
    { apply splice_bytes; [apply (t_bytes _ _ _ H2)|by apply Forall_take, Forall_drop]. }
    intros t4 H4. wp_step. rewrite !u32_small by lia. rewrite u64_step. split; [|rewrite Z.add_assoc; lia]. split_and!; [lia|lia|lia|done|].
    eexists t4, _, ip2. split; [done|]. split; [exact H4|]. split.
    + eapply (written_step sb v v' v2 ip ip' ip2 off tot n r bs 5); try done; try lia. intros b. apply (t_len _ _ _ H2).
    + cbn. rewrite Z.add_assoc. lia.
  - split_and!; [lia|lia|lia|rewrite Z.add_0_r; by rewrite u64_small|]. exists (ft s), v, ip. split; [by rewrite <-upd_same, with_ft_same|].
    split; [done|]. split; [by apply written_start|]. rewrite Z.add_0_r. lia.
  - rewrite Z.add_0_r. assert (0 <= n / BSIZE) by (apply Z.div_pos; [lia|done]). lia.
Qed.

(** ** iupdate *)

(** The block of an inode: below the data, and not of the bitmap. *)
Record iblock_ok (sb : superblock) (inum : Z) : Prop := {
  ibk_range : 0 <= IBLOCK inum sb < D;
  ibk_map : not_bitmap sb (IBLOCK inum sb);
  ibk_inum : 0 <= inum
}.
Definition shorts_ok ip : Prop :=
  - 2 ^ 15 <= i_type ip < 2 ^ 15 /\ - 2 ^ 15 <= di_major (i_di ip) < 2 ^ 15 /\ - 2 ^ 15 <= di_minor (i_di ip) < 2 ^ 15 /\ - 2 ^ 15 <= i_nlink ip < 2 ^ 15.

Lemma file_dinode sb v ip : layout_ok sb v -> file_ok sb v ip -> shorts_ok ip -> 0 <= i_size ip < 2 ^ 32 -> dinode_ok (i_di ip).
Proof.
  intros Hl Hf (H1 & H2 & H3 & H4) Hs. pose proof (sbk_size _ (ly_sb _ _ _ Hl)) as Hsz. pose proof (ly_data _ _ _ Hl) as HD. pose proof (fk_len _ _ _ _ Hf) as Hlen.
  unfold dinode_ok. split_and!; try apply H1; try apply H2; try apply H3; try apply H4; try apply Hs; [exact Hlen|].
  apply Forall_lookup_2. intros k a Ha. pose proof (lookup_lt_Some _ _ _ Ha) as Hk. unfold i_addrs in Hlen. rewrite Hlen in Hk.
  destruct (decide (a = 0)) as [->|Hne]; [lia|]. destruct (decide (k = 12)%nat) as [->|Hk'].
  - assert (E : ind_addr ip = a) by (unfold ind_addr, i_addrs; change (Z.to_nat NDIRECT) with 12%nat; by rewrite Ha).
    destruct (fk_ind _ _ _ _ Hf) as [? _]; [congruence|]. lia.
  - assert (E : daddr v ip (Z.of_nat k) = a).
    { unfold daddr. rewrite (proj2 (Z.ltb_lt _ _)) by (change NDIRECT with 12; lia). rewrite Nat2Z.id. unfold i_addrs. by rewrite Ha. }
    destruct (fk_blk _ _ _ _ Hf (Z.of_nat k)) as [[? _] _]; [change MAXFILE with 268; lia|congruence|]. lia.
Qed.

Lemma dinode_off_range inum : 0 <= inum -> (dinode_off inum + 64 <= Z.to_nat BSIZE)%nat.
Proof. intros Hi. unfold dinode_off. pose proof (Z.mod_pos_bound inum IPB ltac:(done)). change IPB with 16 in *. change BSIZE with 1024. lia. Qed.

(** An inode other than the one that is stored keeps its bytes. *)
Lemma get_dinode_ne d o o' di : dinode_ok di -> (o + 64 <= length d)%nat -> (o + 64 <= o' \/ o' + 64 <= o)%nat -> get_dinode (put_dinode d o di) o' = get_dinode d o'.
Proof.
  intros (_ & _ & _ & _ & _ & Hl & _) Ho Hne. rewrite put_dinode_eq by done. pose proof (length_dinode di Hl) as Hb. unfold get_dinode, get_u16, get_u32.
  rewrite !read_splice_ne by (rewrite ?Hb; lia). f_equal. apply map_ext_in. intros k Hk. apply in_seq in Hk. by rewrite read_splice_ne by (rewrite ?Hb; lia).
Qed.

Lemma dinode_off_ne sb i j : 0 <= i -> 0 <= j -> i <> j -> IBLOCK i sb = IBLOCK j sb ->
  (dinode_off i + 64 <= dinode_off j \/ dinode_off j + 64 <= dinode_off i)%nat.
Proof.
  unfold IBLOCK, dinode_off. change IPB with 16. intros Hi Hj Hne E. pose proof (Z.div_mod i 16 ltac:(lia)). pose proof (Z.div_mod j 16 ltac:(lia)).
  pose proof (Z.mod_pos_bound i 16 ltac:(lia)). pose proof (Z.mod_pos_bound j 16 ltac:(lia)). lia.
Qed.

Lemma wp_iupdate s v i ip (Q : unit -> F -> Prop) :
  let sb := f_sb s in let b := IBLOCK (i_inum ip) sb in
  R (ft s) v -> layout_ok sb v -> dinode_ok (i_di ip) -> at_rest v -> theld v = ∅ -> (0 < troom v)%nat ->
  inodes s !! Z.to_nat i = Some ip -> i_dev ip = dv -> iblock_ok sb (i_inum ip) ->
  (forall t, R t (t_put b (put_dinode (tcontents v b) (dinode_off (i_inum ip)) (i_di ip)) v) -> Q tt (with_ft t s)) ->
  wp (iupdate i) s Q.
Proof.
  intros sb b HR Hl Hdi Hr Hheld Hroom Hip Hdev [Hib1 Hib2 Hib3] HQ. pose proof (sbk_size _ (ly_sb _ _ _ Hl)) as Hsz. pose proof (ly_data _ _ _ Hl) as HD.
  unfold iupdate. apply wp_bind. eapply (wp_geti i s ip); [exact Hip|]. cbn beta. change (id ip) with ip. wp_step. wp_step. rewrite Hdev.
  apply wp_bind. eapply (wp_l_bread dv R); [exact HR|fold sb; lia|by rewrite Hheld|by apply spare_empty|]. intros bp t1 H1. cbn beta.
  apply wp_bind. eapply (wp_l_bdata dv R); [exact H1|apply lookup_insert_eq|]. cbn [tcontents t_hold]. fold sb b.
  destruct (put_dinode_bytes (tcontents v b) (dinode_off (i_inum ip)) (i_di ip)) as [Hb Hlen]; [done|rewrite (t_len _ _ _ HR); by apply dinode_off_range|apply (t_bytes _ _ _ HR)|].
  eapply (wp_blk_store dv R _ v b); [exact H1|by rewrite Hheld|exact Hr|exact Hroom|by rewrite Hlen, (t_len _ _ _ HR)|exact Hb|]. intros t2 H2. by apply HQ.
Qed.

(** What writei() leaves: the inode [ip1] in memory and on disk. *)
Record stored (sb : superblock) v v1 ip ip1 (off r : Z) (bs : list Z) : Prop := {
  so_layout : layout_ok sb v1;
  so_inode : inode_ok sb v1 ip1;
  so_rest : at_rest v1 /\ theld v1 = ∅;
  so_same : i_dev ip1 = i_dev ip /\ i_inum ip1 = i_inum ip /\ i_type ip1 = i_type ip /\ i_nlink ip1 = i_nlink ip;
  so_size : i_size ip1 = Z.max (i_size ip) (off + r);
  so_bytes : forall o, 0 <= o < i_size ip1 ->
    fbyte v1 ip1 o = if decide (off <= o < off + r) then default 0 (bs !! Z.to_nat (o - off)) else fbyte v ip o;
  so_disk : get_dinode (tcontents v1 (IBLOCK (i_inum ip1) sb)) (dinode_off (i_inum ip1)) = i_di ip1;
  so_frame : forall b, data_block sb v b -> (forall k, 0 <= k < MAXFILE -> daddr v ip k <> b) -> b <> ind_addr ip ->
    data_block sb v1 b /\ tcontents v1 b = tcontents v b;
  so_inodes : forall j, iblock_ok sb j -> j <> i_inum ip ->
    get_dinode (tcontents v1 (IBLOCK j sb)) (dinode_off j) = get_dinode (tcontents v (IBLOCK j sb)) (dinode_off j);
  so_meta : forall b, 0 <= b < D -> not_bitmap sb b -> b <> IBLOCK (i_inum ip) sb -> tcontents v1 b = tcontents v b
}.

Lemma daddr_size v ip x k : daddr v (set_isize x ip) k = daddr v ip k.
Proof. done. Qed.

Lemma wp_writei s v i ip us src off bs (Q : Z -> F -> Prop) :
  let sb := f_sb s in let n := Z.of_nat (length bs) in
  R (ft s) v -> layout_ok sb v -> inode_ok sb v ip -> at_rest v -> theld v = ∅ -> shorts_ok ip -> iblock_ok sb (i_inum ip) ->
  inodes s !! Z.to_nat i = Some ip -> i_dev ip = dv -> 0 <= off <= i_size ip -> off + n <= MAXFILE * BSIZE ->
  0 <= src < 2 ^ 64 -> sends us src bs (fu s) -> Forall is_byte bs -> 6 * (n / BSIZE + 2) + 1 <= Z.of_nat (troom v) ->
  (forall t v1 ip1 r, R t v1 -> stored sb v v1 ip ip1 off r bs -> 0 <= r <= n -> (r < n -> no_free sb v1) -> Q r (upd i ip1 t s)) ->
  wp (writei i us src off n) s Q.
Proof.
  intros sb n HR Hl Hik Hr Hheld Hsh Hib Hip Hdev Hoff Hmax Hsrc Hsend Hbs Hroom HQ. pose proof (ik_size _ _ _ Hik) as Hsz.
  assert (Hlim : MAXFILE * BSIZE < 2 ^ 31) by done. unfold writei. apply wp_bind. eapply (wp_geti i s ip); [exact Hip|]. cbn beta. change (id ip) with ip.
  rewrite u32_small by lia. rewrite (proj2 (Z.ltb_ge (i_size ip) off)), (proj2 (Z.ltb_ge (off + n) off)), (proj2 (Z.ltb_ge (MAXFILE * BSIZE) (off + n))) by lia. cbn [orb].
  apply wp_bind. eapply wp_writei_loop; try done. intros t v' ip' tot Ht Hw Htot Hfull Hrm. cbn beta iota.
  apply wp_bind. eapply (wp_geti i _ ip'); [by eapply upd_lookup|]. cbn beta. change (id ip') with ip'.
  pose proof (wr_inode _ _ _ _ _ _ _ _ Hw) as Hin. destruct Hin as (I1 & I2 & I3 & I4 & I5 & I6 & I7 & _). rewrite I3.
  set (ip1 := if i_size ip <? off + tot then set_isize (off + tot) ip' else ip').
  assert (Hs1 : i_size ip1 = Z.max (i_size ip) (off + tot)) by (unfold ip1; destruct (Z.ltb_spec (i_size ip) (off + tot)); cbn; rewrite ?I3; lia).
  assert (Hd1 : forall w k, daddr w ip1 k = daddr w ip' k) by (intros w k; unfold ip1; by destruct (_ <? _)).
  assert (Hi1 : ind_addr ip1 = ind_addr ip') by (unfold ip1; by destruct (_ <? _)).
  assert (Hf1 : file_ok sb v' ip1) by (unfold ip1; destruct (_ <? _); [destruct (wr_file _ _ _ _ _ _ _ _ Hw); by split|apply (wr_file _ _ _ _ _ _ _ _ Hw)]).
  assert (Hin1 : i_dev ip1 = i_dev ip /\ i_inum ip1 = i_inum ip /\ i_type ip1 = i_type ip /\ i_nlink ip1 = i_nlink ip) by (unfold ip1; by destruct (_ <? _)).
  assert (Hsh1 : shorts_ok ip1).
  { unfold shorts_ok. destruct Hin1 as (_ & _ & -> & ->). destruct Hsh as (S1 & S2 & S3 & S4). unfold ip1.
    split_and!; try apply S1; try apply S4; destruct (_ <? _); cbn; rewrite ?I5, ?I6; try apply S2; apply S3. }
  apply (wp_bind). apply (wp_mono _ _ (fun _ s' => s' = upd i ip1 t s)).
  { unfold ip1. destruct (i_size ip <? off + tot); [|by wp_step]. change (when true ?x) with x. eapply (wp_seti i _ ip'); [by eapply upd_lookup|]. by rewrite upd_upd. }
  intros [] s' ->. pose proof (wr_layout _ _ _ _ _ _ _ _ Hw) as Hl'. destruct Hin1 as (N1 & N2 & N3 & N4).
  apply wp_bind. eapply (wp_iupdate (upd i ip1 t s) v' i ip1); [exact Ht|exact Hl'| |apply (wr_rest _ _ _ _ _ _ _ _ Hw)|apply (wr_held _ _ _ _ _ _ _ _ Hw)|exact Hrm|by eapply upd_lookup|congruence|by rewrite N2|].
  { eapply file_dinode; [exact Hl'|exact Hf1|exact Hsh1|]. rewrite Hs1. lia. }
  change (f_sb (upd i ip1 t s)) with sb. intros t1 H1. wp_step. rewrite i32_small by lia. rewrite with_upd. destruct Hib as [B1 B2 B3].
  set (ib := IBLOCK (i_inum ip1) sb) in *. assert (Eib : ib = IBLOCK (i_inum ip) sb) by (unfold ib; by rewrite N2). rewrite <-Eib in B1, B2.
  set (v1 := t_put ib _ v') in *.
  assert (Hne : forall b, data_block sb v' b -> b <> ib) by (intros b [? _]; lia).
  assert (Hind : ind_addr ip1 <> ib \/ ind_addr ip1 = 0).
  { destruct (decide (ind_addr ip1 = 0)) as [|Hn0]; [by right|left]. by apply Hne, Hf1. }
  apply (HQ t1 v1 ip1 tot); [exact H1| |lia|].
  - split; try done.
    + by apply layout_put.
    + split; [by apply file_put|lia|]. intros k Hk Hlt. unfold v1. rewrite daddr_put by done. rewrite Hd1. apply (wr_has _ _ _ _ _ _ _ _ Hw); [done|lia].
    + split; [apply (wr_rest _ _ _ _ _ _ _ _ Hw)|apply (wr_held _ _ _ _ _ _ _ _ Hw)].
    + intros o Ho. rewrite Hs1 in Ho. rewrite <-(wr_bytes _ _ _ _ _ _ _ _ Hw o Ho). unfold fbyte. unfold v1 at 2. rewrite daddr_put, Hd1 by done.
      destruct (block_index o MAXFILE ltac:(lia)) as [Hko Hkob].
      assert (Hnz : daddr v' ip' (o / BSIZE) <> 0) by (apply (wr_has _ _ _ _ _ _ _ _ Hw); lia).
      destruct (fk_blk _ _ _ _ (wr_file _ _ _ _ _ _ _ _ Hw) _ Hko Hnz) as [Hdb _]. unfold v1. cbn [tcontents t_put]. rewrite fupd_ne by (by apply Hne). done.
    + fold ib. unfold v1. cbn [tcontents t_put]. rewrite fupd_eq. apply get_put_dinode.
      * eapply file_dinode; [exact Hl'|exact Hf1|exact Hsh1|]. rewrite Hs1. lia.
      * rewrite (t_len _ _ _ Ht). apply dinode_off_range. by rewrite N2.
    + intros b Hb Hdb Hi. destruct (wr_frame _ _ _ _ _ _ _ _ Hw b Hb Hdb Hi) as (F1 & F2 & _ & _). split; [by apply data_put|].
      unfold v1. cbn [tcontents t_put]. rewrite fupd_ne by (by apply Hne). done.
    + intros j [J1 J2 J3] Hj. pose proof (wr_meta _ _ _ _ _ _ _ _ Hw _ J1 J2) as Ej. unfold v1. cbn [tcontents t_put].
      destruct (decide (IBLOCK j sb = ib)) as [E|E]; [|by rewrite fupd_ne, Ej by done]. rewrite E, fupd_eq, get_dinode_ne; [by rewrite <-E, Ej| | |].
      * eapply file_dinode; [exact Hl'|exact Hf1|exact Hsh1|]. rewrite Hs1. lia.
      * rewrite (t_len _ _ _ Ht). apply dinode_off_range. by rewrite N2.
      * apply (dinode_off_ne sb); [by rewrite N2|done|congruence|by rewrite E].
    + intros b Hb Hnb Hbi. unfold v1. cbn [tcontents t_put]. rewrite fupd_ne by congruence. by apply (wr_meta _ _ _ _ _ _ _ _ Hw).
  - intros Hlt b Hb. unfold v1. rewrite used_put by (by apply B2). by apply Hfull.
Qed.

(** C8: what is written is read back.  writei() of the bytes [bs] at an offset
    within the file returns how many were written, fewer than all only when no
    block is free; the file then consists of its old bytes with these in
    their place, its size covers them, the inode on disk is the inode in
    memory, every other inode on disk is as it was, no block of another file
    has changed, and neither has any other block before the data but the
    bitmap's.  The write stays below the maximum file size and the transaction
    has room for the blocks it touches.  A readi() of that range
    delivers exactly the bytes that were written. *)
Theorem write_then_read s v i ip us src off bs :
  let sb := f_sb s in let n := Z.of_nat (length bs) in
  R (ft s) v -> layout_ok sb v -> inode_ok sb v ip -> at_rest v -> theld v = ∅ -> shorts_ok ip -> iblock_ok sb (i_inum ip) ->
  inodes s !! Z.to_nat i = Some ip -> i_dev ip = dv -> 0 <= off <= i_size ip -> off + n <= MAXFILE * BSIZE ->
  0 <= src < 2 ^ 64 -> sends us src bs (fu s) -> Forall is_byte bs -> 6 * (n / BSIZE + 2) + 1 <= Z.of_nat (troom v) ->
  wp (writei i us src off n) s (fun r s1 => exists v1 ip1,
    R (ft s1) v1 /\ s1 = upd i ip1 (ft s1) s /\ stored sb v v1 ip ip1 off r bs /\ 0 <= r <= n /\ (r < n -> no_free sb v1) /\
    forall ud dst got, 0 <= dst < 2 ^ 64 -> got [] (fu s1) -> accepts_upto got ud dst r ->
      wp (readi i ud dst off r) s1 (fun r' s2 => r' = r /\ got (take (Z.to_nat r) bs) (fu s2))).
Proof.
  intros sb n HR Hl Hik Hr Hheld Hsh Hib Hip Hdev Hoff Hmax Hsrc Hsend Hbs Hroom. eapply wp_writei; try done.
  intros t v1 ip1 r Ht Hso Hrn Hfull. exists v1, ip1. split; [done|]. split; [done|]. split; [done|]. split; [done|]. split; [done|].
  intros ud dst got Hdst Hg Hacc. destruct Hso as [S1 S2 [S3 S4] [S5 [S6 _]] S7 S8 _ _ _ _]. pose proof (ik_size _ _ _ S2) as Hsz.
  assert (Hlim : MAXFILE * BSIZE < 2 ^ 31) by done. assert (En : Z.min r (i_size ip1 - off) = r) by lia.
  eapply (wp_readi (upd i ip1 t s) v1 i ip1); [exact Ht|exact S1|exact S2|exact S3|exact S4|by eapply upd_lookup|congruence|lia|lia|lia|exact Hdst|exact Hg|by rewrite En|].
  rewrite En. intros t2 u2 _ Hg2. split; [done|]. cbn [fu with_tu].
  replace (take (Z.to_nat r) bs) with (fbytes v1 ip1 off r); [done|].
  apply list_eq. intros j. unfold fbytes. rewrite list_lookup_fmap. destruct (decide (j < Z.to_nat r)%nat) as [Hj|Hj].
  - rewrite lookup_seqZ_lt, lookup_take_lt by lia. cbn. rewrite S8 by lia. rewrite decide_True by lia.
    replace (Z.to_nat (off + Z.of_nat j - off)) with j by lia. destruct (lookup_lt_is_Some_2 bs j) as [x Hx]; [lia|]. by rewrite Hx.
  - rewrite lookup_seqZ_ge, lookup_take_ge by lia. done.
Qed.

End Data.
