(* ===== verification/FsDir.v ===== *)
(** * Directories (iget, dirlookup and dirlink of kernel/fs.c)

    A directory is a file of 16-byte entries: an inode number, 0 for a free
    entry, and a name of at most 14 characters.  dirlookup() finds the first
    entry with a name and takes a reference to its inode; after dirlink() the
    name is found.  [KLocal] is what the code relies on of its local variable
    [de], which readi() and writei() reach through a kernel address. *)

From S2P Require Import Prelude Spinlock Riscv Mem BufCache Log UserIO BlockStore Fs FsAlloc FsBmap FsData.

(** ** Names *)

(** The name in a buffer: up to [n] characters, or up to the NUL. *)
Fixpoint name_of (n : nat) (p : list Z) : list Z :=
  match n with
  | O => []
  | S n => if hd 0 p =? 0 then [] else hd 0 p :: name_of n (tail p)
  end.

Lemma strncmp_name n p q : strncmp n p q = 0 <-> name_of n p = name_of n q.
Proof.
  revert p q. induction n as [|n IH]; intros p q; cbn [strncmp name_of]; [done|].
  destruct (Z.eqb_spec (hd 0 p) 0) as [Ep|Ep]; cbn [negb andb].
  - rewrite Ep. destruct (Z.eqb_spec (hd 0 q) 0) as [Eq|Eq]; [by rewrite Eq|]. split; [lia|done].
  - destruct (Z.eqb_spec (hd 0 p) (hd 0 q)) as [E|E].
    + rewrite IH, <-E, (proj2 (Z.eqb_neq _ _) Ep). split; [by intros ->|congruence].
    + split; [lia|]. destruct (hd 0 q =? 0); congruence.
Qed.

Lemma name_nil n : name_of n [] = [].
Proof. by destruct n. Qed.
Lemma name_zeros n m : name_of n (replicate m 0) = [].
Proof. destruct n; [done|]. by destruct m. Qed.

Lemma name_strncpy n p : name_of n (strncpy n p) = name_of n p.
Proof.
  revert p. induction n as [|n IH]; intros p; [done|]. destruct p as [|c p]; [done|]. cbn [strncpy name_of hd tail].
  destruct (c =? 0) eqn:E; cbn [hd tail]; [done|]. by rewrite E, IH.
Qed.

Lemma length_strncpy n p : length (strncpy n p) = n.
Proof. revert p. induction n as [|n IH]; intros p; [done|]. destruct p as [|c p]; cbn; [by rewrite length_replicate|]. destruct (c =? 0); cbn; [by rewrite length_replicate|by rewrite IH]. Qed.

Lemma strncpy_bytes n p : Forall is_byte p -> Forall is_byte (strncpy n p).
Proof.
  revert p. induction n as [|n IH]; intros p Hp; [constructor|]. destruct p as [|c p]; cbn; [constructor; [done|by apply Forall_replicate]|].
  inversion Hp; subst. destruct (c =? 0); constructor; [done|by apply Forall_replicate|done|by apply IH].
Qed.

(** ** The local variable *)

Class KLocal (U : Type) `{UserIO U} (de_addr : Z) (kload : Z -> nat -> U -> list Z) : Prop := {
  kl_addr : 0 <= de_addr < 2 ^ 64;
  kl_len : forall u, length (kload de_addr 16%nat u) = 16%nat;
  kl_out : forall k c u, (k + length c <= 16)%nat ->
    exists u', either_copyout false (u64 (de_addr + Z.of_nat k)) c u = (true, u') /\ kload de_addr 16%nat u' = splice (kload de_addr 16%nat u) k c;
  kl_in : forall j m u, 0 <= j -> 0 < m -> j + m <= 16 ->
    either_copyin false (u64 (de_addr + j)) m u = Some (take (Z.to_nat m) (drop (Z.to_nat j) (kload de_addr 16%nat u)))
}.

Section Dir.
Context {T U : Type} `{LogOps T} `{UserIO U} (dv : Z) (R : T -> tview -> Prop) `{!LogStore T dv R} (D : Z).
Context (me pid de_addr : Z) (kload : Z -> nat -> U -> list Z) `{!KLocal U de_addr kload}.
Notation F := (fstate T U).
Implicit Types (s : F) (v : tview) (ip : inode).

(** What readi() has put into [de] so far. *)
Definition de_got (pre : list Z) (u : U) : Prop := take (length pre) (kload de_addr 16%nat u) = pre.

Lemma de_accepts n : n <= 16 -> accepts_upto de_got false de_addr n.
Proof.
  intros Hn pre c u Hg Hl. destruct (kl_out (length pre) c u ltac:(lia)) as (u' & Ho & Hk). exists u'. split; [done|].
  unfold de_got in *. rewrite Hk, length_app. unfold splice. pose proof (kl_len u) as Hlen.
  rewrite take_app_add', Hg, take_app_length; [done|]. rewrite length_take, Hlen. lia.
Qed.

Lemma de_sends u bs : kload de_addr 16%nat u = bs -> length bs = 16%nat -> sends false de_addr bs u.
Proof. intros <- Hl j m Hj Hm Hjm. rewrite Hl in Hjm. by apply kl_in. Qed.

(** ** iget *)

Definition is_for (dev inum : Z) (ip : inode) : bool := (0 <? i_ref ip) && (i_dev ip =? dev) && (i_inum ip =? inum).

(** The slot iget() returns: one that is for the inode, with its count one
    higher, or, when there is none, the first free one. *)
Record igot (dev inum : Z) (l : list inode) (j : Z) (ip' : inode) : Prop := {
  ig_slot : 0 <= j < NINODE;
  ig_for : i_dev ip' = dev /\ i_inum ip' = inum;
  ig_old : exists ip, l !! Z.to_nat j = Some ip /\
    ((is_for dev inum ip = true /\ ip' = set_iref (i32 (i_ref ip + 1)) ip) \/
     ((forall k ip0, l !! k = Some ip0 -> is_for dev inum ip0 = false) /\ i_ref ip = 0 /\ ip' = mkInode dev inum 1 (i_lock ip) 0 (i_di ip)))
}.

(** iget() can be called: the table is not full, or has the inode. *)
Record itable_ok (l : list inode) (dev inum : Z) : Prop := {
  it_len : length l = Z.to_nat NINODE;
  it_room : exists k ip, l !! k = Some ip /\ (is_for dev inum ip = true \/ i_ref ip = 0)
}.

Lemma wp_iget s dev inum (Q : Z -> F -> Prop) :
  lock_free (it_lock s) -> itable_ok (inodes s) dev inum ->
  (forall j ip', igot dev inum (inodes s) j ip' -> Q j (upd j ip' (ft s) s)) ->
  wp (iget me dev inum) s Q.
Proof.
  intros Hlk [Hlen Hroom] HQ. unfold iget. apply wp_bind, wp_acquire_at; [done|]. set (s1 := put _ _ s). apply wp_bind.
  assert (Hput : forall ip' j, put it_lock_lens (it_lock s) (upd j ip' (ft s1) s1) = upd j ip' (ft s) s) by (intros; by destruct s).
  apply (wp_loop (fun '(i, empty) s' => s' = s1 /\ 0 <= i <= NINODE /\
      (forall k ip, (k < Z.to_nat i)%nat -> inodes s !! k = Some ip -> is_for dev inum ip = false) /\
      match empty with
      | None => forall k ip, (k < Z.to_nat i)%nat -> inodes s !! k = Some ip -> i_ref ip <> 0
      | Some e => 0 <= e < i /\ exists ip, inodes s !! Z.to_nat e = Some ip /\ i_ref ip = 0
      end) (fun '(i, _) => Z.to_nat (NINODE - i))).
  - intros [i empty] s' (-> & Hi & Hno & He). unfold iget_body. destruct (Z.ltb_spec i NINODE) as [Hlt|Hge].
    + destruct (lookup_lt_is_Some_2 (inodes s) (Z.to_nat i)) as [ip Hip]; [rewrite Hlen; lia|].
      apply wp_bind. eapply (wp_geti i s1 ip); [exact Hip|]. change (id ip) with ip. cbn beta. fold (is_for dev inum ip).
      destruct (is_for dev inum ip) eqn:Ef.
      * apply wp_bind. eapply (wp_seti i s1 ip); [exact Hip|]. apply wp_bind. eapply wp_release_at; [reflexivity|exact Hlk|]. wp_step. wp_step.
        rewrite Hput. apply HQ. pose proof Ef as Ef'. unfold is_for in Ef'. bool_simpl. split; [lia|by split|]. exists ip. split; [done|by left].
      * wp_step. split; [|lia]. split; [done|]. split; [lia|].
        assert (Hnext : forall (P : inode -> Prop), P ip -> (forall k ip0, (k < Z.to_nat i)%nat -> inodes s !! k = Some ip0 -> P ip0) ->
                  forall k ip0, (k < Z.to_nat (i + 1))%nat -> inodes s !! k = Some ip0 -> P ip0).
        { intros P H1 H2 k ip0 Hk Hk0. destruct (decide (k = Z.to_nat i)) as [->|]; [congruence|]. apply (H2 k); [lia|done]. }
        split; [by apply (Hnext (fun ip0 => is_for dev inum ip0 = false))|].
        destruct empty as [e|]; [destruct He as [? ?]; split; [lia|done]|]. destruct (Z.eqb_spec (i_ref ip) 0) as [E0|E0]; [split; [lia|eauto]|].
        by apply (Hnext (fun ip0 => i_ref ip0 <> 0)).
    + wp_step. assert (i = NINODE) as -> by lia.
      assert (Hall : forall k ip, inodes s !! k = Some ip -> (k < Z.to_nat NINODE)%nat) by (intros k ip Hk; rewrite <-Hlen; by apply lookup_lt_Some in Hk).
      destruct empty as [e|].
      * destruct He as [Her (ip & Hip & Hr)]. apply wp_bind. eapply (wp_seti e s1 ip); [exact Hip|]. apply wp_bind.
        eapply wp_release_at; [reflexivity|exact Hlk|]. wp_step. rewrite Hput. apply HQ. split; [lia|done|]. exists ip. split; [done|right]. split_and!; try done.
        intros k ip0 Hk. apply (Hno k); [by eapply Hall|done].
      * exfalso. destruct Hroom as (k & ip & Hk & [Hf|Hf]); pose proof (Hall _ _ Hk).
        -- rewrite (Hno k ip) in Hf by done. done.
        -- by apply (He k ip).
  - split; [done|]. split; [done|]. split; intros; lia.
  - rewrite Z.sub_0_r. lia.
Qed.

(** ** dirlookup *)

Definition SZ : Z := 16.
(** Entry [k] of the directory, and whether it is in use with a name. *)
Definition entry v ip (k : Z) : list Z := fbytes v ip (SZ * k) SZ.
Definition entry_is (name : list Z) (e : list Z) : Prop := de_inum e <> 0 /\ name_of 14 (de_name e) = name_of 14 name.

(** A directory of [n] entries in slot [i] of the table. *)
Record dir_at s v (i : Z) ip (n : Z) : Prop := {
  da_rel : R (ft s) v;
  da_layout : layout_ok D (f_sb s) v;
  da_inode : inode_ok D (f_sb s) v ip;
  da_rest : at_rest v /\ theld v = ∅;
  da_slot : inodes s !! Z.to_nat i = Some ip;
  da_dev : i_dev ip = dv;
  da_type : i_type ip = T_DIR;
  da_size : i_size ip = SZ * n
}.

Lemma dir_at_tu s v i ip n t u : dir_at s v i ip n -> R t v -> dir_at (with_tu t u s) v i ip n.
Proof. intros [] Ht. by split. Qed.

Lemma wp_read_entry s v i ip n k (Q : Z -> F -> Prop) :
  dir_at s v i ip n -> 0 <= k < n ->
  (forall t u, R t v -> read_de de_addr kload u = entry v ip k -> Q SIZEOF_DE (with_tu t u s)) ->
  wp (readi i false de_addr (SZ * k) SIZEOF_DE) s Q.
Proof.
  intros [HR Hl Hik [Hr Hh] Hs Hd Ht Hz] Hk HQ. pose proof (ik_size _ _ _ _ Hik) as Hsz. assert (Hmax : MAXFILE * BSIZE < 2 ^ 31) by done. unfold SZ in *.
  assert (En : Z.min SIZEOF_DE (i_size ip - 16 * k) = SIZEOF_DE) by (change SIZEOF_DE with 16; lia).
  eapply (wp_readi dv R D s v i ip false de_addr (16 * k) SIZEOF_DE de_got); try done; [lia|change SIZEOF_DE with 16; lia|apply kl_addr|by rewrite En; apply de_accepts|].
  rewrite En. intros t u Ht' Hg. apply HQ; [done|]. unfold read_de, entry. unfold de_got in Hg. rewrite length_fbytes in Hg.
  change (Z.to_nat SIZEOF_DE) with 16%nat in *. rewrite take_ge in Hg by (by rewrite kl_len). done.
Qed.

Lemma namecmp_entry name e : (namecmp name (de_name e) =? 0) = bool_decide (name_of 14 (de_name e) = name_of 14 name).
Proof.
  unfold namecmp. change (Z.to_nat DIRSIZ) with 14%nat. apply eq_true_iff_eq. rewrite Z.eqb_eq, bool_decide_eq_true, strncmp_name. split; congruence.
Qed.

(** What dirlookup() finds: nothing, when no entry is in use with the name, or
    the first such entry. *)
Inductive looked v ip (n : Z) (name : list Z) s : option (Z * Z) -> F -> Prop :=
| looked_none t u : R t v -> (forall k, 0 <= k < n -> ~ entry_is name (entry v ip k)) -> looked v ip n name s None (with_tu t u s)
| looked_some t u k j ip' : R t v -> 0 <= k < n -> entry_is name (entry v ip k) -> (forall k', 0 <= k' < k -> ~ entry_is name (entry v ip k')) ->
    igot dv (de_inum (entry v ip k)) (inodes s) j ip' -> looked v ip n name s (Some (j, SZ * k)) (upd j ip' t (with_tu t u s)).

Lemma wp_dirlookup s v i ip n name (Q : option (Z * Z) -> F -> Prop) :
  dir_at s v i ip n -> lock_free (it_lock s) ->
  (forall k, 0 <= k < n -> entry_is name (entry v ip k) -> itable_ok (inodes s) dv (de_inum (entry v ip k))) ->
  (forall r s', looked v ip n name s r s' -> Q r s') ->
  wp (dirlookup me de_addr kload i name) s Q.
Proof.
  intros Hd Hlk Hit HQ. pose proof Hd as [HR Hl Hik [Hr Hh] Hs Hdv Hty Hz]. pose proof (ik_size _ _ _ _ Hik) as Hsz. assert (Hmax : MAXFILE * BSIZE < 2 ^ 31) by done.
  unfold dirlookup. apply wp_bind. eapply (wp_geti i s ip); [exact Hs|]. change (id ip) with ip. cbn beta. rewrite Hty. change (T_DIR =? T_DIR) with true. cbn [negb].
  unfold SZ in *. apply (wp_loop (fun off s' => exists k t u, off = 16 * k /\ 0 <= k <= n /\ s' = with_tu t u s /\ R t v /\
      (forall k', 0 <= k' < k -> ~ entry_is name (entry v ip k'))) (fun off => Z.to_nat ((i_size ip - off) / 16 + 1))).
  - intros off s' (k & t & u & -> & Hk & -> & Ht & Hno). unfold dirlookup_body. apply wp_bind. eapply (wp_geti i _ ip); [exact Hs|]. change (id ip) with ip. cbn beta.
    rewrite Hz. destruct (Z.ltb_spec (16 * k) (16 * n)) as [Hlt|Hge].
    2: { wp_step. apply HQ. assert (k = n) as -> by lia. by constructor. }
    apply wp_bind. eapply (wp_read_entry _ v i ip n k); [by apply dir_at_tu|lia|]. intros t1 u1 Ht1 Hde. cbn beta. change (SIZEOF_DE =? SIZEOF_DE) with true. cbn [negb].
    wp_step. wp_step. cbn [fu with_tu]. rewrite Hde.
    assert (Hnext : ~ entry_is name (entry v ip k) -> exists k0 t0 u0, u32 (16 * k + SIZEOF_DE) = 16 * k0 /\ 0 <= k0 <= n /\ with_tu t1 u1 (with_tu t u s) = with_tu t0 u0 s /\ R t0 v /\
                (forall k', 0 <= k' < k0 -> ~ entry_is name (entry v ip k'))).
    { intros Hn. exists (k + 1), t1, u1. change SIZEOF_DE with 16. rewrite u32_small by lia. split_and!; try done; try lia.
      intros k' Hk'. destruct (decide (k' = k)) as [->|]; [done|]. apply Hno. lia. }
    assert (Hmu : (Z.to_nat ((16 * n - u32 (16 * k + SIZEOF_DE)) / 16 + 1) < Z.to_nat ((16 * n - 16 * k) / 16 + 1))%nat).
    { change SIZEOF_DE with 16. rewrite u32_small by lia. replace (16 * n - (16 * k + 16)) with ((n - k - 1) * 16) by lia. replace (16 * n - 16 * k) with ((n - k) * 16) by lia.
      rewrite !Z.div_mul by lia. lia. }
    destruct (Z.eqb_spec (de_inum (entry v ip k)) 0) as [E0|E0]; [wp_step; split; [apply Hnext; by intros []|done]|].
    rewrite namecmp_entry. destruct (bool_decide_reflect (name_of 14 (de_name (entry v ip k)) = name_of 14 name)) as [En|En]; [|wp_step; split; [apply Hnext; by intros []|done]].
    apply wp_bind. apply wp_iget; [exact Hlk|rewrite Hdv; apply Hit; [lia|done]|]. rewrite Hdv. intros j ip' Hj. wp_step. apply HQ. refine (looked_some v ip n name s t1 u1 k j ip' _ _ _ _ _); [done|lia|done|done|done].
  - exists 0, (ft s), (fu s). split_and!; try done; [lia|by destruct s|intros; lia].
  - rewrite Z.sub_0_r. change SIZEOF_DE with 16. assert (0 <= i_size ip / 16) by (apply Z.div_pos; lia). lia.
Qed.

(** ** dirlink *)

(** The entry dirlink() writes. *)
Definition new_entry (name : list Z) (inum : Z) : list Z := le_bytes 2 (u16 inum) ++ strncpy (Z.to_nat DIRSIZ) name.

Lemma length_new name inum : length (new_entry name inum) = 16%nat.
Proof. unfold new_entry. by rewrite length_app, length_le_bytes, length_strncpy. Qed.
Lemma new_bytes name inum : Forall is_byte name -> Forall is_byte (new_entry name inum).
Proof. intros Hn. apply Forall_app. split; [apply le_bytes_is_byte|by apply strncpy_bytes]. Qed.
Lemma new_inum name inum : 0 <= inum < 2 ^ 16 -> de_inum (new_entry name inum) = inum.
Proof.
  intros Hi. unfold de_inum, get_u16, new_entry. rewrite drop_0, take_app_le by (by rewrite length_le_bytes). rewrite take_ge by (by rewrite length_le_bytes).
  rewrite le_val_le_bytes. unfold u16. rewrite !Z.mod_small by (rewrite ?Z.mod_small; lia). done.
Qed.
Lemma new_name name inum : name_of 14 (de_name (new_entry name inum)) = name_of 14 name.
Proof. unfold de_name, new_entry. rewrite drop_app_le by (by rewrite length_le_bytes). rewrite drop_ge by (by rewrite length_le_bytes). apply name_strncpy. Qed.

Lemma wp_dirlink_scan s v i ip n (Q : Z -> F -> Prop) :
  dir_at s v i ip n ->
  (forall k t u, R t v -> 0 <= k <= n -> (k < n -> de_inum (entry v ip k) = 0) -> (forall k', 0 <= k' < k -> de_inum (entry v ip k') <> 0) ->
     Q (SZ * k) (with_tu t u s)) ->
  wp (loop (Z.to_nat (i_size ip / SIZEOF_DE) + 2) (dirlink_body de_addr kload i) 0) s Q.
Proof.
  intros Hd HQ. pose proof Hd as [HR Hl Hik [Hr Hh] Hs Hdv Hty Hz]. pose proof (ik_size _ _ _ _ Hik) as Hsz. unfold SZ in *.
  apply (wp_loop (fun off s' => exists k t u, off = 16 * k /\ 0 <= k <= n /\ s' = with_tu t u s /\ R t v /\
      (forall k', 0 <= k' < k -> de_inum (entry v ip k') <> 0)) (fun off => Z.to_nat ((i_size ip - off) / 16 + 1))).
  - intros off s' (k & t & u & -> & Hk & -> & Ht & Hno). unfold dirlink_body. apply wp_bind. eapply (wp_geti i _ ip); [exact Hs|]. change (id ip) with ip. cbn beta.
    rewrite Hz. destruct (Z.ltb_spec (16 * k) (16 * n)) as [Hlt|Hge].
    2: { wp_step. apply HQ; [done|lia|intros; lia|done]. }
    apply wp_bind. eapply (wp_read_entry _ v i ip n k); [by apply dir_at_tu|lia|]. intros t1 u1 Ht1 Hde. cbn beta. change (SIZEOF_DE =? SIZEOF_DE) with true. cbn [negb].
    wp_step. wp_step. cbn [fu with_tu]. rewrite Hde. destruct (Z.eqb_spec (de_inum (entry v ip k)) 0) as [E0|E0]; wp_step.
    + by apply (HQ k t1 u1).
    + change SIZEOF_DE with 16. split.
      * exists (k + 1), t1, u1. split_and!; try done; try lia. intros k' Hk'. destruct (decide (k' = k)) as [->|]; [done|]. apply Hno. lia.
      * replace (16 * n - (16 * k + 16)) with ((n - k - 1) * 16) by lia. replace (16 * n - 16 * k) with ((n - k) * 16) by lia. rewrite !Z.div_mul by lia. lia.
  - exists 0, (ft s), (fu s). split_and!; try done; [lia|by destruct s|intros; lia].
  - rewrite Z.sub_0_r. change SIZEOF_DE with 16. assert (0 <= i_size ip / 16) by (apply Z.div_pos; lia). lia.
Qed.

(** The directory after the entry was written. *)
Lemma entry_stored sb v v1 ip ip1 k bs n j :
  stored D sb v v1 ip ip1 (SZ * k) SIZEOF_DE bs -> length bs = 16%nat -> i_size ip = SZ * n -> 0 <= k <= n -> 0 <= j < Z.max n (k + 1) ->
  entry v1 ip1 j = if decide (j = k) then bs else entry v ip j.
Proof.
  intros Hso Hb Hn Hk Hj. pose proof (so_size _ _ _ _ _ _ _ _ _ Hso) as Hs1. unfold SZ in *. change SIZEOF_DE with 16 in *.
  assert (Hby : forall o, 16 * j <= o < 16 * j + 16 -> fbyte v1 ip1 o = if decide (j = k) then default 0 (bs !! Z.to_nat (o - 16 * k)) else fbyte v ip o).
  { intros o Ho. rewrite (so_bytes _ _ _ _ _ _ _ _ _ Hso) by lia. repeat case_decide; try lia; done. }
  case_decide as E; [|apply fbytes_ext; exact Hby]. subst j. unfold entry, fbytes, SZ.
  apply list_eq_same_length with 16%nat; [done|by rewrite length_map, length_seqZ|]. intros x a b Hx Ha Hb'.
  rewrite list_lookup_fmap, lookup_seqZ_lt in Ha by lia. cbn in Ha. injection Ha as <-. rewrite Hby by lia.
  replace (Z.to_nat (16 * k + Z.of_nat x - 16 * k)) with x by lia. by rewrite Hb'.
Qed.

(** A slot of the table other than [i] that iget() could take. *)
Definition other_slot (l : list inode) (i : Z) (inum : Z) : Prop :=
  length l = Z.to_nat NINODE /\ exists k ip, k <> Z.to_nat i /\ l !! k = Some ip /\ (is_for dv inum ip = true \/ i_ref ip = 0).

Lemma other_slot_upd l i inum ip' : other_slot l i inum -> itable_ok (<[Z.to_nat i := ip']> l) dv inum.
Proof.
  intros [Hl (k & ip & Hk & Hki & Hor)]. split; [by rewrite length_insert|]. exists k, ip. split; [|done]. by rewrite list_lookup_insert_ne.
Qed.

(** The directory when dirlink() has written entry [k]. *)
Lemma dir_linked s v i ip n k bs t u v1 ip1 :
  dir_at s v i ip n -> R t v1 -> stored D (f_sb s) v v1 ip ip1 (SZ * k) SIZEOF_DE bs -> 0 <= k <= n ->
  dir_at (upd i ip1 t (with_tu (ft s) u s)) v1 i ip1 (Z.max n (k + 1)).
Proof.
  intros [HR Hl Hik Hr Hs Hdv Hty Hz] Ht Hso Hk. pose proof (so_size _ _ _ _ _ _ _ _ _ Hso) as Hs1.
  pose proof Hso as [S1 S2 S3 (S4 & S5 & S6 & S7) _ _ _ _ _ _]. split; try done; [by eapply upd_lookup|congruence|congruence|].
  rewrite Hs1, Hz. unfold SZ. change SIZEOF_DE with 16. lia.
Qed.

End Dir.
