(* ===== verification/FsPath.v ===== *)
(** * Path names (ilock, iunlockput, idup and namei of kernel/fs.c)

    [walk] is the meaning of a path: the elements between the slashes, cut to
    14 characters, are looked up one after the other in the directories on
    disk.  namei() returns a reference to the inode the path leads to and
    leaves the count of every other inode as it was, also when the path leads
    nowhere. *)

From S2P Require Import Prelude Spinlock Riscv Mem BufCache Log UserIO BlockStore Fs FsAlloc FsBmap FsData FsDir.

(** ** The elements of a path *)

Fixpoint split_slash (p : list Z) : list (list Z) :=
  match p with
  | [] => [[]]
  | c :: p =>
      if c =? SLASH then [] :: split_slash p
      else match split_slash p with h :: t => (c :: h) :: t | [] => [[c]] end
  end.
Definition nonempty (e : list Z) : bool := match e with [] => false | _ => true end.
Definition elems (p : list Z) : list (list Z) := map (take 14) (List.filter nonempty (split_slash p)).

Lemma split_cons p : exists h t, split_slash p = h :: t.
Proof. induction p as [|c p (h & t & E)]; cbn; [eauto|]. rewrite E. destruct (c =? SLASH); eauto. Qed.

Lemma elems_skip p : elems (skip_slashes p) = elems p.
Proof. induction p as [|c p IH]; [done|]. cbn [skip_slashes]. destruct (c =? SLASH) eqn:E; [|done]. rewrite IH. unfold elems. cbn [split_slash]. by rewrite E. Qed.

Lemma take_elem_spec p e r : take_elem p = (e, r) ->
  p = e ++ r /\ (r = [] \/ exists r', r = SLASH :: r') /\ split_slash p = e :: (match r with [] => [] | _ :: r' => split_slash r' end).
Proof.
  revert e r. induction p as [|c p IH]; intros e r; cbn [take_elem split_slash]; [intros [= <- <-]; split_and!; [done|by left|done]|].
  destruct (Z.eqb_spec c SLASH) as [->|Hc]; [intros [= <- <-]; split_and!; [done|right; eauto|done]|].
  destruct (take_elem p) as [e' r'] eqn:E. intros [= <- <-]. destruct (IH _ _ eq_refl) as (-> & Hr & ->). by split_and!.
Qed.

Lemma elems_take p e r : take_elem p = (e, r) -> e <> [] -> elems p = take 14 e :: elems r.
Proof.
  intros E He. destruct (take_elem_spec p e r E) as (_ & Hr & Hs). unfold elems. rewrite Hs. cbn [List.filter].
  destruct e as [|c e]; [done|]. cbn [nonempty map]. f_equal. destruct Hr as [->|(r' & ->)]; [done|]. cbn [split_slash]. by rewrite Z.eqb_refl.
Qed.

Lemma skip_head p : match skip_slashes p with c :: _ => c <> SLASH | [] => True end.
Proof. induction p as [|c p IH]; [done|]. cbn. destruct (Z.eqb_spec c SLASH); done. Qed.

Lemma skip_length p : (length (skip_slashes p) <= length p)%nat.
Proof. induction p as [|c p IH]; cbn; [done|]. destruct (c =? SLASH); cbn; lia. Qed.

Lemma skip_nonzero p : Forall (fun c => c <> 0) p -> Forall (fun c => c <> 0) (skip_slashes p).
Proof. induction 1 as [|c p Hc Hp IH]; [done|]. cbn. destruct (c =? SLASH); [done|by constructor]. Qed.

Lemma name_of_app n e r : Forall (fun c => c <> 0) e -> (length e = n \/ ((length e < n)%nat /\ hd 0 r = 0)) -> name_of n (e ++ r) = e.
Proof.
  intros He. revert n. induction He as [|c e Hc He IH]; intros n Hn.
  - destruct n as [|n]; [done|]. destruct Hn as [Hn|[_ Hr]]; [done|]. cbn. by rewrite Hr.
  - destruct n as [|n]; [cbn in Hn; lia|]. cbn. rewrite (proj2 (Z.eqb_neq _ _) Hc). f_equal. apply IH. cbn in Hn. lia.
Qed.

Lemma elems_none p : elems (skip_slashes p) = [] -> skip_slashes p = [].
Proof.
  pose proof (skip_head p) as Hh. destruct (skip_slashes p) as [|c q]; [done|]. destruct (take_elem (c :: q)) as [e r] eqn:Et.
  rewrite (elems_take _ _ _ Et); [done|]. cbn in Et. rewrite (proj2 (Z.eqb_neq _ _) Hh) in Et. destruct (take_elem q). by injection Et as <- _.
Qed.

(** What skipelem() returns. *)
Lemma skipelem_spec path name : Forall (fun c => c <> 0) path -> length name = 14%nat ->
  match skipelem path name with
  | None => elems path = []
  | Some (rest, name') => exists e, elems path = e :: elems rest /\ name_of 14 name' = e /\ length name' = 14%nat /\
      Forall (fun c => c <> 0) rest /\ (length rest < length path)%nat /\ (elems rest = [] -> rest = [])
  end.
Proof.
  intros Hp Hn. unfold skipelem. pose proof (skip_head path) as Hh. pose proof (elems_skip path) as Ee.
  pose proof (skip_nonzero _ Hp) as Hnz. pose proof (skip_length path) as Hlen.
  destruct (skip_slashes path) as [|c p]; [by rewrite <-Ee|]. destruct (take_elem (c :: p)) as [e r] eqn:Et.
  destruct (take_elem_spec _ _ _ Et) as (E & _ & _).
  assert (He : e <> []). { cbn in Et. rewrite (proj2 (Z.eqb_neq _ _) Hh) in Et. destruct (take_elem p). by injection Et as <- _. }
  assert (Hpos : (0 < length e)%nat) by (destruct e; [done|cbn; lia]).
  rewrite E in Hnz. apply Forall_app in Hnz as [Hez Hrz]. apply (f_equal length) in E. rewrite length_app in E.
  change (Z.to_nat DIRSIZ) with 14%nat. change DIRSIZ with 14.
  exists (take 14 e). rewrite <-Ee, (elems_take _ _ _ Et He), elems_skip.
  split; [done|]. pose proof (skip_length r). destruct (Z.leb_spec 14 (Z.of_nat (length e))) as [Hl|Hl].
  - assert (Ht : length (take 14 e) = 14%nat) by (rewrite length_take; lia). 
    assert (Es : splice name 0 (take 14 e) = take 14 e) by (unfold splice; rewrite Ht, drop_ge by lia; by rewrite app_nil_r).
    rewrite Es. split_and!; [|done|by apply skip_nonzero|lia|rewrite <-elems_skip; apply elems_none].
    rewrite <-(app_nil_r (take 14 e)) at 1. apply name_of_app; [by apply Forall_take|by left].
  - assert (Hs1 : length (splice name 0 e) = 14%nat) by (rewrite length_splice; lia).
    assert (Hs2 : length (splice (splice name 0 e) (length e) [0]) = 14%nat) by (rewrite length_splice; cbn; lia).
    split_and!; [|done|by apply skip_nonzero|lia|rewrite <-elems_skip; apply elems_none]. rewrite (take_ge e) by lia.
    assert (Es : splice (splice name 0 e) (length e) [0] = e ++ [0] ++ drop (length e + 1) (splice name 0 e)).
    { unfold splice at 1. f_equal. unfold splice. change (take 0 name) with (@nil Z). rewrite app_nil_l. apply take_app_length. }
    rewrite Es. apply name_of_app; [done|right; split; [lia|done]].
Qed.

(** ** What a path means on the disk *)

(** The inode on disk, as an inode of the table would hold it. *)
Definition dnode (sb : superblock) (v : tview) (inum : Z) : dinode := get_dinode (tcontents v (IBLOCK inum sb)) (dinode_off inum).
Definition node (sb : superblock) (v : tview) (inum : Z) : inode := mkInode 0 inum 1 (sl_free "inode") 1 (dnode sb v inum).

(** The inode number of the first entry in use with a name. *)
Definition names (name : list Z) (e : list Z) : bool := negb (de_inum e =? 0) && bool_decide (name_of 14 (de_name e) = name).
Definition dir_find (sb : superblock) (v : tview) (inum : Z) (name : list Z) : option Z :=
  let ip := node sb v inum in
  (fun k => de_inum (entry v ip k)) <$> List.find (fun k => names name (entry v ip k)) (seqZ 0 (i_size ip / SZ)).

(** The inode a path leads to from [inum], and, for a parent, the directory
    its last element would be in. *)
Fixpoint walk (parent : bool) (sb : superblock) (v : tview) (inum : Z) (es : list (list Z)) : option Z :=
  match es with
  | [] => if parent then None else Some inum
  | e :: es =>
      if negb (di_type (dnode sb v inum) =? T_DIR) then None
      else if parent && negb (existsb (fun _ => true) es) then Some inum
      else match dir_find sb v inum e with Some n => walk parent sb v n es | None => None end
  end.

Lemma find_skip {A} (f : A -> bool) l1 l2 : (forall x, x ∈ l1 -> f x = false) -> List.find f (l1 ++ l2) = List.find f l2.
Proof. induction l1 as [|x l1 IH]; intros Hl; [done|]. cbn. rewrite Hl by set_solver. apply IH. set_solver. Qed.

Lemma entry_di v ip ip' k : i_di ip = i_di ip' -> entry v ip k = entry v ip' k.
Proof. intros E. unfold entry, fbytes. apply map_ext. intros o. unfold fbyte, daddr, ind_addr, i_addrs. by rewrite E. Qed.

Lemma names_is name nm e : name_of 14 nm = name -> names name e = true <-> entry_is nm e.
Proof. intros <-. unfold names, entry_is. by rewrite andb_true_iff, negb_true_iff, Z.eqb_neq, bool_decide_eq_true. Qed.

Lemma dir_find_none sb v inum n nm : i_size (node sb v inum) = SZ * n ->
  (forall k, 0 <= k < n -> ~ entry_is nm (entry v (node sb v inum) k)) -> dir_find sb v inum (name_of 14 nm) = None.
Proof.
  intros Hn Hno. unfold dir_find. rewrite Hn, (Z.mul_comm SZ n), Z.div_mul by done. rewrite <-(app_nil_r (seqZ 0 n)), find_skip; [done|].
  intros k Hk. apply elem_of_seqZ in Hk. apply not_true_iff_false. rewrite names_is by done. apply Hno. lia.
Qed.

Lemma dir_find_some sb v inum n nm k : i_size (node sb v inum) = SZ * n -> 0 <= k < n -> entry_is nm (entry v (node sb v inum) k) ->
  (forall k', 0 <= k' < k -> ~ entry_is nm (entry v (node sb v inum) k')) ->
  dir_find sb v inum (name_of 14 nm) = Some (de_inum (entry v (node sb v inum) k)).
Proof.
  intros Hn Hk Hat Hno. unfold dir_find. rewrite Hn, (Z.mul_comm SZ n), Z.div_mul by done.
  replace n with (k + (n - k)) by lia. rewrite seqZ_app by lia. rewrite find_skip.
  - rewrite Z.add_0_l, seqZ_cons by lia. cbn [List.find]. by rewrite (proj2 (names_is _ nm _ eq_refl) Hat).
  - intros k' Hk'. apply elem_of_seqZ in Hk'. apply not_true_iff_false. rewrite names_is by done. apply Hno. lia.
Qed.

Section Path.
Context {T U : Type} `{LogOps T} `{UserIO U} (dv : Z) (R : T -> tview -> Prop) `{!LogStore T dv R} (D : Z).
Context (me pid de_addr : Z) (kload : Z -> nat -> U -> list Z) `{!KLocal U de_addr kload}.
Notation F := (fstate T U).
Implicit Types (s : F) (v : tview) (ip : inode).

(** ** Locking and releasing an inode *)

Lemma wp_on_lock {A} (m : M sleeplock A) i s ip a l (Q : A -> F -> Prop) :
  inodes s !! Z.to_nat i = Some ip -> m (i_lock ip) = Ok a l -> Q a (upd i (set_ilock l ip) (ft s) s) -> wp (zoom (i_lock_lens i) m) s Q.
Proof.
  intros Hi Hm HQ. apply wp_zoom. assert (view (i_lock_lens i) s = i_lock ip) as Ev by (cbn; unfold iget_at; by rewrite Hi).
  unfold wp. rewrite Ev, Hm. cbn [put i_lock_lens]. by rewrite (alter_insert _ _ _ ip).
Qed.

(** A slot in use that nobody has locked: what is cached of the inode is what
    is on disk. *)
Record slot_ok (sb : superblock) v ip : Prop := {
  sk_dev : i_dev ip = dv;
  sk_ref : 1 <= i_ref ip < 2 ^ 31;
  sk_valid : i_valid ip = 0 \/ (i_valid ip = 1 /\ i_di ip = dnode sb v (i_inum ip))
}.

(** The slot while it is locked. *)
Definition locked_slot (sb : superblock) v (nm : string) ip : inode :=
  mkInode (i_dev ip) (i_inum ip) (i_ref ip) (sl_held nm pid) 1 (dnode sb v (i_inum ip)).

Lemma wp_ilock s v i ip nm (Q : unit -> F -> Prop) :
  R (ft s) v -> layout_ok D (f_sb s) v -> at_rest v -> theld v = ∅ ->
  inodes s !! Z.to_nat i = Some ip -> slot_ok (f_sb s) v ip -> i_lock ip = sl_free nm -> iblock_ok D (f_sb s) (i_inum ip) ->
  di_type (dnode (f_sb s) v (i_inum ip)) <> 0 ->
  (forall t, R t v -> Q tt (upd i (locked_slot (f_sb s) v nm ip) t s)) -> wp (ilock me pid i) s Q.
Proof.
  intros HR Hl Hr Hh Hi [Hdv Href Hval] Hlk Hib Hty HQ. unfold ilock. apply wp_bind. eapply (wp_geti i s ip); [exact Hi|]. change (id ip) with ip. cbn beta.
  rewrite (proj2 (Z.ltb_ge (i_ref ip) 1)) by lia. apply wp_bind. eapply wp_on_lock; [exact Hi|rewrite Hlk; apply acquiresleep_free|].
  set (ip1 := set_ilock (sl_held nm pid) ip). apply wp_bind. eapply (wp_geti i _ ip1); [by eapply upd_lookup|]. change (id ip1) with ip1. cbn beta.
  change (i_valid ip1) with (i_valid ip). destruct Hval as [E|[E1 E2]].
  - rewrite E. change (0 =? 0) with true. change (when true ?x) with x. wp_step. wp_step. cbn [f_sb upd].
    change (i_dev ip1) with (i_dev ip). change (i_inum ip1) with (i_inum ip). rewrite Hdv.
    pose proof (sbk_size _ (ly_sb _ _ _ Hl)) as Hsz. pose proof (ly_data _ _ _ Hl) as HD. pose proof (ibk_range _ _ _ Hib) as Hbr.
    apply wp_bind. eapply (wp_l_bread dv R); [exact HR|lia|by rewrite Hh|by apply spare_empty|]. intros bp t2 H2. cbn beta.
    apply wp_bind. eapply (wp_l_bdata dv R); [exact H2|apply lookup_insert_eq|]. cbn [tcontents t_hold]. fold (dnode (f_sb s) v (i_inum ip)).
    apply wp_bind. rewrite with_upd. eapply (wp_seti i _ ip1); [by eapply upd_lookup|]. rewrite upd_upd. apply wp_bind.
    eapply (wp_l_brelse dv R); [exact H2|apply lookup_insert_eq|unfold at_rest in Hr; cbn; rewrite Hr; set_solver|].
    rewrite t_drop_hold by (by rewrite Hh). intros t3 H3. rewrite with_upd. apply wp_bind. eapply (wp_seti i); [by eapply upd_lookup|]. rewrite upd_upd.
    apply wp_bind. eapply (wp_geti i); [by eapply upd_lookup|]. cbn beta.
    match goal with |- context [i_type ?x] => change (i_type x) with (di_type (dnode (f_sb s) v (i_inum ip))) end.
    rewrite (proj2 (Z.eqb_neq _ _) Hty). wp_step. by apply HQ.
  - rewrite E1. change (when (1 =? 0) ?x) with (@ret F unit tt). wp_step. 
    replace ip1 with (locked_slot (f_sb s) v nm ip); [by apply HQ|]. unfold ip1, locked_slot, set_ilock. by rewrite E1, E2.
Qed.

Lemma wp_iunlock s i ip nm (Q : unit -> F -> Prop) :
  inodes s !! Z.to_nat i = Some ip -> i_lock ip = sl_held nm pid -> 1 <= i_ref ip ->
  Q tt (upd i (set_ilock (sl_free nm) ip) (ft s) s) -> wp (iunlock me pid i) s Q.
Proof.
  intros Hi Hlk Href HQ. unfold iunlock. apply wp_bind. eapply wp_on_lock; [exact Hi|rewrite Hlk; apply holdingsleep_held|].
  apply wp_bind. eapply (wp_geti i); [by eapply upd_lookup|]. rewrite Z.eqb_refl. cbn [negb orb id]. cbn [i_ref set_ilock]. rewrite (proj2 (Z.ltb_ge (i_ref ip) 1)) by lia.
  eapply wp_on_lock; [by eapply upd_lookup|cbn [i_lock set_ilock]; apply releasesleep_held|]. by rewrite upd_upd.
Qed.

(** The inode has links, so the last reference does not free it. *)
Lemma wp_iput s i ip (Q : unit -> F -> Prop) :
  lock_free (it_lock s) -> inodes s !! Z.to_nat i = Some ip -> 1 <= i_ref ip < 2 ^ 31 -> i_valid ip = 0 \/ i_nlink ip <> 0 ->
  Q tt (upd i (set_iref (i_ref ip - 1) ip) (ft s) s) -> wp (iput me pid i) s Q.
Proof.
  intros Hlk Hi Href Hv HQ. unfold iput. apply wp_bind, wp_acquire_at; [done|]. set (s1 := put _ _ s). apply wp_bind. eapply (wp_geti i s1 ip); [exact Hi|]. change (id ip) with ip. cbn beta.
  assert ((i_ref ip =? 1) && negb (i_valid ip =? 0) && (i_nlink ip =? 0) = false) as ->.
  { destruct Hv as [-> | Hv]; [cbn; by rewrite andb_false_r|]. rewrite (proj2 (Z.eqb_neq _ _) Hv). apply andb_false_r. }
  apply wp_bind. wp_step. apply wp_bind. eapply (wp_seti i s1 ip); [exact Hi|]. cbn beta. rewrite i32_small by lia. eapply wp_release_at; [reflexivity|exact Hlk|].
  by destruct s.
Qed.

Lemma wp_iunlockput s i ip nm (Q : unit -> F -> Prop) :
  lock_free (it_lock s) -> inodes s !! Z.to_nat i = Some ip -> i_lock ip = sl_held nm pid -> 1 <= i_ref ip < 2 ^ 31 -> i_nlink ip <> 0 ->
  Q tt (upd i (set_iref (i_ref ip - 1) (set_ilock (sl_free nm) ip)) (ft s) s) -> wp (iunlockput me pid i) s Q.
Proof.
  intros Hlk Hi Hl Href Hn HQ. unfold iunlockput. apply wp_bind. eapply wp_iunlock; [exact Hi|exact Hl|lia|].
  eapply wp_iput; [exact Hlk|by eapply upd_lookup|exact Href|by right|]. by rewrite upd_upd.
Qed.

Lemma wp_idup s i ip (Q : Z -> F -> Prop) :
  lock_free (it_lock s) -> inodes s !! Z.to_nat i = Some ip -> 0 <= i_ref ip < 2 ^ 31 - 1 ->
  Q i (upd i (set_iref (i_ref ip + 1) ip) (ft s) s) -> wp (idup me i) s Q.
Proof.
  intros Hlk Hi Href HQ. unfold idup. apply wp_bind, wp_acquire_at; [done|]. set (s1 := put _ _ s).
  apply wp_bind. eapply (wp_seti i s1 ip); [exact Hi|]. cbn beta. rewrite i32_small by lia. apply wp_bind. eapply wp_release_at; [reflexivity|exact Hlk|]. wp_step.
  by destruct s.
Qed.

(** ** The table of inodes during a walk *)

(** The inodes of the tree: [L] contains their numbers and, with a directory,
    the numbers in its entries. *)
Record live (sb : superblock) v (L : Z -> Prop) (inum : Z) : Prop := {
  lv_block : iblock_ok D sb inum;
  lv_type : di_type (dnode sb v inum) <> 0;
  lv_links : di_nlink (dnode sb v inum) <> 0;
  lv_dir : di_type (dnode sb v inum) = T_DIR -> inode_ok D sb v (node sb v inum) /\ exists n, i_size (node sb v inum) = SZ * n /\
    forall k, 0 <= k < n -> de_inum (entry v (node sb v inum) k) <> 0 -> L (de_inum (entry v (node sb v inum) k))
}.

(** The table [l], compared with the table [l0]: slot [h] may be locked, slot
    [k] has [d k] more references, and a slot that was in use is for the same
    inode. *)
Record tab (sb : superblock) v (L : Z -> Prop) (l0 : list inode) (h : option nat) (d : nat -> Z) (l : list inode) : Prop := {
  tb_len : length l = Z.to_nat NINODE;
  tb_lock : forall k ip, l !! k = Some ip -> h <> Some k -> exists nm, i_lock ip = sl_free nm;
  tb_slot : forall k ip, l !! k = Some ip -> i_ref ip = 0 \/ (slot_ok sb v ip /\ L (i_inum ip));
  tb_count : forall k ip, l !! k = Some ip -> exists ip0, l0 !! k = Some ip0 /\ i_ref ip = i_ref ip0 + d k /\
    (i_ref ip0 <> 0 -> i_dev ip = i_dev ip0 /\ i_inum ip = i_inum ip0)
}.

(** One more reference to the slot that is returned. *)
Definition extra (o : option Z) (k : nat) : Z := if decide (Z.to_nat <$> o = Some k) then 1 else 0.

(** A table namei() can start from: two slots are free, and no count is about
    to overflow. *)
Record start_ok (sb : superblock) v (L : Z -> Prop) (l0 : list inode) : Prop := {
  st_tab : tab sb v L l0 None (extra None) l0;
  st_refs : forall k ip, l0 !! k = Some ip -> 0 <= i_ref ip < 2 ^ 31 - 4;
  st_free : exists k1 k2 ip1 ip2, k1 <> k2 /\ l0 !! k1 = Some ip1 /\ i_ref ip1 = 0 /\ l0 !! k2 = Some ip2 /\ i_ref ip2 = 0
}.

Section Table.
Context (sb : superblock) (v : tview) (L : Z -> Prop) (l0 : list inode) (Hst : start_ok sb v L l0).
Notation tab := (tab sb v L l0).

Lemma tab_ins h h' d d' x l j ip ip' :
  tab h d l -> l !! j = Some ip -> (h' <> Some j -> exists nm, i_lock ip' = sl_free nm) -> (forall k, k <> j -> h = Some k -> h' = Some k) ->
  i_ref ip' = 0 \/ (slot_ok sb v ip' /\ L (i_inum ip')) -> i_ref ip' = i_ref ip + x -> (i_ref ip <> 0 -> i_dev ip' = i_dev ip /\ i_inum ip' = i_inum ip) ->
  0 <= d j -> (forall k, d' k = d k + if decide (k = j) then x else 0) -> tab h' d' (<[j := ip']> l).
Proof.
  intros [T1 T2 T3 T4] Hj Hlk Hh Hs Hx Hin Hd Hd'. split; [by rewrite length_insert|..].
  - intros k ip1 [(<- & <- & _)|[Hk Hk1]]%list_lookup_insert_Some Hne; [by apply Hlk|]. apply (T2 k ip1 Hk1). intros E. apply Hne. by apply Hh.
  - intros k ip1 [(<- & <- & _)|[Hk Hk1]]%list_lookup_insert_Some; [done|by eapply T3].
  - intros k ip1 [(<- & <- & _)|[Hk Hk1]]%list_lookup_insert_Some.
    + destruct (T4 _ _ Hj) as (ip0 & E0 & Hr & Hi). exists ip0. split; [done|]. rewrite Hd', decide_True by done. split; [lia|].
      intros Hne. pose proof (st_refs _ _ _ _ Hst _ _ E0). destruct Hin as [-> ->]; [lia|by apply Hi].
    + destruct (T4 _ _ Hk1) as (ip0 & E0 & Hr & Hi). exists ip0. rewrite Hd', decide_False by done. split; [done|]. split; [lia|done].
Qed.

Lemma tab_ref h d l k ip : tab h d l -> l !! k = Some ip -> 0 <= d k <= 2 -> d k <= i_ref ip < 2 ^ 31 - 1.
Proof. intros Ht Hk Hd. destruct (tb_count _ _ _ _ _ _ _ Ht _ _ Hk) as (ip0 & E0 & Hr & _). pose proof (st_refs _ _ _ _ Hst _ _ E0). lia. Qed.

Lemma extra_range o k : 0 <= extra o k <= 1.
Proof. unfold extra. case_decide; lia. Qed.

(** iget() finds a slot. *)
Lemma tab_room h o l inum : tab h (extra o) l -> itable_ok l dv inum.
Proof.
  intros Ht. split; [apply Ht|]. destruct (st_free _ _ _ _ Hst) as (k1 & k2 & ip1 & ip2 & Hne & E1 & R1 & E2 & R2).
  assert (Hfree : forall k ip0, l0 !! k = Some ip0 -> i_ref ip0 = 0 -> Z.to_nat <$> o <> Some k -> exists k ip, l !! k = Some ip /\ (is_for dv inum ip = true \/ i_ref ip = 0)).
  { intros k ip0 E0 R0 Ho. pose proof (tb_len _ _ _ _ _ _ _ (st_tab _ _ _ _ Hst)) as Hl0. destruct (lookup_lt_is_Some_2 l k) as [ip Hip].
    { rewrite (tb_len _ _ _ _ _ _ _ Ht), <-Hl0. by eapply lookup_lt_Some. }
    exists k, ip. split; [done|right]. destruct (tb_count _ _ _ _ _ _ _ Ht _ _ Hip) as (ip0' & E0' & Hr & _). unfold extra in Hr. rewrite decide_False in Hr by done.
    simplify_eq. lia. }
  destruct (decide (Z.to_nat <$> o = Some k1)) as [Ho|Ho]; [|by apply (Hfree k1 ip1)]. apply (Hfree k2 ip2); [done|done|]. rewrite Ho. congruence.
Qed.

(** What iget() does to the table. *)
Lemma tab_iget h d l j inum ip' :
  tab h d l -> igot dv inum l j ip' -> L inum -> (forall k, 0 <= d k <= 1) ->
  tab h (fun k => d k + extra (Some j) k) (<[Z.to_nat j := ip']> l) /\ i_dev ip' = dv /\ i_inum ip' = inum.
Proof.
  intros Ht [Hj [G1 G2] (ip & Hip & Hor)] HL Hd. split; [|done]. pose proof (Hd (Z.to_nat j)) as Hdj. pose proof (tab_ref _ _ _ _ _ Ht Hip ltac:(lia)) as Hr.
  assert (Hx : forall k, d k + extra (Some j) k = d k + if decide (k = Z.to_nat j) then 1 else 0) by (intros k; unfold extra; cbn; repeat case_decide; congruence).
  destruct Hor as [[Hf ->]|(_ & R0 & ->)].
  - rewrite i32_small in * by lia. unfold is_for in Hf. bool_simpl.
    eapply (tab_ins h h d _ 1); [exact Ht|exact Hip| |done| |done|done|lia|exact Hx].
    + intros Hh. by apply (tb_lock _ _ _ _ _ _ _ Ht _ _ Hip).
    + right. destruct (tb_slot _ _ _ _ _ _ _ Ht _ _ Hip) as [|[ [S1 S2 S3] S4] ]; [lia|]. split; [|done]. split; cbn; [done|lia|done].
  - eapply (tab_ins h h d _ 1); [exact Ht|exact Hip| |done| |cbn; lia|done|lia|exact Hx].
    + intros Hh. by apply (tb_lock _ _ _ _ _ _ _ Ht _ _ Hip).
    + right. split; [|done]. split; cbn; [done|lia|by left].
Qed.

(** A slot that is locked and holds inode [n]. *)
Record held_slot (n : Z) ip : Prop := {
  hs_lock : exists nm, i_lock ip = sl_held nm pid;
  hs_inode : i_dev ip = dv /\ i_inum ip = n /\ i_valid ip = 1;
  hs_di : i_di ip = dnode sb v n
}.

Lemma tab_lock d l i ip nm :
  tab None d l -> l !! i = Some ip -> i_ref ip <> 0 -> 0 <= d i -> tab (Some i) d (<[i := locked_slot sb v nm ip]> l).
Proof.
  intros Ht Hi Hr Hd. destruct (tb_slot _ _ _ _ _ _ _ Ht _ _ Hi) as [|[ [S1 S2 S3] S4] ]; [done|].
  eapply (tab_ins None (Some i) d d 0); [exact Ht|exact Hi|done|done| |cbn; lia|done|done|intros k; case_decide; lia].
  right. split; [|done]. split; [done|done|by right].
Qed.

Lemma tab_unlock d d' x l i n ip nm :
  tab (Some i) d l -> l !! i = Some ip -> held_slot n ip -> 0 <= x <= d i -> d i <= 2 -> L n ->
  (forall k, d' k = d k - if decide (k = i) then x else 0) -> tab None d' (<[i := set_iref (i_ref ip - x) (set_ilock (sl_free nm) ip)]> l).
Proof.
  intros Ht Hi [_ (E1 & E2 & E3) E4] Hx Hd HL Hd'. pose proof (tab_ref _ _ _ _ _ Ht Hi ltac:(lia)) as Hr.
  eapply (tab_ins (Some i) None d d' (- x)); [exact Ht|exact Hi|by eexists|congruence| |done|done|lia|].
  - destruct (decide (i_ref ip - x = 0)) as [E|E]; [by left|right]. cbn. rewrite E2. split; [|done]. split; cbn; [done|lia|right]. by rewrite E2.
  - intros k. rewrite Hd'. case_decide; lia.
Qed.
End Table.

(** ** namex *)

(** Where the walk has come to: the inode it leads to, one more reference to
    its slot, and the rest as it was. *)
Record arrived s v (L : Z -> Prop) (goal r : option Z) s' : Prop := {
  ar_same : f_sb s' = f_sb s /\ it_lock s' = it_lock s;
  ar_disk : R (ft s') v;
  ar_tab : tab (f_sb s) v L (inodes s) None (extra r) (inodes s');
  ar_goal : match goal, r with
            | Some n, Some j => exists ip, inodes s' !! Z.to_nat j = Some ip /\ i_dev ip = dv /\ i_inum ip = n
            | None, None => True
            | _, _ => False
            end
}.

Section Walk.
Context (s : F) (v : tview) (L : Z -> Prop).
Notation sb := (f_sb s).
Context (HR : R (ft s) v) (Hl : layout_ok D sb v) (Hrest : at_rest v) (Hheld : theld v = ∅) (Hlk : lock_free (it_lock s)).
Context (HL : forall n, L n -> live sb v L n) (Hst : start_ok sb v L (inodes s)).

(** The state in which slot [i] is locked. *)
Record locked_at (i n : Z) (d : nat -> Z) s1 : Prop := {
  la_same : f_sb s1 = sb /\ it_lock s1 = it_lock s;
  la_disk : R (ft s1) v;
  la_tab : tab sb v L (inodes s) (Some (Z.to_nat i)) d (inodes s1);
  la_slot : exists ip, inodes s1 !! Z.to_nat i = Some ip /\ held_slot sb v n ip;
  la_live : L n
}.

Lemma extra_at i : extra (Some i) (Z.to_nat i) = 1.
Proof. unfold extra. by rewrite decide_True. Qed.

Lemma arrived_live n i s1 : arrived s v L (Some n) (Some i) s1 -> L n.
Proof.
  intros [_ _ At (ip & Hip & _ & <-)]. pose proof (extra_at i) as Ex. pose proof (tab_ref _ _ _ _ Hst _ _ _ _ _ At Hip ltac:(lia)) as Hr.
  destruct (tb_slot _ _ _ _ _ _ _ At _ _ Hip) as [R0|[_ ?] ]; [lia|done].
Qed.

Lemma wp_lock_at n i s1 (Q : unit -> F -> Prop) :
  arrived s v L (Some n) (Some i) s1 -> (forall s2, locked_at i n (extra (Some i)) s2 -> Q tt s2) -> wp (ilock me pid i) s1 Q.
Proof.
  intros Har HQ. pose proof (HL _ (arrived_live _ _ _ Har)) as [V1 V2 V3 _]. pose proof (arrived_live _ _ _ Har) as HLn. destruct Har as [ [A1 A2] A3 At (ip & Hip & Hdv & Hn)].
  pose proof (extra_at i) as Ex. pose proof (tab_ref _ _ _ _ Hst _ _ _ _ _ At Hip ltac:(lia)) as Hr.
  destruct (tb_slot _ _ _ _ _ _ _ At _ _ Hip) as [|[Hs _] ]; [lia|]. destruct (tb_lock _ _ _ _ _ _ _ At _ _ Hip) as [nm Hnm]; [done|]. rewrite <-Hn in V1, V2.
  eapply (wp_ilock s1 v i ip nm); rewrite ?A1; try done. intros t Ht. apply HQ. split; [done|done| | |done].
  - cbn. apply tab_lock; [exact Hst|exact At|done|lia|lia].
  - eexists. split; [by eapply upd_lookup|]. split; cbn; [by eexists|done|by rewrite Hn].
Qed.

Lemma wp_drop_at n i d d' s1 (Q : unit -> F -> Prop) :
  locked_at i n d s1 -> 1 <= d (Z.to_nat i) <= 2 -> (forall k, d' k = d k - extra (Some i) k) ->
  (forall ip' s2, f_sb s2 = sb /\ it_lock s2 = it_lock s -> R (ft s2) v -> inodes s2 = <[Z.to_nat i := ip']> (inodes s1) -> i_dev ip' = dv -> i_inum ip' = n ->
     tab sb v L (inodes s) None d' (inodes s2) -> Q tt s2) -> wp (iunlockput me pid i) s1 Q.
Proof.
  intros [ [A1 A2] A3 At (ip & Hip & Hs) HLn] Hd Hd' HQ. pose proof Hs as [ [nm Hnm] (E1 & E2 & E3) E4]. pose proof (lv_links _ _ _ _ (HL _ HLn)) as Hlinks.
  pose proof (tab_ref _ _ _ _ Hst _ _ _ _ _ At Hip ltac:(lia)) as Hr.
  eapply wp_iunlockput; [by rewrite A2|exact Hip|exact Hnm|lia|unfold i_nlink; by rewrite E4|].
  eapply HQ; [done|done|reflexivity|done|done|]. eapply (tab_unlock _ _ _ _ Hst d d' 1); [exact At|exact Hip|exact Hs|lia|lia|done|].
  intros k. rewrite Hd'. unfold extra. cbn. repeat case_decide; congruence.
Qed.

Lemma inode_ok_di b v1 ip ip' : i_di ip' = i_di ip -> inode_ok D b v1 ip -> inode_ok D b v1 ip'.
Proof. intros E [ [F1 F2 F3 F4] K2 K3]. destruct ip, ip'. cbn in E. subst. split; [split; [exact F1|exact F2|exact F3|exact F4]|exact K2|exact K3]. Qed.

Lemma held_dir n i s1 : di_type (dnode sb v n) = T_DIR -> locked_at i n (extra (Some i)) s1 ->
  exists ip m, dir_at dv R D s1 v i ip m /\ i_di ip = dnode sb v n /\ i_size (node sb v n) = SZ * m /\
    forall k, 0 <= k < m -> de_inum (entry v (node sb v n) k) <> 0 -> L (de_inum (entry v (node sb v n) k)).
Proof.
  intros Hty [ [A1 A2] A3 At (ip & Hip & [_ (E1 & E2 & E3) E4]) HLn]. destruct (lv_dir _ _ _ _ (HL _ HLn) Hty) as (Hik & m & Hm & Hent).
  exists ip, m. split_and!; [|done|done|done].
  assert (Edi : i_di ip = i_di (node sb v n)) by done.
  split; [done|by rewrite A1|rewrite A1; by apply (inode_ok_di sb v (node sb v n))|done|done|done|unfold i_type; by rewrite Edi|unfold i_size; by rewrite Edi].
Qed.

Lemma wp_look_at n i nm s1 (Q : option (Z * Z) -> F -> Prop) :
  locked_at i n (extra (Some i)) s1 -> di_type (dnode sb v n) = T_DIR ->
  (forall s2, locked_at i n (extra (Some i)) s2 -> dir_find sb v n (name_of 14 nm) = None -> Q None s2) ->
  (forall j off m s2 ipj, locked_at i n (fun k => extra (Some i) k + extra (Some j) k) s2 -> dir_find sb v n (name_of 14 nm) = Some m ->
     inodes s2 !! Z.to_nat j = Some ipj -> i_dev ipj = dv -> i_inum ipj = m -> Q (Some (j, off)) s2) ->
  wp (dirlookup me de_addr kload i nm) s1 Q.
Proof.
  intros Hla Hty Hnone Hsome. destruct (held_dir n i s1 Hty Hla) as (ip & m & Hdir & Edi & Hm & Hent). pose proof Hla as [ [A1 A2] A3 At (ip_ & Hip_ & Hs) HLn].
  assert (Een : forall k, entry v ip k = entry v (node sb v n) k) by (intros k; by apply entry_di).
  pose proof (da_slot _ _ _ _ _ _ _ _ Hdir) as Hip. assert (ip_ = ip) as -> by congruence.
  eapply (wp_dirlookup dv R D me de_addr kload s1 v i ip m nm); [exact Hdir|by rewrite A2|intros; by eapply tab_room|].
  intros r s2 Hlo. destruct Hlo as [t u Ht Hno|t u k j ip' Ht Hk He Hno Hg].
  - apply Hnone; [split; try done; by exists ip|]. eapply dir_find_none; [exact Hm|]. intros k Hk. rewrite <-Een. by apply Hno.
  - rewrite Een in *. assert (HLm : L (de_inum (entry v (node sb v n) k))) by (apply Hent; [lia|apply He]).
    destruct (tab_iget _ _ _ _ Hst _ _ _ _ _ _ At Hg HLm (extra_range _)) as (Ht2 & G1 & G2). pose proof Hg as [Hj _ (ip0 & Hip0 & Hor)].
    eapply Hsome; [|apply (dir_find_some _ _ _ m _ k); [exact Hm|lia|done|intros k' Hk'; rewrite <-Een; by apply Hno]|cbn; apply list_lookup_insert_eq; by eapply lookup_lt_Some|done|done].
    split; [done|done|exact Ht2| |done]. cbn. destruct (decide (Z.to_nat j = Z.to_nat i)) as [E|E]; [|exists ip; by rewrite list_lookup_insert_ne].
    exists ip'. rewrite E, list_lookup_insert_eq by (by eapply lookup_lt_Some). split; [done|]. rewrite E in Hip0. assert (ip0 = ip) as -> by congruence.
    pose proof (extra_at i) as Ex. pose proof (tab_ref _ _ _ _ Hst _ _ _ _ _ At Hip ltac:(lia)) as Hr.
    destruct Hor as [ [_ ->]|(_ & R0 & _)]; [|lia]. by destruct Hs.
Qed.

(** Dropping the only reference that was taken. *)
Lemma wp_drop_all n i s1 (Q : unit -> F -> Prop) :
  locked_at i n (extra (Some i)) s1 -> (forall s2, arrived s v L None None s2 -> Q tt s2) -> wp (iunlockput me pid i) s1 Q.
Proof.
  intros Hla HQ. eapply (wp_drop_at n i _ (extra None)); [exact Hla|rewrite extra_at; lia| |].
  - intros k. unfold extra at 1. rewrite decide_False by done. lia.
  - intros ip' s2 Hs2 Hd _ _ _ Ht. by apply HQ.
Qed.

(** Going on to the inode that was found. *)
Lemma wp_drop_next n i j m ipj s1 (Q : unit -> F -> Prop) :
  locked_at i n (fun k => extra (Some i) k + extra (Some j) k) s1 -> inodes s1 !! Z.to_nat j = Some ipj -> i_dev ipj = dv -> i_inum ipj = m ->
  (forall s2, arrived s v L (Some m) (Some j) s2 -> Q tt s2) -> wp (iunlockput me pid i) s1 Q.
Proof.
  intros Hla Hj Hdv Hm HQ. pose proof (extra_at i). pose proof (extra_range (Some j) (Z.to_nat i)).
  eapply (wp_drop_at n i _ (extra (Some j))); [exact Hla|cbn beta; lia|intros k; cbn beta; lia|].
  intros ip' s2 Hs2 Hd Hin Hdv' Hn Ht. apply HQ. split; [done|done|done|]. rewrite Hin. destruct (decide (Z.to_nat i = Z.to_nat j)) as [E|E].
  - exists ip'. rewrite E, list_lookup_insert_eq by (by eapply lookup_lt_Some). split_and!; try done.
    destruct Hla as [_ _ _ (ip & Hip & [_ (_ & Hn' & _) _]) _]. rewrite E in Hip. congruence.
  - exists ipj. by rewrite list_lookup_insert_ne.
Qed.

(** Keeping the reference. *)
Lemma wp_keep n i s1 (Q : unit -> F -> Prop) :
  locked_at i n (extra (Some i)) s1 -> (forall s2, arrived s v L (Some n) (Some i) s2 -> Q tt s2) -> wp (iunlock me pid i) s1 Q.
Proof.
  intros [As A3 At (ip & Hip & Hs) HLn] HQ. pose proof Hs as [ [nm Hnm] (E1 & E2 & E3) E4]. pose proof (extra_at i) as Ex.
  pose proof (tab_ref _ _ _ _ Hst _ _ _ _ _ At Hip ltac:(lia)) as Hr. eapply wp_iunlock; [exact Hip|exact Hnm|lia|]. apply HQ. split; [done|done| |].
  - pose proof (tab_unlock _ _ _ _ Hst _ (extra (Some i)) 0 _ _ n _ nm At Hip Hs ltac:(lia) ltac:(lia) HLn) as Hu. rewrite Z.sub_0_r in Hu.
    apply Hu. intros k. case_decide; lia.
  - eexists. split; [by eapply upd_lookup|done].
Qed.

Lemma wp_put_back n i s1 (Q : unit -> F -> Prop) :
  arrived s v L (Some n) (Some i) s1 -> (forall s2, arrived s v L None None s2 -> Q tt s2) -> wp (iput me pid i) s1 Q.
Proof.
  intros Har HQ. pose proof (lv_links _ _ _ _ (HL _ (arrived_live _ _ _ Har))) as Hlinks. destruct Har as [ [A1 A2] A3 At (ip & Hip & Hdv & Hn)].
  pose proof (extra_at i) as Ex. pose proof (tab_ref _ _ _ _ Hst _ _ _ _ _ At Hip ltac:(lia)) as Hr.
  destruct (tb_slot _ _ _ _ _ _ _ At _ _ Hip) as [|[ [S1 S2 S3] S4] ]; [lia|].
  eapply wp_iput; [by rewrite A2|exact Hip|lia|destruct S3 as [|[_ E]]; [by left|right; unfold i_nlink; by rewrite E, Hn]|].
  apply HQ. split; [done|done| |done]. eapply (tab_ins _ _ _ _ Hst None None _ (extra None) (- (1))); [exact At|exact Hip| |done| |done|done|lia|].
  - intros _. by apply (tb_lock _ _ _ _ _ _ _ At _ _ Hip).
  - cbn. destruct (decide (i_ref ip - 1 = 0)); [by left|right]. split; [|done]. split; [done|cbn; lia|done].
  - intros k. unfold extra. cbn. repeat case_decide; try lia; congruence.
Qed.

Lemma wp_namex_body parent i path name n s1 (Q : Z * list Z * list Z + option (Z * list Z) -> F -> Prop) :
  arrived s v L (Some n) (Some i) s1 -> Forall (fun c => c <> 0) path -> length name = 14%nat ->
  (forall (r : option (Z * list Z)) s2, arrived s v L (walk parent sb v n (elems path)) (fst <$> r) s2 ->
     (parent = true -> forall (j : Z) nm, r = Some (j, nm) -> list.last (elems path) = Some (name_of 14 nm)) -> Q (inr r) s2) ->
  (forall j rest name' m s2, arrived s v L (Some m) (Some j) s2 -> Forall (fun c => c <> 0) rest -> length name' = 14%nat -> (length rest < length path)%nat ->
     walk parent sb v m (elems rest) = walk parent sb v n (elems path) -> (parent = true -> list.last (elems rest) = list.last (elems path)) -> Q (inl (j, rest, name')) s2) ->
  wp (namex_body me pid de_addr kload parent (i, path, name)) s1 Q.
Proof.
  intros Har Hnz Hlen Hend Hgo. unfold namex_body. pose proof (skipelem_spec path name Hnz Hlen) as Hsk. destruct (skipelem path name) as [ [rest name']|].
  - destruct Hsk as (e & Ee & Hname & Hlen' & Hrz & Hshort & Hrest'). rewrite Ee in *. cbn [walk] in *.
    apply wp_bind. eapply wp_lock_at; [exact Har|]. intros s2 Hla. pose proof Hla as [_ _ _ (ip & Hip & [_ _ Edi]) _].
    apply wp_bind. eapply (wp_geti i s2 ip); [exact Hip|]. unfold i_type. rewrite Edi. destruct (Z.eqb_spec (di_type (dnode sb v n)) T_DIR) as [Hty|Hty]; cbn [negb] in *.
    2: { apply wp_bind. eapply wp_drop_all; [exact Hla|]. intros s3 H3. wp_step. by apply Hend. }
    assert (Eb : negb (existsb (fun _ => true) (elems rest)) = match rest with [] => true | _ => false end).
    { destruct rest as [|c rest]; [done|]. destruct (elems (c :: rest)); [by discriminate Hrest'|done]. }
    rewrite Eb in *. destruct (parent && match rest with [] => true | _ => false end) eqn:Ep.
    + apply andb_true_iff in Ep as [-> Ep]. destruct rest; [|done]. apply wp_bind. eapply wp_keep; [exact Hla|]. intros s3 H3. wp_step. apply Hend; [done|]. intros _ j nm [= <- <-]. by rewrite Hname.
    + apply wp_bind. eapply wp_look_at; [exact Hla|exact Hty| |]; rewrite Hname.
      * intros s3 H3 Hf. rewrite Hf in *. apply wp_bind. eapply wp_drop_all; [exact H3|]. intros s4 H4. wp_step. by apply Hend.
      * intros j off m s3 ipj H3 Hf Hj Hdj Hm. rewrite Hf in *. apply wp_bind. eapply wp_drop_next; [exact H3|exact Hj|exact Hdj|exact Hm|]. intros s4 H4. wp_step.
        eapply Hgo; try done. intros ->. destruct rest as [|c rest]; [done|]. destruct (elems (c :: rest)); [by discriminate Hrest'|done].
  - rewrite Hsk in *. cbn [walk] in *. destruct parent.
    + apply wp_bind. eapply wp_put_back; [exact Har|]. intros s2 H2. wp_step. by apply Hend.
    + wp_step. by apply Hend.
Qed.

(** Where a path starts: the root, or the working directory. *)
Definition starts (cwd : Z) (path : list Z) (n : Z) : Prop :=
  if hd 0 path =? SLASH then dv = ROOTDEV /\ L ROOTINO /\ n = ROOTINO
  else exists ip, inodes s !! Z.to_nat cwd = Some ip /\ i_ref ip <> 0 /\ i_inum ip = n.

Lemma wp_start cwd path n (Q : Z -> F -> Prop) :
  starts cwd path n -> (forall i s1, arrived s v L (Some n) (Some i) s1 -> Q i s1) ->
  wp (if hd 0 path =? SLASH then iget me ROOTDEV ROOTINO else idup me cwd) s Q.
Proof.
  unfold starts. pose proof (st_tab _ _ _ _ Hst) as At. intros Hs HQ. destruct (hd 0 path =? SLASH).
  - destruct Hs as (Edv & HLr & ->). apply wp_iget; [done|rewrite <-Edv; by eapply tab_room|]. rewrite <-Edv. intros j ip' Hg. pose proof Hg as [_ _ (ip & Hip & _)].
    destruct (tab_iget _ _ _ _ Hst _ _ _ _ _ _ At Hg HLr (extra_range _)) as (Ht & G1 & G2). apply HQ. split; [done|done|exact Ht|].
    exists ip'. split; [by eapply upd_lookup|done].
  - destruct Hs as (ip & Hip & Hr & Hn). pose proof (st_refs _ _ _ _ Hst _ _ Hip) as Hr'. destruct (tb_slot _ _ _ _ _ _ _ At _ _ Hip) as [|[ [S1 S2 S3] S4] ]; [done|].
    eapply wp_idup; [done|exact Hip|lia|]. apply HQ. split; [done|done| |].
    + eapply (tab_ins _ _ _ _ Hst None None _ (extra (Some cwd)) 1); [exact At|exact Hip| |done| |done|done|done|].
      * intros _. by apply (tb_lock _ _ _ _ _ _ _ At _ _ Hip).
      * right. split; [|done]. split; [done|cbn; lia|done].
      * intros k. unfold extra. cbn. repeat case_decide; try lia; congruence.
    + eexists. split; [by eapply upd_lookup|done].
Qed.

Lemma wp_namex cwd path parent name n (Q : option (Z * list Z) -> F -> Prop) :
  starts cwd path n -> Forall (fun c => c <> 0) path -> length name = 14%nat ->
  (forall r s2, arrived s v L (walk parent sb v n (elems path)) (fst <$> r) s2 ->
     (parent = true -> forall (j : Z) nm, r = Some (j, nm) -> list.last (elems path) = Some (name_of 14 nm)) -> Q r s2) ->
  wp (namex me pid de_addr kload cwd path parent name) s Q.
Proof.
  intros Hs Hnz Hlen HQ. unfold namex. apply wp_bind. eapply wp_start; [exact Hs|]. intros i s1 Har.
  apply (wp_loop (fun '(i, p, nm) s1 => exists m, arrived s v L (Some m) (Some i) s1 /\ Forall (fun c => c <> 0) p /\ length nm = 14%nat /\
      walk parent sb v m (elems p) = walk parent sb v n (elems path) /\ (parent = true -> list.last (elems p) = list.last (elems path)))
      (fun '(_, p, _) => length p)); [|by exists n|lia].
  intros [ [j p] nm] s2 (m & Hm & Hp & Hnm & Hw & Hlast). eapply wp_namex_body; [exact Hm|done|done| |].
  - intros r s3 H3 Hl3. apply HQ; [by rewrite <-Hw|]. intros Hpar. rewrite <-Hlast by done. by apply Hl3.
  - intros j' rest name' m' s3 H3 Hrz Hln Hlt Hw3 Hlast3. split; [|done]. exists m'. split_and!; try done; [congruence|]. intros Hpar. by rewrite Hlast3, Hlast.
Qed.

(** C9: path names are resolved as they are written.  The elements between the
    slashes, cut to 14 characters, are looked up one after the other in the
    directories on disk, from the root when the path starts with a slash and
    from the working directory otherwise.  namei() returns a slot of the table
    that holds the inode they lead to, and nameiparent() the directory of the
    last element together with that element; when an element is missing or is
    looked up in something that is not a directory they return 0.  In every
    case the disk is as it was, no inode stays locked, and no reference is
    lost or left over: only the slot that is returned has one more. *)
Theorem namei_resolves cwd path name n :
  starts cwd path n -> Forall (fun c => c <> 0) path -> length name = 14%nat ->
  wp (namei me pid de_addr kload cwd path) s (arrived s v L (walk false sb v n (elems path))) /\
  wp (nameiparent me pid de_addr kload cwd path name) s (fun r s' => arrived s v L (walk true sb v n (elems path)) (fst <$> r) s' /\
    forall (j : Z) nm, r = Some (j, nm) -> list.last (elems path) = Some (name_of 14 nm)).
Proof.
  intros Hs Hnz Hlen. split.
  - unfold namei. apply wp_bind. eapply wp_namex; [exact Hs|done|by rewrite length_replicate|]. intros r s2 H2 _. by wp_step.
  - eapply wp_namex; [exact Hs|done|done|]. intros r s2 H2 Hlast. split; [done|by apply Hlast].
Qed.
End Walk.
End Path.
