(* ===== verification/FsDemo.v ===== *)
(** * The file-system theorems on a small disk

    A ramdisk of 30 blocks: block 3 holds the inodes, block 4 the bitmap, the
    data starts at block 5 and block 5 is in use.  Witnesses that the
    hypotheses of the theorems of FsAlloc.v and the files after it can hold. *)

From S2P Require Import Prelude Spinlock Riscv Mem BufCache Log UserIO BlockStore Fs FsAlloc FsBmap FsData FsDir FsPath.

Module SmallDisk.

Definition sb : superblock := mkSuper FSMAGIC 30 25 16 1 2 3 4.
Definition bitmap : list Z := 63 :: replicate 1023 0.
Definition disk (room : nat) : ramdisk := mkRam {[4 := bitmap]} ∅ room.
Definition state (r : ramdisk) (inos : list inode) : fstate ramdisk flat :=
  mkF sb (initlock "itable") inos r (mkFlat 4096 ∅).
Definition view_of (r : ramdisk) : tview := mkTview (rd_block r) ∅ ∅ (rd_room r).

Lemma disk_ok room : ram_ok (disk room) (view_of (disk room)).
Proof.
  assert (Hb : forall b, rd_block (disk room) b = if decide (b = 4) then bitmap else zero_block).
  { intros b. unfold rd_block, disk. cbn [rd_blocks]. case_decide as E; [by subst|]. by rewrite lookup_singleton_ne. }
  split; intros; cbn [tcontents view_of theld troom rd_held disk rd_room]; rewrite ?Hb; try done; try (case_decide; done).
  - case_decide; [|by apply Forall_replicate]. constructor; [done|by apply Forall_replicate].
  - rewrite lookup_empty. split; [done|]. intros [? _]. set_solver.
Qed.

Lemma small_bblock b : 0 <= b < 30 -> BBLOCK b sb = 4.
Proof. intros Hb. unfold BBLOCK. rewrite Z.div_small; [done|]. change BPB with 8192. lia. Qed.

Lemma sb_fine : sb_ok sb.
Proof. split; [done|done|]. intros b Hb. by rewrite small_bblock. Qed.

Lemma small_bitmap room : bitmap_ok sb (view_of (disk room)).
Proof. split; [by vm_compute|]. intros b Hb. rewrite small_bblock by done. by vm_compute. Qed.

Lemma small_unheld room : unheld sb (view_of (disk room)).
Proof. split; [by apply spare_empty|]. intros b _ _. apply lookup_empty. Qed.

Lemma balloc_bfree_exact_witness :
  (exists s', balloc 1 (state (disk 9) []) = Ok 6 s') /\
  wp (balloc 1) (state (disk 9) []) (fun b s1 => exists v1, ram_ok (ft s1) v1 /\ s1 = with_ft (ft s1) (state (disk 9) []) /\
    ((b = 0 /\ v1 = view_of (disk 9) /\ forall k, 0 <= k < 30 -> used sb (view_of (disk 9)) k = true) \/
     (0 < b < 30 /\ used sb (view_of (disk 9)) b = false /\ (forall k, 0 <= k < b -> used sb (view_of (disk 9)) k = true) /\
      tcontents v1 b = zero_block /\
      (forall k, 0 <= k < 30 -> used sb v1 k = if decide (k = b) then true else used sb (view_of (disk 9)) k) /\
      (forall k, k <> b -> k <> BBLOCK b sb -> tcontents v1 k = tcontents (view_of (disk 9)) k) /\
      wp (bfree 1 b) s1 (fun _ s2 => exists v2, ram_ok (ft s2) v2 /\
        (forall k, 0 <= k < 30 -> used sb v2 k = used sb (view_of (disk 9)) k) /\
        bfree 1 b s2 = Panic "freeing free block")))).
Proof.
  split; [eexists; vm_compute; reflexivity|].
  apply (balloc_bfree_exact 1 ram_ok (state (disk 9) []) (view_of (disk 9))).
  - apply disk_ok.
  - reflexivity.
  - cbn. lia.
  - apply sb_fine.
  - apply small_bitmap.
  - apply small_unheld.
Defined.

(** An empty file, inode 1, and the bytes [hi] at address 100 of the caller. *)
Definition empty_file : inode := mkInode 1 1 1 (initsleeplock "inode") 1 (mkDinode T_FILE 0 0 1 0 (replicate 13 0)).
Definition caller : flat := mkFlat 4096 (store_bytes ∅ 100 [104; 105]).
Definition file_state : fstate ramdisk flat := mkF sb (initlock "itable") [empty_file] (disk 40) caller.

Lemma small_layout room : layout_ok 5 sb (view_of (disk room)).
Proof.
  split; [apply sb_fine|done|intros b Hb; by rewrite small_bblock|]. intros b Hb. unfold used. rewrite small_bblock by lia.
  assert (b = 0 \/ b = 1 \/ b = 2 \/ b = 3 \/ b = 4) as [ -> | [ -> | [ -> | [ -> | -> ] ] ] ] by lia; by vm_compute.
Qed.

Lemma empty_daddr v k : 0 <= k < MAXFILE -> daddr v empty_file k = 0.
Proof.
  intros Hk. unfold daddr. destruct (k <? NDIRECT); [|done]. unfold empty_file, i_addrs. cbn [i_di di_addrs].
  destruct (decide (Z.to_nat k < 13)%nat); [by rewrite lookup_replicate_2|]. rewrite lookup_ge_None_2; [done|]. rewrite length_replicate. lia.
Qed.

Lemma empty_file_ok room : inode_ok 5 sb (view_of (disk room)) empty_file.
Proof.
  split; [|done|intros k Hk Hs; change (k * 1024 < 0) in Hs; lia]. split; [done|done| |].
  - intros k Hk Hne. by rewrite empty_daddr in Hne.
  - intros j k Hj Hk Hne. by rewrite empty_daddr in Hne.
Qed.

Lemma caller_sends : sends true 100 [104; 105] caller.
Proof.
  intros j m Hj Hm Hjm. cbn [length] in Hjm.
  assert (j = 0 /\ m = 1 \/ j = 0 /\ m = 2 \/ j = 1 /\ m = 1) as [ [ -> -> ] | [ [ -> -> ] | [ -> -> ] ] ] by lia; by vm_compute.
Qed.

Lemma write_then_read_witness :
  (exists s1, writei 0 true 100 0 2 file_state = Ok 2 s1) /\
  wp (writei 0 true 100 0 2) file_state (fun r s1 => exists v1 ip1,
    ram_ok (ft s1) v1 /\ s1 = upd 0 ip1 (ft s1) file_state /\ stored 5 sb (view_of (disk 40)) v1 empty_file ip1 0 r [104; 105] /\ 0 <= r <= 2 /\ (r < 2 -> no_free sb v1) /\
    forall ud dst got, 0 <= dst < 2 ^ 64 -> got [] (fu s1) -> accepts_upto got ud dst r ->
      wp (readi 0 ud dst 0 r) s1 (fun r' s2 => r' = r /\ got (take (Z.to_nat r) [104; 105]) (fu s2))).
Proof.
  split; [eexists; vm_compute; reflexivity|].
  apply (write_then_read 1 ram_ok 5 file_state (view_of (disk 40)) 0 empty_file true 100 0 [104; 105]).
  - apply disk_ok.
  - apply small_layout.
  - apply empty_file_ok.
  - reflexivity.
  - reflexivity.
  - split; vm_compute; intuition discriminate.
  - split; [done| |done]. intros k Hk. by rewrite small_bblock.
  - reflexivity.
  - reflexivity.
  - cbn; lia.
  - by vm_compute.
  - lia.
  - apply caller_sends.
  - by repeat constructor.
  - by vm_compute.
Defined.

(** ** A directory *)

(** The sixteen bytes of the variable [de], at address 4096. *)
Definition kvar : Type := list Z.
Definition var_bytes (u : kvar) : list Z := take 16 (u ++ replicate 16 0).
Definition var_load (a : Z) (n : nat) (u : kvar) : list Z := var_bytes u.
#[local] Instance kvar_io : UserIO kvar := {
  either_copyin _ a n u := Some (take (Z.to_nat n) (drop (Z.to_nat (a - 4096)) (var_bytes u)));
  partial_copyin _ _ _ _ := [];
  either_copyout _ a bs u := (true, splice (var_bytes u) (Z.to_nat (a - 4096)) bs)
}.

Lemma length_var u : length (var_bytes u) = 16%nat.
Proof. unfold var_bytes. rewrite length_take, length_app, length_replicate. lia. Qed.

#[local] Instance kvar_local : KLocal kvar 4096 var_load.
Proof.
  split; [lia|intros; apply length_var| |].
  - intros k c u Hk. eexists. split; [reflexivity|]. cbn. rewrite u64_small by lia. replace (Z.to_nat (4096 + Z.of_nat k - 4096)) with k by lia.
    unfold var_load. unfold var_bytes at 1. assert (length (splice (var_bytes u) k c) = 16%nat) by (rewrite length_splice; rewrite length_var; lia).
    rewrite take_app_le, take_ge by lia. done.
  - intros j m u Hj Hm Hjm. cbn. rewrite u64_small by lia. by replace (4096 + j - 4096) with j by lia.
Qed.

(** An empty directory in slot 0 of the table. *)
Definition empty_dir : inode := mkInode 1 1 1 (initsleeplock "inode") 1 (mkDinode T_DIR 0 0 1 0 (replicate 13 0)).
Definition dir_state : fstate ramdisk kvar := mkF sb (initlock "itable") (empty_dir :: replicate 49 zero_inode) (disk 40) [].

Lemma dir_daddr v k : 0 <= k < MAXFILE -> daddr v empty_dir k = 0.
Proof. apply empty_daddr. Qed.

Lemma empty_dir_at : dir_at 1 ram_ok 5 dir_state (view_of (disk 40)) 0 empty_dir 0.
Proof.
  split; try done; [apply disk_ok|apply small_layout|].
  split; [|done|intros k Hk Hs; change (k * 1024 < 0) in Hs; lia]. split; [done|done| |].
  - intros k Hk Hne. by rewrite dir_daddr in Hne.
  - intros j k Hj Hk Hne. by rewrite dir_daddr in Hne.
Qed.


(** ** A tree *)

(** The root directory, inode 1, has the entries [.] and [a]; [a] is a file,
    inode 2. *)
Definition root_di : dinode := mkDinode T_DIR 0 0 1 32 (5 :: replicate 12 0).
Definition file_di : dinode := mkDinode T_FILE 0 0 1 0 (replicate 13 0).
Definition inode_block : list Z := Eval vm_compute in put_dinode (put_dinode zero_block 64 root_di) 128 file_di.
Definition root_block : list Z := Eval vm_compute in splice zero_block 0 (new_entry [46] 1 ++ new_entry [97] 2).
Definition tree : ramdisk := mkRam (<[3 := inode_block]> (<[4 := bitmap]> {[5 := root_block]})) ∅ 40.
Definition tree_state : fstate ramdisk kvar := mkF sb (initlock "itable") (replicate 50 zero_inode) tree [].
Definition in_tree (n : Z) : Prop := n = 1 \/ n = 2.

Lemma tree_block b : rd_block tree b = if decide (b = 3) then inode_block else if decide (b = 4) then bitmap else if decide (b = 5) then root_block else zero_block.
Proof.
  unfold rd_block, tree. cbn [rd_blocks]. repeat case_decide; subst; try done. by rewrite !lookup_insert_ne, lookup_singleton_ne by congruence.
Qed.

Lemma all_bytes l : forallb (fun x => (0 <=? x) && (x <? 256)) l = true -> Forall is_byte l.
Proof. intros Hl. apply list.Forall_forall. intros x Hx. rewrite forallb_forall in Hl. specialize (Hl x). rewrite <-list_elem_of_In in Hl. specialize (Hl Hx). unfold is_byte. bool_simpl. lia. Qed.

Lemma tree_ok : ram_ok tree (view_of tree).
Proof.
  split; intros; cbn [tcontents view_of theld troom]; rewrite ?tree_block; try done.
  - by repeat case_decide.
  - repeat case_decide; apply all_bytes; by vm_compute.
  - rewrite lookup_empty. cbn. set_solver.
Qed.

Lemma tree_layout : layout_ok 5 sb (view_of tree).
Proof.
  split; [apply sb_fine|done|intros b Hb; by rewrite small_bblock|]. intros b Hb. unfold used. rewrite small_bblock by lia.
  assert (b = 0 \/ b = 1 \/ b = 2 \/ b = 3 \/ b = 4) as [ -> | [ -> | [ -> | [ -> | -> ] ] ] ] by lia; by vm_compute.
Qed.

Lemma root_node : dnode sb (view_of tree) 1 = root_di.
Proof. by vm_compute. Qed.
Lemma file_node : dnode sb (view_of tree) 2 = file_di.
Proof. by vm_compute. Qed.

Lemma root_daddr v k : 0 <= k < MAXFILE -> daddr v (node sb (view_of tree) 1) k = if decide (k = 0) then 5 else 0.
Proof.
  intros Hk. unfold daddr, ind_addr, i_addrs, node. cbn [i_di]. rewrite root_node. cbn [di_addrs root_di]. case_decide as E; [by subst|].
  destruct (k <? NDIRECT); [|done]. replace (Z.to_nat k) with (S (Z.to_nat (k - 1))) by lia. cbn [lookup list_lookup].
  destruct (replicate 12 0 !! Z.to_nat (k - 1)) as [x|] eqn:Ex; [|done]. by apply lookup_replicate_1 in Ex as [-> _].
Qed.

Lemma root_live : live 5 sb (view_of tree) in_tree 1.
Proof.
  split; [split; [done| |done]; intros k Hk; by rewrite small_bblock|by rewrite root_node|by rewrite root_node|]. intros _. split.
  - split; [|by vm_compute|intros k Hk Hs; assert (k = 0) as -> by (change (k * 1024 < 32) in Hs; lia); by vm_compute]. split; [by vm_compute|by vm_compute| |].
    + intros k Hk. rewrite root_daddr by done. case_decide; [|done]. intros _. split; [split; [done|by vm_compute]|by vm_compute].
    + intros j k Hj Hk. rewrite !root_daddr by done. repeat case_decide; congruence.
  - exists 2. split; [by vm_compute|]. intros k Hk _. assert (k = 0 \/ k = 1) as [ -> | -> ] by lia; [left|right]; by vm_compute.
Qed.

Lemma file_live : live 5 sb (view_of tree) in_tree 2.
Proof. split; [split; [done| |done]; intros k Hk; by rewrite small_bblock|by rewrite file_node|by rewrite file_node|]. by rewrite file_node. Qed.

Lemma tree_start : start_ok 1 sb (view_of tree) in_tree (inodes tree_state).
Proof.
  assert (Hz : forall k ip, inodes tree_state !! k = Some ip -> ip = zero_inode) by (intros k ip Hk; by apply lookup_replicate_1 in Hk as [-> _]).
  split; [split| |].
  - done.
  - intros k ip Hk _. rewrite (Hz _ _ Hk). by exists "inode"%string.
  - intros k ip Hk. rewrite (Hz _ _ Hk). by left.
  - intros k ip Hk. exists ip. split; [done|]. rewrite (Hz _ _ Hk). split; [done|by cbn].
  - intros k ip Hk. rewrite (Hz _ _ Hk). cbn. lia.
  - exists 0%nat, 1%nat, zero_inode, zero_inode. done.
Qed.

(** The path [/./a/]. *)
Definition dot_a : list Z := [47; 46; 47; 97; 47].

Lemma namei_resolves_witness :
  walk false sb (view_of tree) 1 (elems dot_a) = Some 2 /\
  wp (namei 0 1 4096 var_load 0 dot_a) tree_state (arrived 1 ram_ok tree_state (view_of tree) in_tree (walk false sb (view_of tree) 1 (elems dot_a))) /\
  wp (nameiparent 0 1 4096 var_load 0 dot_a (replicate 14 0)) tree_state (fun r s' =>
    arrived 1 ram_ok tree_state (view_of tree) in_tree (walk true sb (view_of tree) 1 (elems dot_a)) (fst <$> r) s' /\
    forall (j : Z) nm, r = Some (j, nm) -> list.last (elems dot_a) = Some (name_of 14 nm)).
Proof.
  split; [by vm_compute|].
  apply (namei_resolves 1 ram_ok 5 0 1 4096 var_load tree_state (view_of tree) in_tree) with (n := 1).
  - apply tree_ok.
  - apply tree_layout.
  - done.
  - done.
  - by split.
  - intros n [ -> | -> ]; [apply root_live|apply file_live].
  - apply tree_start.
  - split; [done|]. split; [by left|done].
  - by repeat constructor.
  - done.
Defined.

End SmallDisk.
