(* ===== verification/Mkfs.v ===== *)
(** * The tool that builds the disk image (mkfs/mkfs.c)

    mkfs runs on the host and writes the file system that the kernel boots
    with.  The image is the list of its sectors; [io_error] tells on which
    sectors the host fails to seek, read or write, where mkfs gives up.  A
    failed assertion and a call of die() are panics.  A file to be added is its
    argument and the pieces in which read() delivers it; None when it cannot be
    opened.  The messages on standard output are left out. *)

From S2P Require Import Prelude Spinlock Riscv Mem BufCache Log UserIO BlockStore Fs.

Definition NINODES : Z := 200.

Definition nbitmap : Z := FSSIZE / (BSIZE * 8) + 1.
Definition ninodeblocks : Z := NINODES / IPB + 1.
Definition nlog : Z := LOGSIZE.
Definition nmeta : Z := 2 + nlog + ninodeblocks + nbitmap.
Definition nblocks : Z := FSSIZE - nmeta.

(** The variables of mkfs and the image. *)
Record mkfs := mkMkfs { fs_img : list (list Z); freeinode : Z; freeblock : Z; fs_sb : superblock }.
Definition set_img x s := mkMkfs x (freeinode s) (freeblock s) (fs_sb s).
Definition set_freeinode x s := mkMkfs (fs_img s) x (freeblock s) (fs_sb s).
Definition set_freeblock x s := mkMkfs (fs_img s) (freeinode s) x (fs_sb s).
Definition set_fs_sb x s := mkMkfs (fs_img s) (freeinode s) (freeblock s) x.

(** The bytes of a number in RISC-V order, read back on a little-endian host. *)
Definition xshort (x : Z) : Z := le_val (le_bytes 2 x).
Definition xint (x : Z) : Z := le_val (le_bytes 4 x).

Definition super_bytes (sb : superblock) : list Z :=
  concat (map (le_bytes 4) [sb_magic sb; sb_size sb; sb_nblocks sb; sb_ninodes sb; sb_nlog sb; sb_logstart sb; sb_inodestart sb; sb_bmapstart sb]).

(** struct dirent; strncpy() fills the name up with zeros. *)
Definition dirent_bytes (inum : Z) (name : list Z) : list Z :=
  le_bytes 2 inum ++ take (Z.to_nat DIRSIZ) (name ++ replicate (Z.to_nat DIRSIZ) 0).

Section Mkfs.
Variable io_error : Z -> bool.
Local Notation MK := (M mkfs).

(** Beyond the end of the file the host fills the gap with zeros. *)
Definition put_sector (sec : nat) (buf : list Z) (img : list (list Z)) : list (list Z) :=
  if decide (sec < length img)%nat then <[sec := buf]> img
  else img ++ replicate (sec - length img) zero_block ++ [buf].

Definition wsect (sec : Z) (buf : list Z) : MK unit :=
  if io_error sec then panic "write" else modify (fun s => set_img (put_sector (Z.to_nat sec) buf (fs_img s)) s).

Definition rsect (sec : Z) : MK (list Z) :=
  let! img := gets fs_img in
  match img !! Z.to_nat sec with
  | Some buf => if io_error sec then panic "read" else ret buf
  | None => panic "read"
  end.

Definition winode (inum : Z) (ip : dinode) : MK unit :=
  let! sb := gets fs_sb in
  let bn := IBLOCK inum sb in
  let! buf := rsect bn in
  wsect bn (put_dinode buf (dinode_off inum) ip).

Definition rinode (inum : Z) : MK dinode :=
  let! sb := gets fs_sb in
  let bn := IBLOCK inum sb in
  let! buf := rsect bn in
  ret (get_dinode buf (dinode_off inum)).

Definition ialloc (type : Z) : MK Z :=
  let! inum := gets freeinode in
  modify (set_freeinode (u32 (inum + 1))) ;;
  let din := mkDinode (i16 (xshort type)) 0 0 (i16 (xshort 1)) (xint 0) (replicate 13 0) in
  winode inum din ;;
  ret inum.

(** freeblock++ *)
Definition next_block : MK Z :=
  let! b := gets freeblock in
  modify (set_freeblock (u32 (b + 1))) ;;
  ret b.

Definition set_addr (k a : Z) (din : dinode) : dinode :=
  mkDinode (di_type din) (di_major din) (di_minor din) (di_nlink din) (di_size din) (<[Z.to_nat k := a]> (di_addrs din)).
Definition set_size (n : Z) (din : dinode) : dinode :=
  mkDinode (di_type din) (di_major din) (di_minor din) (di_nlink din) n (di_addrs din).
Definition addr_of (k : Z) (din : dinode) : Z := default 0 (di_addrs din !! Z.to_nat k).

(** iappend(): the block [x] of the file that holds its block [fbn]. *)
Definition iappend_block (fbn : Z) (din : dinode) : MK (Z * dinode) :=
  if fbn <? NDIRECT then
    let! din :=
      (if xint (addr_of fbn din) =? 0 then let! b := next_block in ret (set_addr fbn (xint b) din) else ret din) in
    ret (xint (addr_of fbn din), din)
  else
    let! din :=
      (if xint (addr_of NDIRECT din) =? 0 then let! b := next_block in ret (set_addr NDIRECT (xint b) din) else ret din) in
    let! indirect := rsect (xint (addr_of NDIRECT din)) in
    let! indirect :=
      (if ind_get indirect (fbn - NDIRECT) =? 0 then
         let! b := next_block in
         let indirect := ind_put indirect (fbn - NDIRECT) (xint b) in
         wsect (xint (addr_of NDIRECT din)) indirect ;;
         ret indirect
       else ret indirect) in
    ret (xint (ind_get indirect (fbn - NDIRECT)), din).

(** One iteration: the bytes left, the offset and the inode. *)
Definition iappend_body (v : list Z * Z * dinode) : MK (list Z * Z * dinode + Z * dinode) :=
  let '(p, off, din) := v in
  let n := Z.of_nat (length p) in
  if 0 <? n then
    let fbn := off / BSIZE in
    if fbn <? MAXFILE then
      let! r := iappend_block fbn din in
      let '(x, din) := r in
      let n1 := Z.min n (u32 ((fbn + 1) * BSIZE - off)) in
      let! buf := rsect x in
      wsect x (splice buf (Z.to_nat (off - fbn * BSIZE)) (take (Z.to_nat n1) p)) ;;
      ret (inl (drop (Z.to_nat n1) p, u32 (off + n1), din))
    else panic "assertion failed: fbn < MAXFILE"
  else ret (inr (off, din)).

Definition iappend (inum : Z) (p : list Z) : MK unit :=
  let! din := rinode inum in
  let off := xint (di_size din) in
  let! r := loop (length p + 1) iappend_body (p, off, din) in
  let '(off, din) := r in
  winode inum (set_size (xint off) din).

(** The bits of the first [used] blocks. *)
Definition set_bits (used : Z) : list Z :=
  foldl (fun buf i => <[Z.to_nat (i / 8) := u8 (Z.lor (default 0 (buf !! Z.to_nat (i / 8))) (Z.shiftl 1 (i mod 8)))]> buf)
    zero_block (seqZ 0 used).

Definition balloc (used : Z) : MK unit :=
  if used <? BSIZE * 8 then
    let! sb := gets fs_sb in
    wsect (sb_bmapstart sb) (set_bits used)
  else panic "assertion failed: used < BSIZE*8".

(** ** main() *)

(** The characters of "user/". *)
Definition user_prefix : list Z := [117; 115; 101; 114; 47].

Definition shortname (arg : list Z) : list Z :=
  if decide (take 5 arg = user_prefix) then drop 5 arg else arg.
Definition skip_underscore (name : list Z) : list Z :=
  match name with c :: name' => if c =? 95 then name' else name | [] => name end.

(** One file of the command line. *)
Definition add_file (rootino : Z) (arg : list Z) (file : option (list (list Z))) : MK unit :=
  let name := shortname arg in
  if bool_decide (SLASH ∈ name) then panic "assertion failed: index(shortname, '/') == 0"
  else
    match file with
    | None => panic "open"
    | Some pieces =>
        let name := skip_underscore name in
        let! inum := ialloc T_FILE in
        iappend rootino (dirent_bytes (xshort inum) name) ;;
        foldr (fun piece rest => iappend inum piece ;; rest) (ret tt) pieces
    end.

Definition the_super : superblock :=
  mkSuper FSMAGIC (xint FSSIZE) (xint nblocks) (xint NINODES) (xint nlog) (xint 2) (xint (2 + nlog)) (xint (2 + nlog + ninodeblocks)).

(** main() after the image file was opened and cut to length 0. *)
Definition mkfs_main (files : list (list Z * option (list (list Z)))) : MK unit :=
  modify (set_fs_sb the_super) ;;
  modify (set_freeblock nmeta) ;;
  for_range (Z.to_nat FSSIZE) 0 (fun i => wsect i zero_block) ;;
  let! sb := gets fs_sb in
  wsect 1 (splice zero_block 0 (super_bytes sb)) ;;
  let! rootino := ialloc T_DIR in
  if negb (rootino =? ROOTINO) then panic "assertion failed: rootino == ROOTINO"
  else
    iappend rootino (dirent_bytes (xshort rootino) [46]) ;;
    iappend rootino (dirent_bytes (xshort rootino) [46; 46]) ;;
    foldr (fun f rest => add_file rootino (fst f) (snd f) ;; rest) (ret tt) files ;;
    let! din := rinode rootino in
    let off := xint (di_size din) in
    let off := u32 ((off / BSIZE + 1) * BSIZE) in
    winode rootino (set_size (xint off) din) ;;
    let! used := gets freeblock in
    balloc (i32 used).

End Mkfs.

(** The variables at the start. *)
Definition mkfs_start : mkfs := mkMkfs [] 1 0 (mkSuper 0 0 0 0 0 0 0 0).
