(* ===== verification/MkfsFacts.v ===== *)
(** * What mkfs builds

    [file_at] says that a dinode and the blocks it names hold a file; [core]
    that the files of an image share no block and that nothing else is
    written.  iappend() keeps this while it appends to one of the files.  The
    theorem is about the image in the terms of the kernel's theorems on files
    (FsBmap.v, FsData.v). *)

From S2P Require Import Prelude Spinlock Riscv Mem BufCache Log LogFacts UserIO BlockStore Fs FsAlloc FsBmap FsData Mkfs.

Implicit Types (img : list (list Z)) (di : dinode) (c bs : list Z) (s : mkfs).

(** ** Images *)

Definition blk_of img (b : Z) : list Z := default zero_block (img !! Z.to_nat b).
(** The image and an inode, as the kernel sees them. *)
Definition img_view img : tview := mkTview (blk_of img) ∅ ∅ 0.
Definition ino (di : dinode) : inode := mkInode 1 0 1 (initsleeplock "inode") 1 di.
Definition da img di (k : Z) : Z := daddr (img_view img) (ino di) k.
Definition ind di : Z := ind_addr (ino di).

Record img_ok img : Prop := {
  im_len : length img = Z.to_nat FSSIZE;
  im_blk : Forall (fun d => length d = Z.to_nat BSIZE /\ Forall is_byte d) img
}.

Lemma zero_block_ok : length zero_block = Z.to_nat BSIZE /\ Forall is_byte zero_block.
Proof. split; [apply length_replicate|]. apply Forall_replicate. done. Qed.

Lemma blk_ok img b : img_ok img -> length (blk_of img b) = Z.to_nat BSIZE /\ Forall is_byte (blk_of img b).
Proof.
  intros [_ H]. unfold blk_of. destruct (img !! Z.to_nat b) as [d|] eqn:E; cbn; [|apply zero_block_ok]. by eapply Forall_lookup_1 in H.
Qed.

Lemma sector_at img b : img_ok img -> 0 <= b < FSSIZE -> img !! Z.to_nat b = Some (blk_of img b).
Proof.
  intros [Hl _] Hb. unfold blk_of. destruct (lookup_lt_is_Some_2 img (Z.to_nat b)) as [d Hd]; [rewrite Hl; lia|]. by rewrite Hd.
Qed.

Lemma put_sector_in img b d : img_ok img -> 0 <= b < FSSIZE -> put_sector (Z.to_nat b) d img = <[Z.to_nat b := d]> img.
Proof. intros [Hl _] Hb. unfold put_sector. rewrite decide_True; [done|]. rewrite Hl. lia. Qed.

Lemma blk_put img b d x : img_ok img -> 0 <= b < FSSIZE -> 0 <= x -> blk_of (<[Z.to_nat b := d]> img) x = if decide (x = b) then d else blk_of img x.
Proof.
  intros [Hl _] Hb Hx. unfold blk_of. case_decide as E.
  - subst. rewrite list_lookup_insert_eq; [done|]. rewrite Hl. lia.
  - rewrite list_lookup_insert_ne by lia. done.
Qed.

Lemma img_put img b d : img_ok img -> length d = Z.to_nat BSIZE -> Forall is_byte d -> img_ok (<[Z.to_nat b := d]> img).
Proof. intros [Hl Hb] H1 H2. split; [by rewrite length_insert|]. by apply Forall_insert. Qed.

(** ** A file in an image *)

(** The file [di] has [nb] blocks between [nmeta] and [hi]; they hold [c], and
    zeros behind it. *)
Record file_at img (hi : Z) di (nb : Z) c : Prop := {
  fa_len : length (di_addrs di) = 13%nat;
  fa_nb : 0 <= nb <= MAXFILE;
  fa_in : forall k, 0 <= k < nb -> nmeta <= da img di k < hi;
  fa_out : forall k, nb <= k < MAXFILE -> da img di k = 0;
  fa_ind : if NDIRECT <? nb then nmeta <= ind di < hi else ind di = 0;
  fa_sep : forall k, 0 <= k < nb -> da img di k <> ind di;
  fa_inj : forall j k, 0 <= j < nb -> 0 <= k < nb -> da img di j = da img di k -> j = k;
  fa_size : Z.of_nat (length c) <= nb * BSIZE;
  fa_bytes : forall o, 0 <= o < nb * BSIZE -> fbyte (img_view img) (ino di) o = default 0 (c !! Z.to_nat o)
}.

Definition owns img di (nb b : Z) : Prop := (exists k, 0 <= k < nb /\ da img di k = b) \/ NDIRECT < nb /\ ind di = b.

(** How many blocks it uses. *)
Definition cost (nb : Z) : Z := nb + (if NDIRECT <? nb then 1 else 0).

Lemma da_ext img img' di k : (ind di <> 0 -> blk_of img' (ind di) = blk_of img (ind di)) -> da img' di k = da img di k.
Proof.
  intros H. unfold da, daddr, img_view. cbn [tcontents]. fold (ind di). destruct (k <? NDIRECT); [done|]. destruct (Z.eqb_spec (ind di) 0); [done|]. by rewrite H.
Qed.

Lemma owned_range img hi di nb c b : file_at img hi di nb c -> owns img di nb b -> nmeta <= b < hi.
Proof.
  intros Hf [(k & Hk & <-)|[Hn <-]]; [by apply (fa_in _ _ _ _ _ Hf)|]. pose proof (fa_ind _ _ _ _ _ Hf) as Hi. by rewrite (proj2 (Z.ltb_lt _ _)) in Hi by done.
Qed.

(** A file does not change when its blocks do not. *)
Lemma file_frame img img' hi hi' di nb c : file_at img hi di nb c -> hi <= hi' -> (forall b, owns img di nb b -> blk_of img' b = blk_of img b) ->
  file_at img' hi' di nb c /\ forall b, owns img' di nb b <-> owns img di nb b.
Proof.
  intros Hf Hh Hb. assert (Hda : forall k, da img' di k = da img di k).
  { intros k. apply da_ext. intros Hi. apply Hb. right. split; [|done]. pose proof (fa_ind _ _ _ _ _ Hf) as H2. destruct (Z.ltb_spec NDIRECT nb); [done|congruence]. }
  split; [|intros b; unfold owns; by setoid_rewrite Hda]. destruct Hf as [A B C D E F G I J]. split; try done.
  - intros k Hk. rewrite Hda. specialize (C k Hk). lia.
  - intros k Hk. rewrite Hda. auto.
  - destruct (NDIRECT <? nb); [lia|done].
  - intros k Hk. rewrite Hda. auto.
  - intros j k Hj Hk. rewrite !Hda. auto.
  - intros o Ho. rewrite <- J by done. unfold fbyte. fold (da img' di (o / BSIZE)) (da img di (o / BSIZE)). rewrite Hda. cbn [tcontents img_view]. rewrite Hb; [done|].
    left. exists (o / BSIZE). split; [|done]. by apply block_index.
Qed.

(** ** Growing a file *)

Definition next_to img di nb (lo hi b : Z) : Prop := owns img di nb b \/ lo <= b < hi.

Lemma da_direct img di k a j : length (di_addrs di) = 13%nat -> 0 <= k < NDIRECT -> 0 <= j -> da img (set_addr k a di) j = if decide (j = k) then a else da img di j.
Proof. intros Hl Hk Hj. exact (daddr_set_direct (img_view img) (ino di) k a j Hl Hk Hj). Qed.

Lemma ind_direct di k a : length (di_addrs di) = 13%nat -> 0 <= k <= NDIRECT -> ind (set_addr k a di) = if decide (k = NDIRECT) then a else ind di.
Proof. intros Hl Hk. exact (ind_set_addr (ino di) k a Hl Hk). Qed.

Lemma length_addr_set di k a : length (di_addrs (set_addr k a di)) = length (di_addrs di).
Proof. apply length_insert. Qed.

(** The bytes of the file stay when its first [nb] blocks do. *)
Lemma bytes_same img img' di di' hi nb c : file_at img hi di nb c -> (forall k, 0 <= k < nb -> da img' di' k = da img di k /\ blk_of img' (da img di k) = blk_of img (da img di k)) ->
  forall o, 0 <= o < nb * BSIZE -> fbyte (img_view img') (ino di') o = default 0 (c !! Z.to_nat o).
Proof.
  intros Hf Hk o Ho. rewrite <- (fa_bytes _ _ _ _ _ Hf) by done. unfold fbyte. fold (da img' di' (o / BSIZE)) (da img di (o / BSIZE)). cbn [tcontents img_view].
  destruct (block_index o nb) as [Hb _]; [done|]. destruct (Hk _ Hb) as [-> ->]. done.
Qed.

(** A block more, of zeros. *)
Lemma bytes_more img img' di di' hi nb c : file_at img hi di nb c -> (forall k, 0 <= k < nb -> da img' di' k = da img di k /\ blk_of img' (da img di k) = blk_of img (da img di k)) ->
  blk_of img' (da img' di' nb) = zero_block -> forall o, 0 <= o < (nb + 1) * BSIZE -> fbyte (img_view img') (ino di') o = default 0 (c !! Z.to_nat o).
Proof.
  intros Hf Hk Hz o Ho. destruct (Z.lt_ge_cases o (nb * BSIZE)) as [Hlt|Hge]; [eapply bytes_same; [exact Hf|exact Hk|lia]|].
  pose proof (fa_size _ _ _ _ _ Hf) as Hs. rewrite (lookup_ge_None_2 c) by lia. unfold fbyte. fold (da img' di' (o / BSIZE)). cbn [tcontents img_view].
  assert (E : o / BSIZE = nb) by (symmetry; apply (Z.div_unique _ _ _ (o - nb * BSIZE)); change BSIZE with 1024 in *; lia). rewrite E, Hz. unfold zero_block.
  destruct (lookup _ _) as [x|] eqn:Ex; [|done]. apply lookup_replicate in Ex as [-> _]. done.
Qed.

Lemma grow_direct img hi di nb c : file_at img hi di nb c -> nmeta <= hi -> nb < NDIRECT -> blk_of img hi = zero_block ->
  file_at img (hi + 1) (set_addr nb hi di) (nb + 1) c /\ da img (set_addr nb hi di) nb = hi /\
  forall b, owns img (set_addr nb hi di) (nb + 1) b -> next_to img di nb hi (hi + 1) b.
Proof.
  intros Hf Hh Hn Hz. pose proof Hf as [A B C D E F G I J]. assert (Hmax : NDIRECT < MAXFILE) by done.
  assert (Hda : forall k, 0 <= k -> da img (set_addr nb hi di) k = if decide (k = nb) then hi else da img di k) by (intros k Hk; apply da_direct; [done|lia|done]).
  assert (Hind : ind (set_addr nb hi di) = 0) by (rewrite (proj2 (Z.ltb_ge NDIRECT nb)) in E by lia; rewrite ind_direct, decide_False by (done || lia); exact E).
  assert (Hm : 0 < nmeta) by done. split; [|split; [by rewrite Hda, decide_True by lia|]].
  - split.
    + by rewrite length_addr_set.
    + lia.
    + intros k Hk. rewrite Hda by lia. case_decide; [lia|]. specialize (C k ltac:(lia)). lia.
    + intros k Hk. rewrite Hda, decide_False by lia. apply D. lia.
    + rewrite (proj2 (Z.ltb_ge NDIRECT (nb + 1))) by lia. done.
    + intros k Hk. rewrite Hda, Hind by lia. case_decide; [lia|]. specialize (C k ltac:(lia)). lia.
    + intros j k Hj Hk. rewrite !Hda by lia. repeat case_decide; try lia; [specialize (C k ltac:(lia)); lia|specialize (C j ltac:(lia)); lia|]. apply G; lia.
    + change BSIZE with 1024 in *. lia.
    + eapply bytes_more; [exact Hf| |by rewrite Hda, decide_True by lia]. intros k Hk. split; [|done]. rewrite Hda, decide_False by lia. done.
  - intros b [(k & Hk & <-)|[Hk _]]; [|lia]. rewrite Hda by lia. case_decide; [right; lia|]. left. left. exists k. split; [lia|done].
Qed.

(** A new entry [b] in the indirect block [a], which is new too if the file
    had none. *)
Section Indirect.
Context (img : list (list Z)) (hi : Z) (di : dinode) (nb : Z) (c : list Z) (di' : dinode) (a b hi' : Z).
Hypotheses (Him : img_ok img) (Hf : file_at img hi di nb c) (Hhi : nmeta <= hi) (Hnb : NDIRECT <= nb < MAXFILE).
Hypotheses (Ha : nmeta <= a < hi' /\ a < FSSIZE) (Hb : hi <= b < hi' /\ b < 2 ^ 32) (Hab : a <> b) (Hh' : hi <= hi').
Hypothesis (Hzero : blk_of img b = zero_block).
Hypotheses (Hold : a = ind di \/ hi <= a) (Hi' : ind di' = a) (Hl' : length (di_addrs di') = 13%nat).
Hypotheses (Hdir : forall k, 0 <= k < NDIRECT -> da img di' k = da img di k).
Hypotheses (Hent : forall k, NDIRECT <= k < MAXFILE -> ind_get (blk_of img a) (k - NDIRECT) = da img di k).
Let img' := <[Z.to_nat a := ind_put (blk_of img a) (nb - NDIRECT) b]> img.

Lemma gi_blk x : 0 <= x -> x <> a -> blk_of img' x = blk_of img x.
Proof. intros Hx Hne. unfold img'. rewrite blk_put, decide_False by (done || (change nmeta with 46 in *; lia)). done. Qed.

Lemma gi_da k : 0 <= k < MAXFILE -> da img' di' k = if decide (k = nb) then b else da img di k.
Proof.
  intros Hk. change MAXFILE with (NDIRECT + NINDIRECT) in *. destruct (Z.ltb_spec k NDIRECT) as [Hlt|Hge].
  - rewrite decide_False by lia. rewrite <- Hdir by lia. unfold da, daddr. by rewrite (proj2 (Z.ltb_lt _ _)).
  - unfold da at 1, daddr. rewrite (proj2 (Z.ltb_ge _ _)) by done. fold (ind di'). rewrite Hi'. change nmeta with 46 in *. rewrite (proj2 (Z.eqb_neq a 0)) by lia. cbn [tcontents img_view].
    unfold img'. rewrite blk_put, decide_True by (done || lia). rewrite ind_get_put; [|by apply blk_ok|lia|lia|lia]. case_decide as E; [by rewrite decide_True by lia|]. rewrite decide_False by lia. apply Hent. lia.
Qed.

Lemma gi_old k : 0 <= k < nb -> nmeta <= da img di k < hi /\ da img di k <> a.
Proof. intros Hk. pose proof (fa_in _ _ _ _ _ Hf k Hk). split; [done|]. destruct Hold as [->|?]; [by apply (fa_sep _ _ _ _ _ Hf)|lia]. Qed.

Lemma grow_indirect : file_at img' hi' di' (nb + 1) c /\ da img' di' nb = b /\ forall x, owns img' di' (nb + 1) x -> next_to img di nb hi hi' x.
Proof.
  pose proof Hf as [A B C D E F G I J]. change nmeta with 46 in *. assert (Hbs : 0 < BSIZE) by done. split; [|split; [rewrite gi_da, decide_True by lia; done|]].
  - split.
    + done.
    + lia.
    + intros k Hk. rewrite gi_da by lia. case_decide; [change nmeta with 46; lia|]. destruct (gi_old k ltac:(lia)). change nmeta with 46 in *. lia.
    + intros k Hk. rewrite gi_da, decide_False by lia. apply D. lia.
    + rewrite (proj2 (Z.ltb_lt _ _)), Hi' by lia. change nmeta with 46. lia.
    + intros k Hk. rewrite gi_da, Hi' by lia. case_decide; [lia|]. by apply gi_old; lia.
    + intros j k Hj Hk. rewrite !gi_da by lia. repeat case_decide; try lia; [destruct (gi_old k ltac:(lia)); lia|destruct (gi_old j ltac:(lia)); lia|]. apply G; lia.
    + lia.
    + eapply bytes_more; [exact Hf| |rewrite gi_da, decide_True by lia; rewrite gi_blk by lia; done]. intros k Hk. destruct (gi_old k Hk) as [H1 H2]. split; [rewrite gi_da, decide_False by lia; done|]. change nmeta with 46 in *. apply gi_blk; [lia|done].
  - intros x [(k & Hk & <-)|[Hk <-]].
    + rewrite gi_da by lia. case_decide; [right; lia|]. left. left. exists k. split; [lia|done].
    + rewrite Hi'. destruct Hold as [E2|E2]; [|right; lia]. left. right. split; [|done]. destruct (Z.ltb_spec NDIRECT nb); [done|]. lia.
Qed.
End Indirect.

(** Bytes written behind the end, into the last block. *)
Lemma write_last img hi di nb c ch : img_ok img -> file_at img hi di nb c -> hi <= FSSIZE -> 0 < nb -> (nb - 1) * BSIZE <= Z.of_nat (length c) ->
  Z.of_nat (length c) + Z.of_nat (length ch) <= nb * BSIZE ->
  let x := da img di (nb - 1) in let img' := <[Z.to_nat x := splice (blk_of img x) (Z.to_nat (Z.of_nat (length c) - (nb - 1) * BSIZE)) ch]> img in
  file_at img' hi di nb (c ++ ch) /\ forall b, owns img' di nb b <-> owns img di nb b.
Proof.
  intros Him Hf Hh Hn Hlo Hup x img'. pose proof Hf as [A B C D E F G I J]. pose proof (C (nb - 1) ltac:(lia)) as Hx. fold x in Hx. change nmeta with 46 in *.
  assert (Hbl : forall y, 0 <= y -> y <> x -> blk_of img' y = blk_of img y) by (intros y Hy Hne; unfold img'; rewrite blk_put, decide_False by (done || lia); done).
  assert (Hda : forall k, da img' di k = da img di k).
  { intros k. apply da_ext. intros Hi. destruct (Z.ltb_spec NDIRECT nb); [|done]. apply Hbl; [lia|]. intros E2. apply (F (nb - 1)); [lia|done]. }
  assert (Hlen : length (blk_of img x) = Z.to_nat BSIZE) by (by apply blk_ok). assert (Hbs : BSIZE = 1024) by done.
  assert (Happ : forall o, 0 <= o -> ~ (Z.of_nat (length c) <= o < Z.of_nat (length c) + Z.of_nat (length ch)) -> default 0 (c !! Z.to_nat o) = default 0 ((c ++ ch) !! Z.to_nat o)).
  { intros o Ho Hno. destruct (Z.lt_ge_cases o (Z.of_nat (length c))); [by rewrite lookup_app_l by lia|]. by rewrite !lookup_ge_None_2 by (rewrite ?length_app; lia). }
  split; [|intros b; unfold owns; by setoid_rewrite Hda].
  split; [done|done|intros k Hk; rewrite Hda; by apply C|intros k Hk; rewrite Hda; by apply D|done|intros k Hk; rewrite Hda; by apply F|intros j k Hj Hk; rewrite !Hda; by apply G|rewrite length_app; lia|].
  - intros o Ho. unfold fbyte. fold (da img' di (o / BSIZE)). rewrite Hda. cbn [tcontents img_view]. destruct (block_index o nb) as [Hk Hk2]; [lia|].
    pose proof (Z.div_mod o BSIZE ltac:(lia)) as Hdm. pose proof (Z.mod_pos_bound o BSIZE ltac:(lia)) as Hmod.
    destruct (decide (o / BSIZE = nb - 1)) as [Ek|Ek].
    + rewrite Ek. fold x. unfold img' at 1. rewrite blk_put, decide_True by (done || lia). rewrite Ek in Hdm. rewrite splice_lookup by lia. case_decide as Hin.
      * rewrite lookup_app_r by lia. f_equal. f_equal. lia.
      * rewrite <- Happ by lia. rewrite <- J by lia. unfold fbyte. fold (da img di (o / BSIZE)). rewrite Ek. done.
    + rewrite Hbl.
      * rewrite <- Happ by lia. rewrite <- J by lia. done.
      * pose proof (C (o / BSIZE) Hk). lia.
      * intros E2. apply Ek, G; [lia|lia|done].
Qed.

(** ** The files of an image *)

(** A file: its inode, its blocks and its contents. *)
Record entry := mkEntry { e_di : dinode; e_nb : Z; e_c : list Z }.
Definition eowns img (e : entry) (b : Z) : Prop := owns img (e_di e) (e_nb e) b.
Definition costs (fs : list entry) : Z := foldr (fun e n => cost (e_nb e) + n) 0 fs.

Record core s (fs : list entry) : Prop := {
  co_img : img_ok (fs_img s);
  co_sb : fs_sb s = the_super;
  co_hi : nmeta <= freeblock s <= FSSIZE;
  co_zero : forall b, freeblock s <= b < FSSIZE -> blk_of (fs_img s) b = zero_block;
  co_file : forall i e, fs !! i = Some e -> file_at (fs_img s) (freeblock s) (e_di e) (e_nb e) (e_c e);
  co_sep : forall i j e e' b, fs !! i = Some e -> fs !! j = Some e' -> eowns (fs_img s) e b -> eowns (fs_img s) e' b -> i = j;
  co_sum : freeblock s = nmeta + costs fs
}.

Lemma costs_insert fs i e e' : fs !! i = Some e -> costs (<[i := e']> fs) = costs fs - cost (e_nb e) + cost (e_nb e').
Proof.
  revert i. induction fs as [|x fs IH]; intros [|i] Hi; try done; cbn in *.
  - injection Hi as ->. lia.
  - change (foldr _ 0 (<[i := e']> fs)) with (costs (<[i := e']> fs)). change (foldr _ 0 fs) with (costs fs). rewrite (IH i Hi). lia.
Qed.

(** One file changes: its blocks and those that were not yet in use. *)
Lemma core_upd s fs i e e' img' hi' : core s fs -> fs !! i = Some e -> img_ok img' -> freeblock s <= hi' <= FSSIZE ->
  (forall b, 0 <= b -> ~ eowns (fs_img s) e b -> b < freeblock s \/ hi' <= b -> blk_of img' b = blk_of (fs_img s) b) ->
  file_at img' hi' (e_di e') (e_nb e') (e_c e') -> (forall b, eowns img' e' b -> next_to (fs_img s) (e_di e) (e_nb e) (freeblock s) hi' b) ->
  hi' - freeblock s = cost (e_nb e') - cost (e_nb e) ->
  core (mkMkfs img' (freeinode s) hi' (fs_sb s)) (<[i := e']> fs).
Proof.
  intros Hc Hi Him Hh Hb Hf Ho Hsum. pose proof Hc as [C1 C2 C3 C4 C5 C6 C7]. pose proof (C5 i e Hi) as Hfe. pose proof (lookup_lt_Some _ _ _ Hi) as Hlt.
  assert (Hm : 0 < nmeta) by done.
  assert (Hoth : forall j x, j <> i -> fs !! j = Some x -> file_at img' hi' (e_di x) (e_nb x) (e_c x) /\ forall b, eowns img' x b <-> eowns (fs_img s) x b).
  { intros j x Hne Hj. apply (file_frame (fs_img s) img' (freeblock s)); [by apply (C5 j)|lia|]. intros b Hbx. pose proof (owned_range _ _ _ _ _ _ (C5 j x Hj) Hbx) as Hr.
    apply Hb; [lia| |lia]. intros Hbe. apply Hne. by apply (C6 j i x e b). }
  split; cbn [fs_img fs_sb freeblock].
  - done.
  - done.
  - lia.
  - intros b Hbr. rewrite Hb; [apply C4; lia|lia| |lia]. intros Hbe. pose proof (owned_range _ _ _ _ _ _ Hfe Hbe). lia.
  - intros j x Hj. destruct (decide (j = i)) as [->|Hne]; [rewrite list_lookup_insert_eq in Hj by done; by injection Hj as <-|].
    rewrite list_lookup_insert_ne in Hj by done. by apply (Hoth j).
  - assert (Hx : forall j x b, j <> i -> fs !! j = Some x -> eowns img' x b -> eowns img' e' b -> False).
    { intros j x b Hne Hj Hbx Hbe. apply (Hoth j x Hne Hj) in Hbx. pose proof (owned_range _ _ _ _ _ _ (C5 j x Hj) Hbx). destruct (Ho b Hbe) as [Hbo|Hbo]; [|lia]. apply Hne. by apply (C6 j i x e b). }
    intros j k x y b Hj Hk Hbx Hby. destruct (decide (j = i)) as [->|Hj1], (decide (k = i)) as [->|Hk1]; try done.
    + rewrite list_lookup_insert_eq in Hj by done. injection Hj as <-. rewrite list_lookup_insert_ne in Hk by done. exfalso. by eapply (Hx k y b).
    + rewrite list_lookup_insert_eq in Hk by done. injection Hk as <-. rewrite list_lookup_insert_ne in Hj by done. exfalso. by eapply (Hx j x b).
    + rewrite list_lookup_insert_ne in Hj, Hk by done. apply (Hoth j x Hj1 Hj) in Hbx. apply (Hoth k y Hk1 Hk) in Hby. by apply (C6 j k x y b).
  - rewrite (costs_insert fs i e e' Hi). lia.
Qed.

(** ** The routines *)

Lemma xint_small x : 0 <= x < 2 ^ 32 -> xint x = x.
Proof. intros Hx. unfold xint. rewrite le_val_le_bytes. by apply Z.mod_small. Qed.

Section Routines.
Variable io_error : Z -> bool.
Hypothesis Hio : forall b, 0 <= b < FSSIZE -> io_error b = false.

Lemma wp_rsect s b (Q : list Z -> mkfs -> Prop) : img_ok (fs_img s) -> 0 <= b < FSSIZE -> Q (blk_of (fs_img s) b) s -> wp (rsect io_error b) s Q.
Proof. intros Him Hb HQ. unfold rsect. wp_step. wp_step. rewrite (sector_at _ b Him Hb). rewrite (Hio b Hb). by wp_step. Qed.

Lemma wp_wsect s b d (Q : unit -> mkfs -> Prop) : img_ok (fs_img s) -> 0 <= b < FSSIZE -> Q tt (set_img (<[Z.to_nat b := d]> (fs_img s)) s) -> wp (wsect io_error b d) s Q.
Proof. intros Him Hb HQ. unfold wsect. rewrite (Hio b Hb). wp_step. by rewrite put_sector_in. Qed.

Lemma wp_next_block s (Q : Z -> mkfs -> Prop) : 0 <= freeblock s < FSSIZE -> Q (freeblock s) (set_freeblock (freeblock s + 1) s) -> wp next_block s Q.
Proof. intros Hb HQ. unfold next_block. do 4 wp_step. wp_step. rewrite u32_small; [done|]. change FSSIZE with 2000 in *. lia. Qed.

(** The blocks before the data, and the inode but for its addresses. *)
Definition meta_same img img' : Prop := forall b, 0 <= b < nmeta -> blk_of img' b = blk_of img b.
Definition same_head di di' : Prop := exists l, length l = 13%nat /\ di' = mkDinode (di_type di) (di_major di) (di_minor di) (di_nlink di) (di_size di) l.

Lemma addr_da img di k : 0 <= k < NDIRECT -> addr_of k di = da img di k.
Proof. intros Hk. unfold da, daddr. by rewrite (proj2 (Z.ltb_lt _ _)) by lia. Qed.

Lemma addr_ind di : addr_of NDIRECT di = ind di.
Proof. done. Qed.

Lemma same_head_refl di : length (di_addrs di) = 13%nat -> same_head di di.
Proof. intros Hl. exists (di_addrs di). split; [done|]. by destruct di. Qed.

(** A block that the file has. *)
Lemma wp_block_old s fs i e k (Q : Z * dinode -> mkfs -> Prop) : core s fs -> fs !! i = Some e -> 0 <= k < e_nb e -> Q (da (fs_img s) (e_di e) k, e_di e) s ->
  wp (iappend_block io_error k (e_di e)) s Q.
Proof.
  intros Hc Hi Hk HQ. pose proof (co_file _ _ Hc i e Hi) as Hf. pose proof (co_hi _ _ Hc) as Hh. pose proof (fa_in _ _ _ _ _ Hf k Hk) as Hr. pose proof (fa_nb _ _ _ _ _ Hf) as Hnb.
  change nmeta with 46 in *. change FSSIZE with 2000 in *. unfold iappend_block. destruct (Z.ltb_spec k NDIRECT) as [Hd|Hd].
  - rewrite (addr_da (fs_img s)) by lia. rewrite xint_small, (proj2 (Z.eqb_neq _ 0)) by lia. do 2 wp_step. wp_step. rewrite (addr_da (fs_img s)) by lia. by rewrite xint_small by lia.
  - pose proof (fa_ind _ _ _ _ _ Hf) as Hx. rewrite (proj2 (Z.ltb_lt NDIRECT _)) in Hx by lia. change nmeta with 46 in *. rewrite addr_ind, xint_small, (proj2 (Z.eqb_neq _ 0)) by lia. do 2 wp_step. wp_step.
    rewrite addr_ind, xint_small by lia. apply wp_rsect; [apply (co_img _ _ Hc)|change FSSIZE with 2000; lia|]. wp_step.
    assert (E : ind_get (blk_of (fs_img s) (ind (e_di e))) (k - NDIRECT) = da (fs_img s) (e_di e) k).
    { unfold da, daddr. rewrite (proj2 (Z.ltb_ge _ _)) by done. fold (ind (e_di e)). rewrite (proj2 (Z.eqb_neq _ 0)) by lia. done. }
    rewrite E, (proj2 (Z.eqb_neq _ 0)) by lia. do 2 wp_step. rewrite E. by rewrite xint_small by lia.
Qed.

Record grown s s' (i : nat) (e : entry) (fs : list entry) (di' : dinode) (x : Z) : Prop := {
  gr_core : core s' (<[i := mkEntry di' (e_nb e + 1) (e_c e)]> fs);
  gr_head : same_head (e_di e) di';
  gr_at : x = da (fs_img s') di' (e_nb e);
  gr_meta : meta_same (fs_img s) (fs_img s');
  gr_inode : freeinode s' = freeinode s
}.

Lemma cost_step nb : cost (nb + 1) - cost nb = if nb =? NDIRECT then 2 else 1.
Proof. unfold cost. destruct (Z.eqb_spec nb NDIRECT) as [->|Hne]; [done|]. destruct (Z.ltb_spec NDIRECT (nb + 1)), (Z.ltb_spec NDIRECT nb); lia. Qed.

(** Blocks the file does not own stay when only the file's own and new blocks
    are written. *)
Lemma meta_put img a d : img_ok img -> nmeta <= a < FSSIZE -> meta_same img (<[Z.to_nat a := d]> img).
Proof. intros Him Ha b Hb. change nmeta with 46 in *. rewrite blk_put, decide_False by (done || lia). done. Qed.

(** A new block for the file. *)
Lemma new_direct s fs i e : core s fs -> fs !! i = Some e -> e_nb e < NDIRECT -> freeblock s < FSSIZE ->
  grown s (set_freeblock (freeblock s + 1) s) i e fs (set_addr (e_nb e) (freeblock s) (e_di e)) (freeblock s).
Proof.
  intros Hc Hi Hn Hb. pose proof (co_file _ _ Hc i e Hi) as Hf. pose proof (co_hi _ _ Hc) as Hh. destruct (grow_direct _ _ _ _ _ Hf) as (G1 & G2 & G3); [lia|done|apply (co_zero _ _ Hc); lia|].
  split; [|eexists; split; [|reflexivity]; rewrite length_insert; by apply Hf|exact (eq_sym G2)|done|done].
  apply (core_upd s fs i e); [done|done|by destruct Hc|lia|done|done|done|]. cbn [e_nb]. rewrite cost_step. change NDIRECT with 12 in *. destruct (Z.eqb_spec (e_nb e) 12); lia.
Qed.

Lemma new_indirect s fs i e : core s fs -> fs !! i = Some e -> NDIRECT < e_nb e < MAXFILE -> freeblock s < FSSIZE ->
  grown s (mkMkfs (<[Z.to_nat (ind (e_di e)) := ind_put (blk_of (fs_img s) (ind (e_di e))) (e_nb e - NDIRECT) (freeblock s)]> (fs_img s)) (freeinode s) (freeblock s + 1) (fs_sb s))
    i e fs (e_di e) (freeblock s).
Proof.
  intros Hc Hi Hn Hb. pose proof (co_file _ _ Hc i e Hi) as Hf. pose proof (co_hi _ _ Hc) as Hh. pose proof (co_img _ _ Hc) as Him.
  pose proof (fa_ind _ _ _ _ _ Hf) as Hx. rewrite (proj2 (Z.ltb_lt NDIRECT _)) in Hx by lia. assert (Hmax : MAXFILE = NDIRECT + NINDIRECT) by done.
  destruct (grow_indirect (fs_img s) (freeblock s) (e_di e) (e_nb e) (e_c e) (e_di e) (ind (e_di e)) (freeblock s) (freeblock s + 1)) as (G1 & G2 & G3);
    [done|done|lia|lia|lia|change FSSIZE with 2000 in *; lia|lia|lia|apply (co_zero _ _ Hc); lia|by left|done|by apply Hf|done| |].
  { intros k Hk. unfold da, daddr. rewrite (proj2 (Z.ltb_ge _ _)) by lia. fold (ind (e_di e)). change nmeta with 46 in *. rewrite (proj2 (Z.eqb_neq _ 0)) by lia. done. }
  split; cbn [fs_img freeinode]; [|apply same_head_refl, Hf|by rewrite G2|apply meta_put; [done|lia]|done].
  destruct (blk_ok (fs_img s) (ind (e_di e)) Him) as [L1 L2].
  apply (core_upd s fs i e); [done|done|apply img_put; [done|apply length_ind_put; [done|lia]|by apply ind_put_bytes]|lia| |done|done|].
  - intros b Hb0 Hno Hbr. rewrite blk_put, decide_False; [done| |done|change nmeta with 46 in *; lia|done]. intros ->. apply Hno. right. split; [lia|done].
  - cbn [e_nb]. rewrite cost_step. destruct (Z.eqb_spec (e_nb e) NDIRECT); lia.
Qed.

Lemma new_first_indirect s fs i e : core s fs -> fs !! i = Some e -> e_nb e = NDIRECT -> freeblock s + 1 < FSSIZE ->
  grown s (mkMkfs (<[Z.to_nat (freeblock s) := ind_put zero_block 0 (freeblock s + 1)]> (fs_img s)) (freeinode s) (freeblock s + 2) (fs_sb s))
    i e fs (set_addr NDIRECT (freeblock s) (e_di e)) (freeblock s + 1).
Proof.
  intros Hc Hi Hn Hb. pose proof (co_file _ _ Hc i e Hi) as Hf. pose proof (co_hi _ _ Hc) as Hh. pose proof (co_img _ _ Hc) as Him.
  pose proof (fa_ind _ _ _ _ _ Hf) as Hx. rewrite (proj2 (Z.ltb_ge NDIRECT _)) in Hx by lia. assert (Hmax : MAXFILE = NDIRECT + NINDIRECT) by done.
  pose proof (co_zero _ _ Hc (freeblock s) ltac:(lia)) as Hz. pose proof (fa_len _ _ _ _ _ Hf) as Hl. change nmeta with 46 in *.
  assert (E0 : ind_put zero_block 0 (freeblock s + 1) = ind_put (blk_of (fs_img s) (freeblock s)) (e_nb e - NDIRECT) (freeblock s + 1)) by (by rewrite Hz, Hn, Z.sub_diag).
  rewrite E0.
  destruct (grow_indirect (fs_img s) (freeblock s) (e_di e) (e_nb e) (e_c e) (set_addr NDIRECT (freeblock s) (e_di e)) (freeblock s) (freeblock s + 1) (freeblock s + 2)) as (G1 & G2 & G3);
    [done|done|change nmeta with 46; lia|change NINDIRECT with 256 in *; lia|change nmeta with 46; lia|change FSSIZE with 2000 in *; lia|lia|lia|apply (co_zero _ _ Hc); lia|right; lia| |by rewrite length_addr_set| | |].
  { rewrite ind_direct by (done || lia). by rewrite decide_True. }
  { intros k Hk. unfold da, daddr. rewrite (proj2 (Z.ltb_lt _ _)) by lia. unfold i_addrs, ino, i_di, set_addr, di_addrs. destruct (e_di e). rewrite list_lookup_insert_ne; [done|]. change NDIRECT with 12 in *. lia. }
  { intros k Hk. rewrite Hz, ind_get_zero by lia. unfold da, daddr. rewrite (proj2 (Z.ltb_ge _ _)) by lia. fold (ind (e_di e)). by rewrite Hx. }
  destruct (blk_ok (fs_img s) (freeblock s) Him) as [L1 L2].
  split; cbn [fs_img freeinode]; [|eexists; split; [|reflexivity]; by rewrite length_insert|exact (eq_sym G2)|apply meta_put; [done|change nmeta with 46; lia]|done].
  apply (core_upd s fs i e); [done|done|apply img_put; [done|apply length_ind_put; [done|change NINDIRECT with 256; lia]|by apply ind_put_bytes]|lia| |done|done|].
  - intros b Hb0 Hno Hbr. rewrite blk_put, decide_False; [done|lia|done|lia|done].
  - cbn [e_nb]. rewrite cost_step, Hn. change (NDIRECT =? NDIRECT) with true. cbn. lia.
Qed.

Lemma wp_block_new s fs i e (Q : Z * dinode -> mkfs -> Prop) : core s fs -> fs !! i = Some e -> e_nb e < MAXFILE -> freeblock s + (cost (e_nb e + 1) - cost (e_nb e)) <= FSSIZE ->
  (forall s' di' x, grown s s' i e fs di' x -> Q (x, di') s') -> wp (iappend_block io_error (e_nb e) (e_di e)) s Q.
Proof.
  intros Hc Hi Hmax Hroom HQ. pose proof (co_file _ _ Hc i e Hi) as Hf. pose proof (co_hi _ _ Hc) as Hh. pose proof (fa_out _ _ _ _ _ Hf (e_nb e) ltac:(lia)) as Hout. pose proof (fa_nb _ _ _ _ _ Hf) as Hnb.
  pose proof (fa_ind _ _ _ _ _ Hf) as Hx. pose proof (fa_len _ _ _ _ _ Hf) as Hl. rewrite cost_step in Hroom. pose proof (co_img _ _ Hc) as Him.
  change nmeta with 46 in *. change FSSIZE with 2000 in *. unfold iappend_block. destruct (Z.ltb_spec (e_nb e) NDIRECT) as [Hd|Hd].
  - rewrite (proj2 (Z.eqb_neq (e_nb e) NDIRECT)) in Hroom by lia. rewrite (addr_da (fs_img s)), Hout by lia. change (xint 0 =? 0) with true. wp_step. wp_step. apply wp_next_block; [change FSSIZE with 2000; lia|]. do 2 wp_step.
    rewrite (xint_small (freeblock s)) by lia. pose proof (new_direct s fs i e Hc Hi Hd ltac:(change FSSIZE with 2000; lia)) as Hg. assert (Ex : addr_of (e_nb e) (set_addr (e_nb e) (freeblock s) (e_di e)) = freeblock s).
    { unfold addr_of, set_addr. cbn [di_addrs]. rewrite list_lookup_insert_eq; [done|]. rewrite Hl. change NDIRECT with 12 in *. lia. }
    rewrite Ex, xint_small by lia. by apply HQ.
  - destruct (Z.ltb_spec NDIRECT (e_nb e)) as [Hi2|Hi2].
    + rewrite (proj2 (Z.eqb_neq (e_nb e) NDIRECT)) in Hroom by lia. change nmeta with 46 in *. rewrite addr_ind, xint_small, (proj2 (Z.eqb_neq (ind _) 0)) by lia. do 2 wp_step. wp_step.
      rewrite addr_ind, xint_small by lia. apply wp_rsect; [done|change FSSIZE with 2000; lia|]. wp_step.
      assert (E : ind_get (blk_of (fs_img s) (ind (e_di e))) (e_nb e - NDIRECT) = 0).
      { rewrite <- Hout. unfold da, daddr. rewrite (proj2 (Z.ltb_ge _ _)) by done. fold (ind (e_di e)). rewrite (proj2 (Z.eqb_neq (ind _) 0)) by lia. done. }
      rewrite E. change (0 =? 0) with true. wp_step. wp_step. apply wp_next_block; [change FSSIZE with 2000; lia|]. cbn beta. rewrite (xint_small (freeblock s)) by lia.
      wp_step. apply wp_wsect; [done|change FSSIZE with 2000; lia|]. wp_step. wp_step.
      rewrite ind_get_put, decide_True; [|done|by apply blk_ok|change NINDIRECT with 256; change MAXFILE with 268 in *; change NDIRECT with 12 in *; lia..]. rewrite xint_small by lia.
      apply HQ. apply (new_indirect s fs i e Hc Hi ltac:(lia)). change FSSIZE with 2000. lia.
    + assert (En : e_nb e = NDIRECT) by lia. rewrite En, Z.eqb_refl in Hroom. rewrite En, addr_ind, Hx. change (xint 0 =? 0) with true. wp_step. wp_step. apply wp_next_block; [change FSSIZE with 2000; lia|]. do 2 wp_step.
      rewrite (xint_small (freeblock s)) by lia.
      assert (Ei : addr_of NDIRECT (set_addr NDIRECT (freeblock s) (e_di e)) = freeblock s) by (rewrite addr_ind, ind_direct by (done || lia); by rewrite decide_True).
      rewrite Ei, xint_small by lia. apply wp_rsect; [done|change FSSIZE with 2000; cbn; lia|]. cbn [fs_img set_freeblock]. rewrite (co_zero _ _ Hc (freeblock s)) by (change FSSIZE with 2000; lia). wp_step.
      rewrite Z.sub_diag, ind_get_zero by done. change (0 =? 0) with true. wp_step. wp_step. apply wp_next_block; [change FSSIZE with 2000; cbn; lia|]. cbn [freeblock set_freeblock]. rewrite (xint_small (freeblock s + 1)) by lia.
      wp_step. apply wp_wsect; [done|change FSSIZE with 2000; cbn; lia|]. wp_step. wp_step.
      rewrite ind_get_put, decide_True; [|done|by apply zero_block_ok|done|done|lia]. rewrite xint_small by lia.
      apply HQ. pose proof (new_first_indirect s fs i e Hc Hi En ltac:(change FSSIZE with 2000; lia)) as Hg.
      unfold set_img, set_freeblock. cbn [fs_img freeinode freeblock fs_sb]. replace (freeblock s + 1 + 1) with (freeblock s + 2) by lia. exact Hg.
Qed.

(** ** Inodes *)

Definition inum_of (i : nat) : Z := Z.of_nat i + 1.
Definition ceil (n : Z) : Z := (n + 1023) / 1024.

(** The inodes on the disk. *)
Record inode_at img (i : nat) (e : entry) : Prop := {
  ia_get : get_dinode (blk_of img (IBLOCK (inum_of i) the_super)) (dinode_off (inum_of i)) = e_di e;
  ia_ok : dinode_ok (e_di e);
  ia_size : di_size (e_di e) = Z.of_nat (length (e_c e));
  ia_nb : e_nb e = ceil (Z.of_nat (length (e_c e)))
}.

Record whole s (fs : list entry) : Prop := {
  wh_core : core s fs;
  wh_inodes : forall i e, fs !! i = Some e -> inode_at (fs_img s) i e;
  wh_count : freeinode s = inum_of (length fs);
  wh_max : Z.of_nat (length fs) < NINODES;
  wh_super : blk_of (fs_img s) 1 = splice zero_block 0 (super_bytes the_super)
}.

Lemma iblock_range i : Z.of_nat i < NINODES -> 32 <= IBLOCK (inum_of i) the_super < 45.
Proof.
  intros Hi. unfold IBLOCK, inum_of. change IPB with 16. change (sb_inodestart the_super) with 32. change NINODES with 200 in *.
  pose proof (Z.div_pos (Z.of_nat i + 1) 16). assert ((Z.of_nat i + 1) / 16 < 13) by (apply Z.div_lt_upper_bound; lia). lia.
Qed.

Lemma dinode_offs i j : i <> j -> IBLOCK (inum_of i) the_super = IBLOCK (inum_of j) the_super -> (dinode_off (inum_of i) + 64 <= dinode_off (inum_of j) \/ dinode_off (inum_of j) + 64 <= dinode_off (inum_of i))%nat.
Proof.
  unfold IBLOCK, dinode_off, inum_of. change IPB with 16. intros Hne E. pose proof (Z.div_mod (Z.of_nat i + 1) 16 ltac:(lia)). pose proof (Z.div_mod (Z.of_nat j + 1) 16 ltac:(lia)).
  pose proof (Z.mod_pos_bound (Z.of_nat i + 1) 16 ltac:(lia)). pose proof (Z.mod_pos_bound (Z.of_nat j + 1) 16 ltac:(lia)). lia.
Qed.

(** A block before the data changes. *)
Lemma core_meta s fs img' x : core s fs -> img_ok img' -> (forall b, nmeta <= b -> blk_of img' b = blk_of (fs_img s) b) -> core (mkMkfs img' x (freeblock s) (fs_sb s)) fs.
Proof.
  intros [C1 C2 C3 C4 C5 C6 C7] Him Hb.
  assert (Hoth : forall j e, fs !! j = Some e -> file_at img' (freeblock s) (e_di e) (e_nb e) (e_c e) /\ forall b, eowns img' e b <-> eowns (fs_img s) e b).
  { intros j e Hj. apply (file_frame (fs_img s) img' (freeblock s)); [by apply (C5 j)|lia|]. intros b Hbx. apply Hb. by apply (owned_range _ _ _ _ _ _ (C5 j e Hj) Hbx). }
  split; cbn [fs_img fs_sb freeblock]; try done.
  - intros b Hbr. rewrite Hb by lia. by apply C4.
  - intros j e Hj. by apply (Hoth j).
  - intros j k e e' b Hj Hk Hbe Hbe'. apply (Hoth j e Hj) in Hbe. apply (Hoth k e' Hk) in Hbe'. by apply (C6 j k e e' b).
Qed.

Lemma wp_rinode s fs i e (Q : dinode -> mkfs -> Prop) : whole s fs -> fs !! i = Some e -> Q (e_di e) s -> wp (rinode io_error (inum_of i)) s Q.
Proof.
  intros Hw Hi HQ. pose proof (lookup_lt_Some _ _ _ Hi) as Hlt. pose proof (wh_max _ _ Hw) as Hm. pose proof (iblock_range i ltac:(lia)) as Hb. unfold rinode. wp_step. wp_step. rewrite (co_sb _ _ (wh_core _ _ Hw)).
  wp_step. apply wp_rsect; [by destruct (wh_core _ _ Hw)|change FSSIZE with 2000; lia|]. wp_step. by rewrite (ia_get _ _ _ (wh_inodes _ _ Hw i e Hi)).
Qed.

(** winode() sets one inode. *)
Lemma wp_winode s fs i e' n (Q : unit -> mkfs -> Prop) : core s fs -> (forall j e, j <> i -> fs !! j = Some e -> inode_at (fs_img s) j e) -> freeinode s = n ->
  fs !! i = Some e' -> Z.of_nat (length fs) < NINODES -> dinode_ok (e_di e') -> di_size (e_di e') = Z.of_nat (length (e_c e')) -> e_nb e' = ceil (Z.of_nat (length (e_c e'))) ->
  (forall s', core s' fs -> (forall j e, fs !! j = Some e -> inode_at (fs_img s') j e) -> freeinode s' = n -> blk_of (fs_img s') 1 = blk_of (fs_img s) 1 -> Q tt s') ->
  wp (winode io_error (inum_of i) (e_di e')) s Q.
Proof.
  intros Hc Hin Hn Hi Hmax Hok Hsz Hnb HQ. pose proof (lookup_lt_Some _ _ _ Hi) as Hlt. pose proof (iblock_range i ltac:(lia)) as Hb. pose proof (co_img _ _ Hc) as Him.
  unfold winode. wp_step. wp_step. rewrite (co_sb _ _ Hc). wp_step. apply wp_rsect; [done|change FSSIZE with 2000; lia|]. apply wp_wsect; [done|change FSSIZE with 2000; lia|].
  destruct (blk_ok (fs_img s) (IBLOCK (inum_of i) the_super) Him) as [L1 L2]. assert (Ho : (dinode_off (inum_of i) + 64 <= length (blk_of (fs_img s) (IBLOCK (inum_of i) the_super)))%nat) by (rewrite L1; apply dinode_off_range; unfold inum_of; lia).
  destruct (put_dinode_bytes _ _ _ Hok Ho L2) as [B1 B2]. apply HQ; cbn [set_img fs_img freeinode].
  - apply core_meta; [done|apply img_put; [done|by rewrite B2|done]|]. intros b Hbm. change nmeta with 46 in *. rewrite blk_put, decide_False; [done|lia|done|change FSSIZE with 2000; lia|lia].
  - intros j e Hj. destruct (decide (j = i)) as [->|Hne].
    + rewrite Hi in Hj. injection Hj as <-. split; try done. rewrite blk_put, decide_True; [by apply get_put_dinode|done|done|change FSSIZE with 2000; lia|lia].
    + destruct (Hin j e Hne Hj) as [A1 A2 A3 A4]. split; try done. pose proof (lookup_lt_Some _ _ _ Hj). pose proof (iblock_range j ltac:(lia)) as Hbj. rewrite blk_put; [|done|change FSSIZE with 2000; lia|lia]. case_decide as E; [|done].
      rewrite get_dinode_ne; [by rewrite <- E|done|done|]. destruct (dinode_offs i j (not_eq_sym Hne) (eq_sym E)); lia.
  - done.
  - rewrite blk_put, decide_False; [done|lia|done|change FSSIZE with 2000; lia|lia].
Qed.

(** ** iappend() *)

Lemma cost_mono m n : m <= n -> cost m <= cost n.
Proof. intros H. unfold cost. destruct (Z.ltb_spec NDIRECT m), (Z.ltb_spec NDIRECT n); lia. Qed.

(** The next piece goes into block [off / BSIZE]: a new one at a block
    boundary, else the last. *)
Lemma ceil_block off : 0 <= off -> ceil off = if off mod 1024 =? 0 then off / 1024 else off / 1024 + 1.
Proof.
  intros Ho. unfold ceil. pose proof (Z.div_mod off 1024 ltac:(lia)). pose proof (Z.mod_pos_bound off 1024 ltac:(lia)).
  destruct (Z.eqb_spec (off mod 1024) 0) as [E|E].
  - symmetry. apply (Z.div_unique _ _ _ 1023); lia.
  - symmetry. apply (Z.div_unique _ _ _ (off mod 1024 - 1)); lia.
Qed.

Lemma ceil_in off n : 0 <= off -> 0 < n -> off + n <= (off / 1024 + 1) * 1024 -> ceil (off + n) = off / 1024 + 1.
Proof.
  intros Ho Hn Hup. unfold ceil. pose proof (Z.div_mod off 1024 ltac:(lia)). pose proof (Z.mod_pos_bound off 1024 ltac:(lia)). symmetry.
  apply (Z.div_unique _ _ _ (off + n + 1023 - 1024 * (off / 1024 + 1))); lia.
Qed.

Lemma ceil_mono a b : a <= b -> ceil a <= ceil b.
Proof. intros H. apply Z.div_le_mono; lia. Qed.

Lemma same_head_trans d1 d2 d3 : same_head d1 d2 -> same_head d2 d3 -> same_head d1 d3.
Proof. intros (l & Hl & ->) (l' & Hl' & ->). by exists l'. Qed.

Lemma entry_eta (e : entry) : mkEntry (e_di e) (e_nb e) (e_c e) = e.
Proof. by destruct e. Qed.

Section Append.
Context (s : mkfs) (fs : list entry) (i : nat) (e : entry) (bs : list Z).
Hypotheses (Hw : whole s fs) (Hi : fs !! i = Some e) (Hbs : Forall is_byte bs).
Let len := Z.of_nat (length (e_c e)).
Let total := len + Z.of_nat (length bs).
Hypotheses (Hmax : total <= MAXFILE * BSIZE) (Hroom : freeblock s - cost (e_nb e) + cost (ceil total) <= FSSIZE).

(** During the loop: [tot] bytes are in the file. *)
Record appending (tot : nat) (din : dinode) s' : Prop := {
  ap_core : core s' (<[i := mkEntry din (ceil (len + Z.of_nat tot)) (e_c e ++ take tot bs)]> fs);
  ap_head : same_head (e_di e) din;
  ap_meta : meta_same (fs_img s) (fs_img s');
  ap_inode : freeinode s' = freeinode s
}.

Lemma ap_free tot din s' : appending tot din s' -> freeblock s' = freeblock s - cost (e_nb e) + cost (ceil (len + Z.of_nat tot)).
Proof.
  intros Ha. pose proof (co_sum _ _ (ap_core _ _ _ Ha)) as H1. pose proof (co_sum _ _ (wh_core _ _ Hw)) as H2. rewrite (costs_insert fs i e _ Hi) in H1. cbn [e_nb] in H1. lia.
Qed.

(** The block of the next piece. *)
Lemma wp_ap_block tot din s' k (Q : Z * dinode -> mkfs -> Prop) : appending tot din s' -> (tot < length bs)%nat -> k = (len + Z.of_nat tot) / BSIZE ->
  (forall s2 din2, core s2 (<[i := mkEntry din2 (k + 1) (e_c e ++ take tot bs)]> fs) -> same_head (e_di e) din2 -> meta_same (fs_img s) (fs_img s2) -> freeinode s2 = freeinode s ->
     Q (da (fs_img s2) din2 k, din2) s2) ->
  wp (iappend_block io_error k din) s' Q.
Proof.
  intros Ha Htot -> HQ. change BSIZE with 1024 in *. pose proof (lookup_lt_Some _ _ _ Hi) as Hlt. set (off := len + Z.of_nat tot). destruct Ha as [A1 A2 A3 A4].
  set (e1 := mkEntry din (ceil (len + Z.of_nat tot)) (e_c e ++ take tot bs)) in *. assert (Hi1 : <[i := e1]> fs !! i = Some e1) by (by apply list_lookup_insert_eq).
  assert (Hoff : 0 <= off) by (unfold off, len; lia). pose proof (ceil_block off Hoff) as Hceil. fold off in A1. change (e_nb e1) with (ceil off) in *.
  destruct (Z.eqb_spec (off mod 1024) 0) as [E|E].
  - rewrite <- Hceil. change (ceil off) with (e_nb e1) at 1. change din with (e_di e1) at 1. assert (Hk : ceil off + 1 <= ceil total).
    { unfold total, ceil, off in *. pose proof (Z.div_mod (len + Z.of_nat tot) 1024 ltac:(lia)). rewrite Hceil in *. apply Z.div_le_lower_bound; lia. }
    assert (Hcm : ceil total <= MAXFILE) by (unfold ceil; change MAXFILE with 268 in *; apply Z.lt_succ_r, Z.div_lt_upper_bound; lia).
    apply (wp_block_new s' (<[i := e1]> fs) i e1); [done|done|change (e_nb e1) with (ceil off); lia| |].
    + assert (Hap : appending tot din s') by done. rewrite (ap_free tot din s' Hap). fold off. change (e_nb e1) with (ceil off). pose proof (cost_mono _ _ Hk). lia.
    + intros s2 din2 x [G1 G2 G3 G4 G5]. rewrite list_insert_insert_eq in G1. rewrite G3. change (e_nb e1) with (ceil off) in *. rewrite Hceil in *. apply HQ; [done|by eapply same_head_trans| |congruence].
      intros b Hb. rewrite G4 by done. by apply A3.
  - change din with (e_di e1) at 1. apply (wp_block_old s' (<[i := e1]> fs) i e1); [done|done|change (e_nb e1) with (ceil off); rewrite Hceil; fold off; pose proof (Z.div_pos off 1024); lia|].
    change (e_di e1) with din. fold off in HQ. rewrite <- Hceil in HQ. by apply HQ.
Qed.

(** The piece is written. *)
Lemma ap_step tot s2 din2 n1 : let off := len + Z.of_nat tot in let k := off / BSIZE in
  core s2 (<[i := mkEntry din2 (k + 1) (e_c e ++ take tot bs)]> fs) -> same_head (e_di e) din2 -> meta_same (fs_img s) (fs_img s2) -> freeinode s2 = freeinode s ->
  (0 < n1)%nat -> (tot + n1 <= length bs)%nat -> off + Z.of_nat n1 <= (k + 1) * BSIZE ->
  let x := da (fs_img s2) din2 k in
  0 <= x < FSSIZE /\ appending (tot + n1) din2 (set_img (<[Z.to_nat x := splice (blk_of (fs_img s2) x) (Z.to_nat (off - k * BSIZE)) (take n1 (drop tot bs))]> (fs_img s2)) s2).
Proof.
  intros off k Hc Hh Hm Hn Hn1 Hle Hup x. pose proof (lookup_lt_Some _ _ _ Hi) as Hlt. change BSIZE with 1024 in *.
  set (e2 := mkEntry din2 (k + 1) (e_c e ++ take tot bs)) in *. assert (Hi2 : <[i := e2]> fs !! i = Some e2) by (by apply list_lookup_insert_eq).
  pose proof (co_file _ _ Hc i e2 Hi2) as Hf. cbn [e2 e_di e_nb e_c] in Hf. pose proof (co_hi _ _ Hc) as Hhi. pose proof (co_img _ _ Hc) as Him.
  assert (Hoff : 0 <= off) by (unfold off, len; lia). pose proof (Z.div_mod off 1024 ltac:(lia)) as Hdm. pose proof (Z.mod_pos_bound off 1024 ltac:(lia)) as Hmod. fold k in Hdm.
  assert (Hk0 : 0 <= k) by (apply Z.div_pos; lia). pose proof (fa_in _ _ _ _ _ Hf k ltac:(lia)) as Hx. fold x in Hx. assert (Hxr : 0 <= x < FSSIZE) by (change nmeta with 46 in *; lia). split; [done|].
  set (ch := take n1 (drop tot bs)). assert (Hch : length ch = n1) by (unfold ch; rewrite length_take, length_drop; lia).
  assert (Hcl : length (e_c e ++ take tot bs) = Z.to_nat off) by (rewrite length_app, length_take; unfold off, len; lia).
  destruct (write_last (fs_img s2) (freeblock s2) din2 (k + 1) (e_c e ++ take tot bs) ch) as [W1 W2]; [done|done|lia|lia|change BSIZE with 1024; rewrite Hcl; lia|change BSIZE with 1024; rewrite Hcl, Hch; lia|].
  replace (k + 1 - 1) with k in * by lia. fold x in W1, W2. change BSIZE with 1024 in *. rewrite Hcl, Z2Nat.id in W1, W2 by lia.
  destruct (blk_ok (fs_img s2) x Him) as [L1 L2]. change BSIZE with 1024 in *.
  assert (Hspl : (Z.to_nat (off - k * 1024) + length ch <= length (blk_of (fs_img s2) x))%nat) by (rewrite L1, Hch; lia).
  set (img' := <[Z.to_nat x := splice (blk_of (fs_img s2) x) (Z.to_nat (off - k * 1024)) ch]> (fs_img s2)) in *.
  assert (Him' : img_ok img').
  { apply img_put; [done|by rewrite length_splice|]. apply splice_bytes; [done|]. apply Forall_take, Forall_drop, Hbs. }
  split; cbn [fs_img set_img freeinode]; [|done| |done].
  - assert (Ec : ceil (len + Z.of_nat (tot + n1)) = k + 1) by (replace (len + Z.of_nat (tot + n1)) with (off + Z.of_nat n1) by (unfold off; lia); apply ceil_in; [lia|lia|fold k; lia]).
    rewrite Ec. assert (Et : e_c e ++ take (tot + n1) bs = (e_c e ++ take tot bs) ++ ch) by (unfold ch; by rewrite <- app_assoc, take_take_drop). rewrite Et.
    rewrite <- (list_insert_insert_eq fs i _ e2). apply (core_upd s2 (<[i := e2]> fs) i e2); [done|done|done|lia| |done| |cbn; lia].
    + intros b Hb Hno _. unfold img'. rewrite blk_put, decide_False; [done| |done|done|done]. intros ->. apply Hno. left. exists k. cbn. split; [lia|done].
    + intros b Hb. left. apply W2. exact Hb.
  - intros b Hb. unfold img'. rewrite blk_put, decide_False; [by apply Hm|change nmeta with 46 in *; lia|done|done|lia].
Qed.

Lemma wp_iappend_loop (Q : Z * dinode -> mkfs -> Prop) : (forall s' din, appending (length bs) din s' -> Q (total, din) s') ->
  wp (loop (length bs + 1) (iappend_body io_error) (bs, len, e_di e)) s Q.
Proof.
  intros HQ. assert (Hmx : total < 2 ^ 31) by (change (MAXFILE * BSIZE) with 274432 in *; lia). apply (wp_loop (fun '(p, off, din) s' => exists tot, (tot <= length bs)%nat /\ p = drop tot bs /\ off = len + Z.of_nat tot /\ appending tot din s') (fun '(p, _, _) => length p)).
  - intros [[p off] din] s' (tot & Htot & -> & -> & Ha). unfold iappend_body. rewrite length_drop. destruct (Z.ltb_spec 0 (Z.of_nat (length bs - tot))) as [Hlt|Hge].
    2:{ wp_step. assert (tot = length bs) as -> by lia. by apply HQ. }
    set (off := len + Z.of_nat tot). assert (Hoff : 0 <= off < total) by (unfold off, total, len; lia). destruct (block_index off MAXFILE) as [Hk Hkb]; [lia|].
    rewrite (proj2 (Z.ltb_lt _ _)) by lia. wp_step. eapply (wp_ap_block tot din s'); [exact Ha|lia|reflexivity|]. intros s2 din2 Hc2 Hh2 Hm2 Hn2. fold off.
    change BSIZE with 1024 in *. pose proof (Z.div_mod off 1024 ltac:(lia)) as Hdm. pose proof (Z.mod_pos_bound off 1024 ltac:(lia)) as Hmod.
    rewrite (u32_small ((off / 1024 + 1) * 1024 - off)) by lia. set (n1 := Z.min (Z.of_nat (length bs - tot)) ((off / 1024 + 1) * 1024 - off)).
    assert (Hn1 : 0 < n1 <= Z.of_nat (length bs - tot) /\ off + n1 <= (off / 1024 + 1) * 1024) by (unfold n1; lia).
    destruct (ap_step tot s2 din2 (Z.to_nat n1)) as [Hx Hap]; change BSIZE with 1024; [done|done|done|done|lia|lia|fold off; lia|]. fold off in Hx, Hap. change BSIZE with 1024 in *.
    wp_step. apply wp_rsect; [exact (co_img _ _ Hc2)|done|]. wp_step. apply wp_wsect; [exact (co_img _ _ Hc2)|done|]. wp_step. split; [|rewrite !length_drop; lia].
    exists (tot + Z.to_nat n1)%nat. split; [lia|]. split; [by rewrite drop_drop|]. split; [rewrite u32_small by lia; unfold off; lia|]. exact Hap.
  - exists 0%nat. split; [lia|]. split; [done|]. split; [lia|]. split; [|apply same_head_refl; apply (fa_len _ _ _ _ _ (co_file _ _ (wh_core _ _ Hw) i e Hi))|done|done].
    rewrite take_0, app_nil_r, Z.add_0_r. unfold len. rewrite <- (ia_nb _ _ _ (wh_inodes _ _ Hw i e Hi)). rewrite entry_eta, list_insert_id by done. by destruct Hw.
  - lia.
Qed.

Lemma file_addrs img hi di nb c : file_at img hi di nb c -> hi <= FSSIZE -> Forall (fun a => 0 <= a < 2 ^ 32) (di_addrs di).
Proof.
  intros Hf Hh. pose proof (fa_len _ _ _ _ _ Hf) as Hl. apply Forall_lookup_2. intros k a Ha. pose proof (lookup_lt_Some _ _ _ Ha) as Hk. rewrite Hl in Hk. change FSSIZE with 2000 in *.
  destruct (decide (k = 12)%nat) as [->|Hk'].
  - assert (E : ind di = a) by (change (default 0 (di_addrs di !! 12%nat) = a); by rewrite Ha). pose proof (fa_ind _ _ _ _ _ Hf) as Hx. rewrite E in Hx. change nmeta with 46 in *. destruct (_ <? _); lia.
  - assert (E : da img di (Z.of_nat k) = a).
    { unfold da, daddr. rewrite (proj2 (Z.ltb_lt _ _)) by (change NDIRECT with 12; lia). rewrite Nat2Z.id. change (default 0 (di_addrs di !! k) = a). by rewrite Ha. }
    destruct (Z.lt_ge_cases (Z.of_nat k) nb) as [Hn|Hn]; [pose proof (fa_in _ _ _ _ _ Hf (Z.of_nat k) ltac:(lia)); change nmeta with 46 in *; lia|].
    pose proof (fa_out _ _ _ _ _ Hf (Z.of_nat k) ltac:(change MAXFILE with 268; lia)). lia.
Qed.

Lemma whole_len : len < 2 ^ 31 /\ di_size (e_di e) = len.
Proof. split; [change (MAXFILE * BSIZE) with 274432 in *; unfold total, len in *; lia|]. by destruct (wh_inodes _ _ Hw i e Hi). Qed.

(** The size of an inode does not matter to its blocks. *)
Lemma core_size s' din nb c n : core s' (<[i := mkEntry din nb c]> fs) -> core s' (<[i := mkEntry (set_size n din) nb c]> fs).
Proof.
  intros Hc. pose proof (lookup_lt_Some _ _ _ Hi) as Hlt. assert (Hi1 : <[i := mkEntry din nb c]> fs !! i = Some (mkEntry din nb c)) by (by apply list_lookup_insert_eq).
  pose proof (co_file _ _ Hc i _ Hi1) as Hf. rewrite <- (list_insert_insert_eq fs i _ (mkEntry din nb c)). replace s' with (mkMkfs (fs_img s') (freeinode s') (freeblock s') (fs_sb s')) by (by destruct s').
  pose proof (co_hi _ _ Hc). apply (core_upd s' _ i (mkEntry din nb c)); [done|done|by destruct Hc|lia|done| |intros b Hb; by left|cbn; lia].
  destruct Hf as [F1 F2 F3 F4 F5 F6 F7 F8 F9]. by split.
Qed.

Lemma wp_iappend (Q : unit -> mkfs -> Prop) :
  (forall s' di', whole s' (<[i := mkEntry di' (ceil total) (e_c e ++ bs)]> fs) -> di_type di' = di_type (e_di e) -> di_nlink di' = di_nlink (e_di e) -> Q tt s') ->
  wp (iappend io_error (inum_of i) bs) s Q.
Proof.
  intros HQ. pose proof (lookup_lt_Some _ _ _ Hi) as Hlt. destruct whole_len as [Hl1 Hl2]. assert (Hl0 : 0 <= len) by (unfold len; lia). unfold iappend. wp_step. apply (wp_rinode s fs i e); [done|done|].
  rewrite Hl2, xint_small by lia. wp_step. apply wp_iappend_loop. intros s' din [A1 A2 A3 A4]. assert (Ht : 0 <= total < 2 ^ 31) by (change (MAXFILE * BSIZE) with 274432 in *; unfold total in *; lia).
  rewrite xint_small by lia. fold total in A1. rewrite firstn_all in A1. pose proof (core_size _ _ _ _ total A1) as Hc.
  set (e1 := mkEntry (set_size total din) (ceil total) (e_c e ++ bs)) in *. assert (Hi1 : <[i := e1]> fs !! i = Some e1) by (by apply list_lookup_insert_eq). pose proof (co_file _ _ Hc i e1 Hi1) as Hf.
  assert (Hlc : Z.of_nat (length (e_c e ++ bs)) = total) by (rewrite length_app; unfold total, len; lia). pose proof (wh_max _ _ Hw) as Hmx.
  change (set_size total din) with (e_di e1). apply (wp_winode s' (<[i := e1]> fs) i e1 (freeinode s)); [done| |done|done|by rewrite length_insert| |exact (eq_sym Hlc)|exact (f_equal ceil (eq_sym Hlc))|].
  - intros j x Hne Hj. rewrite list_lookup_insert_ne in Hj by done. destruct (wh_inodes _ _ Hw j x Hj) as [B1 B2 B3 B4]. split; try done. rewrite A3; [done|].
    pose proof (lookup_lt_Some _ _ _ Hj). pose proof (iblock_range j ltac:(lia)). change nmeta with 46. lia.
  - pose proof (file_addrs _ _ _ _ _ Hf (proj2 (co_hi _ _ Hc))) as Had. destruct (wh_inodes _ _ Hw i e Hi) as [_ (O1 & O2 & O3 & O4 & _) _ _]. destruct A2 as (l & Hll & ->). split_and!; try done; cbn; lia.
  - intros s2 Hc2 Hin2 Hn2 Hs2. apply (HQ s2 (set_size total din)).
    + split; [done|done|by rewrite Hn2, (wh_count _ _ Hw), length_insert|by rewrite length_insert|]. rewrite Hs2, A3 by done. by destruct Hw.
    + by destruct A2 as (l & _ & ->).
    + by destruct A2 as (l & _ & ->).
Qed.
End Append.

(** ** Contents *)

(** The files of an image, by type and contents; the first has number 1. *)
Definition holds s (l : list (Z * list Z)) : Prop :=
  exists fs, whole s fs /\ map (fun e => (di_type (e_di e), e_c e)) fs = l /\ Forall (fun e => di_nlink (e_di e) = 1) fs.

Definition len_cost c : Z := cost (ceil (Z.of_nat (length c))).
(** The data blocks they need. *)
Definition needs (l : list (Z * list Z)) : Z := foldr (fun f n => len_cost f.2 + n) 0 l.

Lemma whole_free s fs : whole s fs -> freeblock s = nmeta + needs (map (fun e => (di_type (e_di e), e_c e)) fs).
Proof.
  intros Hw. rewrite (co_sum _ _ (wh_core _ _ Hw)). f_equal. pose proof (wh_inodes _ _ Hw) as Hi. clear Hw. assert (Hall : Forall (fun e => e_nb e = ceil (Z.of_nat (length (e_c e)))) fs).
  { apply Forall_lookup_2. intros j e Hj. by destruct (Hi j e Hj). }
  clear Hi. induction Hall as [|e fs He Hall IH]; [done|]. cbn. unfold costs, needs in IH. rewrite IH. unfold len_cost. by rewrite He.
Qed.

Lemma needs_insert l i f f' : l !! i = Some f -> needs (<[i := f']> l) = needs l - len_cost f.2 + len_cost f'.2.
Proof.
  revert i. induction l as [|x l IH]; intros [|i] Hi; try done; cbn in *.
  - injection Hi as ->. lia.
  - change (foldr _ 0 (<[i := f']> l)) with (needs (<[i := f']> l)). change (foldr _ 0 l) with (needs l). rewrite (IH i Hi). lia.
Qed.

Lemma needs_app l l' : needs (l ++ l') = needs l + needs l'.
Proof. induction l as [|x l IH]; cbn; [done|]. change (foldr _ 0 (l ++ l')) with (needs (l ++ l')). change (foldr _ 0 l) with (needs l). lia. Qed.

Lemma wp_append s l i t c bs (Q : unit -> mkfs -> Prop) : holds s l -> l !! i = Some (t, c) -> Forall is_byte bs -> Z.of_nat (length c) + Z.of_nat (length bs) <= MAXFILE * BSIZE ->
  nmeta + needs (<[i := (t, c ++ bs)]> l) <= FSSIZE -> (forall s', holds s' (<[i := (t, c ++ bs)]> l) -> Q tt s') -> wp (iappend io_error (inum_of i) bs) s Q.
Proof.
  intros (fs & Hw & El & Hn) Hi Hb Hm Hr HQ. pose proof Hi as Hi2. rewrite <- El, list_lookup_fmap in Hi2. destruct (fs !! i) as [e|] eqn:Ei; [|done]. cbn in Hi2. injection Hi2 as Et Ec.
  apply (wp_iappend s fs i e bs Hw Ei Hb); [by rewrite Ec|..].
  - rewrite (needs_insert l i _ _ Hi) in Hr. cbn in Hr. rewrite (whole_free s fs Hw), El. destruct (wh_inodes _ _ Hw i e Ei) as [_ _ _ Hnb]. rewrite Hnb, Ec. unfold len_cost in Hr. rewrite length_app in Hr.
    replace (Z.of_nat (length c + length bs)) with (Z.of_nat (length c) + Z.of_nat (length bs)) in Hr by lia. lia.
  - intros s' di' Hw' Ht Hnl. apply HQ. eexists. split; [exact Hw'|]. split; [|apply Forall_insert; [done|]; cbn; rewrite Hnl; by eapply (Forall_lookup_1 _ _ i e) in Hn].
    change (map ?f (<[?j := ?x]> fs)) with (f <$> <[j := x]> fs). rewrite list_fmap_insert. change (_ <$> fs) with (map (fun e => (di_type (e_di e), e_c e)) fs). rewrite El. cbn. by rewrite Ht, Et, Ec.
Qed.

(** A file without contents. *)
Definition new_dinode (type : Z) : dinode := mkDinode type 0 0 1 0 (replicate 13 0).

Lemma new_da img type k : da img (new_dinode type) k = 0.
Proof.
  unfold da, daddr. change (ind_addr (ino (new_dinode type))) with 0. cbn [Z.eqb]. destruct (k <? NDIRECT); [|done]. change (i_addrs (ino (new_dinode type))) with (replicate 13 0).
  destruct (lookup _ _) as [x|] eqn:E; [|done]. by apply lookup_replicate in E as [-> _].
Qed.

Lemma core_new s fs type x : core s fs -> core (set_freeinode x s) (fs ++ [mkEntry (new_dinode type) 0 []]).
Proof.
  intros [C1 C2 C3 C4 C5 C6 C7]. assert (Hno : forall b, ~ eowns (fs_img s) (mkEntry (new_dinode type) 0 []) b) by (intros b [(k & Hk & _)|[Hk _]]; cbn in *; [lia|done]).
  split; cbn [set_freeinode fs_img fs_sb freeblock]; try done.
  - intros i e Hi. apply lookup_app_Some in Hi as [Hi|[_ Hi]]; [by apply (C5 i)|]. apply list_lookup_singleton_Some in Hi as [_ <-]. cbn [e_di e_nb e_c]. split; try done; try (intros; lia).
    intros k Hk. apply new_da.
  - intros i j e e' b Hi Hj Hb Hb'. apply lookup_app_Some in Hi as [Hi|[_ Hi]]; [|apply list_lookup_singleton_Some in Hi as [_ <-]; by destruct (Hno b)].
    apply lookup_app_Some in Hj as [Hj|[_ Hj]]; [|apply list_lookup_singleton_Some in Hj as [_ <-]; by destruct (Hno b)]. by apply (C6 i j e e' b).
  - rewrite C7. f_equal. clear. induction fs as [|e fs IH]; [done|]. cbn. unfold costs in IH. by rewrite IH.
Qed.

Lemma wp_ialloc s l type (Q : Z -> mkfs -> Prop) : holds s l -> - 2 ^ 15 <= type < 2 ^ 15 -> Z.of_nat (length l) + 1 < NINODES ->
  (forall s', holds s' (l ++ [(type, [])]) -> Q (inum_of (length l)) s') -> wp (ialloc io_error type) s Q.
Proof.
  intros (fs & Hw & El & Hn) Ht Hm HQ. assert (Hlen : length fs = length l) by (rewrite <- El; by rewrite length_map). unfold ialloc. wp_step. wp_step. rewrite (wh_count _ _ Hw). wp_step. wp_step. wp_step.
  assert (Edi : mkDinode (i16 (xshort type)) 0 0 (i16 (xshort 1)) (xint 0) (replicate 13 0) = new_dinode type) by (unfold xshort; rewrite i16_bytes by done; done). rewrite Edi.
  rewrite u32_small by (unfold inum_of; change NINODES with 200 in *; lia). set (e := mkEntry (new_dinode type) 0 []). change (new_dinode type) with (e_di e).
  assert (Hi : (fs ++ [e]) !! length fs = Some e) by (by apply list_lookup_middle). pose proof (core_new s fs type (inum_of (length fs) + 1) (wh_core _ _ Hw)) as Hc. fold e in Hc.
  apply (wp_winode _ (fs ++ [e]) (length fs) e (inum_of (length fs) + 1)); [done| |done|done|rewrite length_app; cbn; lia| |done|done|].
  - intros j x Hne Hj. apply lookup_app_Some in Hj as [Hj|[Hge Hj]]; [by destruct (wh_inodes _ _ Hw j x Hj)|]. apply list_lookup_singleton_Some in Hj as [Hj _]. lia.
  - split_and!; try (cbn; lia); try done. cbn [e_di e new_dinode di_addrs]. apply Forall_replicate. lia.
  - intros s' Hc' Hin' Hn' Hs'. wp_step. rewrite Hlen. apply HQ. exists (fs ++ [e]). split; [split|split].
    + done.
    + done.
    + rewrite Hn', length_app. unfold inum_of. cbn. lia.
    + rewrite length_app. cbn. lia.
    + rewrite Hs'. by destruct Hw.
    + rewrite map_app, El. done.
    + apply Forall_app. split; [done|]. by constructor.
Qed.

End Routines.
