(* ===== verification/MkfsImage.v ===== *)
(** * The image that mkfs leaves, read by the kernel

    main() of mkfs on any list of files: the theorem says what the kernel's
    file system finds on the image. *)

From S2P Require Import Prelude Spinlock Riscv Mem BufCache Log LogFacts UserIO BlockStore Fs FsAlloc FsBmap FsData Mkfs MkfsFacts.

Implicit Types (img : list (list Z)) (c bs : list Z) (s : mkfs).

(** A file on the command line: its name there, and the pieces read() gave. *)
Abbreviation source := (list Z * list (list Z))%type.

(** The name it gets. *)
Definition short (f : source) : list Z := skip_underscore (shortname f.1).
Definition contents (f : source) : list Z := concat f.2.

(** The directory entries of the files, numbered from [k] (counting from 0). *)
Fixpoint dirents (k : nat) (files : list source) : list Z :=
  match files with
  | [] => []
  | f :: files => dirent_bytes (inum_of k) (short f) ++ dirents (S k) files
  end.
(** The root directory. *)
Definition root_dir (files : list source) : list Z :=
  dirent_bytes ROOTINO [46] ++ dirent_bytes ROOTINO [46; 46] ++ dirents 1 files.

Definition file_list (files : list source) : list (Z * list Z) := map (fun f => (T_FILE, contents f)) files.

(** A file mkfs accepts. *)
Definition good_file (f : source) : Prop :=
  Forall is_byte f.1 /\ SLASH ∉ shortname f.1 /\ Forall (Forall is_byte) f.2 /\ Z.of_nat (length (contents f)) <= MAXFILE * BSIZE.

Lemma dirent_ok inum name : Forall is_byte name -> length (dirent_bytes inum name) = 16%nat /\ Forall is_byte (dirent_bytes inum name).
Proof.
  intros Hn. unfold dirent_bytes. split.
  - rewrite length_app, length_le_bytes, length_take, length_app, length_replicate. change (Z.to_nat DIRSIZ) with 14%nat. lia.
  - apply Forall_app. split; [apply le_bytes_is_byte|]. apply Forall_take, Forall_app. split; [done|]. by apply Forall_replicate.
Qed.

Lemma short_bytes f : Forall is_byte f.1 -> Forall is_byte (short f).
Proof.
  intros Hf. assert (Hs : Forall is_byte (shortname f.1)) by (unfold shortname; case_decide; [by apply Forall_drop|done]).
  unfold short, skip_underscore. destruct (shortname f.1) as [|x l]; [done|]. destruct (x =? 95); [|done]. by inversion Hs.
Qed.

Lemma length_dirents k files : Forall good_file files -> length (dirents k files) = (16 * length files)%nat /\ Forall is_byte (dirents k files).
Proof.
  revert k. induction files as [|f files IH]; intros k Hg; [done|]. apply list.Forall_cons in Hg as [Hf Hg]. cbn [dirents length]. destruct (IH (S k) Hg) as [H1 H2].
  destruct (dirent_ok (inum_of k) (short f)) as [H3 H4]; [apply short_bytes, Hf|]. rewrite length_app, H1, H3. split; [lia|]. by apply Forall_app.
Qed.

Lemma len_cost_mono c c' : (length c <= length c')%nat -> len_cost c <= len_cost c'.
Proof. intros Hl. apply cost_mono, ceil_mono. lia. Qed.

Lemma len_cost_pos c : 0 <= len_cost c.
Proof. unfold len_cost, cost. assert (0 <= ceil (Z.of_nat (length c))) by (apply Z.div_pos; lia). destruct (_ <? _); lia. Qed.

Lemma needs_pos l : 0 <= needs l.
Proof. induction l as [|f l IH]; cbn; [lia|]. change (foldr _ 0 l) with (needs l). pose proof (len_cost_pos f.2). lia. Qed.

(** ** The bitmap *)

Lemma set_bits_spec n : Z.of_nat n <= 8192 ->
  length (set_bits (Z.of_nat n)) = Z.to_nat BSIZE /\ Forall is_byte (set_bits (Z.of_nat n)) /\
  forall k, 0 <= k < 8192 -> bit_free (set_bits (Z.of_nat n)) k = negb (k <? Z.of_nat n).
Proof.
  induction n as [|n IH]; intros Hn.
  - change (set_bits (Z.of_nat 0)) with zero_block. destruct zero_block_ok as [Z1 Z2]. split; [done|]. split; [done|]. intros k Hk. unfold bit_free, bit_byte, zero_block. rewrite (proj2 (Z.ltb_ge _ _)) by lia.
    destruct (lookup _ _) as [x|] eqn:E; [apply lookup_replicate in E as [-> _]|]; done.
  - destruct (IH ltac:(lia)) as (I1 & I2 & I3). assert (E : set_bits (Z.of_nat (S n)) = bit_set (set_bits (Z.of_nat n)) (Z.of_nat n)).
    { unfold set_bits. by rewrite seqZ_S, foldl_app. }
    rewrite E. split; [unfold bit_set; by rewrite length_insert|]. split; [by apply bit_set_bytes|]. intros k Hk. rewrite bit_set_free; [|rewrite I1; change BSIZE with 1024; lia|lia]. case_decide as Ek.
    + subst. by rewrite (proj2 (Z.ltb_lt _ _)) by lia.
    + rewrite I3 by done. f_equal. destruct (Z.ltb_spec k (Z.of_nat n)), (Z.ltb_spec k (Z.of_nat (S n))); lia || done.
Qed.

Section Main.
Variable io_error : Z -> bool.
Hypothesis Hio : forall b, 0 <= b < FSSIZE -> io_error b = false.

(** The pieces of one file go to its end. *)
Lemma wp_pieces s l t c pieces (Q : unit -> mkfs -> Prop) : holds s (l ++ [(t, c)]) -> Forall (Forall is_byte) pieces -> Z.of_nat (length (c ++ concat pieces)) <= MAXFILE * BSIZE ->
  nmeta + needs (l ++ [(t, c ++ concat pieces)]) <= FSSIZE -> (forall s', holds s' (l ++ [(t, c ++ concat pieces)]) -> Q tt s') ->
  wp (foldr (fun piece rest => iappend io_error (inum_of (length l)) piece ;; rest) (ret tt) pieces) s Q.
Proof.
  revert s c. induction pieces as [|p pieces IH]; intros s c Hh Hb Hm Hr HQ.
  { cbn in *. wp_step. apply HQ. by rewrite app_nil_r. }
  apply list.Forall_cons in Hb as [Hp Hb]. cbn [foldr concat] in *. rewrite app_assoc in Hm, Hr, HQ.
  assert (Hl : (l ++ [(t, c)]) !! length l = Some (t, c)) by (by apply list_lookup_middle).
  assert (Ei : forall x : Z * list Z, <[length l := x]> (l ++ [(t, c)]) = l ++ [x]) by (intros x; rewrite insert_app_r_alt by done; by rewrite Nat.sub_diag).
  wp_step. eapply (wp_append io_error Hio s _ (length l) t c p); [exact Hh|exact Hl|done| | |].
  - rewrite !length_app in Hm. lia.
  - rewrite Ei. rewrite !needs_app in *. cbn in *. pose proof (len_cost_mono (c ++ p) ((c ++ p) ++ concat pieces)) as Hc. specialize (Hc ltac:(rewrite !length_app; lia)). lia.
  - intros s' Hs'. rewrite Ei in Hs'. by apply (IH s' (c ++ p)).
Qed.

Lemma wp_add_file s rc l f (Q : unit -> mkfs -> Prop) : let d := dirent_bytes (inum_of (S (length l))) (short f) in
  holds s ((T_DIR, rc) :: l) -> good_file f -> Z.of_nat (length l) + 2 < NINODES -> Z.of_nat (length rc) + 16 <= MAXFILE * BSIZE ->
  nmeta + needs ((T_DIR, rc ++ d) :: l ++ [(T_FILE, contents f)]) <= FSSIZE ->
  (forall s', holds s' ((T_DIR, rc ++ d) :: l ++ [(T_FILE, contents f)]) -> Q tt s') ->
  wp (add_file io_error ROOTINO f.1 (Some f.2)) s Q.
Proof.
  intros d Hh (Hb & Hs & Hp & Hm) Hn Hr Hroom HQ. unfold add_file. rewrite bool_decide_eq_false_2 by done. wp_step. eapply (wp_ialloc io_error Hio); [exact Hh|done|cbn [length]; lia|]. intros s1 H1. cbn [length app] in *.
  assert (Ex : xshort (inum_of (S (length l))) = inum_of (S (length l))).
  { unfold xshort. rewrite le_val_le_bytes. apply Z.mod_small. unfold inum_of. change NINODES with 200 in *. change (256 ^ Z.of_nat 2) with 65536. lia. }
  rewrite Ex. fold (short f). fold d. destruct (dirent_ok (inum_of (S (length l))) (short f)) as [D1 D2]; [by apply short_bytes|]. fold d in D1, D2.
  wp_step. change ROOTINO with (inum_of 0). eapply (wp_append io_error Hio s1 _ 0 T_DIR rc d); [exact H1|done|done|rewrite D1; lia| |].
  - cbn. change (foldr _ 0 (l ++ [(T_FILE, [])])) with (needs (l ++ [(T_FILE, [])])). cbn in Hroom. change (foldr _ 0 (l ++ [(T_FILE, contents f)])) with (needs (l ++ [(T_FILE, contents f)])) in Hroom.
    rewrite needs_app in *. cbn in *. pose proof (len_cost_pos (contents f)). change (len_cost []) with 0. lia.
  - intros s2 H2. cbn [insert list_insert] in H2. change (S (length l)) with (length ((T_DIR, rc ++ d) :: l)).
    apply (wp_pieces s2 ((T_DIR, rc ++ d) :: l) T_FILE [] f.2); [exact H2|done|done|exact Hroom|]. intros s3 H3. by apply HQ.
Qed.

(** All the files of the command line. *)
Lemma wp_files s rc l files (Q : unit -> mkfs -> Prop) : holds s ((T_DIR, rc) :: l) -> Forall good_file files -> Z.of_nat (length l) + Z.of_nat (length files) + 1 < NINODES ->
  Z.of_nat (length rc) + 16 * Z.of_nat (length files) <= MAXFILE * BSIZE ->
  nmeta + needs ((T_DIR, rc ++ dirents (S (length l)) files) :: l ++ file_list files) <= FSSIZE ->
  (forall s', holds s' ((T_DIR, rc ++ dirents (S (length l)) files) :: l ++ file_list files) -> Q tt s') ->
  wp (foldr (fun f rest => add_file io_error ROOTINO (fst f) (snd f) ;; rest) (ret tt) (map (fun f => (f.1, Some f.2)) files)) s Q.
Proof.
  revert s rc l. induction files as [|f files IH]; intros s rc l Hh Hg Hn Hm Hr HQ.
  { cbn in *. wp_step. apply HQ. by rewrite !app_nil_r. }
  apply list.Forall_cons in Hg as [Hf Hg]. cbn [map foldr dirents file_list length fst snd] in *. remember (dirent_bytes (inum_of (S (length l))) (short f)) as d eqn:Ed.
  assert (Hd : length d = 16%nat) by (rewrite Ed; apply dirent_ok, short_bytes, Hf). rewrite app_assoc in Hr, HQ.
  change (l ++ (T_FILE, contents f) :: map _ files) with (l ++ [(T_FILE, contents f)] ++ file_list files) in Hr, HQ. rewrite app_assoc in Hr, HQ.
  wp_step. apply (wp_add_file s rc l f); [done|done|lia|lia| |].
  - rewrite <- Ed. cbn in *. change (foldr _ 0 (l ++ [(T_FILE, contents f)])) with (needs (l ++ [(T_FILE, contents f)])). change (foldr _ 0 ((l ++ [(T_FILE, contents f)]) ++ file_list files)) with (needs ((l ++ [(T_FILE, contents f)]) ++ file_list files)) in Hr.
    rewrite (needs_app (l ++ _)) in Hr. pose proof (needs_pos (file_list files)). pose proof (len_cost_mono (rc ++ d) ((rc ++ d) ++ dirents (S (S (length l))) files)) as Hc. specialize (Hc ltac:(rewrite !length_app; lia)). lia.
  - rewrite <- Ed. intros s1 H1. assert (El : length (l ++ [(T_FILE, contents f)]) = S (length l)) by (rewrite length_app; cbn; lia).
    apply (IH s1 (rc ++ d) (l ++ [(T_FILE, contents f)])); [done|done|rewrite El; lia|rewrite length_app, Hd; lia|by rewrite El|by rewrite El].
Qed.
(** ** The start of main() *)

Lemma wp_zero_image (Q : unit -> mkfs -> Prop) : Q tt (mkMkfs (replicate (Z.to_nat FSSIZE) zero_block) 1 nmeta the_super) ->
  wp (for_range (Z.to_nat FSSIZE) 0 (fun i => wsect io_error i zero_block)) (mkMkfs [] 1 nmeta the_super) Q.
Proof.
  intros HQ. eapply wp_mono; [apply (wp_for_range (fun i s => s = mkMkfs (replicate (Z.to_nat i) zero_block) 1 nmeta the_super)); [done|]|].
  - intros i s Hi ->. unfold wsect. rewrite Hio by lia. wp_step. unfold set_img. cbn [fs_img freeinode freeblock fs_sb]. f_equal. unfold put_sector. rewrite length_replicate.
    rewrite decide_False by lia. rewrite Nat.sub_diag. cbn [replicate app]. replace (Z.to_nat (i + 1)) with (Z.to_nat i + 1)%nat by lia. by rewrite replicate_add.
  - intros [] s' Hs. replace (0 + Z.of_nat (Z.to_nat FSSIZE)) with FSSIZE in Hs by done. by rewrite Hs.
Qed.

Lemma zero_image_blk b : blk_of (replicate (Z.to_nat FSSIZE) zero_block) b = zero_block.
Proof. unfold blk_of. destruct (lookup _ _) as [d|] eqn:E; [|done]. apply lookup_replicate in E as [-> _]. done. Qed.

Lemma zero_image_ok : img_ok (replicate (Z.to_nat FSSIZE) zero_block).
Proof. split; [apply length_replicate|]. apply Forall_replicate. apply zero_block_ok. Qed.

Lemma super_ok : length (splice zero_block 0 (super_bytes the_super)) = Z.to_nat BSIZE /\ Forall is_byte (splice zero_block 0 (super_bytes the_super)).
Proof.
  split; [rewrite length_splice; [apply zero_block_ok|]; destruct zero_block_ok as [-> _]; change (length (super_bytes the_super)) with 32%nat; change BSIZE with 1024; lia|].
  apply splice_bytes; [apply zero_block_ok|]. unfold super_bytes. cbn [map concat]. repeat (apply Forall_app; split; [apply le_bytes_is_byte|]). constructor.
Qed.

Lemma start_holds : holds (mkMkfs (<[Z.to_nat 1 := splice zero_block 0 (super_bytes the_super)]> (replicate (Z.to_nat FSSIZE) zero_block)) 1 nmeta the_super) [].
Proof.
  assert (Hb : forall x, 0 <= x -> blk_of (<[Z.to_nat 1 := splice zero_block 0 (super_bytes the_super)]> (replicate (Z.to_nat FSSIZE) zero_block)) x = if decide (x = 1) then splice zero_block 0 (super_bytes the_super) else zero_block).
  { intros x Hx. rewrite blk_put; [|apply zero_image_ok|done|done]. by rewrite zero_image_blk. }
  exists []. split; [|done]. split; cbn [fs_img freeinode length].
  - split; cbn [fs_img fs_sb freeblock]; try done.
    + apply img_put; [apply zero_image_ok|apply super_ok..].
    + intros b Hbr. change nmeta with 46 in *. rewrite Hb, decide_False by lia. done.
  - done.
  - done.
  - done.
  - by rewrite Hb, decide_True by lia.
Qed.

(** ** The end of main() *)

Lemma wp_round s rc l (Q : unit -> mkfs -> Prop) : let len := Z.of_nat (length rc) in let size := (len / 1024 + 1) * 1024 in
  holds s ((T_DIR, rc) :: l) -> len mod 1024 <> 0 -> len <= MAXFILE * BSIZE ->
  (forall s', holds s' ((T_DIR, rc ++ replicate (Z.to_nat (size - len)) 0) :: l) -> freeblock s' = freeblock s -> Q tt s') ->
  wp (let! din := rinode io_error ROOTINO in winode io_error ROOTINO (set_size (xint (u32 ((xint (di_size din) / BSIZE + 1) * BSIZE))) din)) s Q.
Proof.
  intros len size (fs & Hw & El & Hn) Hmod Hmax HQ. destruct fs as [|e fs]; [done|]. cbn [map] in El. injection El as Et Ec El. apply list.Forall_cons in Hn as [Hn0 Hn].
  pose proof (wh_inodes _ _ Hw 0%nat e eq_refl) as [I1 I2 I3 I4]. pose proof (wh_core _ _ Hw) as Hc. rewrite Ec in *. fold len in I3, I4.
  pose proof (Z.div_mod len 1024 ltac:(lia)) as Hdm. pose proof (Z.mod_pos_bound len 1024 ltac:(lia)) as Hmb. change (MAXFILE * BSIZE) with 274432 in *. assert (Hl0 : 0 <= len) by (unfold len; lia).
  assert (Hnb : e_nb e = len / 1024 + 1) by (rewrite I4, ceil_block by done; by rewrite (proj2 (Z.eqb_neq _ _))).
  wp_step. change ROOTINO with (inum_of 0). apply (wp_rinode io_error Hio s (e :: fs) 0 e _ Hw eq_refl). change BSIZE with 1024. rewrite I3, (xint_small len) by lia. fold size. assert (Hsz : 0 < size < 2 ^ 31) by (unfold size; lia).
  rewrite u32_small, xint_small by lia. set (c' := rc ++ replicate (Z.to_nat (size - len)) 0). set (e' := mkEntry (set_size size (e_di e)) (e_nb e) c').
  assert (Hc' : Z.of_nat (length c') = size) by (unfold c'; rewrite length_app, length_replicate; unfold size, len in *; lia).
  pose proof (co_file _ _ Hc 0%nat e eq_refl) as Hf. rewrite Ec in Hf.
  assert (Hce : core s (e' :: fs)).
  { change (e' :: fs) with (<[0%nat := e']> (e :: fs)). replace s with (mkMkfs (fs_img s) (freeinode s) (freeblock s) (fs_sb s)) by (by destruct s). pose proof (co_hi _ _ Hc).
    apply (core_upd s (e :: fs) 0 e); [done|done|by destruct Hc|lia|done| |intros b Hb; by left|cbn; lia]. destruct Hf as [F1 F2 F3 F4 F5 F6 F7 F8 F9]. split; try done; cbn [e' e_di e_nb e_c].
    - rewrite Hc', Hnb. change BSIZE with 1024. unfold size. lia.
    - intros o Ho. transitivity (default 0 (rc !! Z.to_nat o)); [by apply F9|]. unfold c'. destruct (decide (Z.to_nat o < length rc)%nat); [by rewrite lookup_app_l|].
      rewrite lookup_app_r, lookup_ge_None_2 by lia. destruct (replicate _ 0 !! _) as [x|] eqn:E; [|done]. by apply lookup_replicate in E as [-> _]. }
  change (set_size size (e_di e)) with (e_di e'). apply (wp_winode io_error Hio s (e' :: fs) 0 e' (freeinode s)); [done| |done|done|by destruct Hw| |exact (eq_sym Hc')| |].
  - intros j x Hne Hj. destruct j as [|j]; [done|]. by apply (wh_inodes _ _ Hw (S j)).
  - destruct I2 as (O1 & O2 & O3 & O4 & O5 & O6 & O7). split_and!; try done; cbn; lia.
  - change (e_nb e = ceil (Z.of_nat (length c'))). rewrite Hc', Hnb. symmetry. unfold ceil, size. symmetry. apply (Z.div_unique _ _ _ 1023); lia.
  - intros s' Hc2 Hin2 Hn2 Hs2. apply HQ.
    + exists (e' :: fs). split; [split; [done|done|by rewrite Hn2, (wh_count _ _ Hw)|by destruct Hw|by rewrite Hs2; destruct Hw]|]. split; [cbn; by rewrite Et, El|]. by constructor.
    + rewrite (co_sum _ _ Hc2), (co_sum _ _ Hc). cbn. lia.
Qed.
End Main.

(** ** The image in the kernel's terms *)

(** The blocks of the disk are those of the image. *)
Definition sees img (v : tview) : Prop := forall b, 0 <= b < FSSIZE -> tcontents v b = blk_of img b.
Definition disk_inode img (inum : Z) : dinode := get_dinode (blk_of img (IBLOCK inum the_super)) (dinode_off inum).

(** Inode [inum] is a file of this type and contents, for which the kernel's
    theorems about files hold. *)
Definition on_image img (inum type : Z) c : Prop :=
  di_type (disk_inode img inum) = type /\ di_nlink (disk_inode img inum) = 1 /\ di_size (disk_inode img inum) = Z.of_nat (length c) /\
  forall v ip, sees img v -> i_di ip = disk_inode img inum -> inode_ok nmeta the_super v ip /\ fbytes v ip 0 (Z.of_nat (length c)) = c.

Lemma view_da img hi di nb c v ip k : file_at img hi di nb c -> hi <= FSSIZE -> sees img v -> i_di ip = di -> daddr v ip k = da img di k.
Proof.
  intros Hf Hh Hs <-. unfold da, daddr. change (ind_addr (ino (i_di ip))) with (ind_addr ip). change (i_addrs (ino (i_di ip))) with (i_addrs ip). destruct (k <? NDIRECT); [done|]. destruct (Z.eqb_spec (ind_addr ip) 0) as [|Hne]; [done|].
  cbn [tcontents img_view]. rewrite Hs; [done|]. pose proof (fa_ind _ _ _ _ _ Hf) as Hi. change (ind (i_di ip)) with (ind_addr ip) in Hi. change nmeta with 46 in *. destruct (_ <? _); lia.
Qed.

Lemma image_inode img hi di nb c v ip : img_ok img -> file_at img hi di nb c -> di_size di = Z.of_nat (length c) -> hi <= FSSIZE -> ceil (Z.of_nat (length c)) = nb -> sees img v ->
  (forall b, 0 <= b < hi -> used the_super v b = true) -> i_di ip = di -> inode_ok nmeta the_super v ip /\ fbytes v ip 0 (Z.of_nat (length c)) = c.
Proof.
  intros Him Hf Hsz Hh Hnb Hs Hu Hd. pose proof Hf as [F1 F2 F3 F4 F5 F6 F7 F8 F9]. assert (Hda : forall k, daddr v ip k = da img di k) by (intros k; by eapply view_da). change nmeta with 46 in *.
  assert (Hblk : forall b, 46 <= b < hi -> data_block nmeta the_super v b) by (intros b Hb; split; [change nmeta with 46; change (sb_size the_super) with 2000; change FSSIZE with 2000 in *; lia|apply Hu; lia]).
  assert (Hk : forall k, 0 <= k < MAXFILE -> da img di k <> 0 -> 0 <= k < nb) by (intros k Hk Hne; destruct (Z.lt_ge_cases k nb); [lia|]; specialize (F4 k ltac:(lia)); lia).
  assert (Hind : ind_addr ip = ind di) by (rewrite <- Hd; done). split; [split; [split|..]|].
  - unfold i_addrs. by rewrite Hd.
  - intros Hne. rewrite Hind in *. apply Hblk. destruct (_ <? _); [done|lia].
  - intros k Hk0 Hne. rewrite Hda, Hind in *. specialize (Hk k Hk0 Hne). split; [apply Hblk, F3, Hk|by apply F6].
  - intros j k Hj0 Hk0 Hne E. rewrite !Hda in *. apply F7; [by apply Hk|apply Hk; [done|congruence]|done].
  - unfold i_size. rewrite Hd, Hsz. split; [lia|]. change BSIZE with 1024 in *. change MAXFILE with 268 in *. lia.
  - intros k Hk0 Hlt. unfold i_size in Hlt. rewrite Hd, Hsz in Hlt. rewrite Hda. change BSIZE with 1024 in *. pose proof (F3 k ltac:(lia)). lia.
  - apply list_eq. intros j. unfold fbytes. rewrite list_lookup_fmap. destruct (decide (j < length c)%nat) as [Hj|Hj].
    + rewrite lookup_seqZ_lt by lia. cbn. replace (0 + Z.of_nat j) with (Z.of_nat j) by lia. assert (E : fbyte v ip (Z.of_nat j) = default 0 (c !! Z.to_nat (Z.of_nat j))).
      { rewrite <- F9 by lia. unfold fbyte. rewrite Hda. fold (da img di (Z.of_nat j / BSIZE)). cbn [tcontents img_view]. destruct (block_index (Z.of_nat j) nb) as [Hb _]; [lia|]. pose proof (F3 _ Hb). rewrite Hs; [done|lia]. }
      rewrite E, Nat2Z.id. destruct (lookup_lt_is_Some_2 c j Hj) as [x Hx]. by rewrite Hx.
    + rewrite lookup_seqZ_ge, lookup_ge_None_2 by lia. done.
Qed.

(** ** What is left when main() has written the bitmap *)

Record image_of img (l : list (Z * list Z)) : Prop := {
  io_len : Z.of_nat (length img) = FSSIZE;
  io_super : get_super (blk_of img 1) = the_super;
  io_layout : forall v, sees img v -> layout_ok nmeta the_super v;
  io_used : forall v b, sees img v -> 0 <= b < FSSIZE -> used the_super v b = (b <? nmeta + needs l);
  io_files : forall i t c, l !! i = Some (t, c) -> on_image img (inum_of i) t c;
  io_apart : forall v i j ip ip' k k', sees img v -> (i < length l)%nat -> (j < length l)%nat -> i_di ip = disk_inode img (inum_of i) -> i_di ip' = disk_inode img (inum_of j) ->
    0 <= k < MAXFILE -> 0 <= k' < MAXFILE -> daddr v ip k <> 0 -> daddr v ip k = daddr v ip' k' -> i = j
}.

Lemma the_bblock b : 0 <= b < FSSIZE -> BBLOCK b the_super = 45 /\ b mod BPB = b.
Proof. intros Hb. unfold BBLOCK. change (sb_bmapstart the_super) with 45. change BPB with 8192. change FSSIZE with 2000 in *. rewrite Z.div_small, Z.mod_small by lia. done. Qed.

Lemma get_super_bytes : get_super (splice zero_block 0 (super_bytes the_super)) = the_super.
Proof. vm_compute. reflexivity. Qed.

Lemma finished s fs : whole s fs -> Forall (fun e => di_nlink (e_di e) = 1) fs ->
  image_of (<[Z.to_nat 45 := set_bits (freeblock s)]> (fs_img s)) (map (fun e => (di_type (e_di e), e_c e)) fs).
Proof.
  intros Hw Hn. pose proof (wh_core _ _ Hw) as Hc. pose proof (co_hi _ _ Hc) as Hh. pose proof (co_img _ _ Hc) as Him. change nmeta with 46 in *. change FSSIZE with 2000 in *.
  destruct (set_bits_spec (Z.to_nat (freeblock s))) as (B1 & B2 & B3); [lia|]. rewrite Z2Nat.id in * by lia. set (img := <[Z.to_nat 45 := set_bits (freeblock s)]> (fs_img s)).
  assert (Hi : img_ok img) by (by apply img_put). assert (Hb : forall x, 0 <= x -> blk_of img x = if decide (x = 45) then set_bits (freeblock s) else blk_of (fs_img s) x) by (intros x Hx; by apply blk_put).
  assert (Hc2 : core (mkMkfs img (freeinode s) (freeblock s) (fs_sb s)) fs).
  { apply core_meta; [done|done|]. intros b Hbm. change nmeta with 46 in *. rewrite Hb, decide_False by lia. done. }
  assert (Hu : forall v b, sees img v -> 0 <= b < 2000 -> used the_super v b = (b <? freeblock s)).
  { intros v b Hs Hbr. unfold used. destruct (the_bblock b Hbr) as [-> ->]. rewrite Hs, Hb, decide_True, B3 by (done || lia). apply negb_involutive. }
  assert (Hin : forall i e, fs !! i = Some e -> disk_inode img (inum_of i) = e_di e).
  { intros i e Hie. unfold disk_inode. pose proof (lookup_lt_Some _ _ _ Hie). pose proof (wh_max _ _ Hw). pose proof (iblock_range i ltac:(lia)). rewrite Hb, decide_False by lia. by destruct (wh_inodes _ _ Hw i e Hie). }
  split.
  - rewrite (im_len _ Hi). done.
  - rewrite Hb, decide_False by lia. rewrite (wh_super _ _ Hw). apply get_super_bytes.
  - intros v Hs. split; [split| |..].
    + done.
    + done.
    + intros b Hbr. change (sb_size the_super) with 2000 in *. destruct (the_bblock b Hbr) as [-> _]. done.
    + done.
    + intros b Hbr. change (sb_size the_super) with 2000 in *. destruct (the_bblock b Hbr) as [-> _]. done.
    + intros b Hbr. change nmeta with 46 in *. rewrite Hu by (done || lia). apply Z.ltb_lt. lia.
  - intros v b Hs Hbr. rewrite Hu by done. by rewrite (whole_free s fs Hw).
  - intros i t c Hl. rewrite list_lookup_fmap in Hl. destruct (fs !! i) as [e|] eqn:Hie; [|done]. cbn in Hl. injection Hl as <- <-. destruct (wh_inodes _ _ Hw i e Hie) as [_ _ I3 I4].
    unfold on_image. rewrite (Hin i e Hie). split; [done|]. split; [by eapply (Forall_lookup_1 _ _ i e) in Hn|]. split; [done|]. intros v ip Hs Hip.
    apply (image_inode img (freeblock s) (e_di e) (e_nb e)); [done|by apply (co_file _ _ Hc2 i e)|done|change FSSIZE with 2000; lia|done|done| |done]. intros b Hbr. rewrite Hu by (done || lia). apply Z.ltb_lt. lia.
  - intros v i j ip ip' k k' Hs Hil Hjl Hip Hip' Hk Hk' Hne E. rewrite length_map in Hil, Hjl. destruct (lookup_lt_is_Some_2 fs i Hil) as [e Hie]. destruct (lookup_lt_is_Some_2 fs j Hjl) as [e' Hje].
    rewrite (Hin i e Hie) in Hip. rewrite (Hin j e' Hje) in Hip'. pose proof (co_file _ _ Hc2 i e Hie) as Hf. pose proof (co_file _ _ Hc2 j e' Hje) as Hf'. cbn [fs_img freeblock] in *.
    rewrite (view_da img (freeblock s) (e_di e) (e_nb e) (e_c e) v ip) in Hne, E by (done || (change FSSIZE with 2000; lia)).
    rewrite (view_da img (freeblock s) (e_di e') (e_nb e') (e_c e') v ip') in E by (done || (change FSSIZE with 2000; lia)).
    apply (co_sep _ _ Hc2 i j e e' (da img (e_di e) k) Hie Hje); left; [exists k|exists k']; (split; [|done]).
    + destruct (Z.lt_ge_cases k (e_nb e)); [lia|]. rewrite (fa_out _ _ _ _ _ Hf) in Hne by lia. done.
    + destruct (Z.lt_ge_cases k' (e_nb e')); [lia|]. rewrite (fa_out _ _ _ _ _ Hf') in E by lia. done.
Qed.

(** ** The kernel reads a file of the image *)

Section Kernel.
Context {T U : Type} `{LogOps T} `{UserIO U} (dv : Z) (R : T -> tview -> Prop) `{!LogStore T dv R}.
Implicit Types st : fstate T U.

(** A kernel with this disk, no transaction under way, and inode [inum] loaded
    in entry [i] of its table. *)
Record loaded img (inum i : Z) (v : tview) (ip : inode) st : Prop := {
  ld_store : R (ft st) v;
  ld_disk : sees img v;
  ld_super : f_sb st = the_super;
  ld_rest : at_rest v;
  ld_held : theld v = ∅;
  ld_entry : inodes st !! Z.to_nat i = Some ip;
  ld_dev : i_dev ip = dv;
  ld_inode : i_di ip = disk_inode img inum
}.

Lemma kernel_reads img l k t c i v ip st ud dst off n got : image_of img l -> l !! k = Some (t, c) -> loaded img (inum_of k) i v ip st ->
  0 <= off <= Z.of_nat (length c) -> 0 <= n -> off + n < 2 ^ 32 -> 0 <= dst < 2 ^ 64 -> got [] (fu st) -> accepts_upto got ud dst (Z.min n (Z.of_nat (length c) - off)) ->
  wp (readi i ud dst off n) st (fun r st' => r = Z.min n (Z.of_nat (length c) - off) /\ got (take (Z.to_nat n) (drop (Z.to_nat off) c)) (fu st')).
Proof.
  intros Hi Hl [L1 L2 L3 L4 L5 L6 L7 L8] Hoff Hn Hov Hdst Hg Hacc. destruct (io_files _ _ Hi k t c Hl) as (_ & _ & Hsz & Hk). destruct (Hk v ip L2 L8) as [Hok Hfb].
  assert (Es : i_size ip = Z.of_nat (length c)) by (unfold i_size; by rewrite L8).
  eapply (wp_readi dv R nmeta st v i ip); [exact L1|rewrite L3; by apply (io_layout _ _ Hi)|by rewrite L3|exact L4|exact L5|exact L6|exact L7|by rewrite Es|exact Hn|exact Hov|exact Hdst|exact Hg|by rewrite Es|].
  rewrite Es. intros t' u' _ Hg'. split; [done|]. cbn [fu with_tu]. replace (take (Z.to_nat n) (drop (Z.to_nat off) c)) with (fbytes v ip off (Z.min n (Z.of_nat (length c) - off))); [done|].
  assert (Hsplit : c = fbytes v ip 0 off ++ fbytes v ip off (Z.of_nat (length c) - off)) by (rewrite <- Hfb at 1; rewrite <- (fbytes_app v ip 0 off) by lia; f_equal; lia).
  rewrite Hsplit at 2. rewrite drop_app_length' by (rewrite length_fbytes; lia). destruct (Z.le_ge_cases n (Z.of_nat (length c) - off)).
  - rewrite Z.min_l by done. replace (Z.of_nat (length c) - off) with (n + (Z.of_nat (length c) - off - n)) by lia. rewrite fbytes_app by lia. by rewrite take_app_length' by (rewrite length_fbytes; lia).
  - rewrite Z.min_r by done. rewrite take_ge; [done|]. rewrite length_fbytes. lia.
Qed.

(** C11: mkfs builds a file system, and the kernel reads from it what was put
    in.  With fewer than 198 files that fit the disk, whose entries with "."
    and ".." do not fill the last block of the root directory (the number of
    entries is no multiple of 64: see [root_hole] for that case), and a host
    that does not fail, mkfs finishes.  Its image has the superblock the kernel reads, a bitmap with
    exactly the blocks in use, a root directory with "." and ".." and an entry
    for each file, filled up with empty entries, and each file, in order, with
    the contents given; no block belongs to two files.  A kernel with this
    disk and one of these inodes loaded gets the bytes of that file from
    readi(), at any offset. *)
Theorem mkfs_then_kernel (io_error : Z -> bool) (files : list source) :
  (forall b, 0 <= b < FSSIZE -> io_error b = false) -> Forall good_file files -> Z.of_nat (length files) + 2 < NINODES -> (Z.of_nat (length files) + 2) mod 64 <> 0 ->
  nmeta + needs ((T_DIR, root_dir files) :: file_list files) <= FSSIZE ->
  let len := 16 * (Z.of_nat (length files) + 2) in
  let l := (T_DIR, root_dir files ++ replicate (Z.to_nat ((len / 1024 + 1) * 1024 - len)) 0) :: file_list files in
  wp (mkfs_main io_error (map (fun f => (f.1, Some f.2)) files)) mkfs_start (fun _ s => image_of (fs_img s) l /\
    forall k t c i v ip st ud dst off n got, l !! k = Some (t, c) -> loaded (fs_img s) (inum_of k) i v ip st ->
      0 <= off <= Z.of_nat (length c) -> 0 <= n -> off + n < 2 ^ 32 -> 0 <= dst < 2 ^ 64 -> got [] (fu st) -> accepts_upto got ud dst (Z.min n (Z.of_nat (length c) - off)) ->
      wp (readi i ud dst off n) st (fun r st' => r = Z.min n (Z.of_nat (length c) - off) /\ got (take (Z.to_nat n) (drop (Z.to_nat off) c)) (fu st'))).
Proof.
  intros Hio Hg Hn Hmod Hroom len l. apply (wp_mono _ _ (fun _ s => image_of (fs_img s) l)); [|intros a s Hs; split; [exact Hs|intros; eapply kernel_reads; eassumption]].
  destruct (length_dirents 1 files Hg) as [Hdl Hdb]. destruct (dirent_ok ROOTINO [46]) as [D1 D2]; [by repeat constructor|]. destruct (dirent_ok ROOTINO [46; 46]) as [D3 D4]; [by repeat constructor|].
  assert (Hrl : Z.of_nat (length (root_dir files)) = len) by (unfold root_dir, len; rewrite !length_app, D1, D3, Hdl; lia). change NINODES with 200 in *. change FSSIZE with 2000 in *.
  change (nmeta + (len_cost (root_dir files) + needs (file_list files)) <= 2000) in Hroom. pose proof (needs_pos (file_list files)) as Hnp.
  pose proof (len_cost_mono (dirent_bytes ROOTINO [46]) (root_dir files)) as M1. pose proof (len_cost_mono (dirent_bytes ROOTINO [46] ++ dirent_bytes ROOTINO [46; 46]) (root_dir files)) as M2.
  specialize (M1 ltac:(unfold root_dir; rewrite !length_app; lia)). specialize (M2 ltac:(unfold root_dir; rewrite !length_app; lia)). assert (Hmx : MAXFILE * BSIZE = 274432) by done.
  assert (Hlm : len mod 1024 <> 0) by (unfold len in *; change 1024 with (16 * 64); rewrite Z.mul_mod_distr_l by lia; lia).
  unfold mkfs_main. do 4 wp_step. cbn [set_fs_sb set_freeblock mkfs_start fs_img freeinode freeblock fs_sb]. wp_step. apply wp_zero_image; [done|]. wp_step. wp_step. cbn [fs_sb].
  wp_step. apply wp_wsect; [done|apply zero_image_ok|done|]. wp_step. eapply (wp_ialloc io_error Hio); [apply start_holds|done|done|]. intros s1 H1. cbn [app length] in *. change (negb (inum_of 0 =? ROOTINO)) with false. cbv iota.
  change (inum_of 0) with ROOTINO. change (xshort ROOTINO) with ROOTINO. wp_step. change ROOTINO with (inum_of 0) at 1. eapply (wp_append io_error Hio s1 _ 0 T_DIR []); [exact H1|done|exact D2|rewrite D1; cbn; lia| |].
  { cbn [insert list_insert app]. change (nmeta + (len_cost (dirent_bytes ROOTINO [46]) + 0) <= 2000). lia. }
  intros s2 H2. cbn [insert list_insert app] in H2. wp_step. change ROOTINO with (inum_of 0) at 1. eapply (wp_append io_error Hio s2 _ 0 T_DIR); [exact H2|done|exact D4|rewrite D1, D3; lia| |].
  { cbn [insert list_insert app]. change (nmeta + (len_cost (dirent_bytes ROOTINO [46] ++ dirent_bytes ROOTINO [46; 46]) + 0) <= 2000). lia. }
  intros s3 H3. cbn [insert list_insert] in H3. wp_step.
  assert (Er : (dirent_bytes ROOTINO [46] ++ dirent_bytes ROOTINO [46; 46]) ++ dirents 1 files = root_dir files) by (by rewrite <- app_assoc).
  eapply (wp_files io_error Hio s3 _ [] files); [exact H3|exact Hg|change NINODES with 200; cbn; lia|rewrite length_app, D1, D3; unfold len in *; lia| |]; cbn [length app]; rewrite Er; [change FSSIZE with 2000; exact Hroom|].
  intros s4 H4. assert (Hsp : forall (m : dinode -> M mkfs unit) k (Q : unit -> mkfs -> Prop), wp (bind (let! din := rinode io_error ROOTINO in m din) k) s4 Q -> wp (let! din := rinode io_error ROOTINO in m din ;; k tt) s4 Q).
  { intros m k Q. unfold wp, bind. destruct (rinode io_error ROOTINO s4); [|done..]. by destruct (m _ _) as [[]| | | |]. }
  apply (Hsp (fun din => winode io_error ROOTINO (set_size (xint (u32 ((xint (di_size din) / BSIZE + 1) * BSIZE))) din)) (fun _ => let! used := gets freeblock in Mkfs.balloc io_error (i32 used))).
  wp_step. apply (wp_round io_error Hio s4 (root_dir files) (file_list files)); [done|by rewrite Hrl|rewrite Hrl; unfold len in *; lia|]. rewrite Hrl. fold l. intros s5 (fs & Hw & El & Hnl) _. do 2 wp_step.
  pose proof (co_hi _ _ (wh_core _ _ Hw)) as Hh. change nmeta with 46 in *. change FSSIZE with 2000 in *. rewrite i32_small by lia. unfold Mkfs.balloc. rewrite (proj2 (Z.ltb_lt _ _)) by (change BSIZE with 1024; lia).
  wp_step. wp_step. rewrite (co_sb _ _ (wh_core _ _ Hw)). change (sb_bmapstart the_super) with 45. apply wp_wsect; [done|apply (wh_core _ _ Hw)|done|]. rewrite <- El. by apply finished.
Qed.
End Kernel.

(** ** Two runs *)
Module MkfsDemo.

(** A file "a" with the two bytes "hi". *)
Definition one : source := ([97], [[104; 105]]).

Lemma mkfs_then_kernel_witness :
  wp (mkfs_main (fun _ => false) [([97], Some [[104; 105]])]) mkfs_start (fun _ s => on_image (fs_img s) 2 T_FILE [104; 105]).
Proof.
  eapply wp_mono; [apply (mkfs_then_kernel (T := ramdisk) (U := flat) 1 ram_ok (fun _ => false) [one])|].
  - done.
  - apply Forall_singleton. split; [by repeat constructor|]. split; [|split; [by repeat constructor|vm_compute; discriminate]].
    apply (bool_decide_unpack _). vm_compute. exact I.
  - done.
  - done.
  - vm_compute. discriminate.
  - intros [] s [Hi _]. exact (io_files _ _ Hi 1%nat T_FILE [104; 105] eq_refl).
Defined.

(** With 62 files the root directory fills its block exactly; the size main()
    gives it covers a second block that it does not have. *)
Lemma root_hole :
  match mkfs_main (fun _ => false) (replicate 62 ([97], Some [])) mkfs_start with
  | Ok _ s => di_size (disk_inode (fs_img s) ROOTINO) = 2 * BSIZE /\ addr_of 1 (disk_inode (fs_img s) ROOTINO) = 0
  | _ => False
  end.
Proof. vm_compute. split; reflexivity. Qed.

End MkfsDemo.
